(* ===== verification/_CoqProject ===== *)
-Q . S2P
Prelude.v
CString.v
Charset.v
Readline.v
Completion.v
Comments.v
CommandTable.v
CompletionBuild.v
CommandArgs.v
Commands.v
Connect.v
AddLine.v
AddLineSafe.v
AddLineTokens.v
AddLineQuirks.v
OracleSet.v
OracleDefine.v
Numbers.v
Typelib.v
FileNames.v
OptionFiles.v
OptionFilesSpec.v
GetOpt.v
GetOptParse.v
GetOptSafe.v
GetOptHelp.v
Base64.v
Pack.v
Queue.v
Hash.v
HashChains.v
HashSplit.v
HashTables.v
HashSpec.v
Wild.v
Dates.v
NumFormat.v
CellWidths.v
Utf8.v
Output.v
Multibyte.v
ReadExec.v
Execute.v
Session.v
Prompt.v
Options.v
OptionsSpec.v
ExecuteOption.v
Startup.v
Databases.v
Help.v
Str2Int.v
Status.v
SourceCommand.v
Patterns.v
OracleErrors.v
History.v
