(* ===== verification/Prelude.v ===== *)
(** * A verification library for OBClient

    OBClient is the command line client of OceanBase, derived from the MariaDB
    client.  This library models the client and the parts of its runtime
    libraries that compute, and proves what they promise.

    ** The program and the files that model it

    A session is a loop, [read_and_execute] of client/mysql.cc.  It takes a
    line from the batch reader (client/readline.cc) or the terminal, and gives
    it to the commands of Oracle mode, to the commands of the client, or to the
    statement scanner [add_line], which collects statements up to a delimiter
    and has them executed; the results are printed in one of several forms.

    - [Prelude] (this file): C strings as lists of bytes, character literals,
      and the C library functions and list lemmas that all files share.
    - [CString]: strings/strcont.c, strmake.c, is_prefix.c,
      strmov_overlapp.c.
    - [Charset]: the character classes of include/m_ctype.h, the tables of
      strings/ctype-latin1.c and the comparison of strings/ctype-simple.c.
    - [Readline]: client/readline.cc.  [LINE_BUFFER] is the record of
      client/my_readline.h; the system call is a parameter [my_read].
    - [Completion], [CompletionBuild]: client/completion_hash.cc, and the
      functions of mysql.cc that fill its table from the commands and the
      server's answers.  The hash table is a list of chains of buckets, each
      bucket with its list of words.
    - [CommandTable], [Comments], [CommandArgs], [Commands]: the table of
      commands of mysql.cc; skipping of comments and kinds of lines; [get_arg]
      and its relatives, with the line edited in place; lookup of commands,
      DELIMITER and disabled commands.
    - [AddLine]: the scanner [add_line] with its helpers, on the bytes of the
      line that it edits in place.  [AddLineSafe], [AddLineTokens] and
      [AddLineQuirks] hold its theorems.  The rest of the program is a type
      [world] with the operations of the class [Program]; a small program that
      records statements is an instance.
    - [OracleSet], [OracleDefine]: the SET command of Oracle mode with its
      variables; substitution variables, DEFINE, PROMPT and EXECUTE.
    - [ReadExec]: the main loop, over a class [Source] of lines of which the
      batch reader is an instance, and a class [Client] of the variables and
      commands it uses.
    - [Connect]: connect strings, lists of hosts and names of users; opening of
      a connection ([sql_connect]) and the CONNECT command over the variables it
      leaves.  The connector library is the class
      [Network].
    - [Execute]: [com_go] and what it calls: messages ([put_info]), sending of
      a statement with automatic reconnecting, the printing of its results and
      warnings.  The connection is the class [Server].
    - [NumFormat], [Output]: the display of numbers in columns of fixed width,
      on the byte arrays of the source; the table, vertical, HTML, XML and
      batch forms of results, with the tee file.
    - [CellWidths], [Utf8], [Multibyte]: the codec of UTF-8, the functions of
      strings/ctype-mb.c and ctype-mb.ic that count, measure and repair
      texts with the table of widths on the screen, and the character sets
      utf8mb4, gbk and gb18030 as the client sees them.
    - [Numbers]: strings/int2str.c, longlong2str.c and my_strtoll10.c, on
      64-bit integers with their wrap-around.
    - [Base64], [Pack], [Queue], [Wild], [Dates]: mysys/base64.c,
      sql-common/pack.c, mysys/queues.c, mysys/mf_wcomp.c, and the calendar
      of sql-common/my_time.c and sql/sql_time.cc.
    - [Hash]: the hash tables of mysys/hash.c, chains of links in one array
      that grow and shrink by one chain at a time.  [HashChains], [HashSplit]
      and [HashTables] hold the lemmas on links, on the splitting of a chain
      and on the operations; [HashSpec] the specification, and the hash
      function of the simple character sets.
    - [Typelib], [GetOpt]: lists of names (mysys/typelib.c) and the option
      parser (mysys/my_getopt.c).  The variables of the program are a class
      [Variables] and its [get_one_option] an argument.  [GetOptParse] holds
      the meaning of command lines, [GetOptSafe] what holds for all of them,
      [GetOptHelp] the printing of the help with its wrapping of lines.
    - [Session], [Prompt], [Options]: the global variables of mysql.cc in one
      map by their names; the commands for the tee file and the pager; the
      prompt; the table of options with [get_one_option], [get_options] and the
      beginning of [main].  [OptionsSpec] holds the theorems on the options.
    - [FileNames]: the functions of mysys/mf_dirname.c, mf_pack.c, mf_format.c,
      mf_fn_ext.c and my_getwd.c that clean and build names of files, on the
      arrays of the source.  [OptionFiles]: mysys/my_default.c, from the lines of
      an option file to the argument list; the file system is a parameter.
      [OptionFilesSpec] holds the grammar of option files and its theorems.
    - [Databases], [Help], [Status], [SourceCommand], [History]: the commands USE,
      help, status, source and clear with the login script, the query for the
      current database, the history of statements, and strings/strxnmov.c.  The
      classes [Databases], [StatusInfo] and [Scripts] extend [Server] and [Client]
      by the variables and the functions of the connector that they use.
      [Databases] also puts USE, [com_go] and the main loop together to one
      client.
    - [Patterns], [OracleErrors]: the object of the last CREATE or ALTER in Oracle
      mode and SHOW ERRORS.  The regular expressions of [init_pl_sql] are terms of
      [Patterns.re]; the library that matches them is the class [Regexec], which
      promises the first match of a depth-first search.
    - [Str2Int]: strings/str2int.c, at the width of long.
    - [ExecuteOption], [Startup]: the components together, from -e options to the
      statements that are sent, and from option files and the command line to
      the variables of the client.

    ** Conventions

    A [char *] that is read is the list of bytes from the pointer on; a line
    that the code edits is a memory (a list with its terminating NUL) and
    positions in it.  Machine integers are [Z], with the wrap-around written
    out where the code can reach it.  Functions that may fail return
    [option] or the error code; state is passed explicitly in records that
    have the source's members.  Loops that are not structural take fuel, except
    the sending of a statement, whose recursion is well-founded by its own test.
    Where the fuel is not computed from the argument, a theorem says how much
    is enough: one more than the bytes of the line for the scanner
    ([add_line_returns]), than the bytes of the file for the batch reader
    ([batch_readline_file]) and the lines of the input for the main loop
    ([read_and_execute_ends]).  Code that is not part of the source - the
    connector library, the operating system, regular expressions, the readline
    library - is a class or a section variable, with its documented behaviour as
    hypotheses, and each theorem that has them comes with a concrete instance.

    ** What the theorems show

    - From a file to the server: the batch reader delivers exactly the lines
      of a file however the system cuts it into blocks; a scanned line means
      what its tokens (characters, strings, comments, delimiters) say, in MySQL
      mode and with comments sent, as by default, or not; editing the line in
      place never overtakes the reading position; and together, the client runs
      the commands of a script and sends exactly its other statements, in order,
      up to one that ends the client.  The same holds for statements on the command
      line, with the delimiter and the handling of comments that it has set, and
      for the command source, after which the session goes on as before.
    - The server: a connect string leads to exactly the attempt to connect that
      it describes, and a lost connection to a list of hosts to an attempt with
      the same list; a statement is sent again exactly after a lost connection that
      was opened again, and at most three times; with --one-database exactly the
      statements behind a USE of that database and SET statements are sent; and what a statement
      prints in a script reads back as the values of its results.
    - Commands: lookup by name, disabled commands, DELIMITER, the arguments of
      commands and their quoting, SET and DEFINE of Oracle mode, substitution
      of variables with the questions that are asked, completion of words, and SHOW
      ERRORS, whose query reads back as the object that the last CREATE or ALTER
      statement names.
    - Options: a command line does what its settings say, in their order, and
      leaves the plain arguments; whatever the command line is, the parser ends
      and the client's arrays, lengths and modes fit together; an option writes
      no variables but its own; option files give exactly the options that
      their lines say, before those of the command line, which has the last word;
      names of directories without components like ..foo are cleaned to their
      canonical form; the help is
      wrapped to its column; the prompt shows what its sequences mean.
    - Results: the batch form can be read back, the columns of a table are
      aligned on the screen, in 8-bit character sets and in UTF-8, which are
      instances of the class [Screen]; the encoding of XML and HTML is faithful, a number that fits
      into its column is shown exactly and none is wider than the column.
    - Character sets: the encoder and the decoder of UTF-8 are inverse and the
      decoder accepts nothing else; the copy of a text repairs it; the
      character sets of the client fulfil what the scanner and the output
      rely on.
    - Libraries: printing and reading of integers are inverse and reading is
      right at every boundary, also within bounds; base64 and length-encoded integers are
      round trips; the priority queue and the hash table refine a bag; wildcard comparison
      decides the meaning of patterns; dates and day numbers correspond
      one to one.
    - Flaws: theorems evaluate the inputs on which the code does not do what it
      means to (nested comments, the completion table, disabled commands,
      numbers that lose their exponent, variables that a failed CONNECT leaves
      behind, accesses outside arrays in the reading of option files), or are
      general statements that include them (QUIT with a delimiter, which is sent
      to the server, statements that --one-database ignores but that stay in the
      buffer, names of directories that begin with two dots, a long argument of
      help, integers of twenty digits, options without an effect, sequences of
      the prompt that have no meaning, words wider than the help).

    ** Not modelled

    The messages of the start-up after connecting, the end of the program and
    signal handling; options with floating point values, whose conversion is a
    parameter; the connector library, an empty submodule here, and the options of
    a connection other than its character set and proxy; DBMS_OUTPUT, which rests
    on prepared statements; the file of the history; the commands that only start
    other programs, the command charset, which needs the table of all character
    sets, and the list of column types; the terminal.  The other programs of client/
    (mysqldump, mysqltest, mysqlbinlog and the administration programs), the
    server, the storage engines and the bundled libraries are not part of the
    client.  Of the runtime libraries, files, threads and memory are left out,
    and of the character sets the collations, the case conversion and the
    conversions of gbk and gb18030 to Unicode. *)

From Stdlib Require Export Ascii String ZArith Lia.
From Stdlib Require Import Init.Byte Strings.Byte.
From stdpp Require Export base numbers option sets tactics list.
#[export] Set Warnings "-notation-overridden,-clear-no-such-hyp".
Open Scope Z_scope.

(** ** Characters and C strings

    A C [char] is its unsigned value, a [Z] between 0 and 255; every test the
    modelled code makes on a character is an equality or a comparison with an
    ASCII constant, on which the signedness of [char] has no influence.  A
    character constant is written with a string literal of length one in
    [chr_scope]: ["a"%chr] is the number 97 itself. *)

Definition chr_parse (b : list Init.Byte.byte) : option Z :=
  match b with
  | [c] => Some (Z.of_N (Byte.to_N c))
  | _ => None
  end.

Definition chr_print (z : Z) : option (list Init.Byte.byte) := None.

Declare Scope chr_scope.
Delimit Scope chr_scope with chr.
String Notation Z chr_parse chr_print : chr_scope.

(** Control characters that have no printable literal. *)
Abbreviation c_tab := 9.
Abbreviation c_nl := 10.
Abbreviation c_cr := 13.

(** A string constant of the source as the list of its bytes. *)
Definition str (s : string) : list Z :=
  map (fun a => Z.of_N (N_of_ascii a)) (list_ascii_of_string s).
Arguments str s%_string_scope.

(** A [char *] that is only read is the list of the bytes from the pointer
    on, up to and without the terminating NUL: [*p] is [deref p], [p + n] is
    [drop n p], and the byte at and after the end is NUL. *)
Definition deref (p : list Z) : Z := nth 0 p 0.
Definition at_ (p : list Z) (n : nat) : Z := nth n p 0.

(** A well-formed C string contains no NUL and only bytes. *)
Definition is_char (c : Z) : bool := (1 <=? c) && (c <=? 255).
Definition c_string (s : list Z) : Prop := Forall (fun c => is_char c = true) s.

(** A byte is an [unsigned char]. *)
Abbreviation is_byte := (fun c : Z => 0 <= c < 256).

(** Conversion to an [int]. *)
Definition int32 (z : Z) : Z := (z + 2 ^ 31) mod 2 ^ 32 - 2 ^ 31.

(** [strlen], [strncasecmp] and [strstr] of the C library. *)
Fixpoint strlen (s : list Z) : nat :=
  match s with
  | [] => O
  | c :: s' => if c =? 0 then O else S (strlen s')
  end.

(** [tolower] of the C locale, as [strncasecmp] uses it. *)
Definition tolower (c : Z) : Z :=
  if (("A"%chr <=? c) && (c <=? "Z"%chr))%bool then c + 32 else c.

(** [strncasecmp(a, b, n) == 0]. *)
Fixpoint strncaseeq (n : nat) (a b : list Z) : bool :=
  match n with
  | O => true
  | S n' =>
      if negb (tolower (deref a) =? tolower (deref b)) then false
      else if deref a =? 0 then true
      else strncaseeq n' (drop 1 a) (drop 1 b)
  end.

(** The loop [while (p[0] && f(p[0])) p++]: the pointer after it. *)
Fixpoint skip_while (f : Z -> bool) (p : list Z) : list Z :=
  match p with
  | [] => []
  | c :: p' => if c =? 0 then p else if f c then skip_while f p' else p
  end.

(** ** Generic lemmas *)

Lemma filter_all {A} (P : A -> Prop) `{forall x, Decision (P x)} (l : list A) :
  Forall P l -> filter P l = l.
Proof.
  induction 1 as [|x l Hx _ IH]; [done|]. rewrite filter_cons_True by done. by rewrite IH.
Qed.

Lemma skip_while_app f sp l :
  Forall (fun c => c <> 0 /\ f c = true) sp -> deref l = 0 \/ f (deref l) = false -> skip_while f (sp ++ l) = l.
Proof.
  intros Hsp Hl. induction Hsp as [|c sp [Hc Hf] _ IH]; cbn.
  - destruct l as [|c l]; [done|]. cbn in *. destruct (Z.eqb_spec c 0); [done|].
    destruct Hl as [?|Hf]; [done|]. by rewrite Hf.
  - apply Z.eqb_neq in Hc. by rewrite Hc, Hf.
Qed.

Lemma skip_while_stop f p : deref (skip_while f p) = 0 \/ f (deref (skip_while f p)) = false.
Proof.
  induction p as [|c p IH]; cbn; [by left|].
  destruct (Z.eqb_spec c 0); [by left|]. destruct (f c) eqn:Hf; [done|by right].
Qed.

(** Bits put together by [|] do not overlap. *)
Lemma lor_shiftl a b k : 0 <= k -> 0 <= a < 2 ^ k -> Z.lor a (Z.shiftl b k) = a + b * 2 ^ k.
Proof.
  intros Hk Ha. assert (Z.land a (Z.shiftl b k) = 0) as Hl.
  { apply Z.bits_inj'. intros n Hn. rewrite Z.land_spec, Z.shiftl_spec, Z.bits_0 by done.
    destruct (Z.lt_ge_cases n k) as [Hlt|Hge].
    - rewrite (Z.testbit_neg_r b) by lia. by rewrite andb_false_r.
    - destruct (Z.eq_dec a 0) as [->|Hne]; [by rewrite Z.bits_0|].
      rewrite (Z.bits_above_log2 a), andb_false_l; [done|lia|].
      assert (Z.log2 a < k) by (apply Z.log2_lt_pow2; lia). lia. }
  rewrite <-Z.lxor_lor by done. rewrite <-Z.add_nocarry_lxor by done. by rewrite Z.shiftl_mul_pow2.
Qed.

Lemma drop_1_cons {A} (c : A) l : drop 1 (c :: l) = l.
Proof. cbn. apply drop_0. Qed.

(** Disjoint pieces: the element determines the piece it is in. *)
Lemma NoDup_concat_indexed {A} (f : A -> nat) (ll : list (list A)) (k : nat) :
  (forall i l, ll !! i = Some l -> NoDup l /\ forall x, x ∈ l -> f x = (k + i)%nat) ->
  NoDup (concat ll).
Proof.
  revert k. induction ll as [|l ll IH]; intros k H; cbn; [constructor|].
  assert (Hll : forall i l', ll !! i = Some l' -> NoDup l' /\ forall x, x ∈ l' -> f x = (S k + i)%nat).
  { intros i l' Hi. destruct (H (S i) l' Hi) as [Hn Hf]. split; [done|].
    intros x Hx. rewrite (Hf x Hx). lia. }
  destruct (H O l eq_refl) as [Hn Hf]. apply NoDup_app. split_and!; [done| |by eapply IH].
  intros x Hx Hc. apply list_elem_of_In, in_concat in Hc as (l' & Hl' & Hx').
  apply list_elem_of_In, list_elem_of_lookup in Hl' as [i Hi].
  destruct (Hll i l' Hi) as [_ Hf']. specialize (Hf x Hx).
  specialize (Hf' x (proj2 (list_elem_of_In _ _) Hx')). lia.
Qed.

(** Grouping a list by keys that cover it keeps its elements. *)
Lemma group_by_keys {A} `{EqDecision A} (ks ws : list A) :
  NoDup ks -> (forall w, w ∈ ws -> w ∈ ks) ->
  flat_map (fun k => filter (fun w => w = k) ws) ks ≡ₚ ws.
Proof.
  intros Hnd. induction ws as [|w ws IH]; intros Hall.
  - clear. by induction ks.
  - assert (w ∈ ks) as Hw by set_solver.
    apply list_elem_of_split in Hw as (k1 & k2 & ->).
    apply NoDup_app in Hnd as (_ & Hd & Hnd2). apply NoDup_cons in Hnd2 as [Hn2 _].
    assert (Hn1 : w ∉ k1) by (intros H; apply (Hd w H); set_solver).
    assert (Hskip : forall ks', w ∉ ks' -> flat_map (fun k => filter (fun x => x = k) (w :: ws)) ks'
                        = flat_map (fun k => filter (fun x => x = k) ws) ks').
    { intros ks' Hks. induction ks' as [|k ks' IHk]; [done|]. cbn [flat_map].
      rewrite IHk by set_solver. f_equal. apply filter_cons_False. set_solver. }
    rewrite flat_map_app. cbn [flat_map]. rewrite !Hskip by done.
    rewrite filter_cons_True by done. cbn.
    rewrite <-Permutation_middle. f_equiv.
    rewrite flat_map_app in IH. apply IH. set_solver.
Qed.

Create HintDb obclient.
Create Rewrite HintDb obclient.
