(* ===== verification/CString.v ===== *)
(** * C strings (strings/strcont.c, strings/is_prefix.c, strings/strmake.c,
    strings/strmov_overlapp.c)

    The string helpers the client is written with, and the C library's
    [strstr] and [strcmp].  A pointer that is only read is the list of the
    bytes behind it; a buffer that is changed in place is the list of its
    bytes together with a position. *)

From S2P Require Import Prelude.

(** The C string at the start of a buffer that may contain NUL bytes. *)
Definition cstr (l : list Z) : list Z := take (strlen l) l.

Fixpoint strcont (s set : list Z) : option (list Z) :=
  match s with
  | [] => None
  | c :: s' =>
      if c =? 0 then None
      else if existsb (Z.eqb c) (cstr set) then Some s else strcont s' set
  end.

Fixpoint is_prefix (s t : list Z) : bool :=
  match t with
  | [] => true
  | c :: t' =>
      if c =? 0 then true
      else if negb (deref s =? c) then false else is_prefix (drop 1 s) t'
  end.

(** What [strmake] leaves in the destination, as a C string: at most
    [length] bytes of the source. *)
Fixpoint strmake (src : list Z) (length : nat) : list Z :=
  match length with
  | O => []
  | S n =>
      match src with
      | [] => []
      | c :: src' => if c =? 0 then [] else c :: strmake src' n
      end
  end.

(** [strmov_overlapp(ptr, ptr+1)] in a buffer: the string behind [ptr+1],
    with its NUL, moves one byte down. *)
Definition strmov_overlapp (buf : list Z) (ptr : nat) : list Z :=
  let tail := drop (S ptr) buf in
  let len := strlen tail in
  take ptr buf ++ take len tail ++ 0 :: drop (ptr + len + 1) buf.

(** [strstr] of the C library. *)
Fixpoint strstr (s t : list Z) : option (list Z) :=
  if is_prefix s t then Some s
  else match s with
       | [] => None
       | c :: s' => if c =? 0 then None else strstr s' t
       end.

Definition found {A} (o : option A) : bool := match o with Some _ => true | None => false end.

(** [strcmp(a, b) == 0]. *)
Definition streq (a b : list Z) : bool := bool_decide (cstr a = cstr b).

(** ** Facts *)

Lemma is_char_nz c : is_char c = true -> (c =? 0) = false.
Proof. unfold is_char. destruct (Z.eqb_spec c 0) as [->|]; [discriminate|done]. Qed.

Lemma strlen_c_string s : c_string s -> strlen s = length s.
Proof.
  induction 1 as [|c s Hc _ IH]; cbn; [done|]. by rewrite (is_char_nz c Hc), IH.
Qed.

Lemma cstr_c_string s : c_string s -> cstr s = s.
Proof. intros H. unfold cstr. rewrite strlen_c_string by done. apply firstn_all. Qed.

Lemma deref_c_string s : c_string s -> (deref s =? 0) = bool_decide (s = []).
Proof.
  intros [|c s' Hc _]; [done|]. cbn. by rewrite (is_char_nz c Hc).
Qed.

Lemma c_string_app a b : c_string (a ++ b) <-> c_string a /\ c_string b.
Proof. apply Forall_app. Qed.

Lemma c_string_drop n s : c_string s -> c_string (drop n s).
Proof. apply Forall_drop. Qed.

Lemma c_string_take n s : c_string s -> c_string (take n s).
Proof. apply Forall_take. Qed.

Lemma c_string_nz s : c_string s -> 0 ∉ s.
Proof. intros H Hin. by eapply (proj1 (Forall_forall _ _) H) in Hin. Qed.

Lemma is_prefix_spec s t : c_string t -> is_prefix s t = true <-> t `prefix_of` s.
Proof.
  intros Ht. revert s. induction Ht as [|c t Hc _ IH]; intros s; cbn.
  { split; [|done]. intros _. apply prefix_nil. }
  rewrite (is_char_nz c Hc). destruct s as [|d s]; cbn [deref nth skipn].
  - apply is_char_nz in Hc. rewrite Z.eqb_sym, Hc. cbn.
    split; [discriminate|]. intros [k Hk]. discriminate.
  - rewrite drop_0. destruct (Z.eqb_spec d c) as [->|Hne]; cbn.
    + rewrite IH. split; intros H; [by apply prefix_cons|by apply prefix_cons_inv_2 in H].
    + split; [discriminate|]. intros H. by apply prefix_cons_inv_1 in H.
Qed.

Lemma strmake_take src n : c_string src -> strmake src n = take n src.
Proof.
  intros H. revert n. induction H as [|c s Hc _ IH]; intros [|n]; cbn; [done..|].
  by rewrite (is_char_nz c Hc), IH.
Qed.

(** [strcont] finds the first byte of the set. *)
Lemma strcont_spec s set :
  c_string s -> c_string set ->
  match strcont s set with
  | None => Forall (fun c => c ∉ set) s
  | Some r => exists pre c r', s = pre ++ r /\ r = c :: r' /\ c ∈ set /\ Forall (fun d => d ∉ set) pre
  end.
Proof.
  intros Hs Hset. induction Hs as [|c s Hc _ IH]; cbn; [constructor|].
  rewrite (is_char_nz c Hc), cstr_c_string by done.
  destruct (existsb (Z.eqb c) set) eqn:E.
  - apply existsb_exists in E as (d & Hd & ->%Z.eqb_eq). exists [], d, s.
    split_and!; [done|done|by apply list_elem_of_In|constructor].
  - assert (c ∉ set).
    { intros Hin%list_elem_of_In. assert (existsb (Z.eqb c) set = true); [|congruence].
      apply existsb_exists. exists c. split; [done|apply Z.eqb_refl]. }
    destruct (strcont s set) as [r|].
    + destruct IH as (pre & d & r' & -> & -> & Hd & Hf). exists (c :: pre), d, r'.
      split_and!; [done|done|done|by constructor].
    + by constructor.
Qed.

Definition infix_of (t s : list Z) : Prop := exists a b, s = a ++ t ++ b.

(** [strstr] succeeds when the needle occurs. *)
Lemma strstr_spec s t : c_string s -> c_string t -> found (strstr s t) = true <-> infix_of t s.
Proof.
  intros Hs Ht. induction Hs as [|c s Hc _ IH]; cbn.
  - destruct (is_prefix [] t) eqn:E; cbn; split; try discriminate; try done.
    + intros _. apply is_prefix_spec in E as [k Hk]; [|done]. exists [], k. done.
    + intros (a & b & Hab). symmetry in Hab. apply app_eq_nil in Hab as [_ [-> _]%app_eq_nil].
      discriminate.
  - rewrite (is_char_nz c Hc). destruct (is_prefix (c :: s) t) eqn:E.
    + split; [|done]. intros _. apply is_prefix_spec in E as [k Hk]; [|done]. by exists [], k.
    + rewrite IH. split.
      * intros (a & b & ->). by exists (c :: a), b.
      * intros (a & b & Hab). destruct a as [|x a]; cbn in Hab.
        -- assert (is_prefix (c :: s) t = true); [|congruence].
           apply is_prefix_spec; [done|]. by exists b.
        -- injection Hab as _ ->. by exists a, b.
Qed.

#[export] Hint Resolve is_char_nz c_string_drop c_string_take : obclient.
#[export] Hint Rewrite cstr_c_string strlen_c_string strmake_take using done : obclient.
