(* ===== verification/Charset.v ===== *)
(** * Character sets (strings/ctype-latin1.c, include/m_ctype.h,
    strings/ctype-simple.c)

    The client classifies characters with the tables of a [CHARSET_INFO]; its
    initial one, and the one it uses for command names, is [my_charset_latin1].
    A multi-byte character set is given by its [ismbchar] function, which
    returns the length of the multi-byte character at the start of the bytes
    it is given, or 0. *)

From S2P Require Import Prelude.

Record CHARSET_INFO := mkCS {
  ctype : list Z;
  to_lower : list Z;
  to_upper : list Z;
  sort_order : list Z;
  use_mb : bool;
  ismbchar : list Z -> nat
}.

Definition ctype_latin1 : list Z :=
  [0;
   32; 32; 32; 32; 32; 32; 32; 32; 32; 40; 40; 40; 40; 40; 32; 32;
   32; 32; 32; 32; 32; 32; 32; 32; 32; 32; 32; 32; 32; 32; 32; 32;
   72; 16; 16; 16; 16; 16; 16; 16; 16; 16; 16; 16; 16; 16; 16; 16;
   132; 132; 132; 132; 132; 132; 132; 132; 132; 132; 16; 16; 16; 16; 16; 16;
   16; 129; 129; 129; 129; 129; 129; 1; 1; 1; 1; 1; 1; 1; 1; 1;
   1; 1; 1; 1; 1; 1; 1; 1; 1; 1; 1; 16; 16; 16; 16; 16;
   16; 130; 130; 130; 130; 130; 130; 2; 2; 2; 2; 2; 2; 2; 2; 2;
   2; 2; 2; 2; 2; 2; 2; 2; 2; 2; 2; 16; 16; 16; 16; 32;
   16; 0; 16; 2; 16; 16; 16; 16; 16; 16; 1; 16; 1; 0; 1; 0;
   0; 16; 16; 16; 16; 16; 16; 16; 16; 16; 2; 16; 2; 0; 2; 1;
   72; 16; 16; 16; 16; 16; 16; 16; 16; 16; 16; 16; 16; 16; 16; 16;
   16; 16; 16; 16; 16; 16; 16; 16; 16; 16; 16; 16; 16; 16; 16; 16;
   1; 1; 1; 1; 1; 1; 1; 1; 1; 1; 1; 1; 1; 1; 1; 1;
   1; 1; 1; 1; 1; 1; 1; 16; 1; 1; 1; 1; 1; 1; 1; 2;
   2; 2; 2; 2; 2; 2; 2; 2; 2; 2; 2; 2; 2; 2; 2; 2;
   2; 2; 2; 2; 2; 2; 2; 16; 2; 2; 2; 2; 2; 2; 2; 2].

Definition to_lower_latin1 : list Z :=
  [0; 1; 2; 3; 4; 5; 6; 7; 8; 9; 10; 11; 12; 13; 14; 15;
   16; 17; 18; 19; 20; 21; 22; 23; 24; 25; 26; 27; 28; 29; 30; 31;
   32; 33; 34; 35; 36; 37; 38; 39; 40; 41; 42; 43; 44; 45; 46; 47;
   48; 49; 50; 51; 52; 53; 54; 55; 56; 57; 58; 59; 60; 61; 62; 63;
   64; 97; 98; 99; 100; 101; 102; 103; 104; 105; 106; 107; 108; 109; 110; 111;
   112; 113; 114; 115; 116; 117; 118; 119; 120; 121; 122; 91; 92; 93; 94; 95;
   96; 97; 98; 99; 100; 101; 102; 103; 104; 105; 106; 107; 108; 109; 110; 111;
   112; 113; 114; 115; 116; 117; 118; 119; 120; 121; 122; 123; 124; 125; 126; 127;
   128; 129; 130; 131; 132; 133; 134; 135; 136; 137; 138; 139; 140; 141; 142; 143;
   144; 145; 146; 147; 148; 149; 150; 151; 152; 153; 154; 155; 156; 157; 158; 159;
   160; 161; 162; 163; 164; 165; 166; 167; 168; 169; 170; 171; 172; 173; 174; 175;
   176; 177; 178; 179; 180; 181; 182; 183; 184; 185; 186; 187; 188; 189; 190; 191;
   224; 225; 226; 227; 228; 229; 230; 231; 232; 233; 234; 235; 236; 237; 238; 239;
   240; 241; 242; 243; 244; 245; 246; 215; 248; 249; 250; 251; 252; 253; 254; 223;
   224; 225; 226; 227; 228; 229; 230; 231; 232; 233; 234; 235; 236; 237; 238; 239;
   240; 241; 242; 243; 244; 245; 246; 247; 248; 249; 250; 251; 252; 253; 254; 255].

Definition to_upper_latin1 : list Z :=
  [0; 1; 2; 3; 4; 5; 6; 7; 8; 9; 10; 11; 12; 13; 14; 15;
   16; 17; 18; 19; 20; 21; 22; 23; 24; 25; 26; 27; 28; 29; 30; 31;
   32; 33; 34; 35; 36; 37; 38; 39; 40; 41; 42; 43; 44; 45; 46; 47;
   48; 49; 50; 51; 52; 53; 54; 55; 56; 57; 58; 59; 60; 61; 62; 63;
   64; 65; 66; 67; 68; 69; 70; 71; 72; 73; 74; 75; 76; 77; 78; 79;
   80; 81; 82; 83; 84; 85; 86; 87; 88; 89; 90; 91; 92; 93; 94; 95;
   96; 65; 66; 67; 68; 69; 70; 71; 72; 73; 74; 75; 76; 77; 78; 79;
   80; 81; 82; 83; 84; 85; 86; 87; 88; 89; 90; 123; 124; 125; 126; 127;
   128; 129; 130; 131; 132; 133; 134; 135; 136; 137; 138; 139; 140; 141; 142; 143;
   144; 145; 146; 147; 148; 149; 150; 151; 152; 153; 154; 155; 156; 157; 158; 159;
   160; 161; 162; 163; 164; 165; 166; 167; 168; 169; 170; 171; 172; 173; 174; 175;
   176; 177; 178; 179; 180; 181; 182; 183; 184; 185; 186; 187; 188; 189; 190; 191;
   192; 193; 194; 195; 196; 197; 198; 199; 200; 201; 202; 203; 204; 205; 206; 207;
   208; 209; 210; 211; 212; 213; 214; 215; 216; 217; 218; 219; 220; 221; 222; 223;
   192; 193; 194; 195; 196; 197; 198; 199; 200; 201; 202; 203; 204; 205; 206; 207;
   208; 209; 210; 211; 212; 213; 214; 247; 216; 217; 218; 219; 220; 221; 222; 255].

Definition sort_order_latin1 : list Z :=
  [0; 1; 2; 3; 4; 5; 6; 7; 8; 9; 10; 11; 12; 13; 14; 15;
   16; 17; 18; 19; 20; 21; 22; 23; 24; 25; 26; 27; 28; 29; 30; 31;
   32; 33; 34; 35; 36; 37; 38; 39; 40; 41; 42; 43; 44; 45; 46; 47;
   48; 49; 50; 51; 52; 53; 54; 55; 56; 57; 58; 59; 60; 61; 62; 63;
   64; 65; 66; 67; 68; 69; 70; 71; 72; 73; 74; 75; 76; 77; 78; 79;
   80; 81; 82; 83; 84; 85; 86; 87; 88; 89; 90; 91; 92; 93; 94; 95;
   96; 65; 66; 67; 68; 69; 70; 71; 72; 73; 74; 75; 76; 77; 78; 79;
   80; 81; 82; 83; 84; 85; 86; 87; 88; 89; 90; 123; 124; 125; 126; 127;
   128; 129; 130; 131; 132; 133; 134; 135; 136; 137; 138; 139; 140; 141; 142; 143;
   144; 145; 146; 147; 148; 149; 150; 151; 152; 153; 154; 155; 156; 157; 158; 159;
   160; 161; 162; 163; 164; 165; 166; 167; 168; 169; 170; 171; 172; 173; 174; 175;
   176; 177; 178; 179; 180; 181; 182; 183; 184; 185; 186; 187; 188; 189; 190; 191;
   65; 65; 65; 65; 92; 91; 92; 67; 69; 69; 69; 69; 73; 73; 73; 73;
   68; 78; 79; 79; 79; 79; 93; 215; 216; 85; 85; 85; 89; 89; 222; 223;
   65; 65; 65; 65; 92; 91; 92; 67; 69; 69; 69; 69; 73; 73; 73; 73;
   68; 78; 79; 79; 79; 79; 93; 247; 216; 85; 85; 85; 89; 89; 222; 255].

Definition my_charset_latin1 : CHARSET_INFO :=
  mkCS ctype_latin1 to_lower_latin1 to_upper_latin1 sort_order_latin1 false (fun _ => O).

(** The bits of the [ctype] table. *)
Definition MY_U : Z := 1.
Definition MY_L : Z := 2.
Definition MY_NMR : Z := 4.
Definition MY_SPC : Z := 8.
Definition MY_PNT : Z := 16.
Definition MY_CTR : Z := 32.
Definition MY_B : Z := 64.
Definition MY_X : Z := 128.

(** The table has an entry for EOF in front, hence [ctype + 1]. *)
Definition is_class (cs : CHARSET_INFO) (mask c : Z) : bool :=
  negb (Z.land (nth (Z.to_nat (c + 1)) (ctype cs) 0) mask =? 0).

Definition my_isspace (cs : CHARSET_INFO) (c : Z) : bool := is_class cs MY_SPC c.
Definition my_isdigit (cs : CHARSET_INFO) (c : Z) : bool := is_class cs MY_NMR c.
Definition my_isalpha (cs : CHARSET_INFO) (c : Z) : bool := is_class cs (Z.lor MY_U MY_L) c.
Definition my_isalnum (cs : CHARSET_INFO) (c : Z) : bool :=
  is_class cs (Z.lor MY_U (Z.lor MY_L MY_NMR)) c.
Definition my_iscntrl (cs : CHARSET_INFO) (c : Z) : bool := is_class cs MY_CTR c.
Definition my_isgraph (cs : CHARSET_INFO) (c : Z) : bool :=
  is_class cs (Z.lor MY_PNT (Z.lor MY_U (Z.lor MY_L MY_NMR))) c.

(** The comparison loop of [my_strnncoll_simple]. *)
Fixpoint strnncoll_loop (map : list Z) (len : nat) (s t : list Z) : option Z :=
  match len with
  | O => None
  | S len' =>
      let a := nth (Z.to_nat (deref s)) map 0 in
      let b := nth (Z.to_nat (deref t)) map 0 in
      if negb (a =? b) then Some (a - b)
      else strnncoll_loop map len' (drop 1 s) (drop 1 t)
  end.

Definition my_strnncoll_simple (cs : CHARSET_INFO) (s : list Z) (slen : nat) (t : list Z)
    (tlen : nat) (t_is_prefix : bool) : Z :=
  let len := if (tlen <? slen)%nat then tlen else slen in
  let slen := if t_is_prefix && (tlen <? slen)%nat then tlen else slen in
  match strnncoll_loop (sort_order cs) len s t with
  | Some d => d
  | None => if (tlen <? slen)%nat then 1 else if (slen <? tlen)%nat then -1 else 0
  end.

Definition my_strnncoll (cs : CHARSET_INFO) (s : list Z) (slen : nat) (t : list Z) (tlen : nat) : Z :=
  my_strnncoll_simple cs s slen t tlen false.

(** Every character set the client can use classifies the ASCII characters
    in the same way. *)
Definition ascii_compatible (cs : CHARSET_INFO) : Prop :=
  forall c, 0 <= c < 128 ->
    my_isspace cs c = my_isspace my_charset_latin1 c
    /\ my_isgraph cs c = my_isgraph my_charset_latin1 c
    /\ my_isdigit cs c = my_isdigit my_charset_latin1 c
    /\ my_isalpha cs c = my_isalpha my_charset_latin1 c.

Lemma latin1_ascii_compatible : ascii_compatible my_charset_latin1.
Proof. done. Qed.

Lemma ascii_isspace cs c b :
  ascii_compatible cs -> 0 <= c < 128 -> my_isspace my_charset_latin1 c = b -> my_isspace cs c = b.
Proof. intros H Hc <-. apply H, Hc. Qed.

Lemma ascii_isdigit cs c b :
  ascii_compatible cs -> 0 <= c < 128 -> my_isdigit my_charset_latin1 c = b -> my_isdigit cs c = b.
Proof. intros H Hc <-. apply H, Hc. Qed.

Lemma ascii_isalpha cs c b :
  ascii_compatible cs -> 0 <= c < 128 -> my_isalpha my_charset_latin1 c = b -> my_isalpha cs c = b.
Proof. intros H Hc <-. apply H, Hc. Qed.
