(* ===== verification/Readline.v ===== *)
(** * The batch line reader (client/readline.cc)

    In batch mode the client reads its statements through a [LINE_BUFFER]: a
    growing buffer that is refilled from a file in multiples of [IO_SIZE] and
    cut at newlines.  The file is a parameter, [my_read] on a [world]: what
    the code relies on is that a read delivers the next bytes of the stream
    and delivers none only at its end ([read_spec]).

    A buffer is the list of its valid bytes [buffer .. end) with the offsets
    of [start_of_line] and [end_of_line]; the NUL sentinel at [end] is implied
    by the end of the list. *)

From S2P Require Import Prelude.

Definition IO_SIZE : Z := 4096.

Record LINE_BUFFER := mkLB {
  buffer : list Z;
  start_of_line : nat;
  end_of_line : nat;
  bufread : Z;
  eof : bool;
  max_size : Z;
  read_length : Z;
  error : Z;
  truncated : bool
}.

(** Unsigned 32-bit arithmetic of [bufread]. *)
Definition uint (z : Z) : Z := z mod 2 ^ 32.

Inductive read_result :=
  | ReadBytes (bs : list Z)
  | ReadError (errno : Z).

(** [init_line_buffer]: [my_malloc] runs with MY_FAE and does not return on
    failure. *)
Definition init_line_buffer (size max_buffer : Z) : LINE_BUFFER :=
  mkLB [] 0 0 (uint size) false max_buffer 0 0 false.

(** The type of the input file as [my_fstat] reports it. *)
Inductive file_mode := S_DIR | S_BLK | S_OTHER.

(** [batch_readline_init]: a file that cannot be examined ([None]), a
    directory and a block device are refused. *)
Definition batch_readline_init (stat : option file_mode) (max_buffer : Z)
  : option LINE_BUFFER :=
  match stat with
  | None | Some S_DIR | Some S_BLK => None
  | Some S_OTHER => Some (init_line_buffer IO_SIZE max_buffer)
  end.

(** The zero-filled buffer that [batch_readline_command] allocates. *)
Definition zero_line_buffer : LINE_BUFFER := mkLB [] 0 0 0 false 0 0 0 false.

(** [init_line_buffer_from_string]: a second call overwrites the newline that
    ends the buffer with a space and appends the string to it. *)
Definition init_line_buffer_from_string (b : LINE_BUFFER) (s : list Z) : LINE_BUFFER :=
  let old_length := length (buffer b) in
  let old := if (old_length =? 0)%nat then buffer b
             else <[(old_length - 1)%nat := " "%chr]> (buffer b) in
  mkLB (old ++ s ++ [c_nl]) 0 0 (bufread b) true 1 (read_length b) (error b)
       (truncated b).

Definition batch_readline_command (b : option LINE_BUFFER) (s : list Z) : LINE_BUFFER :=
  init_line_buffer_from_string (default zero_line_buffer b) s.

(** The loop of [fill_buffer] that makes room for at least one block: [None]
    is "out of fuel", [Some None] the return of 0 at the size limit, and
    [Some (Some (read_count, bufread))] leaves the loop. *)
Fixpoint grow (fuel : nat) (bufread max_size bufbytes : Z) : option (option (Z * Z)) :=
  match fuel with
  | O => None
  | S fuel' =>
      let read_count := uint (bufread - bufbytes) / IO_SIZE * IO_SIZE in
      if negb (read_count =? 0) then Some (Some (read_count, bufread))
      else if max_size <? uint (bufread * 2) then Some None
      else grow fuel' (uint (bufread * 2)) max_size bufbytes
  end.

(** [bufread] doubles at every turn and wraps after 32 of them. *)
Definition GROW_FUEL : nat := 33.

(** [while (pos[0] != '\n' && pos != end) pos++]: how many bytes it skips. *)
Fixpoint scan_nl (l : list Z) : nat :=
  match l with
  | [] => O
  | c :: l' => if c =? c_nl then O else S (scan_nl l')
  end.

Section reader.
Context {world : Type} (my_read : world -> Z -> read_result * world).

(** The number of new bytes, -1 for a read error, 0 for the end of the file or
    for a buffer that may not grow any more. *)
Definition fill_buffer (b : LINE_BUFFER) (w : world) : option (Z * LINE_BUFFER * world) :=
  let unread := drop (start_of_line b) (buffer b) in
  let bufbytes := Z.of_nat (length unread) in
  if eof b then Some (0, b, w)
  else
    match grow GROW_FUEL (bufread b) (max_size b) bufbytes with
    | None => None
    | Some None => Some (0, b, w)
    | Some (Some (read_count, bufread')) =>
        (* shift stuff down, then read in new stuff *)
        match my_read w read_count with
        | (ReadError e, w') =>
            Some (-1, mkLB unread (start_of_line b) (end_of_line b) bufread' (eof b) (max_size b)
                           (read_length b) e (truncated b), w')
        | (ReadBytes bs, w') =>
            let at_eof := match bs with [] => true | _ => false end in
            let add_nl := at_eof && negb (bufbytes =? 0)
                          && negb (List.last unread 0 =? c_nl) in
            let new := if add_nl then [c_nl] else bs in
            Some (Z.of_nat (length new),
                  mkLB (unread ++ new) 0 (length unread) bufread'
                       (at_eof || eof b) (max_size b) (read_length b) (error b)
                       (truncated b),
                  w')
        end
    end.

Definition set_start (b : LINE_BUFFER) (s : nat) : LINE_BUFFER :=
  mkLB (buffer b) s (end_of_line b) (bufread b) (eof b) (max_size b)
       (read_length b) (error b) (truncated b).

Definition set_line (b : LINE_BUFFER) (e : nat) (t : bool) : LINE_BUFFER :=
  mkLB (buffer b) (start_of_line b) e (bufread b) (eof b) (max_size b)
       (read_length b) (error b) t.

(** The loop of [intern_read_line]; the result is [out_length], or [None] for
    the NULL return. *)
Fixpoint read_loop (fuel : nat) (b : LINE_BUFFER) (w : world)
  : option (option Z * LINE_BUFFER * world) :=
  match fuel with
  | O => None
  | S fuel' =>
      let pos := (end_of_line b + scan_nl (drop (end_of_line b) (buffer b)))%nat in
      let finish (b : LINE_BUFFER) (pos : nat) (t : bool) (w : world) :=
        let out := Z.of_nat (pos + 1) - Z.b2z (eof b) - Z.of_nat (start_of_line b) in
        Some (Some out, set_line b (pos + 1) t, w) in
      if (pos =? length (buffer b))%nat then
        match fill_buffer b w with
        | None => None
        | Some (length_, b', w') =>
            if length_ =? 0 then
              if eof b' then Some (None, b', w')
              else finish b' (pos - 1)%nat true w'
            else if length_ =? -1 then Some (None, b', w')
            else read_loop fuel' b' w'
        end
      else finish b pos false w
  end.

Definition intern_read_line (fuel : nat) (b : LINE_BUFFER) (w : world) :=
  read_loop fuel (set_start b (end_of_line b)) w.

Definition set_read (b : LINE_BUFFER) (buf : list Z) (n : Z) : LINE_BUFFER :=
  mkLB buf (start_of_line b) (end_of_line b) (bufread b) (eof b) (max_size b)
       n (error b) (truncated b).

(** [batch_readline] returns the line (its first [read_length] bytes) and
    terminates it in place with a NUL. *)
Definition batch_readline (fuel : nat) (b : LINE_BUFFER) (binary_mode : bool) (w : world)
  : option (option (list Z) * LINE_BUFFER * world) :=
  match intern_read_line fuel b w with
  | None => None
  | Some (None, b', w') => Some (None, b', w')
  | Some (Some out_length, b', w') =>
      let pos := drop (start_of_line b') (buffer b') in
      let byte (i : Z) := nth (Z.to_nat i) pos 0 in
      let out_length :=
        if negb (out_length =? 0) && (byte (out_length - 1) =? c_nl) then
          let out_length := out_length - 1 in
          if negb (out_length =? 0) && negb binary_mode
             && (byte (out_length - 1) =? c_cr)
          then out_length - 1 else out_length
        else out_length in
      let buf := <[(start_of_line b' + Z.to_nat out_length)%nat := 0]> (buffer b') in
      Some (Some (take (Z.to_nat out_length) pos), set_read b' buf out_length, w')
  end.

(** The lines a client that calls [batch_readline] until it returns NULL
    sees, with the [truncated] flag of each. *)
Fixpoint read_lines (calls fuel : nat) (b : LINE_BUFFER) (binary_mode : bool) (w : world)
  : option (list (list Z * bool)) :=
  match calls with
  | O => None
  | S calls' =>
      match batch_readline fuel b binary_mode w with
      | None => None
      | Some (None, _, _) => Some []
      | Some (Some line, b', w') =>
          ls ← read_lines calls' fuel b' binary_mode w';
          Some ((line, truncated b') :: ls)
      end
  end.

End reader.

(** ** What the reader promises

    The lines of a byte stream: cut at newlines, with the carriage return in
    front of a newline removed unless in binary mode; a last line without a
    newline is a line as it stands. *)
Definition chomp_cr (binary_mode : bool) (line : list Z) : list Z :=
  if negb binary_mode && (List.last line 0 =? c_cr) then removelast line else line.

Fixpoint file_lines_from (binary_mode : bool) (cur l : list Z) : list (list Z) :=
  match l with
  | [] => match cur with [] => [] | _ => [cur] end
  | c :: l' =>
      if c =? c_nl then chomp_cr binary_mode cur :: file_lines_from binary_mode [] l'
      else file_lines_from binary_mode (cur ++ [c]) l'
  end.

Definition file_lines (binary_mode : bool) (l : list Z) : list (list Z) :=
  file_lines_from binary_mode [] l.

(** The length of the longest stretch without a newline. *)
Fixpoint longest_from (cur : nat) (l : list Z) : nat :=
  match l with
  | [] => cur
  | c :: l' => if c =? c_nl then Nat.max cur (longest_from 0 l') else longest_from (S cur) l'
  end.

Definition longest_line (l : list Z) : nat := longest_from 0 l.

Definition no_nl (l : list Z) : Prop := c_nl ∉ l.

Lemma scan_nl_spec (l : list Z) :
  no_nl (take (scan_nl l) l)
  /\ (scan_nl l = length l \/ exists r, drop (scan_nl l) l = c_nl :: r).
Proof.
  unfold no_nl. induction l as [|c l [IH1 IH2]]; simpl.
  - split; [set_solver | by left].
  - destruct (Z.eqb_spec c c_nl) as [->|Hc]; simpl.
    + split; [set_solver | right; by exists l].
    + split; [set_solver|]. destruct IH2 as [IH2|IH2]; [left; lia | by right].
Qed.

Lemma file_lines_from_app binary cur p l :
  no_nl p -> file_lines_from binary cur (p ++ l) = file_lines_from binary (cur ++ p) l.
Proof.
  unfold no_nl. revert cur. induction p as [|c p IH]; intros cur Hp; simpl.
  - by rewrite app_nil_r.
  - destruct (Z.eqb_spec c c_nl) as [->|Hc]; [set_solver|].
    rewrite IH by set_solver. by rewrite <-app_assoc.
Qed.

Lemma file_lines_cons binary p l :
  no_nl p -> file_lines binary (p ++ c_nl :: l) = chomp_cr binary p :: file_lines binary l.
Proof. intros Hp. unfold file_lines. by rewrite file_lines_from_app. Qed.

Lemma file_lines_last binary p :
  no_nl p -> p <> [] -> file_lines binary p = [p].
Proof.
  intros Hp Hne. unfold file_lines.
  rewrite <-(app_nil_r p), file_lines_from_app by done.
  rewrite app_nil_r. simpl. by destruct p.
Qed.

Lemma longest_from_app cur p l :
  no_nl p -> longest_from cur (p ++ l) = longest_from (cur + length p) l.
Proof.
  unfold no_nl. revert cur. induction p as [|c p IH]; intros cur Hp; simpl.
  - by rewrite Nat.add_0_r.
  - destruct (Z.eqb_spec c c_nl) as [->|Hc]; [set_solver|].
    rewrite IH by set_solver. f_equal. lia.
Qed.

Lemma longest_from_ge cur l : (cur <= longest_from cur l)%nat.
Proof.
  revert cur. induction l as [|c l IH]; intros cur; simpl; [lia|].
  destruct (c =? c_nl); [lia|]. specialize (IH (S cur)). lia.
Qed.

Lemma longest_line_app p l : no_nl p -> (length p <= longest_line (p ++ l))%nat.
Proof.
  intros Hp. unfold longest_line. rewrite longest_from_app by done.
  apply longest_from_ge.
Qed.

Lemma longest_line_cons p l :
  no_nl p -> (longest_line l <= longest_line (p ++ c_nl :: l))%nat.
Proof.
  intros Hp. unfold longest_line. rewrite longest_from_app by done. simpl. lia.
Qed.

Lemma grow_S fuel bufread max bufbytes :
  grow (S fuel) bufread max bufbytes =
    let read_count := uint (bufread - bufbytes) / IO_SIZE * IO_SIZE in
    if negb (read_count =? 0) then Some (Some (read_count, bufread))
    else if max <? uint (bufread * 2) then Some None
    else grow fuel (uint (bufread * 2)) max bufbytes.
Proof. done. Qed.

(** [grow] with a buffer of at least one block: one doubling is enough, and
    the size limit is met only when the pending line is long. *)
Lemma grow_ok bufread max bufbytes :
  IO_SIZE <= bufread <= max -> max <= 2 ^ 31 -> 0 <= bufbytes <= bufread ->
  2 * (bufbytes + IO_SIZE) <= max ->
  exists rc br, grow GROW_FUEL bufread max bufbytes = Some (Some (rc, br))
    /\ 0 < rc <= br - bufbytes /\ IO_SIZE <= br <= max.
Proof.
  intros Hb Hm Hbb Hroom. change GROW_FUEL with (S (S 31)).
  assert (Hrc : forall br, bufread <= br <= 2 ^ 31 ->
    uint (br - bufbytes) = br - bufbytes).
  { intros br Hbr. unfold uint. apply Z.mod_small. lia. }
  assert (Hdiv : forall br, bufread <= br <= 2 ^ 31 ->
    (br - bufbytes) / IO_SIZE * IO_SIZE <= br - bufbytes
    /\ (IO_SIZE <= br - bufbytes -> 0 < (br - bufbytes) / IO_SIZE * IO_SIZE)).
  { intros br Hbr. unfold IO_SIZE in *. Z.div_mod_to_equations. lia. }
  rewrite grow_S. cbv zeta. rewrite Hrc by lia.
  destruct (Z.eqb_spec ((bufread - bufbytes) / IO_SIZE * IO_SIZE) 0) as [Hz|Hz]; cbn [negb].
  - destruct (Hdiv bufread) as [_ Hpos]; [lia|].
    assert (bufread - bufbytes < IO_SIZE) by lia.
    assert (uint (bufread * 2) = bufread * 2) as -> by (apply Z.mod_small; lia).
    destruct (Z.ltb_spec max (bufread * 2)); [unfold IO_SIZE in *; lia|].
    rewrite grow_S. cbv zeta. rewrite Hrc by lia.
    destruct (Hdiv (bufread * 2)) as [Hle Hgt]; [lia|].
    destruct (Z.eqb_spec ((bufread * 2 - bufbytes) / IO_SIZE * IO_SIZE) 0) as [Hz'|Hz']; cbn [negb].
    + lia.
    + eexists _, _. split; [done|]. lia.
  - eexists _, _. split; [done|].
    destruct (Hdiv bufread) as [Hle Hgt]; [lia|].
    assert (0 <= (bufread - bufbytes) / IO_SIZE * IO_SIZE)
      by (unfold IO_SIZE in *; Z.div_mod_to_equations; lia).
    lia.
Qed.

(** ** The stream contract and the refinement *)

Section contract.
Context {world : Type} (my_read : world -> Z -> read_result * world).
(** [remaining w] is what the file still holds in [w]. *)
Context (remaining : world -> list Z).

(** The documented behaviour of [read(2)] on a file without I/O errors. *)
Definition read_spec : Prop :=
  forall w n, 0 < n ->
    exists bs w', my_read w n = (ReadBytes bs, w')
      /\ remaining w = bs ++ remaining w'
      /\ Z.of_nat (length bs) <= n
      /\ (bs = [] -> remaining w = []).

(** Between two calls: the pending bytes of the buffer and of the file. *)
Definition pending (b : LINE_BUFFER) (w : world) : list Z :=
  drop (end_of_line b) (buffer b) ++ remaining w.

Definition sizes_ok (b : LINE_BUFFER) : Prop :=
  IO_SIZE <= bufread b <= max_size b /\ max_size b <= 2 ^ 31
  /\ Z.of_nat (length (buffer b)) <= bufread b.

(** The state between two calls of [batch_readline]: before the end of the
    file was seen, or after the last line was delivered. *)
Definition reader_ok (b : LINE_BUFFER) (w : world) : Prop :=
  (end_of_line b <= length (buffer b))%nat
  /\ if eof b then end_of_line b = length (buffer b) /\ remaining w = []
     else sizes_ok b.

(** What one call of [intern_read_line] does to the pending bytes [u]. *)
Inductive line_read (mx : Z) (u : list Z) : option (option Z * LINE_BUFFER * world) -> Prop :=
  | line_read_end b w :
      u = [] -> line_read mx u (Some (None, b, w))
  | line_read_full p rest b w :
      no_nl p -> u = p ++ c_nl :: pending b w ->
      drop (start_of_line b) (buffer b) = p ++ c_nl :: rest ->
      end_of_line b = (start_of_line b + S (length p))%nat ->
      eof b = false -> truncated b = false -> reader_ok b w -> max_size b = mx ->
      line_read mx u (Some (Some (Z.of_nat (S (length p))), b, w))
  | line_read_last b w :
      no_nl u -> u <> [] -> pending b w = [] ->
      drop (start_of_line b) (buffer b) = u ++ [c_nl] ->
      eof b = true -> truncated b = false -> reader_ok b w ->
      line_read mx u (Some (Some (Z.of_nat (length u)), b, w)).

Context (Hread : read_spec).

Lemma no_nl_app p q : no_nl p -> no_nl q -> no_nl (p ++ q).
Proof. unfold no_nl. set_solver. Qed.

Lemma no_nl_last u : no_nl u -> List.last u 0 <> c_nl.
Proof.
  intros Hu Hl. destruct u as [|c u] using rev_ind; [done|].
  rewrite List.last_last in Hl. apply Hu. rewrite Hl. set_solver.
Qed.

(** A refill of the buffer in the middle of a line [u]. *)
Lemma fill_buffer_ok b w (u := drop (start_of_line b) (buffer b)) :
  eof b = false -> sizes_ok b -> (start_of_line b <= length (buffer b))%nat ->
  2 * (Z.of_nat (length u) + IO_SIZE) <= max_size b ->
  exists bs w' br, remaining w = bs ++ remaining w' /\
    ((bs <> [] /\ fill_buffer my_read b w =
        Some (Z.of_nat (length bs),
              mkLB (u ++ bs) 0 (length u) br false (max_size b) (read_length b)
                   (error b) (truncated b), w')
        /\ IO_SIZE <= br <= max_size b /\ Z.of_nat (length (u ++ bs)) <= br)
     \/ (bs = [] /\ remaining w = []
        /\ let new := if negb (Z.of_nat (length u) =? 0) && negb (List.last u 0 =? c_nl)
                      then [c_nl] else [] in
           fill_buffer my_read b w =
             Some (Z.of_nat (length new),
                   mkLB (u ++ new) 0 (length u) br true (max_size b) (read_length b)
                        (error b) (truncated b), w'))).
Proof.
  intros Heof (Hbr & Hmax & Hlen) Hs Hroom.
  assert (Hu : (length u <= length (buffer b))%nat) by (unfold u; rewrite length_drop; lia).
  destruct (grow_ok (bufread b) (max_size b) (Z.of_nat (length u)))
    as (rc & br & Hg & Hrc & Hbr'); [lia..|].
  destruct (Hread w rc) as (bs & w' & Hr & Hrem & Hle & Hnil); [lia|].
  exists bs, w', br. split; [done|].
  unfold fill_buffer. fold u. rewrite Heof, Hg, Hr.
  destruct bs as [|c bs].
  - right. split; [done|]. split; [by apply Hnil|]. done.
  - left. split; [done|]. split; [done|]. rewrite length_app. lia.
Qed.

(** One turn of the loop at the end of the file: the pending line is
    delivered with the newline that [fill_buffer] pretended. *)
Lemma read_loop_last fuel u br mx rl er tr w :
  no_nl u -> u <> [] -> remaining w = [] ->
  line_read mx u (read_loop my_read (S fuel)
                 (mkLB (u ++ [c_nl]) 0 (length u) br true mx rl er tr) w).
Proof.
  intros Hno Hne Hrem. cbn [read_loop end_of_line buffer].
  rewrite drop_app_length. cbn [scan_nl Z.eqb Pos.eqb]. rewrite length_app, Nat.add_0_r.
  destruct (Nat.eqb_spec (length u) (length u + length [c_nl])) as [H|_]; [simpl in H; lia|].
  cbn [eof start_of_line Z.b2z].
  replace (Z.of_nat (length u + 1) - 1 - Z.of_nat 0) with (Z.of_nat (length u)) by lia.
  constructor; unfold pending, reader_ok; cbn; try done.
  - rewrite drop_ge by (rewrite length_app; simpl; lia). done.
  - rewrite length_app. simpl. split_and!; [lia..|done].
Qed.

(** A newline is found in the bytes of the buffer. *)
Lemma read_loop_found b w p r (u := drop (start_of_line b) (buffer b)) :
  (start_of_line b <= length (buffer b))%nat ->
  u = p ++ c_nl :: r -> no_nl p -> eof b = false -> sizes_ok b ->
  line_read (max_size b) (u ++ remaining w)
    (Some (Some (Z.of_nat (S (length p))),
           set_line b (start_of_line b + S (length p)) false, w)).
Proof.
  intros Hs Hu Hno Heof Hsz.
  assert (Hlen : length u = (length p + S (length r))%nat)
    by (rewrite Hu, length_app; done).
  assert (Hlen' : length u = (length (buffer b) - start_of_line b)%nat)
    by apply length_drop.
  econstructor; unfold pending, reader_ok; cbn.
  - exact Hno.
  - rewrite <-drop_drop. fold u. rewrite Hu.
    rewrite <-app_assoc. cbn. f_equal. f_equal. f_equal.
    rewrite drop_app_ge by lia.
    replace (S (length p) - length p)%nat with 1%nat by lia. done.
  - exact Hu.
  - done.
  - exact Heof.
  - done.
  - rewrite Heof. split; [lia|]. exact Hsz.
  - done.
Qed.

(** [intern_read_line] delivers the next line whatever the sizes of the
    reads: enough fuel is one turn for every byte still in the file. *)
Lemma read_loop_ok fuel b w (u := drop (start_of_line b) (buffer b)) :
  (length (remaining w) + 1 < fuel)%nat ->
  (start_of_line b <= end_of_line b <= length (buffer b))%nat ->
  no_nl (take (end_of_line b - start_of_line b) u) ->
  eof b = false -> sizes_ok b ->
  2 * (Z.of_nat (longest_line (u ++ remaining w)) + IO_SIZE) <= max_size b ->
  line_read (max_size b) (u ++ remaining w) (read_loop my_read fuel b w).
Proof.
  revert b w u. induction fuel as [|fuel IH]; intros b w u Hfuel Hpos Hno Heof Hsz Hlong; [lia|].
  cbn [read_loop]. set (k := scan_nl (drop (end_of_line b) (buffer b))).
  destruct (scan_nl_spec (drop (end_of_line b) (buffer b))) as [Hk1 Hk2]. fold k in Hk1, Hk2.
  set (d := (end_of_line b - start_of_line b)%nat) in *.
  assert (Hud : drop (end_of_line b) (buffer b) = drop d u)
    by (unfold u, d; rewrite drop_drop; f_equal; lia).
  rewrite Hud in Hk1, Hk2.
  assert (Hlu : length u = (length (buffer b) - start_of_line b)%nat)
    by (unfold u; apply length_drop).
  assert (Hp : no_nl (take (d + k) u)).
  { rewrite <-(take_drop d (take (d + k) u)). apply no_nl_app.
    - rewrite take_take. by replace (d `min` (d + k))%nat with d by lia.
    - by rewrite <-take_drop_commute. }
  destruct Hk2 as [Hk|[r Hr]].
  - rewrite length_drop in Hk.
    rewrite take_ge in Hp by lia.
    destruct (Nat.eqb_spec (end_of_line b + k) (length (buffer b))); [|lia].
    pose proof (longest_line_app u (remaining w) Hp).
    destruct (fill_buffer_ok b w) as (bs & w' & br & Hrem & [Hf|Hf]); fold u; [done|done|lia|lia|..];
      fold u in Hf.
    + destruct Hf as (Hne & -> & Hbr & Hl).
      destruct (Z.eqb_spec (Z.of_nat (length bs)) 0); [by destruct bs|].
      destruct (Z.eqb_spec (Z.of_nat (length bs)) (-1)); [lia|].
      rewrite Hrem, app_assoc.
      match goal with |- line_read _ _ (read_loop _ _ ?b' ?w2) => apply (IH b' w2) end;
        cbn; rewrite ?drop_0, ?Nat.sub_0_r.
      * rewrite Hrem, length_app in Hfuel. destruct bs; [done|]. simpl in Hfuel. lia.
      * rewrite length_app. lia.
      * by rewrite take_app_length.
      * done.
      * split; cbn; [lia|]. destruct Hsz. lia.
      * by rewrite <-app_assoc, <-Hrem.
    + destruct Hf as (-> & Hrem0 & ->). rewrite Hrem0, app_nil_r.
      simpl in Hrem. destruct u as [|c u'] eqn:Eu; [by constructor|].
      pose proof (no_nl_last (c :: u') Hp) as Hl.
      rewrite (proj2 (Z.eqb_neq _ _) Hl). cbn [negb andb length Z.of_nat Z.eqb].
      destruct fuel as [|fuel]; [lia|].
      apply read_loop_last; congruence.
  - assert (Hdrop : drop (d + k) u = c_nl :: r) by (by rewrite <-drop_drop).
    assert (d + k < length u)%nat.
    { apply (f_equal length) in Hdrop. rewrite length_drop in Hdrop. simpl in Hdrop. lia. }
    destruct (Nat.eqb_spec (end_of_line b + k) (length (buffer b))); [lia|].
    rewrite Heof.
    assert (Hu : u = take (d + k) u ++ c_nl :: r) by (by rewrite <-Hdrop, take_drop).
    pose proof (read_loop_found b w _ r ltac:(lia) Hu Hp Heof Hsz) as HF. fold u in HF.
    rewrite length_take in HF. replace (Nat.min (d + k) (length u)) with (d + k)%nat in HF by lia.
    replace (end_of_line b + k + 1)%nat with (start_of_line b + S (d + k))%nat by lia.
    replace (Z.of_nat (start_of_line b + S (d + k)) - Z.b2z false - Z.of_nat (start_of_line b))
      with (Z.of_nat (S (d + k))) by (simpl; lia).
    exact HF.
Qed.

Lemma intern_read_line_ok fuel b w :
  (length (remaining w) + 1 < fuel)%nat -> reader_ok b w ->
  (eof b = false ->
     2 * (Z.of_nat (longest_line (pending b w)) + IO_SIZE) <= max_size b) ->
  line_read (max_size b) (pending b w) (intern_read_line my_read fuel b w).
Proof.
  intros Hfuel [He Hok] Hlong. unfold intern_read_line, pending in *.
  destruct (eof b) eqn:Heof.
  - destruct Hok as [Hend Hrem]. destruct fuel as [|fuel]; [lia|]. cbn.
    rewrite Hend, drop_all, Nat.add_0_r, Nat.eqb_refl. unfold fill_buffer. cbn.
    rewrite Heof. cbn. rewrite Heof, Hrem. by constructor.
  - apply (read_loop_ok fuel (set_start b (end_of_line b)) w); cbn; try done; try lia.
    + rewrite Nat.sub_diag. apply not_elem_of_nil.
    + by apply Hlong.
Qed.

Lemma set_read_pending b w i n :
  (i < end_of_line b)%nat ->
  pending (set_read b (<[i := 0]> (buffer b)) n) w = pending b w.
Proof. intros Hi. unfold pending. cbn. by rewrite drop_insert_lt. Qed.

Lemma set_read_ok b w i n :
  reader_ok b w -> reader_ok (set_read b (<[i := 0]> (buffer b)) n) w.
Proof.
  unfold reader_ok, sizes_ok. cbn. by rewrite length_insert.
Qed.

(** How [batch_readline] cuts a terminated line. *)
Lemma batch_cut_full binary p rest (byte := fun i => nth (Z.to_nat i) (p ++ c_nl :: rest) 0) :
  let out0 := Z.of_nat (S (length p)) in
  let out := if negb (out0 =? 0) && (byte (out0 - 1) =? c_nl) then
      let out_length := out0 - 1 in
      if negb (out_length =? 0) && negb binary && (byte (out_length - 1) =? c_cr)
      then out_length - 1 else out_length
    else out0 in
  take (Z.to_nat out) (p ++ c_nl :: rest) = chomp_cr binary p
  /\ (Z.to_nat out <= length p)%nat.
Proof.
  cbv zeta. unfold byte.
  replace (Z.of_nat (S (length p)) - 1) with (Z.of_nat (length p)) by lia.
  rewrite Nat2Z.id, nth_middle. destruct (Z.eqb_spec (Z.of_nat (S (length p))) 0); [lia|].
  cbn [negb andb Z.eqb Pos.eqb]. unfold chomp_cr.
  destruct p as [|x p _] using rev_ind.
  - destruct binary; (split; [done|simpl; lia]).
  - rewrite length_app, List.last_last, removelast_last. cbn [length].
    destruct (Z.eqb_spec (Z.of_nat (length p + 1)) 0); [lia|].
    replace (Z.to_nat (Z.of_nat (length p + 1) - 1)) with (length p) by lia.
    rewrite <-app_assoc. cbn [app]. rewrite nth_middle. cbn [negb andb].
    destruct (negb binary && (x =? c_cr)).
    + replace (Z.to_nat (Z.of_nat (length p + 1) - 1)) with (length p) by lia.
      rewrite take_app_length. split; [done|lia].
    + rewrite Nat2Z.id, take_app_ge by lia.
      replace (length p + 1 - length p)%nat with 1%nat by lia. cbn. done.
Qed.

(** How it cuts the last line of a file that does not end in a newline. *)
Lemma batch_cut_last (binary : bool) u (byte := fun i => nth (Z.to_nat i) (u ++ [c_nl]) 0) :
  no_nl u -> u <> [] ->
  let out0 := Z.of_nat (length u) in
  (negb (out0 =? 0) && (byte (out0 - 1) =? c_nl)) = false.
Proof.
  intros Hno Hne. cbv zeta. unfold byte.
  destruct u as [|x u _] using rev_ind; [done|].
  rewrite length_app. cbn [length].
  replace (Z.to_nat (Z.of_nat (length u + 1) - 1)) with (length u) by lia.
  rewrite <-app_assoc. cbn [app]. rewrite nth_middle.
  destruct (Z.eqb_spec x c_nl) as [->|]; [|by rewrite andb_false_r].
  destruct Hno. set_solver.
Qed.

Lemma read_lines_ok calls fuel b binary w :
  (length (pending b w) < calls)%nat -> (length (pending b w) + 1 < fuel)%nat ->
  reader_ok b w ->
  (eof b = false -> 2 * (Z.of_nat (longest_line (pending b w)) + IO_SIZE) <= max_size b) ->
  read_lines my_read calls fuel b binary w =
    Some (map (fun l => (l, false)) (file_lines binary (pending b w))).
Proof.
  revert b w. induction calls as [|calls IH]; intros b w Hcalls Hfuel Hok Hlong; [lia|].
  cbn [read_lines]. unfold batch_readline.
  assert (length (remaining w) <= length (pending b w))%nat
    by (unfold pending; rewrite length_app; lia).
  destruct (intern_read_line_ok fuel b w ltac:(lia) Hok Hlong)
    as [b' w' Hu|p rest b' w' Hno Hu Hd He Heof Ht Hok' Hmx|b' w' Hno Hne Hp Hd Heof Ht Hok'].
  - by rewrite Hu.
  - rewrite Hd. destruct (batch_cut_full binary p rest) as [Hcut Hle]. cbv zeta in *.
    rewrite Hcut.
    match goal with |- context [set_read b' (<[?j := 0]> _) ?m] =>
      set (i := j); set (n := m) end.
    assert (i < end_of_line b')%nat by (unfold i; lia).
    rewrite IH.
    + rewrite set_read_pending by done. cbn [truncated set_read]. rewrite Ht.
      cbn. rewrite Hu, file_lines_cons by done. done.
    + rewrite set_read_pending by done. rewrite Hu, length_app in Hcalls. simpl in *. lia.
    + rewrite set_read_pending by done. rewrite Hu, length_app in Hfuel. simpl in *. lia.
    + by apply set_read_ok.
    + intros _. rewrite set_read_pending by done. cbn. rewrite Hmx.
      destruct (eof b) eqn:Hb.
      * exfalso. destruct Hok as [_ Hok]. rewrite Hb in Hok. destruct Hok as [Hend Hrem].
        unfold pending in Hu. rewrite Hrem, Hend, drop_all in Hu. by destruct p.
      * pose proof (longest_line_cons p (pending b' w') Hno).
        rewrite <-Hu in *. specialize (Hlong eq_refl). lia.
  - rewrite Hd.
    rewrite (batch_cut_last binary) by done.
    rewrite Nat2Z.id, take_app_length. set (i := (start_of_line b' + _)%nat).
    assert (length (pending b w) <> 0%nat) by (by destruct (pending b w)).
    assert (i < end_of_line b')%nat as Hi.
    { destruct Hok' as [_ Hok']. rewrite Heof in Hok'. destruct Hok' as [-> _].
      apply (f_equal length) in Hd. rewrite length_drop, length_app in Hd. simpl in Hd.
      unfold i. lia. }
    rewrite IH; rewrite ?set_read_pending, ?Hp by done.
    + cbn [truncated set_read mbind option_bind]. by rewrite Ht, (file_lines_last binary (pending b w)).
    + simpl. lia.
    + simpl. lia.
    + by apply set_read_ok.
    + cbn. congruence.
Qed.

End contract.

Lemma read_file_lines {world} (my_read : world -> Z -> read_result * world)
    (remaining : world -> list Z) (w : world) (max : Z) (binary : bool) (calls fuel : nat) :
  read_spec my_read remaining ->
  max <= 2 ^ 31 ->
  2 * (Z.of_nat (longest_line (remaining w)) + IO_SIZE) <= max ->
  (length (remaining w) < calls)%nat -> (length (remaining w) + 1 < fuel)%nat ->
  read_lines my_read calls fuel (init_line_buffer IO_SIZE max) binary w
  = Some (map (fun l => (l, false)) (file_lines binary (remaining w))).
Proof.
  intros Hread Hmax Hlong Hcalls Hfuel.
  apply (read_lines_ok my_read remaining Hread); unfold pending, reader_ok, sizes_ok; cbn; try done.
  split; [lia|]. unfold uint, IO_SIZE in *.
  rewrite Z.mod_small by lia. lia.
Qed.

(** C11. Reading a script file in batch mode: whatever block sizes the system
    delivers the file in, repeated calls of [batch_readline] return exactly the
    lines of the file, in order, each once and unbroken, then NULL, provided
    the longest line fits in half of the size limit. *)
Theorem batch_readline_file {world} (my_read : world -> Z -> read_result * world)
    (remaining : world -> list Z) (w : world) (max : Z) (binary : bool) (calls fuel : nat) :
  read_spec my_read remaining ->
  max <= 2 ^ 31 ->
  2 * (Z.of_nat (longest_line (remaining w)) + IO_SIZE) <= max ->
  (length (remaining w) < calls)%nat -> (length (remaining w) + 1 < fuel)%nat ->
  exists b, batch_readline_init (Some S_OTHER) max = Some b
    /\ read_lines my_read calls fuel b binary w
         = Some (map (fun l => (l, false)) (file_lines binary (remaining w))).
Proof.
  intros Hread Hmax Hlong Hcalls Hfuel. exists (init_line_buffer IO_SIZE max). split; [done|]. by apply read_file_lines.
Qed.

(** A file that is delivered at most three bytes at a time. *)
Definition slow_read (w : list Z) (n : Z) : read_result * list Z :=
  let k := Nat.min 3 (Z.to_nat n) in (ReadBytes (take k w), drop k w).

Lemma slow_read_spec : read_spec slow_read id.
Proof.
  intros w n Hn. unfold slow_read, id. eexists _, _. split; [done|].
  rewrite take_drop. split; [done|]. rewrite length_take. split; [lia|].
  destruct (Z.to_nat n) eqn:E; [lia|]. by destruct w.
Qed.

Lemma batch_readline_file_witness :
  exists b, batch_readline_init (Some S_OTHER) (2 ^ 30) = Some b
    /\ read_lines slow_read 20 30 b false
         (str "use test;" ++ [c_cr; c_nl; c_nl] ++ str "go")
       = Some [(str "use test;", false); ([], false); (str "go", false)].
Proof.
  apply (batch_readline_file slow_read id (str "use test;" ++ [c_cr; c_nl; c_nl] ++ str "go"));
    [apply slow_read_spec|done|done|cbn; lia|cbn; lia].
Defined.

(** Reading a string (the [-e] option): every pending byte is in the buffer. *)
Lemma scan_nl_app p r : no_nl p -> scan_nl (p ++ c_nl :: r) = length p.
Proof.
  unfold no_nl. induction p as [|c p IH]; simpl; intros Hp; [done|].
  destruct (Z.eqb_spec c c_nl); [set_solver|]. rewrite IH; set_solver.
Qed.

Lemma no_nl_nth p r i : no_nl p -> (i < length p)%nat -> nth i (p ++ r) 0 <> c_nl.
Proof.
  intros Hp Hi Hn. apply Hp. rewrite app_nth1 in Hn by done.
  rewrite <-Hn. apply list_elem_of_In, nth_In. done.
Qed.

Lemma read_string_line {world} (my_read : world -> Z -> read_result * world)
    fuel b binary w p r :
  eof b = true -> drop (end_of_line b) (buffer b) = p ++ c_nl :: r -> no_nl p ->
  exists b', batch_readline my_read (S fuel) b binary w = Some (Some p, b', w)
    /\ drop (end_of_line b') (buffer b') = r /\ eof b' = true /\ truncated b' = false
    /\ (end_of_line b' <= length (buffer b'))%nat.
Proof.
  intros Heof Hu Hno. unfold batch_readline, intern_read_line.
  cbn [read_loop end_of_line set_start buffer]. rewrite Hu, scan_nl_app by done.
  assert (Hlen : (length (buffer b) = end_of_line b + length p + S (length r))%nat).
  { apply (f_equal length) in Hu. rewrite length_drop, length_app in Hu. simpl in Hu. lia. }
  destruct (Nat.eqb_spec (end_of_line b + length p) (length (buffer b))); [lia|].
  cbn [eof start_of_line set_start set_line buffer]. rewrite Heof, Hu. cbn [Z.b2z].
  replace (Z.of_nat (end_of_line b + length p + 1) - 1 - Z.of_nat (end_of_line b))
    with (Z.of_nat (length p)) by lia.
  replace (negb (Z.of_nat (length p) =? 0) && _) with false.
  2: { destruct (Z.eqb_spec (Z.of_nat (length p)) 0); [done|].
       symmetry. apply Z.eqb_neq, no_nl_nth; [done|lia]. }
  eexists. rewrite Nat2Z.id, take_app_length. split; [done|].
  cbn. rewrite length_insert. split_and!; [|done|done|lia]. rewrite drop_insert_lt by lia.
  rewrite <-Nat.add_assoc, <-drop_drop, Hu, drop_app_ge by lia.
  by replace (length p + 1 - length p)%nat with 1%nat by lia.
Qed.

Lemma read_lines_string {world} (my_read : world -> Z -> read_result * world)
    calls fuel b binary w s :
  eof b = true -> drop (end_of_line b) (buffer b) = s -> List.last s c_nl = c_nl ->
  (end_of_line b <= length (buffer b))%nat ->
  (length s < calls)%nat -> (0 < fuel)%nat ->
  read_lines my_read calls fuel b binary w
    = Some (map (fun l => (l, false)) (file_lines true s)).
Proof.
  intros Heof Hs Hlast He Hcalls Hfuel. destruct fuel as [|fuel]; [lia|].
  revert b s Heof Hs Hlast He Hcalls.
  induction calls as [|calls IH]; intros b s Heof Hs Hlast He Hcalls; [lia|].
  cbn [read_lines]. destruct (scan_nl_spec s) as [Hno Hk].
  destruct Hk as [Hk|[r Hr]].
  - rewrite take_ge in Hno by lia.
    destruct s as [|x s _] using rev_ind.
    2: { rewrite List.last_last in Hlast. destruct Hno. subst. set_solver. }
    assert (end_of_line b = length (buffer b)) as Hend.
    { apply (f_equal length) in Hs. rewrite length_drop in Hs. simpl in Hs. lia. }
    unfold batch_readline, intern_read_line. cbn [read_loop end_of_line set_start buffer].
    rewrite Hs, Hend, Nat.add_0_r, Nat.eqb_refl. unfold fill_buffer. cbn [eof set_start].
    rewrite Heof. cbn. by rewrite Heof.
  - assert (Hu : s = take (scan_nl s) s ++ c_nl :: r) by (by rewrite <-Hr, take_drop).
    rewrite Hu in Hs, Hlast, Hcalls |- *. set (p := take (scan_nl s) s) in *. clearbody p. clear Hu Hr.
    destruct (read_string_line my_read fuel b binary w p r Heof Hs Hno)
      as (b' & -> & Hr & Heof' & Htr & Hle).
    rewrite length_app in Hcalls. simpl in Hcalls.
    rewrite (IH b' r); [| done | done | | done |lia].
    + cbn. by rewrite Htr, file_lines_cons.
    + destruct r as [|y r _] using rev_ind; [done|].
      rewrite app_comm_cons, app_assoc, !List.last_last in Hlast. by rewrite List.last_last.
Qed.

(** The strings of several [-e] options, joined by spaces. *)
Definition join_strings (s : list Z) (ss : list (list Z)) : list Z :=
  s ++ concat (map (cons " "%chr) ss).

Lemma batch_readline_command_joins s ss :
  let b := fold_left (fun b s => batch_readline_command (Some b) s) ss
             (batch_readline_command None s) in
  buffer b = join_strings s ss ++ [c_nl] /\ end_of_line b = O /\ eof b = true.
Proof.
  induction ss as [|s' ss IH] using rev_ind; cbn zeta.
  - unfold join_strings. cbn. by rewrite app_nil_r.
  - rewrite fold_left_app. cbn [fold_left].
    set (b := fold_left _ ss _) in *. cbn zeta in IH. destruct IH as (IH & _ & _).
    unfold batch_readline_command, init_line_buffer_from_string. cbn [default from_option].
    cbv zeta. cbn [buffer end_of_line eof].
    unfold id. rewrite IH, length_app. cbn [length]. rewrite Nat.add_1_r. cbn [Nat.eqb].
    rewrite Nat.sub_succ, Nat.sub_0_r. split; [|done].
    unfold join_strings. rewrite map_app, concat_app. cbn. rewrite app_nil_r.
    rewrite insert_app_r_alt by lia. rewrite Nat.sub_diag. cbn.
    by rewrite <-!app_assoc.
Qed.

(** Reading statements from [-e] options: the reader created by
    [batch_readline_command] for the first string and extended with each
    further one delivers the lines of the strings joined by single spaces, and
    then NULL. *)
Theorem batch_readline_strings {world} (my_read : world -> Z -> read_result * world)
    (w : world) (s : list Z) (ss : list (list Z)) (binary : bool) (calls fuel : nat) :
  (length (join_strings s ss) + 1 < calls)%nat -> (0 < fuel)%nat ->
  read_lines my_read calls fuel
      (fold_left (fun b s => batch_readline_command (Some b) s) ss
         (batch_readline_command None s)) binary w
    = Some (map (fun l => (l, false)) (file_lines true (join_strings s ss ++ [c_nl]))).
Proof.
  intros Hcalls Hfuel.
  destruct (batch_readline_command_joins s ss) as (Hb & He & Heof).
  apply read_lines_string; rewrite ?Hb, ?He, ?drop_0; try done.
  - by rewrite List.last_last.
  - lia.
  - rewrite length_app. simpl. lia.
Qed.

Lemma batch_readline_strings_witness :
  read_lines slow_read 40 1
      (batch_readline_command (Some (batch_readline_command None (str "select 1;")))
         (str "select" ++ [c_nl] ++ str "2")) false []
    = Some [(str "select 1; select", false); (str "2", false)].
Proof.
  etransitivity; [apply (batch_readline_strings slow_read [] (str "select 1;")
    [str "select" ++ [c_nl] ++ str "2"] false 40 1); cbn; lia | done].
Defined.
