(* ===== verification/Completion.v ===== *)
(** * The completion hash (client/completion_hash.cc) and the completion
    generator of the client (client/mysql.cc)

    Every prefix of every known word is a key of a chained hash table whose
    buckets list the words with that prefix.  A [char *] key is the C string
    it points to, of which only the first [nKeyLength] bytes are the key; a
    bucket chain and an entry chain are lists in the order of their [pNext]
    pointers.  Out of memory is not modelled ([alloc_root] never fails). *)

From S2P Require Import Prelude.
From S2P Require Import CString.

Record Bucket := mkBucket {
  h : Z;
  arKey : list Z;
  nKeyLength : nat;
  count : Z;
  pData : list (list Z)
}.

Record HashTable := mkHT {
  nTableSize : Z;
  arBuckets : list (list Bucket)
}.

Definition SUCCESS : Z := 0.
Definition FAILURE : Z := 1.

Definition uint32 (z : Z) : Z := z mod 2 ^ 32.

(** A plain [char] is signed. *)
Definition schar (c : Z) : Z := if c <? 128 then c else c - 256.

(** One turn of the loop of [hashpjw]. *)
Definition hash_step (h c : Z) : Z :=
  let h := uint32 (Z.shiftl h 4 + schar c) in
  let g := Z.land h 0xF0000000 in
  if g =? 0 then h else Z.lxor (Z.lxor h (Z.shiftr g 24)) g.

Definition hashpjw (arKey : list Z) (nKeyLength : nat) : Z :=
  fold_left hash_step (take nKeyLength arKey) 0.

Definition completion_hash_init (nSize : Z) : HashTable :=
  mkHT nSize (replicate (Z.to_nat nSize) []).

(** [memcmp(a, b, n) == 0] *)
Definition memeq (n : nat) (a b : list Z) : bool :=
  bool_decide (take n a = take n b).

Definition key_matches (hv : Z) (key : list Z) (n : nat) (p : Bucket) : bool :=
  (h p =? hv) && (nKeyLength p =? n)%nat && memeq n (arKey p) key.

Definition bucket_index (ht : HashTable) (hv : Z) : nat := Z.to_nat (hv mod nTableSize ht).

(** The [while (p)] loop of [completion_hash_update]: the chain with the
    string added to the matching bucket, if there is one. *)
Fixpoint add_to_chain (hv : Z) (key : list Z) (n : nat) (s : list Z) (chain : list Bucket)
  : option (list Bucket) :=
  match chain with
  | [] => None
  | p :: rest =>
      if key_matches hv key n p then
        Some (mkBucket (h p) (arKey p) (nKeyLength p) (uint32 (count p + 1)) (s :: pData p)
              :: rest)
      else rest' ← add_to_chain hv key n s rest; Some (p :: rest')
  end.

Definition completion_hash_update (ht : HashTable) (key : list Z) (n : nat) (s : list Z)
  : Z * HashTable :=
  let hv := hashpjw key n in
  let nIndex := bucket_index ht hv in
  if (n <=? 0)%nat then (FAILURE, ht)
  else
    let chain := nth nIndex (arBuckets ht) [] in
    match add_to_chain hv key n s chain with
    | Some chain' => (SUCCESS, mkHT (nTableSize ht) (<[nIndex := chain']> (arBuckets ht)))
    | None =>
        let p := mkBucket hv key n 1 [s] in
        (SUCCESS, mkHT (nTableSize ht) (<[nIndex := p :: chain]> (arBuckets ht)))
    end.

Definition completion_hash_find (ht : HashTable) (key : list Z) (n : nat) : option Bucket :=
  let hv := hashpjw key n in
  List.find (key_matches hv key n) (nth (bucket_index ht hv) (arBuckets ht) []).

Definition completion_hash_exists (ht : HashTable) (key : list Z) (n : nat) : bool :=
  let hv := hashpjw key n in
  existsb (fun p => (h p =? hv) && (nKeyLength p =? n)%nat && streq (arKey p) key)
    (nth (bucket_index ht hv) (arBuckets ht) []).

(** [find_all_matches] and [find_longest_match] return the bucket and
    [res_length]. *)
Definition find_all_matches (ht : HashTable) (s : list Z) (length : nat)
  : option Bucket * nat :=
  match completion_hash_find ht s length with
  | None => (None, O)
  | Some b => (Some b, length)
  end.

Fixpoint longest_loop (fuel : nat) (ht : HashTable) (s : list Z) (cnt : Z) (lm : nat)
    (return_b : Bucket) : Bucket * nat :=
  match fuel with
  | O => (return_b, lm)
  | S fuel' =>
      if negb (at_ s lm =? 0) then
        match completion_hash_find ht s (lm + 1) with
        | None => (return_b, lm)
        | Some b =>
            if count b <? cnt then (return_b, lm)
            else longest_loop fuel' ht s cnt (lm + 1) b
        end
      else (return_b, lm)
  end.

Definition find_longest_match (ht : HashTable) (str : list Z) (length_ : nat)
  : option Bucket * nat :=
  match completion_hash_find ht str length_ with
  | None => (None, O)
  | Some b =>
      let s := nth 0 (pData b) [] in
      let '(b', lm) := longest_loop (S (length s)) ht s (count b) length_ b in
      (Some b', lm)
  end.

Definition completion_hash_clean (ht : HashTable) : HashTable :=
  mkHT (nTableSize ht) (replicate (Z.to_nat (nTableSize ht)) []).

(** The loop of [add_word]: every nonempty prefix of the word is a key. *)
Fixpoint add_prefixes (ht : HashTable) (word pos : list Z) (i : nat) : HashTable :=
  match pos with
  | [] => ht
  | _ :: pos' => add_prefixes (snd (completion_hash_update ht word i word)) word pos' (S i)
  end.

Definition add_word (ht : HashTable) (word : list Z) : HashTable :=
  add_prefixes ht word word 1.

(** ** The generator of completions

    [new_command_generator] keeps its place between two calls in static
    variables: the chain from the current bucket on, the entries left in that
    bucket, and the index of the chain. *)
Record generator := mkGen {
  g_chain : list Bucket;
  g_entries : list (list Z);
  g_i : nat
}.

(** The next used chain from index [i] on. *)
Fixpoint first_used (chains : list (list Bucket)) (i : nat) : option (list Bucket * nat) :=
  match chains with
  | [] => None
  | [] :: rest => first_used rest (S i)
  | chain :: _ => Some (chain, i)
  end.

Definition used_from (ht : HashTable) (i : nat) : option (list Bucket * nat) :=
  first_used (drop i (arBuckets ht)) i.

Definition chain_data (chain : list Bucket) : list (list Z) :=
  match chain with [] => [] | b :: _ => pData b end.

(** The step to the next entry in the traversal of the whole table. *)
Definition next_entry (ht : HashTable) (g : generator) : generator :=
  match g_entries g with
  | [] => g
  | _ :: ((_ :: _) as e') => mkGen (g_chain g) e' (g_i g)
  | [_] =>
      match tail (g_chain g) with
      | [] =>
          match used_from ht (S (g_i g)) with
          | Some (chain, i) => mkGen chain (chain_data chain) i
          | None => mkGen [] [] (length (arBuckets ht))
          end
      | chain => mkGen chain (chain_data chain) (g_i g)
      end
  end.

Definition current_length (g : generator) : nat :=
  match g_chain g with [] => O | b :: _ => nKeyLength b end.

Fixpoint traverse_loop (fuel : nat) (ht : HashTable) (g : generator)
  : option (option (list Z) * generator) :=
  match fuel with
  | O => None
  | S fuel' =>
      match g_entries g with
      | [] => Some (None, g)
      | s :: _ =>
          let g' := next_entry ht g in
          if (strlen s =? current_length g)%nat then Some (Some s, g')
          else traverse_loop fuel' ht g'
      end
  end.

(** One call [new_command_generator(text, state)]; [first] is [!state]. *)
Definition new_command_generator (fuel : nat) (ht : HashTable) (text : list Z) (first : bool)
    (g : generator) : option (option (list Z) * generator) :=
  if (0 <? strlen text)%nat then
    let start :=
      if first then
        match find_all_matches ht text (strlen text) with
        | (None, _) => None
        | (Some b, _) => Some (mkGen (g_chain g) (pData b) (g_i g))
        end
      else Some g in
    match start with
    | None => Some (None, g)
    | Some g =>
        match g_entries g with
        | [] => Some (None, g)
        | s :: e' => Some (Some s, mkGen (g_chain g) e' (g_i g))
        end
    end
  else
    let g :=
      if first then
        match used_from ht 0 with
        | Some (chain, i) => mkGen chain (chain_data chain) i
        | None => mkGen (g_chain g) (g_entries g) (length (arBuckets ht))
        end
      else g in
    traverse_loop fuel ht g.

(** What the readline library does with the generator: it calls it until it
    returns NULL. *)
Fixpoint rest_of_completions (calls fuel : nat) (ht : HashTable) (text : list Z)
    (g : generator) : option (list (list Z)) :=
  match calls with
  | O => None
  | S calls' =>
      match new_command_generator fuel ht text false g with
      | None => None
      | Some (None, _) => Some []
      | Some (Some s, g') => l ← rest_of_completions calls' fuel ht text g'; Some (s :: l)
      end
  end.

Definition completions (calls fuel : nat) (ht : HashTable) (text : list Z) (g : generator)
  : option (list (list Z)) :=
  match new_command_generator fuel ht text true g with
  | None => None
  | Some (None, _) => Some []
  | Some (Some s, g') => l ← rest_of_completions calls fuel ht text g'; Some (s :: l)
  end.

(** ** Invariant of the table and the effect of one update *)

Definition key (p : Bucket) : list Z := take (nKeyLength p) (arKey p).

Definition bucket_ok (size : Z) (i : nat) (p : Bucket) : Prop :=
  (0 < nKeyLength p <= length (arKey p))%nat
  /\ h p = hashpjw (arKey p) (nKeyLength p)
  /\ Z.to_nat (h p mod size) = i.

Definition chain_ok (size : Z) (i : nat) (chain : list Bucket) : Prop :=
  Forall (bucket_ok size i) chain /\ NoDup (map key chain).

Definition table_ok (ht : HashTable) : Prop :=
  0 < nTableSize ht
  /\ length (arBuckets ht) = Z.to_nat (nTableSize ht)
  /\ forall i chain, arBuckets ht !! i = Some chain -> chain_ok (nTableSize ht) i chain.

(** The bucket of a whole key. *)
Definition lookup_key (ht : HashTable) (k : list Z) : option Bucket :=
  completion_hash_find ht k (length k).

(** What an update does to the bucket of its key. *)
Definition bump (k s : list Z) (ob : option Bucket) (key_string : list Z) : Bucket :=
  match ob with
  | Some p => mkBucket (h p) (arKey p) (nKeyLength p) (uint32 (count p + 1)) (s :: pData p)
  | None => mkBucket (hashpjw k (length k)) key_string (length k) 1 [s]
  end.

Lemma hashpjw_take a n : (n <= length a)%nat -> hashpjw (take n a) (length (take n a)) = hashpjw a n.
Proof.
  intros Hn. unfold hashpjw. f_equal. rewrite length_take, take_take.
  f_equal. lia.
Qed.

Lemma key_matches_take hv a n p : (n <= length a)%nat ->
  key_matches hv (take n a) (length (take n a)) p = key_matches hv a n p.
Proof.
  intros Hn. unfold key_matches, memeq.
  replace (length (take n a)) with n by (rewrite length_take; lia).
  rewrite take_take. by replace (n `min` n)%nat with n by lia.
Qed.

Lemma find_lookup_key ht a n :
  (n <= length a)%nat -> completion_hash_find ht a n = lookup_key ht (take n a).
Proof.
  intros Hn. unfold lookup_key, completion_hash_find.
  rewrite hashpjw_take by done. 
  induction (nth _ _ _) as [|p chain IH]; [done|]. cbn [List.find].
  rewrite key_matches_take by done. destruct (key_matches _ a n p); [done|]. apply IH.
Qed.

(** In a well-formed bucket the hash and the length are determined by the key. *)
Lemma key_matches_ok size i p k :
  bucket_ok size i p ->
  key_matches (hashpjw k (length k)) k (length k) p = bool_decide (key p = k).
Proof.
  intros (Hn & Hh & _). unfold key_matches, memeq, key.
  rewrite take_ge with (l := k) by lia.
  apply eq_bool_prop_intro. rewrite !andb_True, !bool_decide_spec.
  split.
  - intros [[_ Hl] Heq]. apply Is_true_true, Nat.eqb_eq in Hl. by rewrite Hl.
  - intros Hk. assert (nKeyLength p = length k) as Hl.
    { rewrite <-Hk, length_take. lia. }
    split_and!.
    + apply Is_true_true, Z.eqb_eq. rewrite Hh, <-Hk. symmetry. apply hashpjw_take. lia.
    + by apply Is_true_true, Nat.eqb_eq.
    + by rewrite <-Hl.
Qed.

Definition chain_find (chain : list Bucket) (k : list Z) : option Bucket :=
  List.find (fun p => bool_decide (key p = k)) chain.

Lemma find_chain_find size i chain k :
  Forall (bucket_ok size i) chain ->
  List.find (key_matches (hashpjw k (length k)) k (length k)) chain = chain_find chain k.
Proof.
  unfold chain_find. induction 1 as [|p chain Hp _ IH]; [done|]. cbn [List.find].
  rewrite (key_matches_ok size i) by done. by rewrite IH.
Qed.

Lemma chain_find_none chain k : k ∉ map key chain -> chain_find chain k = None.
Proof.
  unfold chain_find. induction chain as [|p chain IH]; [done|]. cbn.
  intros Hk. rewrite bool_decide_eq_false_2 by set_solver. apply IH. set_solver.
Qed.

Lemma chain_find_key chain k p : chain_find chain k = Some p -> key p = k /\ p ∈ chain.
Proof.
  unfold chain_find. intros Hf. apply List.find_some in Hf as [Hin Hk].
  apply bool_decide_eq_true in Hk. split; [done|]. by apply list_elem_of_In.
Qed.

Lemma chain_find_elem chain p :
  NoDup (map key chain) -> p ∈ chain -> chain_find chain (key p) = Some p.
Proof.
  unfold chain_find. induction chain as [|q chain IH]; cbn; [set_solver|].
  rewrite NoDup_cons. intros [Hq Hnd] Hin.
  apply elem_of_cons in Hin as [->|Hin]; [by rewrite bool_decide_eq_true_2|].
  rewrite bool_decide_eq_false_2; [by apply IH|].
  intros E. apply Hq. rewrite E. by apply list_elem_of_fmap_2.
Qed.

(** The bucket the update writes keeps its key. *)
Definition bumped (s : list Z) (p : Bucket) : Bucket :=
  mkBucket (h p) (arKey p) (nKeyLength p) (uint32 (count p + 1)) (s :: pData p).

Lemma add_to_chain_ok size i chain k s :
  Forall (bucket_ok size i) chain -> NoDup (map key chain) ->
  match chain_find chain k with
  | None => add_to_chain (hashpjw k (length k)) k (length k) s chain = None
  | Some p => exists chain',
      add_to_chain (hashpjw k (length k)) k (length k) s chain = Some chain'
      /\ map key chain' = map key chain
      /\ Forall (bucket_ok size i) chain'
      /\ chain_find chain' k = Some (bumped s p)
      /\ forall k', k' <> k -> chain_find chain' k' = chain_find chain k'
  end.
Proof.
  unfold chain_find. intros Hok Hnd. induction Hok as [|p chain Hp Hok IH]; [done|].
  cbn [map] in Hnd. apply NoDup_cons in Hnd as [Hni Hnd]. specialize (IH Hnd).
  cbn [List.find add_to_chain]. rewrite (key_matches_ok size i) by done.
  case_bool_decide as Hk.
  - eexists. split; [done|]. cbn. split_and!; [done|by constructor|..].
    + by rewrite bool_decide_eq_true_2.
    + intros k' Hk'. fold (key p). by rewrite bool_decide_eq_false_2 by congruence.
  - destruct (List.find _ chain) as [q|].
    + destruct IH as (chain' & -> & Hm & Hok' & Hf & Hf').
      eexists. split; [done|]. cbn. rewrite Hm. split_and!; [done|by constructor|..].
      * by rewrite bool_decide_eq_false_2.
      * intros k' Hk'. case_bool_decide; [done|]. by apply Hf'.
    + by rewrite IH.
Qed.

(** The table after an update: the chain of the key is replaced. *)
Lemma lookup_key_chain ht k :
  table_ok ht ->
  lookup_key ht k = chain_find (nth (bucket_index ht (hashpjw k (length k))) (arBuckets ht) []) k.
Proof.
  intros (Hsz & Hlen & Hok). unfold lookup_key, completion_hash_find.
  set (i := bucket_index _ _).
  destruct (arBuckets ht !! i) as [chain|] eqn:E.
  - rewrite (nth_lookup_Some _ _ _ _ E). destruct (Hok _ _ E). by eapply find_chain_find.
  - by rewrite nth_lookup, E.
Qed.

Lemma bucket_index_lt ht hv :
  table_ok ht -> (bucket_index ht hv < length (arBuckets ht))%nat.
Proof.
  intros (Hsz & -> & _). unfold bucket_index.
  pose proof (Z.mod_pos_bound hv (nTableSize ht) Hsz). lia.
Qed.

Lemma update_take ht a n s : (0 < n <= length a)%nat ->
  completion_hash_update ht a n s =
    let k := take n a in
    let i := bucket_index ht (hashpjw k (length k)) in
    let chain := nth i (arBuckets ht) [] in
    (SUCCESS, mkHT (nTableSize ht)
      (<[i := default (mkBucket (hashpjw k (length k)) a n 1 [s] :: chain)
                (add_to_chain (hashpjw k (length k)) k (length k) s chain)]> (arBuckets ht))).
Proof.
  intros Hn. cbv zeta. rewrite hashpjw_take by lia. unfold completion_hash_update.
  destruct (Nat.leb_spec n 0); [lia|].
  assert (Hc : forall hv chain,
    add_to_chain hv (take n a) (length (take n a)) s chain = add_to_chain hv a n s chain).
  { intros hv chain. induction chain as [|p chain IH]; [done|]. cbn.
    rewrite key_matches_take by lia. destruct (key_matches hv a n p); [done|]. by rewrite IH. }
  rewrite Hc. by destruct (add_to_chain _ a n s _).
Qed.

Lemma update_ok ht a n s (ht' := snd (completion_hash_update ht a n s)) :
  table_ok ht -> (0 < n <= length a)%nat ->
  table_ok ht' /\
  (forall k, lookup_key ht' k =
     if bool_decide (k = take n a)
     then Some (bump (take n a) s (lookup_key ht k) a) else lookup_key ht k).
Proof.
  intros Hok Hn. unfold ht'. rewrite update_take by done. cbv zeta. cbn [snd].
  set (k0 := take n a). set (i := bucket_index ht (hashpjw k0 (length k0))).
  assert (Hi : (i < length (arBuckets ht))%nat) by by apply bucket_index_lt.
  destruct (lookup_lt_is_Some_2 _ _ Hi) as [chain Hch].
  rewrite (nth_lookup_Some _ _ _ _ Hch).
  assert (Hk0 : lookup_key ht k0 = chain_find chain k0).
  { rewrite lookup_key_chain by done. fold i. by rewrite (nth_lookup_Some _ _ _ _ Hch). }
  pose proof Hok as (Hsz & Hlen & Hall). destruct (Hall _ _ Hch) as [Hc Hnd].
  assert (length k0 = n) as Hlk by (unfold k0; rewrite length_take; lia).
  set (chain2 := default _ _).
  assert (Hc2 : chain_ok (nTableSize ht) i chain2
    /\ chain_find chain2 k0 = Some (bump k0 s (chain_find chain k0) a)
    /\ forall k', k' <> k0 -> chain_find chain2 k' = chain_find chain k').
  { pose proof (add_to_chain_ok _ _ chain k0 s Hc Hnd) as Hadd. unfold chain2.
    destruct (chain_find chain k0) as [p|] eqn:Ep.
    - destruct Hadd as (chain' & -> & Hm & Hc' & Hf & Hf'). cbn.
      split_and!; [split; [done|by rewrite Hm]|done|done].
    - rewrite Hadd. cbn.
      assert (key (mkBucket (hashpjw k0 (length k0)) a n 1 [s]) = k0) as Hkey by done.
      assert (k0 ∉ map key chain) as Hni.
      { intros Hin. apply list_elem_of_fmap in Hin as (q & Hq & Hin).
        rewrite Hq, (chain_find_elem _ _ Hnd Hin) in Ep. done. }
      split_and!.
      + split; [|by apply NoDup_cons; rewrite Hkey]. constructor; [|done].
        split_and!; cbn; [lia|lia| |done]. unfold k0. apply hashpjw_take. lia.
      + unfold chain_find. cbn [List.find]. rewrite bool_decide_eq_true_2 by done.
        by rewrite Hlk.
      + intros k' Hk'. unfold chain_find. cbn [List.find].
        rewrite bool_decide_eq_false_2; [done|]. intros E. apply Hk'. rewrite <-E. apply Hkey. }
  destruct Hc2 as (Hok2 & Hf & Hf').
  assert (Htab : table_ok (mkHT (nTableSize ht) (<[i := chain2]> (arBuckets ht)))).
  { split_and!; cbn; [done|by rewrite length_insert|].
    intros j c Hj. destruct (decide (i = j)) as [<-|Hne].
    - rewrite list_lookup_insert_eq in Hj by done. by simplify_eq.
    - rewrite list_lookup_insert_ne in Hj by done. by apply Hall. }
  split; [done|]. intros k. rewrite !lookup_key_chain by done. cbn [arBuckets].
  unfold bucket_index at 1. cbn [nTableSize]. fold (bucket_index ht (hashpjw k (length k))).
  case_bool_decide as Hk.
  - subst k. fold k0. fold i. rewrite !nth_lookup, list_lookup_insert_eq, Hch by done.
    exact Hf.
  - rewrite !nth_lookup. destruct (decide (i = bucket_index ht (hashpjw k (length k)))) as [<-|Hne].
    + rewrite list_lookup_insert_eq, Hch by done. cbn. by apply Hf'.
    + by rewrite list_lookup_insert_ne.
Qed.

(** ** What the table promises: the words with a given prefix

    [words] are the words added so far, the last one first. *)

Definition matches (words : list (list Z)) (k : list Z) : list (list Z) :=
  filter (fun w => k `prefix_of` w) words.

Definition holds (words : list (list Z)) (k : list Z) (ob : option Bucket) : Prop :=
  match ob with
  | None => matches words k = []
  | Some b => pData b = matches words k /\ matches words k <> []
              /\ count b = uint32 (Z.of_nat (length (matches words k)))
              /\ arKey b ∈ words
  end.

Definition represents (ht : HashTable) (words : list (list Z)) : Prop :=
  table_ok ht /\ forall k, k <> [] -> holds words k (lookup_key ht k).

Lemma init_represents size : 0 < size -> represents (completion_hash_init size) [].
Proof.
  intros Hs. assert (table_ok (completion_hash_init size)) as Hok.
  { split_and!; cbn; [done|by rewrite length_replicate|].
    intros i chain Hi. apply lookup_replicate in Hi as [-> _]. split; constructor. }
  split; [done|]. intros k _. rewrite lookup_key_chain by done. cbn.
  rewrite nth_lookup. destruct (replicate _ _ !! _) as [c|] eqn:E; [|done].
  by apply lookup_replicate in E as [-> _].
Qed.

Lemma clean_represents ht words : represents ht words -> represents (completion_hash_clean ht) [].
Proof. intros [(Hs & _) _]. by apply (init_represents (nTableSize ht)). Qed.

Lemma add_prefixes_ok ht word pos i :
  table_ok ht -> (0 < i)%nat -> (i + length pos = S (length word))%nat ->
  table_ok (add_prefixes ht word pos i) /\
  forall k, lookup_key (add_prefixes ht word pos i) k =
    if bool_decide (k `prefix_of` word /\ (i <= length k)%nat)
    then Some (bump k word (lookup_key ht k) word) else lookup_key ht k.
Proof.
  revert ht i. induction pos as [|c pos IH]; intros ht i Hok Hi Hlen; cbn in Hlen |- *.
  - split; [done|]. intros k. rewrite bool_decide_eq_false_2; [done|].
    intros [Hk Hle]. apply prefix_length in Hk. lia.
  - destruct (update_ok ht word i word) as [Hok' Hf]; [done|lia|].
    destruct (IH _ (S i) Hok' ltac:(lia) ltac:(lia)) as [Hok2 Hf2].
    split; [done|]. intros k. rewrite Hf2, Hf.
    assert (k `prefix_of` word -> length k = i -> k = take i word) as Htake.
    { intros [w ->] <-. by rewrite take_app_length. }
    destruct (decide (k = take i word)) as [Hk|Hk].
    + assert (k `prefix_of` word) by (rewrite Hk; eexists; by rewrite take_drop).
      assert (length k = i) by (rewrite Hk, length_take; lia).
      rewrite bool_decide_eq_false_2 by lia. rewrite !bool_decide_eq_true_2 by (try split; (done || lia)).
      by rewrite Hk.
    + rewrite (bool_decide_eq_false_2 (k = _)) by done.
      destruct (decide (k `prefix_of` word /\ (i <= length k)%nat)) as [[Hp Hl]|Hn].
      * rewrite !bool_decide_eq_true_2; [done|done|].
        split; [done|]. destruct (decide (length k = i)); [naive_solver|lia].
      * rewrite !bool_decide_eq_false_2; [done|done|]. intros [? ?]. apply Hn. split; [done|lia].
Qed.

Lemma matches_cons w words k :
  matches (w :: words) k = if bool_decide (k `prefix_of` w) then w :: matches words k
                           else matches words k.
Proof.
  unfold matches. rewrite filter_cons. by case_bool_decide; case_decide.
Qed.

Lemma uint32_succ z : uint32 (uint32 z + 1) = uint32 (z + 1).
Proof. unfold uint32. by rewrite Zplus_mod_idemp_l. Qed.

Lemma add_word_represents ht words w :
  represents ht words -> represents (add_word ht w) (w :: words).
Proof.
  intros [Hok Hh]. unfold add_word.
  destruct (add_prefixes_ok ht w w 1 Hok ltac:(lia) ltac:(lia)) as [Hok' Hf].
  split; [done|]. intros k Hk. rewrite Hf. specialize (Hh k Hk).
  assert (length k <> O) by (by destruct k).
  unfold holds in *. rewrite !matches_cons.
  case_bool_decide as Hp; destruct_and?.
  - rewrite bool_decide_eq_true_2 by done.
    destruct (lookup_key ht k) as [b|]; cbn.
    + destruct Hh as (-> & _ & -> & Hin). split_and!; [done|done| |set_solver].
      rewrite uint32_succ. f_equal. cbn. lia.
    + rewrite Hh. split_and!; try done. set_solver.
  - rewrite bool_decide_eq_false_2.
    + destruct (lookup_key ht k); [|done]. destruct_and!. split_and!; set_solver.
    + intros Hp'. apply Hp. split; [done|lia].
Qed.

(** The table after a sequence of [add_word] calls on an empty table. *)
Lemma add_words_represents size words :
  0 < size ->
  represents (fold_left add_word words (completion_hash_init size)) (reverse words).
Proof.
  intros Hs. induction words as [|w words IH] using rev_ind.
  - by apply init_represents.
  - rewrite fold_left_app, reverse_snoc. cbn. by apply add_word_represents.
Qed.

(** ** The generator on a prefix *)

Lemma rest_of_completions_prefix calls fuel ht text g :
  (0 < strlen text)%nat -> (length (g_entries g) < calls)%nat ->
  rest_of_completions calls fuel ht text g = Some (g_entries g).
Proof.
  intros Ht. revert g. induction calls as [|calls IH]; intros g Hc; [lia|].
  cbn [rest_of_completions]. unfold new_command_generator.
  rewrite (proj2 (Nat.ltb_lt _ _) Ht). destruct (g_entries g) as [|s e] eqn:E; [done|].
  rewrite IH; [done|]. cbn in *. lia.
Qed.

(** Completion on a table that represents a list of words. *)
Lemma completions_represents ht words text g calls fuel :
  represents ht words -> c_string text -> text <> [] -> (length words <= calls)%nat ->
  completions calls fuel ht text g = Some (matches words text).
Proof.
  intros [Hok Hh] Ht Hne Hc. specialize (Hh text Hne). unfold holds, lookup_key in Hh.
  assert (length (matches words text) <= length words)%nat by apply length_filter.
  unfold completions, new_command_generator. rewrite strlen_c_string by done.
  destruct (Nat.ltb_spec 0 (length text)); [|destruct text; cbn in *; [done|lia]].
  unfold find_all_matches.
  destruct (completion_hash_find ht text (length text)) as [b|]; [|by rewrite Hh].
  destruct Hh as (Hd & Hne' & _). cbn [g_entries]. rewrite Hd.
  destruct (matches words text) as [|m ms]; [done|].
  rewrite rest_of_completions_prefix; [done|..]; cbn in *; rewrite ?strlen_c_string by done; lia.
Qed.

(** C28. Tab completion of a nonempty text offers exactly the known words that
    start with it, the most recently added first: every such word and no
    other. *)
Theorem completions_of_prefix (size : Z) (words : list (list Z)) (text : list Z)
    (g : generator) (calls fuel : nat) :
  0 < size -> c_string text -> text <> [] -> (length words <= calls)%nat ->
  completions calls fuel (fold_left add_word words (completion_hash_init size)) text g
    = Some (filter (fun w => text `prefix_of` w) (reverse words)).
Proof.
  intros Hs Ht Hne Hc. apply completions_represents; [by apply add_words_represents|done|done|].
  by rewrite length_reverse.
Qed.

Lemma completions_of_prefix_witness :
  completions 9 9 (fold_left add_word [str "status"; str "show"; str "use"; str "st"]
                     (completion_hash_init 128)) (str "st") (mkGen [] [] 0)
    = Some [str "st"; str "status"].
Proof.
  apply (completions_of_prefix 128 [str "status"; str "show"; str "use"; str "st"] (str "st"));
    [done|by repeat constructor|done|cbn; lia].
Defined.

(** ** The longest match *)

Lemma matches_take words k n :
  (n <= length k)%nat -> matches words k = filter (fun w => k `prefix_of` w) (matches words (take n k)).
Proof.
  intros Hn. unfold matches. rewrite list_filter_filter. apply list_filter_iff.
  intros w. split; [|naive_solver]. intros [t ->]. split; [by eexists|].
  exists (drop n k ++ t). by rewrite app_assoc, take_drop.
Qed.

Lemma matches_take_length words k n :
  (n <= length k)%nat ->
  (length (matches words k) <= length (matches words (take n k)))%nat
  /\ (length (matches words k) = length (matches words (take n k)) ->
      matches words k = matches words (take n k)).
Proof.
  intros Hn. rewrite (matches_take words k n) by done.
  split; [apply length_filter|].
  generalize (matches words (take n k)). intros l. induction l as [|w l IH]; [done|].
  rewrite filter_cons. case_decide; cbn; intros Hl.
  - f_equal. apply IH. lia.
  - pose proof (length_filter (fun w => k `prefix_of` w) l). lia.
Qed.

Lemma at_c_string s n : c_string s -> (at_ s n =? 0) = negb (n <? length s)%nat.
Proof.
  intros Hs. unfold at_. destruct (Nat.ltb_spec n (length s)) as [Hn|Hn]; cbn.
  - destruct (lookup_lt_is_Some_2 s n Hn) as [c Hc]. rewrite (nth_lookup_Some _ _ _ _ Hc).
    pose proof (Forall_lookup_1 _ _ _ _ Hs Hc) as H. unfold is_char in H.
    apply Z.eqb_neq. intros ->. done.
  - by rewrite nth_overflow by done.
Qed.

Lemma uint32_small n : Z.of_nat n < 2 ^ 32 -> uint32 (Z.of_nat n) = Z.of_nat n.
Proof. intros. unfold uint32. apply Z.mod_small. lia. Qed.

(** The loop of [find_longest_match] stops at the longest common prefix of
    the words [ms] it started from. *)
Definition longest_common (ms : list (list Z)) (q : list Z) : Prop :=
  Forall (fun w => q `prefix_of` w) ms
  /\ forall q', Forall (fun w => q' `prefix_of` w) ms -> (length q' <= length q)%nat.

Lemma take_prefix {A} n (l : list A) : take n l `prefix_of` l.
Proof. exists (drop n l). by rewrite take_drop. Qed.

(** Every word found under a prefix starts with all shorter prefixes. *)
Lemma matches_prefix words s m n :
  (m <= n)%nat -> Forall (fun w => take m s `prefix_of` w) (matches words (take n s)).
Proof.
  intros Hmn. apply Forall_forall. intros w Hw. apply list_elem_of_filter in Hw as [Hw _].
  etrans; [|exact Hw]. replace (take m s) with (take m (take n s)); [apply take_prefix|].
  rewrite take_take. f_equal. lia.
Qed.

Lemma matches_self words s n : s ∈ words -> s ∈ matches words (take n s).
Proof. intros Hs. apply list_elem_of_filter. split; [apply take_prefix|done]. Qed.

(** If a longer prefix loses a word, the prefix was the longest common one. *)
Lemma longest_common_stop words s lm :
  s ∈ words -> (lm <= length s)%nat ->
  (lm = length s \/
   (length (matches words (take (lm + 1) s)) < length (matches words (take lm s)))%nat) ->
  longest_common (matches words (take lm s)) (take lm s).
Proof.
  intros Hs Hlm Hlose. split; [by apply matches_prefix|]. intros q' Hq'.
  rewrite length_take_le by done.
  assert (q' `prefix_of` s) as [t Ht].
  { eapply (proj1 (Forall_forall _ _) Hq'), matches_self, Hs. }
  destruct (le_lt_dec (length q') lm) as [|Hlong]; [done|]. exfalso.
  assert (length q' <= length s)%nat by (rewrite Ht, length_app; lia).
  destruct Hlose as [|Hlose]; [lia|].
  set (k := take (lm + 1) s) in *.
  assert (Hk : take lm k = take lm s) by (unfold k; rewrite take_take; f_equal; lia).
  rewrite (matches_take words k lm), Hk, filter_all in Hlose; [lia|..].
  - eapply Forall_impl; [exact Hq'|]. intros w Hw. etrans; [|exact Hw].
    unfold k. rewrite Ht, take_app_le by lia. apply take_prefix.
  - unfold k. rewrite length_take. lia.
Qed.

Lemma longest_loop_ok fuel ht words s cnt lm b :
  represents ht words -> Forall c_string words -> Z.of_nat (length words) < 2 ^ 32 ->
  s ∈ words -> (0 < lm <= length s)%nat -> (length s < lm + fuel)%nat ->
  pData b = matches words (take lm s) -> cnt = Z.of_nat (length (matches words (take lm s))) ->
  exists b' lm', longest_loop fuel ht s cnt lm b = (b', lm')
    /\ pData b' = matches words (take lm s) /\ (lm <= lm' <= length s)%nat
    /\ longest_common (matches words (take lm s)) (take lm' s).
Proof.
  intros [Hok Hh] Hcs Hlt Hs. revert lm b.
  pose proof (proj1 (Forall_forall _ _) Hcs s Hs) as Hss.
  induction fuel as [|fuel IH]; intros lm b Hlm Hfuel Hb Hcnt; [lia|].
  cbn [longest_loop]. rewrite at_c_string, negb_involutive by done.
  destruct (Nat.ltb_spec lm (length s)) as [Hl|Hl].
  2: { eexists _, _. split_and!; [done|done|lia|lia|].
       apply longest_common_stop; [done|lia|left; lia]. }
  rewrite find_lookup_key by lia.
  set (k := take (lm + 1) s).
  assert (Hlk : length k = (lm + 1)%nat) by (unfold k; rewrite length_take; lia).
  assert (Hk : take lm k = take lm s) by (unfold k; rewrite take_take; f_equal; lia).
  specialize (Hh k ltac:(intros E; rewrite E in Hlk; cbn in Hlk; lia)).
  destruct (matches_take_length words k lm ltac:(lia)) as [Hle Heq]. rewrite Hk in Hle, Heq.
  pose proof (matches_self words s (lm + 1) Hs) as Hks. fold k in Hks.
  destruct (lookup_key ht k) as [b2|]; cbn [holds] in Hh; [|rewrite Hh in Hks; set_solver].
  destruct Hh as (Hd & _ & Hc & _).
  assert (length (matches words k) <= length words)%nat by apply length_filter.
  rewrite Hc, uint32_small by lia.
  destruct (Z.ltb_spec (Z.of_nat (length (matches words k))) cnt) as [Hlt2|Hge].
  - eexists _, _. split_and!; [done|done|lia|lia|].
    apply longest_common_stop; [done|lia|right; fold k; lia].
  - destruct (IH (lm + 1)%nat b2) as (b' & lm' & -> & Hd' & Hlm' & Hlc); [lia|lia|done| |].
    + fold k. rewrite Hcnt, Heq; [done|lia].
    + fold k in Hd', Hlc. rewrite Heq in Hd', Hlc by lia.
      eexists _, _. split_and!; [done|done|lia|lia|done].
Qed.

(** Completing a text as far as it is unambiguous: [find_longest_match]
    finds nothing when no known word starts with the text, and otherwise the
    words that start with it and the length of the longest prefix they all
    share. *)
Theorem find_longest_match_spec (size : Z) (words : list (list Z)) (text : list Z) :
  0 < size -> text <> [] -> Forall c_string words -> Z.of_nat (length words) < 2 ^ 32 ->
  let ms := filter (fun w => text `prefix_of` w) (reverse words) in
  match find_longest_match (fold_left add_word words (completion_hash_init size))
          text (length text) with
  | (None, lm) => ms = [] /\ lm = O
  | (Some b, lm) =>
      pData b = ms /\ ms <> [] /\ (length text <= lm)%nat
      /\ longest_common ms (take lm (nth 0 ms []))
  end.
Proof.
  intros Hs Hne Hcs Hlt ms.
  pose proof (add_words_represents size words Hs) as Hrep.
  set (ht := fold_left _ _ _) in *. unfold find_longest_match.
  change ms with (matches (reverse words) text). clear ms.
  pose proof (proj2 Hrep text Hne) as Hh. unfold lookup_key in Hh.
  destruct (completion_hash_find ht text (length text)) as [b|]; [|done].
  destruct Hh as (Hd & Hne' & Hc & _). rewrite Hd.
  set (s := nth 0 (matches (reverse words) text) []).
  assert (Hs0 : s ∈ matches (reverse words) text).
  { subst s. destruct (matches (reverse words) text); [done|]. cbn. set_solver. }
  apply list_elem_of_filter in Hs0 as [Hpre Hin].
  assert (Ht : take (length text) s = text) by (destruct Hpre as [t ->]; apply take_app_length).
  pose proof (prefix_length _ _ Hpre).
  assert (Hl : (length (matches (reverse words) text) <= length words)%nat).
  { rewrite <-(length_reverse words). apply length_filter. }
  destruct (longest_loop_ok (S (length s)) ht (reverse words) s (count b) (length text) b Hrep)
    as (b' & lm' & -> & Hd' & Hlm & Hlc); rewrite ?Ht.
  all: rewrite ?length_reverse; try done; try lia.
  - by apply Forall_reverse.
  - destruct text; [done|cbn in *; lia].
  - rewrite Hc, uint32_small; [done|lia].
  - rewrite Ht in Hd', Hlc. split_and!; [done|done|lia|done].
Qed.

Lemma find_longest_match_witness :
  let ms := filter (fun w => str "sh" `prefix_of` w) (reverse [str "show"; str "use"; str "shot"]) in
  match find_longest_match (fold_left add_word [str "show"; str "use"; str "shot"]
          (completion_hash_init 128)) (str "sh") 2 with
  | (None, lm) => ms = [] /\ lm = O
  | (Some b, lm) =>
      pData b = ms /\ ms <> [] /\ (2 <= lm)%nat
      /\ longest_common ms (take lm (nth 0 ms []))
  end.
Proof.
  apply (find_longest_match_spec 128 [str "show"; str "use"; str "shot"] (str "sh"));
    [done|done|by repeat constructor|done].
Defined.

(** ** The generator on an empty text: all words *)

(** The words a bucket contributes: those that are its key. *)
Definition bucket_words (b : Bucket) : list (list Z) :=
  filter (fun s => strlen s = nKeyLength b) (pData b).

(** What a generator in the middle of the table still has to deliver. *)
Definition to_deliver (ht : HashTable) (g : generator) : list (list Z) :=
  filter (fun s => strlen s = current_length g) (g_entries g)
  ++ flat_map bucket_words (tail (g_chain g) ++ concat (drop (S (g_i g)) (arBuckets ht))).

Definition all_used (bs : list Bucket) : Prop := Forall (fun b => pData b <> []) bs.

Definition gen_ok (ht : HashTable) (g : generator) : Prop :=
  all_used (g_chain g) /\ all_used (concat (arBuckets ht))
  /\ (g_entries g = [] -> tail (g_chain g) ++ concat (drop (S (g_i g)) (arBuckets ht)) = []).

(** How many entries the generator has not looked at. *)
Definition entries_left (ht : HashTable) (g : generator) : nat :=
  length (g_entries g)
  + length (flat_map pData (tail (g_chain g) ++ concat (drop (S (g_i g)) (arBuckets ht)))).

Lemma used_from_spec ht i :
  match used_from ht i with
  | Some (chain, j) => exists b rest, chain = b :: rest
      /\ concat (drop i (arBuckets ht)) = chain ++ concat (drop (S j) (arBuckets ht))
  | None => concat (drop i (arBuckets ht)) = []
  end.
Proof.
  unfold used_from. remember (drop i (arBuckets ht)) as l eqn:El. revert i El.
  induction l as [|[|b rest] l IH]; intros i El; [done|..]; cbn [first_used concat].
  - specialize (IH (S i)). rewrite (app_nil_l (concat l)). apply IH.
    replace (S i) with (i + 1)%nat by lia. rewrite <-drop_drop, <-El. done.
  - exists b, rest. split; [done|]. f_equal. f_equal.
    replace (S i) with (i + 1)%nat by lia. rewrite <-drop_drop, <-El. done.
Qed.

Lemma all_used_from ht i : all_used (concat (arBuckets ht)) -> all_used (concat (drop i (arBuckets ht))).
Proof.
  unfold all_used. intros Hall. rewrite <-(take_drop i (arBuckets ht)), concat_app in Hall.
  by apply Forall_app in Hall as [_ ?].
Qed.

(** The first entry of a used chain is one of its bucket's words. *)
Lemma start_chain_ok ht b rest i :
  all_used (b :: rest) -> all_used (concat (arBuckets ht)) ->
  let g := mkGen (b :: rest) (chain_data (b :: rest)) i in
  gen_ok ht g
  /\ to_deliver ht g = flat_map bucket_words ((b :: rest) ++ concat (drop (S i) (arBuckets ht)))
  /\ entries_left ht g = length (flat_map pData ((b :: rest) ++ concat (drop (S i) (arBuckets ht)))).
Proof.
  intros Hch Hall g. unfold gen_ok, to_deliver, entries_left, g. cbn.
  split_and!; [done|done| |done|by rewrite length_app].
  intros Hb. by apply Forall_cons in Hch as [? _].
Qed.

Lemma next_entry_ok ht g s e :
  gen_ok ht g -> g_entries g = s :: e ->
  gen_ok ht (next_entry ht g)
  /\ to_deliver ht g = (if (strlen s =? current_length g)%nat then [s] else [])
                       ++ to_deliver ht (next_entry ht g)
  /\ (entries_left ht (next_entry ht g) < entries_left ht g)%nat.
Proof.
  intros (Hch & Hall & _) He.
  assert (Hhd : forall l, filter (fun x => strlen x = current_length g) (s :: l)
    = (if (strlen s =? current_length g)%nat then [s] else [])
      ++ filter (fun x => strlen x = current_length g) l).
  { intros l. rewrite filter_cons. destruct (Nat.eqb_spec (strlen s) (current_length g));
      by case_decide. }
  unfold next_entry. rewrite He.
  unfold to_deliver at 1, entries_left at 2. rewrite He, Hhd, <-app_assoc.
  destruct e as [|s' e].
  - destruct (tail (g_chain g)) as [|b bs] eqn:Et.
    + pose proof (used_from_spec ht (S (g_i g))) as Hu.
      destruct (used_from ht (S (g_i g))) as [[chain j]|].
      * destruct Hu as (b & rest & -> & Hu). rewrite !app_nil_l, Hu.
        pose proof (all_used_from ht (S (g_i g)) Hall) as Hf. rewrite Hu in Hf.
        apply Forall_app in Hf as [Hf _].
        destruct (start_chain_ok ht b rest j Hf Hall) as (Hg & -> & ->).
        split_and!; [done|done|cbn [length]; lia].
      * rewrite !app_nil_l, Hu. unfold gen_ok, to_deliver, entries_left. cbn.
        rewrite drop_ge by lia. cbn. split_and!; [by constructor|done|done|done|lia].
    + assert (all_used (b :: bs)) as Hf.
      { unfold all_used in *. rewrite <-Et. destruct (g_chain g); [done|].
        by apply Forall_cons in Hch as [_ ?]. }
      destruct (start_chain_ok ht b bs (g_i g) Hf Hall) as (Hg & -> & ->).
      split_and!; [done|done|cbn [length]; lia].
  - unfold gen_ok, to_deliver, entries_left. cbn [g_entries g_chain g_i current_length length].
    split_and!; [done|done|done|done|lia].
Qed.

Lemma traverse_loop_ok fuel ht g :
  gen_ok ht g -> (entries_left ht g < fuel)%nat ->
  exists r g', traverse_loop fuel ht g = Some (r, g') /\ gen_ok ht g'
    /\ to_deliver ht g = option_list r ++ to_deliver ht g'
    /\ match r with
       | None => to_deliver ht g' = []
       | Some _ => (entries_left ht g' < entries_left ht g)%nat
       end.
Proof.
  revert g. induction fuel as [|fuel IH]; intros g Hg Hf; [lia|]. cbn [traverse_loop].
  destruct (g_entries g) as [|s e] eqn:He.
  - eexists _, _. split_and!; [done|done|done|]. destruct Hg as (_ & _ & Hg).
    unfold to_deliver. by rewrite He, (Hg He).
  - destruct (next_entry_ok ht g s e Hg He) as (Hg' & Hd & Hl). rewrite Hd.
    destruct (strlen s =? current_length g)%nat.
    + eexists _, _. split_and!; [done|done|done|exact Hl].
    + destruct (IH _ Hg' ltac:(lia)) as (r & g' & -> & Hok & Hd' & Hr).
      eexists _, _. split_and!; [done|done|done|]. destruct r; [lia|done].
Qed.

Lemma rest_of_completions_all calls fuel ht g :
  gen_ok ht g -> (entries_left ht g < fuel)%nat -> (entries_left ht g < calls)%nat ->
  rest_of_completions calls fuel ht [] g = Some (to_deliver ht g).
Proof.
  revert g. induction calls as [|calls IH]; intros g Hg Hf Hc; [lia|].
  cbn [rest_of_completions]. unfold new_command_generator. cbn [strlen Nat.ltb Nat.leb].
  destruct (traverse_loop_ok fuel ht g Hg Hf) as (r & g' & -> & Hg' & -> & Hr).
  destruct r as [s|]; [|by rewrite Hr]. rewrite IH; [done|done|lia|lia].
Qed.

(** Every bucket of the table is the bucket of its key, and no two share one. *)
Lemma table_bucket ht b :
  table_ok ht -> b ∈ concat (arBuckets ht) ->
  lookup_key ht (key b) = Some b /\ key b <> [] /\ length (key b) = nKeyLength b.
Proof.
  intros Hok Hb. apply list_elem_of_In, in_concat in Hb as (chain & Hc & Hb).
  apply list_elem_of_In, list_elem_of_lookup in Hc as [i Hi]. apply list_elem_of_In in Hb.
  destruct (proj2 (proj2 Hok) _ _ Hi) as [Hall Hnd].
  destruct (proj1 (Forall_forall _ _) Hall b Hb) as (Hn & Hh & Hidx).
  assert (Hl : length (key b) = nKeyLength b) by (unfold key; rewrite length_take; lia).
  split_and!; [|by intros E; rewrite E in Hl; cbn in Hl; lia|done].
  rewrite lookup_key_chain by done.
  assert (hashpjw (key b) (length (key b)) = h b) as ->.
  { rewrite Hh. unfold key. apply hashpjw_take. lia. }
  unfold bucket_index. rewrite Hidx, (nth_lookup_Some _ _ _ _ Hi). by apply chain_find_elem.
Qed.

Lemma table_keys_NoDup ht : table_ok ht -> NoDup (map key (concat (arBuckets ht))).
Proof.
  intros Hok. rewrite concat_map.
  apply (NoDup_concat_indexed (fun k => bucket_index ht (hashpjw k (length k))) _ 0).
  intros i l Hl. apply list_lookup_fmap_Some in Hl as (chain & -> & Hi).
  destruct (proj2 (proj2 Hok) _ _ Hi) as [Hall Hnd]. split; [done|].
  intros k Hk. apply list_elem_of_fmap in Hk as (b & -> & Hb).
  destruct (proj1 (Forall_forall _ _) Hall b Hb) as (Hn & Hh & Hidx).
  unfold bucket_index, key. rewrite hashpjw_take, <-Hh by lia. done.
Qed.

Lemma represents_all_used ht words : represents ht words -> all_used (concat (arBuckets ht)).
Proof.
  intros [Hok Hh]. apply Forall_forall. intros b Hb.
  destruct (table_bucket ht b Hok Hb) as (Hl & Hne & _).
  specialize (Hh _ Hne). rewrite Hl in Hh. destruct Hh as (-> & ? & _). done.
Qed.

(** Of the words under a key, those as long as the key are the key. *)
Lemma matches_same_length words k :
  Forall c_string words ->
  filter (fun s => strlen s = length k) (matches words k) = filter (fun w => w = k) words.
Proof.
  intros Hcs. unfold matches. rewrite list_filter_filter.
  induction Hcs as [|w words Hw _ IH]; [done|].
  rewrite !filter_cons, IH. rewrite strlen_c_string by done.
  case_decide as H1; case_decide as H2; try done; exfalso.
  - destruct H1 as [Hlen [t ->]]. apply H2. rewrite length_app in Hlen.
    destruct t; [by rewrite app_nil_r|cbn in Hlen; lia].
  - subst w. by apply H1.
Qed.

Lemma represents_words ht words :
  represents ht words -> Forall c_string words -> Forall (fun w => w <> []) words ->
  flat_map bucket_words (concat (arBuckets ht)) ≡ₚ words.
Proof.
  intros [Hok Hh] Hcs Hne.
  etransitivity; [|apply (group_by_keys (map key (concat (arBuckets ht))) words (table_keys_NoDup ht Hok))].
  - rewrite !flat_map_concat_map, map_map.
    erewrite map_ext_in; [done|]. intros b Hb. apply list_elem_of_In in Hb.
    destruct (table_bucket ht b Hok Hb) as (Hl & Hk & Hlen).
    specialize (Hh _ Hk). rewrite Hl in Hh. destruct Hh as (Hd & _).
    unfold bucket_words. rewrite Hd, <-Hlen. by apply matches_same_length.
  - intros w Hw. specialize (Hh w (proj1 (Forall_forall _ _) Hne w Hw)).
    assert (w ∈ matches words w) by (apply list_elem_of_filter; done).
    rewrite lookup_key_chain in Hh by done.
    destruct (chain_find _ w) as [b|] eqn:Hf; [|cbn in Hh; rewrite Hh in *; set_solver].
    apply chain_find_key in Hf as [<- Hb]. apply list_elem_of_fmap_2.
    apply list_elem_of_In, in_concat. eexists. split; [|by apply list_elem_of_In].
    apply nth_In, bucket_index_lt, Hok.
Qed.

(** Completing an empty text: the generator walks the whole table and
    offers every known word exactly as often as it was added, and then ends. *)
Theorem completions_of_nothing (size : Z) (words : list (list Z)) (g : generator) :
  0 < size -> words <> [] -> Forall c_string words -> Forall (fun w => w <> []) words ->
  exists fuel l,
    completions fuel fuel (fold_left add_word words (completion_hash_init size)) [] g = Some l
    /\ l ≡ₚ words.
Proof.
  intros Hs Hw Hcs Hne. pose proof (add_words_represents size words Hs) as Hrep.
  set (ht := fold_left _ _ _) in *.
  pose proof (represents_words ht (reverse words) Hrep ltac:(by apply Forall_reverse)
                ltac:(by apply Forall_reverse)) as Hp.
  pose proof (represents_all_used _ _ Hrep) as Hall.
  unfold completions, new_command_generator. cbn [strlen Nat.ltb Nat.leb].
  pose proof (used_from_spec ht 0) as Hu. rewrite !drop_0 in Hu.
  destruct (used_from ht 0) as [[chain j]|].
  2: { rewrite Hu in Hp. apply Permutation_nil in Hp. by destruct words using rev_ind; [|rewrite reverse_snoc in Hp]. }
  destruct Hu as (b & rest & -> & Hu). rewrite Hu in Hp.
  assert (all_used (b :: rest)) as Hb by (rewrite Hu in Hall; by apply Forall_app in Hall as [? _]).
  destruct (start_chain_ok ht b rest j Hb Hall) as (Hg & Hd & _).
  set (g0 := mkGen _ _ _) in *. exists (S (entries_left ht g0)).
  destruct (traverse_loop_ok (S (entries_left ht g0)) ht g0 Hg ltac:(lia))
    as (r & g' & -> & Hg' & Hd' & Hr).
  rewrite <-Hd, Hd' in Hp.
  destruct r as [s|].
  - rewrite rest_of_completions_all by (done || lia).
    eexists. split; [done|]. rewrite Hp. apply reverse_Permutation.
  - eexists. split; [done|]. rewrite Hr in Hp. rewrite <-(reverse_Permutation words), <-Hp. done.
Qed.

Lemma completions_of_nothing_witness :
  exists fuel l,
    completions fuel fuel (fold_left add_word [str "use"; str "us"; str "go"; str "use"]
      (completion_hash_init 128)) [] (mkGen [] [] 0) = Some l
    /\ l ≡ₚ [str "use"; str "us"; str "go"; str "use"].
Proof.
  apply (completions_of_nothing 128 [str "use"; str "us"; str "go"; str "use"]);
    [done|done|by repeat constructor|by repeat constructor].
Defined.

(** ** The test for known words *)

Lemma streq_eq a b : c_string a -> c_string b -> streq a b = true -> a = b.
Proof.
  intros Ha Hb Hs. unfold streq in Hs. rewrite !cstr_c_string in Hs by done.
  by apply bool_decide_eq_true in Hs.
Qed.

(** The bucket that makes [completion_hash_exists] succeed. *)
Lemma exists_bucket ht w :
  table_ok ht -> completion_hash_exists ht w (length w) = true ->
  exists p, p ∈ concat (arBuckets ht) /\ nKeyLength p = length w /\ streq (arKey p) w = true.
Proof.
  intros Hok He. unfold completion_hash_exists in He.
  apply existsb_exists in He as (p & Hp & Hb).
  apply andb_prop in Hb as [Hb Hs]. apply andb_prop in Hb as [_ Hn]. apply Nat.eqb_eq in Hn.
  exists p. split; [|done]. apply list_elem_of_In, in_concat. eexists. split; [|exact Hp].
  by apply nth_In, bucket_index_lt.
Qed.

Lemma exists_represents ht words w :
  represents ht words -> Forall c_string words -> c_string w ->
  completion_hash_exists ht w (length w) = true -> w ∈ words.
Proof.
  intros [Hok Hh] Hcs Hw He. destruct (exists_bucket _ w Hok He) as (p & Hp & _ & Heq).
  destruct (table_bucket _ p Hok Hp) as (Hl & Hne & _).
  specialize (Hh _ Hne). rewrite Hl in Hh. destruct Hh as (_ & _ & _ & Hin).
  rewrite <-(streq_eq (arKey p) w); [done| |done|done].
  by eapply (proj1 (Forall_forall _ _) Hcs).
Qed.

(** The test that keeps a word from being added twice never claims a word
    that was not added. *)
Theorem completion_hash_exists_sound (size : Z) (words : list (list Z)) (w : list Z) :
  0 < size -> Forall c_string words -> c_string w ->
  completion_hash_exists (fold_left add_word words (completion_hash_init size)) w (length w) = true ->
  w ∈ words.
Proof.
  intros Hs Hcs Hw He. apply elem_of_reverse.
  apply (exists_represents _ _ _ (add_words_represents size words Hs)); [by apply Forall_reverse|done|done].
Qed.

Lemma completion_hash_exists_sound_witness :
  completion_hash_exists (fold_left add_word [str "go"; str "us"] (completion_hash_init 4))
    (str "us") 2 = true /\ str "us" ∈ [str "go"; str "us"].
Proof.
  split; [by vm_compute|].
  apply (completion_hash_exists_sound 4 [str "go"; str "us"] (str "us"));
    [done|by repeat constructor|by repeat constructor|by vm_compute].
Defined.

(** The test is not complete: once a longer word was added first, a
    shorter word that starts it is never found again, even after it was added
    itself, because the whole string behind the bucket's key is compared
    instead of its first [nKeyLength] bytes. *)
Theorem completion_hash_exists_misses (size : Z) (w x : list Z) :
  0 < size -> c_string (w ++ x) -> w <> [] -> x <> [] ->
  completion_hash_exists (fold_left add_word [w ++ x; w] (completion_hash_init size)) w (length w)
    = false.
Proof.
  intros Hs Hcs Hw Hx. destruct (completion_hash_exists _ _ _) eqn:He; [|done]. exfalso.
  destruct (add_words_represents size [w ++ x; w] Hs) as [Hok Hh].
  destruct (exists_bucket _ w Hok He) as (p & Hp & Hn & Heq).
  destruct (table_bucket _ p Hok Hp) as (Hl & Hne & _).
  pose proof (proj1 (proj1 (Forall_app _ _ _) Hcs)) as Hcw.
  assert (arKey p = w) as Hap.
  { specialize (Hh _ Hne). rewrite Hl in Hh. destruct Hh as (_ & _ & _ & Hin).
    apply streq_eq; [|done|done]. rewrite elem_of_reverse in Hin.
    apply elem_of_cons in Hin as [->|Hin]; [done|]. apply list_elem_of_singleton in Hin as ->. done. }
  assert (key p = w) as Hkey by (unfold key; by rewrite Hap, Hn, firstn_all).
  destruct (init_represents size Hs) as [Hok0 _].
  cbn [fold_left] in Hl. unfold add_word in Hl.
  destruct (add_prefixes_ok (completion_hash_init size) (w ++ x) (w ++ x) 1 Hok0
              ltac:(lia) ltac:(lia)) as [Hok1 Hf1].
  destruct (add_prefixes_ok _ w w 1 Hok1 ltac:(lia) ltac:(lia)) as [_ Hf2].
  assert (length w <> O) by (intros E; by apply nil_length_inv in E).
  rewrite Hkey, Hf2, Hf1 in Hl.
  rewrite bool_decide_eq_true_2 in Hl by (split; [done|lia]).
  rewrite bool_decide_eq_true_2 in Hl by (split; [by eexists|lia]).
  injection Hl as Hl. rewrite <-Hl in Hap.
  destruct (lookup_key (completion_hash_init size) w) as [q|] eqn:Eq; cbn in Hap.
  - rewrite lookup_key_chain in Eq by done. apply chain_find_key in Eq as [_ Eq].
    rewrite nth_lookup in Eq. cbn in Eq.
    destruct (replicate _ _ !! _) as [c|] eqn:E; [|set_solver].
    apply lookup_replicate in E as [-> _]. set_solver.
  - apply (f_equal length) in Hap. rewrite length_app in Hap. destruct x; [done|cbn in Hap; lia].
Qed.

Lemma completion_hash_exists_misses_witness :
  completion_hash_exists
    (fold_left add_word [str "username"; str "user"] (completion_hash_init 128)) (str "user") 4
    = false.
Proof.
  apply (completion_hash_exists_misses 128 (str "user") (str "name"));
    [done|by repeat constructor|done|done].
Defined.
