(* ===== verification/Comments.v ===== *)
(** * Leading comments and command lines (client/mysql.cc:
    get_trim_comment_sql, is_oracle_pl_escape_sql, is_cmd_line)

    Before the client looks for a command at the start of a text it skips
    white space and comments.  The pointer [p] of the code is the list of the
    bytes behind it and [end - p] is the number [rest]. *)

From S2P Require Import Prelude.
From S2P Require Import CString.
From S2P Require Import Charset.

Definition is_blank (c : Z) : bool :=
  (c =? " "%chr) || (c =? c_tab) || (c =? c_cr) || (c =? c_nl).

(** The loops [while (p[0] != 0 && p < end && !stop(p)) p++]. *)
Fixpoint skip_until (stop : list Z -> bool) (p : list Z) (rest : Z) : list Z * Z :=
  match p with
  | [] => (p, rest)
  | c :: p' =>
      if (c =? 0) || negb (0 <? rest) || stop p then (p, rest) else skip_until stop p' (rest - 1)
  end.

Definition not_blank (p : list Z) : bool := negb (is_blank (deref p)).
Definition at_open (p : list Z) : bool := (deref p =? "/"%chr) && (at_ p 1 =? "*"%chr).
Definition at_close (p : list Z) : bool := (deref p =? "*"%chr) && (at_ p 1 =? "/"%chr).
Definition at_dashes (p : list Z) : bool := (deref p =? "-"%chr) && (at_ p 1 =? "-"%chr).
Definition at_newline (p : list Z) : bool := deref p =? c_nl.

(** The outer loop; [None] when the fuel does not suffice. *)
Fixpoint trim_loop (fuel : nat) (p : list Z) (rest : Z) : option (list Z) :=
  match fuel with
  | O => None
  | S fuel' =>
      if deref p =? 0 then Some p
      else
        let '(p, rest) := skip_until not_blank p rest in
        if at_open p then
          let '(p, rest) := skip_until at_close (drop 2 p) (rest - 2) in
          if at_close p then trim_loop fuel' (drop 2 p) (rest - 2) else trim_loop fuel' p rest
        else if at_dashes p then
          let '(p, rest) := skip_until at_newline (drop 2 p) (rest - 2) in
          if at_newline p then trim_loop fuel' (drop 1 p) (rest - 1) else trim_loop fuel' p rest
        else Some p
  end.

(** Every turn that goes on consumes the two bytes that open a comment. *)
Definition get_trim_comment_sql (str : list Z) (len : Z) : option (list Z) :=
  match trim_loop (S (length str)) str len with
  | Some p => if deref p =? 0 then None else Some p
  | None => None
  end.

(** The regular expression matcher is a library; [regexec] tells whether
    the pattern [pl_escape_sql_re] matches. *)
Definition is_oracle_pl_escape_sql (regexec : list Z -> bool) (str : list Z) (len : Z) : bool :=
  match get_trim_comment_sql str len with
  | Some p => regexec (cstr p)
  | None => false
  end.

(** ** Command lines *)

Inductive cmd_line := IS_CMD_NONE | IS_CMD_SLASH | IS_CMD_LINE.

Record cmd_scan := mkScan {
  first_char : Z;
  last_char : Z;
  is_cmd : bool;
  cmd_chars : nat;
  all_chars : nat
}.

(** One turn of the loop on the bytes [p] from [pos[i]] on: the new values
    and the number of bytes to advance. *)
Definition cmd_turn (cs : CHARSET_INFO) (p : list Z) (s : cmd_scan) : cmd_scan * nat :=
  let c := deref p in
  if is_blank c || (c =? 0) then (s, 1%nat)
  else
    let s := if first_char s =? 0
             then mkScan c (last_char s) (is_cmd s) (cmd_chars s) (all_chars s) else s in
    let length := if use_mb cs then ismbchar cs p else O in
    if (1 <? length)%nat then (s, length)
    else
      let s := if c =? "\"%chr
               then mkScan (first_char s) (last_char s) true 0 (all_chars s) else s in
      (mkScan (first_char s) c (is_cmd s) (S (cmd_chars s)) (S (all_chars s)), 1%nat).

Fixpoint cmd_loop (fuel : nat) (cs : CHARSET_INFO) (p : list Z) (s : cmd_scan) : cmd_scan :=
  match fuel, p with
  | S fuel', _ :: _ => let '(s, n) := cmd_turn cs p s in cmd_loop fuel' cs (drop n p) s
  | _, _ => s
  end.

(** [pos] holds the [len] bytes of the line; every turn consumes one. *)
Definition is_cmd_line (cs : CHARSET_INFO) (pos : list Z) : cmd_line :=
  let s := cmd_loop (length pos) cs pos (mkScan 0 0 false 0 0) in
  if (first_char s =? "/"%chr) && (all_chars s =? 1)%nat then IS_CMD_SLASH
  else if (first_char s =? "\"%chr) || (is_cmd s && (cmd_chars s =? 2)%nat)
       || (is_cmd s && (cmd_chars s =? 3)%nat && (last_char s =? ";"%chr)) then IS_CMD_LINE
  else IS_CMD_NONE.

(** ** What is skipped *)

(** A text of blanks and complete comments. *)
Inductive comments : list Z -> Prop :=
  | comments_nil : comments []
  | comments_blank c p : is_blank c = true -> comments p -> comments (c :: p)
  | comments_block b p :
      ~ infix_of (str "*/") b -> comments p -> comments (str "/*" ++ b ++ str "*/" ++ p)
  | comments_line b p : c_nl ∉ b -> comments p -> comments (str "--" ++ b ++ c_nl :: p).

(** The end of a text in which the last comment is not closed. *)
Inductive unfinished : list Z -> Prop :=
  | unfinished_nil : unfinished []
  | unfinished_block b : ~ infix_of (str "*/") b -> unfinished (str "/*" ++ b)
  | unfinished_line b : c_nl ∉ b -> unfinished (str "--" ++ b).

Definition starts_text (p : list Z) : Prop :=
  p <> [] /\ is_blank (deref p) = false /\ at_open p = false /\ at_dashes p = false.

Lemma comments_app a b : comments a -> comments b -> comments (a ++ b).
Proof.
  induction 1 as [|c p Hc _ IH|b' p Hb _ IH|b' p Hb _ IH]; intros H; cbn [app]; [done|..].
  - apply comments_blank; auto.
  - rewrite <-!app_assoc. apply comments_block; auto.
  - rewrite <-!app_assoc. cbn [app]. apply comments_line; auto.
Qed.

Lemma skip_until_spec stop p :
  c_string p ->
  exists pre q, p = pre ++ q /\ skip_until stop p (Z.of_nat (length p)) = (q, Z.of_nat (length q))
    /\ (forall a b, pre = a ++ b -> b <> [] -> stop (b ++ q) = false)
    /\ (q = [] \/ stop q = true).
Proof.
  induction 1 as [|c p Hc Hp IH].
  { exists [], []. split_and!; [done|done| |by left]. intros a b Hab Hb.
    symmetry in Hab. by apply app_eq_nil in Hab as [_ ->]. }
  cbn [skip_until]. rewrite (is_char_nz c Hc). cbn [orb].
  destruct (Z.ltb_spec 0 (Z.of_nat (length (c :: p)))); [|cbn in *; lia]. cbn [negb orb].
  destruct (stop (c :: p)) eqn:Hs.
  - exists [], (c :: p). split_and!; [done|done| |by right]. intros a b Hab Hb.
    symmetry in Hab. by apply app_eq_nil in Hab as [_ ->].
  - destruct IH as (pre & q & Hpq & Hk & Hf & Hq). exists (c :: pre), q.
    replace (Z.of_nat (length (c :: p)) - 1) with (Z.of_nat (length p)) by (cbn; lia).
    split_and!; [by rewrite Hpq|done| |done].
    intros [|x a] b Hab Hb; cbn in Hab.
    + subst b. cbn. by rewrite <-Hpq.
    + injection Hab as _ ->. by apply (Hf a b).
Qed.

(** The three uses of the loop. *)
Lemma skip_blanks p :
  c_string p ->
  exists pre q, p = pre ++ q /\ skip_until not_blank p (Z.of_nat (length p)) = (q, Z.of_nat (length q))
    /\ comments pre /\ (q = [] \/ is_blank (deref q) = false).
Proof.
  intros Hp. destruct (skip_until_spec not_blank p Hp) as (pre & q & -> & Hk & Hf & Hq).
  exists pre, q. split_and!; [done|done| |].
  - clear Hk Hq Hp. induction pre as [|c pre IH]; [constructor|]. apply comments_blank.
    + specialize (Hf [] (c :: pre) eq_refl ltac:(done)). unfold not_blank in Hf. cbn in Hf.
      by destruct (is_blank c).
    + apply IH. intros a b -> Hb. by apply (Hf (c :: a) b).
  - destruct Hq as [?|Hq]; [by left|right]. unfold not_blank in Hq. by destruct (is_blank _).
Qed.

Lemma at_close_spec p : at_close p = true <-> exists r, p = str "*/" ++ r.
Proof.
  unfold at_close. split.
  - intros [H1 H2]%andb_prop. destruct p as [|c [|d r]]; cbn in *.
    1, 2: discriminate.
    apply Z.eqb_eq in H1 as ->, H2 as ->. by exists r.
  - intros [r ->]. done.
Qed.

Lemma skip_block p :
  c_string p ->
  exists b q, p = b ++ q /\ skip_until at_close p (Z.of_nat (length p)) = (q, Z.of_nat (length q))
    /\ ~ infix_of (str "*/") b /\ (q = [] \/ exists r, q = str "*/" ++ r).
Proof.
  intros Hp. destruct (skip_until_spec at_close p Hp) as (pre & q & -> & Hk & Hf & Hq).
  exists pre, q. split_and!; [done|done| |].
  - intros (a & b & ->). assert (at_close ((str "*/" ++ b) ++ q) = false) as E.
    { by apply (Hf a). }
    rewrite <-app_assoc in E. by rewrite (proj2 (at_close_spec _)) in E by (by eexists).
  - destruct Hq as [?|Hq]; [by left|right]. by apply at_close_spec.
Qed.

Lemma skip_line p :
  c_string p ->
  exists b q, p = b ++ q /\ skip_until at_newline p (Z.of_nat (length p)) = (q, Z.of_nat (length q))
    /\ (c_nl ∉ b) /\ (q = [] \/ exists r, q = c_nl :: r).
Proof.
  intros Hp. destruct (skip_until_spec at_newline p Hp) as (pre & q & -> & Hk & Hf & Hq).
  exists pre, q. split_and!; [done|done| |].
  - intros (a & b & ->)%list_elem_of_split. by specialize (Hf a (c_nl :: b) eq_refl ltac:(done)).
  - destruct Hq as [?|Hq]; [by left|right]. unfold at_newline in Hq.
    destruct q as [|c q]; [done|]. cbn in Hq. apply Z.eqb_eq in Hq as ->. by eexists.
Qed.

(** How a text can go on after its leading blanks. *)
Lemma text_cases p :
  (p = [] \/ is_blank (deref p) = false) ->
  p = [] \/ (exists p', p = str "/*" ++ p') \/ (exists p', p = str "--" ++ p') \/ starts_text p.
Proof.
  intros [->|Hb]; [by left|]. destruct p as [|c p]; [by left|right].
  destruct (at_open (c :: p)) eqn:Ho.
  { left. unfold at_open in Ho. destruct p as [|d p]; cbn in Ho; [by rewrite andb_false_r in Ho|].
    apply andb_prop in Ho as [->%Z.eqb_eq ->%Z.eqb_eq]. by exists p. }
  right. destruct (at_dashes (c :: p)) eqn:Hd; [|by right]. left.
  unfold at_dashes in Hd. destruct p as [|d p]; cbn in Hd; [by rewrite andb_false_r in Hd|].
  apply andb_prop in Hd as [->%Z.eqb_eq ->%Z.eqb_eq]. by exists p.
Qed.

(** The result of the loop on [p]: what is left after blanks and comments. *)
Definition trimmed (p : list Z) (o : option (list Z)) : Prop :=
  exists pre q, p = pre ++ q /\ comments pre
    /\ ((starts_text q /\ o = Some q) \/ (unfinished q /\ o = Some [])).

Lemma trimmed_app pre p o : comments pre -> trimmed p o -> trimmed (pre ++ p) o.
Proof.
  intros Hpre (pre' & q & -> & Hpre' & Hq). exists (pre ++ pre'), q.
  rewrite <-app_assoc. split_and!; [done|by apply comments_app|done].
Qed.

Lemma trimmed_unfinished p : unfinished p -> trimmed p (Some []).
Proof. intros H. exists [], p. split_and!; [done|constructor|by right]. Qed.

Section loop.

Context (fuel : nat).
Context (IH : forall p, c_string p -> (length p < fuel)%nat ->
                trimmed p (trim_loop fuel p (Z.of_nat (length p)))).

(** The turn on a text that starts a comment. *)
Lemma trim_block p (n := Z.of_nat (length p)) :
  c_string p -> (length p < fuel)%nat ->
  trimmed (str "/*" ++ p)
    (let '(p, rest) := skip_until at_close p n in
     if at_close p then trim_loop fuel (drop 2 p) (rest - 2) else trim_loop fuel p rest).
Proof.
  intros Hp Hf. subst n. destruct (skip_block p Hp) as (b & r & -> & -> & Hb & Hr).
  apply c_string_app in Hp as [_ Hr']. rewrite length_app in Hf. destruct Hr as [->|[r' ->]].
  - rewrite app_nil_r. destruct fuel; [lia|]. by apply trimmed_unfinished, unfinished_block.
  - rewrite (proj2 (at_close_spec _)) by (by eexists). change (drop 2 _) with r'.
    replace (Z.of_nat (length (str "*/" ++ r')) - 2) with (Z.of_nat (length r')) by (cbn; lia).
    change (str "/*" ++ b ++ str "*/" ++ r') with (str "/*" ++ b ++ (str "*/" ++ []) ++ r').
    rewrite (app_assoc b), (app_assoc (str "/*")). apply trimmed_app.
    + by apply comments_block; [|constructor].
    + cbn in Hf. apply c_string_app in Hr' as [_ Hr']. apply IH; [done|lia].
Qed.

Lemma trim_line p (n := Z.of_nat (length p)) :
  c_string p -> (length p < fuel)%nat ->
  trimmed (str "--" ++ p)
    (let '(p, rest) := skip_until at_newline p n in
     if at_newline p then trim_loop fuel (drop 1 p) (rest - 1) else trim_loop fuel p rest).
Proof.
  intros Hp Hf. subst n. destruct (skip_line p Hp) as (b & r & -> & -> & Hb & Hr).
  apply c_string_app in Hp as [_ Hr']. rewrite length_app in Hf. destruct Hr as [->|[r' ->]].
  - rewrite app_nil_r. destruct fuel; [lia|]. by apply trimmed_unfinished, unfinished_line.
  - change (at_newline _) with true. cbv iota. change (drop 1 _) with (drop 0 r'). rewrite drop_0.
    replace (Z.of_nat (length (c_nl :: r')) - 1) with (Z.of_nat (length r')) by (cbn; lia).
    change (c_nl :: r') with ([c_nl] ++ r').
    rewrite (app_assoc b), (app_assoc (str "--")). apply trimmed_app.
    + by apply comments_line; [|constructor].
    + cbn in Hf. apply Forall_cons in Hr' as [_ Hr']. apply IH; [done|lia].
Qed.

End loop.

Lemma trim_loop_spec fuel p :
  c_string p -> (length p < fuel)%nat -> trimmed p (trim_loop fuel p (Z.of_nat (length p))).
Proof.
  revert p. induction fuel as [|fuel IH]; intros p Hp Hf; [lia|].
  cbn [trim_loop]. rewrite deref_c_string by done. case_bool_decide as Hnil.
  { subst. apply trimmed_unfinished. constructor. }
  destruct (skip_blanks p Hp) as (pre & q & -> & -> & Hpre & Hq).
  apply c_string_app in Hp as [_ Hcq]. rewrite length_app in Hf. apply trimmed_app; [done|].
  destruct (text_cases q Hq) as [->|[[q' ->]|[[q' ->]|Hst]]].
  - apply trimmed_unfinished. constructor.
  - apply c_string_app in Hcq as [_ Hcq]. cbn in Hf.
    replace (Z.of_nat (length (str "/*" ++ q')) - 2) with (Z.of_nat (length q')) by (cbn; lia).
    apply (trim_block fuel IH q'); [done|lia].
  - apply c_string_app in Hcq as [_ Hcq]. cbn in Hf.
    replace (Z.of_nat (length (str "--" ++ q')) - 2) with (Z.of_nat (length q')) by (cbn; lia).
    apply (trim_line fuel IH q'); [done|lia].
  - destruct Hst as (Hne & Hbl & Ho & Hd). rewrite Ho, Hd.
    exists [], q. split_and!; [done|constructor|by left].
Qed.

(** Skipping the comments in front of a text: [get_trim_comment_sql]
    returns the part of the text that follows its leading blanks and complete
    comments, which itself starts with neither, and returns nothing exactly
    when the text is only blanks and comments, the last of them possibly not
    closed. *)
Theorem get_trim_comment_sql_spec (s : list Z) :
  c_string s ->
  match get_trim_comment_sql s (Z.of_nat (length s)) with
  | Some r => exists pre, s = pre ++ r /\ comments pre /\ starts_text r
  | None => exists pre r, s = pre ++ r /\ comments pre /\ unfinished r
  end.
Proof.
  intros Hs. destruct (trim_loop_spec (S (length s)) s Hs) as (pre & q & Heq & Hpre & Hq); [lia|].
  unfold get_trim_comment_sql. destruct Hq as [[Hst ->]|[Hu ->]].
  - assert (c_string q) by (rewrite Heq in Hs; by apply c_string_app in Hs as [_ ?]).
    rewrite deref_c_string by done. rewrite bool_decide_eq_false_2 by apply Hst.
    by exists pre.
  - by exists pre, q.
Qed.

Lemma get_trim_comment_sql_witness :
  match get_trim_comment_sql (str "/* a */ -- b") 12 with
  | Some r => exists pre, str "/* a */ -- b" = pre ++ r /\ comments pre /\ starts_text r
  | None => exists pre r, str "/* a */ -- b" = pre ++ r /\ comments pre /\ unfinished r
  end.
Proof. apply (get_trim_comment_sql_spec (str "/* a */ -- b")). by repeat constructor. Defined.

(** A text that starts with neither a blank nor a comment is left alone. *)
Lemma get_trim_comment_sql_text s :
  c_string s -> starts_text s -> get_trim_comment_sql s (Z.of_nat (length s)) = Some s.
Proof.
  intros Hs (Hne & Hb & Ho & Hd). unfold get_trim_comment_sql. cbn [trim_loop].
  rewrite deref_c_string by done. rewrite bool_decide_eq_false_2 by done.
  destruct s as [|c s]; [done|]. cbn [skip_until].
  replace (not_blank (c :: s)) with true by (unfold not_blank; by rewrite Hb).
  rewrite orb_true_r, Ho, Hd. rewrite deref_c_string by done. by rewrite bool_decide_eq_false_2.
Qed.
