(* ===== verification/CommandTable.v ===== *)
(** * The table of commands (client/mysql.cc: COMMANDS, commands)

    The client's own commands come first and have a function; the words after
    them are only known to the completion of the input line.  A function is
    named by a constructor of [com_func]. *)

From S2P Require Import Prelude.

Inductive com_func :=
  | COM_HELP
  | COM_CLEAR
  | COM_CONNECT
  | COM_DELIMITER
  | COM_EDIT
  | COM_EGO
  | COM_QUIT
  | COM_GO
  | COM_NOPAGER
  | COM_NOTEE
  | COM_PAGER
  | COM_PRINT
  | COM_PROMPT
  | COM_REHASH
  | COM_SOURCE
  | COM_STATUS
  | COM_SHELL
  | COM_TEE
  | COM_USE
  | COM_CHARSET
  | COM_WARNINGS
  | COM_NOWARNINGS.

#[global] Instance com_func_eq_dec : EqDecision com_func.
Proof. solve_decision. Defined.

(** The field [cmdstr] is set by [find_command]; it is not part of the
    constant table. *)
Record COMMANDS := mkCommand {
  name : list Z;
  cmd_char : Z;
  func : option com_func;
  takes_params : bool;
  doc : list Z
}.

Definition client_commands : list COMMANDS :=
  [mkCommand (str "?") "?"%chr (Some COM_HELP) true
     (str "Synonym for `help'.");
   mkCommand (str "clear") "c"%chr (Some COM_CLEAR) false
     (str "Clear the current input statement.");
   mkCommand (str "connect") "r"%chr (Some COM_CONNECT) true
     (str "Reconnect to the server. Optional arguments are db and host.");
   mkCommand (str "conn") 0 (Some COM_CONNECT) true
     (str "Reconnect to the server. Optional arguments are db and host.");
   mkCommand (str "delimiter") "d"%chr (Some COM_DELIMITER) true
     (str "Set statement delimiter.");
   mkCommand (str "edit") "e"%chr (Some COM_EDIT) false
     (str "Edit command with $EDITOR.");
   mkCommand (str "ego") "G"%chr (Some COM_EGO) false
     (str "Send command to OceanBase server, display result vertically.");
   mkCommand (str "exit") "q"%chr (Some COM_QUIT) false
     (str "Exit mysql. Same as quit.");
   mkCommand (str "go") "g"%chr (Some COM_GO) false
     (str "Send command to OceanBase server.");
   mkCommand (str "help") "h"%chr (Some COM_HELP) true
     (str "Display this help.");
   mkCommand (str "nopager") "n"%chr (Some COM_NOPAGER) false
     (str "Disable pager, print to stdout.");
   mkCommand (str "notee") "t"%chr (Some COM_NOTEE) false
     (str "Don't write into outfile.");
   mkCommand (str "pager") "P"%chr (Some COM_PAGER) true
     (str "Set PAGER [to_pager]. Print the query results via PAGER.");
   mkCommand (str "print") "p"%chr (Some COM_PRINT) false
     (str "Print current command.");
   mkCommand (str "prompt") "R"%chr (Some COM_PROMPT) true
     (str "Change your mysql prompt.");
   mkCommand (str "quit") "q"%chr (Some COM_QUIT) false
     (str "Quit mysql.");
   mkCommand (str "rehash") "#"%chr (Some COM_REHASH) false
     (str "Rebuild completion hash.");
   mkCommand (str "source") "."%chr (Some COM_SOURCE) true
     (str "Execute an SQL script file. Takes a file name as an argument.");
   mkCommand (str "status") "s"%chr (Some COM_STATUS) false
     (str "Get status information from the server.");
   mkCommand (str "system") "!"%chr (Some COM_SHELL) true
     (str "Execute a system shell command.");
   mkCommand (str "tee") "T"%chr (Some COM_TEE) true
     (str "Set outfile [to_outfile]. Append everything into given outfile.");
   mkCommand (str "use") "u"%chr (Some COM_USE) true
     (str "Use another database. Takes database name as argument.");
   mkCommand (str "charset") "C"%chr (Some COM_CHARSET) true
     (str "Switch to another charset. Might be needed for processing binlog with multi-byte charsets.");
   mkCommand (str "warnings") "W"%chr (Some COM_WARNINGS) false
     (str "Show warnings after every statement.");
   mkCommand (str "nowarning") "w"%chr (Some COM_NOWARNINGS) false
     (str "Don't show warnings after every statement.")].

Definition word (s : string) : COMMANDS := mkCommand (str s) 0 None false [].
Arguments word s%_string_scope.

Definition words_1 : list COMMANDS :=
  map word
  ["create table"; "create database"; "show databases"; "show fields from"; "show keys from";
   "show tables"; "load data from"; "alter table"; "set option"; "lock tables";
   "unlock tables"; "ACTION"; "ADD"; "AFTER"; "AGAINST"; "AGGREGATE"; "ALL"; "ALGORITHM";
   "ALTER"; "ANALYZE"; "AND"; "ANY"; "AS"; "ASC"; "ASCII"; "ASENSITIVE"; "AUTO_INCREMENT";
   "AVG"; "AVG_ROW_LENGTH"; "BACKUP"; "BDB"; "BEFORE"; "BEGIN"; "BERKELEYDB"; "BETWEEN";
   "BIGINT"; "BINARY"; "BINLOG"; "BIT"; "BLOB"; "BOOL"; "BOOLEAN"; "BOTH"; "BTREE"; "BY";
   "BYTE"; "CACHE"; "CALL"; "CASCADE"; "CASCADED"; "CASE"; "CHAIN"; "CHANGE"; "CHANGED";
   "CHAR"; "CHARACTER"; "CHARSET"; "CHECK"; "CHECKSUM"; "CIPHER"; "CLIENT"; "CLOSE"; "CODE";
   "COLLATE"; "COLLATION"; "COLUMN"; "COLUMNS"; "COMMENT"; "COMMIT"; "COMMITTED"; "COMPACT";
   "COMPRESSED"; "CONCURRENT"; "CONDITION"; "CONNECTION"; "CONSISTENT"; "CONSTRAINT";
   "CONTAINS"; "CONTINUE"; "CONVERT"; "CREATE"; "CROSS"; "CUBE"; "CURRENT_DATE";
   "CURRENT_TIME"; "CURRENT_TIMESTAMP"; "CURRENT_USER"; "CURSOR"; "DATA"; "DATABASE";
   "DATABASES"; "DATE"; "DATETIME"; "DAY"; "DAY_HOUR"; "DAY_MICROSECOND"; "DAY_MINUTE";
   "DAY_SECOND"; "DEALLOCATE"; "DEC"; "DECIMAL"; "DECLARE"; "DEFAULT"; "DEFINER"; "DELAYED";
   "DELAY_KEY_WRITE"; "DELETE"; "DESC"; "DESCRIBE"; "DES_KEY_FILE"; "DETERMINISTIC";
   "DIRECTORY"; "DISABLE"; "DISCARD"; "DISTINCT"; "DISTINCTROW"; "DIV"; "DO"; "DOUBLE";
   "DROP"; "DUAL"; "DUMPFILE"; "DUPLICATE"; "DYNAMIC"; "EACH"; "ELSE"; "ELSEIF"; "ENABLE";
   "ENCLOSED"; "END"; "ENGINE"; "ENGINES"; "ENUM"; "ERRORS"; "ESCAPE"; "ESCAPED"; "EVENTS";
   "EXECUTE"; "EXISTS"; "EXIT"; "EXPANSION"; "EXPLAIN"; "EXTENDED"]%string.

Definition words_2 : list COMMANDS :=
  map word
  ["FALSE"; "FAST"; "FETCH"; "FIELDS"; "FILE"; "FIRST"; "FIXED"; "FLOAT"; "FLOAT4"; "FLOAT8";
   "FLUSH"; "FOR"; "FORCE"; "FOREIGN"; "FOUND"; "FROM"; "FULL"; "FULLTEXT"; "FUNCTION";
   "GEOMETRY"; "GEOMETRYCOLLECTION"; "GET_FORMAT"; "GLOBAL"; "GRANT"; "GRANTS"; "GROUP";
   "HANDLER"; "HASH"; "HAVING"; "HELP"; "HIGH_PRIORITY"; "HOSTS"; "HOUR"; "HOUR_MICROSECOND";
   "HOUR_MINUTE"; "HOUR_SECOND"; "IDENTIFIED"; "IF"; "IGNORE"; "IMPORT"; "IN"; "INDEX";
   "INDEXES"; "INFILE"; "INNER"; "INNOBASE"; "INNODB"; "INOUT"; "INSENSITIVE"; "INSERT";
   "INSERT_METHOD"; "INT"; "INT1"; "INT2"; "INT3"; "INT4"; "INT8"; "INTEGER"; "INTERVAL";
   "INTO"; "IO_THREAD"; "IS"; "ISOLATION"; "ISSUER"; "ITERATE"; "INVOKER"; "JOIN"; "KEY";
   "KEYS"; "KILL"; "LANGUAGE"; "LAST"; "LEADING"; "LEAVE"; "LEAVES"; "LEFT"; "LEVEL"; "LIKE";
   "LIMIT"; "LINES"; "LINESTRING"; "LOAD"; "LOCAL"; "LOCALTIME"; "LOCALTIMESTAMP"; "LOCK";
   "LOCKS"; "LOGS"; "LONG"; "LONGBLOB"; "LONGTEXT"; "LOOP"; "LOW_PRIORITY"; "MASTER";
   "MASTER_CONNECT_RETRY"; "MASTER_HOST"; "MASTER_LOG_FILE"; "MASTER_LOG_POS";
   "MASTER_PASSWORD"; "MASTER_PORT"; "MASTER_SERVER_ID"; "MASTER_SSL"; "MASTER_SSL_CA";
   "MASTER_SSL_CAPATH"; "MASTER_SSL_CERT"; "MASTER_SSL_CIPHER"; "MASTER_SSL_KEY";
   "MASTER_USER"; "MATCH"; "MAX_CONNECTIONS_PER_HOUR"; "MAX_QUERIES_PER_HOUR"; "MAX_ROWS";
   "MAX_UPDATES_PER_HOUR"; "MAX_USER_CONNECTIONS"; "MEDIUM"; "MEDIUMBLOB"; "MEDIUMINT";
   "MEDIUMTEXT"; "MERGE"; "MICROSECOND"; "MIDDLEINT"; "MIGRATE"; "MINUTE";
   "MINUTE_MICROSECOND"; "MINUTE_SECOND"; "MIN_ROWS"; "MOD"; "MODE"; "MODIFIES"; "MODIFY";
   "MONTH"; "MULTILINESTRING"; "MULTIPOINT"; "MULTIPOLYGON"; "MUTEX"; "NAME"; "NAMES";
   "NATIONAL"; "NATURAL"; "NCHAR"; "NEW"; "NEXT"; "NO"]%string.

Definition words_3 : list COMMANDS :=
  map word
  ["NONE"; "NOT"; "NO_WRITE_TO_BINLOG"; "NULL"; "NUMERIC"; "NVARCHAR"; "OFFSET";
   "OLD_PASSWORD"; "ON"; "ONE"; "OPEN"; "OPTIMIZE"; "OPTION"; "OPTIONALLY"; "OR"; "ORDER";
   "OUT"; "OUTER"; "OUTFILE"; "PACK_KEYS"; "PARTIAL"; "PASSWORD"; "PHASE"; "POINT"; "POLYGON";
   "PRECISION"; "PREPARE"; "PREV"; "PRIMARY"; "PRIVILEGES"; "PROCEDURE"; "PROCESS";
   "PROCESSLIST"; "PURGE"; "QUARTER"; "QUERY"; "QUICK"; "READ"; "READS"; "REAL"; "RECOVER";
   "REDUNDANT"; "REFERENCES"; "REGEXP"; "RELAY_LOG_FILE"; "RELAY_LOG_POS"; "RELAY_THREAD";
   "RELEASE"; "RELOAD"; "RENAME"; "REPAIR"; "REPEATABLE"; "REPLACE"; "REPLICATION"; "REPEAT";
   "REQUIRE"; "RESET"; "RESTORE"; "RESTRICT"; "RESUME"; "RETURN"; "RETURNS"; "REVOKE";
   "RIGHT"; "RLIKE"; "ROLLBACK"; "ROLLUP"; "ROUTINE"; "ROW"; "ROWS"; "ROW_FORMAT"; "RTREE";
   "SAVEPOINT"; "SCHEMA"; "SCHEMAS"; "SECOND"; "SECOND_MICROSECOND"; "SECURITY"; "SELECT";
   "SENSITIVE"; "SEPARATOR"; "SERIAL"; "SERIALIZABLE"; "SESSION"; "SET"; "SHARE"; "SHOW";
   "SHUTDOWN"; "SIGNED"; "SIMPLE"; "SLAVE"; "SNAPSHOT"; "SMALLINT"; "SOME"; "SONAME";
   "SOUNDS"; "SPATIAL"; "SPECIFIC"; "SQL"; "SQLEXCEPTION"; "SQLSTATE"; "SQLWARNING";
   "SQL_BIG_RESULT"; "SQL_BUFFER_RESULT"; "SQL_CACHE"; "SQL_CALC_FOUND_ROWS"; "SQL_NO_CACHE";
   "SQL_SMALL_RESULT"; "SQL_THREAD"; "SQL_TSI_SECOND"; "SQL_TSI_MINUTE"; "SQL_TSI_HOUR";
   "SQL_TSI_DAY"; "SQL_TSI_WEEK"; "SQL_TSI_MONTH"; "SQL_TSI_QUARTER"; "SQL_TSI_YEAR"; "SSL";
   "START"; "STARTING"; "STATUS"; "STOP"; "STORAGE"; "STRAIGHT_JOIN"; "STRING"; "STRIPED";
   "SUBJECT"; "SUPER"; "SUSPEND"; "TABLE"; "TABLES"; "TABLESPACE"; "TEMPORARY"; "TEMPTABLE";
   "TERMINATED"; "TEXT"; "THEN"; "TIME"; "TIMESTAMP"; "TIMESTAMPADD"; "TIMESTAMPDIFF";
   "TINYBLOB"; "TINYINT"]%string.

Definition words_4 : list COMMANDS :=
  map word
  ["TINYTEXT"; "TO"; "TRAILING"; "TRANSACTION"; "TRIGGER"; "TRIGGERS"; "TRUE"; "TRUNCATE";
   "TYPE"; "TYPES"; "UNCOMMITTED"; "UNDEFINED"; "UNDO"; "UNICODE"; "UNION"; "UNIQUE";
   "UNKNOWN"; "UNLOCK"; "UNSIGNED"; "UNTIL"; "UPDATE"; "UPGRADE"; "USAGE"; "USE"; "USER";
   "USER_RESOURCES"; "USE_FRM"; "USING"; "UTC_DATE"; "UTC_TIME"; "UTC_TIMESTAMP"; "VALUE";
   "VALUES"; "VARBINARY"; "VARCHAR"; "VARCHARACTER"; "VARIABLES"; "VARYING"; "WARNINGS";
   "WEEK"; "WHEN"; "WHERE"; "WHILE"; "VIEW"; "WITH"; "WORK"; "WRITE"; "X509"; "XOR"; "XA";
   "YEAR"; "YEAR_MONTH"; "ZEROFILL"; "ABS"; "ACOS"; "ADDDATE"; "ADDTIME"; "AES_ENCRYPT";
   "AES_DECRYPT"; "AREA"; "ASIN"; "ASBINARY"; "ASTEXT"; "ASWKB"; "ASWKT"; "ATAN"; "ATAN2";
   "BENCHMARK"; "BIN"; "BIT_COUNT"; "BIT_OR"; "BIT_AND"; "BIT_XOR"; "CAST"; "CEIL"; "CEILING";
   "BIT_LENGTH"; "CENTROID"; "CHAR_LENGTH"; "CHARACTER_LENGTH"; "COALESCE"; "COERCIBILITY";
   "COMPRESS"; "CONCAT"; "CONCAT_WS"; "CONNECTION_ID"; "CONV"; "CONVERT_TZ"; "COUNT"; "COS";
   "COT"; "CRC32"; "CROSSES"; "CURDATE"; "CURTIME"; "DATE_ADD"; "DATEDIFF"; "DATE_FORMAT";
   "DATE_SUB"; "DAYNAME"; "DAYOFMONTH"; "DAYOFWEEK"; "DAYOFYEAR"; "DECODE"; "DEGREES";
   "DES_ENCRYPT"; "DES_DECRYPT"; "DIMENSION"; "DISJOINT"; "ELT"; "ENCODE"; "ENCRYPT";
   "ENDPOINT"; "ENVELOPE"; "EQUALS"; "EXTERIORRING"; "EXTRACT"; "EXP"; "EXPORT_SET"; "FIELD";
   "FIND_IN_SET"; "FLOOR"; "FORMAT"; "FOUND_ROWS"; "FROM_DAYS"; "FROM_UNIXTIME"; "GET_LOCK";
   "GEOMETRYN"; "GEOMETRYTYPE"; "GEOMCOLLFROMTEXT"; "GEOMCOLLFROMWKB";
   "GEOMETRYCOLLECTIONFROMTEXT"; "GEOMETRYCOLLECTIONFROMWKB"; "GEOMETRYFROMTEXT";
   "GEOMETRYFROMWKB"; "GEOMFROMTEXT"; "GEOMFROMWKB"; "GLENGTH"; "GREATEST"; "GROUP_CONCAT";
   "GROUP_UNIQUE_USERS"; "HEX"; "IFNULL"]%string.

Definition words_5 : list COMMANDS :=
  map word
  ["INET_ATON"; "INET_NTOA"; "INSTR"; "INTERIORRINGN"; "INTERSECTS"; "ISCLOSED"; "ISEMPTY";
   "ISNULL"; "IS_FREE_LOCK"; "IS_USED_LOCK"; "LAST_INSERT_ID"; "ISSIMPLE"; "LAST_DAY";
   "LAST_VALUE"; "LCASE"; "LEAST"; "LENGTH"; "LN"; "LINEFROMTEXT"; "LINEFROMWKB";
   "LINESTRINGFROMTEXT"; "LINESTRINGFROMWKB"; "LOAD_FILE"; "LOCATE"; "LOG"; "LOG2"; "LOG10";
   "LOWER"; "LPAD"; "LTRIM"; "MAKE_SET"; "MAKEDATE"; "MAKETIME"; "MASTER_GTID_WAIT";
   "MASTER_POS_WAIT"; "MAX"; "MBRCONTAINS"; "MBRDISJOINT"; "MBREQUAL"; "MBRINTERSECTS";
   "MBROVERLAPS"; "MBRTOUCHES"; "MBRWITHIN"; "MD5"; "MID"; "MIN"; "MLINEFROMTEXT";
   "MLINEFROMWKB"; "MPOINTFROMTEXT"; "MPOINTFROMWKB"; "MPOLYFROMTEXT"; "MPOLYFROMWKB";
   "MONTHNAME"; "MULTILINESTRINGFROMTEXT"; "MULTILINESTRINGFROMWKB"; "MULTIPOINTFROMTEXT";
   "MULTIPOINTFROMWKB"; "MULTIPOLYGONFROMTEXT"; "MULTIPOLYGONFROMWKB"; "NAME_CONST"; "NOW";
   "NULLIF"; "NUMGEOMETRIES"; "NUMINTERIORRINGS"; "NUMPOINTS"; "OCTET_LENGTH"; "OCT"; "ORD";
   "OVERLAPS"; "PERIOD_ADD"; "PERIOD_DIFF"; "PI"; "POINTFROMTEXT"; "POINTFROMWKB"; "POINTN";
   "POLYFROMTEXT"; "POLYFROMWKB"; "POLYGONFROMTEXT"; "POLYGONFROMWKB"; "POSITION"; "POW";
   "POWER"; "QUOTE"; "RADIANS"; "RAND"; "RELEASE_LOCK"; "REVERSE"; "ROUND"; "ROW_COUNT";
   "RPAD"; "RTRIM"; "SEC_TO_TIME"; "SESSION_USER"; "SUBDATE"; "SIGN"; "SIN"; "SHA"; "SHA1";
   "SLEEP"; "SOUNDEX"; "SPACE"; "SQRT"; "SRID"; "STARTPOINT"; "STD"; "STDDEV"; "STDDEV_POP";
   "STDDEV_SAMP"; "STR_TO_DATE"; "STRCMP"; "SUBSTR"; "SUBSTRING"; "SUBSTRING_INDEX";
   "SUBTIME"; "SUM"; "SYSDATE"; "SYSTEM_USER"; "TAN"; "TIME_FORMAT"; "TIME_TO_SEC";
   "TIMEDIFF"; "TO_DAYS"; "TOUCHES"; "TRIM"; "UCASE"; "UNCOMPRESS"; "UNCOMPRESSED_LENGTH";
   "UNHEX"; "UNIQUE_USERS"; "UNIX_TIMESTAMP"; "UPPER"; "UUID"; "VARIANCE"; "VAR_POP";
   "VAR_SAMP"; "VERSION"; "WEEKDAY"; "WEEKOFYEAR"; "WITHIN"; "X"; "Y"; "YEARWEEK"]%string.

(** The array without its end sentinel. *)
Definition commands : list COMMANDS :=
  client_commands ++ words_1 ++ words_2 ++ words_3 ++ words_4 ++ words_5.
