(* ===== verification/CompletionBuild.v ===== *)
(** * Building the completion table (client/mysql.cc: build_completion_hash)

    The words the client completes: its own commands and the words of the
    command table, and the databases, tables and columns the server lists.
    The server's answers are arguments; [None] is a query that fails. *)

From S2P Require Import Prelude.
From S2P Require Import CString.
From S2P Require Import CommandTable.
From S2P Require Import Completion.

Record catalog := mkCatalog {
  show_databases : option (list (list Z));
  show_tables : option (list (list Z));
  list_fields : list Z -> option (list (list Z))
}.

(** [if (!completion_hash_exists(&ht, str, strlen(str))) add_word(&ht, str)] *)
Definition add_new_word (ht : HashTable) (s : list Z) : HashTable :=
  if completion_hash_exists ht s (strlen s) then ht else add_word ht s.

(** [sprintf(buf, "%.64s.%.64s", table, field)] *)
Definition qualified (table field : list Z) : list Z :=
  take 64 table ++ "."%chr :: take 64 field.

Definition add_field (table : list Z) (ht : HashTable) (field : list Z) : HashTable :=
  add_new_word (add_word ht (qualified table field)) field.

Definition add_fields (c : catalog) (ht : HashTable) (table : list Z) : HashTable :=
  match list_fields c table with
  | Some fields => fold_left (add_field table) fields ht
  | None => ht
  end.

Definition build_completion_hash (batch quick no_db rehash : bool) (c : catalog) (ht : HashTable)
    : HashTable :=
  if batch || quick || no_db then ht
  else if negb rehash then ht
  else
    let ht := completion_hash_clean ht in
    let ht := fold_left add_word (map name commands) ht in
    let ht := match show_databases c with
              | Some dbs => fold_left add_word dbs ht
              | None => ht
              end in
    match show_tables c with
    | Some tables => fold_left (add_fields c) tables (fold_left add_new_word tables ht)
    | None => ht
    end.

(** ** The words of the table *)

Definition catalog_words (c : catalog) : list (list Z) :=
  map name commands
  ++ default [] (show_databases c)
  ++ flat_map (fun t => t :: flat_map (fun f => [qualified t f; f]) (default [] (list_fields c t)))
       (default [] (show_tables c)).

Definition catalog_ok (c : catalog) : Prop :=
  Forall c_string (default [] (show_databases c)) /\ Forall c_string (default [] (show_tables c))
  /\ forall t, Forall c_string (default [] (list_fields c t)).

(** The table holds exactly the words of a set. *)
Definition knows (ht : HashTable) (ws : list (list Z)) : Prop :=
  exists words, represents ht words /\ Forall c_string words /\ forall w, w ∈ words <-> w ∈ ws.

Lemma knows_ext ht ws ws' : knows ht ws -> (forall w, w ∈ ws <-> w ∈ ws') -> knows ht ws'.
Proof. intros (words & Hr & Hc & Hw) He. exists words. split_and!; [done|done|]. intros w. by rewrite Hw, He. Qed.

Lemma knows_add ht ws w : knows ht ws -> c_string w -> knows (add_word ht w) (ws ++ [w]).
Proof.
  intros (words & Hr & Hc & Hw) Hcw. exists (w :: words).
  split_and!; [by apply add_word_represents|by constructor|]. intros x. rewrite elem_of_cons, Hw. set_solver.
Qed.

Lemma knows_add_new ht ws w : knows ht ws -> c_string w -> knows (add_new_word ht w) (ws ++ [w]).
Proof.
  intros Hk Hcw. unfold add_new_word. rewrite strlen_c_string by done.
  destruct (completion_hash_exists ht w (length w)) eqn:E; [|by apply knows_add].
  destruct Hk as (words & Hr & Hc & Hw). apply (exists_represents ht words) in E; [|done..].
  exists words. split_and!; [done|done|]. intros x. rewrite Hw. rewrite Hw in E. set_solver.
Qed.

(** Adding a list with a step that adds the words [g x] for every element. *)
Lemma knows_fold {A} (step : HashTable -> A -> HashTable) (g : A -> list (list Z)) (P : A -> Prop) xs :
  (forall ht ws x, P x -> knows ht ws -> knows (step ht x) (ws ++ g x)) ->
  Forall P xs -> forall ht ws, knows ht ws -> knows (fold_left step xs ht) (ws ++ flat_map g xs).
Proof.
  intros Hs Hp. induction Hp as [|x xs Hx _ IH]; intros ht ws Hk; cbn.
  - by rewrite app_nil_r.
  - rewrite app_assoc. by apply IH, Hs.
Qed.

Lemma flat_map_single {A} (l : list A) : flat_map (fun x => [x]) l = l.
Proof. induction l as [|x l IH]; cbn; [done|]. by rewrite IH. Qed.

Lemma knows_words ht ws l :
  Forall c_string l -> knows ht ws -> knows (fold_left add_word l ht) (ws ++ l).
Proof.
  intros Hl Hk. rewrite <-(flat_map_single l) at 2.
  apply (knows_fold add_word (fun x => [x]) c_string); [|done|done]. intros. by apply knows_add.
Qed.

Lemma knows_new_words ht ws l :
  Forall c_string l -> knows ht ws -> knows (fold_left add_new_word l ht) (ws ++ l).
Proof.
  intros Hl Hk. rewrite <-(flat_map_single l) at 2.
  apply (knows_fold add_new_word (fun x => [x]) c_string); [|done|done]. intros. by apply knows_add_new.
Qed.

Lemma qualified_c_string t f : c_string t -> c_string f -> c_string (qualified t f).
Proof.
  intros Ht Hf. apply c_string_app. split; [by apply Forall_take|].
  constructor; [done|by apply Forall_take].
Qed.

Lemma knows_fields c ht ws t :
  catalog_ok c -> c_string t -> knows ht ws ->
  knows (add_fields c ht t) (ws ++ flat_map (fun f => [qualified t f; f]) (default [] (list_fields c t))).
Proof.
  intros (_ & _ & Hf) Ht Hk. unfold add_fields. specialize (Hf t).
  destruct (list_fields c t) as [fields|]; cbn in Hf |- *; [|by rewrite app_nil_r].
  apply (knows_fold (add_field t) (fun f => [qualified t f; f]) c_string); [|done|done].
  intros ht' ws' f Hcf Hk'. unfold add_field.
  change [qualified t f; f] with ([qualified t f] ++ [f]). rewrite app_assoc.
  apply knows_add_new; [|done]. apply knows_add; [done|]. by apply qualified_c_string.
Qed.

Lemma command_names_ok : Forall c_string (map name commands).
Proof.
  assert (forallb (forallb is_char) (map name commands) = true) as H by (vm_compute; reflexivity).
  apply Forall_forall. intros w Hw%list_elem_of_In. rewrite forallb_forall in H. specialize (H w Hw).
  rewrite forallb_forall in H. apply Forall_forall. intros c Hc%list_elem_of_In. by apply H.
Qed.

#[local] Opaque commands.

Lemma build_knows c ht words :
  represents ht words -> catalog_ok c ->
  knows (build_completion_hash false false false true c ht) (catalog_words c).
Proof.
  intros Hr Hc. pose proof Hc as (Hd & Ht & _). unfold build_completion_hash, catalog_words. cbn [orb negb].
  assert (H0 : knows (completion_hash_clean ht) []).
  { exists []. split_and!; [by eapply clean_represents|constructor|done]. }
  pose proof (knows_words _ _ _ command_names_ok H0) as H1. cbn [app] in H1.
  set (ht1 := fold_left add_word (map name commands) _) in *.
  assert (H2 : knows (match show_databases c with Some dbs => fold_left add_word dbs ht1 | None => ht1 end)
                 (map name commands ++ default [] (show_databases c))).
  { destruct (show_databases c); cbn [default] in Hd |- *; [by apply knows_words|by rewrite app_nil_r]. }
  set (ht2 := match show_databases c with Some _ => _ | None => _ end) in *. clearbody ht2. rewrite app_assoc.
  destruct (show_tables c) as [tables|]; cbn [default] in Ht |- *; [|by rewrite app_nil_r].
  pose proof (knows_new_words _ _ _ Ht H2) as H3.
  pose proof (knows_fold (add_fields c) (fun t => flat_map (fun f => [qualified t f; f]) (default [] (list_fields c t)))
                c_string tables (fun ht ws t Hct Hk => knows_fields c ht ws t Hc Hct Hk) Ht _ _ H3) as H4.
  eapply knows_ext; [exact H4|]. intros w. rewrite !elem_of_app.
  assert (w ∈ tables \/ w ∈ flat_map (fun t => flat_map (fun f => [qualified t f; f]) (default [] (list_fields c t))) tables
          <-> w ∈ flat_map (fun t => t :: flat_map (fun f => [qualified t f; f]) (default [] (list_fields c t))) tables)
    as E; [|tauto].
  rewrite !list_elem_of_In, !in_flat_map. split.
  - intros [Hw|(t & Hin & Hw)]; [exists w; split; [done|by left]|exists t; split; [done|by right]].
  - intros (t & Hin & [->|Hw]); [by left|right; by exists t].
Qed.

(** What the client completes after the table is built: for a nonempty
    text exactly the commands and reserved words, databases, tables, columns
    and qualified columns that start with it, as the server lists them. *)
Theorem build_completion_hash_offers (c : catalog) (ht : HashTable) (words : list (list Z)) (text : list Z)
    (g : generator) :
  represents ht words -> catalog_ok c -> c_string text -> text <> [] ->
  exists fuel l,
    completions fuel fuel (build_completion_hash false false false true c ht) text g = Some l
    /\ forall w, w ∈ l <-> text `prefix_of` w /\ w ∈ catalog_words c.
Proof.
  intros Hr Hc Ht Hne. destruct (build_knows c ht words Hr Hc) as (ws & Hrep & _ & Hw).
  exists (length ws), (matches ws text). split; [by apply completions_represents|].
  intros w. unfold matches. rewrite list_elem_of_filter, Hw. done.
Qed.

Definition sample_catalog : catalog :=
  mkCatalog (Some [str "test"]) (Some [str "t1"; str "t2"])
    (fun t => if bool_decide (t = str "t1") then Some [str "tid"; str "name"] else None).

Lemma build_completion_hash_offers_witness :
  exists fuel l,
    completions fuel fuel (build_completion_hash false false false true sample_catalog (completion_hash_init 128))
      (str "t1.") (mkGen [] [] 0) = Some l
    /\ forall w, w ∈ l <-> str "t1." `prefix_of` w /\ w ∈ catalog_words sample_catalog.
Proof.
  apply (build_completion_hash_offers sample_catalog (completion_hash_init 128) []);
    [by apply init_represents| |by repeat constructor|done].
  split_and!; [by repeat constructor|by repeat constructor|].
  intros t. cbn. case_bool_decide; by repeat constructor.
Defined.
