(* ===== verification/CommandArgs.v ===== *)
(** * Arguments of commands (client/mysql.cc: get_arg, get_arg_string,
    get_arg_by_index)

    The functions work in place on a buffer that may hold several strings one
    after the other, each ended by a NUL byte.  The buffer is the list of its
    bytes, zero behind its end, and a [char *] into it an offset; the result
    is the offset of the argument, if any, and the changed buffer. *)

From S2P Require Import Prelude.
From S2P Require Import CString.
From S2P Require Import Charset.

Inductive get_arg_mode := CHECK | GET | GET_NEXT.

Definition is_check (mode : get_arg_mode) : bool :=
  match mode with CHECK => true | _ => false end.

(** The number of leading bytes that satisfy [f]: how far a loop
    [while (f(ptr[0])) ptr++] goes. *)
Fixpoint span (f : Z -> bool) (p : list Z) : nat :=
  match p with
  | [] => O
  | c :: p' => if f c then S (span f p') else O
  end.

Definition is_word_char (cs : CHARSET_INFO) (c : Z) : bool := negb (c =? 0) && negb (my_isspace cs c).

(** Whether the byte at [p] is taken as a quote or backslash that protects
    the next byte. *)
Definition is_escaped (short_cmd : bool) (qtype : Z) (p : list Z) : bool :=
  if short_cmd then (deref p =? "\"%chr) && negb (at_ p 1 =? 0)
  else ((deref p =? "\"%chr) && negb (at_ p 1 =? 0) && negb (qtype =? "`"%chr))
       || (negb (qtype =? 0) && (deref p =? qtype) && (at_ p 1 =? qtype)).

(** The loop over the argument, from [start] on: the bytes of the buffer
    from [start] on, the distance of [ptr] from [start], and [qtype]. *)
Fixpoint arg_loop (fuel : nat) (check short_cmd : bool) (qtype : Z) (p : list Z)
    : list Z * nat * Z :=
  match fuel with
  | O => (p, O, qtype)
  | S fuel' =>
      if deref p =? 0 then (p, O, qtype)
      else if is_escaped short_cmd qtype p then
        if negb check then
          let p := strmov_overlapp p 0 in
          let '(r, n, q) := arg_loop fuel' check short_cmd qtype (drop 1 p) in
          (deref p :: r, S n, q)
        else
          let '(r, n, q) := arg_loop fuel' check short_cmd qtype (drop 2 p) in
          (take 2 p ++ r, S (S n), q)
      else if deref p =? (if negb (qtype =? 0) then qtype else " "%chr) then
        (if negb check then 0 :: drop 1 p else p, O, 0)
      else
        let '(r, n, q) := arg_loop fuel' check short_cmd qtype (drop 1 p) in
        (deref p :: r, S n, q)
  end.

(** The offset where the search for the argument starts. *)
Definition arg_from (cs : CHARSET_INFO) (line : list Z) (mode : get_arg_mode) : nat * bool :=
  match mode with
  | GET_NEXT =>
      let ptr := strlen line in
      (if negb (at_ line (ptr + 1) =? 0) then (ptr + 1)%nat else ptr, false)
  | _ =>
      let ptr := span (my_isspace cs) line in
      if at_ line ptr =? "\"%chr then ((ptr + 2)%nat, true)
      else ((ptr + span (is_word_char cs) (drop ptr line))%nat, false)
  end.

Definition is_quote (c : Z) : bool := (c =? "'"%chr) || (c =? 34) || (c =? "`"%chr).

Definition get_arg (cs : CHARSET_INFO) (line : list Z) (mode : get_arg_mode)
    : option nat * list Z :=
  let '(ptr, short_cmd) := arg_from cs line mode in
  if at_ line ptr =? 0 then (None, line)
  else
    let ptr := (ptr + span (my_isspace cs) (drop ptr line))%nat in
    let qtype := if is_quote (at_ line ptr) then at_ line ptr else 0 in
    let start := if is_quote (at_ line ptr) then S ptr else ptr in
    let '(r, n, q) := arg_loop (length line) (is_check mode) short_cmd qtype (drop start line) in
    let line' := take start line ++ r in
    (if negb (n =? 0)%nat && (q =? 0) then Some start else None, line').

(** The argument behind a pointer into the buffer. *)
Definition arg_at (r : option nat * list Z) : option (list Z) :=
  match fst r with
  | Some off => Some (cstr (drop off (snd r)))
  | None => None
  end.

(** [get_arg_string]: an argument ends at the first space, quotes have no
    meaning, and an argument that is there is returned even when empty. *)
Definition get_arg_string (cs : CHARSET_INFO) (line : list Z) (mode : get_arg_mode)
    : option nat * list Z :=
  let '(ptr, _) := arg_from cs line mode in
  if at_ line ptr =? 0 then (None, line)
  else
    let start := (ptr + span (my_isspace cs) (drop ptr line))%nat in
    let n := span (fun c => negb (c =? 0) && negb (c =? " "%chr)) (drop start line) in
    let ptr := (start + n)%nat in
    (Some start, if at_ line ptr =? " "%chr then <[ptr := 0]> line else line).

(** The loop of [get_arg_by_index]: the offset reached. *)
Fixpoint arg_index_loop (cs : CHARSET_INFO) (line : list Z) (arg_index ptr : nat) : nat :=
  match arg_index with
  | O => ptr
  | S arg_index' =>
      let ptr := (ptr + span (is_word_char cs) (drop ptr line))%nat in
      let ptr := (ptr + span (my_isspace cs) (drop ptr line))%nat in
      if negb (at_ line ptr =? 0) then arg_index_loop cs line arg_index' ptr
      else if negb (at_ line (S ptr) =? 0) then arg_index_loop cs line arg_index' (S ptr)
      else S ptr
  end.

Definition get_arg_by_index (cs : CHARSET_INFO) (line : list Z) (arg_index : nat)
    : option nat * list Z :=
  let ptr := arg_index_loop cs line arg_index 0 in
  let '(r, tail) := get_arg_string cs (drop ptr line) GET_NEXT in
  (match r with Some off => Some (ptr + off)%nat | None => None end, take ptr line ++ tail).

(** ** Quoted arguments *)

Lemma span_app f p q :
  Forall (fun c => f c = true) p -> span f (p ++ q) = (length p + span f q)%nat.
Proof. induction 1 as [|c p Hc _ IH]; cbn; [done|]. by rewrite Hc, IH. Qed.

Lemma span_stop f q : f (deref q) = false -> span f q = O.
Proof. destruct q; cbn; [done|]. by intros ->. Qed.

Lemma at_app_length p q : at_ (p ++ q) (length p) = deref q.
Proof. unfold at_, deref. rewrite app_nth2 by lia. by rewrite Nat.sub_diag. Qed.

Lemma strmov_overlapp_head x l : strmov_overlapp (x :: l) 0 = cstr l ++ 0 :: drop (strlen l) l.
Proof. unfold strmov_overlapp. cbn. by rewrite drop_0, Nat.add_1_r. Qed.

Lemma strlen_app p l : c_string p -> strlen (p ++ l) = (length p + strlen l)%nat.
Proof. induction 1 as [|c p Hc _ IH]; cbn; [done|]. by rewrite (is_char_nz c Hc), IH. Qed.

Lemma cstr_app p l : c_string p -> cstr (p ++ l) = p ++ cstr l.
Proof.
  intros Hp. unfold cstr. rewrite strlen_app by done. by rewrite take_app_add.
Qed.

Lemma deref_cstr_app l r : deref r = 0 -> deref (cstr l ++ r) = deref l.
Proof.
  intros Hr. destruct l as [|c l]; cbn; [done|].
  unfold cstr. cbn. destruct (Z.eqb_spec c 0) as [->|]; done.
Qed.

(** How a byte of an argument is written between quotes [q]. *)
Definition quote_byte (short_cmd : bool) (q c : Z) : list Z :=
  if (c =? "\"%chr) && (short_cmd || negb (q =? "`"%chr)) then ["\"%chr; c]
  else if c =? q then [if short_cmd then "\"%chr else q; c]
  else [c].

Definition quote_arg (short_cmd : bool) (q : Z) (a : list Z) : list Z :=
  q :: flat_map (quote_byte short_cmd q) a ++ [q].

Lemma is_quote_cases q : is_quote q = true -> q = "'"%chr \/ q = 34 \/ q = "`"%chr.
Proof. unfold is_quote. rewrite !orb_true_iff, !Z.eqb_eq. tauto. Qed.

(** A byte is written either plainly, and is then not taken as an escape or
    as the end, or behind one protecting byte. *)
Lemma quote_byte_cases short q c :
  is_quote q = true -> is_char c = true ->
  (exists e, quote_byte short q c = [e; c] /\ is_char e = true
     /\ forall l, is_escaped short q (e :: c :: l) = true)
  \/ (quote_byte short q c = [c] /\ c <> q /\ forall l, is_escaped short q (c :: l) = false).
Proof.
  intros Hq Hc. unfold quote_byte, is_escaped. cbn [deref at_ nth].
  destruct (Z.eqb_spec c "\"%chr) as [->|Hb]; cbn [andb].
  - destruct (Z.eqb_spec q "`"%chr) as [->|Hq'], short; cbn [negb orb].
    2: right; split_and!; [done|done|]; intros l; by rewrite andb_false_r.
    all: left; exists "\"%chr; split_and!; done.
  - apply Z.eqb_neq in Hb. destruct (Z.eqb_spec c q) as [->|Hne].
    + left. apply is_quote_cases in Hq as [->|[->| ->]]; destruct short; (eexists; split_and!; [done..|]); done.
    + right. split_and!; [done|done|]. intros l. destruct short; [done|].
      by rewrite andb_false_r.
Qed.

Lemma quoted_c_string short q a :
  is_quote q = true -> c_string a -> c_string (flat_map (quote_byte short q) a).
Proof.
  intros Hq. induction 1 as [|c a Hc _ IH]; cbn; [constructor|]. apply c_string_app. split; [|done].
  destruct (quote_byte_cases short q c Hq Hc) as [(e & -> & He & _)|(-> & _)]; by repeat constructor.
Qed.

Lemma quoted_length short q a : (length a <= length (flat_map (quote_byte short q) a))%nat.
Proof.
  induction a as [|c a IH]; cbn [flat_map length]; [lia|]. rewrite length_app.
  unfold quote_byte at 1. destruct (_ && _); [|destruct (c =? q)]; cbn [length]; lia.
Qed.

Lemma arg_loop_quoted fuel short q a t :
  is_quote q = true -> c_string a -> deref t <> q -> (length a < fuel)%nat ->
  exists t', arg_loop fuel false short q (flat_map (quote_byte short q) a ++ q :: t)
    = (a ++ 0 :: t', length a, 0).
Proof.
  intros Hq Ha. revert t fuel. induction Ha as [|c a Hc Ha IH]; intros t [|fuel] Ht Hf.
  1, 3: cbn in Hf; lia.
  - exists t. cbn [flat_map app arg_loop deref nth].
    assert (is_escaped short q (q :: t) = false) as ->.
    { unfold is_escaped. cbn [deref nth]. change (at_ (q :: t) 1) with (deref t).
      apply Z.eqb_neq in Ht. rewrite Ht.
      apply is_quote_cases in Hq as [->|[->| ->]]; by destruct short. }
    apply is_quote_cases in Hq as [->|[->| ->]]; cbn; by rewrite ?drop_0.
  - cbn in Hf. destruct (quote_byte_cases short q c Hq Hc) as [(e & Hqb & He & Hesc)|(Hqb & Hne & Hesc)];
      cbn [flat_map]; rewrite Hqb; cbn [app arg_loop deref nth].
    + rewrite (is_char_nz e He), Hesc. cbn [negb]. rewrite strmov_overlapp_head.
      set (body := flat_map _ _).
      assert (Hb : c_string (c :: body ++ [q])).
      { constructor; [done|]. apply c_string_app. split; [by apply quoted_c_string|].
        apply is_quote_cases in Hq as [->|[->| ->]]; by repeat constructor. }
      change (c :: body ++ q :: t) with (c :: body ++ [q] ++ t).
      rewrite (app_assoc body), app_comm_cons, cstr_app, strlen_app by done.
      cbn [app deref nth]. change (drop 1 ?l) with (drop 0 (tail l)). cbn [tail]. rewrite drop_0.
      rewrite <-!app_assoc. cbn [app].
      subst body. match goal with |- context [arg_loop _ _ _ _ (_ ++ q :: ?u)] => destruct (IH u fuel) as [t' ->] end; [|lia|by exists t'].
      by rewrite deref_cstr_app.
    + rewrite (is_char_nz c Hc), Hesc.
      replace (negb (q =? 0)) with true by (by apply is_quote_cases in Hq as [->|[->| ->]]).
      apply Z.eqb_neq in Hne. rewrite Hne. change (drop 1 (c :: ?l)) with (drop 0 l). rewrite drop_0.
      destruct (IH t fuel Ht ltac:(lia)) as [t' ->]. by exists t'.
Qed.

(** How a command is named at the start of a line: by a word, or by a
    backslash and a character. *)
Inductive command_word (cs : CHARSET_INFO) : bool -> list Z -> Prop :=
  | long_word w :
      w <> [] -> Forall (fun c => is_word_char cs c = true) w -> deref w <> "\"%chr ->
      command_word cs false w
  | short_word c : is_char c = true -> command_word cs true ["\"%chr; c].

Definition spaces (cs : CHARSET_INFO) (s : list Z) : Prop := Forall (fun c => my_isspace cs c = true) s.

(** The start of the search, behind the command. *)
Lemma arg_from_word cs short b w l mode :
  ascii_compatible cs -> spaces cs b -> command_word cs short w -> mode <> GET_NEXT ->
  (short = false -> is_word_char cs (deref l) = false) ->
  arg_from cs (b ++ w ++ l) mode = (length (b ++ w), short).
Proof.
  intros Hcs Hb Hw Hm Hl. unfold arg_from.
  assert (Hspan : span (my_isspace cs) (b ++ w ++ l) = length b).
  { rewrite span_app by done. rewrite span_stop; [lia|]. destruct Hw as [w Hne Hw _|c _].
    - destruct Hw as [|c w Hc _]; [done|]. cbn. unfold is_word_char in Hc.
      destruct (my_isspace cs c); [|done]. by rewrite andb_false_r in Hc.
    - by apply (ascii_isspace cs _ _ Hcs). }
  destruct mode; [| |done]; rewrite Hspan, at_app_length, length_app.
  all: destruct Hw as [w Hne Hw Hd|c Hc]; [|done].
  all: destruct w as [|d w]; [done|]; cbn in Hd; change (deref ((d :: w) ++ l)) with d;
    apply Z.eqb_neq in Hd; rewrite Hd, drop_app_length, span_app by done;
    rewrite (span_stop _ l (Hl eq_refl)); f_equal; lia.
Qed.

Lemma get_arg_quoted_form (cs : CHARSET_INFO) (short : bool) (b w sp a t : list Z) (q : Z) :
  ascii_compatible cs -> spaces cs b -> command_word cs short w -> spaces cs sp ->
  (short = false -> sp <> []) ->
  is_quote q = true -> c_string a -> a <> [] -> deref t <> q ->
  arg_at (get_arg cs (b ++ w ++ sp ++ quote_arg short q a ++ t) GET) = Some a.
Proof.
  intros Hcs Hb Hw Hsp Hshort Hq Ha Hne Ht. unfold get_arg.
  assert (Hqs : my_isspace cs q = false).
  { apply is_quote_cases in Hq as [->|[->| ->]]; by apply (ascii_isspace cs _ _ Hcs). }
  rewrite (arg_from_word cs short); [|done..|].
  2: { intros ->. destruct Hsp as [|c sp Hc _]; [by specialize (Hshort eq_refl)|].
       unfold is_word_char. cbn. by rewrite Hc, andb_false_r. }
  set (l := sp ++ quote_arg short q a ++ t). rewrite (app_assoc b w l), at_app_length, drop_app_length.
  assert ((deref l =? 0) = false) as ->.
  { subst l. destruct Hsp as [|c sp Hc _]; cbn.
    - by apply is_quote_cases in Hq as [->|[->| ->]].
    - apply Z.eqb_neq. intros ->. by rewrite (ascii_isspace cs 0 false Hcs) in Hc. }
  assert (span (my_isspace cs) l = length sp) as ->.
  { subst l. rewrite span_app by done. rewrite span_stop; [lia|done]. }
  subst l. rewrite (app_assoc _ sp), <-length_app, at_app_length.
  cbn [quote_arg app deref nth]. rewrite Hq. set (pre := (b ++ w) ++ sp).
  replace (S (length pre)) with (length (pre ++ [q])) by (rewrite length_app; cbn; lia).
  rewrite <-(app_assoc (flat_map _ _)).
  change (pre ++ q :: flat_map ?f a ++ ?l) with (pre ++ [q] ++ flat_map f a ++ l).
  rewrite (app_assoc pre [q]). change (is_check GET) with false.
  rewrite take_app_length, drop_app_length.
  destruct (arg_loop_quoted (length ((pre ++ [q]) ++ flat_map (quote_byte short q) a ++ [q] ++ t)) short q a t)
    as [t' Hl]; [done|done|done| |].
  { rewrite !length_app. pose proof (quoted_length short q a). cbn. lia. }
  cbn [app] in Hl |- *. rewrite Hl. cbn [andb Z.eqb].
  destruct a as [|c a]; [done|]. cbn [length Nat.eqb negb andb arg_at fst snd].
  rewrite drop_app_length. rewrite cstr_app by done. cbn. by rewrite app_nil_r.
Qed.

(** C32. Reading back a quoted argument: whatever string is given to a command
    between quotes, written with the quotes and backslashes in it protected,
    [get_arg] returns exactly that string, for every kind of quote, for long
    and short commands and whatever follows the closing quote. *)
Theorem get_arg_quoted (cs : CHARSET_INFO) (short : bool) (b w sp a t : list Z) (q : Z) :
  ascii_compatible cs -> spaces cs b -> command_word cs short w -> spaces cs sp ->
  (short = false -> sp <> []) ->
  is_quote q = true -> c_string a -> a <> [] -> deref t <> q ->
  arg_at (get_arg cs (b ++ w ++ sp ++ quote_arg short q a ++ t) GET) = Some a.
Proof. apply get_arg_quoted_form. Qed.

Lemma get_arg_quoted_witness :
  arg_at (get_arg my_charset_latin1 (str "delimiter 'a''b\\c' x") GET) = Some (str "a'b\c").
Proof.
  apply (get_arg_quoted my_charset_latin1 false [] (str "delimiter") (str " ") (str "a'b\c")
           (str " x") "'"%chr);
    [done|constructor|by constructor; [|repeat constructor|]|by repeat constructor|done|done
    |by repeat constructor|done|done].
Defined.

(** ** Arguments without quotes *)

Lemma arg_loop_unquoted fuel check short p : snd (arg_loop fuel check short 0 p) = 0.
Proof.
  revert p. induction fuel as [|fuel IH]; intros p; cbn [arg_loop]; [done|].
  destruct (deref p =? 0); [done|]. destruct (is_escaped short 0 p), check; cbn [negb].
  all: try (destruct (arg_loop _ _ _ _ _) as [[r n] q] eqn:E; specialize (IH (drop 1 p)) as H1;
            specialize (IH (drop 2 p)) as H2; specialize (IH (drop 1 (strmov_overlapp p 0))) as H3;
            rewrite E in H1 || rewrite E in H2 || rewrite E in H3; done).
  all: destruct (_ =? _); [done|]; specialize (IH (drop 1 p));
    destruct (arg_loop _ _ _ _ _) as [[r n] q]; done.
Qed.

(** An argument that starts with something other than a space or a quote is
    there, whatever its end looks like. *)
Lemma get_arg_check cs w sp arg :
  ascii_compatible cs -> command_word cs false w -> spaces cs sp -> sp <> [] ->
  deref arg <> 0 -> my_isspace cs (deref arg) = false -> is_quote (deref arg) = false ->
  found (fst (get_arg cs (w ++ sp ++ arg) CHECK)) = true.
Proof.
  intros Hcs Hw Hsp Hne Ha Has Haq. unfold get_arg.
  assert (Hl : deref (sp ++ arg) <> 0 /\ my_isspace cs (deref (sp ++ arg)) = true).
  { destruct Hsp as [|c sp Hc _]; [done|]. cbn. split; [|done]. intros ->.
    by rewrite (ascii_isspace cs 0 false Hcs) in Hc. }
  change (w ++ sp ++ arg) with ([] ++ w ++ sp ++ arg).
  rewrite (arg_from_word cs false []); [|done|constructor|done|done|].
  2: { intros _. unfold is_word_char. rewrite (proj2 Hl). by rewrite andb_false_r. }
  cbn [app]. rewrite at_app_length, drop_app_length.
  destruct (Z.eqb_spec (deref (sp ++ arg)) 0); [tauto|].
  rewrite span_app by done. rewrite (span_stop _ arg) by done.
  rewrite Nat.add_0_r, (app_assoc w sp arg), <-length_app, at_app_length, Haq, drop_app_length.
  set (fuel := length _).
  assert (exists f, fuel = S f) as [f ->].
  { subst fuel. destruct arg as [|c arg]; [done|]. rewrite length_app. cbn. exists (length (w ++ sp) + length arg)%nat. lia. }
  pose proof (arg_loop_unquoted (S f) (is_check CHECK) false arg) as Hq.
  cbn [arg_loop] in Hq |- *. apply Z.eqb_neq in Ha. rewrite Ha in Hq |- *.
  cbn [is_check negb Z.eqb] in Hq |- *.
  destruct (is_escaped false 0 arg).
  { destruct (arg_loop _ _ _ _ _) as [[r n0] q]. cbn in Hq |- *. by subst q. }
  assert ((deref arg =? " "%chr) = false) as E.
  { apply Z.eqb_neq. intros E. rewrite E in Has. by rewrite (ascii_isspace cs _ true Hcs) in Has. }
  rewrite E in Hq |- *.
  destruct (arg_loop _ _ _ _ _) as [[r n0] q]. cbn in Hq |- *. by subst q.
Qed.
