(* ===== verification/Commands.v ===== *)
(** * Finding a command (client/mysql.cc: find_command, is_command_valid,
    init_disable_commands, com_delimiter)

    A line can name a command by its first word, or by a backslash and a
    character.  [client] holds the global variables of the client that the
    lookup and the statement scanner read; [com_delimiter] changes them. *)

From S2P Require Import Prelude.
From S2P Require Import CString.
From S2P Require Import Charset.
From S2P Require Import CommandTable.
From S2P Require Import Comments.
From S2P Require Import CommandArgs.

(** ** Disabled commands *)

Definition COMMAND_MAX : nat := 50.
Definition COMMAND_NAME_LEN : nat := 32.

(** The two-dimensional array is the list of its bytes, row after row.  The
    result is [None] when the code writes outside of it. *)
Fixpoint disable_loop (p : list Z) (count j : nat) (rows : list Z) : option (list Z * nat) :=
  match p with
  | [] => Some (rows, if (0 <? j)%nat then S count else count)
  | c :: p' =>
      if (c =? ","%chr) || (c =? ";"%chr) then
        disable_loop p' (if (0 <? j)%nat then S count else count) 0 rows
      else if (j <? COMMAND_NAME_LEN)%nat then
        let i := (count * COMMAND_NAME_LEN + j)%nat in
        if (i <? length rows)%nat then disable_loop p' count (S j) (<[i := c]> rows) else None
      else disable_loop p' count j rows
  end.

Definition init_disable_commands (ob_disable_commands_str : option (list Z)) (count : nat)
    (rows : list Z) : option (list Z * nat) :=
  match ob_disable_commands_str with
  | None => Some (rows, count)
  | Some p => disable_loop p count 0 (replicate (COMMAND_MAX * COMMAND_NAME_LEN) 0)
  end.

(** The row of the array as a C string; without a NUL in the row the string
    goes on in the next one. *)
Definition disabled_row (rows : list Z) (i : nat) : list Z := cstr (drop (i * COMMAND_NAME_LEN) rows).

Definition is_command_valid (rows : list Z) (count : nat) (name : list Z) : bool :=
  negb (existsb (fun i => let d := disabled_row rows i in
                  (length d =? strlen name)%nat && strncaseeq (strlen name) d name) (seq 0 count)).

(** ** The state *)

Record client := mkClient {
  charset_info : CHARSET_INFO;
  delimiter : list Z;
  is_user_specify_delimiter : bool;
  real_binary_mode : bool;
  disable_comands : list Z;
  disable_command_count : nat
}.

Definition delimiter_length (c : client) : nat := length (delimiter c).

Definition command_valid (c : client) (name : list Z) : bool :=
  is_command_valid (disable_comands c) (disable_command_count c) name.

(** ** Lookup *)

Definition DELIMITER_NAME : list Z := str "delimiter".
Definition DELIMITER_NAME_LEN : nat := 9.

Definition is_delimiter_command (name : list Z) (len : nat) : bool :=
  (DELIMITER_NAME_LEN <=? len)%nat
  && (my_strnncoll my_charset_latin1 name DELIMITER_NAME_LEN DELIMITER_NAME DELIMITER_NAME_LEN =? 0).

(** The loops over the table stop at the first entry without a function. *)
Fixpoint command_search (f : COMMANDS -> bool) (cmds : list COMMANDS) (i : nat) : option nat :=
  match cmds with
  | [] => None
  | c :: cmds' =>
      match func c with
      | None => None
      | Some _ => if f c then Some i else command_search f cmds' (S i)
      end
  end.

Definition get_command_index (cmd_char_ : Z) : option nat :=
  command_search (fun c => cmd_char c =? cmd_char_) commands 0.

Definition charset_index : option nat := get_command_index "C"%chr.
Definition delimiter_index : option nat := get_command_index "d"%chr.

(** [&commands[index]] when the index is not negative and the command is not
    disabled. *)
Definition valid_command (c : client) (index : option nat) : option COMMANDS :=
  match index with
  | Some i =>
      match commands !! i with
      | Some com => if command_valid c (name com) then Some com else None
      | None => None
      end
  | None => None
  end.

Definition find_command_char (c : client) (cmd_char : Z) : option COMMANDS :=
  let index := if real_binary_mode c
               then (if cmd_char =? "C"%chr then charset_index else None)
               else get_command_index cmd_char in
  valid_command c index.

(** The end of the first word and what follows it: the length of the word,
    and whether there are arguments. *)
Definition word_and_rest (cs : CHARSET_INFO) (name : list Z) : nat * bool :=
  match strcont name (str " " ++ [c_tab]) with
  | Some end_ =>
      ((length name - length end_)%nat,
       negb (deref (drop (span (my_isspace cs) end_) end_) =? 0))
  | None => (strlen name, false)
  end.

Definition command_matches (cs : CHARSET_INFO) (name_ : list Z) (len : nat) (args : bool)
    (com : COMMANDS) : bool :=
  (my_strnncoll my_charset_latin1 name_ len (name com) len =? 0)
  && (at_ (name com) len =? 0)
  && (negb args || (takes_params com && found (fst (get_arg cs name_ CHECK)))).

(** The long form: the command and its [cmdstr]. *)
Definition find_command (c : client) (name : list Z) : option (COMMANDS * list Z) :=
  match get_trim_comment_sql name (Z.of_nat (strlen name)) with
  | None => None
  | Some str_ =>
      let cs := charset_info c in
      let name := drop (span (my_isspace cs) str_) str_ in
      if (negb (real_binary_mode c) && found (strstr name (str "\g")))
         || (found (strstr name (delimiter c)) && negb (is_delimiter_command name DELIMITER_NAME_LEN))
      then None
      else
        let '(len, args) := word_and_rest cs name in
        let index := if real_binary_mode c
                     then (if is_delimiter_command name len then delimiter_index else None)
                     else command_search (command_matches cs name len args) commands 0 in
        match valid_command c index with
        | Some com => Some (com, str_)
        | None => None
        end
  end.

(** ** The DELIMITER command *)

Definition set_delimiter (c : client) (d : list Z) (user : bool) : client :=
  mkClient (charset_info c) d user (real_binary_mode c) (disable_comands c) (disable_command_count c).

Inductive delimiter_result := DELIMITER_MISSING | DELIMITER_BACKSLASH | DELIMITER_SET.

(** The message the command prints, if any, and the new state; the C arrays
    [buff] and [delimiter] have 256 and 16 bytes. *)
Definition com_delimiter (c : client) (line : list Z) : delimiter_result * client :=
  let buff := strmake line 255 in
  match arg_at (get_arg (charset_info c) buff GET) with
  | None | Some [] => (DELIMITER_MISSING, c)
  | Some tmp =>
      if found (strstr tmp (str "\")) then (DELIMITER_BACKSLASH, c)
      else
        let d := strmake tmp 15 in
        (DELIMITER_SET, set_delimiter c d (negb ((length d =? 1)%nat && (deref d =? ";"%chr))))
  end.

(** ** Disabled commands: the list of the option is what is disabled *)

Definition is_separator (c : Z) : bool := (c =? ","%chr) || (c =? ";"%chr).

Fixpoint join (sep : Z) (ws : list (list Z)) : list Z :=
  match ws with
  | [] => []
  | [w] => w
  | w :: ws' => w ++ sep :: join sep ws'
  end.

Definition pad (w : list Z) : list Z := w ++ replicate (COMMAND_NAME_LEN - length w) 0.

(** A name that fits in a row together with its NUL. *)
Definition name_ok (w : list Z) : Prop :=
  c_string w /\ w <> [] /\ (length w < COMMAND_NAME_LEN)%nat /\ Forall (fun c => is_separator c = false) w.

Lemma disable_loop_name w p count cur a k :
  Forall (fun c => is_separator c = false) w ->
  length a = (count * COMMAND_NAME_LEN)%nat ->
  (length cur + length w <= COMMAND_NAME_LEN)%nat -> (length w <= k)%nat ->
  disable_loop (w ++ p) count (length cur) (a ++ cur ++ replicate k 0)
  = disable_loop p count (length (cur ++ w)) (a ++ (cur ++ w) ++ replicate (k - length w) 0).
Proof.
  intros Hw. revert cur k. induction Hw as [|c w Hc _ IH]; intros cur k Ha Hl Hk.
  { cbn. by rewrite app_nil_r, Nat.sub_0_r. }
  cbn [app disable_loop]. unfold is_separator in Hc. rewrite Hc.
  cbn [length] in *. destruct k as [|k]; [lia|].
  destruct (Nat.ltb_spec (length cur) COMMAND_NAME_LEN); [|lia].
  rewrite !length_app, length_replicate.
  destruct (Nat.ltb_spec (count * COMMAND_NAME_LEN + length cur) (length a + (length cur + S k))); [|lia].
  rewrite <-Ha, insert_app_r, <-(Nat.add_0_r (length cur)), insert_app_r. cbn [replicate].
  change (<[0%nat:=c]> (0 :: replicate k 0)) with ([c] ++ replicate k 0). rewrite (app_assoc cur).
  replace (S (length cur + 0)) with (length (cur ++ [c])) by (rewrite length_app; cbn; lia).
  rewrite IH by (rewrite ?length_app; cbn; lia).
  by rewrite <-(app_assoc cur [c] w), length_app, Nat.add_0_r.
Qed.

Lemma pad_length w : (length w <= COMMAND_NAME_LEN)%nat -> length (pad w) = COMMAND_NAME_LEN.
Proof. intros. unfold pad. rewrite length_app, length_replicate. lia. Qed.

(** A name at the start of a row fills it. *)
Lemma disable_loop_row w p count a n :
  name_ok w -> length a = (count * COMMAND_NAME_LEN)%nat ->
  disable_loop (w ++ p) count 0 (a ++ replicate (S n * COMMAND_NAME_LEN) 0)
  = disable_loop p count (length w) (a ++ pad w ++ replicate (n * COMMAND_NAME_LEN) 0).
Proof.
  intros (_ & _ & Hlen & Hw) Ha.
  pose proof (disable_loop_name w p count [] a (S n * COMMAND_NAME_LEN) Hw Ha) as H.
  cbn [app length] in H. rewrite H by lia. f_equal. f_equal. unfold pad. rewrite <-!app_assoc. f_equal.
  rewrite <-replicate_add. f_equal. lia.
Qed.

Lemma disable_loop_sep sep p count (w : list Z) rows :
  is_separator sep = true -> w <> [] ->
  disable_loop (sep :: p) count (length w) rows = disable_loop p (S count) 0 rows.
Proof.
  intros Hsep Hw. cbn [disable_loop]. unfold is_separator in Hsep. rewrite Hsep. by destruct w.
Qed.

Lemma disable_loop_names sep ws count a n :
  is_separator sep = true -> Forall name_ok ws -> length a = (count * COMMAND_NAME_LEN)%nat ->
  (length ws <= n)%nat ->
  disable_loop (join sep ws) count 0 (a ++ replicate (n * COMMAND_NAME_LEN) 0)
  = Some (a ++ concat (map pad ws) ++ replicate ((n - length ws) * COMMAND_NAME_LEN) 0,
          (count + length ws)%nat).
Proof.
  intros Hsep Hws. revert count a n.
  induction Hws as [|w ws Hw Hws IH]; intros count a n Ha Hn.
  { cbn. by rewrite Nat.sub_0_r, Nat.add_0_r. }
  cbn [length] in Hn. destruct n as [|n]; [lia|]. pose proof Hw as (_ & Hne & Hlen & _).
  destruct ws as [|w' ws].
  - cbn [join map concat app length]. pose proof (disable_loop_row w [] count a n Hw Ha) as Hrow.
    rewrite app_nil_r in Hrow. rewrite Hrow. cbn [disable_loop].
    destruct w; [done|]. cbn [length Nat.ltb Nat.leb]. rewrite app_nil_r.
    do 2 f_equal; [|lia]. do 2 f_equal. f_equal. lia.
  - change (join sep (w :: w' :: ws)) with (w ++ sep :: join sep (w' :: ws)).
    rewrite disable_loop_row, disable_loop_sep, app_assoc by done.
    rewrite IH; [|rewrite length_app, pad_length; lia|cbn [length] in *; lia].
    cbn [map concat length]. rewrite <-!app_assoc. do 2 f_equal. lia.
Qed.

Lemma disable_loop_overflow sep ws w count a :
  is_separator sep = true -> Forall name_ok ws -> name_ok w ->
  length a = (count * COMMAND_NAME_LEN)%nat ->
  disable_loop (join sep (ws ++ [w])) count 0 (a ++ replicate (length ws * COMMAND_NAME_LEN) 0) = None.
Proof.
  intros Hsep Hws Hw. revert count a.
  induction Hws as [|v ws Hv Hws IH]; intros count a Ha.
  - destruct Hw as (_ & Hne & _ & Hf). destruct Hf as [|c w Hc _]; [done|].
    cbn [app join length Nat.mul replicate disable_loop]. unfold is_separator in Hc. rewrite Hc.
    change (0 <? COMMAND_NAME_LEN)%nat with true. cbv iota zeta. rewrite app_nil_r, Nat.add_0_r, Ha.
    by rewrite Nat.ltb_irrefl.
  - destruct (ws ++ [w]) as [|w' ws'] eqn:E; [by destruct ws|].
    cbn [app length]. rewrite E.
    change (join sep (v :: w' :: ws')) with (v ++ sep :: join sep (w' :: ws')).
    pose proof Hv as (_ & Hne & Hlen & _).
    rewrite disable_loop_row, disable_loop_sep, app_assoc by done.
    apply IH. rewrite length_app, pad_length; lia.
Qed.

Lemma disabled_row_names ws k i w :
  Forall name_ok ws -> ws !! i = Some w -> disabled_row (concat (map pad ws) ++ replicate k 0) i = w.
Proof.
  intros Hws. revert i. induction Hws as [|v ws (Hcs & _ & Hlen & _) Hws IH]; intros i Hi; [done|].
  destruct i as [|i]; unfold disabled_row; cbn [Nat.mul map concat lookup list_lookup] in *.
  - injection Hi as ->. rewrite drop_0. unfold pad. rewrite <-!app_assoc, cstr_app by done.
    replace (COMMAND_NAME_LEN - length w)%nat with (S (31 - length w))%nat
      by (unfold COMMAND_NAME_LEN in *; lia).
    cbn. by rewrite app_nil_r.
  - rewrite <-app_assoc, <-drop_drop.
    rewrite drop_app_length' by (rewrite pad_length; lia). by apply IH.
Qed.

(** The comparison [is_command_valid] makes. *)
Definition same_name (d name : list Z) : bool :=
  (length d =? length name)%nat && strncaseeq (length name) d name.

(** The option that disables commands: as long as there are at most
    [COMMAND_MAX] names, each shorter than [COMMAND_NAME_LEN], separated by
    commas or semicolons, exactly the listed names are refused, whatever the
    case of their letters. *)
Theorem disabled_commands_spec (sep : Z) (ws : list (list Z)) (rows name : list Z) :
  is_separator sep = true -> Forall name_ok ws -> (length ws <= COMMAND_MAX)%nat ->
  c_string name ->
  exists rows', init_disable_commands (Some (join sep ws)) 0 rows = Some (rows', length ws)
    /\ is_command_valid rows' (length ws) name = negb (existsb (fun d => same_name d name) ws).
Proof.
  intros Hsep Hws Hn Hname. eexists. split.
  { unfold init_disable_commands. apply (disable_loop_names sep ws 0 []); done. }
  cbn [app]. unfold is_command_valid. rewrite strlen_c_string by done. f_equal.
  set (rows' := _ ++ _). apply eq_true_iff_eq. rewrite !existsb_exists. split.
  - intros (i & Hi%in_seq & Hd). destruct (lookup_lt_is_Some_2 ws i) as [w Hw]; [lia|].
    subst rows'. rewrite (disabled_row_names ws _ i w) in Hd by done.
    exists w. split; [|done]. apply list_elem_of_In. by eapply list_elem_of_lookup_2.
  - intros (w & [i Hi]%list_elem_of_In%list_elem_of_lookup & Hd). exists i. split.
    + apply lookup_lt_Some in Hi. apply in_seq. lia.
    + subst rows'. by rewrite (disabled_row_names ws _ i w).
Qed.

Lemma disabled_commands_witness :
  exists rows', init_disable_commands (Some (str "system,source")) 0 [] = Some (rows', 2%nat)
    /\ is_command_valid rows' 2 (str "SOURCE") = false.
Proof.
  apply (disabled_commands_spec ","%chr [str "system"; str "source"] [] (str "SOURCE"));
    [done| |unfold COMMAND_MAX; cbn; lia|by repeat constructor].
  repeat (constructor; [split_and!; [by repeat constructor|done|unfold COMMAND_NAME_LEN; cbn; lia|]|]).
  all: by repeat constructor.
Defined.

(** The array of disabled names is written without a check of the number
    of names: one name more than [COMMAND_MAX] is stored behind the end of
    the array. *)
Theorem disabled_commands_overflow (sep : Z) (ws : list (list Z)) (w rows : list Z) :
  is_separator sep = true -> Forall name_ok ws -> length ws = COMMAND_MAX -> name_ok w ->
  init_disable_commands (Some (join sep (ws ++ [w]))) 0 rows = None.
Proof.
  intros Hsep Hws Hn Hw. unfold init_disable_commands. rewrite <-Hn.
  by apply (disable_loop_overflow sep ws w 0 []).
Qed.

Lemma disabled_commands_overflow_witness :
  init_disable_commands (Some (join ";"%chr (replicate 50 (str "go") ++ [str "tee"]))) 0 [] = None.
Proof.
  apply (disabled_commands_overflow ";"%chr (replicate 50 (str "go")) (str "tee") []); [done| |done|].
  - apply Forall_replicate. split_and!; [by repeat constructor|done|unfold COMMAND_NAME_LEN; cbn; lia|].
    by repeat constructor.
  - split_and!; [by repeat constructor|done|unfold COMMAND_NAME_LEN; cbn; lia|]. by repeat constructor.
Defined.

(** ** The DELIMITER command keeps the delimiter usable *)

Definition delimiter_ok (d : list Z) : Prop :=
  d <> [] /\ (length d < 16)%nat /\ (0 ∉ d) /\ ("\"%chr ∉ d).

Lemma strmake_cstr src n : strmake src n = take n (cstr src).
Proof.
  unfold cstr. revert n. induction src as [|c src IH]; intros [|n]; cbn; [done..|].
  destruct (c =? 0); cbn; [done|]. by rewrite IH.
Qed.

Lemma cstr_nz l : 0 ∉ cstr l.
Proof.
  unfold cstr. induction l as [|c l IH]; cbn; [set_solver|].
  destruct (Z.eqb_spec c 0) as [->|Hc]; cbn; set_solver.
Qed.

Lemma cstr_nz_id l : 0 ∉ l -> cstr l = l.
Proof.
  unfold cstr. induction l as [|c l IH]; cbn; [done|]. intros H.
  destruct (Z.eqb_spec c 0) as [->|Hc]; cbn; [set_solver|]. by rewrite IH by set_solver.
Qed.

(** Looking for a single byte. *)
Lemma strstr_byte s c : 0 ∉ s -> c <> 0 -> found (strstr s [c]) = bool_decide (c ∈ s).
Proof.
  intros Hs Hc. induction s as [|d s IH].
  - cbn [strstr is_prefix deref nth].
    apply Z.eqb_neq in Hc as Hc'. by rewrite Hc', Z.eqb_sym, Hc'.
  - cbn [strstr is_prefix deref nth].
    apply Z.eqb_neq in Hc as Hc'. rewrite Hc'. destruct (Z.eqb_spec d c) as [->|Hne]; cbn [negb].
    + rewrite bool_decide_eq_true_2 by set_solver. done.
    + destruct (Z.eqb_spec d 0) as [->|]; [set_solver|]. rewrite IH by set_solver.
      apply bool_decide_ext. set_solver.
Qed.

Lemma com_delimiter_keeps (c : client) (line : list Z) :
  delimiter_ok (delimiter c) -> delimiter_ok (delimiter (snd (com_delimiter c line))).
Proof.
  intros Hok. unfold com_delimiter.
  destruct (arg_at _) as [[|x tmp]|] eqn:Ha; [done| |done].
  assert (Hnz : 0 ∉ x :: tmp).
  { unfold arg_at in Ha. destruct (fst _); [|done]. injection Ha as <-. apply cstr_nz. }
  change (str "\") with ["\"%chr]. rewrite strstr_byte by done. case_bool_decide as Hb; [done|].
  cbn [snd set_delimiter delimiter]. rewrite strmake_cstr, cstr_nz_id by done.
  split_and!; [done|rewrite length_take; lia| |].
  all: intros Hin%elem_of_take; destruct Hin as (i & Hi & _); apply list_elem_of_lookup_2 in Hi; done.
Qed.

Lemma com_delimiter_charset c line : charset_info (snd (com_delimiter c line)) = charset_info c.
Proof. unfold com_delimiter. destruct (arg_at _) as [[|]|]; [done| |done]. by destruct (found _). Qed.

(** The DELIMITER command never leaves the client without a usable
    delimiter: whatever its argument, the delimiter stays a nonempty string
    that fits its array and contains neither a NUL nor a backslash. *)
Theorem com_delimiter_ok (c : client) (line : list Z) :
  delimiter_ok (delimiter c) -> delimiter_ok (delimiter (snd (com_delimiter c line))).
Proof. apply com_delimiter_keeps. Qed.

Lemma com_delimiter_ok_witness :
  delimiter_ok (delimiter (snd (com_delimiter
    (mkClient my_charset_latin1 (str ";") false false [] 0) (str "delimiter //")))).
Proof.
  apply (com_delimiter_ok (mkClient my_charset_latin1 (str ";") false false [] 0)).
  split_and!; [done|cbn; lia| |]; by apply (bool_decide_unpack _).
Defined.

(** The delimiter a user asks for is the one that is set: with a quoted
    argument of up to 15 bytes without a backslash, on a line that fits the
    command's buffer, the delimiter becomes exactly that argument. *)
Theorem com_delimiter_sets (c : client) (w sp d t : list Z) (q : Z)
    (line := w ++ sp ++ quote_arg false q d ++ t) :
  ascii_compatible (charset_info c) -> command_word (charset_info c) false w ->
  spaces (charset_info c) sp -> sp <> [] -> is_quote q = true -> c_string line ->
  d <> [] -> "\"%chr ∉ d -> (length d <= 15)%nat -> deref t <> q -> (length line <= 255)%nat ->
  com_delimiter c line = (DELIMITER_SET, set_delimiter c d (negb (bool_decide (d = str ";")))).
Proof.
  intros Hcs Hw Hsp Hne Hq Hl Hd Hb Hlen Ht Hll. unfold com_delimiter.
  rewrite strmake_take by done. rewrite take_ge by done. subst line.
  assert (c_string d) as Hcd.
  { apply c_string_app in Hl as [_ [_ [Hl _]%c_string_app]%c_string_app].
    apply Forall_cons in Hl as [_ [Hl _]%c_string_app]. clear -Hl.
    induction d as [|x d IH]; [constructor|]. cbn in Hl. apply c_string_app in Hl as [Hx Hl].
    constructor; [|by apply IH]. unfold quote_byte in Hx.
    destruct (_ && _); [|destruct (x =? q)]; repeat apply Forall_cons in Hx as [? Hx]; done. }
  pose proof (get_arg_quoted_form (charset_info c) false [] w sp d t q) as Hg. cbn [app] in Hg.
  rewrite Hg by (try done; constructor). clear Hg.
  change (str "\") with ["\"%chr].
  destruct d as [|x d]; [done|]. rewrite strstr_byte; [|by apply c_string_nz|done].
  rewrite bool_decide_eq_false_2 by done. rewrite strmake_take by done. rewrite take_ge by done.
  do 2 f_equal. f_equal. destruct d as [|y d]; cbn [length Nat.eqb andb deref nth].
  - destruct (Z.eqb_spec x ";"%chr) as [->|Hx]; [done|].
    rewrite bool_decide_eq_false_2; [done|]. intros [=]. done.
  - symmetry. by apply bool_decide_eq_false_2.
Qed.

Lemma delimiter_word : command_word my_charset_latin1 false DELIMITER_NAME.
Proof. by constructor; [|repeat constructor|]. Qed.

Lemma com_delimiter_sets_witness :
  com_delimiter (mkClient my_charset_latin1 (str ";") false false [] 0) (str "delimiter '$$' x")
  = (DELIMITER_SET, mkClient my_charset_latin1 (str "$$") true false [] 0).
Proof.
  apply (com_delimiter_sets (mkClient my_charset_latin1 (str ";") false false [] 0)
           (str "delimiter") (str " ") (str "$$") (str " x") "'"%chr);
    [done|apply delimiter_word|by repeat constructor|done|done
    |by repeat constructor|done| |cbn; lia|done|by apply Nat.leb_le].
  by apply (bool_decide_unpack _).
Defined.

(** ** Every command is found by its name *)

(** The collation key of a byte and of a word: command names are compared
    byte by byte in the order of latin1, in which the case of a letter does
    not count. *)
Definition sort_key (c : Z) : Z := nth (Z.to_nat c) sort_order_latin1 0.
Definition key_of (w : list Z) : list Z := map sort_key w.

(** Checking a property of bytes by going through them all. *)
Lemma all_bytes (P : Z -> bool) :
  forallb P (map Z.of_nat (seq 0 256)) = true -> forall c, 0 <= c <= 255 -> P c = true.
Proof.
  intros H c Hc. rewrite forallb_forall in H. apply H. apply in_map_iff.
  exists (Z.to_nat c). split; [lia|]. apply in_seq. lia.
Qed.

Lemma is_char_range c : is_char c = true <-> 1 <= c <= 255.
Proof. unfold is_char. rewrite andb_true_iff, !Z.leb_le. done. Qed.

Lemma sort_key_nz c : is_char c = true -> sort_key c <> 0.
Proof.
  intros Hc%is_char_range.
  pose proof (all_bytes (fun c => (c =? 0) || negb (sort_key c =? 0)) eq_refl c ltac:(lia)) as H.
  cbv beta in H. destruct (Z.eqb_spec c 0); [lia|]. by apply Z.eqb_neq, negb_true_iff.
Qed.

(** The comparison succeeds exactly on equal keys. *)
Lemma strnncoll_loop_key w t n :
  c_string w -> c_string n ->
  (strnncoll_loop sort_order_latin1 (length w) (w ++ t) n = None /\ at_ n (length w) = 0)
  <-> key_of w = key_of n.
Proof.
  intros Hw. revert n. induction Hw as [|c w Hc Hw IH]; intros n Hn.
  - destruct Hn as [|d n Hd _]; [done|]. cbn. split; [|done]. intros [_ ->]. done.
  - cbn [length strnncoll_loop app deref nth]. fold (sort_key c) (sort_key (deref n)).
    rewrite drop_1_cons. destruct Hn as [|d n Hd Hn].
    + change (sort_key (deref [])) with 0. pose proof (sort_key_nz c Hc) as Hk.
      apply Z.eqb_neq in Hk. rewrite Hk. cbn. split; [intros [? _]; done|done].
    + change (sort_key (deref (d :: n))) with (sort_key d). cbn [key_of map].
      rewrite drop_1_cons.
      change (at_ (d :: n) (S (length w))) with (at_ n (length w)).
      destruct (Z.eqb_spec (sort_key c) (sort_key d)) as [->|He]; cbn [negb].
      * rewrite (IH n Hn). unfold key_of. split; [by intros ->|by intros [=]].
      * split; [intros [? _]; done|intros [=]; done].
Qed.

Lemma my_strnncoll_zero w t len n :
  my_strnncoll my_charset_latin1 (w ++ t) len n len = 0
  <-> strnncoll_loop sort_order_latin1 len (w ++ t) n = None.
Proof.
  unfold my_strnncoll, my_strnncoll_simple. cbn [sort_order my_charset_latin1]. rewrite Nat.ltb_irrefl.
  generalize (w ++ t). intros l. revert l n.
  induction len as [|len IH]; intros l n; cbn [strnncoll_loop]; [done|].
  destruct (Z.eqb_spec (nth (Z.to_nat (deref l)) sort_order_latin1 0)
              (nth (Z.to_nat (deref n)) sort_order_latin1 0)); cbn [negb]; [apply IH|].
  split; [lia|done].
Qed.

(** The names in the table. *)
Lemma client_names_ok : Forall (fun com => c_string (name com)) client_commands.
Proof. by repeat constructor. Qed.

Lemma client_keys_NoDup : NoDup (map (fun com => key_of (name com)) client_commands).
Proof. apply (bool_decide_unpack _). vm_compute. exact I. Qed.

Lemma client_func com : com ∈ client_commands -> is_Some (func com).
Proof.
  assert (Forall (fun com => is_Some (func com)) client_commands) as H by (repeat constructor; done).
  by apply (proj1 (Forall_forall _ _) H).
Qed.

Lemma commands_split : exists rest, commands = client_commands ++ rest.
Proof. by eexists. Qed.

(** The bytes that can stand for a byte of a command name. *)
Definition name_byte (c : Z) : bool :=
  negb (is_blank c) && negb (my_isspace my_charset_latin1 c) && negb (c =? "/"%chr)
  && negb (c =? "-"%chr) && negb (c =? "\"%chr).

Definition name_keys : list Z := concat (map (fun com => key_of (name com)) client_commands).

Lemma name_keys_bytes c : is_char c = true -> In (sort_key c) name_keys -> name_byte c = true.
Proof.
  intros Hc%is_char_range Hin.
  pose proof (all_bytes (fun c => (c =? 0) || negb (existsb (Z.eqb (sort_key c)) name_keys) || name_byte c)
                ltac:(vm_compute; reflexivity) c ltac:(lia)) as H.
  cbv beta in H. destruct (Z.eqb_spec c 0); [lia|].
  replace (existsb (Z.eqb (sort_key c)) name_keys) with true in H; [done|]. symmetry.
  apply existsb_exists. exists (sort_key c). split; [done|apply Z.eqb_refl].
Qed.

Lemma client_names_nonempty : Forall (fun com => name com <> []) client_commands.
Proof. by repeat constructor. Qed.

Lemma name_bytes com w :
  com ∈ client_commands -> key_of w = key_of (name com) -> c_string w ->
  w <> [] /\ Forall (fun c => name_byte c = true) w.
Proof.
  intros Hc Hk Hw. split.
  - intros ->. eapply (proj1 (Forall_forall _ _) client_names_nonempty); [exact Hc|].
    symmetry in Hk. by apply map_eq_nil in Hk.
  - assert (Hin : forall c, In c w -> In (sort_key c) name_keys).
    { intros c Hin. apply in_concat. exists (key_of (name com)). split.
      - apply (in_map (fun com => key_of (name com))). by apply list_elem_of_In.
      - rewrite <-Hk. by apply in_map. }
    apply Forall_forall. intros c Hcw. apply name_keys_bytes.
    + by eapply (proj1 (Forall_forall _ _) Hw).
    + by apply Hin, list_elem_of_In.
Qed.

Lemma command_search_first f pre com post i :
  Forall (fun x => is_Some (func x) /\ f x = false) pre -> is_Some (func com) -> f com = true ->
  command_search f (pre ++ com :: post) i = Some (i + length pre)%nat.
Proof.
  intros Hpre [g Hg] Hf. revert i. induction Hpre as [|x pre [[h Hh] Hx] _ IH]; intros i; cbn.
  - rewrite Hg, Hf. f_equal. lia.
  - rewrite Hh, Hx, IH. f_equal. lia.
Qed.

(** What can follow the name of a command: nothing, or, when the command
    takes parameters, blanks and an argument. *)
Inductive command_tail (cs : CHARSET_INFO) (com : COMMANDS) : list Z -> Prop :=
  | tail_none : command_tail cs com []
  | tail_arg b sp arg :
      takes_params com = true -> b = " "%chr \/ b = c_tab -> spaces cs sp ->
      deref arg <> 0 -> my_isspace cs (deref arg) = false -> is_quote (deref arg) = false ->
      command_tail cs com (b :: sp ++ arg).

Lemma blank_isspace cs b : ascii_compatible cs -> b = " "%chr \/ b = c_tab -> my_isspace cs b = true.
Proof. intros Hcs [->| ->]; by apply (ascii_isspace cs _ _ Hcs). Qed.

(** The first blank of a line is the one behind its first word. *)
Lemma strcont_word w t :
  c_string w -> Forall (fun c => name_byte c = true) w ->
  strcont (w ++ t) (str " " ++ [c_tab]) = strcont t (str " " ++ [c_tab]).
Proof.
  intros Hw. induction Hw as [|c w Hc _ IH]; intros Hn; [done|].
  apply Forall_cons in Hn as [Hb Hn]. cbn [app strcont]. rewrite (is_char_nz c Hc).
  unfold name_byte, is_blank in Hb. change (cstr _) with [" "%chr; c_tab]. cbn [existsb].
  destruct (Z.eqb_spec c " "%chr) as [->|]; [done|]. destruct (Z.eqb_spec c c_tab) as [->|]; [done|].
  by apply IH.
Qed.

Lemma word_and_rest_tail cs com w t :
  ascii_compatible cs -> c_string (w ++ t) -> Forall (fun c => name_byte c = true) w ->
  command_tail cs com t ->
  word_and_rest cs (w ++ t) = (length w, negb (bool_decide (t = []))).
Proof.
  intros Hcs Hl Hw Ht. apply c_string_app in Hl as [Hcw Hct]. unfold word_and_rest.
  rewrite strcont_word by done.
  destruct Ht as [|b sp arg _ Hb Hsp Ha Has _].
  - cbn. rewrite app_nil_r. by rewrite strlen_c_string.
  - pose proof (blank_isspace cs b Hcs Hb) as Hbs. apply Forall_cons in Hct as [Hcb _].
    cbn [strcont]. rewrite (is_char_nz b Hcb).
    replace (existsb _ _) with true by (by destruct Hb as [->| ->]).
    rewrite length_app. f_equal; [lia|].
    change (b :: sp ++ arg) with ((b :: sp) ++ arg).
    rewrite span_app by (by constructor). rewrite (span_stop _ arg) by done.
    rewrite Nat.add_0_r, drop_app_length. apply Z.eqb_neq in Ha. by rewrite Ha.
Qed.

(** The name matches exactly one entry of the table. *)
Lemma command_matches_name cs com w t x :
  c_string w -> x ∈ client_commands -> com ∈ client_commands -> key_of w = key_of (name com) ->
  command_matches cs (w ++ t) (length w) (negb (bool_decide (t = []))) x = true -> key_of (name x) = key_of (name com).
Proof.
  intros Hw Hx Hc Hk Hm. unfold command_matches in Hm.
  apply andb_prop in Hm as [[Hm Hat]%andb_prop _]. rewrite <-Hk. symmetry.
  apply (strnncoll_loop_key w t); [done| |].
  - by apply (proj1 (Forall_forall _ _) client_names_ok).
  - split; [by apply my_strnncoll_zero, Z.eqb_eq|by apply Z.eqb_eq].
Qed.

#[local] Opaque client_commands commands.

Section named.

Context (c : client) (com : COMMANDS) (w t : list Z).
Context (Hcs : ascii_compatible (charset_info c)).
Context (Hcom : com ∈ client_commands) (Hkey : key_of w = key_of (name com)).
Context (Hstr : c_string (w ++ t)) (Hascii : Forall (fun x => x < 128) w).
Context (Htail : command_tail (charset_info c) com t).

Lemma named_word : c_string w /\ w <> [] /\ Forall (fun x => name_byte x = true) w.
Proof. apply c_string_app in Hstr as [Hw _]. split; [done|]. by apply (name_bytes com). Qed.

Lemma named_isspace x : x ∈ w -> my_isspace (charset_info c) x = false.
Proof.
  intros Hx. destruct named_word as (Hw & _ & Hn).
  pose proof (proj1 (Forall_forall _ _) Hascii x Hx) as Hlt. cbv beta in Hlt.
  pose proof (proj1 (Forall_forall _ _) Hw x Hx) as Hr%is_char_range.
  apply (ascii_isspace _ _ _ Hcs); [lia|].
  apply (proj1 (Forall_forall _ _) Hn) in Hx. unfold name_byte in Hx.
  by destruct (my_isspace my_charset_latin1 x); [rewrite andb_false_r in Hx|].
Qed.

Lemma named_starts_text : starts_text (w ++ t) /\ span (my_isspace (charset_info c)) (w ++ t) = O.
Proof.
  destruct named_word as (Hw & Hne & Hn). pose proof named_isspace as Hsp.
  destruct Hn as [|x w' Hx _]; [done|]. split; [|apply span_stop, Hsp; set_solver].
  unfold name_byte in Hx. rewrite !andb_true_iff, !negb_true_iff in Hx.
  destruct Hx as ((((Hb & _) & Hs) & Hd) & _).
  split_and!; [done|done|unfold at_open; cbn; by rewrite Hs|unfold at_dashes; cbn; by rewrite Hd].
Qed.

Lemma named_command_word : command_word (charset_info c) false w.
Proof.
  destruct named_word as (Hw & Hne & Hn). constructor; [done| |].
  - apply Forall_forall. intros x Hx. unfold is_word_char. rewrite (named_isspace x Hx).
    apply (proj1 (Forall_forall _ _) Hw), is_char_nz in Hx. by rewrite Hx.
  - destruct Hn as [|x w' Hx _]; [done|]. cbn. intros ->. done.
Qed.

Lemma named_matches :
  command_matches (charset_info c) (w ++ t) (length w) (negb (bool_decide (t = []))) com = true.
Proof.
  destruct named_word as (Hw & _ & _). unfold command_matches.
  assert (c_string (name com)) as Hcn by (by apply (proj1 (Forall_forall _ _) client_names_ok)).
  destruct (proj2 (strnncoll_loop_key w t (name com) Hw Hcn) Hkey) as [Hl Hat].
  apply my_strnncoll_zero in Hl. rewrite Hl, Hat. cbn [Z.eqb andb].
  pose proof named_command_word as Hcw.
  destruct Htail as [|b sp arg Htp Hb Hsp Ha Has Haq]; [done|].
  rewrite bool_decide_eq_false_2, Htp by done. cbn [negb orb andb].
  change (b :: sp ++ arg) with ((b :: sp) ++ arg).
  apply get_arg_check; [done|done| |done..]. constructor; [by apply blank_isspace|done].
Qed.

Lemma named_search :
  exists i, command_search (command_matches (charset_info c) (w ++ t) (length w)
              (negb (bool_decide (t = [])))) commands 0 = Some i /\ commands !! i = Some com.
Proof.
  destruct commands_split as [rest ->]. destruct named_word as (Hw & _ & _).
  pose proof named_matches as Hm. destruct (list_elem_of_split _ _ Hcom) as (pre & post & Heq).
  exists (length pre). rewrite Heq, <-app_assoc. cbn [app]. split; [|by apply list_lookup_middle].
  apply (command_search_first _ pre com _ 0); [|by apply client_func|done].
  apply Forall_forall. intros x Hx. assert (x ∈ client_commands) as Hxc by (rewrite Heq; set_solver).
  split; [by apply client_func|].
  destruct (command_matches _ _ _ _ x) eqn:E; [|done]. exfalso.
  apply (command_matches_name _ com) in E; [|done..].
  pose proof client_keys_NoDup as Hnd. rewrite Heq, map_app in Hnd.
  apply NoDup_app in Hnd as (_ & Hnd & _). apply (Hnd (key_of (name x))).
  - by apply (list_elem_of_fmap_2 (fun com => key_of (name com))).
  - rewrite E. cbn. set_solver.
Qed.

(** Binary mode off, the command is not disabled, and the line is neither
    one that [add_line] has to take apart at a delimiter or a [\g]. *)
Lemma find_command_named_line :
  real_binary_mode c = false -> command_valid c (name com) = true ->
  found (strstr (w ++ t) (str "\g")) = false ->
  found (strstr (w ++ t) (delimiter c)) = false \/ name com = DELIMITER_NAME ->
  find_command c (w ++ t) = Some (com, w ++ t).
Proof.
  intros Hbin Hval Hg Hd. destruct named_word as (Hw & _ & Hn).
  destruct named_starts_text as [Hst Hspan]. destruct named_search as (i & Hs & Hi).
  unfold find_command. rewrite strlen_c_string by done.
  rewrite get_trim_comment_sql_text by done. rewrite Hspan, drop_0, Hbin, Hg.
  rewrite (word_and_rest_tail _ com) by done. rewrite Hs. cbn [negb andb orb].
  replace (found (strstr (w ++ t) (delimiter c)) && _) with false.
  - unfold valid_command. by rewrite Hi, Hval.
  - destruct Hd as [->|Hd]; [done|]. rewrite andb_comm. symmetry.
    replace (is_delimiter_command _ _) with true; [done|]. symmetry.
    unfold is_delimiter_command. rewrite Hd in Hkey.
    assert (length w = DELIMITER_NAME_LEN) as Hlen.
    { apply (f_equal length) in Hkey. unfold key_of in Hkey. by rewrite !length_map in Hkey. }
    rewrite Nat.leb_refl. cbn [andb]. apply Z.eqb_eq, my_strnncoll_zero. rewrite <-Hlen.
    by apply strnncoll_loop_key; [|repeat constructor|].
Qed.

End named.

(** C30. Every command is found by its name: a line that starts with the name
    of a client command, in any mixture of upper and lower case, followed by
    nothing or, for a command that takes parameters, by blanks and an
    unquoted argument, is recognized as exactly that command, unless the
    command is disabled or the line contains a [\g] or, for commands other
    than DELIMITER, the delimiter. *)
Theorem find_command_by_name (c : client) (com : COMMANDS) (w t : list Z) :
  ascii_compatible (charset_info c) -> com ∈ client_commands -> key_of w = key_of (name com) ->
  c_string (w ++ t) -> Forall (fun x => x < 128) w -> command_tail (charset_info c) com t ->
  real_binary_mode c = false -> command_valid c (name com) = true ->
  found (strstr (w ++ t) (str "\g")) = false ->
  found (strstr (w ++ t) (delimiter c)) = false \/ name com = DELIMITER_NAME ->
  find_command c (w ++ t) = Some (com, w ++ t).
Proof. intros. by apply find_command_named_line. Qed.

#[local] Transparent client_commands commands.

Lemma find_command_by_name_witness :
  option_map (fun r => func (fst r))
    (find_command (mkClient my_charset_latin1 (str ";") false false [] 0) (str "SourCE  a;b"))
  = None /\
  find_command (mkClient my_charset_latin1 (str ";") false false [] 0) (str "Delimiter ;;")
  = Some (mkCommand (str "delimiter") "d"%chr (Some COM_DELIMITER) true (str "Set statement delimiter."),
          str "Delimiter ;;").
Proof.
  split; [by vm_compute|].
  apply (find_command_by_name (mkClient my_charset_latin1 (str ";") false false [] 0) _
           (str "Delimiter") (str " ;;"));
    [done|apply (list_elem_of_lookup_2 _ 4); reflexivity|done|by repeat constructor
    |by repeat constructor| |done|done|done|by right].
  apply (tail_arg _ _ " "%chr [] (str ";;")); [done|by left|constructor|done|done|done].
Defined.
