(* ===== verification/Connect.v ===== *)
(** * Connections (client/mysql.cc: split_fullname, rewrite_by_oracle,
    parse_multi_host, parse_socket5_proxy, get_tenant_clust_name, do_connect,
    sql_real_connect, sql_real_connect_multi, sql_connect, com_connect)

    The CONNECT command of the client takes a connect string
    [username@tenant/password@//host:port], which [rewrite_by_oracle] turns, in
    place, into words that [get_arg_string] and [get_arg_by_index] deliver.
    The functions that split the names of users and lists of hosts work on a
    buffer whose bytes they overwrite with NUL; a [char *] into it is an
    offset, and the text behind it is read in the buffer they leave.  The
    connector library is the class [Network]; of its options the character set
    and the proxy are modelled.  The character set that the client uses is the
    same before and after a connect. *)

From S2P Require Import Prelude.
From S2P Require Import CString.
From S2P Require Import Charset.
From S2P Require Import CommandArgs.

(** ** Names of users *)

Abbreviation c_dquote := 34.

(** The loops that skip what stands between double quotes: the number of
    bytes before the first one outside of quotes where [stop] holds. *)
Fixpoint scan_quoted (stop : list Z -> bool) (in_string : bool) (p : list Z) : nat :=
  match p with
  | [] => O
  | c :: p' =>
      if negb in_string && (c =? c_dquote) then S (scan_quoted stop true p')
      else if in_string && (c =? c_dquote) then S (scan_quoted stop false p')
      else if negb in_string && stop p then O
      else S (scan_quoted stop in_string p')
  end.

Definition at_tenant (p : list Z) : bool := (deref p =? "@"%chr) && negb (at_ p 1 =? 0).

(** The user and, from the [@] on, the tenant. *)
Definition split_fullname (fulluser : list Z) : list Z * option (list Z) :=
  let n := scan_quoted at_tenant false fulluser in
  if (n <? length fulluser)%nat then (take n fulluser, Some (drop n fulluser)) else (fulluser, None).

(** The state of [get_tenant_clust_name] and a turn of its loop; the last
    component tells whether the loop is left. *)
Record names := mkNames {
  tenant : list Z;
  clust : list Z;
  in_tenant : bool;
  in_clust : bool;
  quto : Z
}.

Definition is_either_quote (c : Z) : bool := (c =? c_dquote) || (c =? "'"%chr).

Definition name_state (c : Z) (s : names) : names * bool :=
  if is_either_quote c && (quto s =? 0) then (mkNames (tenant s) (clust s) (in_tenant s) (in_clust s) c, false)
  else if is_either_quote c && negb (quto s =? 0) then (mkNames (tenant s) (clust s) (in_tenant s) (in_clust s) 0, false)
  else if (c =? "@"%chr) && negb (in_tenant s) && (quto s =? 0) then (mkNames (tenant s) (clust s) true (in_clust s) (quto s), false)
  else if (c =? "#"%chr) && in_tenant s && (quto s =? 0) then (mkNames (tenant s) (clust s) false true (quto s), false)
  else if (c =? ":"%chr) && in_clust s && (quto s =? 0) then (mkNames (tenant s) (clust s) (in_tenant s) false (quto s), true)
  else (s, false).

(** [tenant_len] and [clust_len] are zero for a pointer that is NULL. *)
Fixpoint name_loop (tenant_len clust_len : nat) (s : names) (p : list Z) : names :=
  match p with
  | [] => s
  | c :: p' =>
      let '(s, stop) := name_state c s in
      if stop then s
      else
        let t := if in_tenant s && negb (c =? "@"%chr) && (length (tenant s) <? tenant_len)%nat then tenant s ++ [c] else tenant s in
        let k := if in_clust s && negb (c =? "#"%chr) && (length (clust s) <? clust_len)%nat then clust s ++ [c] else clust s in
        name_loop tenant_len clust_len (mkNames t k (in_tenant s) (in_clust s) (quto s)) p'
  end.

Definition get_tenant_clust_name (username : list Z) (tenant_len clust_len : nat) : list Z * list Z :=
  let s := name_loop tenant_len clust_len (mkNames [] [] false false 0) username in (tenant s, clust s).

(** ** The connect string *)

Definition rewrite_port (p : list Z) : Z * list Z :=
  let n := span (fun c => ("0"%chr <=? c) && (c <=? "9"%chr)) p in
  if (n <? length p)%nat then (-1, <[n := " "%chr]> p) else (1, p).

(** From the host on, behind the [@]. *)
Definition rewrite_address (p : list Z) : Z * list Z :=
  let n := span (fun c => negb (c =? ":"%chr)) p in
  match drop n p with
  | [] => (1, p)
  | _ :: port => let '(r, port) := rewrite_port port in (r, take n p ++ " "%chr :: port)
  end.

Definition rewrite_host (p : list Z) : Z * list Z :=
  let '(slashes, p) :=
    if (deref p =? "/"%chr) && (at_ p 1 =? "/"%chr) then ([ " "%chr; " "%chr ], drop 2 p) else ([], p) in
  if deref p =? "["%chr then
    let p := drop 1 p in
    let n := span (fun c => negb (c =? "]"%chr)) p in
    let '(r, q) := match drop n p with [] => (1, []) | _ :: q => let '(r, q) := rewrite_address q in (r, " "%chr :: q) end in
    (r, slashes ++ " "%chr :: take n p ++ q)
  else
    let '(r, q) := rewrite_address p in (r, slashes ++ q).

Definition rewrite_password (p : list Z) : Z * list Z :=
  let n := scan_quoted (fun p => deref p =? "@"%chr) false p in
  match drop n p with
  | [] => (1, p)
  | _ :: host => let '(r, host) := rewrite_host host in (r, take n p ++ " "%chr :: host)
  end.

Definition at_separator (p : list Z) : bool :=
  ((deref p =? "/"%chr) || (deref p =? "@"%chr)) && negb (at_ p 1 =? 0).

(** The result code and the line. *)
Definition rewrite_by_oracle (cs : CHARSET_INFO) (line : list Z) : Z * list Z :=
  let ptr := fst (arg_from cs line GET) in
  let n := (ptr + scan_quoted at_separator false (drop ptr line))%nat in
  match drop n line with
  | [] => (0, line)
  | p =>
      let k := span (fun c => negb (c =? "/"%chr)) p in
      match drop k p with
      | [] => (1, line)
      | _ :: password => let '(r, password) := rewrite_password password in (r, take (n + k) line ++ " "%chr :: password)
      end
  end.

(** ** Lists of hosts *)

(** [isspace] and [atoi] of the C library. *)
Definition c_isspace (c : Z) : bool := (c =? 32) || ((9 <=? c) && (c <=? 13)).

Definition is_decimal (c : Z) : bool := ("0"%chr <=? c) && (c <=? "9"%chr).

Fixpoint digits_value (acc : Z) (p : list Z) : Z :=
  match p with
  | c :: p' => if is_decimal c then digits_value (10 * acc + (c - "0"%chr)) p' else acc
  | [] => acc
  end.

Definition atoi (p : list Z) : Z :=
  let p := skip_while c_isspace p in
  if deref p =? "-"%chr then - digits_value 0 (drop 1 p)
  else if deref p =? "+"%chr then digits_value 0 (drop 1 p)
  else digits_value 0 p.

(** A byte is overwritten while the loop goes on. *)
Record host_state := mkHosts {
  buf : list Z;
  myhost : option nat;
  myport : option nat;
  in_string : bool;
  mhost : list (nat * Z)
}.

Definition host_char (p : nat) (s : host_state) : host_state :=
  let c := at_ (buf s) p in
  if c =? "["%chr then mkHosts (buf s) (Some (S p)) (myport s) true (mhost s)
  else if (c =? "]"%chr) && in_string s then mkHosts (<[p := 0]> (buf s)) (myhost s) (myport s) false (mhost s)
  else if (c =? ":"%chr) && negb (in_string s) then mkHosts (<[p := 0]> (buf s)) (myhost s) (Some (S p)) (in_string s) (mhost s)
  else if (c =? ","%chr) && negb (in_string s) then mkHosts (buf s) (Some (S p)) None (in_string s) (mhost s)
  else s.

(** The assignment to the map: the keys are pointers, and they only grow. *)
Definition add_host (s : host_state) : host_state :=
  match myhost s, myport s with
  | Some h, Some p =>
      let port := atoi (cstr (drop p (buf s))) in
      mkHosts (buf s) None None (in_string s) (if 0 <? port then mhost s ++ [(h, port)] else mhost s)
  | _, _ => s
  end.

Fixpoint hosts_loop (fuel : nat) (p : nat) (s : host_state) : host_state :=
  match fuel with
  | O => s
  | S fuel' => if at_ (buf s) p =? 0 then s else hosts_loop fuel' (S p) (add_host (host_char p s))
  end.

(** The hosts that [sql_connect] reads from the map. *)
Definition parse_multi_host (host : list Z) : list (list Z * Z) :=
  if bool_decide (","%chr ∈ host) then
    let s := hosts_loop (S (length host)) 0 (mkHosts host (Some 0%nat) None false []) in
    map (fun e => (cstr (drop (fst e) (buf s)), snd e)) (mhost s)
  else [].

(** The variables that [parse_socket5_proxy] fills. *)
Record proxy_state := mkProxy {
  pbuf : list Z;
  pstr : nat;
  idx : nat;
  pin_string : bool;
  phost : option nat;
  pport : option Z;
  puser : option nat;
  ppwd : option nat
}.

Definition assign (s : proxy_state) : proxy_state :=
  match idx s with
  | 0 => mkProxy (pbuf s) (pstr s) (idx s) (pin_string s) (Some (pstr s)) (pport s) (puser s) (ppwd s)
  | 1 => mkProxy (pbuf s) (pstr s) (idx s) (pin_string s) (phost s) (Some (atoi (cstr (drop (pstr s) (pbuf s))))) (puser s) (ppwd s)
  | 2 => mkProxy (pbuf s) (pstr s) (idx s) (pin_string s) (phost s) (pport s) (Some (pstr s)) (ppwd s)
  | 3 => mkProxy (pbuf s) (pstr s) (idx s) (pin_string s) (phost s) (pport s) (puser s) (Some (pstr s))
  | _ => s
  end%nat.

Definition next_field (p : nat) (s : proxy_state) : proxy_state :=
  mkProxy (pbuf s) (S p) (S (idx s)) (pin_string s) (phost s) (pport s) (puser s) (ppwd s).

Definition nul_at (p : nat) (s : proxy_state) : proxy_state :=
  mkProxy (<[p := 0]> (pbuf s)) (pstr s) (idx s) (pin_string s) (phost s) (pport s) (puser s) (ppwd s).

Definition with_string (q : bool) (str : nat) (s : proxy_state) : proxy_state :=
  mkProxy (pbuf s) str (idx s) q (phost s) (pport s) (puser s) (ppwd s).

Definition proxy_char (p : nat) (s : proxy_state) : proxy_state :=
  let c := at_ (pbuf s) p in
  if c =? "["%chr then with_string true (S p) s
  else if (c =? "]"%chr) && pin_string s then nul_at p (with_string false (pstr s) s)
  else if (c =? ","%chr) && negb (pin_string s) then next_field p (assign (nul_at p s))
  else s.

Fixpoint proxy_loop (fuel : nat) (p : nat) (s : proxy_state) : proxy_state :=
  match fuel with
  | O => s
  | S fuel' => if at_ (pbuf s) p =? 0 then s else proxy_loop fuel' (S p) (proxy_char p s)
  end.

(** What the pointers denote when the function has returned. *)
Definition parse_socket5_proxy (socket5_proxy : list Z)
    : option (list Z) * option Z * option (list Z) * option (list Z) :=
  let s := assign (proxy_loop (S (length socket5_proxy)) 0 (mkProxy socket5_proxy 0 0 false None None None None)) in
  let text (o : option nat) := option_map (fun off => cstr (drop off (pbuf s))) o in
  (text (phost s), pport s, text (puser s), text (ppwd s)).

(** ** The CONNECT command *)

(** The variables of the client that describe the connection. *)
Record conn := mkConn {
  current_user : option (list Z);
  opt_password : option (list Z);
  current_host : option (list Z);
  current_host_success : option (list Z);
  opt_mysql_port : Z;
  current_port_success : Z;
  current_db : option (list Z);
  opt_rehash : bool;
  dbms_serveroutput : bool;
  dbms_prepared : bool;
  connected : bool;
  last_session_mode : bool;
  default_charset : list Z
}.

Definition set_user (u : list Z) (v : conn) : conn :=
  mkConn (Some u) (opt_password v) (current_host v) (current_host_success v) (opt_mysql_port v)
    (current_port_success v) (current_db v) (opt_rehash v) (dbms_serveroutput v) (dbms_prepared v) (connected v)
    (last_session_mode v) (default_charset v).

Definition set_password (p : list Z) (v : conn) : conn :=
  mkConn (current_user v) (Some p) (current_host v) (current_host_success v) (opt_mysql_port v)
    (current_port_success v) (current_db v) (opt_rehash v) (dbms_serveroutput v) (dbms_prepared v) (connected v)
    (last_session_mode v) (default_charset v).

Definition set_host (h : list Z) (v : conn) : conn :=
  mkConn (current_user v) (opt_password v) (Some h) (Some h) (opt_mysql_port v) (current_port_success v)
    (current_db v) (opt_rehash v) (dbms_serveroutput v) (dbms_prepared v) (connected v) (last_session_mode v)
    (default_charset v).

Definition set_port (port port_success : Z) (v : conn) : conn :=
  mkConn (current_user v) (opt_password v) (current_host v) (current_host_success v) port port_success (current_db v)
    (opt_rehash v) (dbms_serveroutput v) (dbms_prepared v) (connected v) (last_session_mode v) (default_charset v).

Definition set_db (db : option (list Z)) (v : conn) : conn :=
  mkConn (current_user v) (opt_password v) (current_host v) (current_host_success v) (opt_mysql_port v)
    (current_port_success v) db (opt_rehash v) (dbms_serveroutput v) (dbms_prepared v) (connected v)
    (last_session_mode v) (default_charset v).

Definition set_rehash (b : bool) (v : conn) : conn :=
  mkConn (current_user v) (opt_password v) (current_host v) (current_host_success v) (opt_mysql_port v)
    (current_port_success v) (current_db v) b (dbms_serveroutput v) (dbms_prepared v) (connected v)
    (last_session_mode v) (default_charset v).

Definition close_dbms  (v : conn) : conn :=
  mkConn (current_user v) (opt_password v) (current_host v) (current_host_success v) (opt_mysql_port v)
    (current_port_success v) (current_db v) (opt_rehash v) false false (connected v) (last_session_mode v)
    (default_charset v).

(** The connection is closed in front of every attempt to open one; the name of
    the character set is the one that the connector library knows. *)
Definition disconnect (charset : list Z) (v : conn) : conn :=
  mkConn (current_user v) (opt_password v) (current_host v) (current_host_success v) (opt_mysql_port v)
    (current_port_success v) (current_db v) (opt_rehash v) (dbms_serveroutput v) (dbms_prepared v) false
    (last_session_mode v) charset.

(** A connection is open, to this address. *)
Definition set_connected (host : list Z) (port : Z) (oracle : bool) (v : conn) : conn :=
  mkConn (current_user v) (opt_password v) (current_host v) (Some host) (opt_mysql_port v) port (current_db v)
    (opt_rehash v) (dbms_serveroutput v) (dbms_prepared v) true oracle (default_charset v).

(** What the last part of the command restores. *)
Definition restore (user host : list Z) (port : Z) (v : conn) : conn :=
  mkConn (Some user) (opt_password v) (current_host v) (Some host) (port mod 2 ^ 32) port (current_db v)
    (opt_rehash v) (dbms_serveroutput v) (dbms_prepared v) (connected v) (last_session_mode v) (default_charset v).

(** The options of the client that do not change. *)
Record connect_options := mkConnectOptions {
  wait_flag : bool;
  ignore_errors : bool;
  one_database : bool;
  ob_service_name_str : option (list Z);
  ob_socket5_proxy_str : option (list Z)
}.

(** What the connector library is asked for: the arguments of
    [mysql_real_connect], the name of the character set and the proxy. *)
Record attempt := mkAttempt {
  a_host : option (list Z);
  a_database : option (list Z);
  a_user : option (list Z);
  a_password : option (list Z);
  a_port : Z;
  a_charset : list Z;
  a_proxy : option (list Z * Z * option (list Z) * option (list Z))
}.

(** The connector library and the rest of the program: opening of a
    connection, directly or to one of a list of hosts, of which the one reached
    is returned; the error and its message; the pause between two attempts; the
    completion table; queries; and what is done after a connect. *)
Class Network (net : Type) := {
  mysql_real_connect : attempt -> net -> bool * net;
  ob_mysql_real_connect : option (list Z) -> list (list Z * Z) -> attempt -> net -> option (list Z * Z) * net;
  connect_errno : net -> Z;
  put_connect_error : net -> net;
  put_service_error : net -> net;
  pause : net -> net;
  my_default_csname : list Z;
  build_completion_hash : bool -> net -> net;
  oracle_mode : net -> bool;
  run_query : list Z -> net -> net;
  query_value : list Z -> net -> option (list Z) * net;
  greet : option (list Z) -> net -> net;
  login_script : conn -> net -> conn * net
}.

(** [sql_real_connect] *)

Definition MYSQL_AUTODETECT_CHARSET_NAME : list Z := str "auto".

Definition CR_CONNECTION_ERROR : Z := 2002.
Definition CR_CONN_HOST_ERROR : Z := 2003.

Definition connector_charset (auto name : list Z) : list Z :=
  let name := if bool_decide (name = MYSQL_AUTODETECT_CHARSET_NAME) then auto else name in
  let name := if strncaseeq 12 name (str "GB18030-2022") then str "GB18030" else name in
  if strncaseeq 10 name (str "BIG5-HKSCS") || strncaseeq 9 name (str "BIG5HKSCS") then str "big5" else name.

Definition socket5_proxy (copt : connect_options) : option (list Z * Z * option (list Z) * option (list Z)) :=
  match ob_socket5_proxy_str copt with
  | Some (c :: s) =>
      match parse_socket5_proxy (c :: s) with
      | (Some host, Some port, user, pwd) => if 0 <? port then Some (host, port, user, pwd) else None
      | _ => None
      end
  | _ => None
  end.

Section sql_connect.
Context {net : Type} `{Network net} (copt : connect_options).

Definition make_attempt (host database user password : option (list Z)) (v : conn) : attempt :=
  mkAttempt host database user password (opt_mysql_port v) (default_charset v) (socket5_proxy copt).

(** [do_connect] *)
Definition do_connect (a : attempt) (v : conn) (n : net) : bool * conn * net :=
  let '(ok, n) := mysql_real_connect a n in
  if ok then (true, set_connected (default [] (a_host a)) (int32 (opt_mysql_port v)) (oracle_mode n) v, n)
  else (false, v, n).

Definition sql_real_connect (host database user password : option (list Z)) (silent : bool) (v : conn) (n : net) : Z * conn * net :=
  let v := disconnect (connector_charset my_default_csname (default_charset v)) v in
  let '(ok, v, n) := do_connect (make_attempt host database user password v) v n in
  if ok then (0, v, build_completion_hash (opt_rehash v) n)
  else if negb silent || (negb (connect_errno n =? CR_CONN_HOST_ERROR) && negb (connect_errno n =? CR_CONNECTION_ERROR)) then
    (if ignore_errors copt then -1 else 1, v, put_connect_error n)
  else (-1, v, n).

(** [sql_real_connect_multi], to one of a list of hosts or to a service; the
    port is chosen by the library. *)
Definition sql_real_connect_multi (hosts : list (list Z * Z)) (database user password : option (list Z)) (v : conn) (n : net)
    : Z * conn * net :=
  let v := disconnect (connector_charset my_default_csname (default_charset v)) v in
  let a := mkAttempt None database user password 0 (default_charset v) (socket5_proxy copt) in
  match ob_mysql_real_connect (ob_service_name_str copt) hosts a n with
  | (Some (host, port), n) =>
      let v := set_connected host port (oracle_mode n) v in (0, v, build_completion_hash (opt_rehash v) n)
  | (None, n) => if negb (connect_errno n =? 0) then (-1, v, put_connect_error n) else (-2, v, n)
  end.

(** The loop of [sql_connect]; nothing if the attempts are used up.  No option sets
    [wait_flag], so the client makes one attempt. *)
Fixpoint connect_loop (tries : nat) (host database user password : option (list Z)) (v : conn) (n : net) : option (Z * conn * net) :=
  match tries with
  | O => None
  | S tries' =>
      let '(error, v, n) := sql_real_connect host database user password (wait_flag copt) v n in
      if 0 <=? error then Some (error, v, n)
      else if negb (wait_flag copt) then Some (if ignore_errors copt then -1 else 1, v, n)
      else connect_loop tries' host database user password v (pause n)
  end.

(** A [silent] of 100 comes from the CONNECT command, which takes no list of
    hosts. *)
Definition sql_connect (tries : nat) (host database user password : option (list Z)) (silent : Z) (v : conn) (n : net)
    : option (Z * conn * net) :=
  let multi_host := parse_multi_host (default [] host) in
  if negb (silent =? 100) && (bool_decide (ob_service_name_str copt <> None) || negb (length multi_host =? 0)%nat) then
    let '(error, v, n) := sql_real_connect_multi multi_host database user password v n in
    Some (error, v, if (error =? -2) && bool_decide (ob_service_name_str copt <> None) then put_service_error n else n)
  else connect_loop tries host database user password v n.

(** [get_current_db]: the query, and the variable after it *)
Definition get_current_db (v : conn) (n : net) : conn * net :=
  if one_database copt then (v, n)
  else
    let sql := if oracle_mode n then str "SELECT (SYS_CONTEXT('USERENV', 'CURRENT_SCHEMA')) FROM SYS.DUAL" else str "SELECT DATABASE()" in
    let '(db, n) := query_value sql n in (set_db db v, n).

End sql_connect.

(** [get_password]: the bytes typed up to a carriage return, a backspace
    removing the last one; without a carriage return it does not come back. *)
Fixpoint get_password (typed password : list Z) : option (list Z * list Z) :=
  match typed with
  | [] => None
  | c :: typed' =>
      if c =? c_cr then Some (password, typed')
      else if c =? 8 then get_password typed' (take (length password - 1) password)
      else get_password typed' (password ++ [c])
  end.

(** The password of the connect string is copied, without quotes around it,
    into [char szbuf[128]]; more than 127 bytes go beyond it. *)
Definition copy_password (tmp : list Z) : option (list Z) :=
  let ilen := length tmp in
  let text :=
    if (deref tmp =? c_dquote) && (at_ tmp (ilen - 1) =? c_dquote) && (2 <? ilen)%nat then take (ilen - 2) (drop 1 tmp) else tmp in
  if (length text <? 128)%nat then Some text else None.

(** [snprintf(buff, sizeof(buff), "%s%s", newuser, oldtenant)] when the new
    name has no tenant. *)
Definition add_old_tenant (oldtenant : option (list Z)) (v : conn) : conn :=
  match current_user v, oldtenant with
  | Some u, Some t =>
      match split_fullname u with
      | (user, None) => set_user (take 255 (user ++ t)) v
      | _ => v
      end
  | _, _ => v
  end.

Section com_connect.
Context {net : Type} `{Network net} (cs : CHARSET_INFO) (copt : connect_options) (tries : nat).

(** An argument that is there and not empty. *)
Definition arg_text (r : option nat * list Z) : option (list Z) :=
  match arg_at r with Some (c :: a) => Some (c :: a) | _ => None end.

Inductive outcome :=
  | Connects (v : conn) (typed : list Z)
  | Returns (error : Z) (v : conn) (typed : list Z)
  | Undefined.

(** The fourth word: [strtoull] reports a number of more than 64 bits. *)
Definition take_port (tmp : option (list Z)) (v : conn) (typed : list Z) : outcome :=
  match tmp with
  | None => Connects v typed
  | Some tmp =>
      let port := digits_value 0 tmp in
      if 2 ^ 64 - 1 <? port then Returns 1 v typed
      else Connects (set_port (port mod 2 ^ 32) (int32 port) v) typed
  end.

(** The words behind the user: password, host and port. *)
Definition take_password (buff : list Z) (v : conn) (typed : list Z) : outcome :=
  let r1 := get_arg_by_index cs buff 1 in
  match arg_text r1 with
  | None =>
      match get_password typed [] with
      | Some (passwd, typed) => Connects (set_password passwd v) typed
      | None => Undefined
      end
  | Some tmp =>
      match copy_password tmp with
      | None => Undefined
      | Some passwd =>
          let v := set_password passwd v in
          let r2 := get_arg_by_index cs (snd r1) 2 in
          match arg_text r2 with
          | None => Connects v typed
          | Some host => take_port (arg_text (get_arg_by_index cs (snd r2) 3)) (set_host host v) typed
          end
      end
  end.

(** [connect username@tenant/password@//host:port] *)
Definition by_connect_string (buff : list Z) (oldtenant : option (list Z)) (v : conn) (typed : list Z) : outcome :=
  let r := get_arg_string cs buff GET in
  match arg_text r with
  | None => Connects (set_rehash false v) typed
  | Some user =>
      match take_password (snd r) (set_user user v) typed with
      | Connects v typed => Connects (add_old_tenant oldtenant v) typed
      | o => o
      end
  end.

(** [connect user] of Oracle mode, [connect db host] of MySQL mode *)
Definition by_words (buff : list Z) (oldtenant : option (list Z)) (v : conn) (typed : list Z) : outcome :=
  let r := get_arg_string cs buff GET in
  match arg_text r with
  | None => Connects (set_rehash false v) typed
  | Some tmp =>
      if last_session_mode v then
        let v := add_old_tenant oldtenant (set_user tmp v) in
        match get_password typed [] with
        | Some (passwd, typed) => Connects (set_password passwd v) typed
        | None => Undefined
        end
      else
        let v := set_db (Some tmp) v in
        match arg_text (get_arg_string cs (snd r) GET_NEXT) with
        | Some host => Connects (set_host host v) typed
        | None => Connects v typed
        end
  end.

(** The end of the command, common to all forms. *)
Definition after_connect (save_rehash : bool) (error : Z) (v : conn) (n : net) : Z * conn * net :=
  let v := set_rehash save_rehash v in
  if connected v then
    let '(v, n) := get_current_db copt v n in
    let '(v, n) := login_script v (greet (current_db v) n) in (error, v, n)
  else (error, v, n).

(** [com_connect(buffer, line)], [line] being the text after the substitution
    of variables: nothing if the behaviour is undefined - the names of the
    session are copied into strings, which must not be done with NULL - or if
    a password or the server is waited for. *)
Definition com_connect (line typed : list Z) (v0 : conn) (n : net) : option (Z * conn * net * list Z) :=
  match current_user v0, current_host_success v0 with
  | Some saveuser, Some savehost =>
      let saveport := current_port_success v0 in
      let v := close_dbms v0 in
      let oldtenant := snd (split_fullname saveuser) in
      let '(rewrite, buff) := rewrite_by_oracle cs (take 254 line) in
      if rewrite =? -1 then Some (0, v, n, typed)
      else
        match (if rewrite =? 1 then by_connect_string buff oldtenant v typed else by_words buff oldtenant v typed) with
        | Undefined => None
        | Returns error v typed => Some (error, v, n, typed)
        | Connects v typed =>
            let v := set_port (current_port_success v mod 2 ^ 32) (current_port_success v) v in
            match sql_connect copt tries (current_host_success v) None (current_user v) (opt_password v) 100 v n with
            | None => None
            | Some (error, v, n) =>
                let n :=
                  if connected v && negb (oracle_mode n) then run_query (str "use " ++ default (str "(null)") (current_db v)) n else n in
                let v := if negb (connected v) then restore saveuser savehost saveport v else v in
                Some (after_connect (opt_rehash v0) error v n, typed)
            end
        end
  | _, _ => None
  end.

(** [com_connect(NULL, NULL)], as [reconnect] calls it. *)
Definition com_connect_again (v0 : conn) (n : net) : option (Z * conn * net) :=
  match current_user v0, current_host_success v0 with
  | Some _, Some _ =>
      let v := set_rehash false (close_dbms v0) in
      match sql_connect copt tries (current_host v) (current_db v) (current_user v) (opt_password v) 0 v n with
      | None => None
      | Some (error, v, n) => Some (after_connect (opt_rehash v0) error v n)
      end
  | _, _ => None
  end.

End com_connect.

(** ** Words in a buffer *)

Ltac app_norm := repeat (rewrite <-app_assoc; cbn [app]); cbn [app].

Section words.
Context (cs : CHARSET_INFO).

(** A word has no white space; blanks are spaces. *)
Definition word (w : list Z) : Prop := w <> [] /\ Forall (fun c => is_word_char cs c = true) w.

Hypothesis Hcs : ascii_compatible cs.

Lemma space_isspace : my_isspace cs " "%chr = true.
Proof. by apply ascii_isspace. Qed.

Lemma nul_isspace : my_isspace cs 0 = false.
Proof. by apply ascii_isspace. Qed.

Lemma word_char c : is_word_char cs c = true -> c <> 0 /\ c <> " "%chr /\ my_isspace cs c = false.
Proof.
  unfold is_word_char. intros [H1%negb_true_iff H2%negb_true_iff]%andb_prop. apply Z.eqb_neq in H1.
  split_and!; [done| |done]. intros ->. by rewrite space_isspace in H2.
Qed.

Lemma word_deref w t : word w -> is_word_char cs (deref (w ++ t)) = true.
Proof. intros [Hne Hw]. destruct w as [|c w]; [done|]. by apply Forall_cons in Hw as [Hc _]. Qed.

Lemma deref_nz_space p : my_isspace cs (deref p) = false -> span (my_isspace cs) p = O.
Proof. apply span_stop. Qed.

Lemma span_word w t : Forall (fun c => is_word_char cs c = true) w -> is_word_char cs (deref t) = false ->
  span (is_word_char cs) (w ++ t) = length w.
Proof. intros Hw Ht. rewrite span_app by done. rewrite span_stop by done. lia. Qed.

Lemma span_blanks k w t : word w -> span (my_isspace cs) (replicate k " "%chr ++ w ++ t) = k.
Proof.
  intros Hw. rewrite span_app by (apply Forall_replicate, space_isspace).
  rewrite length_replicate, span_stop; [lia|]. apply word_char, word_deref, Hw.
Qed.

(** What [get_arg_string] makes of the end of a word. *)
Definition cut (t : list Z) : list Z := match t with c :: t' => if c =? " "%chr then 0 :: t' else c :: t' | [] => [] end.

Definition word_end (t : list Z) : Prop := deref t = 0 \/ deref t = " "%chr.

Lemma arg_word a k w t : word w -> word_end t ->
  let line := a ++ replicate k " "%chr ++ w ++ t in
  let start := (length a + span (my_isspace cs) (drop (length a) line))%nat in
  let n := span (fun c => negb (c =? 0) && negb (c =? " "%chr)) (drop start line) in
  start = (length a + k)%nat /\ n = length w
  /\ (if at_ line (start + n) =? " "%chr then <[(start + n)%nat := 0]> line else line)
     = a ++ replicate k " "%chr ++ w ++ cut t.
Proof.
  intros Hw Ht line start n.
  assert (Hs : start = (length a + k)%nat) by (unfold start, line; rewrite drop_app_length, span_blanks by done; done).
  assert (Hd : drop start line = w ++ t).
  { rewrite Hs. unfold line. rewrite app_assoc. replace (length a + k)%nat with (length (a ++ replicate k " "%chr))
      by (rewrite length_app, length_replicate; done). apply drop_app_length. }
  assert (Hn : n = length w).
  { unfold n. rewrite Hd, span_app, span_stop; [lia| |].
    - destruct Ht as [-> | ->]; done.
    - eapply Forall_impl; [apply Hw|]. cbn. intros c Hc. apply word_char in Hc as (H1 & H2 & _).
      by rewrite (proj2 (Z.eqb_neq _ _) H1), (proj2 (Z.eqb_neq _ _) H2). }
  split_and!; [done|done|]. rewrite Hn, Hs. unfold line.
  rewrite !app_assoc. set (b := (a ++ replicate k " "%chr) ++ w).
  assert (Hb : length b = (length a + k + length w)%nat) by (unfold b; rewrite !length_app, length_replicate; done).
  rewrite <-Hb, at_app_length. destruct t as [|c t]; [done|]. cbn [deref nth cut].
  destruct (c =? " "%chr); [|done]. by rewrite insert_app_r_alt, Nat.sub_diag by lia.
Qed.

Lemma get_arg_string_first cmd k u t : word cmd -> deref cmd <> "\"%chr -> (0 < k)%nat -> word u -> word_end t ->
  get_arg_string cs (cmd ++ replicate k " "%chr ++ u ++ t) GET
  = (Some (length cmd + k)%nat, cmd ++ replicate k " "%chr ++ u ++ cut t).
Proof.
  intros Hc Hb Hk Hu Ht. unfold get_arg_string, arg_from.
  rewrite (span_stop (my_isspace cs)) by (apply word_char, word_deref, Hc). rewrite drop_0.
  assert ((at_ (cmd ++ replicate k " "%chr ++ u ++ t) 0 =? "\"%chr) = false) as ->.
  { apply Z.eqb_neq. by destruct cmd; [destruct Hc|]. }
  destruct k as [|k]; [lia|].
  rewrite span_word by (apply Hc || cbn; unfold is_word_char; rewrite space_isspace; done). cbn [Nat.add].
  rewrite at_app_length. cbn [replicate app deref nth]. change (" "%chr =? 0) with false. cbn [app].
  pose proof (arg_word cmd (S k) u t Hu Ht) as (Hs & Hn & Hl). cbn [replicate app] in *. by rewrite Hn, Hs in *; rewrite Hl.
Qed.

Lemma get_arg_string_next a k w t : Forall (fun c => c <> 0) a -> word w -> word_end t ->
  get_arg_string cs (a ++ 0 :: replicate k " "%chr ++ w ++ t) GET_NEXT
  = (Some (length a + 1 + k)%nat, a ++ 0 :: replicate k " "%chr ++ w ++ cut t).
Proof.
  intros Ha Hw Ht. unfold get_arg_string, arg_from.
  assert (Hl : strlen (a ++ 0 :: replicate k " "%chr ++ w ++ t) = length a).
  { induction Ha as [|c a Hc _ IH]; [done|]. cbn [app strlen length]. by rewrite (proj2 (Z.eqb_neq _ _) Hc), IH. }
  rewrite Hl. pose proof (arg_word (a ++ [0]) k w t Hw Ht) as (Hs & Hn & Hx). rewrite <-!app_assoc in *. cbn [app] in *.
  rewrite length_app in *. cbn [length] in *.
  assert (Hz : (at_ (a ++ 0 :: replicate k " "%chr ++ w ++ t) (length a + 1) =? 0) = false).
  { apply Z.eqb_neq. replace (length a + 1)%nat with (length (a ++ [0])) by (rewrite length_app; done).
    change (a ++ 0 :: ?r) with (a ++ [0] ++ r). rewrite app_assoc, at_app_length.
    destruct k; cbn [replicate app]; [|done]. by apply word_char, word_deref. }
  rewrite Hz. cbn [negb]. rewrite Hz, Hn, Hs in *. by rewrite Hx.
Qed.

(** The offsets that [get_arg_by_index] starts from. *)
Lemma index_blank a l x t n : Forall (fun c => is_word_char cs c = true) l -> is_word_char cs x = true ->
  arg_index_loop cs (a ++ l ++ " "%chr :: x :: t) (S n) (length a)
  = arg_index_loop cs (a ++ l ++ " "%chr :: x :: t) n (length a + length l + 1)%nat.
Proof.
  intros Hl Hx. pose proof (word_char x Hx) as (Hx0 & _ & Hxs). cbn [arg_index_loop]. rewrite drop_app_length.
  rewrite span_word by (done || cbn; unfold is_word_char; rewrite space_isspace; done).
  replace (length a + length l)%nat with (length (a ++ l)) by apply length_app. rewrite (app_assoc a), drop_app_length.
  cbn [span]. rewrite space_isspace, Hxs.
  replace (length (a ++ l) + 1)%nat with (length ((a ++ l) ++ [" "%chr])) by (rewrite length_app; done).
  change ((a ++ l) ++ " "%chr :: x :: t) with ((a ++ l) ++ [" "%chr] ++ x :: t). rewrite (app_assoc (a ++ l)), at_app_length.
  cbn [deref nth]. by rewrite (proj2 (Z.eqb_neq x 0) Hx0).
Qed.

Lemma index_nul a l x t n : Forall (fun c => is_word_char cs c = true) l -> x <> 0 ->
  arg_index_loop cs (a ++ l ++ 0 :: x :: t) (S n) (length a)
  = arg_index_loop cs (a ++ l ++ 0 :: x :: t) n (length a + length l + 1)%nat.
Proof.
  intros Hl Hx. cbn [arg_index_loop]. rewrite drop_app_length. rewrite span_word by done.
  replace (length a + length l)%nat with (length (a ++ l)) by apply length_app. rewrite (app_assoc a), drop_app_length.
  cbn [span]. rewrite nul_isspace, Nat.add_0_r, at_app_length. cbn [deref nth Z.eqb negb].
  replace (S (length (a ++ l))) with (length ((a ++ l) ++ [0])) by (rewrite length_app; cbn; lia).
  change ((a ++ l) ++ 0 :: x :: t) with ((a ++ l) ++ [0] ++ x :: t). rewrite (app_assoc (a ++ l)), at_app_length.
  cbn [deref nth]. rewrite (proj2 (Z.eqb_neq x 0) Hx). cbn [negb]. f_equal. rewrite !length_app. cbn. lia.
Qed.

(** The word behind an offset. *)
Lemma cstr_word a w t : word w -> word_end t -> cstr (drop (length a) (a ++ w ++ cut t)) = w.
Proof.
  intros [_ Hw] Ht. rewrite drop_app_length.
  assert (Hz : strlen (w ++ cut t) = length w); [|unfold cstr; by rewrite Hz, take_app_length].
  induction Hw as [|c w Hc _ IH]; cbn [app strlen length].
  - destruct t as [|c t]; [done|]. destruct Ht as [Ht|Ht]; cbn in Ht; by rewrite Ht.
  - apply word_char in Hc as (Hc & _). by rewrite (proj2 (Z.eqb_neq _ _) Hc), IH.
Qed.

Lemma arg_text_word off a w t : word w -> word_end t -> off = length a -> arg_text (Some off, a ++ w ++ cut t) = Some w.
Proof.
  intros Hw Ht ->. unfold arg_text, arg_at. cbn [fst snd]. rewrite cstr_word by done. destruct Hw as [Hw _]. by destruct w.
Qed.

Lemma get_arg_by_index_word line pre a k w t i : line = pre ++ a ++ 0 :: replicate k " "%chr ++ w ++ t ->
  arg_index_loop cs line i 0 = length pre -> Forall (fun c => c <> 0) a -> word w -> word_end t ->
  snd (get_arg_by_index cs line i) = pre ++ a ++ 0 :: replicate k " "%chr ++ w ++ cut t
  /\ arg_text (get_arg_by_index cs line i) = Some w.
Proof.
  intros -> Hi Ha Hw Ht. unfold get_arg_by_index. rewrite Hi, drop_app_length, take_app_length, get_arg_string_next by done.
  split; [done|]. replace (pre ++ a ++ 0 :: replicate k " "%chr ++ w ++ cut t) with ((pre ++ a ++ 0 :: replicate k " "%chr) ++ w ++ cut t)
    by (rewrite <-!app_assoc; done).
  apply arg_text_word; [done|done|]. rewrite !length_app. cbn [length]. rewrite length_replicate. lia.
Qed.

Lemma word_nonzero w : Forall (fun c => is_word_char cs c = true) w -> Forall (fun c => c <> 0) w.
Proof. intros H. eapply Forall_impl; [exact H|]. cbn. by intros c (Hc & _)%word_char. Qed.

(** The four words of a connect string, in the buffers that the calls leave. *)
Definition words_buffer (cmd u p h q : list Z) (k j : nat) (e1 e2 e3 : Z) : list Z :=
  cmd ++ " "%chr :: u ++ e1 :: p ++ e2 :: replicate k " "%chr ++ h ++ e3 :: replicate j " "%chr ++ q.

Lemma words_user cmd u p h q k j : word cmd -> deref cmd <> "\"%chr -> word u ->
  let r := get_arg_string cs (words_buffer cmd u p h q k j 32 32 32) GET in
  snd r = words_buffer cmd u p h q k j 0 32 32 /\ arg_text r = Some u.
Proof.
  intros Hc Hb Hu. unfold words_buffer. change (" "%chr :: u ++ ?t) with (replicate 1 " "%chr ++ u ++ t).
  cbv zeta. rewrite get_arg_string_first by (done || lia || by right). split; [done|].
  rewrite (app_assoc cmd). apply arg_text_word; [done|by right|]. rewrite length_app. done.
Qed.

Lemma words_password cmd u p h q k j : word cmd -> word u -> word p ->
  let r := get_arg_by_index cs (words_buffer cmd u p h q k j 0 32 32) 1 in
  snd r = words_buffer cmd u p h q k j 0 0 32 /\ arg_text r = Some p.
Proof.
  intros [_ Hc] Hu Hp. pose proof (get_arg_by_index_word (words_buffer cmd u p h q k j 0 32 32) (cmd ++ [" "%chr]) u 0 p
    (" "%chr :: replicate k " "%chr ++ h ++ 32 :: replicate j " "%chr ++ q) 1) as Hg.
  destruct Hg as [H1 H2]; [by unfold words_buffer; app_norm| |apply word_nonzero, Hu|done|by right|].
  - destruct Hu as [Hu Hw]. destruct u as [|x u]; [done|]. apply Forall_cons in Hw as [Hx _].
    etrans; [by apply (index_blank [] cmd x _ 0)|]. cbn [arg_index_loop length Nat.add]. by rewrite length_app.
  - split; [|done]. etrans; [exact H1|]. unfold words_buffer. by app_norm.
Qed.

(** From the command to the user, and on from word to word. *)
Lemma index_user cmd u t n : word cmd -> word u ->
  arg_index_loop cs (cmd ++ " "%chr :: u ++ t) (S n) 0 = arg_index_loop cs (cmd ++ " "%chr :: u ++ t) n (length cmd + 1)%nat.
Proof.
  intros [_ Hc] [Hu Hw]. destruct u as [|x u]; [done|]. apply Forall_cons in Hw as [Hx _].
  by apply (index_blank [] cmd x _ n).
Qed.

Lemma index_next line pos a w x t n : line = a ++ w ++ 0 :: x :: t -> pos = length a ->
  Forall (fun c => is_word_char cs c = true) w -> x <> 0 ->
  arg_index_loop cs line (S n) pos = arg_index_loop cs line n (pos + length w + 1)%nat.
Proof. intros -> ->. apply index_nul. Qed.

Lemma word_cons w : word w -> exists x t, w = x :: t /\ x <> 0.
Proof. intros [Hw Hc]. destruct w as [|x w]; [done|]. apply Forall_cons in Hc as [[Hx _]%word_char _]. by exists x, w. Qed.

Lemma words_host cmd u p h q k j : word cmd -> word u -> word p -> word h ->
  let r := get_arg_by_index cs (words_buffer cmd u p h q k j 0 0 32) 2 in
  snd r = words_buffer cmd u p h q k j 0 0 0 /\ arg_text r = Some h.
Proof.
  intros Hc Hu Hp Hh. pose proof (get_arg_by_index_word (words_buffer cmd u p h q k j 0 0 32) (cmd ++ " "%chr :: u ++ [0]) p k h
    (" "%chr :: replicate j " "%chr ++ q) 2) as Hg.
  destruct Hg as [H1 H2]; [by unfold words_buffer; app_norm| |apply word_nonzero, Hp|done|by right|].
  - unfold words_buffer. rewrite index_user by done. destruct (word_cons p Hp) as (x & p' & -> & Hx).
    erewrite (index_next _ _ (cmd ++ [" "%chr]) u x); [|by app_norm|by rewrite length_app|apply Hu|done].
    cbn [arg_index_loop]. rewrite !length_app. cbn [length]. rewrite length_app. cbn [length]. lia.
  - split; [|done]. etrans; [exact H1|]. unfold words_buffer. by app_norm.
Qed.

Lemma words_port cmd u p h q k j : word cmd -> word u -> word p -> word h -> word q ->
  arg_text (get_arg_by_index cs (words_buffer cmd u p h q k j 0 0 0) 3) = Some q.
Proof.
  intros Hc Hu Hp Hh Hq.
  assert (Hkh : exists y t, replicate k " "%chr ++ h = y :: t /\ y <> 0).
  { destruct k as [|k]; [by apply word_cons|by eexists _, _]. }
  pose proof (get_arg_by_index_word (words_buffer cmd u p h q k j 0 0 0) (cmd ++ " "%chr :: u ++ 0 :: p ++ [0])
    (replicate k " "%chr ++ h) j q [] 3) as Hg.
  destruct Hg as [_ H2]; [by unfold words_buffer; app_norm; rewrite app_nil_r| | |done|by left|done].
  - unfold words_buffer. rewrite index_user by done. destruct Hkh as (y & t & Hy & Hy0). destruct (word_cons p Hp) as (x & p' & Hpx & Hx).
    erewrite (index_next _ _ (cmd ++ [" "%chr]) u x); [|by app_norm; rewrite Hpx|by rewrite length_app|apply Hu|done].
    erewrite (index_next _ _ (cmd ++ " "%chr :: u ++ [0]) p y); [|app_norm; do 5 f_equal; rewrite app_assoc, Hy; done
      |rewrite !length_app; cbn [length]; rewrite length_app; cbn [length]; lia|apply Hp|done].
    cbn [arg_index_loop]. rewrite !length_app. cbn [length]. rewrite length_app. cbn [length]. rewrite length_app. cbn [length]. lia.
  - apply Forall_app. split; [by apply Forall_replicate|apply word_nonzero, Hh].
Qed.

(** ** Rewriting a connect string *)

(** [sl] tells whether the host is written behind two slashes, [br] whether it
    is written in brackets, as IPv6 addresses are. *)
Definition connect_string (cmd u p : list Z) (sl br : bool) (h q : list Z) : list Z :=
  cmd ++ " "%chr :: u ++ "/"%chr :: p ++ "@"%chr :: (if sl then str "//" else [])
    ++ (if br then "["%chr :: h ++ ["]"%chr] else h) ++ ":"%chr :: q.

Record connect_ok (u p : list Z) (br : bool) (h q : list Z) : Prop := {
  ok_user : word u /\ (c_dquote ∉ u) /\ ("/"%chr ∉ u);
  ok_password : word p /\ (c_dquote ∉ p) /\ ("@"%chr ∉ p);
  ok_host : word h /\ ("["%chr ∉ h) /\ ("]"%chr ∉ h) /\ ("/"%chr ∉ h) /\ (br = false -> ":"%chr ∉ h);
  ok_port : word q /\ Forall (fun c => is_decimal c = true) q
}.

Lemma span_until x a t : x ∉ a -> span (fun c => negb (c =? x)) (a ++ x :: t) = length a.
Proof.
  intros Ha. rewrite span_app, span_stop; [lia|by cbn; rewrite Z.eqb_refl|].
  apply Forall_forall. intros c Hc. rewrite (proj2 (Z.eqb_neq c x)); [done|]. by intros ->.
Qed.

Lemma span_not_there x a : x ∉ a -> span (fun c => negb (c =? x)) a = length a.
Proof.
  induction a as [|c a IH]; [done|]. intros [Hc Ha]%not_elem_of_cons. cbn [span length].
  rewrite (proj2 (Z.eqb_neq c x)) by done. cbn. by rewrite IH.
Qed.

(** Up to a place where [stop] holds, if it does not hold before. *)
Lemma scan_quoted_stop stop a t : c_dquote ∉ a -> (forall c r, c ∈ a -> stop (c :: r) = false) -> stop t = true ->
  t <> [] -> deref t <> c_dquote -> scan_quoted stop false (a ++ t) = length a.
Proof.
  intros Ha Hs Ht Hne Hq. induction a as [|c a IH].
  - destruct t as [|c t]; [done|]. cbn in Hq. cbn [app scan_quoted negb andb length].
    by rewrite (proj2 (Z.eqb_neq c c_dquote)), Ht by done.
  - apply not_elem_of_cons in Ha as [Hc Ha]. cbn [app scan_quoted negb andb length].
    rewrite (proj2 (Z.eqb_neq c c_dquote)), Hs by (done || set_solver). cbn. rewrite IH; [done|done|].
    intros c' r Hc'. apply Hs. set_solver.
Qed.

(** A separator in front of the place is found at the latest there. *)
Lemma scan_quoted_le stop a t : c_dquote ∉ a -> stop t = true -> t <> [] -> deref t <> c_dquote ->
  (scan_quoted stop false (a ++ t) <= length a)%nat.
Proof.
  intros Ha Ht Hne Hq. induction a as [|c a IH].
  - destruct t as [|c t]; [done|]. cbn in Hq. cbn [app scan_quoted negb andb].
    by rewrite (proj2 (Z.eqb_neq c c_dquote)), Ht by done.
  - apply not_elem_of_cons in Ha as [Hc Ha]. cbn [app scan_quoted negb andb length].
    rewrite (proj2 (Z.eqb_neq c c_dquote)) by done. specialize (IH Ha). destruct (stop (c :: a ++ t)); lia.
Qed.

Lemma rewrite_port_digits q : Forall (fun c => is_decimal c = true) q -> rewrite_port q = (1, q).
Proof.
  intros Hq. unfold rewrite_port. assert (Hs : span (fun c => ("0"%chr <=? c) && (c <=? "9"%chr)) q = length q).
  { rewrite <-(app_nil_r q) at 1. rewrite span_app by done. cbn. lia. }
  by rewrite Hs, Nat.ltb_irrefl.
Qed.

Lemma rewrite_address_port h q : ":"%chr ∉ h -> Forall (fun c => is_decimal c = true) q ->
  rewrite_address (h ++ ":"%chr :: q) = (1, h ++ " "%chr :: q).
Proof.
  intros Hh Hq. unfold rewrite_address. rewrite span_until, drop_app_length, take_app_length by done.
  by rewrite rewrite_port_digits.
Qed.

Lemma rewrite_host_ok u p (sl br : bool) h q : connect_ok u p br h q ->
  rewrite_host ((if sl then str "//" else []) ++ (if br then "["%chr :: h ++ ["]"%chr] else h) ++ ":"%chr :: q)
  = (1, replicate ((if sl then 2 else 0) + (if br then 1 else 0)) " "%chr ++ h ++ " "%chr :: replicate (if br then 1 else 0) " "%chr ++ q).
Proof.
  intros [_ _ (Hh & Hb1 & Hb2 & Hs & Hc) (Hq & Hd)]. destruct (word_cons h Hh) as (x & h' & -> & Hx).
  apply not_elem_of_cons in Hs as [Hxs _]. pose proof Hb1 as [Hxb _]%not_elem_of_cons.
  unfold rewrite_host.
  assert (Hsl : forall r, deref r <> "/"%chr -> (if (deref ((if sl then str "//" else []) ++ r) =? "/"%chr)
      && (at_ ((if sl then str "//" else []) ++ r) 1 =? "/"%chr) then ([ " "%chr; " "%chr ], drop 2 ((if sl then str "//" else []) ++ r))
      else ([], (if sl then str "//" else []) ++ r)) = (replicate (if sl then 2 else 0) " "%chr, r)).
  { intros r Hr. destruct sl; [done|]. cbn [app]. by rewrite (proj2 (Z.eqb_neq _ _) Hr). }
  rewrite Hsl; [|by destruct br; [|cbn; congruence]]. clear Hsl. destruct br.
  - cbn [app deref nth]. rewrite Z.eqb_refl, drop_1_cons, <-app_assoc. cbn [app].
    change (x :: h' ++ "]"%chr :: ":"%chr :: q) with ((x :: h') ++ "]"%chr :: ":"%chr :: q).
    rewrite span_until, drop_app_length, take_app_length by done.
    change (":"%chr :: q) with ([] ++ ":"%chr :: q). rewrite rewrite_address_port by (done || apply not_elem_of_nil).
    rewrite Nat.add_1_r, replicate_S_end, <-app_assoc. by cbn [app replicate].
  - cbn [app deref nth]. rewrite (proj2 (Z.eqb_neq x _)) by congruence.
    change (x :: h' ++ ":"%chr :: q) with ((x :: h') ++ ":"%chr :: q). rewrite rewrite_address_port by auto.
    by rewrite Nat.add_0_r.
Qed.

Lemma rewrite_connect_string cmd u p (sl br : bool) h q : word cmd -> deref cmd <> "\"%chr -> connect_ok u p br h q ->
  rewrite_by_oracle cs (connect_string cmd u p sl br h q)
  = (1, words_buffer cmd u p h q ((if sl then 2 else 0) + (if br then 1 else 0)) (if br then 1 else 0) 32 32 32).
Proof.
  intros Hcmd Hb Hok. pose proof Hok as [(Hu & Hu1 & Hu2) (Hp & Hp1 & Hp2) _ _].
  pose proof (rewrite_host_ok u p sl br h q Hok) as Hh. unfold connect_string. set (rest := (if sl then _ else _) ++ _) in *.
  unfold rewrite_by_oracle, arg_from. rewrite (span_stop (my_isspace cs)) by (apply word_char, word_deref, Hcmd). rewrite drop_0.
  assert (forall r, (at_ (cmd ++ r) 0 =? "\"%chr) = false) as ->.
  { intros r. apply Z.eqb_neq. by destruct cmd; [destruct Hcmd|]. }
  rewrite span_word by (apply Hcmd || cbn; unfold is_word_char; rewrite space_isspace; done). cbn [fst Nat.add].
  rewrite drop_app_length. change (" "%chr :: u ++ ?r) with ((" "%chr :: u) ++ r).
  set (t := "/"%chr :: p ++ "@"%chr :: rest).
  assert (Hst : at_separator t = true) by (destruct (word_cons p Hp) as (x & p' & -> & Hx); unfold t, at_separator; cbn; by rewrite (proj2 (Z.eqb_neq x 0))).
  assert (Hle : (scan_quoted at_separator false ((" "%chr :: u) ++ t) <= length (" "%chr :: u))%nat)
    by (apply scan_quoted_le; [apply not_elem_of_cons; done|done|done|done]).
  set (n := scan_quoted _ _ _) in *. clearbody n.
  assert (Hd : drop (length cmd + n) (cmd ++ (" "%chr :: u) ++ t) = drop n (" "%chr :: u) ++ t)
    by (rewrite drop_app_ge, Nat.add_comm, Nat.add_sub by lia; by rewrite drop_app_le).
  assert (Hv : "/"%chr ∉ drop n (" "%chr :: u)).
  { assert (Hf : Forall (fun c => c <> "/"%chr) (" "%chr :: u))
      by (constructor; [done|apply Forall_forall; intros c Hc ->; done]).
    intros Hin. by apply (proj1 (Forall_forall _ _) (Forall_drop _ n _ Hf)) in Hin. }
  rewrite Hd. clear Hd. destruct (drop n (" "%chr :: u) ++ t) as [|y r] eqn:E; [by destruct (drop n _)|]. rewrite <-E. clear E y r.
  assert (Hsp : span (fun c => negb (c =? "/"%chr)) (drop n (" "%chr :: u) ++ t) = length (drop n (" "%chr :: u))) by by apply span_until.
  rewrite Hsp, drop_app_length. unfold t at 1.
  unfold rewrite_password. rewrite scan_quoted_stop; [|done| |done|done|done].
  2: { intros c r Hc. apply Z.eqb_neq. cbn. by intros ->. }
  rewrite drop_app_length, take_app_length, Hh. f_equal. unfold words_buffer.
  replace (length cmd + n + length (drop n (" "%chr :: u)))%nat with (length (cmd ++ " "%chr :: u))
    by (rewrite length_drop, length_app; lia).
  rewrite (app_assoc cmd (" "%chr :: u)), take_app_length. by app_norm.
Qed.

End words.

(** ** The connection that is made *)

Ltac conn_norm :=
  cbn [current_user opt_password current_host current_host_success opt_mysql_port current_port_success current_db opt_rehash
       dbms_serveroutput dbms_prepared connected last_session_mode default_charset a_host
       set_user set_password set_host set_port set_db set_rehash close_dbms disconnect set_connected restore].

(** The full name of the user: a name without tenant keeps the tenant of the
    session. *)
Definition full_user (u old : list Z) : list Z :=
  match snd (split_fullname u), snd (split_fullname old) with
  | None, Some t => take 255 (fst (split_fullname u) ++ t)
  | _, _ => u
  end.

Lemma no_nul_decimal q : Forall (fun c => is_decimal c = true) q -> 0 <= digits_value 0 q.
Proof.
  intros H. assert (Hg : forall acc, 0 <= acc -> 0 <= digits_value acc q); [|by apply Hg].
  induction H as [|c q Hc _ IH]; intros acc Ha; cbn [digits_value]; [done|]. rewrite Hc. apply IH.
  unfold is_decimal in Hc. lia.
Qed.

Lemma copy_password_plain p : c_dquote ∉ p -> (length p <= 127)%nat -> copy_password p = Some p.
Proof.
  intros Hp Hl. unfold copy_password.
  assert ((deref p =? c_dquote) = false \/ length p = O) as [-> | H0].
  { destruct p as [|c p]; [by right|left]. apply not_elem_of_cons in Hp as [Hc _]. apply Z.eqb_neq. cbn. congruence. }
  - cbn [andb]. by rewrite (proj2 (Nat.ltb_lt _ _)) by lia.
  - rewrite H0. cbn. rewrite andb_false_r. destruct p; done.
Qed.

Lemma add_old_tenant_full old u v : current_user v = Some u ->
  add_old_tenant (snd (split_fullname old)) v = set_user (full_user u old) v.
Proof.
  intros Hu. unfold add_old_tenant, full_user. rewrite Hu.
  destruct (split_fullname u) as [u1 [t|]], (snd (split_fullname old)), v; cbn in Hu |- *; subst; done.
Qed.

(** The variables after a connect string. *)
Lemma by_connect_string_vars cs cmd u p (sl br : bool) h q k j old v typed :
  ascii_compatible cs -> word cs cmd -> deref cmd <> "\"%chr -> connect_ok cs u p br h q ->
  (length p <= 127)%nat -> digits_value 0 q < 2 ^ 31 ->
  by_connect_string cs (words_buffer cmd u p h q k j 32 32 32) (snd (split_fullname old)) v typed
  = Connects (set_user (full_user u old)
      (set_port (digits_value 0 q) (digits_value 0 q) (set_host h (set_password p (set_user u v))))) typed.
Proof.
  intros Hcs Hcmd Hb [(Hu & _) (Hp & Hp1 & _) (Hh & _) (Hq & Hd)] Hl Hport. unfold by_connect_string.
  destruct (words_user cs Hcs cmd u p h q k j Hcmd Hb Hu) as [H1 H2]. rewrite H2, H1. clear H1 H2.
  unfold take_password. destruct (words_password cs Hcs cmd u p h q k j Hcmd Hu Hp) as [H1 H2]. rewrite H2, H1. clear H1 H2.
  rewrite copy_password_plain by done.
  destruct (words_host cs Hcs cmd u p h q k j Hcmd Hu Hp Hh) as [H1 H2]. rewrite H2, H1. clear H1 H2.
  rewrite words_port by done. unfold take_port. pose proof (no_nul_decimal q Hd) as H0.
  rewrite (proj2 (Z.ltb_ge _ _)) by lia. rewrite Z.mod_small by lia.
  assert (int32 (digits_value 0 q) = digits_value 0 q) as -> by (unfold int32; rewrite Z.mod_small; lia).
  f_equal. by apply add_old_tenant_full.
Qed.

(** C14. The CONNECT command with a connect string makes exactly one attempt to
    connect, to the host and port and with the user and password that are
    written in it - a user without tenant keeping the tenant of the session -
    whether the host is written plainly, behind two slashes or as an IPv6
    address in brackets, and in every character set.  If it succeeds these are
    the connection's variables when the login script starts; if not, the error
    is reported and the user, the host and the port of the session are as they
    were before. *)
Theorem com_connect_attempts {net} `{Network net} (cs : CHARSET_INFO) (copt : connect_options) (cmd u p : list Z) (sl br : bool)
    (h q typed : list Z) (v : conn) (n : net) (user host : list Z) :
  ascii_compatible cs -> word cs cmd -> deref cmd <> "\"%chr -> connect_ok cs u p br h q ->
  (length (connect_string cmd u p sl br h q) <= 254)%nat -> (length p <= 127)%nat -> digits_value 0 q < 2 ^ 31 ->
  wait_flag copt = false -> current_user v = Some user -> current_host_success v = Some host ->
  let port := digits_value 0 q in
  let charset := connector_charset my_default_csname (default_charset v) in
  let r := com_connect cs copt 1 (connect_string cmd u p sl br h q) typed v n in
  let '(ok, n1) := mysql_real_connect (mkAttempt (Some h) None (Some (full_user u user)) (Some p) port charset (socket5_proxy copt)) n in
  if ok then
    exists v1 n2, r = Some (let '(v', n') := login_script v1 n2 in (0, v', n', typed))
      /\ (connected v1, opt_rehash v1) = (true, opt_rehash v)
      /\ (current_user v1, opt_password v1, current_host_success v1, current_port_success v1)
         = (Some (full_user u user), Some p, Some h, port)
  else
    exists v1, r = Some (if ignore_errors copt then -1 else 1, v1, put_connect_error n1, typed)
      /\ (connected v1, opt_rehash v1) = (false, opt_rehash v)
      /\ (current_user v1, current_host_success v1, current_port_success v1) = (Some user, Some host, current_port_success v).
Proof.
  intros Hcs Hcmd Hb Hok Hlen Hl Hport Hw Hu Hh port charset. pose proof (no_nul_decimal q (proj2 (ok_port _ _ _ _ _ _ Hok))) as Hnn.
  cbn zeta. unfold com_connect. rewrite Hu, Hh. rewrite take_ge by done. rewrite rewrite_connect_string by done.
  change (1 =? -1) with false. change (1 =? 1) with true. cbn iota.
  rewrite (by_connect_string_vars cs cmd u p sl br h q) by done. unfold sql_connect. change (100 =? 100) with true. cbn [negb andb connect_loop].
  unfold sql_real_connect, do_connect, make_attempt. rewrite Hw. conn_norm. rewrite Z.mod_small by (unfold port in *; lia).
  fold charset. fold port. destruct (mysql_real_connect _ n) as [ok n1]. destruct ok.
  - change (0 <=? 0) with true. cbn iota. conn_norm. cbn [andb negb default].
    unfold after_connect, get_current_db. conn_norm.
    assert (int32 port = port) as -> by (unfold int32, port in *; rewrite Z.mod_small; lia).
    set (n2 := if negb _ then _ else _). destruct (one_database copt); [|destruct (query_value _ n2) as [db n3]]; conn_norm;
      (destruct (login_script _ _) as [v' n'] eqn:E; eexists _, _; rewrite E; done).
  - cbn [negb orb]. unfold after_connect. destruct (ignore_errors copt); cbn; eexists; done.
Qed.

(** A network that records what it is asked for; the password "secret" is
    right. *)
Record tape := mkTape { tried : list attempt; tried_lists : list (list (list Z * Z)); queries : list (list Z) }.

#[global] Instance tape_network : Network tape := {
  mysql_real_connect a t := (bool_decide (a_password a = Some (str "secret")), mkTape (tried t ++ [a]) (tried_lists t) (queries t));
  ob_mysql_real_connect _ l a t :=
    (if bool_decide (a_password a = Some (str "secret")) then head l else None, mkTape (tried t) (tried_lists t ++ [l]) (queries t));
  connect_errno _ := 1045;
  put_connect_error t := t;
  put_service_error t := t;
  pause t := t;
  my_default_csname := str "utf8mb4";
  build_completion_hash _ t := t;
  oracle_mode _ := false;
  run_query q t := mkTape (tried t) (tried_lists t) (queries t ++ [q]);
  query_value _ t := (None, t);
  greet _ t := t;
  login_script v t := (v, t)
}.

Definition session : conn :=
  mkConn (Some (str "root@sys")) (Some (str "secret")) (Some (str "h0")) (Some (str "h0")) 2881 2881 None true false false true false (str "auto").

Definition fresh_tape : tape := mkTape [] [] [].

Definition plain_options : connect_options := mkConnectOptions false false false None None.

Lemma com_connect_attempts_witness :
  exists v1 n2,
    com_connect my_charset_latin1 plain_options 1 (str "conn test/secret@//[::1]:2883") [] session fresh_tape
    = Some (let '(v', n') := login_script (net := tape) v1 n2 in (0, v', n', []))
    /\ (connected v1, opt_rehash v1) = (true, true)
    /\ (current_user v1, opt_password v1, current_host_success v1, current_port_success v1)
       = (Some (str "test@sys"), Some (str "secret"), Some (str "::1"), 2883).
Proof.
  assert (Hcmd : word my_charset_latin1 (str "conn")) by (split; [discriminate|by repeat constructor]).
  assert (Hok : connect_ok my_charset_latin1 (str "test") (str "secret") true (str "::1") (str "2883")).
  { split; split_and!; try discriminate; try (by repeat constructor); apply (bool_decide_unpack _); vm_compute; exact I. }
  assert (Hl1 : (length (connect_string (str "conn") (str "test") (str "secret") true true (str "::1") (str "2883")) <= 254)%nat)
    by (apply Nat.leb_le; vm_compute; reflexivity).
  assert (Hl2 : (length (str "secret") <= 127)%nat) by (apply Nat.leb_le; vm_compute; reflexivity).
  pose proof (com_connect_attempts my_charset_latin1 plain_options (str "conn") (str "test") (str "secret") true true (str "::1") (str "2883")
           [] session fresh_tape (str "root@sys") (str "h0") latin1_ascii_compatible Hcmd ltac:(discriminate) Hok Hl1 Hl2
           eq_refl eq_refl eq_refl eq_refl) as H.
  exact H.
Defined.

(** A session through a socket, which needs no name. *)
Definition nameless : conn :=
  mkConn None None None (Some []) 0 0 None true false false true false (str "auto").

Definition variables (r : option (Z * conn * tape * list Z)) :=
  match r with
  | Some (error, v, t, _) => Some (error, current_user v, opt_password v, current_host v, map a_user (tried t), connected v, queries t)
  | None => None
  end.

(** What the CONNECT command leaves behind: after a failed attempt the
    password and the host used for reconnecting are those of the failed one,
    while the user is that of the session; a port of more than 64 bits changes
    user, password and host although nothing is attempted; a password of 128
    bytes is written beyond the buffer for it; without a current database the
    client sends [use (null)]; and in a session without the name of a user,
    both CONNECT and the automatic reconnect copy a string from NULL. *)
Theorem com_connect_leftovers :
  let run line := com_connect my_charset_latin1 plain_options 1 (str line) [] session fresh_tape in
  variables (run "conn u@t/wrong@h1:1"%string)
    = Some (1, Some (str "root@sys"), Some (str "wrong"), Some (str "h1"), [Some (str "u@t")], false, [])
  /\ variables (run "conn u@t/p@h1:99999999999999999999"%string)
    = Some (1, Some (str "u@t"), Some (str "p"), Some (str "h1"), [], true, [])
  /\ com_connect my_charset_latin1 plain_options 1 (connect_string (str "conn") (str "u") (replicate 128 "x"%chr) false false (str "h") (str "1"))
       [] session fresh_tape = None
  /\ variables (run "conn u@t/secret@h1:1"%string)
    = Some (0, Some (str "u@t"), Some (str "secret"), Some (str "h1"), [Some (str "u@t")], true, [str "use (null)"])
  /\ com_connect my_charset_latin1 plain_options 1 (str "conn u@t/secret@h1:1") [] nameless fresh_tape = None
  /\ com_connect_again plain_options 1 nameless fresh_tape = None.
Proof. split_and!; vm_compute; reflexivity. Qed.

(** ** Lists of hosts are parsed as written *)

(** A host, whether it is written in brackets, and its port. *)
Record host_entry := mkHost { he_bracketed : bool; he_host : list Z; he_port : list Z }.

Definition render_host (e : host_entry) : list Z :=
  (if he_bracketed e then "["%chr :: he_host e ++ ["]"%chr] else he_host e) ++ ":"%chr :: he_port e.

Fixpoint render_hosts (es : list host_entry) : list Z :=
  match es with
  | [] => []
  | [e] => render_host e
  | e :: es' => render_host e ++ ","%chr :: render_hosts es'
  end.

(** A byte without a meaning of its own, between brackets or not. *)
Definition plain_host_char (br : bool) (c : Z) : Prop :=
  c <> 0 /\ c <> "["%chr /\ (if br then c <> "]"%chr else c <> ":"%chr /\ c <> ","%chr).

Record host_ok (e : host_entry) : Prop := {
  host_chars : Forall (plain_host_char (he_bracketed e)) (he_host e);
  host_port : Forall (fun c => is_decimal c = true) (he_port e);
  host_port_positive : 0 < digits_value 0 (he_port e)
}.

Lemma at_next pre c t : at_ (pre ++ c :: t) (length pre) = c.
Proof. by rewrite at_app_length. Qed.

Lemma insert_next pre (c x : Z) t : <[length pre := x]> (pre ++ c :: t) = pre ++ x :: t.
Proof. by rewrite insert_app_r_alt, Nat.sub_diag by lia. Qed.

Lemma length_snoc pre (c : Z) : length (pre ++ [c]) = S (length pre).
Proof. rewrite length_app. cbn. lia. Qed.

Lemma cons_snoc pre (c : Z) t : pre ++ c :: t = (pre ++ [c]) ++ t.
Proof. by rewrite <-app_assoc. Qed.

(** A plain byte is passed over. *)
Lemma host_char_plain pre c t mh br m : plain_host_char br c ->
  add_host (host_char (length pre) (mkHosts (pre ++ c :: t) mh None br m)) = mkHosts (pre ++ c :: t) mh None br m.
Proof.
  intros (H0 & Hb & Hc). unfold host_char. cbn [buf in_string]. rewrite at_next, (proj2 (Z.eqb_neq c "["%chr)) by done.
  destruct br; cbn [negb andb].
  - rewrite (proj2 (Z.eqb_neq c "]"%chr)), !andb_false_r by done. by destruct mh.
  - destruct Hc as [H1 H2]. rewrite (proj2 (Z.eqb_neq c ":"%chr)), (proj2 (Z.eqb_neq c ","%chr)), andb_false_r by done. by destruct mh.
Qed.

Lemma hosts_step pre c t mh mp br m fuel : c <> 0 ->
  hosts_loop (S fuel) (length pre) (mkHosts (pre ++ c :: t) mh mp br m)
  = hosts_loop fuel (length (pre ++ [c])) (add_host (host_char (length pre) (mkHosts (pre ++ c :: t) mh mp br m))).
Proof. intros H. cbn [hosts_loop buf]. by rewrite at_next, (proj2 (Z.eqb_neq c 0)), length_snoc. Qed.

Lemma hosts_skip a : forall pre rest mh br m fuel, Forall (plain_host_char br) a ->
  hosts_loop (length a + fuel) (length pre) (mkHosts (pre ++ a ++ rest) mh None br m)
  = hosts_loop fuel (length (pre ++ a)) (mkHosts ((pre ++ a) ++ rest) mh None br m).
Proof.
  induction a as [|c a IH]; intros pre rest mh br m fuel Ha; [by rewrite app_nil_r|].
  apply Forall_cons in Ha as [Hc Ha]. cbn [length Nat.add app]. rewrite hosts_step by apply Hc.
  rewrite host_char_plain by done. rewrite (cons_snoc pre c (a ++ rest)), IH by done. by rewrite <-(cons_snoc pre c a).
Qed.

(** The number in front of the end or of a comma. *)
Lemma atoi_port q t : q <> [] -> Forall (fun c => is_decimal c = true) q -> is_decimal (deref t) = false ->
  atoi (cstr (q ++ t)) = digits_value 0 q.
Proof.
  intros Hne Hq Ht.
  assert (Hd : forall acc, digits_value acc (cstr (q ++ t)) = digits_value acc q).
  { clear Hne. induction Hq as [|c q Hc _ IH]; intros acc.
    - destruct t as [|c t]; [done|]. unfold cstr. cbn [app strlen]. destruct (c =? 0); [done|]. cbn in *. by rewrite Ht.
    - cbn [app digits_value]. rewrite Hc. unfold cstr in *. cbn [strlen].
      assert ((c =? 0) = false) as -> by (apply Z.eqb_neq; intros ->; done). cbn [take digits_value]. rewrite Hc. apply IH. }
  destruct q as [|c q]; [done|]. apply Forall_cons in Hq as [Hc _].
  assert (Hn : c <> 0 /\ c_isspace c = false /\ c <> "-"%chr /\ c <> "+"%chr).
  { unfold is_decimal, c_isspace in *. split_and!; lia. }
  destruct Hn as (H0 & Hs & Hm & Hp). rewrite <-Hd. unfold atoi, cstr. cbn [app strlen]. rewrite (proj2 (Z.eqb_neq c 0)) by done.
  cbn [take skip_while]. rewrite (proj2 (Z.eqb_neq c 0)), Hs by done. cbn [deref nth].
  by rewrite (proj2 (Z.eqb_neq c "-"%chr)), (proj2 (Z.eqb_neq c "+"%chr)) by done.
Qed.

(** What a parsed entry leaves in the buffer, and the offset of its host. *)
Definition cut_host (e : host_entry) : list Z :=
  (if he_bracketed e then "["%chr :: he_host e ++ [0] else he_host e) ++ 0 :: he_port e.

Definition host_offset (pre : list Z) (e : host_entry) : nat := (length pre + (if he_bracketed e then 1 else 0))%nat.

Lemma colon_adds pre h q t m fuel : q <> [] -> Forall (fun c => is_decimal c = true) q -> 0 < digits_value 0 q ->
  is_decimal (deref t) = false ->
  hosts_loop (S (length q + fuel)) (length pre) (mkHosts (pre ++ ":"%chr :: q ++ t) (Some h) None false m)
  = hosts_loop fuel (length (pre ++ 0 :: q)) (mkHosts ((pre ++ 0 :: q) ++ t) None None false (m ++ [(h, digits_value 0 q)])).
Proof.
  intros Hne Hq Hpos Ht. rewrite hosts_step by done.
  assert (Hs : add_host (host_char (length pre) (mkHosts (pre ++ ":"%chr :: q ++ t) (Some h) None false m))
    = mkHosts ((pre ++ [0]) ++ q ++ t) None None false (m ++ [(h, digits_value 0 q)])).
  { unfold host_char. cbn [buf in_string]. rewrite at_next. cbn -[add_host]. unfold add_host. cbn [myhost myport buf in_string mhost].
    rewrite insert_next, cons_snoc, <-(length_snoc pre 0), drop_app_length, atoi_port by done.
    by rewrite (proj2 (Z.ltb_lt _ _)). }
  rewrite Hs. replace (length (pre ++ [":"%chr])) with (length (pre ++ [0])) by by rewrite !length_snoc.
  rewrite hosts_skip; [by rewrite <-(cons_snoc pre 0)|]. eapply Forall_impl; [exact Hq|].
  cbn. intros c Hc. unfold is_decimal, plain_host_char in *. split_and!; lia.
Qed.

Lemma host_entry_parsed e pre t m fuel : host_ok e -> is_decimal (deref t) = false ->
  hosts_loop (length (render_host e) + fuel) (length pre) (mkHosts (pre ++ render_host e ++ t) (Some (length pre)) None false m)
  = hosts_loop fuel (length (pre ++ cut_host e))
      (mkHosts ((pre ++ cut_host e) ++ t) None None false (m ++ [(host_offset pre e, digits_value 0 (he_port e))])).
Proof.
  destruct e as [br h q]. intros [Hh Hq Hpos] Ht. cbn [he_bracketed he_host he_port] in *.
  assert (Hne : q <> []) by (intros ->; cbn in Hpos; lia).
  unfold render_host, cut_host, host_offset. cbn [he_bracketed he_host he_port]. destruct br.
  - cbn [app length Nat.add]. rewrite hosts_step by done.
    assert (Hs : add_host (host_char (length pre) (mkHosts (pre ++ "["%chr :: ((h ++ ["]"%chr]) ++ ":"%chr :: q) ++ t) (Some (length pre)) None false m))
      = mkHosts ((pre ++ ["["%chr]) ++ h ++ "]"%chr :: ":"%chr :: q ++ t) (Some (length (pre ++ ["["%chr]))) None true m).
    { unfold host_char. cbn [buf]. rewrite at_next. cbn -[add_host]. by rewrite length_snoc, <-!app_assoc. }
    rewrite Hs. replace (length ((h ++ ["]"%chr]) ++ ":"%chr :: q) + fuel)%nat with (length h + S (S (length q + fuel)))%nat
      by (rewrite !length_app; cbn [length]; lia).
    rewrite hosts_skip by done. rewrite hosts_step by done. set (p1 := (pre ++ ["["%chr]) ++ h).
    assert (Hs2 : forall r, add_host (host_char (length p1) (mkHosts (p1 ++ "]"%chr :: r) (Some (length (pre ++ ["["%chr]))) None true m))
      = mkHosts ((p1 ++ [0]) ++ r) (Some (length (pre ++ ["["%chr]))) None false m).
    { intros r. unfold host_char. cbn [buf in_string]. rewrite at_next. cbn -[add_host]. by rewrite insert_next, cons_snoc. }
    rewrite Hs2. replace (length (p1 ++ ["]"%chr])) with (length (p1 ++ [0])) by by rewrite !length_snoc.
    rewrite colon_adds by done. unfold p1. rewrite length_snoc, Nat.add_1_r. by app_norm.
  - rewrite length_app. cbn [length]. rewrite <-!app_assoc, <-Nat.add_assoc. rewrite hosts_skip by done. cbn [app Nat.add].
    rewrite colon_adds by done. rewrite Nat.add_0_r. by app_norm.
Qed.

Fixpoint cut_hosts (es : list host_entry) : list Z :=
  match es with
  | [] => []
  | [e] => cut_host e
  | e :: es' => cut_host e ++ ","%chr :: cut_hosts es'
  end.

Fixpoint host_offsets (pre : list Z) (es : list host_entry) : list (nat * Z) :=
  match es with
  | [] => []
  | e :: es' => (host_offset pre e, digits_value 0 (he_port e)) :: host_offsets (pre ++ cut_host e ++ [","%chr]) es'
  end.

Lemma hosts_parsed es : es <> [] -> Forall host_ok es -> forall pre m fuel,
  hosts_loop (length (render_hosts es) + S fuel) (length pre) (mkHosts (pre ++ render_hosts es) (Some (length pre)) None false m)
  = mkHosts (pre ++ cut_hosts es) None None false (m ++ host_offsets pre es).
Proof.
  intros Hne Hes. induction Hes as [|e es He Hes IH]; [done|]. intros pre m fuel. destruct es as [|e' es].
  - cbn [render_hosts cut_hosts host_offsets]. rewrite <-(app_nil_r (render_host e)) at 2. rewrite host_entry_parsed by done.
    rewrite app_nil_r. cbn [hosts_loop buf]. assert (at_ (pre ++ cut_host e) (length (pre ++ cut_host e)) = 0) as ->.
    { unfold at_. by rewrite nth_overflow. }
    done.
  - change (render_hosts (e :: e' :: es)) with (render_host e ++ ","%chr :: render_hosts (e' :: es)).
    change (cut_hosts (e :: e' :: es)) with (cut_host e ++ ","%chr :: cut_hosts (e' :: es)).
    rewrite length_app. cbn [length]. rewrite <-Nat.add_assoc, host_entry_parsed by done. cbn [Nat.add].
    rewrite hosts_step by done. set (p1 := pre ++ cut_host e). set (m1 := m ++ _).
    assert (Hs : forall r, add_host (host_char (length p1) (mkHosts (p1 ++ ","%chr :: r) None None false m1))
      = mkHosts ((p1 ++ [","%chr]) ++ r) (Some (length (p1 ++ [","%chr]))) None false m1).
    { intros r. unfold host_char. cbn [buf in_string]. rewrite at_next. cbn -[add_host]. by rewrite length_snoc, cons_snoc. }
    rewrite Hs, (IH ltac:(done) (p1 ++ [","%chr]) m1 fuel). unfold p1, m1. rewrite <-(app_assoc m). cbn [app host_offsets].
    f_equal; [by app_norm|]. by rewrite !app_assoc.
Qed.

Lemma cut_hosts_read es : Forall host_ok es -> forall pre,
  map (fun o => (cstr (drop (fst o) (pre ++ cut_hosts es)), snd o)) (host_offsets pre es)
  = map (fun e => (he_host e, digits_value 0 (he_port e))) es.
Proof.
  intros Hes. induction Hes as [|e es He Hes IH]; intros pre; [done|]. cbn [host_offsets map]. f_equal.
  - cbn [fst snd]. f_equal. assert (Hc : exists r, drop (host_offset pre e) (pre ++ cut_hosts (e :: es)) = he_host e ++ 0 :: r).
    { assert (exists t, cut_hosts (e :: es) = cut_host e ++ t) as [t ->] by (destruct es; [exists []; cbn; by rewrite app_nil_r|by eexists]).
      unfold host_offset, cut_host. destruct (he_bracketed e).
      - rewrite drop_app_ge, Nat.add_comm, Nat.add_sub by lia. eexists. cbn [app]. rewrite drop_1_cons. app_norm. reflexivity.
      - rewrite Nat.add_0_r, drop_app_length. eexists. app_norm. reflexivity. }
    destruct Hc as [r ->]. assert (Hz : strlen (he_host e ++ 0 :: r) = length (he_host e)); [|unfold cstr; by rewrite Hz, take_app_length].
    pose proof (host_chars _ He) as Hh. induction Hh as [|c h (Hc & _) _ IHh]; [done|]. cbn [app strlen length].
    by rewrite (proj2 (Z.eqb_neq c 0)), IHh.
  - destruct es as [|e' es]; [done|]. rewrite <-(IH (pre ++ cut_host e ++ [","%chr])). apply map_ext. intros o. do 3 f_equal.
    change (cut_hosts (e :: e' :: es)) with (cut_host e ++ ","%chr :: cut_hosts (e' :: es)). by app_norm.
Qed.

(** A list of at least two hosts is parsed as it is written; a host in brackets
    may contain colons and commas. *)
Lemma parse_multi_host_entries (es : list host_entry) :
  (2 <= length es)%nat -> Forall host_ok es ->
  parse_multi_host (render_hosts es) = map (fun e => (he_host e, digits_value 0 (he_port e))) es.
Proof.
  intros Hl Hes. unfold parse_multi_host. destruct es as [|e [|e' es]]; cbn in Hl; [lia|lia|].
  rewrite bool_decide_eq_true_2 by (cbn [render_hosts]; set_solver).
  pose proof (hosts_parsed (e :: e' :: es) ltac:(done) Hes [] [] 0) as Hs. cbn [app] in Hs.
  rewrite Nat.add_comm in Hs. cbn [Nat.add length] in Hs. rewrite Hs. apply (cut_hosts_read _ Hes []).
Qed.


Definition two_hosts : list host_entry := [mkHost false (str "10.0.0.1") (str "2881"); mkHost true (str "::1") (str "2882")].

Definition cluster_session : conn :=
  mkConn (Some (str "root@sys")) (Some (str "secret")) (Some (str "10.0.0.1:2881,[::1]:2882")) (Some (str "::1")) 2881 2882 None true
    false false false false (str "auto").


(** ** Tenant and cluster *)

(** A byte without a meaning of its own in the name of a user. *)
Definition plain_name (c : Z) : Prop :=
  c <> c_dquote /\ c <> "'"%chr /\ c <> "@"%chr /\ c <> "#"%chr /\ c <> ":"%chr.

Lemma name_state_plain c s : plain_name c -> name_state c s = (s, false).
Proof.
  intros (H1 & H2 & H3 & H4 & H5). unfold name_state, is_either_quote.
  by rewrite (proj2 (Z.eqb_neq _ _) H1), (proj2 (Z.eqb_neq _ _) H2), (proj2 (Z.eqb_neq _ _) H3), (proj2 (Z.eqb_neq _ _) H4),
    (proj2 (Z.eqb_neq _ _) H5).
Qed.

Lemma name_loop_plain tl cl a : forall s p, Forall plain_name a ->
  (in_tenant s = true -> in_clust s = false) ->
  name_loop tl cl s (a ++ p)
  = name_loop tl cl (mkNames (if in_tenant s then tenant s ++ take (tl - length (tenant s)) a else tenant s)
                             (if in_clust s then clust s ++ take (cl - length (clust s)) a else clust s)
                             (in_tenant s) (in_clust s) (quto s)) p.
Proof.
  induction a as [|c a IH]; intros s p Ha Hx.
  { rewrite !take_nil, !app_nil_r. by destruct s as [? ? [] []]. }
  apply Forall_cons in Ha as [Hc Ha]. cbn [app name_loop]. rewrite name_state_plain by done.
  destruct Hc as (_ & _ & H3 & H4 & _). rewrite (proj2 (Z.eqb_neq _ _) H3), (proj2 (Z.eqb_neq _ _) H4). cbn [negb].
  rewrite !andb_true_r, IH by done. cbn [tenant clust in_tenant in_clust quto].
  assert (Ht : forall l k, (if (length l <? k)%nat then l ++ [c] else l) ++ take (k - length (if (length l <? k)%nat then l ++ [c] else l)) a
    = l ++ take (k - length l) (c :: a)).
  { intros l k. destruct (Nat.ltb_spec (length l) k) as [Hk|Hk].
    - rewrite length_app. cbn [length]. replace (k - length l)%nat with (S (k - (length l + 1)))%nat by lia.
      cbn [take]. by rewrite <-app_assoc.
    - replace (k - length l)%nat with 0%nat by lia. by rewrite !take_0. }
  destruct s as [t k it ic q]. cbn [tenant clust in_tenant in_clust quto] in *.
  destruct it, ic; cbn [andb]; rewrite ?Ht; done.
Qed.

(** The tenant stands between [@] and [#], the cluster behind that; both are
    cut off at the size of the array. *)
Lemma get_tenant_clust_name_spec u t k tl cl : Forall plain_name u -> Forall plain_name t -> Forall plain_name k ->
  get_tenant_clust_name (u ++ "@"%chr :: t ++ "#"%chr :: k) tl cl = (take tl t, take cl k).
Proof.
  intros Hu Ht Hk. unfold get_tenant_clust_name. rewrite name_loop_plain by done. cbn [in_tenant in_clust tenant clust quto name_loop].
  cbn -[name_loop take]. rewrite name_loop_plain by done. cbn [in_tenant in_clust tenant clust quto length app].
  rewrite Nat.sub_0_r. set (tn := take tl t).
  change (name_loop tl cl (mkNames tn [] true false 0) ("#"%chr :: k)) with (name_loop tl cl (mkNames tn [] false true 0) k).
  rewrite <-(app_nil_r k) at 1 2. rewrite name_loop_plain by done. cbn [name_loop in_tenant in_clust tenant clust app length].
  by rewrite Nat.sub_0_r.
Qed.

(** The arrays of the prompt have 256 bytes, and the name may fill all of
    them, so that no NUL ends it. *)
Lemma tenant_not_terminated : length (fst (get_tenant_clust_name (str "u@" ++ replicate 300 "t"%chr) 256 0)) = 256%nat.
Proof. vm_compute. reflexivity. Qed.
