(* ===== verification/AddLine.v ===== *)
(** * The statement scanner (client/mysql.cc: add_line, execute_cmd,
    connect_mysql_tenant)

    [add_line] takes one line of input and adds it to the statement in
    [buffer]; it runs the client commands on the line and sends every
    statement that a delimiter ends.  The line is edited in place: the bytes
    that are kept move down to [out], while [pos] reads ahead of it.

    The functions that carry out the commands are reached through function
    pointers; they act on the state of the whole program, the type [world],
    of which the scanner itself reads the variables in [session].  They get
    private copies of the text of the command, so they do not change the
    line. *)

From S2P Require Import Prelude.
From S2P Require Import CString.
From S2P Require Import Charset.
From S2P Require Import CommandTable.
From S2P Require Import Comments.
From S2P Require Import CommandArgs.
From S2P Require Import Commands.

(** The global variables the scanner reads. *)
Record session := mkSession {
  vars : client;
  preserve_comments : bool;
  oracle_mode : bool;
  last_session_mode : bool;
  ansi_quotes : bool;            (* server_status & SERVER_STATUS_ANSI_QUOTES *)
  no_backslash_escapes : bool;   (* server_status & SERVER_STATUS_NO_BACKSLASH_ESCAPES *)
  last_execute_buffer : list Z
}.

(** What the scanner uses of the rest of the program. *)
Class Program (world : Type) := {
  sess : world -> session;
  (** [com->func(&buffer, line)] on the statement buffer: the value it
      returns, the state and the buffer after it. *)
  run : com_func -> world -> list Z -> option (list Z) -> Z * world * list Z;
  (** [com->func(&last_execute_buffer, line)]: here the buffer is itself one
      of the program's variables. *)
  run_last : com_func -> world -> option (list Z) -> Z * world;
  (** [put_info(message, INFO_ERROR)] and [put_info(message, INFO_INFO)] *)
  put_error : world -> list Z -> Z * world;
  put_message : world -> list Z -> world;
  (** the match of [pl_escape_sql_re] *)
  pl_escape_regexec : list Z -> bool
}.

Section scanner.

Context {world : Type} `{Program world}.

(** The local variables of the function. *)
Record scan := mkSt {
  mem : list Z;          (* the line and the NUL behind it *)
  pos : nat;
  out : nat;
  buffer : list Z;
  in_string : Z;
  ml_comment : bool;
  ss_comment : bool;
  need_space : bool;
  is_pl_escape_sql : bool;
  state : world
}.

Definition set_pos (s : scan) (p : nat) : scan :=
  mkSt (mem s) p (out s) (buffer s) (in_string s) (ml_comment s) (ss_comment s) (need_space s)
    (is_pl_escape_sql s) (state s).

(** [out[0] = c; out++] *)
Definition put (s : scan) (c : Z) : scan :=
  mkSt (<[out s := c]> (mem s)) (pos s) (S (out s)) (buffer s) (in_string s) (ml_comment s)
    (ss_comment s) (need_space s) (is_pl_escape_sql s) (state s).

Definition set_buffer (s : scan) (b : list Z) : scan :=
  mkSt (mem s) (pos s) (out s) b (in_string s) (ml_comment s) (ss_comment s) (need_space s)
    (is_pl_escape_sql s) (state s).

(** [if (out != line) { buffer.append(line, out - line); out = line; }] *)
Definition flush (s : scan) : scan :=
  if negb (out s =? 0)%nat then
    mkSt (mem s) (pos s) 0 (buffer s ++ take (out s) (mem s)) (in_string s) (ml_comment s)
      (ss_comment s) (need_space s) (is_pl_escape_sql s) (state s)
  else s.

Definition set_in_string (s : scan) (c : Z) : scan :=
  mkSt (mem s) (pos s) (out s) (buffer s) c (ml_comment s) (ss_comment s) (need_space s)
    (is_pl_escape_sql s) (state s).

Definition set_ml_comment (s : scan) (b : bool) : scan :=
  mkSt (mem s) (pos s) (out s) (buffer s) (in_string s) b (ss_comment s) (need_space s)
    (is_pl_escape_sql s) (state s).

Definition set_ss_comment (s : scan) (b : bool) : scan :=
  mkSt (mem s) (pos s) (out s) (buffer s) (in_string s) (ml_comment s) b (need_space s)
    (is_pl_escape_sql s) (state s).

Definition set_need_space (s : scan) (b : bool) : scan :=
  mkSt (mem s) (pos s) (out s) (buffer s) (in_string s) (ml_comment s) (ss_comment s) b
    (is_pl_escape_sql s) (state s).

Definition set_pl (s : scan) (b : bool) : scan :=
  mkSt (mem s) (pos s) (out s) (buffer s) (in_string s) (ml_comment s) (ss_comment s) (need_space s)
    b (state s).

Definition set_world (s : scan) (w : world) : scan :=
  mkSt (mem s) (pos s) (out s) (buffer s) (in_string s) (ml_comment s) (ss_comment s) (need_space s)
    (is_pl_escape_sql s) w.

(** [pos[i]] *)
Definition rd (s : scan) (i : nat) : Z := nth (pos s + i) (mem s) 0.

(** The bytes from [pos] on. *)
Definition ahead (s : scan) : list Z := drop (pos s) (mem s).

Definition vars_of (s : scan) : client := vars (sess (state s)).
Definition cs_of (s : scan) : CHARSET_INFO := charset_info (vars_of s).
Definition keep_comments (s : scan) : bool := preserve_comments (sess (state s)).
Definition oracle (s : scan) : bool := oracle_mode (sess (state s)).
Definition delim (s : scan) : list Z := delimiter (vars_of s).

Definition at_start (s : scan) : bool := (out s =? 0)%nat && bool_decide (buffer s = []).

Definition is_null {A} (o : option A) : bool := negb (found o).

(** How a turn of the loop ends: with [continue] or at the end of the body,
    with [break], or by returning 1 from the function. *)
Inductive turn := Next (s : scan) | Break (s : scan) | Quit (s : scan).

(** [while (length--) out++[0] = pos++[0]] *)
Fixpoint copy (n : nat) (s : scan) : scan :=
  match n with
  | O => s
  | S n' => copy n' (set_pos (put s (rd s 0)) (S (pos s)))
  end.

(** Calling a command, or sending the statement when there is none. *)
Definition call (f : com_func) (s : scan) (line : option (list Z)) : Z * scan :=
  let '(r, w, b) := run f (state s) (buffer s) line in
  (r, set_buffer (set_world s w) b).

Definition run_buffer (s : scan) : Z * scan :=
  match find_command (vars_of s) (cstr (buffer s)) with
  | Some (com, cmdstr) =>
      match func com with
      | Some f => call f s (Some cmdstr)
      | None => (0, s)
      end
  | None => call COM_GO s None
  end.

(** [pos[0] == delimiter[0] && is_prefix(pos + 1, delimiter + 1)] *)
Definition at_delimiter (d p : list Z) : bool :=
  (deref p =? deref d) && is_prefix (drop 1 p) (drop 1 d).

(** The branch of a backslash outside of strings with escapes. *)
Definition backslash (is_cmd : bool) (s : scan) : turn :=
  let s := set_pos s (S (pos s)) in
  let inchar := rd s 0 in
  if inchar =? 0 then Break s
  else if negb (in_string s =? 0) || (inchar =? "N"%chr) then Next (put (put s "\"%chr) inchar)
  else if oracle s && (is_pl_escape_sql s || negb is_cmd) then Next (put (put s "\"%chr) inchar)
  else
    match find_command_char (vars_of s) inchar with
    | Some com =>
        match func com with
        | None => Next s
        | Some f =>
            let s := flush s in
            let '(r, s) := call f s (Some (cstr (drop (pos s - 1) (mem s)))) in
            if 0 <? r then Quit s
            else
              let s := if is_null (get_trim_comment_sql (buffer s) (Z.of_nat (length (buffer s))))
                       then set_buffer s [] else s in
              if takes_params com then
                let rest := drop (S (pos s)) (mem s) in
                if ss_comment s then
                  let n := (length rest - length (fst (skip_until at_close rest (Z.of_nat (length rest)))))%nat in
                  Next (set_pos s (pos s + n))
                else
                  let found := skip_until (at_delimiter (delim s)) rest (Z.of_nat (length rest)) in
                  let p := (S (pos s) + (length rest - length (fst found)))%nat in
                  if nth p (mem s) 0 =? 0 then Next (set_pos s (p - 1))
                  else Next (set_pos s (p + (length (delim s) - 1)))
              else Next s
        end
    | None =>
        let '(r, w) := put_error (state s) (str "Unknown command '\" ++ [inchar] ++ str "'.") in
        let s := set_world s w in
        if 0 <? r then Quit s else Next (put (put s "\"%chr) inchar)
    end.

(** [while (my_isspace(charset_info, pos[0])) out++[0] = pos++[0]] *)
Fixpoint copy_spaces (fuel : nat) (s : scan) : scan :=
  match fuel with
  | O => s
  | S fuel' =>
      if my_isspace (cs_of s) (rd s 0)
      then copy_spaces fuel' (set_pos (put s (rd s 0)) (S (pos s))) else s
  end.

(** The branch of a delimiter.  In Oracle mode a delimiter inside a block of
    procedural code belongs to the block. *)
Definition pl_check (s : scan) : bool :=
  oracle s && negb (is_user_specify_delimiter (vars_of s))
  && negb (is_prefix (str "/") (delim s)) && negb (is_pl_escape_sql s).

Definition keep_delimiter (s : scan) : scan :=
  set_pos (set_buffer (set_pl s true) (buffer s ++ take (length (delim s)) (ahead s)))
    (pos s + (length (delim s) - 1)).

(** The spaces after the delimiter go to the statement when comments are
    kept, *)
Definition skip_delimiter (s : scan) : scan :=
  let s := set_pos s (pos s + length (delim s)) in
  flush (if keep_comments s then copy_spaces (length (mem s)) s else s).

(** and so does a comment that follows it. *)
Definition trailing_comment (s : scan) : bool :=
  ((rd s 0 =? "#"%chr) && negb (oracle s))
  || ((rd s 0 =? "-"%chr) && (rd s 1 =? "-"%chr) && (oracle s || my_isspace (cs_of s) (rd s 2))).

Definition take_comment (s : scan) : scan :=
  if keep_comments s && trailing_comment s
  then set_pos (set_buffer s (buffer s ++ cstr (ahead s))) (pos s + strlen (ahead s))
  else s.

Definition send_statement (s : scan) : turn :=
  let '(r, s) := run_buffer (set_pos s (pos s - 1)) in
  if 0 <? r then Quit s
  else
    let s := if oracle s then set_in_string s 0 else s in
    Next (set_pl (set_buffer s []) false).

Definition end_statement (s : scan) : turn :=
  let check := pl_check s in
  let s := if check then flush s else s in
  if check && is_oracle_pl_escape_sql pl_escape_regexec (buffer s) (Z.of_nat (length (buffer s)))
  then Next (keep_delimiter s)
  else send_statement (take_comment (skip_delimiter s)).

(** [connect_mysql_tenant]: the delimiter at the end of the text is cut off
    and the rest given to CONNECT. *)
Definition trim_end (cs : CHARSET_INFO) (b : list Z) (s : nat) : nat :=
  let fix go (n e : nat) :=
    match n with
    | O => e
    | S n' => if negb (nth e b 0 =? 0) && (s <? e)%nat && my_isspace cs (nth e b 0)
              then go n' (e - 1)%nat else e
    end in
  go (length b) (length b - 1)%nat.

Definition connect_mysql_tenant (s : scan) : scan :=
  let b := buffer s in
  match get_trim_comment_sql b (Z.of_nat (length b)) with
  | None => s
  | Some str_ =>
      let start := (length b - length str_)%nat in
      let e := trim_end (cs_of s) b start in
      let b := if is_prefix (drop e b) (delim s) then <[e := 0]> b else b in
      let '(_, s) := call COM_CONNECT (set_buffer s b) (Some (cstr (drop start b))) in
      set_buffer s []
  end.

(** The branch of a comment up to the end of the line. *)
Definition line_comment (inchar : Z) (s : scan) : turn :=
  let s := flush s in
  let b := buffer s in
  let str_ := get_trim_comment_sql b (Z.of_nat (length b)) in
  let conn := match str_ with
              | Some p => (strncaseeq 4 p (str "conn") && (4 <? length b)%nat)
                          || (strncaseeq 7 p (str "connect") && (7 <? length b)%nat)
              | None => false
              end in
  if (inchar =? "#"%chr) && negb (oracle s) && conn then
    Break (connect_mysql_tenant (set_buffer s (b ++ cstr (ahead s))))
  else if keep_comments s then
    let started_with_nothing := (length b =? 0)%nat in
    let s := set_buffer s (b ++ cstr (ahead s)) in
    if started_with_nothing then
      let '(r, s) := call COM_GO s None in
      if 0 <? r then Quit s else Break (set_buffer s [])
    else Break s
  else Break s.

(** The branches that open and close a comment. *)
Definition open_comment (s : scan) : turn :=
  let s := if keep_comments s then
             let s := set_pos (put s (rd s 0)) (S (pos s)) in put s (rd s 0)
           else set_pos s (S (pos s)) in
  Next (flush (set_ml_comment s true)).

Definition close_comment (s : scan) : turn :=
  let s := if keep_comments s then
             let s := set_pos (put s (rd s 0)) (S (pos s)) in put s (rd s 0)
           else set_pos s (S (pos s)) in
  Next (set_need_space (flush (set_ml_comment s false)) true).

(** The last steps of an ordinary character: a space that is owed and the
    character itself. *)
Definition emit (inchar : Z) (s : scan) : turn :=
  let s := if inchar =? in_string s then set_in_string s 0
           else if negb (ml_comment s) && (in_string s =? 0) && is_quote inchar
                then set_in_string s inchar else s in
  if negb (ml_comment s) || keep_comments s then
    let s := if need_space s && negb (my_isspace (cs_of s) inchar) then put s " "%chr else s in
    Next (put (set_need_space s false) inchar)
  else Next s.

(** The branch of an ordinary character. *)
Definition add_char (inchar : Z) (s : scan) : turn :=
  let '(inchar, s) :=
    if (in_string s =? 0) && (inchar =? "/"%chr) && (rd s 1 =? "*"%chr)
       && ((rd s 2 =? "!"%chr) || (rd s 2 =? "+"%chr))
    then (inchar, set_ss_comment s true)
    else if (in_string s =? 0) && ss_comment s && (inchar =? "*"%chr) && (rd s 1 =? "/"%chr) then
      let s := set_pos (put (set_ss_comment s false) (rd s 0)) (S (pos s)) in (rd s 0, s)
    else (inchar, s) in
  emit inchar s.

(** Whether the backslash at [pos] is an escape or a command. *)
Definition is_backslash (inchar : Z) (s : scan) : bool :=
  negb (ml_comment s) && (inchar =? "\"%chr) && negb (in_string s =? "`"%chr)
  && negb ((in_string s =? 34) && ansi_quotes (sess (state s)))
  && negb (negb (in_string s =? 0)
           && (oracle s || no_backslash_escapes (sess (state s)))).

Definition is_delimiter (is_slash : bool) (end_of_line : nat) (s : scan) : bool :=
  negb (ml_comment s)
  && ((negb (in_string s =? 0) && oracle s && (S (pos s) =? end_of_line)%nat) || (in_string s =? 0))
  && ((negb (is_pl_escape_sql s) && is_prefix (ahead s) (delim s))
      || (is_pl_escape_sql s && (rd s 0 =? "/"%chr) && is_slash)).

Definition is_line_comment (inchar : Z) (s : scan) : bool :=
  negb (ml_comment s) && (in_string s =? 0)
  && (((inchar =? "#"%chr) && negb (oracle s))
      || ((inchar =? "-"%chr) && (rd s 1 =? "-"%chr)
          && (oracle s || my_isspace (cs_of s) (rd s 2) || (rd s 2 =? 0) || at_start s))).

Definition is_open_comment (inchar : Z) (s : scan) : bool :=
  (in_string s =? 0) && (inchar =? "/"%chr) && (rd s 1 =? "*"%chr)
  && negb ((rd s 2 =? "!"%chr) || (rd s 2 =? "+"%chr)
           || ((rd s 2 =? "M"%chr) && (rd s 3 =? "!"%chr))).

Definition is_close_comment (inchar : Z) (s : scan) : bool :=
  ml_comment s && negb (ss_comment s) && (inchar =? "*"%chr) && (rd s 1 =? "/"%chr).

Definition mb_length (end_of_line : nat) (s : scan) : nat :=
  if use_mb (cs_of s) then ismbchar (cs_of s) (take (end_of_line - pos s) (ahead s)) else O.

(** The body of the loop, for a [pos] before the end of the line. *)
Definition body (is_slash is_cmd : bool) (end_of_line : nat) (s : scan) : turn :=
  let inchar := rd s 0 in
  if negb (keep_comments s) && my_isspace (cs_of s) inchar && at_start s then Next s
  else if negb (mb_length end_of_line s =? 0)%nat then
    let length := mb_length end_of_line s in
    if negb (ml_comment s) || keep_comments s then
      let s := copy length s in Next (set_pos s (pos s - 1))
    else Next (set_pos s (pos s + (length - 1)))
  else if is_backslash inchar s then backslash is_cmd s
  else if is_delimiter is_slash end_of_line s then end_statement s
  else if is_line_comment inchar s then line_comment inchar s
  else if is_open_comment inchar s then open_comment s
  else if is_close_comment inchar s then close_comment s
  else add_char inchar s.

(** The loop; every turn moves [pos] forward. *)
Fixpoint loop (fuel : nat) (is_slash is_cmd : bool) (end_of_line : nat) (s : scan) : option turn :=
  match fuel with
  | O => None
  | S fuel' =>
      if (pos s <? end_of_line)%nat then
        match body is_slash is_cmd end_of_line s with
        | Next s => loop fuel' is_slash is_cmd end_of_line (set_pos s (S (pos s)))
        | r => Some r
        end
      else Some (Break s)
  end.

(** What follows the loop: the rest of the line goes into the buffer, and the
    buffer may now be a command. *)
Definition finish (truncated : bool) (s : scan) : turn :=
  if at_start s then Break s
  else
    let add_n := negb truncated
                 && (negb (is_delimiter_command (mem s) (out s))
                     || negb (in_string s =? 0) || ml_comment s) in
    let s := if add_n then put s c_nl else s in
    let s := if negb (ml_comment s) || keep_comments s
             then set_buffer s (buffer s ++ take (out s) (mem s)) else s in
    if bool_decide (buffer s = []) then Break s
    else
      let tmpbuf := if add_n then <[(length (buffer s) - 1)%nat := 0]> (buffer s) else buffer s in
      match find_command (vars_of s) (cstr tmpbuf) with
      | Some (com, cmdstr) =>
          match func com with
          | Some f =>
              let '(r, w, _) := run f (state s) tmpbuf (Some cmdstr) in
              let s := set_world s w in
              if 0 <? r then Quit s else Break (set_buffer s [])
          | None => Break s
          end
      | None => Break s
      end.

(** [execute_cmd] on the statement buffer, and on the last statement. *)
Definition execute_cmd (w : world) (b : list Z) : bool * world * list Z :=
  let '(r, w, b) :=
    match find_command (vars (sess w)) (cstr b) with
    | Some (com, cmdstr) =>
        match func com with
        | Some f => run f w b (Some cmdstr)
        | None => (0, w, b)
        end
    | None => run COM_GO w b None
    end in
  (0 <? r, w, b).

Definition execute_last (w : world) : bool * world :=
  let '(r, w) :=
    match find_command (vars (sess w)) (cstr (last_execute_buffer (sess w))) with
    | Some (com, cmdstr) =>
        match func com with
        | Some f => run_last f w (Some cmdstr)
        | None => (0, w)
        end
    | None => run_last COM_GO w None
    end in
  (0 <? r, w).

(** The number of slashes that start an Oracle mode line. *)
Fixpoint slash_count (cs : CHARSET_INFO) (l : list Z) : nat :=
  match l with
  | [] => O
  | c :: l' =>
      if c =? "/"%chr then S (slash_count cs l')
      else if my_isspace cs c then slash_count cs l' else O
  end.

(** The variables that [add_line] changes for its caller. *)
Record input := mkInput {
  i_buffer : list Z;
  i_in_string : Z;
  i_ml_comment : bool;
  i_pl : bool;
  i_world : world
}.

Definition input_of (s : scan) : input :=
  mkInput (buffer s) (in_string s) (ml_comment s) (is_pl_escape_sql s) (state s).

(** A slash that is a command of its own in Oracle mode: [None] when the line
    is to be scanned. *)
Definition slash_command (is_slash : bool) (line : list Z) (i : input) : option (bool * input) :=
  let v := sess (i_world i) in
  if last_session_mode v
     && (negb (is_user_specify_delimiter (vars v)) || is_prefix (str "/") (delimiter (vars v))) then
    if is_slash && negb (bool_decide (i_buffer i = [])) then
      let '(quit, w, b) := execute_cmd (i_world i) (i_buffer i) in
      if quit then Some (true, mkInput b (i_in_string i) (i_ml_comment i) (i_pl i) w)
      else Some (false, mkInput [] 0 false false w)
    else if bool_decide (i_buffer i = [])
            && (is_slash || (1 <? slash_count (charset_info (vars v)) line)%nat) then
      if negb (bool_decide (last_execute_buffer v = [])) then
        let '(quit, w) := execute_last (i_world i) in
        if quit then Some (true, mkInput (i_buffer i) (i_in_string i) (i_ml_comment i) (i_pl i) w)
        else Some (false, mkInput (i_buffer i) 0 false false w)
      else Some (false, mkInput (i_buffer i) (i_in_string i) (i_ml_comment i) (i_pl i)
                   (put_message (i_world i) (str "SP2-0103: Nothing in SQL buffer to run.")))
    else None
  else None.

(** The whole function on a line: whether the client is to quit, and the
    variables after it.  The memory has one byte more than the line. *)
Definition add_line (line : list Z) (truncated : bool) (i : input) : option (bool * input) :=
  if (deref line =? 0) && bool_decide (i_buffer i = []) then Some (false, i)
  else
    let kind := is_cmd_line (charset_info (vars (sess (i_world i)))) line in
    let is_slash := match kind with IS_CMD_SLASH => true | _ => false end in
    let is_cmd := match kind with IS_CMD_LINE => true | _ => false end in
    match slash_command is_slash line i with
    | Some r => Some r
    | None =>
        let s := mkSt (line ++ [0]) 0 0 (i_buffer i) (i_in_string i) (i_ml_comment i) false false
                   (i_pl i) (i_world i) in
        match loop (S (length line)) is_slash is_cmd (length line) s with
        | None => None
        | Some (Quit s) => Some (true, input_of s)
        | Some (Next s) | Some (Break s) =>
            match finish truncated s with
            | Quit s => Some (true, input_of s)
            | Next s | Break s => Some (false, input_of s)
            end
        end
    end.

End scanner.

(** ** A small program around the scanner
    The commands that only concern the scanner, and a log of the statements
    that would be sent to the server. *)
Record recorder := mkRecorder {
  r_session : session;
  r_sent : list (list Z)
}.

Definition with_vars (s : session) (c : client) : session :=
  mkSession c (preserve_comments s) (oracle_mode s) (last_session_mode s) (ansi_quotes s)
    (no_backslash_escapes s) (last_execute_buffer s).

Definition with_last (s : session) (b : list Z) : session :=
  mkSession (vars s) (preserve_comments s) (oracle_mode s) (last_session_mode s) (ansi_quotes s)
    (no_backslash_escapes s) b.

Definition recorder_run (f : com_func) (w : recorder) (b : list Z) (line : option (list Z))
    : Z * recorder * list Z :=
  match f, line with
  | COM_GO, _ =>
      if bool_decide (b = []) then (0, w, b)
      else (0, mkRecorder (with_last (r_session w) b) (r_sent w ++ [b]), [])
  | COM_CLEAR, _ => (0, w, [])
  | COM_QUIT, _ => (1, w, b)
  | COM_DELIMITER, Some l =>
      (0, mkRecorder (with_vars (r_session w) (snd (com_delimiter (vars (r_session w)) l))) (r_sent w), b)
  | _, _ => (0, w, b)
  end.

#[global] Instance recorder_program : Program recorder := {|
  sess := r_session;
  run := recorder_run;
  run_last := fun f w line =>
    let '(r, w, b) := recorder_run f w (last_execute_buffer (r_session w)) line in
    (r, mkRecorder (with_last (r_session w) b) (r_sent w));
  put_error := fun w _ => (-1, w);
  put_message := fun w _ => w;
  pl_escape_regexec := fun _ => false
|}.
