(* ===== verification/AddLineSafe.v ===== *)
(** * The statement scanner edits its line safely and terminates

    The scanner writes the kept bytes into the very line it reads.  The
    invariant of its loop says that the write position stays behind the read
    position, with a byte of slack when a space is still owed, so that no
    unread byte is ever overwritten and no write leaves the line; and every
    turn moves the read position forward. *)

From stdpp Require Import relations.
From S2P Require Import Prelude.
From S2P Require Import CString.
From S2P Require Import Charset.
From S2P Require Import CommandTable.
From S2P Require Import Comments.
From S2P Require Import CommandArgs.
From S2P Require Import Commands.
From S2P Require Import AddLine.

(** What the scanner relies on in a character set: ASCII characters are
    single bytes and multi-byte characters lie within the text. *)
Record charset_ok (cs : CHARSET_INFO) : Prop := {
  cs_ascii : ascii_compatible cs;
  cs_mb_length : forall p, (ismbchar cs p <= length p)%nat;
  cs_mb_lead : forall p, deref p < 128 -> ismbchar cs p = O
}.

(** The promise of the rest of the program: the commands keep a usable
    delimiter and character set. *)
Class ProgramLaws (world : Type) `{Program world} (good : world -> Prop) := {
  good_delimiter : forall w, good w -> delimiter_ok (delimiter (vars (sess w)));
  good_charset : forall w, good w -> charset_ok (charset_info (vars (sess w)));
  good_run : forall f w b l, good w -> good (snd (fst (run f w b l)));
  good_run_last : forall f w l, good w -> good (snd (run_last f w l));
  good_put_error : forall w m, good w -> good (snd (put_error w m));
  good_put_message : forall w m, good w -> good (put_message w m)
}.

Section safe.

Context {world : Type} {good : world -> Prop} `{ProgramLaws world good}.
Context (line : list Z).

#[local] Abbreviation scan := (@AddLine.scan world).

(** [k] bytes can still be written before the unread ones. *)
Record Inv (k : nat) (s : scan) : Prop := {
  inv_length : length (mem s) = S (length line);
  inv_ahead : ahead s = drop (pos s) (line ++ [0]);
  inv_pos : (out s + k <= pos s)%nat;
  inv_line : (out s + k <= length line)%nat;
  inv_good : good (state s)
}.

Definition owed (s : scan) : nat := if need_space s then 1 else 0.

(** At the end of a turn, before the loop moves on. *)
Definition NextInv (s : scan) : Prop := Inv (owed s) (set_pos s (S (pos s))).

Lemma rd_line k s i : Inv k s -> rd s i = nth (pos s + i) (line ++ [0]) 0.
Proof.
  intros Hi. unfold rd. pose proof (inv_ahead _ _ Hi) as Ha. unfold ahead in Ha.
  rewrite <-!nth_skipn. by rewrite Ha.
Qed.

Lemma rd_nz_lt k s i : Inv k s -> rd s i <> 0 -> (pos s + i < length line)%nat.
Proof.
  intros Hi Hr. rewrite (rd_line k) in Hr by done.
  destruct (decide (pos s + i < length line)%nat) as [|Hge]; [done|]. exfalso. apply Hr.
  rewrite app_nth2 by lia. by destruct (pos s + i - length line)%nat as [|[|n]].
Qed.

Lemma Inv_le k k' s : Inv k s -> (k' <= k)%nat -> Inv k' s.
Proof. intros [] Hk. split; try done; lia. Qed.

Lemma put_inv k s c : Inv (S k) s -> Inv k (put s c).
Proof.
  intros [Hl Ha Hp Hli Hg]. split; cbn [put mem pos out state]; [| |lia|lia|done].
  - by rewrite length_insert.
  - unfold ahead. cbn [put mem pos]. rewrite drop_insert_lt by lia. done.
Qed.

Lemma advance_inv k n s p :
  Inv k s -> p = (pos s + n)%nat -> (p <= length line)%nat -> Inv (k + n) (set_pos s p).
Proof.
  intros [Hl Ha Hp Hli Hg] -> Hn. split; cbn [set_pos mem pos out state]; [done| |lia|lia|done].
  unfold ahead in *. cbn [set_pos mem pos]. by rewrite <-!drop_drop, Ha.
Qed.

Lemma skip_inv k s p : Inv k s -> (pos s <= p)%nat -> Inv k (set_pos s p).
Proof.
  intros [Hl Ha Hp Hli Hg] Hn. split; cbn [set_pos mem pos out state]; [done| |lia|lia|done].
  unfold ahead in *. cbn [set_pos mem pos]. replace p with (pos s + (p - pos s))%nat by lia.
  by rewrite <-!drop_drop, Ha.
Qed.

Lemma flush_inv k s : Inv k s -> Inv k (flush s).
Proof.
  intros [Hl Ha Hp Hli Hg]. unfold flush. destruct (out s =? 0)%nat eqn:E; cbn [negb]; [done|].
  split; cbn; [done|done|lia|lia|done].
Qed.

(** The invariant only concerns the line. *)
Lemma Inv_other k s s' :
  Inv k s -> mem s' = mem s -> pos s' = pos s -> out s' = out s -> good (state s') -> Inv k s'.
Proof. intros [Hl Ha Hp Hli Hg] Hm Hpo Ho Hg'. unfold ahead in *. split; unfold ahead; by rewrite ?Hm, ?Hpo, ?Ho. Qed.

Lemma call_inv k f s l : Inv k s -> Inv k (snd (call f s l)) /\ need_space (snd (call f s l)) = need_space s.
Proof.
  intros Hi. unfold call. pose proof (good_run f (state s) (buffer s) l (inv_good _ _ Hi)) as Hg.
  destruct (run f (state s) (buffer s) l) as [[r w] b]. cbn in Hg |- *.
  split; [|done]. by apply (Inv_other k s).
Qed.

Lemma run_buffer_inv k s :
  Inv k s -> Inv k (snd (run_buffer s)) /\ need_space (snd (run_buffer s)) = need_space s.
Proof.
  intros Hi. unfold run_buffer. destruct (find_command _ _) as [[com cmd]|]; [|by apply call_inv].
  destruct (func com); [by apply call_inv|done].
Qed.

Lemma flush_fields (s : scan) : pos (flush s) = pos s /\ need_space (flush s) = need_space s /\ state (flush s) = state s
  /\ mem (flush s) = mem s /\ ss_comment (flush s) = ss_comment s.
Proof. unfold flush. by destruct (negb _). Qed.

(** What is left of the invariant when the line is done with. *)
Record Done (s : scan) : Prop := {
  done_length : length (mem s) = S (length line);
  done_out : (out s <= length line)%nat;
  done_good : good (state s)
}.

Lemma Inv_Done k s : Inv k s -> Done s.
Proof. intros []. split; [done|lia|done]. Qed.

(** A turn whose end keeps the invariant and does not go back. *)
Definition turn_ok (s : scan) (t : turn) : Prop :=
  match t with
  | Next s' => NextInv s' /\ (pos s <= pos s')%nat
  | Break s' | Quit s' => Done s'
  end.

(** Going to the next byte gives room for one more. *)
Lemma NextInv_room k s :
  Inv k s -> (pos s < length line)%nat -> (owed s <= S k)%nat -> NextInv s.
Proof.
  intros Hi Hp Ho. unfold NextInv. apply (Inv_le (k + 1)); [|lia].
  by apply (advance_inv k 1); [|lia|lia].
Qed.

(** Two bytes kept for two bytes read: the escapes. *)
Lemma put2_next s c d :
  Inv (owed s) s -> (S (pos s) < length line)%nat ->
  turn_ok s (Next (put (put (set_pos s (S (pos s))) c) d)).
Proof.
  intros Hi Hp. split; [|cbn; lia]. unfold NextInv.
  change (set_pos (put (put (set_pos s (S (pos s))) c) d) _)
    with (put (put (set_pos s (S (S (pos s)))) c) d).
  apply put_inv, put_inv. change (owed _) with (owed s). cbn [put pos set_pos].
  apply (Inv_le (owed s + 2)); [|lia]. apply (advance_inv _ 2); [done|lia|lia].
Qed.

Lemma skip_until_length stop p n : (length (fst (skip_until stop p n)) <= length p)%nat.
Proof.
  revert n. induction p as [|c p IH]; intros n; cbn; [lia|].
  destruct ((c =? 0) || negb (0 <? n) || stop (c :: p)); cbn; [lia|]. specialize (IH (n - 1)). lia.
Qed.

Lemma skip_next k s s' p :
  Inv k s -> (owed s <= k)%nat -> (pos s' <= pos s)%nat -> (pos s <= p)%nat ->
  turn_ok s' (Next (set_pos s p)).
Proof.
  intros Hi Ho Hp Hpp. split; [|cbn; lia]. unfold NextInv.
  change (set_pos (set_pos s p) _) with (set_pos s (S p)). change (owed _) with (owed s).
  apply skip_inv; [|lia]. by apply (Inv_le k).
Qed.

Lemma backslash_ok is_cmd s :
  Inv (owed s) s -> (pos s < length line)%nat -> turn_ok s (backslash is_cmd s).
Proof.
  intros Hi Hp. unfold backslash. set (s1 := set_pos s (S (pos s))).
  assert (Hi1 : Inv (S (owed s)) s1).
  { apply (Inv_le (owed s + 1)); [|lia]. by apply (advance_inv _ 1); [|lia|lia]. }
  destruct (Z.eqb_spec (rd s1 0) 0) as [|Hnz]; [by apply (Inv_Done _ _ Hi1)|].
  apply (rd_nz_lt _ _ _ Hi1) in Hnz. cbn in Hnz. rewrite Nat.add_0_r in Hnz.
  destruct (_ || _); [by apply put2_next|].
  destruct (_ && _); [by apply put2_next|].
  destruct (find_command_char _ _) as [com|].
  - destruct (func com) as [f|]; [|by apply (skip_next _ s s _ Hi); lia].
    destruct (flush_fields s1) as (Hfp & Hfn & _).
    set (arg := Some _). destruct (call_inv _ f (flush s1) arg (flush_inv _ _ Hi1)) as [Hc Hcn].
    assert (Hcp : pos (snd (call f (flush s1) arg)) = S (pos s)).
    { unfold call. destruct (run _ _ _ _) as [[? ?] ?]. cbn. by rewrite Hfp. }
    destruct (call f (flush s1) arg) as [r s2]. cbn [snd] in *.
    assert (Ho : owed s2 = owed s) by (unfold owed; by rewrite Hcn, Hfn).
    destruct (0 <? r); [by apply (Inv_Done _ _ Hc)|].
    set (s3 := if is_null _ then _ else s2).
    assert (Inv (S (owed s)) s3 /\ owed s3 = owed s /\ pos s3 = S (pos s)) as (H3 & Ho3 & Hp3).
    { subst s3. destruct (is_null _); [|done]. split_and!; [|done..].
      apply (Inv_other _ s2); [done..|apply Hc]. }
    clearbody s3. destruct (takes_params com); [|].
    + destruct (ss_comment s3); [apply (skip_next _ s3 s _ H3); lia|].
      destruct (_ =? 0); apply (skip_next _ s3 s _ H3); lia.
    + replace s3 with (set_pos s3 (pos s3)) by (by destruct s3). apply (skip_next _ s3 s _ H3); lia.
  - pose proof (good_put_error (state s1) (str "Unknown command '\" ++ [rd s1 0] ++ str "'.")
                  (inv_good _ _ Hi)) as Hg.
    destruct (put_error _ _) as [r w]. cbn in Hg.
    assert (Inv (owed s) (set_world s w)) by (by apply (Inv_other _ s)).
    destruct (0 <? r).
    + change (set_world s1 w) with (set_pos (set_world s w) (S (pos s))).
      apply (Inv_Done (owed s)). apply skip_inv; [done|cbn; lia].
    + by apply (put2_next (set_world s w)).
Qed.

Lemma copy_inv n k s :
  Inv k s -> (pos s + n <= length line)%nat ->
  Inv k (copy n s) /\ pos (copy n s) = (pos s + n)%nat /\ need_space (copy n s) = need_space s.
Proof.
  revert s. induction n as [|n IH]; intros s Hi Hn; cbn [copy].
  { split_and!; [done|lia|done]. }
  destruct (IH (set_pos (put s (rd s 0)) (S (pos s)))) as (Hc & Hp & Hns).
  - change (set_pos (put s (rd s 0)) (S (pos s))) with (put (set_pos s (S (pos s))) (rd s 0)).
    apply put_inv. apply (Inv_le (k + 1)); [|lia]. by apply (advance_inv k 1); [|lia|lia].
  - cbn. lia.
  - cbn in Hp, Hns. split_and!; [done|lia|done].
Qed.

Lemma copy_spaces_inv fuel k s :
  Inv k s ->
  Inv k (copy_spaces fuel s) /\ (pos s <= pos (copy_spaces fuel s))%nat
  /\ need_space (copy_spaces fuel s) = need_space s.
Proof.
  revert s. induction fuel as [|fuel IH]; intros s Hi; cbn [copy_spaces]; [done|].
  destruct (my_isspace (cs_of s) (rd s 0)) eqn:Hsp; [|done].
  assert (pos s + 0 < length line)%nat as Hlt.
  { apply (rd_nz_lt k); [done|]. intros E. rewrite E in Hsp. unfold cs_of, vars_of in Hsp.
    by rewrite (ascii_isspace _ 0 false (cs_ascii _ (good_charset _ (inv_good _ _ Hi)))) in Hsp. }
  destruct (copy_inv 1 k s Hi ltac:(lia)) as (Hc & _). cbn [copy] in Hc.
  destruct (IH _ Hc) as (Hr & Hp & Hn). cbn in Hp, Hn. split_and!; [done|lia|done].
Qed.

Lemma delim_length k s : Inv k s -> (0 < length (delim s))%nat.
Proof.
  intros Hi. destruct (good_delimiter _ (inv_good _ _ Hi)) as (Hne & _).
  unfold delim, vars_of. destruct (delimiter _); [done|cbn; lia].
Qed.

(** The state moves forward, and owes no more than before. *)
Definition forward (k : nat) (s s' : scan) : Prop :=
  Inv k s' /\ need_space s' = need_space s /\ (pos s <= pos s')%nat.

Lemma forward_flush k s : Inv k s -> forward k s (flush s).
Proof.
  intros Hi. destruct (flush_fields s) as (Hp & Hn & _).
  split_and!; [by apply flush_inv|done|lia].
Qed.

Lemma forward_trans k s1 s2 s3 : forward k s1 s2 -> forward k s2 s3 -> forward k s1 s3.
Proof. intros (_ & Hn & Hp) (Hi & Hn' & Hp'). split_and!; [done|congruence|lia]. Qed.

Lemma skip_delimiter_ok k s :
  Inv k s -> forward k s (skip_delimiter s) /\ (pos s < pos (skip_delimiter s))%nat.
Proof.
  intros Hi. pose proof (delim_length _ _ Hi) as Hd. unfold skip_delimiter.
  set (s1 := set_pos s _). assert (Inv k s1) as H1 by (apply skip_inv; [done|lia]).
  set (s2 := if keep_comments s1 then _ else s1).
  assert (Inv k s2 /\ need_space s2 = need_space s /\ (pos s < pos s2)%nat) as (H2 & Hn2 & Hp2).
  { subst s2. destruct (keep_comments s1); [|split_and!; [done|done|subst s1; cbn; lia]].
    destruct (copy_spaces_inv (length (mem s1)) _ s1 H1) as (Hc & Hpc & Hn).
    split_and!; [done|done|subst s1; cbn in Hpc |- *; lia]. }
  clearbody s2. destruct (forward_flush k s2 H2) as (Hf & Hfn & Hfp).
  split; [split_and!; [done|congruence|lia]|lia].
Qed.

Lemma take_comment_ok k s : Inv k s -> forward k s (take_comment s).
Proof.
  intros Hi. unfold take_comment. destruct (_ && _); [|split_and!; [done|done|lia]].
  split_and!; [|done|cbn; lia]. apply skip_inv; [|cbn; lia].
  apply (Inv_other _ s); try done. apply Hi.
Qed.

Lemma run_buffer_set_pos (s : scan) p :
  run_buffer (set_pos s p) = (fst (run_buffer s), set_pos (snd (run_buffer s)) p).
Proof.
  unfold run_buffer, call. cbn [set_pos buffer state]. change (vars_of (set_pos s p)) with (vars_of s).
  destruct (find_command _ _) as [[com cmd]|].
  - destruct (func com); [|done]. by destruct (run _ _ _ _) as [[? ?] ?].
  - by destruct (run _ _ _ _) as [[? ?] ?].
Qed.

Lemma run_buffer_pos (s : scan) : pos (snd (run_buffer s)) = pos s.
Proof.
  unfold run_buffer, call. destruct (find_command _ _) as [[com cmd]|].
  - destruct (func com); [|done]. by destruct (run _ _ _ _) as [[? ?] ?].
  - by destruct (run _ _ _ _) as [[? ?] ?].
Qed.

Lemma send_statement_ok k s s0 :
  Inv k s -> (owed s <= k)%nat -> (pos s0 < pos s)%nat -> turn_ok s0 (send_statement s).
Proof.
  intros Hi Ho Hp. unfold send_statement. rewrite run_buffer_set_pos.
  destruct (run_buffer_inv k s Hi) as [Hr Hrn]. pose proof (run_buffer_pos s) as Hrp.
  destruct (run_buffer s) as [r s1]. cbn [fst snd] in *.
  destruct (0 <? r); [by destruct (Inv_Done _ _ Hr)|].
  set (s2 := if oracle _ then _ else _).
  assert (s2 = set_pos s1 (pos s - 1) \/ s2 = set_in_string (set_pos s1 (pos s - 1)) 0) as Hs2
    by (subst s2; destruct (oracle _); tauto).
  assert (Hs : need_space s2 = need_space s /\ pos s2 = (pos s - 1)%nat /\ mem s2 = mem s1
               /\ out s2 = out s1 /\ state s2 = state s1) by (by destruct Hs2 as [->| ->]; cbn; rewrite ?Hrn).
  destruct Hs as (Hn2 & Hp2 & Hm2 & Ho2 & Hw2). clearbody s2.
  split; [|cbn; lia]. unfold NextInv. cbn [set_pl set_buffer pos].
  replace (S (pos s2)) with (pos s) by lia.
  apply (Inv_le k); [|unfold owed in *; cbn; rewrite Hn2; done].
  apply (Inv_other _ s1); cbn; try done. rewrite Hw2. apply Hr.
Qed.

Lemma end_statement_ok s :
  Inv (owed s) s -> (pos s < length line)%nat -> turn_ok s (end_statement s).
Proof.
  intros Hi Hp. unfold end_statement. set (s1 := if pl_check s then flush s else s).
  assert (forward (owed s) s s1) as (H1 & Hn1 & Hp1).
  { subst s1. destruct (pl_check s); [by apply forward_flush|split_and!; [done|done|lia]]. }
  clearbody s1. pose proof (delim_length _ _ H1) as Hd. destruct (_ && _).
  - apply (skip_next (owed s) (set_buffer (set_pl s1 true) (buffer s1 ++ take (length (delim s1)) (ahead s1)))).
    + apply (Inv_other _ s1); try done. apply H1.
    + unfold owed. cbn. by rewrite Hn1.
    + cbn. lia.
    + cbn. lia.
  - destruct (skip_delimiter_ok _ _ H1) as ((H2 & Hn2 & _) & Hp2).
    destruct (take_comment_ok _ _ H2) as (H3 & Hn3 & Hp3).
    apply (send_statement_ok (owed s)); [done|unfold owed; by rewrite Hn3, Hn2, Hn1|lia].
Qed.

Lemma connect_ok k s : Inv k s -> Inv k (connect_mysql_tenant s).
Proof.
  intros Hi. unfold connect_mysql_tenant. destruct (get_trim_comment_sql _ _); [|done].
  set (s1 := set_buffer s _). set (arg := Some _).
  assert (Inv k s1) as H1 by (apply (Inv_other _ s); try done; apply Hi).
  destruct (call_inv k COM_CONNECT s1 arg H1) as [Hc _]. destruct (call _ _ _) as [r s2].
  apply (Inv_other _ s2); try done. apply Hc.
Qed.

Lemma line_comment_ok inchar s : Inv (owed s) s -> turn_ok s (line_comment inchar s).
Proof.
  intros Hi. unfold line_comment. apply flush_inv in Hi. set (s1 := flush s) in *.
  assert (Hb : forall b, Inv (owed s) (set_buffer s1 b)).
  { intros b. apply (Inv_other _ s1); try done. apply Hi. }
  destruct (_ && _); [by eapply Inv_Done, connect_ok|].
  destruct (keep_comments s1); [|by eapply Inv_Done].
  destruct (_ =? _)%nat; [|by eapply Inv_Done].
  destruct (call_inv _ COM_GO _ None (Hb (buffer s1 ++ cstr (ahead s1)))) as [Hc _].
  destruct (call _ _ _) as [r s2]. cbn [snd] in Hc.
  destruct (0 <? r); [by eapply Inv_Done|].
  apply (Inv_Done (owed s)), (Inv_other _ s2); try done. apply Hc.
Qed.

(** The two bytes of a comment sign, kept or not. *)
Lemma comment_sign_ok s (s' := if keep_comments s
                               then let s := set_pos (put s (rd s 0)) (S (pos s)) in put s (rd s 0)
                               else set_pos s (S (pos s))) :
  Inv (owed s) s -> (S (pos s) < length line)%nat ->
  Inv 1 (set_pos (flush s') (S (S (pos s)))) /\ pos (flush s') = S (pos s)
  /\ need_space (flush s') = need_space s.
Proof.
  intros Hi Hp. destruct (flush_fields s') as (Hfp & Hfn & Hfw & Hfm & _).
  assert (Hs' : pos s' = S (pos s) /\ need_space s' = need_space s /\ Inv (owed s) (set_pos s' (S (S (pos s))))).
  { subst s'. cbv zeta. destruct (keep_comments s); (split_and!; [done|done|]).
    - set (c := rd s 0). set (d := rd _ 0).
      change (set_pos (put (set_pos (put s c) (S (pos s))) d) (S (S (pos s))))
        with (put (put (set_pos s (S (S (pos s)))) c) d).
      apply put_inv, put_inv. apply (Inv_le (owed s + 2)); [|lia]. by apply (advance_inv _ 2); [|lia|lia].
    - change (set_pos (set_pos s ?p) ?q) with (set_pos s q). by apply skip_inv; [|lia]. }
  destruct Hs' as (Hps & Hns & His). split_and!; [|congruence|congruence].
  apply flush_inv in His as Hfl. destruct His as [Hl Ha Hpp Hli Hg].
  split; cbn [set_pos mem pos out state]; rewrite ?Hfm, ?Hfw; try done.
  - unfold ahead in *. cbn in *. by rewrite Hfm.
  - unfold flush. cbn in *. destruct (Nat.eqb_spec (out s') 0); cbn; lia.
  - unfold flush. cbn in *. destruct (Nat.eqb_spec (out s') 0); cbn; lia.
Qed.

Lemma open_comment_ok s :
  Inv (owed s) s -> (S (pos s) < length line)%nat -> turn_ok s (open_comment s).
Proof.
  intros Hi Hp. unfold open_comment. destruct (comment_sign_ok s Hi Hp) as (Hc & Hcp & Hcn).
  set (s' := if keep_comments s then _ else _) in *.
  replace (flush (set_ml_comment s' true)) with (set_ml_comment (flush s') true)
    by (unfold flush; cbn; by destruct (_ =? _)%nat).
  split; [|cbn; lia]. unfold NextInv. cbn [set_ml_comment pos]. rewrite Hcp.
  apply (Inv_le 1); [|unfold owed; by destruct (need_space _); lia].
  apply (Inv_other _ (set_pos (flush s') (S (S (pos s))))); try done. apply Hc.
Qed.

Lemma close_comment_ok s :
  Inv (owed s) s -> (S (pos s) < length line)%nat -> turn_ok s (close_comment s).
Proof.
  intros Hi Hp. unfold close_comment. destruct (comment_sign_ok s Hi Hp) as (Hc & Hcp & Hcn).
  set (s' := if keep_comments s then _ else _) in *.
  replace (flush (set_ml_comment s' false)) with (set_ml_comment (flush s') false)
    by (unfold flush; cbn; by destruct (_ =? _)%nat).
  split; [|cbn; lia]. unfold NextInv. cbn [set_need_space set_ml_comment pos]. rewrite Hcp.
  apply (Inv_other _ (set_pos (flush s') (S (S (pos s))))); try done. apply Hc.
Qed.

Lemma emit_ok inchar s s0 :
  Inv (owed s) s -> (pos s < length line)%nat -> (pos s0 <= pos s)%nat -> turn_ok s0 (emit inchar s).
Proof.
  intros Hi Hp Hp0. unfold emit. set (s1 := if inchar =? in_string s then _ else _).
  assert (Inv (owed s) s1 /\ need_space s1 = need_space s /\ pos s1 = pos s) as (H1 & Hn1 & Hp1).
  { subst s1. destruct (_ =? _); [|destruct (_ && _)]; (split_and!; [|done|done]); [..|done].
    all: apply (Inv_other _ s); try done; apply Hi. }
  clearbody s1. destruct (_ || _).
  - split; [|destruct (_ && _); cbn; lia]. unfold NextInv. cbn [owed put set_need_space need_space].
    set (s2 := if _ && _ then _ else s1).
    assert (Inv 0 s2 /\ pos s2 = pos s) as [H2 Hp2].
    { subst s2. destruct (need_space s1 && _) eqn:E; (split; [|done]).
      - apply andb_prop in E as [E _]. rewrite Hn1 in E. apply put_inv.
        replace 1%nat with (owed s) by (unfold owed; by rewrite E). done.
      - apply (Inv_le _ _ _ H1). lia. }
    clearbody s2.
    change (set_pos (put (set_need_space s2 false) inchar) ?p) with (put (set_need_space (set_pos s2 p) false) inchar).
    apply put_inv. cbn [put set_need_space pos].
    assert (Inv 1 (set_pos s2 (S (pos s2)))) as H3 by (by apply (advance_inv 0 1); [|lia|lia]).
    apply (Inv_other _ (set_pos s2 (S (pos s2)))); try done. apply H3.
  - split; [|lia]. apply (NextInv_room (owed s)); [done|lia|]. unfold owed. rewrite Hn1.
    destruct (need_space s); lia.
Qed.

Lemma add_char_ok inchar s :
  Inv (owed s) s -> (pos s < length line)%nat -> inchar = rd s 0 -> turn_ok s (add_char inchar s).
Proof.
  intros Hi Hp Hin. unfold add_char. destruct (_ && _ && _ && _).
  - apply (emit_ok inchar (set_ss_comment s true)); [|done|done].
    apply (Inv_other _ s); try done. apply Hi.
  - destruct (_ && _ && _ && _) eqn:E2; [|by apply emit_ok].
    apply andb_prop in E2 as [_ E2]. apply Z.eqb_eq in E2.
    assert (pos s + 1 < length line)%nat by (apply (rd_nz_lt _ _ _ Hi); by rewrite E2).
    destruct (copy_inv 1 (owed s) (set_ss_comment s false)) as (Hc & Hcp & Hcn); [|cbn; lia|].
    { apply (Inv_other _ s); try done. apply Hi. }
    cbn [copy] in Hc, Hcp, Hcn.
    set (s1 := set_pos (put (set_ss_comment s false) (rd s 0)) (S (pos s))).
    apply (emit_ok (rd s1 0) s1); [exact Hc|cbn; lia|cbn; lia].
Qed.

Lemma body_ok is_slash is_cmd s :
  Inv (owed s) s -> (pos s < length line)%nat ->
  turn_ok s (body is_slash is_cmd (length line) s).
Proof.
  intros Hi Hp. unfold body.
  destruct (_ && at_start s).
  { split; [|lia]. apply (NextInv_room (owed s)); [done|done|lia]. }
  destruct (Nat.eqb_spec (mb_length (length line) s) 0) as [|Hmb]; cbn [negb].
  - destruct (is_backslash _ s); [by apply backslash_ok|].
    destruct (is_delimiter _ _ s); [by apply end_statement_ok|].
    destruct (is_line_comment _ s); [by apply line_comment_ok|].
    destruct (is_open_comment _ s) eqn:Ho.
    { apply open_comment_ok; [done|]. unfold is_open_comment in Ho.
      rewrite !andb_true_iff, !Z.eqb_eq in Ho. destruct Ho as (((_ & _) & Ho) & _).
      enough (pos s + 1 < length line)%nat by lia. apply (rd_nz_lt _ _ _ Hi). by rewrite Ho. }
    destruct (is_close_comment _ s) eqn:Hc; [|by apply add_char_ok].
    apply close_comment_ok; [done|]. unfold is_close_comment in Hc.
    rewrite !andb_true_iff, !Z.eqb_eq in Hc. destruct Hc as (_ & Hc).
    enough (pos s + 1 < length line)%nat by lia. apply (rd_nz_lt _ _ _ Hi). by rewrite Hc.
  - assert (Hb : (pos s + mb_length (length line) s <= length line)%nat).
    { unfold mb_length in *. destruct (use_mb (cs_of s)); [|lia].
      pose proof (cs_mb_length _ (good_charset _ (inv_good _ _ Hi)) (take (length line - pos s) (ahead s))) as Hl.
      rewrite length_take in Hl. unfold cs_of, vars_of. lia. }
    destruct (_ || _).
    + destruct (copy_inv _ _ _ Hi Hb) as (Hc & Hcp & Hcn). split; [|cbn; lia].
      unfold NextInv. cbn [set_pos pos]. replace (S (pos (copy _ s) - 1)) with (pos (copy (mb_length (length line) s) s)) by lia.
      unfold owed. cbn [set_pos need_space]. rewrite Hcn.
      change (set_pos (set_pos ?t ?p) ?q) with (set_pos t q). by apply skip_inv; [|lia].
    + apply (skip_next (owed s) s s); [done|lia|lia|lia].
Qed.

Lemma loop_ok fuel is_slash is_cmd s :
  Inv (owed s) s -> (length line - pos s < fuel)%nat ->
  exists t, loop fuel is_slash is_cmd (length line) s = Some t
    /\ match t with Next _ => False | Break s' | Quit s' => Done s' end.
Proof.
  revert s. induction fuel as [|fuel IH]; intros s Hi Hf; [lia|]. cbn [loop].
  destruct (Nat.ltb_spec (pos s) (length line)) as [Hp|].
  - pose proof (body_ok is_slash is_cmd s Hi Hp) as Hb.
    destruct (body _ _ _ s) as [s'|s'|s']; [|by eexists..].
    destruct Hb as [Hn Hpp]. apply IH; [exact Hn|cbn; lia].
  - eexists. split; [done|]. by eapply Inv_Done.
Qed.

Lemma start_inv i : good (i_world i) ->
  Inv 0 (mkSt (line ++ [0]) 0 0 (i_buffer i) (i_in_string i) (i_ml_comment i) false false (i_pl i) (i_world i)).
Proof. intros Hg. split; cbn; rewrite ?length_app; cbn; [lia|done|lia|lia|done]. Qed.

Lemma call_find_good w b (r := match find_command (vars (sess w)) (cstr b) with
    | Some (com, cmdstr) => match func com with Some f => run f w b (Some cmdstr) | None => (0, w, b) end
    | None => run COM_GO w b None end) :
  good w -> good (snd (fst r)).
Proof.
  intros Hw. subst r. destruct (find_command _ _) as [[com cmd]|]; [destruct (func com); [|done]|];
    by apply good_run.
Qed.

End safe.

Section add_line.

Context {world : Type} {good : world -> Prop} `{ProgramLaws world good}.

#[local] Abbreviation scan := (@AddLine.scan world).
#[local] Abbreviation input := (@AddLine.input world).

(** One turn of the loop as a step. *)
Inductive step (is_slash is_cmd : bool) (line : list Z) : scan -> scan -> Prop :=
  | step_next s s' :
      (pos s < length line)%nat -> body is_slash is_cmd (length line) s = Next s' ->
      step is_slash is_cmd line s (set_pos s' (S (pos s'))).

Definition start (line : list Z) (i : input) : scan :=
  mkSt (line ++ [0]) 0 0 (i_buffer i) (i_in_string i) (i_ml_comment i) false false (i_pl i) (i_world i).

Lemma reachable_inv is_slash is_cmd line i s :
  good (i_world i) -> rtc (step is_slash is_cmd line) (start line i) s -> Inv (good := good) line (owed s) s.
Proof.
  intros Hg Hr. assert (H1 : Inv (good := good) line (owed (start line i)) (start line i)) by (by apply start_inv).
  clear Hg. induction Hr as [s|s s1 s2 Hs _ IH]; [done|]. apply IH. clear IH.
  destruct Hs as [s s' Hp Hb]. pose proof (body_ok line is_slash is_cmd s H1 Hp) as Hok.
  rewrite Hb in Hok. apply Hok.
Qed.

Lemma execute_cmd_good w b : good w -> good (snd (fst (execute_cmd w b))).
Proof.
  intros Hw. unfold execute_cmd. destruct (find_command _ _) as [[com cmd]|].
  - destruct (func com) as [f|]; [|done].
    pose proof (good_run f w b (Some cmd) Hw). by destruct (run _ _ _ _) as [[? ?] ?].
  - pose proof (good_run COM_GO w b None Hw). by destruct (run _ _ _ _) as [[? ?] ?].
Qed.

Lemma execute_last_good w : good w -> good (snd (execute_last w)).
Proof.
  intros Hw. unfold execute_last. destruct (find_command _ _) as [[com cmd]|].
  - destruct (func com) as [f|]; [|done].
    pose proof (good_run_last f w (Some cmd) Hw). by destruct (run_last _ _ _) as [? ?].
  - pose proof (good_run_last COM_GO w None Hw). by destruct (run_last _ _ _) as [? ?].
Qed.

Lemma slash_command_good is_slash line i r :
  good (i_world i) -> slash_command is_slash line i = Some r -> good (i_world (snd r)).
Proof.
  intros Hg. unfold slash_command.
  destruct (last_session_mode _ && _); [|done]. destruct (is_slash && _).
  - pose proof (execute_cmd_good (i_world i) (i_buffer i) Hg).
    destruct (execute_cmd _ _) as [[[|] w] b]; by intros [= <-].
  - destruct (bool_decide _ && _); [|done]. destruct (negb _).
    + pose proof (execute_last_good (i_world i) Hg).
      destruct (execute_last _) as [[|] w]; by intros [= <-].
    + intros [= <-]. by apply good_put_message.
Qed.

Lemma finish_good truncated (s : scan) :
  good (state s) ->
  match finish truncated s with Next s' | Break s' | Quit s' => good (state s') end.
Proof.
  intros Hg. unfold finish. destruct (at_start s); [done|].
  set (s1 := if _ && _ then put s c_nl else s). set (s2 := if _ || _ then _ else s1).
  assert (state s2 = state s) as Hs by (subst s2 s1; destruct (_ && _), (_ || _); done).
  clearbody s2. destruct (bool_decide _); [by rewrite Hs|].
  destruct (find_command _ _) as [[com cmd]|]; [|by rewrite Hs].
  destruct (func com) as [f|]; [|by rewrite Hs]. set (b := if _ && _ then _ else _).
  rewrite <-Hs in Hg. pose proof (good_run f (state s2) b (Some cmd) Hg).
  destruct (run _ _ _ _) as [[r w] ?]. by destruct (0 <? r).
Qed.

Lemma add_line_total line truncated (i : input) :
  good (i_world i) ->
  exists quit i', add_line line truncated i = Some (quit, i') /\ good (i_world i').
Proof.
  intros Hg. unfold add_line. destruct (_ && _); [by eexists _, _|].
  set (is_slash := match is_cmd_line _ _ with IS_CMD_SLASH => _ | _ => _ end).
  destruct (slash_command is_slash line i) as [[q i']|] eqn:Hs.
  { apply slash_command_good in Hs; [|done]. by eexists _, _. }
  destruct (loop_ok line (S (length line)) is_slash
              (match is_cmd_line (charset_info (vars (sess (i_world i)))) line with IS_CMD_LINE => true | _ => false end)
              (start line i)) as (t & Ht & Hd); [by apply start_inv|cbn; lia|].
  unfold start in Ht. rewrite Ht. destruct t as [s|s|s]; [done| |].
  - pose proof (finish_good truncated s (done_good _ _ Hd)).
    destruct (finish truncated s); by eexists _, _.
  - eexists _, _. split; [done|]. apply (done_good _ _ Hd).
Qed.

End add_line.

(** ** The small program keeps its promise *)

Definition recorder_good (w : recorder) : Prop :=
  delimiter_ok (delimiter (vars (r_session w))) /\ charset_ok (charset_info (vars (r_session w))).

Lemma recorder_run_good f w b l : recorder_good w -> recorder_good (snd (fst (recorder_run f w b l))).
Proof.
  intros Hw. unfold recorder_run. destruct f, l; try done; try (case_bool_decide; done).
  destruct Hw as [Hd Hc]. split; cbn; [by apply com_delimiter_keeps|by rewrite com_delimiter_charset].
Qed.

#[global] Instance recorder_laws : ProgramLaws recorder recorder_good.
Proof.
  split; [by intros w [? ?]|by intros w [? ?]|apply recorder_run_good| |done|done].
  intros f w l Hw. cbn [run_last recorder_program].
  pose proof (recorder_run_good f w (last_execute_buffer (r_session w)) l Hw) as Hr.
  by destruct (recorder_run _ _ _ _) as [[r w'] b].
Qed.

Lemma latin1_ok : charset_ok my_charset_latin1.
Proof. split; [done|intros; cbn; lia|done]. Qed.

(** The client as it starts. *)
Definition new_client : client := mkClient my_charset_latin1 (str ";") false false [] 0.
Definition new_recorder : recorder :=
  mkRecorder (mkSession new_client false false false false false []) [].

Lemma new_recorder_good : recorder_good new_recorder.
Proof.
  split; [|apply latin1_ok]. split_and!; [done|cbn; lia| |]; by apply (bool_decide_unpack _).
Qed.

(** The state after some turns of the loop. *)
Fixpoint turns {world} `{Program world} (n : nat) (is_slash is_cmd : bool) (line : list Z)
    (s : scan (world := world)) : scan :=
  match n with
  | O => s
  | S n' =>
      match body is_slash is_cmd (length line) s with
      | Next s' => if (pos s <? length line)%nat
                   then turns n' is_slash is_cmd line (set_pos s' (S (pos s'))) else s
      | _ => s
      end
  end.

Lemma turns_rtc {world} `{Program world} n is_slash is_cmd line (s : scan (world := world)) :
  rtc (step is_slash is_cmd line) s (turns n is_slash is_cmd line s).
Proof.
  revert s. induction n as [|n IH]; intros s; cbn [turns]; [done|].
  destruct (body _ _ _ s) as [s'|s'|s'] eqn:Hb; [|done..].
  destruct (Nat.ltb_spec (pos s) (length line)); [|done].
  eapply rtc_l; [by apply step_next|]. apply IH.
Qed.

(** C10. Editing the line in place is safe: in every state that the scanning
    loop reaches, the bytes not yet read are still those of the line, the
    kept bytes end before them, with one byte of room when a separating space
    is still owed, and the write position lies within the line; and so it
    does when the loop is left, so that the newline added to the kept bytes
    fits in place of the terminating NUL. *)
Theorem scan_in_place {world} {good : world -> Prop} `{ProgramLaws world good}
    (is_slash is_cmd : bool) (line : list Z) (i : input (world := world)) (s : scan (world := world)) :
  good (i_world i) -> rtc (step is_slash is_cmd line) (start line i) s ->
  length (mem s) = S (length line)
  /\ ahead s = drop (pos s) (line ++ [0])
  /\ (out s + (if need_space s then 1 else 0) <= pos s)%nat
  /\ (out s <= length line)%nat
  /\ ((pos s < length line)%nat -> forall s',
        body is_slash is_cmd (length line) s = Break s' \/ body is_slash is_cmd (length line) s = Quit s' ->
        (out s' < length (mem s'))%nat).
Proof.
  intros Hg Hr. pose proof (reachable_inv is_slash is_cmd line i s Hg Hr) as Hi.
  destruct Hi as [Hl Ha Hp Hli Hgs] eqn:E. clear E.
  split_and!; [done|done|done|lia|]. intros Hlt s' Hb.
  pose proof (body_ok line is_slash is_cmd s Hi Hlt) as Hok.
  assert (Done (good := good) line s') as [Hd Ho _] by (by destruct Hb as [Hb|Hb]; rewrite Hb in Hok). lia.
Qed.

Definition sample_line : list Z := str "a/* ; */b".
Definition sample_input : input := mkInput [] 0 false false new_recorder.
Definition sample_state : scan := turns 6 false false sample_line (start sample_line sample_input).

Lemma scan_in_place_witness :
  pos sample_state = 8%nat /\ need_space sample_state = true
  /\ (out sample_state + (if need_space sample_state then 1 else 0) <= pos sample_state)%nat
  /\ ahead sample_state = drop 8 (sample_line ++ [0]).
Proof.
  split; [by vm_compute|]. split; [by vm_compute|].
  destruct (scan_in_place (good := recorder_good) false false sample_line sample_input sample_state
              new_recorder_good (turns_rtc 6 false false sample_line (start sample_line sample_input)))
    as (_ & Ha & Hp & _).
  split; [exact Hp|]. rewrite Ha. by vm_compute.
Defined.

(** C21. Every line is scanned in finitely many steps: as long as the commands
    keep a usable delimiter, [add_line] returns, and the program state after
    it is again one with a usable delimiter. *)
Theorem add_line_returns {world} {good : world -> Prop} `{ProgramLaws world good}
    (line : list Z) (truncated : bool) (i : input (world := world)) :
  good (i_world i) ->
  exists quit i', add_line line truncated i = Some (quit, i') /\ good (i_world i').
Proof. apply add_line_total. Qed.

Lemma add_line_returns_witness :
  exists quit i',
    add_line (str "select 1; delimiter //") false (mkInput [] 0 false false new_recorder) = Some (quit, i')
    /\ recorder_good (i_world i').
Proof.
  apply (add_line_returns (str "select 1; delimiter //") false (mkInput [] 0 false false new_recorder)).
  apply new_recorder_good.
Defined.
