(* ===== verification/AddLineTokens.v ===== *)
(** * What the statement scanner understands

    A line is seen as a sequence of tokens: ordinary single-byte characters,
    quoted strings, comments and delimiters.  [meaning] says what each of them does
    to the statement that is being collected; the theorem is that [add_line]
    does exactly that.  The session is one in MySQL mode, with or without
    --comments, which is the default; lines with a comment up to their end
    ([#] or [--]), with a comment for the server ([/*!]) or with a backslash
    outside of a string are not made of these tokens. *)

From stdpp Require Import relations.
From S2P Require Import Prelude.
From S2P Require Import CString.
From S2P Require Import Charset.
From S2P Require Import CommandTable.
From S2P Require Import Comments.
From S2P Require Import CommandArgs.
From S2P Require Import Commands.
From S2P Require Import AddLine.
From S2P Require Import AddLineSafe.

Inductive qitem := QChar (c : Z) | QEsc (c : Z).

Inductive token :=
  | Plain (c : Z)
  | Quoted (q : Z) (items : list qitem)
  | Comment (b : list Z)
  | Delim (sp : list Z).

Definition qtext (i : qitem) : list Z := match i with QChar c => [c] | QEsc c => ["\"%chr; c] end.

(** The values of the session that matter; the last one is whether comments
    are kept. *)
Record mode := mkMode {
  m_cs : CHARSET_INFO;
  m_delimiter : list Z;
  m_ansi : bool;
  m_no_backslash : bool;
  m_preserve : bool
}.

Definition text (m : mode) (t : token) : list Z :=
  match t with
  | Plain c => [c]
  | Quoted q items => q :: flat_map qtext items ++ [q]
  | Comment b => str "/*" ++ b ++ str "*/"
  | Delim sp => m_delimiter m ++ sp
  end.

Definition texts (m : mode) (ts : list token) : list Z := flat_map (text m) ts.

(** A byte that is a character of its own. *)
Definition single (m : mode) (c : Z) : bool := negb (c =? 0) && (negb (use_mb (m_cs m)) || (c <? 128)).

(** Whether a backslash escapes in a string with this quote. *)
Definition escapes (m : mode) (q : Z) : bool :=
  negb (q =? "`"%chr) && negb ((q =? 34) && m_ansi m) && negb (m_no_backslash m).

Definition qitem_ok (m : mode) (q : Z) (i : qitem) : bool :=
  match i with
  | QChar c => single m c && negb (c =? q) && (negb (c =? "\"%chr) || negb (escapes m q))
  | QEsc c => negb (c =? 0) && escapes m q
  end.

(** Whether the token is one at this place, in front of [rest].  Blanks behind
    a delimiter belong to it when comments are kept. *)
Definition token_ok (m : mode) (t : token) (rest : list Z) : Prop :=
  match t with
  | Plain c =>
      single m c = true /\ is_quote c = false /\ c <> "\"%chr /\ c <> "#"%chr
      /\ is_prefix (c :: rest) (m_delimiter m) = false
      /\ ~ (c = "-"%chr /\ deref rest = "-"%chr) /\ ~ (c = "/"%chr /\ deref rest = "*"%chr)
  | Quoted q items =>
      is_quote q = true /\ Forall (fun i => qitem_ok m q i = true) items
      /\ is_prefix (text m t ++ rest) (m_delimiter m) = false
  | Comment b =>
      Forall (fun c => single m c = true) b /\ ~ infix_of (str "*/") b /\ ~ infix_of (str "/*") (b ++ str "*")
      /\ deref b <> "!"%chr /\ deref b <> "+"%chr /\ ~ (deref b = "M"%chr /\ at_ b 1 = "!"%chr)
      /\ is_prefix (text m t ++ rest) (m_delimiter m) = false
  | Delim sp =>
      my_isspace (m_cs m) (deref (m_delimiter m)) = false /\ single m (deref (m_delimiter m)) = true
      /\ Forall (fun c => single m c && my_isspace (m_cs m) c = true) sp
      /\ (m_preserve m = true -> my_isspace (m_cs m) (deref rest) = false /\ deref rest <> "#"%chr
          /\ ~ (deref rest = "-"%chr /\ at_ rest 1 = "-"%chr))
  end.

Fixpoint tokens_ok (m : mode) (ts : list token) : Prop :=
  match ts with
  | [] => True
  | t :: ts' => token_ok m t (texts m ts') /\ tokens_ok m ts'
  end.

(** The same in front of other text. *)
Fixpoint tokens_before (m : mode) (ts : list token) (rest : list Z) : Prop :=
  match ts with
  | [] => True
  | t :: ts' => token_ok m t (texts m ts' ++ rest) /\ tokens_before m ts' rest
  end.

Lemma tokens_ok_before m ts : tokens_ok m ts -> tokens_before m ts [].
Proof. induction ts as [|t ts IH]; [done|]. cbn. rewrite app_nil_r. intros [? ?]. split; [done|by apply IH]. Qed.

(** ** Meaning *)

Section meaning.

Context {world : Type} `{Program world}.

(** The text of the statement so far, whether a space is owed for a comment,
    and the program. *)
Record stmt := mkStmt {
  collected : list Z;
  space_owed : bool;
  program : world
}.

Definition collect (m : mode) (st : stmt) (c : Z) (rest : list Z) : stmt :=
  mkStmt (collected st ++ (if space_owed st && negb (my_isspace (m_cs m) c) then [" "%chr] else [])
          ++ c :: rest) false (program st).

(** A comment is dropped, or kept with the space that an earlier one owes. *)
Definition add_comment (m : mode) (st : stmt) (b : list Z) : stmt :=
  if m_preserve m then
    let space := match b with
                 | c :: _ => if space_owed st && negb (my_isspace (m_cs m) c) then [" "%chr] else []
                 | [] => []
                 end in
    mkStmt (collected st ++ str "/*" ++ space ++ b ++ str "*/") true (program st)
  else mkStmt (collected st) true (program st).

(** The statement that a delimiter with these blanks behind it ends. *)
Definition ended (m : mode) (st : stmt) (sp : list Z) : list Z :=
  collected st ++ (if m_preserve m then sp else []).

(** A text at its delimiter: a command of the client is run, and any other text
    is sent. *)
Definition deliver (w : world) (text : list Z) : Z * world * list Z :=
  match find_command (vars (sess w)) (cstr text) with
  | Some (com, cmdstr) =>
      match func com with
      | Some f => run f w text (Some cmdstr)
      | None => (0, w, text)
      end
  | None => run COM_GO w text None
  end.

(** The statement behind the token, or the buffer and the program when a
    statement or a command ends the client. *)
Definition meaning (m : mode) (st : stmt) (t : token) : list Z * world + stmt :=
  match t with
  | Plain c =>
      if negb (m_preserve m) && my_isspace (m_cs m) c && bool_decide (collected st = []) then inr st
      else inr (collect m st c [])
  | Quoted q items => inr (collect m st q (flat_map qtext items ++ [q]))
  | Comment b => inr (add_comment m st b)
  | Delim sp =>
      let '(r, w, b) := deliver (program st) (ended m st sp) in
      if 0 <? r then inl (b, w) else inr (mkStmt [] (space_owed st) w)
  end.

Fixpoint meanings (m : mode) (st : stmt) (ts : list token) : list Z * world + stmt :=
  match ts with
  | [] => inr st
  | t :: ts' => match meaning m st t with inr st' => meanings m st' ts' | inl q => inl q end
  end.

(** The commands of the client among the statements, like USE, keep the mode. *)
Definition keeps_mode (plain : world -> Prop) (w : world) (text : list Z) : Prop :=
  find_command (vars (sess w)) (cstr text) <> None -> plain (snd (fst (deliver w text))).

Fixpoint commands_keep (m : mode) (plain : world -> Prop) (st : stmt) (ts : list token) : Prop :=
  match ts with
  | [] => True
  | t :: ts' =>
      match t with Delim sp => keeps_mode plain (program st) (ended m st sp) | _ => True end
      /\ match meaning m st t with inr st' => commands_keep m plain st' ts' | inl _ => True end
  end.

(** A program in the given mode, a MySQL session, which sending a statement
    does not change. *)
Record in_mode (m : mode) (plain : world -> Prop) : Prop := {
  plain_session : forall w, plain w ->
    preserve_comments (sess w) = m_preserve m /\ oracle_mode (sess w) = false /\ last_session_mode (sess w) = false
    /\ charset_info (vars (sess w)) = m_cs m /\ delimiter (vars (sess w)) = m_delimiter m
    /\ ansi_quotes (sess w) = m_ansi m /\ no_backslash_escapes (sess w) = m_no_backslash m;
  plain_go : forall w b, plain w -> plain (snd (fst (run COM_GO w b None)))
}.

End meaning.

(** ** The steps of the scanner *)

Section steps.

Context {world : Type} {good : world -> Prop} `{ProgramLaws world good}.
Context (m : mode) (plain : world -> Prop) (Hmode : in_mode m plain).
Context (Hgood : forall w, plain w -> good w).
Context (is_slash is_cmd : bool) (line : list Z).

#[local] Abbreviation scan := (@AddLine.scan world).

(** The kept bytes of the statement, in the buffer and in the line. *)
Definition kept (s : scan) : list Z := buffer s ++ take (out s) (mem s).

(** The state in front of the bytes [rest], in a string with quote [q] or in
    a comment. *)
Record At (rest : list Z) (st : stmt (world := world)) (q : Z) (ml : bool) (s : scan) : Prop := {
  at_inv : Inv (good := good) line (owed s) s;
  at_ahead : ahead s = rest ++ [0];
  at_kept : kept s = collected st;
  at_owed : need_space s = space_owed st;
  at_world : state s = program st;
  at_plain : plain (state s);
  at_string : in_string s = q;
  at_ml : ml_comment s = ml;
  at_ss : ss_comment s = false;
  at_pl : is_pl_escape_sql s = false
}.

Lemma at_pos rest st q ml s : At rest st q ml s -> rest <> [] -> (pos s < length line)%nat.
Proof.
  intros Ha Hr. pose proof (inv_ahead _ _ _ (at_inv _ _ _ _ _ Ha)) as Hd.
  rewrite (at_ahead _ _ _ _ _ Ha) in Hd. apply (f_equal length) in Hd.
  rewrite length_drop, !length_app in Hd. destruct rest; [done|]. cbn in Hd. lia.
Qed.

Lemma at_end st q ml s : At [] st q ml s -> (pos s <? length line)%nat = false.
Proof.
  intros Ha. apply Nat.ltb_ge. pose proof (inv_ahead _ _ _ (at_inv _ _ _ _ _ Ha)) as Hd.
  rewrite (at_ahead _ _ _ _ _ Ha) in Hd. apply (f_equal length) in Hd.
  rewrite length_drop, !length_app in Hd. cbn [length] in Hd. lia.
Qed.

Lemma at_rd rest st q ml s i : At rest st q ml s -> rd s i = at_ (rest ++ [0]) i.
Proof.
  intros Ha. unfold rd, at_. rewrite <-nth_skipn. f_equal. apply (at_ahead _ _ _ _ _ Ha).
Qed.

Lemma rd_ahead (s : scan) i : rd s i = at_ (ahead s) i.
Proof. unfold rd, at_, ahead. by rewrite <-nth_skipn. Qed.

Lemma rd_app rest i : (i < length rest)%nat -> at_ (rest ++ [0]) i = at_ rest i.
Proof. intros. unfold at_. by rewrite app_nth1. Qed.

Lemma at_snoc_zero rest i : at_ (rest ++ [0]) i = at_ rest i.
Proof.
  unfold at_. destruct (decide (i < length rest)%nat) as [Hi|Hi]; [by rewrite app_nth1|].
  rewrite app_nth2 by lia. rewrite (nth_overflow rest) by lia.
  by destruct (i - length rest)%nat as [|[|?]].
Qed.

Lemma at_start_kept rest st q ml s :
  At rest st q ml s -> at_start s = bool_decide (collected st = []).
Proof.
  intros Ha. rewrite <-(at_kept _ _ _ _ _ Ha). unfold at_start, kept.
  pose proof (inv_length _ _ _ (at_inv _ _ _ _ _ Ha)) as Hl.
  destruct (Nat.eqb_spec (out s) 0) as [->|Ho]; cbn [andb].
  - rewrite firstn_O, app_nil_r. done.
  - symmetry. apply bool_decide_eq_false. intros [_ Ht]%app_eq_nil.
    apply (f_equal length) in Ht. rewrite length_take in Ht. cbn in Ht. lia.
Qed.

(** The variables of the session. *)
Lemma at_session rest st q ml s :
  At rest st q ml s ->
  keep_comments s = m_preserve m /\ oracle s = false /\ cs_of s = m_cs m /\ delim s = m_delimiter m
  /\ ansi_quotes (sess (state s)) = m_ansi m /\ no_backslash_escapes (sess (state s)) = m_no_backslash m.
Proof.
  intros Ha. destruct (plain_session _ _ Hmode _ (at_plain _ _ _ _ _ Ha)) as (? & ? & ? & ? & ? & ? & ?).
  unfold keep_comments, oracle, cs_of, delim, vars_of. done.
Qed.

(** A single byte does not start a multi-byte character. *)
Lemma at_mb c rest st q ml s :
  At (c :: rest) st q ml s -> single m c = true -> mb_length (length line) s = O.
Proof.
  intros Ha Hc. unfold mb_length. destruct (at_session _ _ _ _ _ Ha) as (_ & _ & Hcs & _).
  rewrite Hcs. unfold single in Hc. apply andb_prop in Hc as [_ Hc].
  destruct (use_mb (m_cs m)) eqn:Hu; [|done]. cbn in Hc. apply Z.ltb_lt in Hc.
  destruct (plain_session _ _ Hmode _ (at_plain _ _ _ _ _ Ha)) as (_ & _ & _ & Hw & _).
  rewrite <-Hw. apply (cs_mb_lead _ (good_charset _ (Hgood _ (at_plain _ _ _ _ _ Ha)))).
  rewrite (at_ahead _ _ _ _ _ Ha). pose proof (at_pos _ _ _ _ _ Ha ltac:(done)) as Hp.
  destruct (length line - pos s)%nat as [|n] eqn:E; [lia|]. done.
Qed.

(** A turn of the loop as a step, the invariant included. *)
Lemma next_step rest st q ml s s' :
  At rest st q ml s -> rest <> [] -> body is_slash is_cmd (length line) s = Next s' ->
  step is_slash is_cmd line s (set_pos s' (S (pos s')))
  /\ Inv (good := good) line (owed s') (set_pos s' (S (pos s'))).
Proof.
  intros Ha Hr Hb. pose proof (at_pos _ _ _ _ _ Ha Hr) as Hp. split; [by apply step_next|].
  pose proof (body_ok line is_slash is_cmd s (at_inv _ _ _ _ _ Ha) Hp) as Hok. rewrite Hb in Hok. apply Hok.
Qed.

Lemma take_insert_snoc (l : list Z) n c : (n < length l)%nat -> take (S n) (<[n := c]> l) = take n l ++ [c].
Proof.
  intros Hn. rewrite (take_S_r _ _ c) by (by apply list_lookup_insert_eq). by rewrite take_insert_ge.
Qed.

Lemma kept_put (s : scan) c : (out s < length (mem s))%nat -> kept (put s c) = kept s ++ [c].
Proof. intros Hl. unfold kept. cbn [put mem out buffer]. by rewrite take_insert_snoc, app_assoc. Qed.

(** The bytes ahead after a turn are those of the line. *)
Lemma ahead_next s s' n rest :
  Inv (good := good) line (owed s) s -> Inv (good := good) line (owed s') (set_pos s' (S (pos s'))) ->
  pos s' = (pos s + n)%nat -> ahead s = rest ->
  ahead (set_pos s' (S (pos s'))) = drop (S n) rest.
Proof.
  intros Hi Hi' Hp <-. rewrite (inv_ahead _ _ _ Hi'), (inv_ahead _ _ _ Hi), drop_drop. cbn. f_equal. lia.
Qed.

Definition next_string (q c : Z) : Z :=
  if c =? q then 0 else if (q =? 0) && is_quote c then c else q.

(** What [emit] leaves behind. *)
Lemma emit_state st q c ml (s : scan) rest :
  At rest st q ml s -> (ml = true -> m_preserve m = true /\ c <> q) ->
  exists s', emit c s = Next s' /\ kept s' = collected (collect m st c [])
    /\ need_space s' = false /\ in_string s' = (if ml then q else next_string q c)
    /\ pos s' = pos s /\ ml_comment s' = ml /\ ss_comment s' = false
    /\ is_pl_escape_sql s' = false /\ state s' = state s.
Proof.
  intros [[Hl _ _ Hli _] _ Hk Ho Hw Hpl' Hq Hm Hss Hpl] Hkeep. unfold emit.
  set (s1 := if c =? in_string s then _ else _).
  assert (H1 : mem s1 = mem s /\ out s1 = out s /\ buffer s1 = buffer s /\ need_space s1 = need_space s
    /\ in_string s1 = (if ml then q else next_string q c) /\ pos s1 = pos s /\ ml_comment s1 = ml /\ ss_comment s1 = false
    /\ is_pl_escape_sql s1 = false /\ state s1 = state s).
  { subst s1. rewrite Hm, Hq. unfold next_string. destruct ml; cbn [negb andb].
    - destruct (Hkeep eq_refl) as [_ Hc%Z.eqb_neq]. by rewrite Hc.
    - destruct (c =? q); [done|]. by destruct (_ && _). }
  destruct H1 as (Hm1 & Ho1 & Hb1 & Hn1 & Hs1 & Hp1 & Hml1 & Hss1 & Hpl1 & Hw1). clearbody s1.
  assert (Hkc : negb (ml_comment s1) || keep_comments s1 = true).
  { rewrite Hml1. destruct ml; [|done]. unfold keep_comments. rewrite Hw1.
    destruct (plain_session _ _ Hmode _ Hpl') as [-> _]. by destruct (Hkeep eq_refl) as [-> _]. }
  rewrite Hkc. clear Hkc.
  assert (Hcs : cs_of s1 = m_cs m).
  { unfold cs_of, vars_of. rewrite Hw1. apply (plain_session _ _ Hmode _ Hpl'). }
  eexists. split; [done|]. rewrite Hcs, Hn1, Ho. unfold collect. cbn [collected].
  assert (Hk1 : kept s1 = collected st) by (unfold kept; rewrite Hm1, Ho1, Hb1; done).
  destruct (space_owed st && negb (my_isspace (m_cs m) c)) eqn:E.
  - apply andb_prop in E as [E _]. rewrite <-Ho in E. unfold owed in Hli. rewrite E in Hli.
    split_and!; try done.
    change (kept (put (set_need_space ?t false) c)) with (kept (put t c)).
    rewrite kept_put by (cbn; rewrite length_insert, Hm1, Ho1; lia).
    rewrite kept_put by (rewrite Hm1, Ho1; lia). by rewrite Hk1, <-app_assoc.
  - split_and!; try done. change (kept (put (set_need_space ?t false) c)) with (kept (put t c)).
    rewrite kept_put by (rewrite Hm1, Ho1; lia). by rewrite Hk1.
Qed.

Lemma emit_step c rest st q ml s :
  At (c :: rest) st q ml s -> (ml = true -> m_preserve m = true /\ c <> q) ->
  body is_slash is_cmd (length line) s = emit c s ->
  exists s', step is_slash is_cmd line s s' /\ At rest (collect m st c []) (if ml then q else next_string q c) ml s'.
Proof.
  intros Ha Hkeep Hb. destruct (emit_state st q c ml s _ Ha Hkeep) as (s' & He & Hk & Hn & Hq & Hp & Hml & Hss & Hpl & Hw).
  rewrite He in Hb. destruct (next_step _ _ _ _ _ _ Ha ltac:(done) Hb) as [Hst Hi].
  eexists. split; [exact Hst|]. split; try done.
  - rewrite (ahead_next s s' 0 ((c :: rest) ++ [0])); [|apply Ha|done|lia|apply Ha].
    cbn. apply drop_0.
  - cbn. rewrite Hw. apply Ha.
  - cbn. rewrite Hw. apply Ha.
Qed.

Lemma is_prefix_snoc_zero l t : is_prefix (l ++ [0]) t = is_prefix l t.
Proof.
  revert l. induction t as [|c t IH]; intros l; [done|]. cbn [is_prefix].
  destruct (Z.eqb_spec c 0) as [|Hc]; [done|]. destruct l as [|x l]; cbn [app deref nth].
  - apply Z.eqb_neq in Hc. by rewrite Z.eqb_sym, Hc.
  - rewrite !drop_1_cons. by rewrite IH.
Qed.

(** The body on a single byte, with its tests spelled out. *)
Lemma body_single c rest st q ml s :
  At (c :: rest) st q ml s -> single m c = true ->
  body is_slash is_cmd (length line) s
  = if negb (m_preserve m) && my_isspace (m_cs m) c && bool_decide (collected st = []) then Next s
    else if negb ml && (c =? "\"%chr) && ((q =? 0) || escapes m q) then backslash is_cmd s
    else if negb ml && (q =? 0) && is_prefix (c :: rest) (m_delimiter m) then end_statement s
    else if is_line_comment c s then line_comment c s
    else if is_open_comment c s then open_comment s
    else if is_close_comment c s then close_comment s
    else add_char c s.
Proof.
  intros Ha Hc. destruct (at_session _ _ _ _ _ Ha) as (Hk & Hor & Hcs & Hd & Han & Hnb).
  pose proof (at_rd _ _ _ _ _ 0 Ha) as Hrd. cbn in Hrd. unfold body. rewrite Hrd, Hk, Hcs.
  rewrite (at_start_kept _ _ _ _ _ Ha), (at_mb c rest st q ml s Ha Hc). cbn [Nat.eqb].
  destruct (negb (m_preserve m) && my_isspace (m_cs m) c && _); [done|].
  replace (is_backslash c s) with (negb ml && (c =? "\"%chr) && ((q =? 0) || escapes m q)).
  2: { unfold is_backslash, escapes. rewrite (at_ml _ _ _ _ _ Ha), (at_string _ _ _ _ _ Ha), Hor, Han, Hnb.
       cbn [orb]. destruct ml, (c =? "\"%chr); try done. cbn [negb andb].
       destruct (Z.eqb_spec q 0) as [->|]; [done|]. cbn [orb negb andb]. by rewrite <-andb_assoc. }
  destruct (_ && _ && (_ || _)); [done|].
  replace (is_delimiter is_slash (length line) s) with (negb ml && (q =? 0) && is_prefix (c :: rest) (m_delimiter m));
    [done|].
  unfold is_delimiter. rewrite (at_ml _ _ _ _ _ Ha), (at_string _ _ _ _ _ Ha), Hor, (at_pl _ _ _ _ _ Ha), Hd.
  rewrite (at_ahead _ _ _ _ _ Ha), is_prefix_snoc_zero. rewrite andb_false_r. cbn [negb andb orb].
  by rewrite orb_false_r.
Qed.

(** A byte that opens neither comment is simply added. *)
Lemma add_char_plain c rest st q ml s :
  At (c :: rest) st q ml s -> ~ (c = "/"%chr /\ deref rest = "*"%chr) \/ q <> 0 ->
  add_char c s = emit c s.
Proof.
  intros Ha Hc. unfold add_char. rewrite (at_ss _ _ _ _ _ Ha), (at_string _ _ _ _ _ Ha), andb_false_r.
  cbn [andb]. replace ((q =? 0) && (c =? "/"%chr) && (rd s 1 =? "*"%chr)) with false; [done|].
  rewrite (at_rd _ _ _ _ _ 1 Ha), at_snoc_zero. change (at_ (c :: rest) 1) with (deref rest).
  destruct (Z.eqb_spec q 0), (Z.eqb_spec c "/"%chr), (Z.eqb_spec (deref rest) "*"%chr); try done. tauto.
Qed.

Lemma plain_step c rest st s :
  At (c :: rest) st 0 false s -> token_ok m (Plain c) rest ->
  exists s' st', step is_slash is_cmd line s s' /\ meaning m st (Plain c) = inr st' /\ At rest st' 0 false s'.
Proof.
  intros Ha (Hc & Hq & Hb & Hh & Hd & Hdash & Hslash).
  pose proof (body_single c rest st 0 false s Ha Hc) as Hbody. cbn [meaning].
  destruct (negb (m_preserve m) && my_isspace (m_cs m) c && bool_decide (collected st = [])).
  - destruct (next_step _ _ _ _ _ _ Ha ltac:(done) Hbody) as [Hst Hi].
    eexists _, st. split_and!; [exact Hst|done|]. destruct Ha as [Hinv Hah Hk Ho Hw Hp Hs Hm Hss Hpl].
    split; try done. rewrite (ahead_next s s 0 ((c :: rest) ++ [0])); [|done|done|lia|done].
    cbn. apply drop_0.
  - apply Z.eqb_neq in Hb. rewrite Hb, Hd in Hbody. cbn [negb andb Z.eqb] in Hbody.
    assert (E1 : is_line_comment c s = false).
    { unfold is_line_comment. apply Z.eqb_neq in Hh. rewrite Hh. cbn [andb orb].
      rewrite (at_rd _ _ _ _ _ 1 Ha), at_snoc_zero. change (at_ (c :: rest) 1) with (deref rest).
      destruct (Z.eqb_spec c "-"%chr), (Z.eqb_spec (deref rest) "-"%chr); cbn [andb]; try apply andb_false_r. tauto. }
    assert (E2 : is_open_comment c s = false).
    { unfold is_open_comment. rewrite (at_rd _ _ _ _ _ 1 Ha), at_snoc_zero.
      change (at_ (c :: rest) 1) with (deref rest).
      destruct (Z.eqb_spec c "/"%chr), (Z.eqb_spec (deref rest) "*"%chr); cbn [andb]; rewrite ?andb_false_r; try done. tauto. }
    rewrite E1, E2 in Hbody. unfold is_close_comment in Hbody. rewrite (at_ml _ _ _ _ _ Ha) in Hbody.
    cbn [andb] in Hbody. rewrite (add_char_plain c rest st 0 false s Ha ltac:(by left)) in Hbody.
    destruct (emit_step _ _ _ _ _ _ Ha ltac:(done) Hbody) as (s' & Hst & Ha'). eexists s', _. split_and!; [done|done|].
    cbn iota in Ha'. replace (next_string 0 c) with 0 in Ha'; [done|]. unfold next_string. rewrite Hq.
    unfold single in Hc. by destruct (c =? 0).
Qed.

Lemma quote_single q : is_quote q = true -> single m q = true /\ q <> 0.
Proof.
  intros Hq. apply is_quote_cases in Hq as [->|[->| ->]]; unfold single; by rewrite orb_true_r.
Qed.

Lemma at_ascii rest st q ml s : At rest st q ml s -> ascii_compatible (m_cs m).
Proof.
  intros Ha. destruct (plain_session _ _ Hmode _ (at_plain _ _ _ _ _ Ha)) as (_ & _ & _ & <- & _).
  apply cs_ascii, good_charset, Hgood, (at_plain _ _ _ _ _ Ha).
Qed.

(** The statement after more bytes of a string. *)
Definition more (st : stmt (world := world)) (l : list Z) : stmt := mkStmt (collected st ++ l) false (program st).

Lemma in_string_step c rest st q s :
  At (c :: rest) st q false s -> single m c = true -> q <> 0 -> collected st <> [] -> space_owed st = false ->
  (c =? "\"%chr) && escapes m q = false ->
  exists s', step is_slash is_cmd line s s' /\ At rest (more st [c]) (next_string q c) false s'.
Proof.
  intros Ha Hc Hq Hne Ho He. pose proof (body_single c rest st q false s Ha Hc) as Hb.
  rewrite (bool_decide_eq_false_2 _ Hne), andb_false_r in Hb. apply Z.eqb_neq in Hq as Hq'.
  rewrite Hq' in Hb. cbn [negb andb orb] in Hb. rewrite He in Hb.
  unfold is_line_comment, is_open_comment, is_close_comment in Hb.
  rewrite (at_ml _ _ _ _ _ Ha), (at_string _ _ _ _ _ Ha), Hq' in Hb. cbn [negb andb] in Hb.
  rewrite (add_char_plain c rest st q false s Ha ltac:(by right)) in Hb.
  destruct (emit_step _ _ _ _ _ _ Ha ltac:(done) Hb) as (s' & Hst & Ha'). exists s'. split; [done|].
  unfold collect in Ha'. by rewrite Ho in Ha'.
Qed.

Lemma escape_step c rest st q s :
  At ("\"%chr :: c :: rest) st q false s -> c <> 0 -> q <> 0 -> collected st <> [] -> space_owed st = false ->
  escapes m q = true ->
  exists s', step is_slash is_cmd line s s' /\ At rest (more st ["\"%chr; c]) q false s'.
Proof.
  intros Ha Hc Hq Hne Ho He.
  pose proof (body_single _ _ st q false s Ha ltac:(unfold single; by rewrite orb_true_r)) as Hb.
  rewrite (bool_decide_eq_false_2 _ Hne), andb_false_r, He, orb_true_r, Z.eqb_refl in Hb.
  cbn [negb andb] in Hb.
  unfold backslash in Hb.
  assert (Hr : rd (set_pos s (S (pos s))) 0 = c).
  { pose proof (at_rd _ _ _ _ _ 1 Ha) as Hr. unfold rd in Hr |- *. cbn [set_pos pos mem].
    by replace (S (pos s) + 0)%nat with (pos s + 1)%nat by lia. }
  rewrite Hr in Hb. apply Z.eqb_neq in Hc as Hc'. rewrite Hc' in Hb.
  cbn [set_pos in_string] in Hb. rewrite (at_string _ _ _ _ _ Ha) in Hb.
  apply Z.eqb_neq in Hq as Hq'. rewrite Hq' in Hb. cbn [negb orb] in Hb.
  set (s' := put _ c) in Hb. destruct (next_step _ _ _ _ _ _ Ha ltac:(done) Hb) as [Hst Hi].
  pose proof (at_inv _ _ _ _ _ Ha) as [Hl _ Hpp Hli _].
  assert (S (pos s) < length line)%nat as Hlt.
  { enough (pos s + 1 < length line)%nat by lia. apply (rd_nz_lt (good := good) line (owed s)); [apply Ha|].
    unfold rd in Hr |- *. cbn [set_pos pos mem] in Hr.
    replace (pos s + 1)%nat with (S (pos s) + 0)%nat by lia. by rewrite Hr. }
  eexists. split; [exact Hst|]. split; try done.
  - rewrite (ahead_next s s' 1 (("\"%chr :: c :: rest) ++ [0])); [|apply Ha|done|cbn; lia|apply Ha].
    cbn. apply drop_0.
  - change (kept (set_pos s' _)) with (kept s'). subst s'.
    rewrite kept_put by (cbn; rewrite length_insert; lia). rewrite kept_put by (cbn; lia).
    change (kept (set_pos s _)) with (kept s). by rewrite (at_kept _ _ _ _ _ Ha), <-app_assoc.
  - cbn. by rewrite (at_owed _ _ _ _ _ Ha).
  - cbn. apply Ha.
  - cbn. apply Ha.
  - cbn. apply Ha.
  - cbn. apply Ha.
  - cbn. apply Ha.
  - cbn. apply Ha.
Qed.

Lemma qitems_steps q items rest st s :
  is_quote q = true -> Forall (fun i => qitem_ok m q i = true) items ->
  At (flat_map qtext items ++ q :: rest) st q false s -> collected st <> [] -> space_owed st = false ->
  exists s', rtc (step is_slash is_cmd line) s s' /\ At rest (more st (flat_map qtext items ++ [q])) 0 false s'.
Proof.
  intros Hq Hi. destruct (quote_single q Hq) as (Hqs & Hqz). revert st s.
  induction Hi as [|i items Hi _ IH]; intros st s Ha Hne Ho; cbn [flat_map app] in *.
  - destruct (in_string_step q rest st q s Ha Hqs Hqz Hne Ho) as (s' & Hst & Ha').
    { by apply is_quote_cases in Hq as [->|[->| ->]]. }
    exists s'. split; [by apply rtc_once|]. unfold next_string in Ha'. by rewrite Z.eqb_refl in Ha'.
  - rewrite <-app_assoc in Ha.
    assert (exists s1, step is_slash is_cmd line s s1 /\ At (flat_map qtext items ++ q :: rest) (more st (qtext i)) q false s1)
      as (s1 & Hst & Ha1).
    { destruct i as [c|c]; cbn [qtext app qitem_ok] in *.
      - apply andb_prop in Hi as [[Hc Hcq]%andb_prop He].
        destruct (in_string_step c _ st q s Ha Hc Hqz Hne Ho) as (s1 & Hst & Ha1).
        { destruct (c =? "\"%chr); [|done]. cbn in He |- *. by destruct (escapes m q). }
        exists s1. split; [done|]. unfold next_string in Ha1. apply Z.eqb_neq in Hqz. rewrite Hqz in Ha1.
        by destruct (c =? q).
      - apply andb_prop in Hi as [Hc He]. apply negb_true_iff, Z.eqb_neq in Hc.
        by apply (escape_step c _ st q s). }
    destruct (IH _ _ Ha1) as (s2 & Hrt & Ha2); [by intros [? _]%app_eq_nil|done|].
    exists s2. split; [by eapply rtc_l|]. unfold more in *. cbn [collected program] in *.
    by rewrite <-app_assoc in Ha2 |- *.
Qed.

Lemma quoted_steps q items rest st s :
  At (text m (Quoted q items) ++ rest) st 0 false s -> token_ok m (Quoted q items) rest ->
  exists s' st', rtc (step is_slash is_cmd line) s s' /\ meaning m st (Quoted q items) = inr st' /\ At rest st' 0 false s'.
Proof.
  intros Ha (Hq & Hi & Hd). cbn [text app] in Ha, Hd. destruct (quote_single q Hq) as (Hqs & Hqz).
  assert (Hsp' : my_isspace (m_cs m) q = false).
  { pose proof (at_ascii _ _ _ _ _ Ha) as Hcs.
    apply is_quote_cases in Hq as [->|[->| ->]]; by apply (ascii_isspace _ _ _ Hcs). }
  pose proof (body_single q _ st 0 false s Ha Hqs) as Hb. rewrite Hsp', Hd, andb_false_r in Hb.
  assert (Hqc : (q =? "\"%chr) = false /\ (q =? "#"%chr) = false /\ (q =? "-"%chr) = false /\ (q =? "/"%chr) = false)
    by (by apply is_quote_cases in Hq as [->|[->| ->]]).
  destruct Hqc as (E1 & E2 & E3 & E4). rewrite E1 in Hb.
  unfold is_line_comment, is_open_comment, is_close_comment in Hb.
  rewrite (at_ml _ _ _ _ _ Ha), E2, E3, E4 in Hb. cbn [negb andb orb] in Hb. rewrite !andb_false_r in Hb.
  rewrite (add_char_plain q _ st 0 false s Ha) in Hb by (left; intros [-> _]; done).
  destruct (emit_step _ _ _ _ _ _ Ha ltac:(done) Hb) as (s1 & Hst & Ha1). cbn iota in Ha1.
  replace (next_string 0 q) with q in Ha1
    by (unfold next_string; apply Z.eqb_neq in Hqz; by rewrite Hqz, Hq).
  rewrite <-app_assoc in Ha1. cbn [app] in Ha1.
  destruct (qitems_steps q items rest _ _ Hq Hi Ha1) as (s2 & Hrt & Ha2); [|done|].
  { unfold collect. cbn. intros [_ Hx]%app_eq_nil. by apply app_eq_nil in Hx as [_ ?]. }
  exists s2. eexists. split_and!; [by eapply rtc_l|done|]. unfold more, collect in *. cbn [collected program] in *.
  rewrite <-!app_assoc in Ha2. exact Ha2.
Qed.

(** ** Comments *)

(** The statement behind the signs and within the text of a comment. *)
Definition opened (st : stmt (world := world)) : stmt :=
  if m_preserve m then mkStmt (collected st ++ str "/*") (space_owed st) (program st) else st.
Definition closed (st : stmt (world := world)) : stmt :=
  mkStmt (if m_preserve m then collected st ++ str "*/" else collected st) true (program st).
Definition within (st : stmt (world := world)) (c : Z) : stmt := if m_preserve m then collect m st c [] else st.

(** Opening and closing a comment: the kept bytes move to the buffer. *)
Lemma flush_kept (s : scan) : kept (flush s) = kept s.
Proof.
  unfold kept, flush. destruct (Nat.eqb_spec (out s) 0) as [E|E]; cbn [negb]; [done|].
  cbn. by rewrite app_nil_r.
Qed.

(** The two bytes of a sign. *)
Definition sign (s : scan) : scan :=
  if keep_comments s then
    let s := set_pos (put s (rd s 0)) (S (pos s)) in put s (rd s 0)
  else set_pos s (S (pos s)).

Lemma sign_fields (s : scan) :
  pos (sign s) = S (pos s) /\ need_space (sign s) = need_space s /\ state (sign s) = state s
  /\ in_string (sign s) = in_string s /\ ss_comment (sign s) = ss_comment s
  /\ is_pl_escape_sql (sign s) = is_pl_escape_sql s.
Proof. unfold sign. by destruct (keep_comments s). Qed.

Lemma sign_kept c d rest st ml s :
  At (c :: d :: rest) st 0 ml s -> kept (sign s) = collected st ++ if m_preserve m then [c; d] else [].
Proof.
  intros Ha. unfold sign. destruct (at_session _ _ _ _ _ Ha) as (-> & _).
  destruct (m_preserve m); [|change (kept (set_pos s _)) with (kept s); by rewrite app_nil_r, (at_kept _ _ _ _ _ Ha)].
  pose proof (at_inv _ _ _ _ _ Ha) as Hi. pose proof (at_pos _ _ _ _ _ Ha ltac:(done)) as Hp.
  pose proof (inv_length _ _ _ Hi) as Hl. pose proof (inv_pos _ _ _ Hi) as Ho.
  assert (Hr0 : rd s 0 = c) by apply (at_rd _ _ _ _ _ 0 Ha).
  set (s1 := set_pos _ _). assert (Hr1 : rd s1 0 = d).
  { transitivity (rd s 1); [|apply (at_rd _ _ _ _ _ 1 Ha)]. subst s1. unfold rd. cbn [set_pos put mem pos].
    replace (S (pos s) + 0)%nat with (pos s + 1)%nat by lia. rewrite !nth_lookup, list_lookup_insert_ne by lia. done. }
  cbv zeta. rewrite Hr1, kept_put by (subst s1; cbn; rewrite length_insert; lia).
  change (kept s1) with (kept (put s (rd s 0))). rewrite kept_put, Hr0 by lia.
  by rewrite (at_kept _ _ _ _ _ Ha), <-app_assoc.
Qed.

(** A turn that consumes two bytes. *)
Lemma sign_step rest st st' ml ml' s s' c d :
  At (c :: d :: rest) st 0 ml s -> body is_slash is_cmd (length line) s = Next s' ->
  pos s' = S (pos s) -> kept s' = collected st' -> need_space s' = space_owed st' -> program st' = program st ->
  in_string s' = in_string s -> ml_comment s' = ml' -> ss_comment s' = ss_comment s ->
  is_pl_escape_sql s' = is_pl_escape_sql s -> state s' = state s ->
  exists s2, step is_slash is_cmd line s s2 /\ At rest st' 0 ml' s2.
Proof.
  intros Ha Hb Hp Hk Hn Hw Hin Hml Hss Hpl Hst. destruct (next_step _ _ _ _ _ _ Ha ltac:(done) Hb) as [Hs Hi].
  eexists. split; [exact Hs|]. split; [exact Hi| | |..].
  - rewrite (ahead_next s s' 1 ((c :: d :: rest) ++ [0])); [|apply Ha|done|lia|apply Ha].
    cbn. apply drop_0.
  - exact Hk.
  - exact Hn.
  - cbn. rewrite Hst, Hw. apply Ha.
  - cbn. rewrite Hst. apply Ha.
  - cbn. rewrite Hin. apply Ha.
  - exact Hml.
  - cbn. rewrite Hss. apply Ha.
  - cbn. rewrite Hpl. apply Ha.
Qed.

Lemma open_step rest st s :
  At (str "/*" ++ rest) st 0 false s -> is_prefix (str "/*" ++ rest) (m_delimiter m) = false ->
  deref rest <> "!"%chr -> deref rest <> "+"%chr -> ~ (deref rest = "M"%chr /\ at_ rest 1 = "!"%chr) ->
  exists s', step is_slash is_cmd line s s' /\ At rest (opened st) 0 true s'.
Proof.
  change (str "/*" ++ rest) with ("/"%chr :: "*"%chr :: rest). intros Ha Hd H1 H2 H3.
  pose proof (body_single _ _ st 0 false s Ha ltac:(unfold single; by rewrite orb_true_r)) as Hb.
  assert (my_isspace (m_cs m) "/"%chr = false) as Hsp by (by apply (ascii_isspace _ _ _ (at_ascii _ _ _ _ _ Ha))).
  rewrite Hsp, Hd, andb_false_r in Hb. cbn [negb andb Z.eqb] in Hb.
  replace (is_line_comment "/"%chr s) with false in Hb by (unfold is_line_comment; by rewrite !andb_false_r).
  replace (is_open_comment "/"%chr s) with true in Hb.
  2: { unfold is_open_comment. rewrite (at_string _ _ _ _ _ Ha), !(at_rd _ _ _ _ _ _ Ha), !at_snoc_zero.
       change (at_ (_ :: _ :: rest) 1) with "*"%chr. change (at_ (_ :: _ :: rest) 2) with (deref rest).
       change (at_ (_ :: _ :: rest) 3) with (at_ rest 1). cbn [Z.eqb Pos.eqb andb].
       apply Z.eqb_neq in H1, H2. rewrite H1, H2. cbn [orb].
       destruct (Z.eqb_spec (deref rest) "M"%chr), (Z.eqb_spec (at_ rest 1) "!"%chr); try done. tauto. }
  change (open_comment s) with (Next (flush (set_ml_comment (sign s) true))) in Hb.
  destruct (flush_fields (set_ml_comment (sign s) true)) as (Hfp & Hfn & Hfw & _ & Hfs).
  destruct (sign_fields s) as (Hp & Hn & Hw & Hq & Hs & Hpl).
  eapply (sign_step _ st (opened st) false true s _ _ _ Ha Hb); rewrite ?Hfp, ?Hfn, ?Hfw, ?Hfs; try done.
  - rewrite flush_kept. change (kept (set_ml_comment ?t true)) with (kept t). rewrite (sign_kept _ _ _ _ _ _ Ha).
    unfold opened. destruct (m_preserve m); [done|apply app_nil_r].
  - cbn. rewrite Hn, (at_owed _ _ _ _ _ Ha). unfold opened. by destruct (m_preserve m).
  - unfold opened. by destruct (m_preserve m).
  - unfold flush. by destruct (negb _).
  - unfold flush. by destruct (negb _).
  - unfold flush. by destruct (negb _).
Qed.

Lemma close_step rest st s :
  At (str "*/" ++ rest) st 0 true s ->
  exists s', step is_slash is_cmd line s s' /\ At rest (closed st) 0 false s'.
Proof.
  change (str "*/" ++ rest) with ("*"%chr :: "/"%chr :: rest). intros Ha.
  pose proof (body_single _ _ st 0 true s Ha ltac:(unfold single; by rewrite orb_true_r)) as Hb.
  assert (my_isspace (m_cs m) "*"%chr = false) as Hsp by (by apply (ascii_isspace _ _ _ (at_ascii _ _ _ _ _ Ha))).
  rewrite Hsp, andb_false_r in Hb. cbn [negb andb] in Hb.
  replace (is_line_comment "*"%chr s) with false in Hb by (unfold is_line_comment; by rewrite !andb_false_r).
  replace (is_open_comment "*"%chr s) with false in Hb by (unfold is_open_comment; by rewrite !andb_false_r).
  replace (is_close_comment "*"%chr s) with true in Hb.
  2: { unfold is_close_comment. by rewrite (at_ml _ _ _ _ _ Ha), (at_ss _ _ _ _ _ Ha), (at_rd _ _ _ _ _ 1 Ha). }
  change (close_comment s) with (Next (set_need_space (flush (set_ml_comment (sign s) false)) true)) in Hb.
  destruct (flush_fields (set_ml_comment (sign s) false)) as (Hfp & Hfn & Hfw & _ & Hfs).
  destruct (sign_fields s) as (Hp & Hn & Hw & Hq & Hs & Hpl).
  eapply (sign_step _ st (closed st) true false s _ _ _ Ha Hb); cbn [set_need_space pos state ss_comment];
    rewrite ?Hfp, ?Hfn, ?Hfw, ?Hfs; try done.
  - change (kept (set_need_space ?t true)) with (kept t). rewrite flush_kept.
    change (kept (set_ml_comment ?t false)) with (kept t). rewrite (sign_kept _ _ _ _ _ _ Ha).
    unfold closed. cbn. destruct (m_preserve m); [done|apply app_nil_r].
  - unfold flush. by destruct (negb _).
  - unfold flush. by destruct (negb _).
  - unfold flush. by destruct (negb _).
Qed.

(** A turn that drops a byte. *)
Lemma skip_step c rest st q ml s :
  At (c :: rest) st q ml s -> body is_slash is_cmd (length line) s = Next s ->
  exists s', step is_slash is_cmd line s s' /\ At rest st q ml s'.
Proof.
  intros Ha Hb. destruct (next_step _ _ _ _ _ _ Ha ltac:(done) Hb) as [Hst Hi].
  eexists. split; [exact Hst|]. destruct Ha as [Hinv Hah Hk Ho Hw Hp Hs Hm Hss Hpl]. split; try done.
  rewrite (ahead_next s s 0 ((c :: rest) ++ [0])); [|done|done|lia|done]. cbn. apply drop_0.
Qed.

Lemma comment_byte_step c rest st s :
  At (c :: rest) st 0 true s -> single m c = true ->
  ~ (c = "*"%chr /\ deref rest = "/"%chr) -> ~ (c = "/"%chr /\ deref rest = "*"%chr) ->
  exists s', step is_slash is_cmd line s s' /\ At rest (within st c) 0 true s'.
Proof.
  intros Ha Hc H1 H2. pose proof (body_single c rest st 0 true s Ha Hc) as Hb. revert Hb.
  cbn [negb andb]. unfold is_line_comment, is_open_comment, is_close_comment.
  rewrite (at_ml _ _ _ _ _ Ha), (at_ss _ _ _ _ _ Ha), (at_string _ _ _ _ _ Ha), (at_rd _ _ _ _ _ 1 Ha), at_snoc_zero.
  change (at_ (c :: rest) 1) with (deref rest). cbn [negb andb Z.eqb].
  replace ((c =? "/"%chr) && (deref rest =? "*"%chr)) with false.
  2: { destruct (Z.eqb_spec c "/"%chr), (Z.eqb_spec (deref rest) "*"%chr); try done. tauto. }
  replace ((c =? "*"%chr) && (deref rest =? "/"%chr)) with false.
  2: { destruct (Z.eqb_spec c "*"%chr), (Z.eqb_spec (deref rest) "/"%chr); try done. tauto. }
  cbn [andb]. rewrite (add_char_plain c rest st 0 true s Ha) by (by left). unfold within.
  assert (Hc0 : c <> 0) by (intros ->; done). destruct (m_preserve m) eqn:Hp; cbn [negb andb]; intros Hb.
  - by destruct (emit_step _ _ _ _ _ _ Ha ltac:(done) Hb) as (s' & Hst & Ha'); exists s'.
  - apply (skip_step c); [done|]. rewrite Hb. destruct (my_isspace _ _ && _); [done|].
    unfold emit. rewrite (at_string _ _ _ _ _ Ha), (proj2 (Z.eqb_neq _ _) Hc0), (at_ml _ _ _ _ _ Ha).
    destruct (at_session _ _ _ _ _ Ha) as (Hk & _). cbn [negb andb orb]. by rewrite (at_ml _ _ _ _ _ Ha), Hk, Hp.
Qed.

Lemma infix_cons t x l : infix_of t l -> infix_of t (x :: l).
Proof. intros (a & b & ->). by exists (x :: a), b. Qed.

Lemma comment_body_steps b rest st s :
  At (b ++ str "*/" ++ rest) st 0 true s ->
  Forall (fun c => single m c = true) b -> ~ infix_of (str "*/") b -> ~ infix_of (str "/*") (b ++ str "*") ->
  exists s', rtc (step is_slash is_cmd line) s s' /\ At rest (closed (fold_left within b st)) 0 false s'.
Proof.
  intros Ha Hb. revert st s Ha. induction Hb as [|c b Hc Hb IH]; intros st s Ha H1 H2; cbn [fold_left].
  - destruct (close_step rest st s Ha) as (s' & Hst & Ha'). exists s'. split; [by apply rtc_once|done].
  - destruct (comment_byte_step c (b ++ str "*/" ++ rest) st s Ha Hc) as (s1 & Hst & Ha1).
    + intros [-> Hd]. destruct b as [|x b]; [done|]. cbn in Hd. subst x. apply H1. by exists [], b.
    + intros [-> Hd]. destruct b as [|x b]; cbn in Hd.
      * apply H2. by exists [], [].
      * subst x. apply H2. by exists [], (b ++ str "*").
    + destruct (IH _ s1 Ha1) as (s2 & Hrt & Ha2).
      * intros H1'. by apply H1, infix_cons.
      * intros H2'. by apply H2, infix_cons.
      * exists s2. split; [by eapply rtc_l|done].
Qed.

(** Byte by byte the comment is added as a whole. *)
Lemma within_more b st : m_preserve m = true -> space_owed st = false ->
  fold_left within b st = mkStmt (collected st ++ b) false (program st).
Proof.
  intros Hp. revert st. induction b as [|c b IH]; intros st Ho; cbn [fold_left].
  - rewrite app_nil_r, <-Ho. by destruct st.
  - unfold within at 2. rewrite Hp, IH by done. unfold collect. cbn. by rewrite Ho, <-app_assoc.
Qed.

Lemma closed_comment b st : closed (fold_left within b (opened st)) = add_comment m st b.
Proof.
  unfold closed, opened, add_comment. destruct (m_preserve m) eqn:Hp.
  - destruct b as [|c b]; cbn [fold_left collected program]; [by rewrite <-app_assoc|].
    set (st1 := mkStmt (collected st ++ str "/*") _ _). replace (within st1 c) with (collect m st1 c []) by (unfold within; by rewrite Hp).
    rewrite !within_more by done. unfold collect, st1. cbn [collected program space_owed]. by rewrite <-!app_assoc.
  - assert (Hf : forall st, fold_left within b st = st).
    { induction b as [|c b IH]; intros st'; [done|]. cbn [fold_left]. unfold within at 2. by rewrite Hp. }
    by rewrite Hf.
Qed.

Lemma comment_steps b rest st s :
  At (text m (Comment b) ++ rest) st 0 false s -> token_ok m (Comment b) rest ->
  exists s', rtc (step is_slash is_cmd line) s s' /\ At rest (add_comment m st b) 0 false s'.
Proof.
  intros Ha (Hb & H1 & H2 & H3 & H4 & H5 & Hd). cbn [text] in Ha, Hd. rewrite <-!app_assoc in Ha, Hd.
  destruct (open_step (b ++ str "*/" ++ rest) st s Ha Hd) as (s1 & Hst & Ha1).
  - destruct b; [done|exact H3].
  - destruct b; [done|exact H4].
  - destruct b as [|x [|y b]]; [intros [? _]; done|cbn; intros [_ ?]; done|exact H5].
  - destruct (comment_body_steps b rest _ s1 Ha1 Hb H1 H2) as (s2 & Hrt & Ha2).
    rewrite closed_comment in Ha2. exists s2. split; [by eapply rtc_l|done].
Qed.

(** ** Delimiters *)

Lemma is_prefix_app t l : is_prefix (t ++ l) t = true.
Proof.
  induction t as [|c t IH]; [done|]. cbn [app is_prefix deref nth].
  destruct (c =? 0); [done|]. rewrite Z.eqb_refl, drop_1_cons. done.
Qed.

(** The blanks behind the delimiter are copied up to the first byte that is
    none. *)
Lemma copy_spaces_at fuel sp rest k s :
  Inv (good := good) line k s -> cs_of s = m_cs m -> ascii_compatible (m_cs m) ->
  ahead s = (sp ++ rest) ++ [0] -> Forall (fun c => single m c && my_isspace (m_cs m) c = true) sp ->
  my_isspace (m_cs m) (deref rest) = false -> (length sp < fuel)%nat ->
  let s' := copy_spaces fuel s in
  Inv (good := good) line k s' /\ pos s' = (pos s + length sp)%nat /\ kept s' = kept s ++ sp /\ ahead s' = rest ++ [0]
  /\ need_space s' = need_space s /\ state s' = state s /\ in_string s' = in_string s
  /\ ml_comment s' = ml_comment s /\ ss_comment s' = ss_comment s /\ is_pl_escape_sql s' = is_pl_escape_sql s.
Proof.
  intros Hi Hcs Hasc Ha Hsp. revert s fuel Hi Hcs Ha. induction Hsp as [|c sp Hc Hsp IH]; intros s [|fuel] Hi Hcs Ha Hr Hf;
    cbn [length app] in *; try lia; cbn [copy_spaces]; rewrite Hcs;
    pose proof (rd_ahead s 0) as Hrd; rewrite Ha in Hrd; cbn [app] in Hrd.
  - rewrite at_snoc_zero in Hrd. change (at_ rest 0) with (deref rest) in Hrd. rewrite Hrd, Hr.
    rewrite app_nil_r, Nat.add_0_r. done.
  - change (at_ (c :: _) 0) with c in Hrd. apply andb_prop in Hc as [Hs Hc]. rewrite Hrd, Hc.
    assert (pos s + 0 < length line)%nat as Hlt by (apply (rd_nz_lt (good := good) line k); [done|rewrite Hrd; by intros ->]).
    destruct (copy_inv (good := good) line 1 k s Hi ltac:(lia)) as (Hi1 & _). cbn [copy] in Hi1. rewrite Hrd in Hi1.
    set (s1 := set_pos (put s c) (S (pos s))) in *.
    assert (Ha1 : ahead s1 = (sp ++ rest) ++ [0]).
    { rewrite (inv_ahead _ _ _ Hi1). pose proof (inv_ahead _ _ _ Hi) as Hd. rewrite Ha in Hd.
      replace (pos s1) with (pos s + 1)%nat by (cbn; lia). by rewrite <-drop_drop, <-Hd. }
    destruct (IH s1 fuel Hi1 Hcs Ha1 Hr ltac:(lia)) as (H1 & H2 & H3 & H4 & H5 & H6 & H7 & H8 & H9 & H10). split_and!; try done.
    + rewrite H2. cbn. lia.
    + rewrite H3. change (kept s1) with (kept (put s c)). pose proof (inv_length _ _ _ Hi). pose proof (inv_line _ _ _ Hi).
      by rewrite kept_put, <-app_assoc by lia.
Qed.

(** The state in which the statement is sent. *)
Lemma delim_sent sp rest st s (s1 := take_comment (skip_delimiter s)) :
  At (m_delimiter m ++ sp ++ rest) st 0 false s -> token_ok m (Delim sp) rest ->
  pos s1 = (pos s + length (m_delimiter m) + if m_preserve m then length sp else 0)%nat
  /\ buffer s1 = ended m st sp /\ out s1 = 0%nat /\ need_space s1 = need_space s /\ state s1 = state s
  /\ in_string s1 = in_string s /\ ml_comment s1 = ml_comment s /\ ss_comment s1 = ss_comment s
  /\ is_pl_escape_sql s1 = is_pl_escape_sql s.
Proof.
  intros Ha (_ & _ & Hsp & Hrest). destruct (at_session _ _ _ _ _ Ha) as (Hk & Hor & Hcs & Hd & _).
  set (s0 := set_pos s (pos s + length (m_delimiter m))).
  assert (Hi0 : Inv (good := good) line (owed s) s0) by (apply skip_inv; [apply Ha|cbn; lia]).
  assert (Ha0 : ahead s0 = (sp ++ rest) ++ [0]).
  { rewrite (inv_ahead _ _ _ Hi0). pose proof (inv_ahead _ _ _ (at_inv _ _ _ _ _ Ha)) as Hd0.
    rewrite (at_ahead _ _ _ _ _ Ha) in Hd0. cbn [s0 set_pos pos]. rewrite <-drop_drop, <-Hd0, <-app_assoc.
    by rewrite drop_app_length. }
  assert (Hflush : forall t, buffer (flush t) = kept t /\ out (flush t) = 0%nat /\ in_string (flush t) = in_string t /\ ml_comment (flush t) = ml_comment t
    /\ is_pl_escape_sql (flush t) = is_pl_escape_sql t).
  { intros t. unfold flush, kept. destruct (Nat.eqb_spec (out t) 0) as [E|]; cbn; [|done]. by rewrite E, firstn_O, app_nil_r. }
  subst s1. unfold skip_delimiter. rewrite Hd. fold s0. change (keep_comments s0) with (keep_comments s). rewrite Hk.
  set (s2 := if m_preserve m then _ else s0).
  assert (H2 : ahead s2 = (if m_preserve m then rest else sp ++ rest) ++ [0] /\ kept s2 = ended m st sp
    /\ pos s2 = (pos s0 + if m_preserve m then length sp else 0)%nat /\ need_space s2 = need_space s /\ state s2 = state s
    /\ in_string s2 = in_string s /\ ml_comment s2 = ml_comment s /\ ss_comment s2 = ss_comment s
    /\ is_pl_escape_sql s2 = is_pl_escape_sql s).
  { unfold ended. rewrite <-(at_kept _ _ _ _ _ Ha). subst s2. destruct (m_preserve m); [|rewrite app_nil_r, Nat.add_0_r; by split_and!].
    destruct (copy_spaces_at (length (mem s0)) sp rest (owed s) s0 Hi0 Hcs (at_ascii _ _ _ _ _ Ha) Ha0 Hsp) as (_ & H1 & H2 & H3 & H4 & H5 & H6 & H7 & H8 & H9).
    { by apply Hrest. }
    { apply (f_equal length) in Ha0. unfold ahead in Ha0. rewrite length_drop, !length_app in Ha0. cbn [length] in Ha0. lia. }
    by split_and!. }
  clearbody s2. destruct H2 as (H1 & H2 & H3 & H4 & H5 & H6 & H7 & H8 & H9).
  destruct (flush_fields s2) as (F1 & F2 & F3 & F4 & F5). destruct (Hflush s2) as (G1 & G2 & G3 & G4 & G5).
  assert (Ht : take_comment (flush s2) = flush s2).
  { unfold take_comment, trailing_comment, keep_comments, oracle. rewrite F3, H5.
    change (preserve_comments (sess (state s))) with (keep_comments s). change (oracle_mode (sess (state s))) with (oracle s).
    rewrite Hk, Hor. destruct (m_preserve m) eqn:Hp; [|done]. destruct (Hrest eq_refl) as (_ & Hh & Hm).
    assert (Hah : ahead (flush s2) = rest ++ [0]) by (unfold ahead; by rewrite F1, F4).
    rewrite !(rd_ahead (flush s2)), Hah, !at_snoc_zero. change (at_ rest 0) with (deref rest).
    apply Z.eqb_neq in Hh. rewrite Hh. cbn [negb andb orb].
    destruct (Z.eqb_spec (deref rest) "-"%chr), (Z.eqb_spec (at_ rest 1) "-"%chr); try done. tauto. }
  rewrite Ht. split_and!; try congruence. rewrite F1, H3. done.
Qed.

Lemma run_buffer_deliver (s : scan) :
  let '(r, w, b) := deliver (state s) (buffer s) in run_buffer s = (r, set_buffer (set_world s w) b).
Proof.
  unfold deliver, run_buffer, call, vars_of. destruct (find_command _ _) as [[com cmdstr]|].
  - destruct (func com); [by destruct (run _ _ _ _) as [[? ?] ?]|]. by destruct s.
  - by destruct (run _ _ _ _) as [[? ?] ?].
Qed.

Lemma deliver_plain w text : plain w -> keeps_mode plain w text -> plain (snd (fst (deliver w text))).
Proof.
  intros Hw Hk. unfold keeps_mode in Hk. destruct (find_command _ _) eqn:E; [by apply Hk|]. unfold deliver. rewrite E.
  by apply (plain_go _ _ Hmode).
Qed.

(** At a delimiter the statement is sent. *)
Lemma delim_body sp rest st s (d := m_delimiter m) :
  At (d ++ sp ++ rest) st 0 false s -> token_ok m (Delim sp) rest -> keeps_mode plain (program st) (ended m st sp) ->
  d <> [] /\
  (let '(r, w, b) := deliver (program st) (ended m st sp) in
   plain w /\ exists s', (pos s' + 1 = pos s + length d + if m_preserve m then length sp else 0)%nat
     /\ out s' = 0%nat /\ need_space s' = need_space s
     /\ in_string s' = in_string s /\ ml_comment s' = ml_comment s /\ ss_comment s' = ss_comment s
     /\ is_pl_escape_sql s' = is_pl_escape_sql s /\ state s' = w /\ buffer s' = b /\
     body is_slash is_cmd (length line) s
     = if 0 <? r then Quit s' else Next (set_pl (set_buffer s' []) false)).
Proof.
  intros Ha Ht Hf. pose proof (good_delimiter _ (Hgood _ (at_plain _ _ _ _ _ Ha))) as (Hne & _ & _ & Hbs).
  destruct (delim_sent sp rest st s Ha Ht) as (Hp1 & Hb1 & Ho1 & Hn1 & Hw1 & Hi1 & Hm1 & Hs1 & Hl1). destruct Ht as (Hsp & Hsi & _).
  destruct (at_session _ _ _ _ _ Ha) as (_ & Hor & _ & Hd & _). unfold delim, vars_of in Hd. rewrite Hd in Hne, Hbs.
  split; [done|]. fold d in Hne, Hbs, Hsp, Hsi, Hp1. destruct d as [|c d'] eqn:Ed; [done|].
  cbn [deref nth app] in Hsp, Hsi, Ha.
  pose proof (body_single _ _ st 0 false s Ha Hsi) as Hb.
  rewrite Hsp, andb_false_r in Hb. replace (c =? "\"%chr) with false in Hb by (symmetry; apply Z.eqb_neq; set_solver).
  cbn [negb andb Z.eqb orb] in Hb. unfold d in Ed. rewrite Ed in Hb.
  change (is_prefix (c :: d' ++ sp ++ rest) (c :: d')) with (is_prefix ((c :: d') ++ sp ++ rest) (c :: d')) in Hb.
  rewrite is_prefix_app in Hb. unfold end_statement, pl_check in Hb. rewrite Hor in Hb. cbn [andb] in Hb.
  set (s1 := take_comment (skip_delimiter s)) in *. clearbody s1.
  pose proof (deliver_plain (program st) (ended m st sp)) as Hgo.
  rewrite <-(at_world _ _ _ _ _ Ha) in Hgo at 1. specialize (Hgo (at_plain _ _ _ _ _ Ha) Hf).
  pose proof (run_buffer_deliver (set_pos s1 (pos s1 - 1))) as Hrun. unfold send_statement in Hb. cbn [set_pos buffer state] in Hrun.
  rewrite Hw1, Hb1, (at_world _ _ _ _ _ Ha) in Hrun.
  destruct (deliver (program st) (ended m st sp)) as [[r w] b]. cbn [fst snd] in Hgo. rewrite Hrun in Hb.
  set (s' := set_buffer (set_world (set_pos s1 (pos s1 - 1)) w) b) in Hb.
  replace (oracle s') with false in Hb.
  2: { destruct (plain_session _ _ Hmode _ Hgo) as (_ & Ho & _). symmetry. exact Ho. }
  split; [done|]. exists s'. split_and!; try done. cbn. rewrite Hp1. cbn. lia.
Qed.

(** Blanks in front of a statement are skipped when comments are not kept. *)
Lemma blanks_steps sp rest st s :
  m_preserve m = false -> collected st = [] -> Forall (fun c => single m c && my_isspace (m_cs m) c = true) sp ->
  At (sp ++ rest) st 0 false s -> exists s', rtc (step is_slash is_cmd line) s s' /\ At rest st 0 false s'.
Proof.
  intros Hp Hc Hsp. revert s. induction Hsp as [|c sp Hs _ IH]; intros s Ha; [by exists s|].
  apply andb_prop in Hs as [Hs Hb]. destruct (skip_step c (sp ++ rest) st 0 false s Ha) as (s1 & Hst & Ha1).
  - by rewrite (body_single c (sp ++ rest) st 0 false s Ha Hs), Hp, Hb, bool_decide_eq_true_2.
  - destruct (IH s1 Ha1) as (s2 & Hr & Ha2). exists s2. split; [by eapply rtc_l|done].
Qed.

Lemma delim_step sp rest st s :
  At (m_delimiter m ++ sp ++ rest) st 0 false s -> token_ok m (Delim sp) rest ->
  keeps_mode plain (program st) (ended m st sp) ->
  match meaning m st (Delim sp) with
  | inr st' => exists s', rtc (step is_slash is_cmd line) s s' /\ At rest st' 0 false s'
  | inl (b, w) => exists s', (pos s < length line)%nat /\ body is_slash is_cmd (length line) s = Quit s'
      /\ input_of s' = mkInput b 0 false false w
  end.
Proof.
  intros Ha Ht Hf. destruct (delim_body sp rest st s Ha Ht Hf) as [Hne Hrun]. cbn [meaning].
  destruct (deliver (program st) (ended m st sp)) as [[r w] b].
  destruct Hrun as (Hgo & s' & Hp & Ho & Hn & Hi & Hml & Hss & Hpl & Hw & Hb & Hbody).
  assert (Hnil : m_delimiter m ++ sp ++ rest <> []) by (by intros [? _]%app_eq_nil).
  destruct (0 <? r).
  { exists s'. split; [by eapply at_pos|]. split; [done|]. unfold input_of.
    by rewrite Hb, Hi, Hml, Hpl, Hw, (at_string _ _ _ _ _ Ha), (at_ml _ _ _ _ _ Ha), (at_pl _ _ _ _ _ Ha). }
  destruct (next_step _ _ _ _ _ _ Ha Hnil Hbody) as [Hst Hinv].
  assert (Ha1 : At (if m_preserve m then rest else sp ++ rest) (mkStmt [] (space_owed st) w) 0 false
                   (set_pos (set_pl (set_buffer s' []) false) (S (pos s')))).
  { split; cbn [set_pos set_pl set_buffer state]; try done.
    - destruct (m_delimiter m) as [|c d] eqn:Ed; [done|]. cbn [length] in Hp.
      change (pos s') with (pos (set_pl (set_buffer s' []) false)).
      rewrite (ahead_next s (set_pl (set_buffer s' []) false) (length d + if m_preserve m then length sp else 0) (((c :: d) ++ sp ++ rest) ++ [0]));
        [|apply Ha|done|cbn; lia|apply Ha].
      change (S (length d + ?x)) with (length (c :: d) + x)%nat. rewrite <-!app_assoc, <-drop_drop, drop_app_length.
      destruct (m_preserve m); [by rewrite drop_app_length|by rewrite drop_0, <-app_assoc].
    - unfold kept. cbn. rewrite Ho. done.
    - cbn. rewrite Hn. apply Ha.
    - by rewrite Hw.
    - cbn. rewrite Hi. apply Ha.
    - cbn. rewrite Hml. apply Ha.
    - cbn. rewrite Hss. apply Ha. }
  destruct (m_preserve m) eqn:Hpm; [eexists; split; [by apply rtc_once|exact Ha1]|].
  destruct (blanks_steps sp rest (mkStmt [] (space_owed st) w) _ Hpm eq_refl (proj1 (proj2 (proj2 Ht))) Ha1) as (s2 & Hr2 & Ha2).
  exists s2. split; [by eapply rtc_l|done].
Qed.

(** ** A whole line *)

Lemma token_steps t rest st s :
  At (text m t ++ rest) st 0 false s -> token_ok m t rest ->
  match t with Delim sp => keeps_mode plain (program st) (ended m st sp) | _ => True end ->
  match meaning m st t with
  | inr st' => exists s', rtc (step is_slash is_cmd line) s s' /\ At rest st' 0 false s'
  | inl (b, w) => exists s', (pos s < length line)%nat /\ body is_slash is_cmd (length line) s = Quit s'
      /\ input_of s' = mkInput b 0 false false w
  end.
Proof.
  intros Ha Ht Hf. destruct t as [c|q items|b|sp].
  - destruct (plain_step c rest st s Ha Ht) as (s' & st' & Hst & -> & Ha').
    exists s'. split; [by apply rtc_once|done].
  - destruct (quoted_steps q items rest st s Ha Ht) as (s' & st' & Hst & -> & Ha'). by exists s'.
  - destruct (comment_steps b rest st s Ha Ht) as (s' & Hst & Ha'). by exists s'.
  - cbn [text] in Ha. rewrite <-app_assoc in Ha. exact (delim_step sp rest st s Ha Ht Hf).
Qed.

Lemma tokens_steps ts rest st s :
  At (texts m ts ++ rest) st 0 false s -> tokens_before m ts rest -> commands_keep m plain st ts ->
  match meanings m st ts with
  | inr st' => exists s', rtc (step is_slash is_cmd line) s s' /\ At rest st' 0 false s'
  | inl (b, w) => exists s1 s', rtc (step is_slash is_cmd line) s s1 /\ (pos s1 < length line)%nat
      /\ body is_slash is_cmd (length line) s1 = Quit s' /\ input_of s' = mkInput b 0 false false w
  end.
Proof.
  revert st s. induction ts as [|t ts IH]; intros st s Ha Hok Hso; cbn [meanings].
  { by exists s. }
  destruct Hok as [Ht Hok]. destruct Hso as [Hf Hso].
  unfold texts in Ha. cbn [flat_map] in Ha. rewrite <-app_assoc in Ha.
  pose proof (token_steps t (texts m ts ++ rest) st s Ha Ht Hf) as Hs. destruct (meaning m st t) as [[b w]|st'].
  - destruct Hs as (s1 & Hp & Hq). by exists s, s1.
  - destruct Hs as (s1 & Hr1 & Ha1). specialize (IH st' s1 Ha1 Hok Hso).
    destruct (meanings m st' ts) as [[b w]|st2].
    + destruct IH as (s2 & s3 & Hr2 & Hp & Hq). exists s2, s3. split_and!; [by etrans|done|apply Hq..].
    + destruct IH as (s2 & Hr2 & Ha2). exists s2. split; [by etrans|done].
Qed.

(** ** A statement that ends with [\g] *)

(** The command is run on the collected text, and what it leaves of it stays in
    the buffer. *)
Lemma go_step st s com w b :
  At (str "\g") st 0 false s -> find_command_char (vars (sess (program st))) "g"%chr = Some com ->
  func com = Some COM_GO -> takes_params com = false ->
  (forall l, exists r, run COM_GO (program st) (collected st) (Some l) = (r, w, b) /\ r <= 0) ->
  plain w -> b <> [] -> is_null (get_trim_comment_sql b (Z.of_nat (length b))) = false ->
  exists s', step is_slash is_cmd line s s' /\ At [] (mkStmt b (space_owed st) w) 0 false s'.
Proof.
  change (str "\g") with ["\"%chr; "g"%chr]. intros Ha Hcom Hf Htp Hrun Hw Hne Htrim.
  pose proof (body_single _ _ st 0 false s Ha ltac:(unfold single; by rewrite orb_true_r)) as Hb.
  assert (my_isspace (m_cs m) "\"%chr = false) as Hsp by (by apply (ascii_isspace _ _ _ (at_ascii _ _ _ _ _ Ha))).
  rewrite Hsp, andb_false_r in Hb. cbn [negb andb Z.eqb Pos.eqb orb] in Hb. unfold backslash in Hb.
  set (s0 := set_pos s (S (pos s))) in Hb.
  assert (Hr : rd s0 0 = "g"%chr).
  { pose proof (at_rd _ _ _ _ _ 1 Ha) as Hr. unfold rd in Hr |- *. subst s0. cbn [set_pos pos mem].
    by replace (S (pos s) + 0)%nat with (pos s + 1)%nat by lia. }
  rewrite Hr in Hb. cbn [Z.eqb Pos.eqb] in Hb. change (in_string s0) with (in_string s) in Hb. rewrite (at_string _ _ _ _ _ Ha) in Hb.
  destruct (at_session _ _ _ _ _ Ha) as (_ & Hor & _). change (oracle s0) with (oracle s) in Hb. rewrite Hor in Hb.
  cbn [Z.eqb negb orb andb] in Hb. change (vars_of s0) with (vars (sess (state s))) in Hb.
  rewrite (at_world _ _ _ _ _ Ha), Hcom, Hf in Hb. unfold call in Hb. destruct (flush_fields s0) as (Hfp & Hfn & Hfw & Hfm & Hfs).
  change (state s0) with (state s) in Hfw. rewrite Hfw, (at_world _ _ _ _ _ Ha) in Hb.
  assert (Hfb : buffer (flush s0) = collected st /\ out (flush s0) = 0%nat /\ in_string (flush s0) = 0
    /\ ml_comment (flush s0) = false /\ is_pl_escape_sql (flush s0) = false).
  { rewrite <-(at_kept _ _ _ _ _ Ha). unfold flush, kept. subst s0. cbn [set_pos out mem buffer].
    destruct (Nat.eqb_spec (out s) 0) as [E|]; cbn; [rewrite E, firstn_O, app_nil_r|]; split_and!; try done; apply Ha. }
  destruct Hfb as (Hfb & Hfo & Hfi & Hfml & Hfl). rewrite Hfb in Hb.
  match type of Hb with context [run COM_GO _ _ (Some ?l)] => destruct (Hrun l) as (r & Hl & Hr0) end.
  rewrite Hl in Hb. rewrite (proj2 (Z.ltb_ge 0 r) Hr0) in Hb. cbn [buffer set_buffer] in Hb. rewrite Htrim, Htp in Hb.
  destruct (next_step _ _ _ _ _ _ Ha ltac:(done) Hb) as [Hst Hinv]. eexists. split; [exact Hst|].
  split; cbn [set_pos set_buffer set_world state collected program space_owed]; try done.
  - change (pos (set_buffer (set_world (flush s0) w) b)) with (pos (flush s0)) in *. rewrite Hfp in *. cbn [s0 set_pos pos] in *.
    set (s2 := set_buffer _ b) in *. assert (E : pos s2 = (pos s + 1)%nat) by (subst s2; cbn; rewrite Hfp; cbn; lia).
    replace (S (S (pos s))) with (S (pos s2)) by lia.
    rewrite (ahead_next s s2 1 (["\"%chr; "g"%chr] ++ [0])); [done|apply Ha| |done|apply Ha].
    replace (S (pos s2)) with (S (S (pos s))) by lia. exact Hinv.
  - unfold kept. cbn. by rewrite Hfo, firstn_O, app_nil_r.
  - cbn. rewrite Hfn. apply Ha.
  - cbn. rewrite Hfs. apply Ha.
Qed.

End steps.

(** ** The loop and the steps *)

Lemma loop_steps {world} `{Program world} is_slash is_cmd line (s s' : scan (world := world)) t :
  rtc (step is_slash is_cmd line) s s' ->
  (exists fuel, loop fuel is_slash is_cmd (length line) s' = Some t) ->
  exists fuel, loop fuel is_slash is_cmd (length line) s = Some t.
Proof.
  induction 1 as [s|s s1 s2 Hs _ IH]; intros Hl; [done|].
  destruct (IH Hl) as [fuel Hf]. exists (S fuel). destruct Hs as [s s' Hp Hb]. cbn [loop].
  apply Nat.ltb_lt in Hp. by rewrite Hp, Hb.
Qed.

Lemma loop_more {world} `{Program world} fuel is_slash is_cmd n (s : scan (world := world)) t :
  loop fuel is_slash is_cmd n s = Some t -> forall fuel', (fuel <= fuel')%nat ->
  loop fuel' is_slash is_cmd n s = Some t.
Proof.
  revert s. induction fuel as [|fuel IH]; intros s Hl [|fuel'] Hf; [done|done|lia|].
  cbn [loop] in Hl |- *. destruct (pos s <? n)%nat; [|done].
  destruct (body _ _ _ s) as [s'|s'|s']; [|done..]. apply (IH _ Hl). lia.
Qed.

(** No part of the statement at its end reads as a DELIMITER command. *)
Definition no_delimiter_word (l : list Z) : Prop :=
  forall a b, l = a ++ b -> is_delimiter_command b (length b) = false.

Lemma strnncoll_loop_prefix order n a b l :
  (n <= length a)%nat -> strnncoll_loop order n (a ++ b) l = strnncoll_loop order n a l.
Proof.
  revert a l. induction n as [|n IH]; intros a l Hn; [done|].
  destruct a as [|x a]; [cbn in Hn; lia|]. cbn [strnncoll_loop app deref nth].
  rewrite !drop_1_cons. destruct (negb _); [done|]. apply IH. cbn in Hn. lia.
Qed.

Lemma is_delimiter_command_take l n :
  (n <= length l)%nat -> is_delimiter_command l n = is_delimiter_command (take n l) (length (take n l)).
Proof.
  intros Hn. unfold is_delimiter_command. rewrite length_take, Nat.min_l by done.
  destruct (Nat.leb_spec DELIMITER_NAME_LEN n); [|done]. cbn [andb].
  unfold my_strnncoll, my_strnncoll_simple. rewrite Nat.ltb_irrefl.
  rewrite <-(take_drop n l) at 1. by rewrite strnncoll_loop_prefix by (rewrite length_take; lia).
Qed.

(** The last byte of the buffer is overwritten before the lookup. *)
Lemma insert_last_zero (l : list Z) x : <[(length (l ++ [x]) - 1)%nat := 0]> (l ++ [x]) = l ++ [0].
Proof.
  rewrite length_app. cbn [length]. replace (length l + 1 - 1)%nat with (length l + 0)%nat by lia.
  by rewrite insert_app_r.
Qed.

Lemma cstr_snoc_zero l : cstr (l ++ [0]) = cstr l.
Proof.
  unfold cstr. induction l as [|x l IH]; cbn; [done|]. destruct (x =? 0); cbn; [done|]. by rewrite IH.
Qed.

Section whole.

Context {world : Type} {good : world -> Prop} `{ProgramLaws world good}.
Context (m : mode) (plain : world -> Prop) (Hmode : in_mode m plain).
Context (Hgood : forall w, plain w -> good w).

(** The end of the line. *)
Lemma finish_empty line st s :
  At (good := good) plain line [] st 0 false s -> collected st = [] ->
  exists s', finish false s = Break s' /\ input_of s' = mkInput [] 0 false false (program st).
Proof.
  intros Ha Hc. unfold finish. rewrite (at_start_kept plain line _ _ _ _ _ Ha), bool_decide_eq_true_2 by done.
  exists s. split; [done|]. destruct Ha as [_ _ Hk _ Hw _ Hs Hm _ Hp].
  rewrite Hc in Hk. unfold kept in Hk. apply app_eq_nil in Hk as [Hb _].
  unfold input_of. by rewrite Hb, Hs, Hm, Hp, Hw.
Qed.

Lemma finish_text line st s :
  At (good := good) plain line [] st 0 false s -> collected st <> [] -> no_delimiter_word (collected st) ->
  find_command (vars (sess (program st))) (cstr (collected st)) = None ->
  exists s', finish false s = Break s'
    /\ input_of s' = mkInput (collected st ++ [c_nl]) 0 false false (program st).
Proof.
  intros Ha Hc Hnd Hf. unfold finish. rewrite (at_start_kept plain line _ _ _ _ _ Ha), bool_decide_eq_false_2 by done.
  destruct Ha as [[Hl _ _ Hli _] _ Hk _ Hw _ Hs Hm _ Hp].
  assert (is_delimiter_command (mem s) (out s) = false) as ->.
  { rewrite is_delimiter_command_take by lia. apply (Hnd (buffer s)). by rewrite <-Hk. }
  cbn [negb andb orb]. set (s1 := put s c_nl).
  assert (Hk1 : buffer s1 ++ take (out s1) (mem s1) = collected st ++ [c_nl]).
  { change (kept s1 = collected st ++ [c_nl]). subst s1. by rewrite kept_put, Hk by lia. }
  change (ml_comment s1) with (ml_comment s). rewrite Hm. cbn [negb orb]. rewrite Hk1.
  cbn [set_buffer buffer]. rewrite bool_decide_eq_false_2 by (by intros [_ ?]%app_eq_nil).
  change (vars_of (set_buffer s1 _)) with (vars_of s). unfold vars_of. rewrite Hw.
  rewrite insert_last_zero, cstr_snoc_zero, Hf. eexists. split; [done|]. unfold input_of. cbn. by rewrite Hs, Hm, Hp, Hw.
Qed.

Lemma text_nonempty w t rest :
  plain w -> token_ok m t rest -> deref (text m t) <> 0.
Proof.
  intros Hw Ht. assert (Hnz : forall c, single m c = true -> c <> 0).
  { intros c Hc ->. done. }
  destruct t as [c|q items|b|sp]; cbn.
  - apply Hnz, Ht.
  - destruct Ht as (Hq & _). by apply is_quote_cases in Hq as [->|[->| ->]].
  - done.
  - destruct Ht as (_ & Hd & _). destruct (m_delimiter m); [done|]. by apply Hnz.
Qed.

(** What the scanner takes the line for. *)
Definition slash_line (w : world) (line : list Z) : bool :=
  match is_cmd_line (charset_info (vars (sess w))) line with IS_CMD_SLASH => true | _ => false end.
Definition command_line (w : world) (line : list Z) : bool :=
  match is_cmd_line (charset_info (vars (sess w))) line with IS_CMD_LINE => true | _ => false end.

(** [add_line] in this mode is the loop followed by the end of the line. *)
Lemma add_line_loop line b w t (i := mkInput b 0 false false w) :
  plain w -> (deref line =? 0) && bool_decide (b = []) = false ->
  (exists fuel, loop fuel (slash_line w line) (command_line w line) (length line) (start line i) = Some t) ->
  add_line line false i
  = match t with
    | Quit s => Some (true, input_of s)
    | Next s | Break s =>
        match finish false s with
        | Quit s => Some (true, input_of s)
        | Next s | Break s => Some (false, input_of s)
        end
    end.
Proof.
  intros Hw Hempty [fuel Hl]. unfold add_line, slash_command. subst i.
  cbn [i_buffer i_world i_in_string i_ml_comment i_pl]. rewrite Hempty.
  destruct (plain_session _ _ Hmode _ Hw) as (_ & _ & -> & _). cbn [andb].
  set (i := mkInput b 0 false false w) in *.
  destruct (loop_ok (good := good) line (S (length line)) (slash_line w line) (command_line w line) (start line i))
    as (t' & Ht' & _); [by apply (start_inv (good := good) line i), Hgood|cbn; lia|].
  assert (t' = t) as ->.
  { pose proof (loop_more _ _ _ _ _ _ Ht' (S (length line) + fuel)%nat ltac:(lia)) as E1.
    pose proof (loop_more _ _ _ _ _ _ Hl (S (length line) + fuel)%nat ltac:(lia)) as E2. congruence. }
  unfold slash_line, command_line, start in Ht'. cbn [i i_buffer i_world i_in_string i_ml_comment i_pl] in Ht'.
  by rewrite Ht'.
Qed.

Lemma add_line_tokens ts b w (st := mkStmt b false w) :
  plain w -> tokens_ok m ts -> commands_keep m plain st ts ->
  match meanings m st ts with
  | inl (b', w') => add_line (texts m ts) false (mkInput b 0 false false w) = Some (true, mkInput b' 0 false false w')
  | inr st' =>
      (collected st' = [] ->
       add_line (texts m ts) false (mkInput b 0 false false w) = Some (false, mkInput [] 0 false false (program st')))
      /\ (collected st' <> [] -> no_delimiter_word (collected st') ->
          find_command (vars (sess (program st'))) (cstr (collected st')) = None ->
          add_line (texts m ts) false (mkInput b 0 false false w)
          = Some (false, mkInput (collected st' ++ [c_nl]) 0 false false (program st')))
  end.
Proof.
  intros Hw Hok Hso. set (line := texts m ts). set (i := mkInput b 0 false false w).
  destruct ((deref line =? 0) && bool_decide (b = [])) eqn:Hempty.
  { apply andb_prop in Hempty as [Hd%Z.eqb_eq Hb%bool_decide_eq_true]. subst b.
    destruct ts as [|t ts].
    - cbn. split; [done|]. intros Hc. done.
    - destruct Hok as [Ht _]. apply (text_nonempty w) in Ht; [|done]. exfalso. apply Ht.
      subst line. unfold texts in Hd. cbn [flat_map] in Hd. by destruct (text m t). }
  assert (Hat : At (good := good) plain line line st 0 false (start line i)).
  { split; try done. by apply (start_inv (good := good) line i), Hgood. cbn. unfold kept. cbn. by rewrite app_nil_r. }
  pose proof (tokens_steps m plain Hmode Hgood (slash_line w line) (command_line w line)
                line ts [] st (start line i)) as Hs.
  fold line in Hs. rewrite app_nil_r in Hs. specialize (Hs Hat (tokens_ok_before m ts Hok) Hso).
  destruct (meanings m st ts) as [[b' w']|st'].
  - destruct Hs as (s1 & s' & Hr & Hp & Hb & <-).
    apply (add_line_loop line b w (Quit s') Hw Hempty).
    eapply loop_steps; [exact Hr|]. exists 1%nat. cbn [loop]. apply Nat.ltb_lt in Hp. by rewrite Hp, Hb.
  - destruct Hs as (s' & Hr & Ha').
    pose proof (at_end _ _ _ _ _ _ Ha') as Hend.
    subst i. rewrite (add_line_loop line b w (Break s') Hw Hempty).
    2: { eapply loop_steps; [exact Hr|]. exists 1%nat. cbn [loop]. by rewrite Hend. }
    split.
    + intros Hc. by destruct (finish_empty line st' s' Ha' Hc) as (s2 & -> & ->).
    + intros Hc Hnd Hf. by destruct (finish_text line st' s' Ha' Hc Hnd Hf) as (s2 & -> & ->).
Qed.

(** A line of tokens and [\g]: what is left of the statement stays, with a
    newline. *)
Lemma add_line_go ts w q o com w' b (st := mkStmt [] false w) :
  plain w -> tokens_before m ts (str "\g") -> commands_keep m plain st ts -> meanings m st ts = inr (mkStmt q o w) ->
  find_command_char (vars (sess w)) "g"%chr = Some com -> func com = Some COM_GO -> takes_params com = false ->
  (forall l, exists r, run COM_GO w q (Some l) = (r, w', b) /\ r <= 0) -> plain w' ->
  b <> [] -> is_null (get_trim_comment_sql b (Z.of_nat (length b))) = false ->
  no_delimiter_word b -> find_command (vars (sess w')) (cstr b) = None ->
  add_line (texts m ts ++ str "\g") false (mkInput [] 0 false false w) = Some (false, mkInput (b ++ [c_nl]) 0 false false w').
Proof.
  intros Hw Hok Hk Hm Hcom Hf Htp Hrun Hw' Hne Htrim Hnd Hnc. set (line := texts m ts ++ str "\g"). set (i := mkInput [] 0 false false w).
  assert (Hempty : (deref line =? 0) && bool_decide (@nil Z = []) = false).
  { rewrite andb_true_r. apply Z.eqb_neq. subst line. destruct ts as [|t ts]; [done|]. destruct Hok as [Ht _].
    apply (text_nonempty w) in Ht; [|done]. unfold texts. cbn [flat_map]. by destruct (text m t). }
  assert (Hat : At (good := good) plain line line st 0 false (start line i)).
  { split; try done. by apply (start_inv (good := good) line i), Hgood. }
  pose proof (tokens_steps m plain Hmode Hgood (slash_line w line) (command_line w line)
                line ts (str "\g") st (start line i) Hat Hok Hk) as Hs. rewrite Hm in Hs. destruct Hs as (s1 & Hr1 & Ha1).
  destruct (go_step m plain Hmode Hgood (slash_line w line) (command_line w line) line (mkStmt q o w) s1 com w' b
    Ha1 Hcom Hf Htp Hrun Hw' Hne Htrim) as (s2 & Hs2 & Ha2).
  pose proof (at_end _ _ _ _ _ _ Ha2) as Hend. subst i. rewrite (add_line_loop line [] w (Break s2) Hw Hempty).
  2: { eapply loop_steps; [etrans; [exact Hr1|by apply rtc_once]|]. exists 1%nat. cbn [loop]. by rewrite Hend. }
  by destruct (finish_text line _ s2 Ha2 Hne Hnd Hnc) as (s3 & -> & ->).
Qed.

End whole.


(** A line with a delimiter in a string and in a comment, with comments kept
    as by default and without. *)
Definition sample_mode (keep : bool) : mode := mkMode my_charset_latin1 (str ";") false false keep.
Definition sample_tokens : list token :=
  map Plain (str "select ") ++ [Quoted "'"%chr [QChar ";"%chr; QEsc "'"%chr]; Comment (str " ; "); Plain "x"%chr;
  Delim (str " "); Comment (str "z"); Plain "y"%chr; Delim []].

Definition sample_plain (keep : bool) (w : recorder) : Prop :=
  r_session w = mkSession new_client keep false false false false (last_execute_buffer (r_session w)).

Lemma sample_in_mode keep : in_mode (sample_mode keep) (sample_plain keep).
Proof.
  split.
  - intros w Hw. cbn. rewrite Hw. done.
  - intros w b Hw. cbn. case_bool_decide; [done|]. cbn. unfold sample_plain in *. cbn. rewrite Hw. done.
Qed.

Lemma sample_good keep w : sample_plain keep w -> recorder_good w.
Proof. intros Hw. unfold recorder_good. rewrite Hw. apply new_recorder_good. Qed.

Lemma not_infix t s :
  c_string s -> c_string t -> found (strstr s t) = false -> ~ infix_of t s.
Proof. intros Hs Ht Hf Hi. apply strstr_spec in Hi; [|done|done]. congruence. Qed.

Definition fresh_recorder (keep : bool) : recorder := mkRecorder (mkSession new_client keep false false false false []) [].

Lemma sample_tokens_ok keep : tokens_ok (sample_mode keep) sample_tokens.
Proof.
  repeat split; try (intros [? ?]; done); try done; try (by repeat constructor).
  all: apply not_infix; [by repeat constructor|by repeat constructor|done].
Qed.

