(* ===== verification/AddLineQuirks.v ===== *)
(** * Where the statement scanner differs from what it means to do

    Three places at which the scanner's treatment of comments goes wrong. *)

From stdpp Require Import relations.
From S2P Require Import Prelude.
From S2P Require Import CString.
From S2P Require Import Charset.
From S2P Require Import CommandTable.
From S2P Require Import Comments.
From S2P Require Import CommandArgs.
From S2P Require Import Commands.
From S2P Require Import AddLine.
From S2P Require Import AddLineSafe.
From S2P Require Import AddLineTokens.

(** The byte that is cut off in the lookup is replaced by a NUL. *)
Definition cut (b : list Z) : list Z := b ++ [0].

(** The comment [b] whose end runs into an opening sign. *)
Definition hidden_close (b : list Z) : list Z := str "/*" ++ b ++ str "/*/".

(** The multi-byte character in front of which the scanner stands. *)
Definition next_char {world} `{Program world} (end_of_line : nat) (s : scan (world := world)) : list Z :=
  take (mb_length end_of_line s) (ahead s).

(** ** A comment sign inside a comment *)

Section nested.

Context {world : Type} {good : world -> Prop} `{ProgramLaws world good}.
Context (m : mode) (plain : world -> Prop) (Hmode : in_mode m plain).
Context (Hgood : forall w, plain w -> good w) (Hdrop : m_preserve m = false).
Context (is_slash is_cmd : bool) (line : list Z).

(** Inside a comment a second opening sign is taken as one again. *)
Lemma reopen_step rest st s :
  At (good := good) plain line (str "/*/" ++ rest) st 0 true s ->
  exists s', step is_slash is_cmd line s s' /\ At (good := good) plain line (str "/" ++ rest) st 0 true s'.
Proof.
  change (str "/*/" ++ rest) with ("/"%chr :: "*"%chr :: "/"%chr :: rest). intros Ha.
  pose proof (body_single m plain Hmode Hgood is_slash is_cmd line _ _ st 0 true s Ha
                ltac:(unfold single; by rewrite orb_true_r)) as Hb.
  assert (my_isspace (m_cs m) "/"%chr = false) as Hsp
    by (by apply (ascii_isspace _ _ _ (at_ascii m plain Hmode Hgood line _ _ _ _ _ Ha))).
  rewrite Hsp, andb_false_r in Hb. cbn [negb andb] in Hb.
  replace (is_line_comment "/"%chr s) with false in Hb by (unfold is_line_comment; by rewrite !andb_false_r).
  replace (is_open_comment "/"%chr s) with true in Hb.
  2: { unfold is_open_comment. by rewrite (at_string _ _ _ _ _ _ _ Ha), !(at_rd _ _ _ _ _ _ _ _ Ha). }
  unfold open_comment in Hb. destruct (at_session m plain Hmode line _ _ _ _ _ Ha) as (Hk & _). rewrite Hk, Hdrop in Hb.
  eapply (sign_step plain is_slash is_cmd line _ st st true true s _ _ _ Ha Hb);
    try (rewrite ?flush_kept; unfold flush; by destruct (negb _)).
  all: rewrite ?flush_kept; try apply Ha; try done.
  all: destruct (flush_fields (set_ml_comment (set_pos s (S (pos s))) true)) as (Hfp & Hfn & Hfw & _).
  all: rewrite ?Hfp, ?Hfn, ?Hfw; try done; apply Ha.
Qed.

(** The bytes of a comment up to a place that does not look like a sign. *)
Lemma comment_bytes b rest st s :
  At (good := good) plain line (b ++ rest) st 0 true s -> Forall (fun c => single m c = true) b ->
  ~ infix_of (str "*/") (b ++ take 1 rest) -> ~ infix_of (str "/*") (b ++ take 1 rest) ->
  exists s', rtc (step is_slash is_cmd line) s s' /\ At (good := good) plain line rest st 0 true s'.
Proof.
  intros Ha Hb. revert s Ha. induction Hb as [|c b Hc Hb IH]; intros s Ha H1 H2; [by exists s|].
  assert (Hn : forall x y, deref (b ++ rest) = y -> y <> 0 -> c = x -> infix_of [x; y] ((c :: b) ++ take 1 rest)).
  { intros x y Hd Hy ->. destruct b as [|z b]; cbn in Hd.
    - destruct rest as [|z rest]; cbn in Hd; [congruence|]. subst z. by exists [], [].
    - subst z. by exists [], (b ++ take 1 rest). }
  destruct (comment_byte_step m plain Hmode Hgood is_slash is_cmd line c (b ++ rest) st s Ha Hc) as (s1 & Hst & Ha1);
    [| |unfold within in Ha1; rewrite Hdrop in Ha1].
  - intros [E Hd]. apply H1. by apply (Hn _ _ Hd).
  - intros [E Hd]. apply H2. by apply (Hn _ _ Hd).
  - destruct (IH s1 Ha1) as (s2 & Hrt & Ha2).
    + intros H1'. by apply H1, infix_cons.
    + intros H2'. by apply H2, infix_cons.
    + exists s2. split; [by eapply rtc_l|done].
Qed.

(** The scanner at the end of such a comment. *)
Lemma nested_steps b st s :
  At (good := good) plain line (str "/*" ++ b ++ str "/*/") st 0 false s ->
  is_prefix (str "/*" ++ b ++ str "/*/") (m_delimiter m) = false ->
  Forall (fun c => single m c = true) b -> ~ infix_of (str "*/") (b ++ str "/") -> ~ infix_of (str "/*") (b ++ str "/") ->
  is_char (deref b) = true -> deref b <> "!"%chr -> deref b <> "+"%chr -> deref b <> "M"%chr ->
  exists s', rtc (step is_slash is_cmd line) s s' /\ At (good := good) plain line [] st 0 true s'.
Proof.
  intros Ha Hd Hb H1 H2 H3 H4 H5 H6. destruct b as [|x b]; [done|].
  destruct (open_step m plain Hmode Hgood is_slash is_cmd line ((x :: b) ++ str "/*/") st s Ha Hd H4 H5)
    as (s1 & Hs1 & Ha1); [by intros [? _]|]. unfold opened in Ha1. rewrite Hdrop in Ha1.
  destruct (comment_bytes (x :: b) (str "/*/") st s1 Ha1 Hb H1 H2) as (s2 & Hr2 & Ha2).
  destruct (reopen_step [] st s2 Ha2) as (s3 & Hs3 & Ha3).
  destruct (comment_byte_step m plain Hmode Hgood is_slash is_cmd line "/"%chr [] st s3 Ha3) as (s4 & Hs4 & Ha4).
  { unfold single. by rewrite orb_true_r. } { by intros [? _]. } { by intros [_ ?]. }
  unfold within in Ha4. rewrite Hdrop in Ha4. exists s4. split; [|done]. eapply rtc_l; [exact Hs1|]. etrans; [exact Hr2|].
  eapply rtc_l; [exact Hs3|]. by apply rtc_once.
Qed.

End nested.

(** A comment that ends in [/*/] is not seen as closed: the line is one
    complete comment, yet the scanner ends it inside a comment, because the
    opening sign is recognized within comments as well and takes the star of
    the closing one. *)
Theorem nested_open_hides_close {world} {good : world -> Prop} `{ProgramLaws world good}
    (m : mode) (plain : world -> Prop) (b : list Z) (w : world) (line := hidden_close b) :
  in_mode m plain -> (forall w, plain w -> good w) -> m_preserve m = false -> plain w ->
  is_prefix line (m_delimiter m) = false -> Forall (fun c => single m c = true) b ->
  ~ infix_of (str "*/") (b ++ str "/") -> ~ infix_of (str "/*") (b ++ str "/") ->
  is_char (deref b) = true -> deref b <> "!"%chr -> deref b <> "+"%chr -> deref b <> "M"%chr ->
  comments line
  /\ add_line line false (mkInput [] 0 false false w) = Some (false, mkInput [] 0 true false w).
Proof.
  intros Hm Hg Hk0 Hw Hd Hb H1 H2 H3 H4 H5 H6. split.
  { change line with (str "/*" ++ b ++ str "/" ++ str "*/"). rewrite (app_assoc b).
    apply (comments_block (b ++ str "/") []); [done|constructor]. }
  set (i := mkInput [] 0 false false w).
  assert (Hat : At (good := good) plain line line (mkStmt [] false w) 0 false (start line i)).
  { split; try done. by apply (start_inv (good := good) line i), Hg. }
  destruct (nested_steps m plain Hm Hg Hk0 (slash_line w line) (command_line w line) line b
              (mkStmt [] false w) (start line i) Hat Hd Hb H1 H2 H3 H4 H5 H6) as (s' & Hr & Ha').
  pose proof (at_end _ _ _ _ _ _ Ha') as Hend.
  subst i. rewrite (add_line_loop m plain Hm Hg line [] w (Break s') Hw eq_refl).
  2: { eapply loop_steps; [exact Hr|]. exists 1%nat. cbn [loop]. by rewrite Hend. }
  unfold finish. rewrite (at_start_kept plain line _ _ _ _ _ Ha'). cbn.
  destruct Ha' as [_ _ Hk _ Hst _ Hs Hml _ Hp]. cbn in Hk, Hst. unfold kept in Hk.
  apply app_eq_nil in Hk as [Hbu _]. unfold input_of. by rewrite Hbu, Hs, Hml, Hp, Hst.
Qed.

Lemma nested_open_hides_close_witness :
  comments (str "/*x/*/") /\
  add_line (str "/*x/*/") false (mkInput [] 0 false false new_recorder)
  = Some (false, mkInput [] 0 true false new_recorder).
Proof.
  apply (nested_open_hides_close (good := recorder_good) (sample_mode false) (sample_plain false) (str "x") new_recorder
           (sample_in_mode false) (sample_good false)); try done; try (by repeat constructor).
  all: apply not_infix; [by repeat constructor|by repeat constructor|done].
Defined.

(** ** The text before an open comment *)

(** When a line ends inside a comment, the last byte of the text before
    the comment is lost in the test for a command: the statement [b] followed
    by any byte and the start of a comment is run as the command [b]. *)
Theorem open_comment_runs_prefix {world} `{Program world} (s : scan (world := world)) (b : list Z) (x : Z)
    (com : COMMANDS) (f : com_func) (cmdstr : list Z) :
  ml_comment s = true -> keep_comments s = false -> out s = 0%nat -> buffer s = b ++ [x] ->
  find_command (vars_of s) (cstr b) = Some (com, cmdstr) -> func com = Some f ->
  exists s', finish false s = (if 0 <? fst (fst (run f (state s) (cut b) (Some cmdstr))) then Quit s' else Break s')
    /\ state s' = snd (fst (run f (state s) (cut b) (Some cmdstr))).
Proof.
  intros Hml Hk Ho Hb Hf Hc. unfold finish, at_start. rewrite Ho, Hb.
  rewrite bool_decide_eq_false_2 by (by intros [_ ?]%app_eq_nil).
  rewrite andb_false_r, Hml, orb_true_r. cbn [negb andb].
  change (ml_comment (put s c_nl)) with (ml_comment s). change (keep_comments (put s c_nl)) with (keep_comments s).
  rewrite Hml, Hk. cbn [negb orb put buffer]. rewrite Hb.
  rewrite bool_decide_eq_false_2 by (by intros [_ ?]%app_eq_nil). rewrite insert_last_zero, cstr_snoc_zero.
  change (vars_of (put s c_nl)) with (vars_of s). rewrite Hf, Hc. cbn [put state].
  fold (cut b). destruct (run f (state s) (cut b) (Some cmdstr)) as [[r w] b']. cbn [fst snd].
  destruct (0 <? r); by eexists.
Qed.

(** The line "exitt" with an open comment behind it ends the client. *)
Definition sample_typo : list Z := str "exitt/* x".
Definition sample_typo_end : scan :=
  turns 8 false false sample_typo (start sample_typo (mkInput [] 0 false false new_recorder)).

Lemma open_comment_runs_prefix_witness :
  exists s', finish false sample_typo_end = Quit s' /\ state s' = new_recorder.
Proof.
  destruct (open_comment_runs_prefix sample_typo_end (str "exit") "t"%chr
              (mkCommand (str "exit") "q"%chr (Some COM_QUIT) false (str "Exit mysql. Same as quit."))
              COM_QUIT (str "exit")) as (s' & Hs' & Hw); [vm_compute; reflexivity..|].
  exists s'. split; [exact Hs'|exact Hw].
Defined.

(** ** Multi-byte characters after a comment *)

Lemma copy_kept {world} {good : world -> Prop} `{ProgramLaws world good} line n k (s : scan (world := world)) :
  Inv (good := good) line k s -> (pos s + n <= length line)%nat ->
  kept (copy n s) = kept s ++ take n (ahead s).
Proof.
  revert s. induction n as [|n IH]; intros s Hi Hn; cbn [copy]; [by rewrite firstn_O, app_nil_r|].
  destruct (copy_inv line 1 k s Hi ltac:(lia)) as (Hc & _). cbn [copy] in Hc.
  rewrite (IH _ Hc) by (cbn; lia).
  change (kept (set_pos ?t ?p)) with (kept t). pose proof Hi as [Hl Ha Hp Hli _].
  rewrite kept_put by lia. rewrite <-app_assoc. f_equal.
  assert (Hah : ahead (set_pos (put s (rd s 0)) (S (pos s))) = drop 1 (ahead s)).
  { rewrite (inv_ahead _ _ _ Hc), Ha, drop_drop. cbn. f_equal. lia. }
  rewrite Hah. unfold rd, ahead. rewrite Nat.add_0_r.
  destruct (drop (pos s) (mem s)) as [|c l] eqn:E.
  - apply (f_equal length) in E. rewrite length_drop in E. cbn in E. lia.
  - rewrite drop_1_cons. replace (nth (pos s) (mem s) 0) with c; [done|].
    rewrite <-(Nat.add_0_r (pos s)), <-nth_skipn, E. done.
Qed.

(** The space that stands for a comment is not written in front of a
    multi-byte character: the character is added directly to the text before
    the comment, and the space is still owed after it, so that it separates
    the character from the next one instead. *)
Theorem comment_space_after_multibyte {world} {good : world -> Prop} `{ProgramLaws world good}
    (is_slash is_cmd : bool) (line : list Z) (i : input (world := world)) (s : scan (world := world)) :
  good (i_world i) -> rtc (step is_slash is_cmd line) (start line i) s ->
  (pos s < length line)%nat -> need_space s = true -> ml_comment s = false -> at_start s = false ->
  (0 < mb_length (length line) s)%nat ->
  exists s', step is_slash is_cmd line s s'
    /\ kept s' = kept s ++ next_char (length line) s /\ need_space s' = true.
Proof.
  intros Hg Hr Hp Hn Hml Hst Hmb. pose proof (reachable_inv is_slash is_cmd line i s Hg Hr) as Hi.
  assert (Hb : body is_slash is_cmd (length line) s
               = Next (set_pos (copy (mb_length (length line) s) s) (pos (copy (mb_length (length line) s) s) - 1))).
  { unfold body. rewrite Hst, andb_false_r, Hml.
    destruct (Nat.eqb_spec (mb_length (length line) s) 0); [lia|]. done. }
  assert (Hle : (pos s + mb_length (length line) s <= length line)%nat).
  { unfold mb_length in *. destruct (use_mb (cs_of s)); [|lia].
    pose proof (cs_mb_length _ (good_charset _ (inv_good _ _ _ Hi)) (take (length line - pos s) (ahead s))) as Hl.
    rewrite length_take in Hl. unfold cs_of, vars_of. lia. }
  eexists. split; [by apply step_next|].
  destruct (copy_inv line _ _ _ Hi Hle) as (_ & _ & Hcn).
  split; [|cbn; by rewrite Hcn]. change (kept (set_pos ?t ?p)) with (kept t). by eapply copy_kept.
Qed.

(** A character set with the two-byte characters of UTF-8. *)
Definition utf8_ismbchar (p : list Z) : nat :=
  match p with
  | a :: b :: _ => if (194 <=? a) && (a <=? 223) && (128 <=? b) && (b <=? 191) then 2 else 0
  | _ => 0
  end.
Definition utf8_charset : CHARSET_INFO :=
  mkCS ctype_latin1 to_lower_latin1 to_upper_latin1 sort_order_latin1 true utf8_ismbchar.

Lemma utf8_ok : charset_ok utf8_charset.
Proof.
  split; [done| |].
  - intros [|a [|b p]]; cbn; [lia|lia|]. destruct (_ && _); cbn; lia.
  - intros [|a [|b p]] Hd; [done|done|]. cbn in Hd |- *.
    destruct (Z.leb_spec 194 a); [lia|done].
Qed.

Definition utf8_recorder : recorder :=
  mkRecorder (mkSession (mkClient utf8_charset (str ";") false false [] 0) false false false false false []) [].

Lemma utf8_recorder_good : recorder_good utf8_recorder.
Proof. split; [apply new_recorder_good|apply utf8_ok]. Qed.

(** An "a", an empty comment, the two bytes of a letter, and a "b". *)
Definition sample_letter : list Z := str "a/**/" ++ [195; 169] ++ str "b".
Definition sample_letter_state : scan :=
  turns 3 false false sample_letter (start sample_letter (mkInput [] 0 false false utf8_recorder)).

Lemma comment_space_after_multibyte_witness :
  exists s', step false false sample_letter sample_letter_state s'
    /\ kept s' = str "a" ++ [195; 169] /\ need_space s' = true.
Proof.
  apply (comment_space_after_multibyte (good := recorder_good) false false sample_letter
           (mkInput [] 0 false false utf8_recorder) sample_letter_state utf8_recorder_good
           (turns_rtc 3 false false sample_letter _)).
  all: try (vm_compute; reflexivity).
  all: apply Nat.ltb_lt; vm_compute; reflexivity.
Defined.
