(* ===== verification/OracleSet.v ===== *)
(** * The SET command of Oracle mode (client/mysql.cc: set_cmd_oracle, is_on_off,
    to_digit, set_param_oracle)

    In Oracle mode the client itself executes the SET options of SQL*Plus.
    The command is a function from the global variables [oracle_vars] to the
    new ones, with what it prints. *)

From S2P Require Import Prelude.
From S2P Require Import CString.
From S2P Require Import Charset.
From S2P Require Import Comments.
From S2P Require Import CommandArgs.

Inductive CMD_STATE := CMD_STATE_UNKNOW | CMD_STATE_RUNED | CMD_STATE_ERROR.

Record oracle_vars := mkVars {
  is_define_oracle : bool;
  define_char_oracle : Z;
  is_feedback_oracle : bool;
  feedback_int_oracle : Z;
  is_echo_oracle : bool;
  is_sqlblanklines_oracle : bool;
  column_names : bool;
  is_termout_oracle : bool;
  pagesize_int_oracle : Z;
  is_trimspool_oracle : bool;
  is_exitcommit_oracle : bool;
  obclient_num_width : Z;
  dbms_serveroutput : bool
}.

Definition JUMP_SPACE (cs : CHARSET_INFO) (p : list Z) : list Z := skip_while (my_isspace cs) p.

(** The word at [p]: its length. *)
Definition word_len (cs : CHARSET_INFO) (p : list Z) : nat := span (is_word_char cs) p.

(** [strncasecmp(full, name, len) == 0 && len >= min] *)
Definition abbreviates (full : list Z) (min : nat) (name : list Z) (len : nat) : bool :=
  strncaseeq len full name && (min <=? len)%nat.

Definition is_on_off (s : list Z) (len : nat) : option bool :=
  if strncaseeq len (str "on") s && (len =? 2)%nat then Some true
  else if strncaseeq len (str "off") s && (len =? 3)%nat then Some false
  else None.

(** [atoi] on digits: the value is computed as a long, which saturates, and
    converted to an int. *)
Definition digits_value (s : list Z) : Z :=
  fold_left (fun acc c => acc * 10 + (c - "0"%chr)) s 0.

Definition atoi (s : list Z) : Z := int32 (Z.min (digits_value s) (2 ^ 63 - 1)).

Definition to_digit (cs : CHARSET_INFO) (s : list Z) (len : nat) : Z :=
  if forallb (my_isdigit cs) (take len s) then atoi (take (span (my_isdigit cs) s) s) else -1.

(** ** The SET command *)

Definition set_define (v : oracle_vars) (d : bool) (c : Z) : oracle_vars :=
  mkVars d c (is_feedback_oracle v) (feedback_int_oracle v) (is_echo_oracle v)
    (is_sqlblanklines_oracle v) (column_names v) (is_termout_oracle v) (pagesize_int_oracle v)
    (is_trimspool_oracle v) (is_exitcommit_oracle v) (obclient_num_width v) (dbms_serveroutput v).

Definition set_feedback (v : oracle_vars) (f : bool) (n : Z) : oracle_vars :=
  mkVars (is_define_oracle v) (define_char_oracle v) f n (is_echo_oracle v)
    (is_sqlblanklines_oracle v) (column_names v) (is_termout_oracle v) (pagesize_int_oracle v)
    (is_trimspool_oracle v) (is_exitcommit_oracle v) (obclient_num_width v) (dbms_serveroutput v).

(** The options that are simply on or off. *)
Inductive switch := ECHO | SQLBLANKLINES | HEADING | TERMOUT | TRIMSPOOL | EXITCOMMIT | SERVEROUTPUT.

Definition set_switch (v : oracle_vars) (o : switch) (b : bool) : oracle_vars :=
  mkVars (is_define_oracle v) (define_char_oracle v) (is_feedback_oracle v) (feedback_int_oracle v)
    (match o with ECHO => b | _ => is_echo_oracle v end)
    (match o with SQLBLANKLINES => b | _ => is_sqlblanklines_oracle v end)
    (match o with HEADING => b | _ => column_names v end)
    (match o with TERMOUT => b | _ => is_termout_oracle v end)
    (pagesize_int_oracle v)
    (match o with TRIMSPOOL => b | _ => is_trimspool_oracle v end)
    (match o with EXITCOMMIT => b | _ => is_exitcommit_oracle v end)
    (obclient_num_width v)
    (match o with SERVEROUTPUT => b | _ => dbms_serveroutput v end).

Definition set_numbers (v : oracle_vars) (pagesize width : Z) : oracle_vars :=
  mkVars (is_define_oracle v) (define_char_oracle v) (is_feedback_oracle v) (feedback_int_oracle v)
    (is_echo_oracle v) (is_sqlblanklines_oracle v) (column_names v) (is_termout_oracle v)
    pagesize (is_trimspool_oracle v) (is_exitcommit_oracle v) width (dbms_serveroutput v).

Definition on_or_off (v : oracle_vars) (o : switch) (start : list Z) (len : nat) (msg : list Z)
    : CMD_STATE * oracle_vars * list (list Z) :=
  match is_on_off start len with
  | Some b => (CMD_STATE_RUNED, set_switch v o b, [])
  | None => (CMD_STATE_RUNED, v, [msg])
  end.

Definition set_define_cmd (cs : CHARSET_INFO) (v : oracle_vars) (start : list Z) (len : nat)
    : CMD_STATE * oracle_vars * list (list Z) :=
  if (len =? 1)%nat then
    if my_isdigit cs (deref start) || my_isalpha cs (deref start) || (deref start =? " "%chr)
    then (CMD_STATE_RUNED, v, [str "SP2-0272: define Characters cannot be alphanumeric or blank"])
    else (CMD_STATE_RUNED, set_define v true (deref start), [])
  else
    match is_on_off start len with
    | Some b => (CMD_STATE_RUNED, set_define v b (if b then "&"%chr else define_char_oracle v), [])
    | None => (CMD_STATE_RUNED, v, [str "SP2-0268: define value is invalid"])
    end.

Definition set_feedback_cmd (cs : CHARSET_INFO) (v : oracle_vars) (start : list Z) (len : nat)
    : CMD_STATE * oracle_vars * list (list Z) :=
  let n := to_digit cs start len in
  if 0 <=? n then
    if 50000 <? n
    then (CMD_STATE_RUNED, set_feedback v (is_feedback_oracle v) n, [str "SP2-0267: feedback value is (0-50000)"])
    else (CMD_STATE_RUNED, set_feedback v (0 <? n) n, [])
  else
    match is_on_off start len with
    | Some b => (CMD_STATE_RUNED, set_feedback v b (-1), [])
    | None => (CMD_STATE_RUNED, set_feedback v (is_feedback_oracle v) n, [str "SP2-0268: feedback value is invalid"])
    end.

Definition set_numwidth_cmd (cs : CHARSET_INFO) (v : oracle_vars) (start : list Z) (len : nat)
    : CMD_STATE * oracle_vars * list (list Z) :=
  let n := to_digit cs start len in
  if n =? -1 then (CMD_STATE_RUNED, v, [str "SP2-0268: numwidth option not a valid number" ++ [c_nl]])
  else if (n <? 2) || (128 <? n)
  then (CMD_STATE_RUNED, v, [str "SP2-0267: numwidth option 349 out of range (2 through 128)" ++ [c_nl]])
  else (CMD_STATE_RUNED, set_numbers v (pagesize_int_oracle v) n, []).

(** [query b] is whether the server accepts switching its output on or off. *)
Definition set_serveroutput_cmd (query : bool -> bool) (v : oracle_vars) (start : list Z) (len : nat)
    : CMD_STATE * oracle_vars * list (list Z) :=
  match is_on_off start len with
  | Some b =>
      if query b then (CMD_STATE_RUNED, set_switch v SERVEROUTPUT b, [])
      else (CMD_STATE_RUNED, v, [if b then str "set serveroutput on error!" else str "set serveroutput off error!"])
  | None => (CMD_STATE_RUNED, v, [str "SP2-0265: serveroutput value is ON or OFF"])
  end.

(** The option by its name, which may be abbreviated. *)
Definition set_option (cs : CHARSET_INFO) (query : bool -> bool) (v : oracle_vars) (name : list Z) (name_len : nat)
    (start : list Z) (len : nat) : CMD_STATE * oracle_vars * list (list Z) :=
  if abbreviates (str "define") 3 name name_len then set_define_cmd cs v start len
  else if abbreviates (str "feedback") 4 name name_len then set_feedback_cmd cs v start len
  else if strncaseeq 4 (str "echo") name then
    on_or_off v ECHO start len (str "SP2-0265: echo value is ON or OFF")
  else if abbreviates (str "sqlblanklines") 5 name name_len then
    on_or_off v SQLBLANKLINES start len (str "SP2-0265: sqlblanklines value is ON or OFF")
  else if abbreviates (str "heading") 3 name name_len then
    on_or_off v HEADING start len (str "SP2-0265: heading value is ON or OFF")
  else if abbreviates (str "termout") 4 name name_len then
    on_or_off v TERMOUT start len (str "SP2-0265: termout value is ON or OFF")
  else if abbreviates (str "pagesize") 5 name name_len then
    (CMD_STATE_RUNED, set_numbers v (to_digit cs start len) (obclient_num_width v), [])
  else if abbreviates (str "trimspool") 4 name name_len then
    on_or_off v TRIMSPOOL start len (str "SP2-0265: trimspool value is ON or OFF")
  else if abbreviates (str "exitcommit") 5 name name_len then
    on_or_off v EXITCOMMIT start len (str "SP2-0265: exitcommit value is ON or OFF")
  else if abbreviates (str "numwidth") 3 name name_len then set_numwidth_cmd cs v start len
  else if abbreviates (str "numformat") 4 name name_len then
    (CMD_STATE_UNKNOW, v, [str "SP2: set num format not supported" ++ [c_nl]])
  else if strncaseeq 12 (str "serveroutput") name then set_serveroutput_cmd query v start len
  else (CMD_STATE_UNKNOW, v, []).

Definition set_cmd_oracle (cs : CHARSET_INFO) (query : bool -> bool) (v : oracle_vars) (s : list Z) (len2 : Z)
    : CMD_STATE * oracle_vars * list (list Z) :=
  match get_trim_comment_sql s len2 with
  | None => (CMD_STATE_UNKNOW, v, [])
  | Some p =>
      let p := JUMP_SPACE cs p in
      if strncaseeq 3 (str "set") p && my_isspace cs (at_ p 3) then
        let name := JUMP_SPACE cs (drop 4 p) in
        let name_len := word_len cs name in
        let start := JUMP_SPACE cs (drop name_len name) in
        let len := strlen start in
        if (name_len =? 0)%nat || (len =? 0)%nat then (CMD_STATE_UNKNOW, v, [])
        else set_option cs query v name name_len start len
      else (CMD_STATE_UNKNOW, v, [])
  end.

(** [set_param_oracle]: the regular expression for COLUMN FORMAT is a
    parameter. *)
Definition set_param_oracle (regexec : list Z -> bool) (s : list Z) : CMD_STATE * list (list Z) :=
  if regexec s then (CMD_STATE_RUNED, [str "SP2: column xxx format not supported" ++ [c_nl]])
  else (CMD_STATE_UNKNOW, []).

(** ** Lemmas *)

(** The values the SET command keeps in the variables it checks: the width of
    numbers fits the arrays they are formatted in, and the character that
    marks a variable can be told from a name and from a blank. *)
Definition vars_ok (cs : CHARSET_INFO) (v : oracle_vars) : Prop :=
  2 <= obclient_num_width v <= 128
  /\ define_char_oracle v <> 0
  /\ my_isspace cs (define_char_oracle v) = false
  /\ my_isdigit cs (define_char_oracle v) = false
  /\ my_isalpha cs (define_char_oracle v) = false.

Lemma on_or_off_ok cs v o start len msg :
  vars_ok cs v -> vars_ok cs (snd (fst (on_or_off v o start len msg))).
Proof. intros H. unfold on_or_off. by destruct (is_on_off start len). Qed.

Lemma set_define_cmd_ok cs v start len :
  ascii_compatible cs -> vars_ok cs v ->
  (len = 1%nat -> deref start <> 0 /\ my_isspace cs (deref start) = false) ->
  vars_ok cs (snd (fst (set_define_cmd cs v start len))).
Proof.
  intros Hcs H Hstart. pose proof (proj1 H) as Hw. unfold set_define_cmd.
  destruct (Nat.eqb_spec len 1) as [->|_].
  - destruct (Hstart eq_refl) as [Hnz Hsp].
    destruct (my_isdigit cs _) eqn:?; [done|]. destruct (my_isalpha cs _) eqn:?; [done|].
    by destruct (deref start =? " "%chr).
  - destruct (is_on_off start len) as [[|]|]; [|done..].
    split; [done|]. cbn. split; [done|]. split_and!.
    + by apply (ascii_isspace cs _ _ Hcs).
    + by apply (ascii_isdigit cs _ _ Hcs).
    + by apply (ascii_isalpha cs _ _ Hcs).
Qed.

Lemma set_feedback_cmd_ok cs v start len :
  vars_ok cs v -> vars_ok cs (snd (fst (set_feedback_cmd cs v start len))).
Proof.
  intros H. unfold set_feedback_cmd. destruct (0 <=? _); [by destruct (50000 <? _)|].
  by destruct (is_on_off start len).
Qed.

Lemma set_numwidth_cmd_ok cs v start len :
  vars_ok cs v -> vars_ok cs (snd (fst (set_numwidth_cmd cs v start len))).
Proof.
  intros H. unfold set_numwidth_cmd. destruct (_ =? -1); [done|].
  destruct (Z.ltb_spec (to_digit cs start len) 2); [done|].
  destruct (Z.ltb_spec 128 (to_digit cs start len)); [done|].
  split; [cbn; lia|]. apply H.
Qed.

Lemma set_option_ok cs query v name name_len start len :
  ascii_compatible cs -> vars_ok cs v ->
  (len = 1%nat -> deref start <> 0 /\ my_isspace cs (deref start) = false) ->
  vars_ok cs (snd (fst (set_option cs query v name name_len start len))).
Proof.
  intros Hcs H Hstart. unfold set_option.
  repeat case_match; try done; try (by apply on_or_off_ok).
  - by apply set_define_cmd_ok.
  - by apply set_feedback_cmd_ok.
  - by apply set_numwidth_cmd_ok.
  - unfold set_serveroutput_cmd. destruct (is_on_off start len) as [b|]; [|done].
    by destruct (query b).
Qed.

(** C39. Whatever SET command is typed in Oracle mode, well formed or not, and
    whatever the server answers, the width of numbers stays between 2 and
    128, so the fixed arrays numbers are formatted in are never overrun, and
    the define character stays a character that is neither a letter, nor a
    digit, nor a blank, nor the end of the string. *)
Theorem set_cmd_oracle_keeps_vars (cs : CHARSET_INFO) (query : bool -> bool) (v : oracle_vars) (s : list Z) (len : Z) :
  ascii_compatible cs -> vars_ok cs v ->
  vars_ok cs (snd (fst (set_cmd_oracle cs query v s len))).
Proof.
  intros Hcs H. unfold set_cmd_oracle. destruct (get_trim_comment_sql s len) as [p|]; [|done].
  destruct (_ && _); [|done].
  set (name := JUMP_SPACE cs (drop 4 _)). set (start := JUMP_SPACE cs (drop (word_len cs name) name)).
  destruct (word_len cs name =? 0)%nat; [done|].
  destruct (strlen start =? 0)%nat eqn:Hlen; [done|]. cbn [orb].
  apply set_option_ok; [done..|]. intros _.
  assert (deref start <> 0) as Hnz.
  { destruct start as [|c l]; [done|]. cbn in *. destruct (Z.eqb_spec c 0); [|done]. by subst. }
  split; [done|]. by destruct (skip_while_stop (my_isspace cs) (drop (word_len cs name) name)).
Qed.

Lemma set_cmd_oracle_witness :
  vars_ok my_charset_latin1
    (snd (fst (set_cmd_oracle my_charset_latin1 (fun _ => true)
       (mkVars true "&"%chr true (-1) false true true true (-1) true true 10 false)
       (str "set numw 40") 11))).
Proof.
  apply set_cmd_oracle_keeps_vars; [apply latin1_ascii_compatible|].
  by vm_compute.
Defined.

(** ** Switching an option by its name *)

(** The documented name of each option and its shortest abbreviation. *)
Definition switch_name (o : switch) : list Z :=
  match o with
  | ECHO => str "echo"
  | SQLBLANKLINES => str "sqlblanklines"
  | HEADING => str "heading"
  | TERMOUT => str "termout"
  | TRIMSPOOL => str "trimspool"
  | EXITCOMMIT => str "exitcommit"
  | SERVEROUTPUT => str "serveroutput"
  end.

Definition switch_min (o : switch) : nat :=
  match o with
  | ECHO => 4 | SQLBLANKLINES => 5 | HEADING => 3 | TERMOUT => 4 | TRIMSPOOL => 4
  | EXITCOMMIT => 5 | SERVEROUTPUT => 12
  end.

Definition on_off (b : bool) : list Z := if b then str "on" else str "off".

Lemma set_option_switch cs query v o k b rest :
  (switch_min o <= k <= length (switch_name o))%nat -> query b = true ->
  set_option cs query v (take k (switch_name o) ++ rest) k (on_off b) (length (on_off b))
  = (CMD_STATE_RUNED, set_switch v o b, []).
Proof.
  intros Hk Hq.
  assert (In k (seq (switch_min o) (S (length (switch_name o)) - switch_min o))) as Hin by (apply in_seq; lia).
  clear Hk. destruct o; cbn in Hin; repeat destruct Hin as [<-|Hin]; try done; destruct b;
    vm_compute; try done; by rewrite Hq.
Qed.

(** The blanks between the words of a command. *)
Definition blanks (cs : CHARSET_INFO) (sp : list Z) : Prop :=
  sp <> [] /\ c_string sp /\ spaces cs sp.

Lemma jump_blanks cs sp l :
  c_string sp -> spaces cs sp -> deref l <> 0 -> my_isspace cs (deref l) = false -> JUMP_SPACE cs (sp ++ l) = l.
Proof.
  intros Hc Hsp Hz Hl. unfold JUMP_SPACE. apply skip_while_app; [|by right].
  apply Forall_forall. intros c Hin. split.
  - intros ->. by apply (c_string_nz sp Hc).
  - by apply (proj1 (Forall_forall _ _) Hsp).
Qed.

Lemma name_chars cs w : ascii_compatible cs ->
  Forall (fun c => (("a"%chr <=? c) && (c <=? "z"%chr)) = true) w ->
  Forall (fun c => is_word_char cs c = true) w.
Proof.
  intros Hcs Hw. eapply Forall_impl; [exact Hw|]. intros c Hc. apply andb_prop in Hc as [H1%Z.leb_le H2%Z.leb_le].
  unfold is_word_char. rewrite (ascii_isspace cs c false Hcs); [|lia|].
  - replace (c =? 0) with false; [done|]. symmetry. apply Z.eqb_neq. lia.
  - assert (In c (map Z.of_nat (seq 97 26))) as Hin.
    { apply in_map_iff. exists (Z.to_nat c). rewrite in_seq. lia. }
    cbn in Hin. by repeat destruct Hin as [<-|Hin].
Qed.

Lemma word_char_inv cs c : is_word_char cs c = true -> c <> 0 /\ my_isspace cs c = false.
Proof.
  unfold is_word_char. intros [H1%negb_true_iff H2%negb_true_iff]%andb_prop.
  by apply Z.eqb_neq in H1.
Qed.

(** How the command is taken apart. *)
Lemma set_cmd_oracle_words cs query v sp1 w sp2 val :
  ascii_compatible cs -> blanks cs sp1 -> blanks cs sp2 ->
  w <> [] -> Forall (fun c => (("a"%chr <=? c) && (c <=? "z"%chr)) = true) w -> c_string w ->
  val <> [] -> c_string val -> my_isspace cs (deref val) = false ->
  let s := str "set" ++ sp1 ++ w ++ sp2 ++ val in
  set_cmd_oracle cs query v s (Z.of_nat (length s))
  = set_option cs query v (w ++ sp2 ++ val) (length w) val (length val).
Proof.
  intros Hcs (Hn1 & Hc1 & Hs1) (Hn2 & Hc2 & Hs2) Hw Hname Hcw Hval Hcv Hvs s.
  pose proof (name_chars cs w Hcs Hname) as Hword.
  unfold set_cmd_oracle. rewrite get_trim_comment_sql_text; [|subst s; rewrite !c_string_app; split; [by repeat constructor|done]|done].
  assert (JUMP_SPACE cs s = s) as ->.
  { apply (jump_blanks cs [] s); [constructor|constructor|done|]. by apply (ascii_isspace cs _ _ Hcs). }
  subst s. destruct sp1 as [|c sp1]; [done|]. cbn [str app]. cbn [drop].
  inversion Hs1 as [|? ? Hc Hs1']; subst. apply (c_string_app [c]) in Hc1 as [_ Hc1'].
  change (at_ _ 3) with c. rewrite Hc. cbn [strncaseeq deref nth tolower drop].
  change (drop 4 _) with (sp1 ++ w ++ sp2 ++ val).
  rewrite jump_blanks; [|done|done|..].
  2,3: destruct w as [|d w]; [done|]; inversion Hword as [|? ? Hd _]; subst; apply word_char_inv in Hd; apply Hd.
  unfold word_len. rewrite span_app by done. rewrite span_stop.
  2: { destruct sp2 as [|d sp2]; [done|]. inversion Hs2 as [|? ? Hd _]; subst. unfold is_word_char.
       cbn. by rewrite Hd, andb_false_r. }
  rewrite Nat.add_0_r, drop_app_length.
  rewrite jump_blanks; [|done|done|by destruct val as [|d val]; [done|]; apply Z.eqb_neq, is_char_nz; inversion Hcv|done].
  rewrite strlen_c_string by done. destruct w, val; done.
Qed.

(** Every on/off option of the SET command can be written in full or
    shortened to its documented minimum: [set <option> on] and
    [set <option> off], with any blanks between the words, change exactly the
    variable of that option, to the value asked for, print nothing, and are
    not sent on as a statement. *)
Theorem set_switch_by_name (cs : CHARSET_INFO) (query : bool -> bool) (v : oracle_vars) (o : switch) (k : nat)
    (b : bool) (sp1 sp2 : list Z) :
  ascii_compatible cs -> blanks cs sp1 -> blanks cs sp2 ->
  (switch_min o <= k <= length (switch_name o))%nat -> query b = true ->
  let s := str "set" ++ sp1 ++ take k (switch_name o) ++ sp2 ++ on_off b in
  set_cmd_oracle cs query v s (Z.of_nat (length s)) = (CMD_STATE_RUNED, set_switch v o b, []).
Proof.
  intros Hcs H1 H2 Hk Hq s. subst s.
  assert (length (take k (switch_name o)) = k) as Hlen by (rewrite length_take; lia).
  rewrite set_cmd_oracle_words; [|done..| | | | | |].
  - rewrite Hlen. by apply set_option_switch.
  - destruct k; [destruct o; cbn in Hk; lia|]. by destruct o.
  - apply Forall_take. destruct o; by repeat constructor.
  - apply c_string_take. destruct o; by repeat constructor.
  - by destruct b.
  - destruct b; by repeat constructor.
  - destruct b; by apply (ascii_isspace cs _ _ Hcs).
Qed.

Definition initial_vars : oracle_vars :=
  mkVars true "&"%chr true (-1) false true true true (-1) true true 10 false.

Lemma one_blank : blanks my_charset_latin1 (str " ").
Proof. split; [done|]. split; apply Forall_cons_2; done. Qed.

Lemma set_switch_by_name_witness :
  set_cmd_oracle my_charset_latin1 (fun _ => true) initial_vars (str "set sqlbl off") 13
  = (CMD_STATE_RUNED, set_switch initial_vars SQLBLANKLINES false, []).
Proof.
  apply (set_switch_by_name my_charset_latin1 (fun _ => true) initial_vars SQLBLANKLINES 5 false (str " ") (str " "));
    [apply latin1_ascii_compatible|by apply one_blank..|cbn; lia|done].
Defined.

(** A number that is refused is stored all the same, and then hides the row
    count of every smaller result. *)
Example set_feedback_refused :
  set_cmd_oracle my_charset_latin1 (fun _ => true) initial_vars (str "set feedback 60000") 18
  = (CMD_STATE_RUNED, set_feedback initial_vars true 60000, [str "SP2-0267: feedback value is (0-50000)"]).
Proof. reflexivity. Qed.
