(* ===== verification/OracleDefine.v ===== *)
(** * Substitution variables and commands of Oracle mode (client/mysql.cc:
    set_key_value, get_input_str, scan_define_oracle, define_cmd_oracle,
    run_oracle_command)

    Before a statement is sent, the references to variables in it (marked by
    the define character) are replaced by their values; the commands PROMPT,
    DEFINE and EXECUTE are executed by the client.  The theorems say that
    the variables form a map whose keys do not distinguish case, that DEFINE
    stores what is written, and that the scan replaces exactly the
    references. *)

From S2P Require Import Prelude.
From S2P Require Import CString.
From S2P Require Import Charset.
From S2P Require Import Comments.
From S2P Require Import CommandArgs.
From S2P Require Import OracleSet.

(** ** Substitution variables *)

(** [global_define_map] as the list of its entries.  The source orders them by
    the addresses of their keys, which only [display_key_value] shows; here a
    new entry comes last. *)
Abbreviation define_map := (list (list Z * list Z)).

(** [strlen(first) == len && 0 == strncasecmp(first, key, len)] *)
Definition same_key (first key : list Z) : bool :=
  (strlen first =? length key)%nat && strncaseeq (length key) first key.

Fixpoint find_key (m : define_map) (key : list Z) : option (list Z) :=
  match m with
  | [] => None
  | (first, second) :: m' => if same_key first key then Some second else find_key m' key
  end.

(** The loop of [set_key_value]: the value of the first matching entry is
    replaced; a new entry is added when there is none. *)
Fixpoint set_or_add (m : define_map) (key val : list Z) : define_map :=
  match m with
  | [] => [(key, val)]
  | (first, second) :: m' =>
      if same_key first key then (first, val) :: m' else (first, second) :: set_or_add m' key val
  end.

Definition set_key_value (m : define_map) (strkey strval : list Z) : define_map :=
  if (0 <? strlen strkey)%nat && (0 <? strlen strval)%nat
  then set_or_add m (cstr strkey) (cstr strval) else m.

(** What is printed: an information line, the question for the value of a
    variable, and a line of a statement before and after its replacement. *)
Inductive message :=
  | Info (text : list Z)
  | AskFor (key : list Z)
  | OldVal (line_idx : Z) (line : list Z)
  | NewVal (line_idx : Z) (line : list Z).

Definition display_key_value (m : define_map) : list message :=
  map (fun '(k, v) => Info (take 4095 (str "DEFINE " ++ k ++ str "     = " ++ v))) m.

Definition free_global_define_map (m : define_map) : define_map := [].

(** What the functions below change: the substitution variables, the bytes
    still to read from the standard input, and what has been printed. *)
Record define_state := mkDef {
  global_define_map : define_map;
  stdin : list Z;
  printed : list message
}.

Definition say (d : define_state) (msgs : list message) : define_state :=
  mkDef (global_define_map d) (stdin d) (printed d ++ msgs).

Definition MAX_DEFINE_SIZE : nat := 4096.

(** [fgets(buf, size, stdin)]: what it stores and what remains. *)
Definition fgets (size : nat) (input : list Z) : list Z * list Z :=
  let n := Nat.min (S (span (fun c => negb (c =? c_nl)) input)) (size - 1) in
  (take n input, drop n input).

(** The newline at the end of [buf] is removed.  At the end of the input [buf]
    is empty and the source looks at the byte in front of it, which the model
    takes for none; the theorem below is about input that does not end. *)
Definition chop (buf : list Z) : list Z :=
  if bool_decide (last buf = Some c_nl) then take (length buf - 1) buf else buf.

Definition get_input_str (d : define_state) (varkey : list Z) (defcount : nat) : list Z * define_state :=
  match find_key (global_define_map d) varkey with
  | Some v => (v, d)
  | None =>
      let '(line, rest) := fgets MAX_DEFINE_SIZE (stdin d) in
      let varval := chop (cstr line) in
      (varval,
       mkDef (if (1 <? defcount)%nat then global_define_map d ++ [(varkey, varval)] else global_define_map d)
         rest (printed d ++ [AskFor varkey]))
  end.

Definition end_chars : list Z :=
  str "~!@#$%^&*()+`=-{}|[]:" ++ [34] ++ str ";'<>?,./" ++ [c_tab; c_cr; c_nl] ++ str "\ ".

(** [get_end_str] *)
Definition endstr1 : list Z := end_chars.
Definition endstr2 (define : Z) : list Z := filter (fun c => c <> define) end_chars.
Definition endstr3 (cs : CHARSET_INFO) (define : Z) : list Z :=
  filter (fun c => my_isspace cs c = false) (endstr2 define).

Definition strchr (s : list Z) (c : Z) : bool := bool_decide (c ∈ s).

Record scan_state := mkScan {
  newbuffer : list Z;
  old_line : list Z;
  new_line : list Z;
  line_idx : Z;
  def_count : nat;
  is_scan : bool
}.

(** [text] goes to the buffer and to both lines shown to the user. *)
Definition append3 (s : scan_state) (text : list Z) : scan_state :=
  mkScan (newbuffer s ++ text) (old_line s ++ text) (new_line s ++ text) (line_idx s) (def_count s) (is_scan s).

Definition append2 (s : scan_state) (text : list Z) : scan_state :=
  mkScan (newbuffer s ++ text) (old_line s) (new_line s ++ text) (line_idx s) (def_count s) (is_scan s).

Definition append_old (s : scan_state) (text : list Z) : scan_state :=
  mkScan (newbuffer s) (old_line s ++ text) (new_line s) (line_idx s) (def_count s) (is_scan s).

Definition set_count (s : scan_state) (n : nat) : scan_state :=
  mkScan (newbuffer s) (old_line s) (new_line s) (line_idx s) n (is_scan s).

Definition set_scan (s : scan_state) (b : bool) : scan_state :=
  mkScan (newbuffer s) (old_line s) (new_line s) (line_idx s) (def_count s) b.

(** The loop that reads define characters and what stands between them.
    [seg] is the text from [ptmp] to [p]. *)
Fixpoint define_run (fuel : nat) (cs : CHARSET_INFO) (dc : Z) (p seg : list Z) (have_space : bool)
    (s : scan_state) : list Z * list Z * scan_state :=
  match fuel, p with
  | S fuel', c :: p' =>
      if my_isspace cs c || strchr endstr1 c || (c =? dc) then
        if c =? dc then
          let '(seg, s) := if have_space then ([], append3 (set_count s 0) seg) else (seg, s) in
          define_run fuel' cs dc p' (seg ++ [c]) false (set_count s (S (def_count s)))
        else if strchr (endstr2 dc) c then
          let n := span (strchr (endstr2 dc)) p in
          let have_note := existsb (strchr (endstr3 cs dc)) (take n p) in
          let seg := seg ++ take n p in
          if bool_decide (drop n p = []) || have_note
          then define_run fuel' cs dc (drop n p) [] false (set_count (append3 s seg) 0)
          else define_run fuel' cs dc (drop n p) seg true s
        else define_run fuel' cs dc p' [c] false (append3 (set_count s 0) seg)
      else (p, seg, s)
  | _, _ => (p, seg, s)
  end.

(** Of three and more define characters in a row, the last one or two name
    a variable; the others are text. *)
Definition keep_marks (seg : list Z) (s : scan_state) : scan_state :=
  let s := append_old s seg in
  if (3 <=? def_count s)%nat then
    if Nat.odd (def_count s)
    then set_count (append2 s (take (def_count s - 1) seg)) 1
    else set_count (append2 s (take (def_count s - 2) seg)) 2
  else if (def_count s =? 0)%nat then append2 s seg
  else s.

(** The end of a turn: a character of ordinary text, and the report of a
    line in which something was replaced. *)
Definition plain_char (display : bool) (p : list Z) (s : scan_state) (d : define_state)
    : list Z * scan_state * define_state :=
  let c := deref p in
  let s :=
    if c =? 0 then s
    else if c =? c_nl then mkScan (newbuffer s ++ [c]) (old_line s) (new_line s) (line_idx s) (def_count s) (is_scan s)
    else append3 s [c] in
  if (c =? c_nl) || (c =? 0) || (at_ p 1 =? 0) then
    (drop 1 p, mkScan (newbuffer s) [] [] (line_idx s + 1) (def_count s) false,
     if is_scan s && display
     then say d [OldVal (line_idx s) (old_line s); NewVal (line_idx s) (new_line s)] else d)
  else (drop 1 p, s, d).

(** A reference: the define characters, the name behind them and its value.
    Without a name the define characters are text. *)
Definition define_turn (cs : CHARSET_INFO) (dc : Z) (display : bool) (p : list Z) (s : scan_state)
    (d : define_state) : list Z * scan_state * define_state :=
  let '(p, seg, s) := define_run (length p) cs dc p [] false s in
  let s := keep_marks seg s in
  let n := if (def_count s =? 0)%nat then 0%nat else span (fun c => negb (strchr endstr1 c)) p in
  let s := append_old s (take n p) in
  if (n =? 0)%nat then (p, set_count (set_scan s false) 0, d)
  else
    let '(v, d) := get_input_str d (take n p) (def_count s) in
    let s := set_count (set_scan (append2 s v) true) 0 in
    if deref (drop n p) =? dc then (drop n p, s, d) else plain_char display (drop n p) s d.

Fixpoint scan_loop (fuel : nat) (cs : CHARSET_INFO) (dc : Z) (display : bool) (p : list Z) (s : scan_state)
    (d : define_state) : scan_state * define_state :=
  match fuel, p with
  | S fuel', c :: _ =>
      let '(p, s, d) :=
        if c =? dc then define_turn cs dc display p s d else plain_char display p s d in
      scan_loop fuel' cs dc display p s d
  | _, _ => (s, d)
  end.

Definition scan_define_oracle (cs : CHARSET_INFO) (dc : Z) (display : bool) (buffer : list Z) (d : define_state)
    : list Z * define_state :=
  let '(s, d) :=
    scan_loop (length buffer) cs dc display (cstr buffer) (mkScan [] [] [] 1 0 false) d in
  (newbuffer s, d).

(** ** The commands *)

Definition valid_define_name (c : Z) : bool :=
  (c =? "_"%chr) || (("0"%chr <=? c) && (c <=? "9"%chr))
  || (("a"%chr <=? c) && (c <=? "z"%chr)) || (("A"%chr <=? c) && (c <=? "Z"%chr)).

Definition is_string_quote (c : Z) : bool := (c =? "'"%chr) || (c =? 34).

(** The value of a DEFINE: [None] when its quote is not closed. *)
Definition define_value (cs : CHARSET_INFO) (p : list Z) : option (list Z) :=
  let instring := if is_string_quote (deref p) then deref p else 0 in
  let val := if is_string_quote (deref p) then drop 1 p else p in
  let n := span (fun c => negb (my_isspace cs c || (c =? instring))) val in
  let stop := at_ val n in
  let instring := if negb (stop =? 0) && is_string_quote stop then 0 else instring in
  if instring =? 0 then Some (take n val) else None.

Definition define_cmd_oracle (cs : CHARSET_INFO) (line : list Z) (d : define_state) : define_state :=
  let p := JUMP_SPACE cs line in
  let p := if strncaseeq 6 p (str "define") then drop 6 p else p in
  let p := JUMP_SPACE cs p in
  if deref p =? 0 then say d (display_key_value (global_define_map d))
  else
    let n := span valid_define_name p in
    let key := take n p in
    let last := at_ p n in
    let p := JUMP_SPACE cs (drop (S n) p) in
    if (n =? 0)%nat then say d [Info (str "SP2-0553: invalid define name")]
    else if negb (deref p =? "="%chr) && negb (last =? "="%chr)
    then say d [Info (str "SP2-0136: DEFINE xxx=xxx")]
    else
      let p := if (deref p =? "="%chr) && negb (last =? "="%chr) then drop 1 p else p in
      match define_value cs (JUMP_SPACE cs p) with
      | None => say d [Info (str "invalid string")]
      | Some [] => say d [Info (str "SP2-0137: invalid define value")]
      | Some val => mkDef (set_key_value (global_define_map d) key val) (stdin d) (printed d)
      end.

(** The text without the semicolon that ends it: [e] moves back over spaces
    to a semicolon. *)
Definition trim_semicolon (cs : CHARSET_INFO) (p : list Z) : list Z :=
  let q := reverse (skip_while (my_isspace cs) (reverse p)) in
  if bool_decide (last q = Some ";"%chr) then take (length q - 1) q else p.

Section run.
  (** [com_go]: what executing a statement does, and its result. *)
  Context (com_go : list Z -> define_state -> Z * define_state).

(** [run_oracle_command] with what remains in the buffer. *)
Definition run_oracle_command (cs : CHARSET_INFO) (v : oracle_vars) (buffer : list Z) (line : option (list Z))
    (d : define_state) : CMD_STATE * list Z * define_state :=
  let tmp := buffer ++ default [] line in
  match get_trim_comment_sql tmp (Z.of_nat (length tmp)) with
  | None => (CMD_STATE_UNKNOW, buffer, d)
  | Some p =>
      let name := trim_semicolon cs p in
      let len := word_len cs name in
      let p := JUMP_SPACE cs (drop len name) in
      if abbreviates (str "prompt") 3 name len then
        let '(text, d) :=
          if is_define_oracle v then scan_define_oracle cs (define_char_oracle v) false p d else (p, d) in
        (CMD_STATE_RUNED, [], say d [Info text])
      else if abbreviates (str "define") 3 name len then
        (CMD_STATE_RUNED, [], define_cmd_oracle cs p d)
      else if abbreviates (str "execute") 4 name len then
        let '(r, d) := com_go (str "begin " ++ p ++ str "; end;") d in
        (if 0 <? r then CMD_STATE_ERROR else CMD_STATE_RUNED, [], d)
      else (CMD_STATE_UNKNOW, buffer, d)
  end.

End run.

(** ** Variables as a map *)

(** A name without its case. *)
Definition fold_case (s : list Z) : list Z := map tolower s.

Lemma strncaseeq_fold a b :
  c_string a -> c_string b -> length a = length b ->
  strncaseeq (length b) a b = true <-> fold_case a = fold_case b.
Proof.
  intros Ha. revert b. induction Ha as [|c a Hc Ha IH]; intros [|d b] Hb Hlen; try done.
  inversion Hb; subst. cbn. rewrite !drop_0, (is_char_nz c Hc).
  destruct (Z.eqb_spec (tolower c) (tolower d)) as [->|Hne]; cbn [negb].
  - rewrite (IH b) by (done || by injection Hlen). unfold fold_case. split; [intros H; by f_equal|by intros [= ?]].
  - split; [done|by intros [= ? _]].
Qed.

Lemma same_key_fold a b :
  c_string a -> c_string b -> same_key a b = true <-> fold_case a = fold_case b.
Proof.
  intros Ha Hb. unfold same_key. rewrite strlen_c_string by done.
  destruct (Nat.eqb_spec (length a) (length b)) as [Hlen|Hlen]; cbn [andb].
  - by apply strncaseeq_fold.
  - split; [done|]. intros H%(f_equal length). unfold fold_case in H. by rewrite !length_map in H.
Qed.

Lemma same_key_eq a b c :
  c_string a -> c_string b -> c_string c -> same_key a b = true -> same_key a c = same_key b c.
Proof.
  intros Ha Hb Hc H. apply same_key_fold in H; [|done..].
  apply eq_bool_prop_intro. rewrite !Is_true_true, !same_key_fold by done. by rewrite H.
Qed.

(** The entries are C strings, and no two of them have the same key. *)
Definition map_ok (m : define_map) : Prop :=
  Forall (fun e => c_string (fst e) /\ c_string (snd e)) m /\ NoDup (map (fun e => fold_case (fst e)) m).

Lemma set_or_add_find m k v k' :
  Forall (fun e => c_string (fst e) /\ c_string (snd e)) m -> c_string k -> c_string k' ->
  find_key (set_or_add m k v) k' = if same_key k k' then Some v else find_key m k'.
Proof.
  intros Hm Hk Hk'. induction Hm as [|[first second] m [H1 H2] _ IH]; cbn in *; [done|].
  destruct (same_key first k) eqn:Hs; cbn.
  - rewrite (same_key_eq first k k') by done. by destruct (same_key k k').
  - rewrite IH. destruct (same_key first k') eqn:Hf; [|done].
    destruct (same_key k k') eqn:Hkk; [|done].
    apply same_key_fold in Hf, Hkk; [|done..].
    exfalso. assert (same_key first k = true); [|congruence].
    apply same_key_fold; [done..|]. congruence.
Qed.

Lemma set_or_add_keys m k v :
  Forall (fun e => c_string (fst e) /\ c_string (snd e)) m -> c_string k ->
  map (fun e => fold_case (fst e)) (set_or_add m k v)
  = map (fun e => fold_case (fst e)) m
    ++ (if decide (fold_case k ∈ map (fun e => fold_case (fst e)) m) then [] else [fold_case k]).
Proof.
  intros Hm Hk. induction Hm as [|[first second] m [H1 H2] _ IH]; [done|].
  cbn [set_or_add]. destruct (same_key first k) eqn:Hs.
  - apply same_key_fold in Hs; [|done..]. cbn [map fst]. rewrite decide_True by (rewrite Hs; left).
    by rewrite app_nil_r.
  - cbn [map app fst]. rewrite IH. do 2 f_equal. apply decide_ext.
    rewrite elem_of_cons. split; [by right|]. intros [H|H]; [|done].
    symmetry in H. apply same_key_fold in H; [congruence|done..].
Qed.

Lemma set_or_add_ok m k v : map_ok m -> c_string k -> c_string v -> map_ok (set_or_add m k v).
Proof.
  intros [Hm Hnd] Hk Hv. split.
  - clear Hnd. induction Hm as [|[first second] m [H1 H2] Hm IH]; cbn; [by repeat constructor|].
    destruct (same_key first k); by repeat constructor.
  - rewrite set_or_add_keys by done. apply NoDup_app. split; [done|].
    case_decide; [split; [set_solver|constructor]|].
    split; [|apply NoDup_singleton]. intros x Hx ->%list_elem_of_singleton. done.
Qed.

(** The substitution variables form a map: after a variable is set, its
    name in any case gives the new value, every other name gives what it
    gave before, and no two entries ever have the same name, however their
    letters are written.  Setting a variable to an empty value, or a variable
    without a name, changes nothing. *)
Theorem set_key_value_map (m : define_map) (k v k' : list Z) :
  map_ok m -> c_string k -> c_string v -> c_string k' ->
  map_ok (set_key_value m k v)
  /\ find_key (set_key_value m k v) k'
     = if bool_decide (k <> [] /\ v <> [] /\ fold_case k = fold_case k') then Some v else find_key m k'.
Proof.
  intros Hm Hk Hv Hk'. unfold set_key_value. rewrite !strlen_c_string, !cstr_c_string by done.
  destruct k as [|c k]; [split; [done|]; rewrite bool_decide_eq_false_2; naive_solver|].
  destruct v as [|d v]; [split; [done|]; rewrite bool_decide_eq_false_2; naive_solver|].
  cbn [length Nat.ltb Nat.leb andb]. split; [by apply set_or_add_ok|].
  rewrite set_or_add_find by (done || apply Hm). destruct (same_key _ k') eqn:Hs.
  - rewrite bool_decide_eq_true_2; [done|]. split_and!; [done..|]. by apply same_key_fold.
  - rewrite bool_decide_eq_false_2; [done|]. intros (_ & _ & H). apply same_key_fold in H; [congruence|done..].
Qed.

Lemma set_key_value_map_witness :
  let m := [(str "Dir", str "/tmp"); (str "user", str "root")] in
  map_ok (set_key_value m (str "DIR") (str "/home"))
  /\ find_key (set_key_value m (str "DIR") (str "/home")) (str "dir") = Some (str "/home").
Proof.
  apply (set_key_value_map [(str "Dir", str "/tmp"); (str "user", str "root")] (str "DIR") (str "/home") (str "dir")).
  - split; [repeat constructor|]. by apply (bool_decide_unpack _).
  - repeat constructor.
  - repeat constructor.
  - repeat constructor.
Defined.

(** ** DEFINE stores what is written *)

Lemma strncaseeq_app_false n a b l :
  strncaseeq n a b = false -> (forall c, In c b -> tolower (deref l) <> tolower c) ->
  strncaseeq n (a ++ l) b = false.
Proof.
  revert n b. induction a as [|c a IH]; intros [|n] b H Hl; try done.
  - cbn [app strncaseeq]. destruct b as [|d b]; [done|]. cbn [deref nth].
    rewrite (proj2 (Z.eqb_neq _ _)); [done|]. apply Hl. by left.
  - cbn [app strncaseeq deref nth drop] in *. destruct (negb _); [done|]. destruct (c =? 0); [done|].
    rewrite !drop_0 in *. apply IH; [done|]. intros e He. apply Hl.
    destruct b as [|d b]; [by rewrite drop_nil in He|]. by right.
Qed.

(** A name that DEFINE accepts.  (The command skips a leading [define] of
    its argument, see [define_prefix_lost].) *)
Definition define_name (key : list Z) : Prop :=
  key <> [] /\ Forall (fun c => valid_define_name c = true) key /\ strncaseeq 6 key (str "define") = false.

Lemma valid_name_range c : valid_define_name c = true -> In c (map Z.of_nat (seq 48 75)).
Proof.
  unfold valid_define_name. rewrite !orb_true_iff, !andb_true_iff, Z.eqb_eq, !Z.leb_le.
  intros H. apply in_map_iff. exists (Z.to_nat c). rewrite in_seq. lia.
Qed.

Lemma valid_name_char cs c : ascii_compatible cs -> valid_define_name c = true ->
  c <> 0 /\ my_isspace cs c = false.
Proof.
  intros Hcs H. pose proof (valid_name_range c H) as Hin. clear H. split.
  - cbn in Hin. intros ->. by repeat destruct Hin as [?|Hin].
  - apply (ascii_isspace cs c false Hcs).
    + apply in_map_iff in Hin as (n & <- & [? ?]%in_seq). lia.
    + cbn in Hin. by repeat destruct Hin as [<-|Hin].
Qed.

Lemma space_not_name cs c : ascii_compatible cs -> my_isspace cs c = true -> valid_define_name c = false.
Proof.
  intros Hcs H. apply not_true_iff_false. intros Hv.
  apply (valid_name_char cs) in Hv as [_ Hv]; [congruence|done].
Qed.

(** The line is taken apart into its name and the text of its value. *)
Lemma define_cmd_oracle_parts cs sp1 key sp2 sp3 w d :
  ascii_compatible cs -> spaces cs sp1 -> spaces cs sp2 -> spaces cs sp3 ->
  c_string sp1 -> c_string sp2 -> c_string sp3 -> define_name key ->
  deref w <> 0 -> my_isspace cs (deref w) = false ->
  define_cmd_oracle cs (sp1 ++ key ++ sp2 ++ str "=" ++ sp3 ++ w) d
  = match define_value cs w with
    | None => say d [Info (str "invalid string")]
    | Some [] => say d [Info (str "SP2-0137: invalid define value")]
    | Some val => mkDef (set_key_value (global_define_map d) key val) (stdin d) (printed d)
    end.
Proof.
  intros Hcs Hs1 Hs2 Hs3 Hc1 Hc2 Hc3 (Hne & Hkey & Hdef) Hw0 Hws. unfold define_cmd_oracle.
  set (l := sp2 ++ str "=" ++ sp3 ++ w).
  assert (Heq : my_isspace cs "="%chr = false) by by apply (ascii_isspace cs _ _ Hcs).
  assert (Hk : deref (key ++ l) <> 0 /\ my_isspace cs (deref (key ++ l)) = false).
  { destruct Hkey as [|c key Hc]; [done|]. by apply valid_name_char. }
  assert (Hl : valid_define_name (deref l) = false).
  { subst l. destruct Hs2 as [|c sp2 Hc _]; [done|]. by apply (space_not_name cs). }
  assert (Hld : strncaseeq 6 (key ++ l) (str "define") = false).
  { apply strncaseeq_app_false; [done|]. intros c Hc Ht. revert Hl. unfold tolower in Ht.
    cbn in Hc. repeat destruct Hc as [<-|Hc]; try done; cbn in Ht;
    (destruct (_ && _) eqn:Hr in Ht; [|by rewrite Ht]);
    apply andb_prop in Hr as [H1%Z.leb_le H2%Z.leb_le];
    unfold valid_define_name; rewrite !orb_false_iff, !andb_false_iff, !Z.leb_gt; lia. }
  destruct Hk as [Hk0 Hks].
  rewrite (jump_blanks cs sp1) by done. rewrite Hld.
  assert (JUMP_SPACE cs (key ++ l) = key ++ l) as ->.
  { apply (jump_blanks cs [] (key ++ l)); [constructor|constructor|done|done]. }
  rewrite (proj2 (Z.eqb_neq _ _) Hk0).
  assert (span valid_define_name (key ++ l) = length key) as ->.
  { rewrite span_app by done. rewrite span_stop by done. lia. }
  rewrite take_app_length, at_app_length.
  replace (S (length key)) with (length key + 1)%nat by lia. rewrite <-drop_drop, drop_app_length.
  destruct (Nat.eqb_spec (length key) 0) as [H0|_]; [by destruct key|].
  assert (Hj : JUMP_SPACE cs w = w).
  { apply (jump_blanks cs [] w); [constructor|constructor|done|done]. }
  subst l. destruct sp2 as [|c sp2].
  - cbn [app str map list_ascii_of_string deref nth drop]. rewrite !drop_0.
    change (deref (_ :: _)) with "="%chr. rewrite (jump_blanks cs sp3) by done.
    rewrite Z.eqb_refl. cbn [negb]. rewrite !andb_false_r. by rewrite Hj.
  - inversion Hs2 as [|? ? Hc Hs2']; subst. apply (c_string_app [c]) in Hc2 as [_ Hc2'].
    cbn [app drop]. rewrite drop_0. change (deref (c :: _)) with c.
    rewrite (jump_blanks cs sp2) by done. change (deref (str "=" ++ _)) with "="%chr.
    destruct (Z.eqb_spec c "="%chr) as [->|_]; [congruence|]. cbn [negb andb Z.eqb Pos.eqb].
    change (drop 1 (str "=" ++ sp3 ++ w)) with (sp3 ++ w). by rewrite (jump_blanks cs sp3).
Qed.

(** A value as it is written, with or without quotes. *)
Definition written (q : option Z) (v : list Z) : list Z :=
  match q with None => v | Some c => c :: v ++ [c] end.

(** Where a value may be written with [q] and be followed by [tail]. *)
Definition writable (cs : CHARSET_INFO) (q : option Z) (v tail : list Z) : Prop :=
  match q with
  | None => is_string_quote (deref v) = false /\ (tail = [] \/ my_isspace cs (deref tail) = true)
  | Some c => is_string_quote c = true /\ c ∉ v
  end.

Lemma is_string_quote_cases c : is_string_quote c = true -> c = "'"%chr \/ c = 34.
Proof. unfold is_string_quote. rewrite orb_true_iff, !Z.eqb_eq. tauto. Qed.

Lemma quote_not_space cs c : ascii_compatible cs -> is_string_quote c = true ->
  my_isspace cs c = false /\ (c =? 0) = false.
Proof.
  intros Hcs [->| ->]%is_string_quote_cases; (split; [by apply (ascii_isspace cs _ _ Hcs)|done]).
Qed.

Lemma define_value_written cs q v tail :
  ascii_compatible cs -> v <> [] -> c_string v -> Forall (fun c => my_isspace cs c = false) v ->
  writable cs q v tail -> define_value cs (written q v ++ tail) = Some v.
Proof.
  intros Hcs Hne Hv Hsp Hq. unfold define_value. destruct q as [c|]; cbn [written app] in *.
  - destruct Hq as [Hc Hnin]. change (deref (c :: _)) with c. rewrite Hc. cbn [drop]. rewrite drop_0.
    destruct (quote_not_space cs c Hcs Hc) as [Hcs' Hc0]. rewrite <-app_assoc, span_app.
    + rewrite span_stop by (cbn; by rewrite Z.eqb_refl, orb_true_r).
      rewrite Nat.add_0_r, at_app_length, take_app_length. cbn [app deref nth]. by rewrite Hc0, Hc.
    + apply Forall_forall. intros x Hx. rewrite (proj1 (Forall_forall _ _) Hsp x Hx). cbn.
      apply negb_true_iff, Z.eqb_neq. by intros ->.
  - destruct Hq as [Hd Htail]. destruct v as [|c v]; [done|]. change (deref ((c :: v) ++ tail)) with c.
    cbn in Hd. rewrite Hd, span_app.
    + rewrite span_stop.
      2: { destruct Htail as [->|Ht]; [by rewrite orb_true_r|]. by rewrite Ht. }
      rewrite Nat.add_0_r, take_app_length. by destruct (_ && _).
    + apply Forall_forall. intros x Hx. rewrite (proj1 (Forall_forall _ _) Hsp x Hx). cbn [orb].
      pose proof (c_string_nz _ Hv). apply negb_true_iff, Z.eqb_neq. by intros ->.
Qed.

(** DEFINE stores what is written: [name = value], with any blanks around
    the name and the equal sign, and the value alone or between quotes of
    either kind, sets exactly that variable to exactly that value, asks and
    prints nothing, and leaves the other variables alone (see
    [set_or_add]). *)
Theorem define_cmd_oracle_stores (cs : CHARSET_INFO) (sp1 key sp2 sp3 v tail : list Z) (q : option Z) (d : define_state) :
  ascii_compatible cs -> spaces cs sp1 -> spaces cs sp2 -> spaces cs sp3 ->
  c_string sp1 -> c_string sp2 -> c_string sp3 -> define_name key ->
  v <> [] -> c_string v -> Forall (fun c => my_isspace cs c = false) v -> writable cs q v tail ->
  define_cmd_oracle cs (sp1 ++ key ++ sp2 ++ str "=" ++ sp3 ++ written q v ++ tail) d
  = mkDef (set_or_add (global_define_map d) key v) (stdin d) (printed d).
Proof.
  intros Hcs Hs1 Hs2 Hs3 Hc1 Hc2 Hc3 Hkey Hne Hv Hsp Hq.
  rewrite define_cmd_oracle_parts, define_value_written; [|done..| |].
  - destruct v as [|c v]; [done|]. f_equal. unfold set_key_value.
    assert (c_string key) as Hck.
    { eapply Forall_impl; [apply Hkey|]. intros x Hx%valid_name_range. cbn in Hx.
      by repeat destruct Hx as [<-|Hx]. }
    rewrite !strlen_c_string, !cstr_c_string by done. destruct Hkey as [Hk _]. by destruct key.
  - destruct q as [c|]; cbn in *; [apply Z.eqb_neq, (quote_not_space cs c Hcs (proj1 Hq))|].
    destruct v as [|c v]; [done|]. inversion Hv; subst. by apply Z.eqb_neq, is_char_nz.
  - destruct q as [c|]; cbn in *; [apply (quote_not_space cs c Hcs (proj1 Hq))|].
    destruct v as [|c v]; [done|]. by inversion Hsp.
Qed.

Lemma define_cmd_oracle_stores_witness :
  define_cmd_oracle my_charset_latin1 (str "dir = '/home' -- home") (mkDef [] [] [])
  = mkDef [(str "dir", str "/home")] [] [].
Proof.
  apply (define_cmd_oracle_stores my_charset_latin1 [] (str "dir") (str " ") (str " ") (str "/home") (str " -- home")
    (Some "'"%chr) (mkDef [] [] [])); try (by repeat constructor).
  split; [done|]. by apply (bool_decide_unpack _).
Defined.

(** A quoted value cannot contain a blank: the value ends at the first
    blank whether or not it is quoted, and the quote then counts as not
    closed.  The command is refused and changes no variable, although quotes
    have no other purpose than to protect blanks. *)
Theorem define_quoted_blank_refused (cs : CHARSET_INFO) (sp1 key sp2 sp3 v1 v2 : list Z) (q sp : Z) (d : define_state) :
  ascii_compatible cs -> spaces cs sp1 -> spaces cs sp2 -> spaces cs sp3 ->
  c_string sp1 -> c_string sp2 -> c_string sp3 -> define_name key ->
  Forall (fun c => my_isspace cs c = false) v1 -> q ∉ v1 -> is_string_quote q = true -> my_isspace cs sp = true ->
  define_cmd_oracle cs (sp1 ++ key ++ sp2 ++ str "=" ++ sp3 ++ written (Some q) (v1 ++ [sp] ++ v2)) d
  = mkDef (global_define_map d) (stdin d) (printed d ++ [Info (str "invalid string")]).
Proof.
  intros Hcs Hs1 Hs2 Hs3 Hc1 Hc2 Hc3 Hkey Hv1 Hq Hquote Hsp.
  destruct (quote_not_space cs q Hcs Hquote) as [Hqs Hq0].
  rewrite define_cmd_oracle_parts; [|done..|by apply Z.eqb_neq|done].
  unfold define_value. cbn [written]. change (deref (q :: _)) with q. rewrite Hquote. cbn [drop].
  rewrite drop_0, <-app_assoc, span_app.
  - rewrite span_stop by (cbn; by rewrite Hsp).
    rewrite Nat.add_0_r, at_app_length. cbn [app deref nth].
    destruct (is_string_quote sp) eqn:Hsq.
    + apply (quote_not_space cs) in Hsq as [? _]; [congruence|done].
    + rewrite andb_false_r. by rewrite Hq0.
  - apply Forall_forall. intros x Hx. rewrite (proj1 (Forall_forall _ _) Hv1 x Hx). cbn.
    apply negb_true_iff, Z.eqb_neq. by intros ->.
Qed.

Lemma define_quoted_blank_refused_witness :
  define_cmd_oracle my_charset_latin1 (str "greeting = 'hello world'") (mkDef [] [] [])
  = mkDef [] [] [Info (str "invalid string")].
Proof.
  apply (define_quoted_blank_refused my_charset_latin1 [] (str "greeting") (str " ") (str " ") (str "hello")
    (str "world") "'"%chr " "%chr (mkDef [] [] [])); try (by repeat constructor).
  by apply (bool_decide_unpack _).
Defined.

(** The name of a variable loses a leading [define]. *)
Example define_prefix_lost :
  define_cmd_oracle my_charset_latin1 (str "define_dir = x") (mkDef [] [] []) = mkDef [(str "_dir", str "x")] [] [].
Proof. reflexivity. Qed.

(** ** The scan replaces exactly the references *)

(** A statement is made of text and of references to variables; [two] is
    whether the reference has two define characters. *)
Inductive piece := Text (t : list Z) | Ref (two : bool) (key : list Z).

Definition marks (dc : Z) (two : bool) : list Z := if two then [dc; dc] else [dc].

Definition render1 (dc : Z) (x : piece) : list Z :=
  match x with Text t => t | Ref two key => marks dc two ++ key end.

Definition render (dc : Z) (ps : list piece) : list Z := concat (map (render1 dc) ps).

(** What the statement means.  [known] gives the values of the variables by
    their names in lower case, [answers] are the lines that the user will type.
    The result has the text, the variables that are asked for, the known values
    and the lines that are left; there is none when the lines do not suffice. *)
Definition learn (known : list Z -> option (list Z)) (key v : list Z) : list Z -> option (list Z) :=
  fun k => if bool_decide (k = fold_case key) then Some v else known k.

Fixpoint replaced (known : list Z -> option (list Z)) (answers : list (list Z)) (ps : list piece)
    : option (list Z * list (list Z) * (list Z -> option (list Z)) * list (list Z)) :=
  match ps with
  | [] => Some ([], [], known, answers)
  | Text t :: ps => '(text, asked, known, answers) ← replaced known answers ps; Some (t ++ text, asked, known, answers)
  | Ref two key :: ps =>
      match known (fold_case key), answers with
      | Some v, _ => '(text, asked, known, answers) ← replaced known answers ps; Some (v ++ text, asked, known, answers)
      | None, v :: answers =>
          '(text, asked, known, answers) ← replaced (if two then learn known key v else known) answers ps;
          Some (v ++ text, key :: asked, known, answers)
      | None, [] => None
      end
  end.

(** The substitution with the functions of the client. *)
Fixpoint substitute (ps : list piece) (d : define_state) : list Z * define_state :=
  match ps with
  | [] => ([], d)
  | Text t :: ps => let '(r, d) := substitute ps d in (t ++ r, d)
  | Ref two key :: ps =>
      let '(v, d) := get_input_str d key (length (marks 0 two)) in
      let '(r, d) := substitute ps d in (v ++ r, d)
  end.

Definition name_char (cs : CHARSET_INFO) (dc c : Z) : bool :=
  is_char c && negb (my_isspace cs c) && negb (strchr endstr1 c) && negb (c =? dc).

(** What may follow a reference. *)
Definition ends_name (ps : list piece) : Prop :=
  match ps with
  | Text t :: _ => strchr endstr1 (deref t) = true
  | _ => True
  end.

Definition text_ok (dc : Z) (t : list Z) : Prop := c_string t /\ dc ∉ t.

Fixpoint pieces_ok (cs : CHARSET_INFO) (dc : Z) (ps : list piece) : Prop :=
  match ps with
  | [] => True
  | Text t :: ps => t <> [] /\ text_ok dc t /\ pieces_ok cs dc ps
  | Ref _ key :: ps =>
      key <> [] /\ Forall (fun c => name_char cs dc c = true) key /\ ends_name ps /\ pieces_ok cs dc ps
  end.

(** The variables that the user has been asked for. *)
Definition questions (ms : list message) : list (list Z) :=
  omap (fun m => match m with AskFor key => Some key | _ => None end) ms.

Lemma questions_app a b : questions (a ++ b) = questions a ++ questions b.
Proof. unfold questions. induction a as [|[| | |] a IH]; cbn; rewrite ?IH; done. Qed.

(** States that differ only in the lines that were shown. *)
Definition same_vars (d d' : define_state) : Prop :=
  global_define_map d = global_define_map d' /\ stdin d = stdin d' /\ questions (printed d) = questions (printed d').

#[export] Instance same_vars_equivalence : Equivalence same_vars.
Proof. split; unfold same_vars; red; intros; intuition congruence. Qed.

(** Results that agree on the text and on the variables. *)
Definition same_result (r r' : list Z * define_state) : Prop := fst r = fst r' /\ same_vars (snd r) (snd r').

#[export] Instance same_result_equivalence : Equivalence same_result.
Proof.
  split; unfold same_result; red; [done|..].
  - intros x y [H1 H2]. by split; symmetry.
  - intros x y z [H1 H2] [H3 H4]. split; etrans; eauto.
Qed.

Lemma get_input_str_same d d' key n :
  same_vars d d' -> same_result (get_input_str d key n) (get_input_str d' key n).
Proof.
  intros (Hm & Hi & Hq). unfold get_input_str. rewrite <-Hm, <-Hi.
  destruct (find_key _ key); [by repeat split|].
  destruct (fgets _ _) as [line rest]. repeat split. cbn [printed snd].
  by rewrite !questions_app, Hq.
Qed.

Lemma substitute_same ps d d' : same_vars d d' -> same_result (substitute ps d) (substitute ps d').
Proof.
  revert d d'. induction ps as [|[t|two key] ps IH]; intros d d' H; cbn; [by split| |].
  - specialize (IH d d' H). destruct (substitute ps d), (substitute ps d').
    destruct IH as [[= ->] ?]. by split.
  - pose proof (get_input_str_same d d' key (length (marks 0 two)) H) as Hg.
    destruct (get_input_str d key _) as [v1 d1], (get_input_str d' key _) as [v2 d2].
    destruct Hg as [[= ->] Hg]. specialize (IH d1 d2 Hg).
    destruct (substitute ps d1), (substitute ps d2). destruct IH as [[= ->] ?]. by split.
Qed.

Lemma plain_char_text display c p s d :
  (c =? 0) = false ->
  exists s' d', plain_char display (c :: p) s d = (p, s', d')
    /\ newbuffer s' = newbuffer s ++ [c] /\ def_count s' = def_count s /\ same_vars d d'.
Proof.
  intros Hc. unfold plain_char. change (deref (c :: p)) with c. rewrite Hc. cbn [drop]. rewrite drop_0.
  destruct (c =? c_nl); destruct (_ || _ || _); try destruct (_ && display); eexists _, _; repeat split;
    cbn [say printed]; by rewrite ?questions_app, ?app_nil_r.
Qed.

Lemma plain_char_end display s d :
  exists s' d', plain_char display [] s d = ([], s', d')
    /\ newbuffer s' = newbuffer s /\ def_count s' = def_count s /\ same_vars d d'.
Proof.
  unfold plain_char. cbn. destruct (_ && display); eexists _, _; repeat split;
    cbn [say printed]; by rewrite ?questions_app, ?app_nil_r.
Qed.

Lemma name_char_inv cs dc c : name_char cs dc c = true ->
  (c =? 0) = false /\ my_isspace cs c = false /\ strchr endstr1 c = false /\ (c =? dc) = false.
Proof.
  unfold name_char. intros [[[H1 H2%negb_true_iff]%andb_prop H3%negb_true_iff]%andb_prop H4%negb_true_iff]%andb_prop.
  split_and!; [by apply is_char_nz|done..].
Qed.

(** The define characters in front of a name. *)
Lemma define_run_marks cs dc two c p s :
  name_char cs dc c = true -> def_count s = O ->
  define_run (length (marks dc two ++ c :: p)) cs dc (marks dc two ++ c :: p) [] false s
  = (c :: p, marks dc two, set_count s (length (marks 0 two))).
Proof.
  intros (H0 & Hs & He & Hd)%name_char_inv Hcount.
  destruct two; cbn [marks app length define_run].
  all: rewrite !Z.eqb_refl, !orb_true_r, Hs, He, Hd; cbn; by rewrite Hcount.
Qed.

Section scanning.
  Context (cs : CHARSET_INFO) (dc : Z) (display : bool).
  Context (Hdc : strchr endstr1 dc = true).

  #[local] Abbreviation result r := (newbuffer (fst r), snd r).

(** The claim for a scan that stands inside text [t]. *)
Definition scans (fuel : nat) : Prop :=
  forall ps t s d, (length (t ++ render dc ps) <= fuel)%nat -> text_ok dc t -> pieces_ok cs dc ps ->
    def_count s = O ->
    same_result (result (scan_loop fuel cs dc display (t ++ render dc ps) s d))
      (newbuffer s ++ t ++ fst (substitute ps d), snd (substitute ps d)).

Lemma scans_text fuel c t ps s d :
  scans fuel -> (length (t ++ render dc ps) <= fuel)%nat -> text_ok dc (c :: t) -> pieces_ok cs dc ps ->
  def_count s = O ->
  same_result
    (result (let '(p, s, d) := plain_char display (c :: t ++ render dc ps) s d in scan_loop fuel cs dc display p s d))
    (newbuffer s ++ c :: t ++ fst (substitute ps d), snd (substitute ps d)).
Proof.
  intros IH Hlen [Hc Hnin] Hps Hs. inversion Hc as [|? ? Hc0 Hct]; subst.
  destruct (plain_char_text display c (t ++ render dc ps) s d) as (s' & d' & -> & Hb & Hd & Hv); [by apply is_char_nz|].
  rewrite (IH ps t s' d'); [|done| |done|congruence].
  - rewrite Hb, <-app_assoc. destruct (substitute_same ps d d' Hv) as [-> Hv']. by split.
  - split; [done|]. intros ?. apply Hnin. by right.
Qed.

Lemma scan_name key ps :
  Forall (fun c => name_char cs dc c = true) key -> ends_name ps -> pieces_ok cs dc ps ->
  span (fun c => negb (strchr endstr1 c)) (key ++ render dc ps) = length key.
Proof.
  intros Hkey Hend Hps. rewrite span_app.
  - enough (span (fun c => negb (strchr endstr1 c)) (render dc ps) = O) by lia.
    destruct ps as [|[t|two k] ps]; [done|..]; cbn in *.
    + destruct t as [|c t]; [by destruct Hps|]. cbn in *. by rewrite Hend.
    + destruct two; cbn; by rewrite Hdc.
  - eapply Forall_impl; [exact Hkey|]. intros c (_ & _ & -> & _)%name_char_inv. done.
Qed.

Lemma define_turn_ref two key ps s d :
  key <> [] -> Forall (fun c => name_char cs dc c = true) key -> ends_name ps -> pieces_ok cs dc ps ->
  def_count s = O ->
  let p := render dc ps in
  let '(v, d1) := get_input_str d key (length (marks 0 two)) in
  exists s1, newbuffer s1 = newbuffer s ++ v /\ def_count s1 = O
    /\ define_turn cs dc display (marks dc two ++ key ++ p) s d
       = if deref p =? dc then (p, s1, d1) else plain_char display p s1 d1.
Proof.
  intros Hne Hkey Hend Hps Hs p. destruct (get_input_str d key _) as [v d1] eqn:Hget.
  unfold define_turn. pose proof (scan_name key ps Hkey Hend Hps) as Hspan. fold p in Hspan.
  destruct key as [|c key]; [done|]. cbn [app] in *.
  rewrite define_run_marks by (done || by inversion Hkey).
  assert (Hk : keep_marks (marks dc two) (set_count s (length (marks 0 two)))
    = append_old (set_count s (length (marks 0 two))) (marks dc two)) by (by destruct two).
  rewrite Hk. cbn [append_old set_count def_count].
  replace (length (marks 0 two) =? 0)%nat with false by by destruct two.
  rewrite Hspan. cbn [length Nat.eqb].
  change (c :: key ++ p) with ((c :: key) ++ p). change (S (length key)) with (length (c :: key)).
  rewrite take_app_length, drop_app_length, Hget. eexists. by repeat split.
Qed.

Lemma scans_ref fuel two key ps s d :
  scans fuel -> (length (render dc ps) <= fuel)%nat ->
  key <> [] -> Forall (fun c => name_char cs dc c = true) key -> ends_name ps -> pieces_ok cs dc ps ->
  def_count s = O ->
  same_result
    (result (let '(p, s, d) := define_turn cs dc display (marks dc two ++ key ++ render dc ps) s d in
             scan_loop fuel cs dc display p s d))
    (newbuffer s ++ fst (substitute (Ref two key :: ps) d), snd (substitute (Ref two key :: ps) d)).
Proof.
  intros IH Hlen Hne Hkey Hend Hps Hs.
  pose proof (define_turn_ref two key ps s d Hne Hkey Hend Hps Hs) as Ht. cbn [substitute].
  destruct (get_input_str d key _) as [v d1]. destruct Ht as (s1 & Hb & Hc & ->).
  assert (Hsub : same_result
    (newbuffer s1 ++ fst (substitute ps d1), snd (substitute ps d1))
    (newbuffer s ++ fst (let '(r, d) := substitute ps d1 in (v ++ r, d)),
     snd (let '(r, d) := substitute ps d1 in (v ++ r, d)))).
  { rewrite Hb, <-app_assoc. destruct (substitute ps d1). done. }
  rewrite <-Hsub. destruct (deref (render dc ps) =? dc) eqn:Hd.
  { apply (IH ps [] s1 d1); [done|by split; [constructor|apply not_elem_of_nil]|done|done]. }
  destruct ps as [|[t|two' key'] ps].
  - change (render dc []) with (@nil Z). destruct (plain_char_end display s1 d1) as (s2 & d2 & -> & Hb2 & Hc2 & Hv2). cbn.
    destruct fuel; cbn; rewrite Hb2, app_nil_r; split; [done|by symmetry|done|by symmetry].
  - destruct Hps as (Hnt & Ht & Hps). destruct t as [|c t]; [done|].
    cbn [render map concat render1 app]. fold (render dc ps).
    rewrite scans_text; [|done| |done..].
    + cbn. by destruct (substitute ps d1).
    + cbn in Hlen |- *. fold (render dc ps) in Hlen. lia.
  - exfalso. destruct two'; cbn in Hd; by rewrite Z.eqb_refl in Hd.
Qed.

Lemma scan_loop_pieces fuel : scans fuel.
Proof.
  assert (Hdc0 : dc <> 0) by (intros ->; by vm_compute in Hdc).
  induction fuel as [|fuel IH]; intros ps t s d Hlen Ht Hps Hs.
  { destruct t; [|cbn in Hlen; lia]. destruct ps as [|[t|two key] ps]; cbn in *.
    - rewrite app_nil_r. done.
    - destruct t; [by destruct Hps|cbn in Hlen; lia].
    - destruct two; cbn in Hlen; lia. }
  destruct t as [|c t].
  2: { cbn [app scan_loop]. rewrite (proj2 (Z.eqb_neq c dc)).
       2: { intros ->. destruct Ht as [_ Ht]. apply Ht. by left. }
       apply scans_text; [done| |done..]. cbn in Hlen. lia. }
  cbn [app]. destruct ps as [|[t|two key] ps].
  - cbn. by rewrite app_nil_r.
  - destruct Hps as (Hne & Ht' & Hps). destruct t as [|c t]; [done|].
    cbn [render map concat render1 app scan_loop]. fold (render dc ps).
    rewrite (proj2 (Z.eqb_neq c dc)).
    2: { intros ->. destruct Ht' as [_ Ht']. apply Ht'. by left. }
    rewrite scans_text; [|done| |done..].
    + cbn. by destruct (substitute ps d).
    + cbn in Hlen |- *. fold (render dc ps) in Hlen. lia.
  - destruct Hps as (Hne & Hkey & Hend & Hps). cbn [render map concat render1].
    fold (render dc ps). rewrite <-app_assoc.
    pose proof (scans_ref fuel two key ps s d IH) as H. destruct two; cbn [marks app scan_loop] in *;
      rewrite Z.eqb_refl; apply H; try done; cbn in Hlen; fold (render dc ps) in Hlen;
      rewrite length_app in Hlen; lia.
Qed.
End scanning.

(** The scan is the substitution. *)
Lemma scan_define_pieces (cs : CHARSET_INFO) (dc : Z) (display : bool) (ps : list piece) (d : define_state) :
  strchr endstr1 dc = true -> pieces_ok cs dc ps ->
  same_result (scan_define_oracle cs dc display (render dc ps) d) (substitute ps d).
Proof.
  intros Hdc Hps. unfold scan_define_oracle.
  assert (cstr (render dc ps) = render dc ps) as ->.
  { apply cstr_c_string. assert (is_char dc = true) as Hd.
    { apply bool_decide_eq_true in Hdc. clear -Hdc. revert dc Hdc. apply Forall_forall. by vm_compute; repeat constructor. }
    unfold render. apply Forall_concat, Forall_map. induction ps as [|[t|two key] ps IH]; constructor.
    - apply Hps.
    - apply IH, Hps.
    - apply c_string_app. split; [destruct two; by repeat constructor|].
      eapply Forall_impl; [apply Hps|]. intros c Hc. unfold name_char in Hc. by destruct (is_char c).
    - apply IH, Hps. }
  pose proof (scan_loop_pieces cs dc display Hdc (length (render dc ps)) ps []
    (mkScan [] [] [] 1 0 false) d) as H. cbn [app] in H.
  destruct (scan_loop _ _ _ _ _ _ _) as [s' d'].
  destruct H as [H1 H2]; [done|split; [constructor|apply not_elem_of_nil]|done|done|].
  by split.
Qed.

(** ** The functions of the client and the meaning *)

(** A line that the user may type. *)
Definition answer (a : list Z) : Prop := c_string a /\ (c_nl ∉ a) /\ (length a + 1 < MAX_DEFINE_SIZE)%nat.

Definition typed (answers : list (list Z)) : list Z := flat_map (fun a => a ++ [c_nl]) answers.

Lemma fgets_answer a rest : answer a -> fgets MAX_DEFINE_SIZE ((a ++ [c_nl]) ++ rest) = (a ++ [c_nl], rest).
Proof.
  intros (_ & Hn & Hl). unfold fgets. rewrite <-app_assoc.
  assert (span (fun c => negb (c =? c_nl)) (a ++ [c_nl] ++ rest) = length a) as ->.
  { clear Hl. induction a as [|c a IH]; [done|]. apply not_elem_of_cons in Hn as [Hc Hn]. cbn [app span].
    rewrite (proj2 (Z.eqb_neq c c_nl)) by done. cbn. f_equal. by apply IH. }
  rewrite Nat.min_l by lia. replace (S (length a)) with (length (a ++ [c_nl])) by (rewrite length_app; cbn; lia).
  by rewrite app_assoc, take_app_length, drop_app_length.
Qed.

Lemma chop_answer a : answer a -> chop (cstr (a ++ [c_nl])) = a.
Proof.
  intros (Hc & _). rewrite cstr_c_string by (apply c_string_app; split; [done|by repeat constructor]).
  unfold chop. rewrite last_snoc, bool_decide_eq_true_2 by done. rewrite length_app. cbn [length].
  by rewrite Nat.add_sub, take_app_length.
Qed.

(** The state of the client holds these values and lines. *)
Record holds (known : list Z -> option (list Z)) (answers : list (list Z)) (rest : list Z) (d : define_state) : Prop := {
  holds_map : forall k, c_string k -> find_key (global_define_map d) k = known (fold_case k);
  holds_input : stdin d = typed answers ++ rest
}.

Lemma find_key_app m key v k : c_string key -> c_string k ->
  (forall k', c_string k' -> fold_case k' = fold_case key -> find_key m k' = None) ->
  find_key (m ++ [(key, v)]) k = if bool_decide (fold_case k = fold_case key) then Some v else find_key m k.
Proof.
  intros Hkey Hk Hnone. destruct (bool_decide_reflect (fold_case k = fold_case key)) as [E|E].
  - specialize (Hnone k Hk E). induction m as [|[first second] m IH]; cbn in *.
    + by rewrite (proj2 (same_key_fold key k Hkey Hk)).
    + destruct (same_key first k); [done|]. by apply IH.
  - clear Hnone. induction m as [|[first second] m IH]; cbn.
    + destruct (same_key key k) eqn:Hs; [|done]. apply same_key_fold in Hs; [|done..]. congruence.
    + by rewrite IH.
Qed.

(** A question for a variable: its value, the answer and what is kept. *)
Lemma get_input_str_holds known answers rest d two key :
  holds known answers rest d -> c_string key -> Forall answer answers ->
  match known (fold_case key), answers with
  | Some v, _ => get_input_str d key (length (marks 0 two)) = (v, d)
  | None, v :: answers =>
      exists d', get_input_str d key (length (marks 0 two)) = (v, d')
        /\ holds (if two then learn known key v else known) answers rest d' /\ questions (printed d') = questions (printed d) ++ [key]
  | None, [] => True
  end.
Proof.
  intros [Hm Hi] Hk Ha. unfold get_input_str. rewrite (Hm key Hk). destruct (known (fold_case key)) as [v|] eqn:Ek; [done|].
  destruct answers as [|v answers]; [done|]. apply Forall_cons in Ha as [Hv _]. rewrite Hi. cbn [typed flat_map]. fold (typed answers).
  rewrite <-app_assoc, (fgets_answer v (typed answers ++ rest) Hv), (chop_answer v Hv). eexists. split; [done|].
  split; [|cbn [printed]; by rewrite questions_app]. split; [|done]. intros k Hkk. cbn [global_define_map].
  destruct two; cbn [marks length Nat.ltb Nat.leb]; [|by apply Hm].
  rewrite find_key_app; [unfold learn; by rewrite Hm|done|done|].
  intros k' Hk' E. by rewrite Hm, E.
Qed.

Lemma substitute_holds ps : forall known answers rest d text asked known' answers',
  Forall (fun x => match x with Ref _ key => c_string key | Text _ => True end) ps ->
  holds known answers rest d -> Forall answer answers ->
  replaced known answers ps = Some (text, asked, known', answers') ->
  fst (substitute ps d) = text /\ holds known' answers' rest (snd (substitute ps d))
  /\ questions (printed (snd (substitute ps d))) = questions (printed d) ++ asked.
Proof.
  induction ps as [|[t|two key] ps IH]; intros known answers rest d text asked known' answers' Hps Hh Ha Hr; cbn [replaced substitute] in *.
  - injection Hr as <- <- <- <-. by rewrite app_nil_r.
  - apply Forall_cons in Hps as [_ Hps]. destruct (replaced known answers ps) as [[[[x a] k] l]|] eqn:E; [|done]. cbn in Hr.
    injection Hr as <- <- <- <-. destruct (IH _ _ _ _ _ _ _ _ Hps Hh Ha E) as (<- & H2). by destruct (substitute ps d).
  - apply Forall_cons in Hps as [Hk Hps]. pose proof (get_input_str_holds known answers rest d two key Hh Hk Ha) as Hg.
    destruct (known (fold_case key)) as [v|]; [|destruct answers as [|v answers]; [done|]].
    + rewrite Hg. destruct (replaced known answers ps) as [[[[x a] k] l]|] eqn:E; [|done]. cbn in Hr.
      injection Hr as <- <- <- <-. destruct (IH _ _ _ _ _ _ _ _ Hps Hh Ha E) as (<- & H2). by destruct (substitute ps d).
    + destruct Hg as (d1 & -> & Hh1 & Hq). apply Forall_cons in Ha as [_ Ha].
      destruct (replaced _ answers ps) as [[[[x a] k] l]|] eqn:E; [|done]. cbn in Hr.
      injection Hr as <- <- <- <-. destruct (IH _ _ _ _ _ _ _ _ Hps Hh1 Ha E) as (<- & H2 & H3).
      destruct (substitute ps d1) as [x d2]. cbn [fst snd] in *. split; [done|]. split; [done|]. by rewrite H3, Hq, <-app_assoc.
Qed.

(** C12. Before a statement is sent, every reference to a variable in it is
    replaced by the value of the variable and everything else stays as it
    is: for every statement made of text and references, the scan returns the
    text with the values in place.  The user is asked for exactly the variables
    that have no value, in order, one line of the input for each; the values
    asked for with two define characters are known afterwards, under the name
    in whatever case, and nothing else changes, whether or not the replaced
    lines are shown.  The input has to have lines enough. *)
Theorem scan_define_substitutes (cs : CHARSET_INFO) (dc : Z) (display : bool) (ps : list piece) (d : define_state)
    (known : list Z -> option (list Z)) (answers : list (list Z)) (rest : list Z) text asked known' answers' :
  strchr endstr1 dc = true -> pieces_ok cs dc ps -> holds known answers rest d -> Forall answer answers ->
  replaced known answers ps = Some (text, asked, known', answers') ->
  let '(buffer, d') := scan_define_oracle cs dc display (render dc ps) d in
  buffer = text /\ holds known' answers' rest d' /\ questions (printed d') = questions (printed d) ++ asked.
Proof.
  intros Hdc Hps Hh Ha Hr. assert (Hkeys : Forall (fun x => match x with Ref _ key => c_string key | Text _ => True end) ps).
  { clear Hr. induction ps as [|[t|two key] ps IH]; constructor; try done; try (apply IH, Hps).
    eapply Forall_impl; [apply Hps|]. intros c Hc. unfold name_char in Hc. by destruct (is_char c). }
  destruct (substitute_holds ps known answers rest d text asked known' answers' Hkeys Hh Ha Hr) as (H1 & [H2 H3] & H4).
  destruct (scan_define_pieces cs dc display ps d Hdc Hps) as (E1 & E2 & E3 & E4).
  destruct (scan_define_oracle cs dc display (render dc ps) d) as [buffer d']. cbn [fst snd] in *.
  split; [congruence|]. split; [split; [by rewrite E2|congruence]|congruence].
Qed.

Lemma scan_define_substitutes_witness :
  let d := mkDef [(str "y", str "7")] (str "42" ++ [c_nl]) [] in
  let '(buffer, d') := scan_define_oracle my_charset_latin1 "&"%chr true (str "select &&x from t where a=&x+&Y;") d in
  buffer = str "select 42 from t where a=42+7;" /\ find_key (global_define_map d') (str "X") = Some (str "42")
  /\ stdin d' = [] /\ questions (printed d') = [str "x"].
Proof.
  pose proof (scan_define_substitutes my_charset_latin1 "&"%chr true
    [Text (str "select "); Ref true (str "x"); Text (str " from t where a="); Ref false (str "x");
     Text (str "+"); Ref false (str "Y"); Text (str ";")] (mkDef [(str "y", str "7")] (str "42" ++ [c_nl]) [])
    (learn (fun _ => None) (str "y") (str "7")) [str "42"] [] (str "select 42 from t where a=42+7;") [str "x"]
    (learn (learn (fun _ => None) (str "y") (str "7")) (str "x") (str "42")) []) as H.
  cbv zeta. change (render "&"%chr _) with (str "select &&x from t where a=&x+&Y;") in H.
  destruct (scan_define_oracle _ _ _ _ _) as [buffer d'].
  destruct H as (H1 & [H2 H3] & H4); [by vm_compute| | | |by vm_compute|].
  - cbn [pieces_ok]. split_and!; try (by vm_compute); try (split; [by repeat constructor|by apply (bool_decide_unpack _)]).
    all: by repeat constructor.
  - split; [|done]. intros k Hk. cbn [find_key global_define_map]. unfold learn.
    destruct (same_key (str "y") k) eqn:E.
    + apply same_key_fold in E; [|by repeat constructor|done]. by rewrite bool_decide_eq_true_2.
    + rewrite bool_decide_eq_false_2; [done|]. intros E2. assert (same_key (str "y") k = true); [|congruence].
      apply same_key_fold; [by repeat constructor|done|done].
  - apply Forall_singleton. split_and!; [by repeat constructor|by apply (bool_decide_unpack _)|by apply Nat.ltb_lt].
  - split; [done|]. split; [rewrite H2 by (by repeat constructor); by vm_compute|]. by split.
Defined.

(** ** The scan always ends *)

Lemma define_run_shrinks fuel cs dc p seg have_space s :
  (length (fst (fst (define_run fuel cs dc p seg have_space s))) <= length p)%nat.
Proof.
  revert p seg have_space s. induction fuel as [|fuel IH]; intros p seg have_space s; [done|].
  destruct p as [|c p]; [done|]. cbn [define_run]. destruct (_ || _ || _); [|done].
  destruct (c =? dc).
  - destruct have_space; (etrans; [apply IH|cbn; lia]).
  - destruct (strchr (endstr2 dc) c).
    + destruct (_ || _); (etrans; [apply IH|rewrite length_drop; lia]).
    + etrans; [apply IH|cbn; lia].
Qed.

Lemma plain_char_shrinks display c p s d : fst (fst (plain_char display (c :: p) s d)) = p.
Proof. unfold plain_char. destruct (_ || _ || _); done. Qed.

Lemma define_turn_shrinks cs dc display p s d :
  (length (fst (fst (define_turn cs dc display (dc :: p) s d))) <= length p)%nat.
Proof.
  unfold define_turn.
  assert (H : (length (fst (fst (define_run (length (dc :: p)) cs dc (dc :: p) [] false s))) <= length p)%nat).
  { cbn [length define_run]. rewrite Z.eqb_refl, orb_true_r. apply define_run_shrinks. }
  destruct (define_run _ _ _ _ _ _ _) as [[q seg] s']. cbn [fst] in H. set (n := if (_ =? 0)%nat then 0%nat else _).
  destruct (n =? 0)%nat; [done|]. destruct (get_input_str d _ _) as [v d'].
  assert (Hn : (length (drop n q) <= length p)%nat) by (rewrite length_drop; lia).
  destruct (_ =? dc); [done|]. destruct (drop n q) as [|c l].
  - unfold plain_char. cbn. lia.
  - rewrite plain_char_shrinks. cbn in Hn. lia.
Qed.

(** The scan for references ends on every buffer, whatever define
    characters, blanks and special characters it holds and whatever the
    define character is: after at most as many turns as there are bytes the
    whole buffer has been read, and further turns change nothing. *)
Theorem scan_loop_ends (cs : CHARSET_INFO) (dc : Z) (display : bool) (p : list Z) (s : scan_state) (d : define_state) (k : nat) :
  scan_loop (length p + k) cs dc display p s d = scan_loop (length p) cs dc display p s d.
Proof.
  enough (H : forall n p s d, (length p <= n)%nat ->
    scan_loop n cs dc display p s d = scan_loop (length p) cs dc display p s d) by (apply H; lia).
  clear p s d k. intros n p. remember (length p) as m eqn:Hm. revert n p Hm.
  induction m as [m IH] using lt_wf_ind. intros n p -> s d Hn.
  destruct p as [|c p]; [by destruct n|]. destruct n as [|n]; cbn in Hn; [lia|]. cbn [length scan_loop].
  set (turn := if c =? dc then _ else _).
  assert (Hs : (length (fst (fst turn)) <= length p)%nat).
  { subst turn. destruct (Z.eqb_spec c dc) as [->|_]; [apply define_turn_shrinks|by rewrite plain_char_shrinks]. }
  destruct turn as [[q s'] d']. cbn [fst] in Hs. rewrite (IH (length q)) by (cbn; lia || done).
  symmetry. rewrite (IH (length q)) by (cbn; lia || done). done.
Qed.
