(* ===== verification/Numbers.v ===== *)
(** * Integers in decimal and other notations (strings/int2str.c,
    strings/longlong2str.c, strings/my_strtoll10.c)

    The conversions between machine integers and text that the client and its
    libraries use.  A 64-bit value is a [Z]; where the source computes with
    unsigned numbers the wrap-around is written out.  The printing functions
    return the bytes they store at [dst].  The theorems say that every
    notation denotes the number, that the decimal shortcuts agree with the
    general function, that the three-part reading of [my_strtoll10] computes
    the value of all digits or reports the overflow, and that what is printed
    is read back. *)

From S2P Require Import Prelude.
From S2P Require Import CString.
From S2P Require Import Charset.
From S2P Require Import CommandArgs.

(** ** Machine integers *)

Definition u64 (z : Z) : Z := z mod 2 ^ 64.
Definition s64 (z : Z) : Z := (z + 2 ^ 63) mod 2 ^ 64 - 2 ^ 63.
Definition LONG_MAX : Z := 2 ^ 63 - 1.
Definition LONGLONG_MIN : Z := - 2 ^ 63.
Definition ULONGLONG_MAX : Z := 2 ^ 64 - 1.

Definition int64 (z : Z) : Prop := - 2 ^ 63 <= z < 2 ^ 63.

(** ** Printing *)

Definition dig_vec_upper : list Z := str "0123456789ABCDEFGHIJKLMNOPQRSTUVWXYZ".
Definition dig_vec_lower : list Z := str "0123456789abcdefghijklmnopqrstuvwxyz".

(** The loops run at most once for each bit of the number. *)
Definition MAX_DIGITS : nat := 64.

(** [while (uval > LONG_MAX)]: one digit by unsigned division. *)
Fixpoint ulonglong_digits (fuel : nat) (dig : Z -> Z) (radix uval : Z) (p : list Z) : Z * list Z :=
  match fuel with
  | O => (uval, p)
  | S fuel' =>
      if LONG_MAX <? uval then
        let quo := uval / radix in
        ulonglong_digits fuel' dig radix quo (dig (uval - quo * radix) :: p)
      else (uval, p)
  end.

(** [while (long_val != 0)]: one digit by signed division. *)
Fixpoint long_digits (fuel : nat) (dig : Z -> Z) (radix long_val : Z) (p : list Z) : list Z :=
  match fuel with
  | O => p
  | S fuel' =>
      if long_val =? 0 then p
      else
        let quo := Z.quot long_val radix in
        long_digits fuel' dig radix quo (dig (long_val - quo * radix) :: p)
  end.

Definition vec_digit (vec : list Z) (d : Z) : Z := at_ vec (Z.to_nat d).

(** The sign a radix below zero asks for, and the unsigned value. *)
Definition sign_and_value (val radix : Z) : list Z * Z :=
  if (radix <? 0) && (val <? 0) then ([ "-"%chr ], u64 (0 - u64 val)) else ([], u64 val).

Definition bad_radix (radix : Z) : bool :=
  if radix <? 0 then (radix <? -36) || (-2 <? radix) else (36 <? radix) || (radix <? 2).

Definition ll2str (val radix : Z) (upcase : bool) : option (list Z) :=
  let dig := vec_digit (if upcase then dig_vec_upper else dig_vec_lower) in
  if bad_radix radix then None
  else
    let '(sign, uval) := sign_and_value val radix in
    if uval =? 0 then Some (sign ++ str "0")
    else
      let '(uval, p) := ulonglong_digits MAX_DIGITS dig (Z.abs radix) uval [] in
      Some (sign ++ long_digits MAX_DIGITS dig (Z.abs radix) (s64 uval) p).

Definition longlong10_to_str (val radix : Z) : list Z :=
  let dig := vec_digit dig_vec_upper in
  let '(sign, uval) := sign_and_value val radix in
  if uval =? 0 then sign ++ str "0"
  else
    let '(uval, p) := ulonglong_digits MAX_DIGITS dig 10 uval [] in
    sign ++ long_digits MAX_DIGITS dig 10 (s64 uval) p.

(** In [int2str] the first digit is always split off by unsigned division. *)
Definition int2str (val radix : Z) (upcase : bool) : option (list Z) :=
  let dig := vec_digit (if upcase then dig_vec_upper else dig_vec_lower) in
  if bad_radix radix then None
  else
    let '(sign, uval) := sign_and_value val radix in
    let new_val := s64 (uval / Z.abs radix) in
    Some (sign ++ long_digits MAX_DIGITS dig (Z.abs radix) new_val
            [dig (u64 (uval - u64 (u64 new_val * Z.abs radix)))]).

Definition int10_to_str (val radix : Z) : list Z :=
  let dig d := "0"%chr + d in
  let '(sign, uval) := sign_and_value val radix in
  let new_val := s64 (uval / 10) in
  sign ++ long_digits MAX_DIGITS dig 10 new_val [dig (u64 (uval - u64 (u64 new_val * 10)))].

(** ** Reading *)

Definition MY_ERRNO_EDOM : Z := 33.
Definition MY_ERRNO_ERANGE : Z := 34.
Definition MAX_NEGATIVE_NUMBER : Z := 2 ^ 63.
Definition INIT_CNT : nat := 9.
Definition LFACTOR : Z := 1000000000.
Definition LFACTOR1 : Z := 10000000000.
Definition LFACTOR2 : Z := 100000000000.
Definition lfactor : list Z := [1; 10; 100; 1000; 10000; 100000; 1000000; 10000000; 100000000].

(** The value returned, the error code, and where the end pointer stands: the
    number of bytes behind the start. *)
Record conversion := mkConv { conv_value : Z; conv_error : Z; conv_end : nat }.

(** [(c= ( *s-'0')) > 9] with an unsigned [c] fails. *)
Definition is_digit (c : Z) : bool := (c - "0"%chr) mod 256 <=? 9.

(** A loop that reads at most [n] digits and stops at the end of the text
    ([s] is the list of bytes up to [end]): the number, the bytes left and
    whether it stopped at another character. *)
Fixpoint read_digits (n : nat) (s : list Z) (acc : Z) : Z * list Z * bool :=
  match n, s with
  | S n', c :: s' => if is_digit c then read_digits n' s' (acc * 10 + (c - "0"%chr)) else (acc, s, true)
  | _, _ => (acc, s, false)
  end.

(** [do { if (++s == end) ... } while ( *s == '0')] *)
Definition skip_zeros (s : list Z) : list Z := skip_while (fun c => c =? "0"%chr) s.

Definition signed (negative : bool) (li : Z) : Z := if negative then s64 (- s64 li) else s64 li.

Definition overflow (negative : bool) : Z * Z :=
  (if negative then LONGLONG_MIN else s64 ULONGLONG_MAX, MY_ERRNO_ERANGE).

(** [i > cutoff || (i == cutoff && (j > cutoff2 || ...))] *)
Definition above (max i j k : Z) : bool :=
  (max / LFACTOR2 <? i)
  || (i =? max / LFACTOR2)
     && ((max mod LFACTOR2 / 100 <? j) || (j =? max mod LFACTOR2 / 100) && (max mod 100 <? k)).

(** The last one or two digits; [c] is the value of the first of them.  The
    byte at the end of the text counts as no digit. *)
Definition read_tail (negative : bool) (i j c : Z) (s : list Z) : Z * Z * list Z :=
  let error := if negative then -1 else 0 in
  if is_digit (deref s) then
    let k := c * 10 + (deref s - "0"%chr) in
    let s := drop 1 s in
    if is_digit (deref s) then (overflow negative, s)
    else if above (if negative then MAX_NEGATIVE_NUMBER else ULONGLONG_MAX) i j k then (overflow negative, s)
    else (s64 (u64 (u64 (i * LFACTOR2) + u64 (j * 100) + k)), error, s)
  else
    let li := u64 (u64 (i * LFACTOR1) + u64 (j * 10) + c) in
    if negative && (MAX_NEGATIVE_NUMBER <? li) then (overflow negative, s)
    else (signed negative li, error, s).

(** From the first digit that is not a leading zero on; [i] holds [9 - n]
    digits already. *)
Definition read_number (negative : bool) (n : nat) (i : Z) (s : list Z) : Z * Z * list Z :=
  let error := if negative then -1 else 0 in
  let '(i, s, stop) := read_digits n s i in
  if stop || bool_decide (s = []) then (signed negative i, error, s)
  else
    let '(j, s1, stop) := read_digits INIT_CNT s 0 in
    let count := (length s - length s1)%nat in
    if stop || bool_decide (s1 = []) && negb (count =? INIT_CNT)%nat
    then (signed negative (u64 (u64 (i * at_ lfactor count) + j)), error, s1)
    else match s1 with
         | c :: s2 =>
             if is_digit c then read_tail negative i j (c - "0"%chr) s2
             else (signed negative (u64 (u64 (i * LFACTOR) + j)), error, s1)
         | [] => (signed negative (u64 (u64 (i * LFACTOR) + j)), error, s1)
         end.

(** The digits behind the sign, leading zeros included; [None] is [no_conv]. *)
Definition read_unsigned (negative : bool) (s : list Z) : option (Z * Z * list Z) :=
  match s with
  | [] => None
  | c :: s' =>
      if c =? "0"%chr then
        let s := skip_zeros s' in
        Some (match s with
              | [] => (signed negative 0, if negative then -1 else 0, s)
              | _ => read_number negative INIT_CNT 0 s
              end)
      else if is_digit c then Some (read_number negative (INIT_CNT - 1) (c - "0"%chr) s')
      else None
  end.

(** The part of the function behind the blanks. *)
Definition read_signed (s : list Z) : option (Z * Z * list Z) :=
  match s with
  | [] => None
  | c :: s' =>
      if c =? "-"%chr then read_unsigned true s'
      else read_unsigned false (if c =? "+"%chr then s' else s)
  end.

(** [endptr] gives the number of bytes of a text of fixed length; without it
    the text ends with a NUL, which is part of the bytes that are read. *)
Definition my_strtoll10 (nptr : list Z) (endptr : option nat) : conversion :=
  let blanks_skipped := skip_while (my_isspace my_charset_latin1) in
  let s :=
    match endptr with
    | Some n => blanks_skipped (take n nptr)
    | None => if bool_decide (blanks_skipped nptr = []) then [] else take (Z.to_nat 65535) (blanks_skipped nptr ++ [0])
    end in
  let total :=
    match endptr with
    | Some n => length (take n nptr)
    | None => (length nptr - length (blanks_skipped nptr) + length s)%nat
    end in
  match read_signed s with
  | None => mkConv 0 MY_ERRNO_EDOM 0
  | Some (v, e, s') => mkConv v e (total - length s')
  end.

(** ** What a notation denotes *)

Definition positional (radix : Z) (ds : list Z) : Z := fold_left (fun acc d => acc * radix + d) ds 0.

(** [ds] are the digits of [n], without leading zeros. *)
Definition denotes (radix n : Z) (ds : list Z) : Prop :=
  ds <> [] /\ Forall (fun d => 0 <= d < radix) ds /\ positional radix ds = n /\ (deref ds = 0 -> ds = [0]).

Lemma positional_snoc radix ds d : positional radix (ds ++ [d]) = positional radix ds * radix + d.
Proof. unfold positional. by rewrite fold_left_app. Qed.

Lemma positional_app radix a b :
  positional radix (a ++ b) = positional radix a * radix ^ Z.of_nat (length b) + positional radix b.
Proof.
  induction b as [|d b IH] using rev_ind.
  - rewrite app_nil_r. cbn. lia.
  - rewrite app_assoc, !positional_snoc, IH, length_app. cbn [length].
    rewrite Nat2Z.inj_add, Z.pow_add_r by lia. change (radix ^ Z.of_nat 1) with (radix ^ 1). rewrite Z.pow_1_r. ring.
Qed.

Lemma positional_range radix ds :
  0 < radix -> Forall (fun d => 0 <= d < radix) ds -> 0 <= positional radix ds < radix ^ Z.of_nat (length ds).
Proof.
  intros Hr. induction ds as [|d ds IH] using rev_ind; intros H; [cbn; lia|].
  apply Forall_app in H as [H1 [H2 _]%Forall_cons]. specialize (IH H1).
  rewrite positional_snoc, length_app, Nat2Z.inj_add, Z.pow_add_r by lia.
  change (radix ^ Z.of_nat (length [d])) with (radix ^ 1). rewrite Z.pow_1_r.
  set (R := radix ^ Z.of_nat (length ds)) in *.
  assert (positional radix ds * radix <= (R - 1) * radix) by (apply Z.mul_le_mono_nonneg_r; lia).
  assert (0 <= positional radix ds * radix) by (apply Z.mul_nonneg_nonneg; lia). lia.
Qed.

Lemma positional_lower radix ds :
  0 < radix -> Forall (fun d => 0 <= d < radix) ds -> ds <> [] -> deref ds <> 0 ->
  radix ^ Z.of_nat (length ds - 1) <= positional radix ds.
Proof.
  intros Hr H Hne Hd. destruct ds as [|d ds]; [done|]. inversion H; subst. cbn in Hd.
  change (d :: ds) with ([d] ++ ds). rewrite positional_app. cbn [length app].
  replace (S (length ds) - 1)%nat with (length ds) by lia.
  pose proof (positional_range radix ds Hr ltac:(done)). change (positional radix [d]) with (0 * radix + d).
  assert (0 < radix ^ Z.of_nat (length ds)) by (apply Z.pow_pos_nonneg; lia). nia.
Qed.

(** The number in front of the last digit has no leading zeros either. *)
Lemma leading_init radix a d :
  1 < radix -> Forall (fun d => 0 <= d < radix) a -> (deref (a ++ [d]) = 0 -> a ++ [d] = [0]) ->
  (positional radix a = 0 <-> a = []) /\ (deref a = 0 -> a = []).
Proof.
  intros Hr Ha H. destruct a as [|f a]; [done|].
  assert (f <> 0) as Hf by (cbn in H; intros ->; specialize (H eq_refl); by destruct a).
  pose proof (positional_lower radix (f :: a) ltac:(lia) Ha ltac:(done) Hf).
  assert (0 < radix ^ Z.of_nat (length (f :: a) - 1)) by (apply Z.pow_pos_nonneg; lia).
  split; [split; [lia|done]|]. cbn. done.
Qed.

(** The digits of a number are determined by it. *)
Lemma denotes_unique radix n a b : 1 < radix -> denotes radix n a -> denotes radix n b -> a = b.
Proof.
  intros Hr. revert n b. induction a as [|d a IH] using rev_ind; intros n b (Hna & Ha & Hva & H0a) (Hnb & Hb & Hvb & H0b); [done|].
  destruct b as [|e b _] using rev_ind; [done|].
  apply Forall_app in Ha as [Ha [Hd _]%Forall_cons]. apply Forall_app in Hb as [Hb [He _]%Forall_cons].
  rewrite positional_snoc in Hva, Hvb.
  destruct (leading_init radix a d Hr Ha H0a) as [Hza Hla].
  destruct (leading_init radix b e Hr Hb H0b) as [Hzb Hlb].
  destruct (Z.div_mod_unique radix (positional radix a) (positional radix b) d e) as [Heq ->]; [lia..|].
  f_equal. destruct (decide (a = [])) as [->|Hane].
  - symmetry. apply Hzb. by rewrite <-Heq.
  - assert (b <> []) as Hbne by (intros ->; apply Hane, Hza; by rewrite Heq).
    apply (IH (positional radix a)); split_and!; try done; intros H; exfalso; auto.
Qed.

(** ** The printing functions *)

Lemma long_digits_spec fuel dig radix v p :
  1 < radix -> 0 <= v < radix ^ Z.of_nat fuel ->
  exists ds, long_digits fuel dig radix v p = map dig ds ++ p
    /\ Forall (fun d => 0 <= d < radix) ds /\ positional radix ds = v
    /\ (deref ds = 0 -> ds = []) /\ (length ds <= fuel)%nat.
Proof.
  intros Hr. revert v p. induction fuel as [|fuel IH]; intros v p Hv.
  { exists []. cbn in *. repeat split; try done. lia. }
  cbn [long_digits]. destruct (Z.eqb_spec v 0) as [->|Hv0].
  { exists []. repeat split; try done. cbn. lia. }
  rewrite Nat2Z.inj_succ, Z.pow_succ_r in Hv by lia.
  rewrite Z.quot_div_nonneg by lia. pose proof (Z.div_mod v radix ltac:(lia)) as Hdm.
  pose proof (Z.mod_pos_bound v radix ltac:(lia)) as Hm. pose proof (Z.div_pos v radix ltac:(lia) ltac:(lia)).
  destruct (IH (v / radix) (dig (v - v / radix * radix) :: p)) as (ds & -> & Hds & Hval & H0 & Hlen).
  { split; [done|]. apply Z.div_lt_upper_bound; lia. }
  exists (ds ++ [v - v / radix * radix]). rewrite map_app, <-app_assoc. split_and!; [done|..].
  - apply Forall_app. split; [done|]. repeat constructor; lia.
  - rewrite positional_snoc, Hval. lia.
  - destruct ds as [|d ds]; cbn; [|intros Hd; by specialize (H0 Hd)].
    change (positional radix []) with 0 in Hval. rewrite <-Hval. lia.
  - rewrite length_app. cbn. lia.
Qed.

Lemma s64_id z : int64 z -> s64 z = z.
Proof. unfold int64, s64. intros H. rewrite Z.mod_small; lia. Qed.

Lemma u64_id z : 0 <= z < 2 ^ 64 -> u64 z = z.
Proof. intros H. unfold u64. by rewrite Z.mod_small. Qed.

Lemma u64_range z : 0 <= u64 z < 2 ^ 64.
Proof. apply Z.mod_pos_bound. lia. Qed.

(** The number a radix asks to print. *)
Definition printed_value (val radix : Z) : Z := if radix <? 0 then Z.abs val else u64 val.
Definition printed_sign (val radix : Z) : list Z := if (radix <? 0) && (val <? 0) then [ "-"%chr ] else [].

Lemma sign_and_value_spec val radix : int64 val ->
  sign_and_value val radix = (printed_sign val radix, printed_value val radix)
  /\ 0 <= printed_value val radix < 2 ^ 64.
Proof.
  unfold int64, sign_and_value, printed_sign, printed_value. intros H.
  destruct (radix <? 0); [|by split; [|apply u64_range]].
  destruct (Z.ltb_spec val 0); cbn [andb]; (split; [|lia]); f_equal.
  - unfold u64. rewrite Zminus_mod_idemp_r. rewrite Z.mod_small; lia.
  - rewrite u64_id; lia.
Qed.

Lemma pow64 radix : 2 <= radix -> 2 ^ 64 <= radix ^ 64.
Proof. intros H. apply Z.pow_le_mono_l. lia. Qed.

Lemma denotes_length radix n ds : 1 < radix -> n < 2 ^ 64 -> denotes radix n ds -> (length ds <= MAX_DIGITS)%nat.
Proof.
  intros Hr Hn (Hne & Hds & Hv & H0). destruct (Z.eq_dec (deref ds) 0) as [Hz|Hz].
  { rewrite (H0 Hz). unfold MAX_DIGITS. cbn. lia. }
  pose proof (positional_lower radix ds ltac:(lia) Hds Hne Hz) as Hl. pose proof (pow64 radix ltac:(lia)).
  assert (Z.of_nat (length ds - 1) < 64); [|unfold MAX_DIGITS; lia].
  apply (Z.pow_lt_mono_r_iff radix); lia.
Qed.

(** The first digit by unsigned division, the others by signed division. *)
Lemma first_digit dig radix uval :
  1 < radix -> 0 <= uval < 2 ^ 64 ->
  exists ds, denotes radix uval ds
    /\ long_digits MAX_DIGITS dig radix (uval / radix) [dig (uval - uval / radix * radix)] = map dig ds.
Proof.
  intros Hr Hu. pose proof (Z.div_mod uval radix ltac:(lia)) as Hdm.
  pose proof (Z.mod_pos_bound uval radix ltac:(lia)) as Hm. pose proof (pow64 radix ltac:(lia)).
  destruct (long_digits_spec MAX_DIGITS dig radix (uval / radix) [dig (uval - uval / radix * radix)])
    as (ds & -> & Hds & Hval & H0 & _); [done| |].
  { split; [apply Z.div_pos; lia|]. change (Z.of_nat MAX_DIGITS) with 64.
    apply Z.div_lt_upper_bound; [lia|]. nia. }
  exists (ds ++ [uval - uval / radix * radix]). split; [|by rewrite map_app]. split_and!.
  - by destruct ds.
  - apply Forall_app. split; [done|]. repeat constructor; lia.
  - rewrite positional_snoc, Hval. lia.
  - destruct ds as [|d ds]; cbn; [by intros ->|]. intros Hd. by specialize (H0 Hd).
Qed.

Lemma ulonglong_digits_stop fuel dig radix uval p :
  uval <= LONG_MAX -> ulonglong_digits fuel dig radix uval p = (uval, p).
Proof. intros H. destruct fuel; [done|]. cbn [ulonglong_digits]. by rewrite (proj2 (Z.ltb_ge _ _)). Qed.

Lemma ulonglong_digits_step fuel dig radix uval p :
  LONG_MAX < uval ->
  ulonglong_digits (S fuel) dig radix uval p
  = ulonglong_digits fuel dig radix (uval / radix) (dig (uval - uval / radix * radix) :: p).
Proof. intros H. cbn [ulonglong_digits]. by rewrite (proj2 (Z.ltb_lt _ _) H). Qed.

Lemma all_digits dig radix uval :
  1 < radix -> 0 < uval < 2 ^ 64 ->
  exists ds, denotes radix uval ds
    /\ (let '(u, p) := ulonglong_digits MAX_DIGITS dig radix uval [] in
        long_digits MAX_DIGITS dig radix (s64 u) p) = map dig ds.
Proof.
  intros Hr Hu. unfold LONG_MAX in *. destruct (Z.leb_spec uval LONG_MAX) as [Hle|Hgt].
  - rewrite ulonglong_digits_stop, s64_id by (done || unfold int64, LONG_MAX in *; lia).
    pose proof (pow64 radix ltac:(lia)).
    destruct (long_digits_spec MAX_DIGITS dig radix uval []) as (ds & -> & Hds & Hval & H0 & _); [done| |].
    { change (Z.of_nat MAX_DIGITS) with 64. lia. }
    exists ds. rewrite app_nil_r. split; [|done]. split_and!; [|done..|].
    + intros ->. change (positional radix []) with 0 in Hval. lia.
    + intros Hd. rewrite (H0 Hd) in Hval. change (positional radix []) with 0 in Hval. lia.
  - change MAX_DIGITS with (S 63) at 1. rewrite ulonglong_digits_step by done.
    assert (uval / radix <= LONG_MAX).
    { unfold LONG_MAX. enough (uval / radix < 2 ^ 63) by lia. apply Z.div_lt_upper_bound; lia. }
    pose proof (Z.div_pos uval radix ltac:(lia) ltac:(lia)).
    rewrite ulonglong_digits_stop, s64_id by (done || unfold int64, LONG_MAX in *; lia).
    apply first_digit; lia.
Qed.

(** A radix the functions accept. *)
Lemma radix_ok radix : bad_radix radix = false <-> 2 <= Z.abs radix <= 36.
Proof. unfold bad_radix. destruct (Z.ltb_spec radix 0); rewrite orb_false_iff, !Z.ltb_ge; lia. Qed.

(** Printing an integer in any radix from 2 to 36, signed when the radix
    is negative: the text is a minus sign where the number is printed signed
    and negative, followed by the digits of exactly the number, without
    leading zeros, most significant first.  This includes the smallest
    64-bit number, whose negation does not exist.  There are never more than
    64 digits, so the array of 65 bytes is never overrun. *)
Theorem ll2str_denotes (val radix : Z) (upcase : bool) :
  int64 val -> 2 <= Z.abs radix <= 36 ->
  exists ds, denotes (Z.abs radix) (printed_value val radix) ds /\ (length ds <= 64)%nat
    /\ ll2str val radix upcase
       = Some (printed_sign val radix ++ map (vec_digit (if upcase then dig_vec_upper else dig_vec_lower)) ds).
Proof.
  intros Hval Hr. unfold ll2str. rewrite (proj2 (radix_ok radix) Hr).
  destruct (sign_and_value_spec val radix Hval) as [-> Hrange].
  destruct (Z.eqb_spec (printed_value val radix) 0) as [->|Hnz].
  { exists [0]. split; [|split; [cbn; lia|by destruct upcase]]. split_and!; try done. repeat constructor; lia. }
  destruct (all_digits (vec_digit (if upcase then dig_vec_upper else dig_vec_lower)) (Z.abs radix)
    (printed_value val radix)) as (ds & Hds & Heq); [lia..|].
  exists ds. split; [done|]. split; [by apply (denotes_length (Z.abs radix) (printed_value val radix)); [lia..|]|].
  rewrite <-Heq. by destruct (ulonglong_digits _ _ _ _ _).
Qed.

Lemma ll2str_denotes_witness :
  exists ds, denotes 10 (2 ^ 63) ds /\ (length ds <= 64)%nat
    /\ ll2str (- 2 ^ 63) (-10) true = Some (str "-" ++ map (vec_digit dig_vec_upper) ds).
Proof. apply (ll2str_denotes (- 2 ^ 63) (-10) true); unfold int64; lia. Defined.

(** The first digit of [int2str], with the conversions written out. *)
Lemma first_digit_wrapped dig radix uval :
  1 < radix -> 0 <= uval < 2 ^ 64 ->
  exists ds, denotes radix uval ds
    /\ long_digits MAX_DIGITS dig radix (s64 (uval / radix))
         [dig (u64 (uval - u64 (u64 (s64 (uval / radix)) * radix)))] = map dig ds.
Proof.
  intros Hr Hu. pose proof (Z.div_pos uval radix ltac:(lia) ltac:(lia)).
  assert (uval / radix < 2 ^ 63) by (apply Z.div_lt_upper_bound; lia).
  pose proof (Z.div_mod uval radix ltac:(lia)). pose proof (Z.mod_pos_bound uval radix ltac:(lia)).
  rewrite (s64_id (uval / radix)) by (unfold int64; lia).
  assert (0 <= uval / radix * radix) by (apply Z.mul_nonneg_nonneg; lia).
  rewrite (u64_id (uval / radix)), (u64_id (uval / radix * radix)), u64_id by lia.
  by apply first_digit.
Qed.

Lemma digits_below_10 vec ds :
  vec = dig_vec_upper \/ vec = dig_vec_lower -> Forall (fun d => 0 <= d < 10) ds ->
  map (fun d => "0"%chr + d) ds = map (vec_digit vec) ds.
Proof.
  intros Hvec H. apply map_ext_Forall. eapply Forall_impl; [exact H|]. intros d Hd. cbn in Hd.
  assert (In d (map Z.of_nat (seq 0 10))) as Hin.
  { apply in_map_iff. exists (Z.to_nat d). rewrite in_seq. lia. }
  cbn in Hin. destruct Hvec as [-> | ->]; by repeat destruct Hin as [<-|Hin].
Qed.

Lemma ll2str_unique (val radix : Z) upcase ds :
  int64 val -> 2 <= Z.abs radix <= 36 -> denotes (Z.abs radix) (printed_value val radix) ds ->
  ll2str val radix upcase
  = Some (printed_sign val radix ++ map (vec_digit (if upcase then dig_vec_upper else dig_vec_lower)) ds).
Proof.
  intros Hval Hr Hds. unfold ll2str. rewrite (proj2 (radix_ok radix) Hr).
  destruct (sign_and_value_spec val radix Hval) as [-> Hrange].
  destruct (Z.eqb_spec (printed_value val radix) 0) as [Hz|Hnz].
  - assert (ds = [0]) as ->; [|by destruct upcase].
    apply (denotes_unique (Z.abs radix) (printed_value val radix)); [lia|done|].
    rewrite Hz. split_and!; try done. repeat constructor; lia.
  - destruct (all_digits (vec_digit (if upcase then dig_vec_upper else dig_vec_lower)) (Z.abs radix)
      (printed_value val radix)) as (ds' & Hds' & Heq); [lia..|].
    rewrite (denotes_unique (Z.abs radix) (printed_value val radix) ds ds'); [|lia|done..].
    rewrite <-Heq. by destruct (ulonglong_digits _ _ _ _ _).
Qed.

(** The four printing functions agree: [int2str], which splits the first
    digit off by unsigned division, stores what [ll2str] stores for every
    number and every radix, also a wrong one; [int10_to_str] and
    [longlong10_to_str], which only look at the sign of the radix, store what
    [ll2str] stores for radix 10 and -10, in upper and lower case alike. *)
Theorem printing_functions_agree (val radix : Z) (upcase : bool) :
  int64 val ->
  let radix10 := if radix <? 0 then -10 else 10 in
  int2str val radix upcase = ll2str val radix upcase
  /\ Some (int10_to_str val radix) = ll2str val radix10 upcase
  /\ Some (longlong10_to_str val radix) = ll2str val radix10 upcase.
Proof.
  intros Hval radix10.
  assert (Hsv : sign_and_value val radix10 = sign_and_value val radix
    /\ printed_value val radix10 = printed_value val radix /\ printed_sign val radix10 = printed_sign val radix
    /\ Z.abs radix10 = 10).
  { unfold sign_and_value, printed_value, printed_sign, radix10. by destruct (radix <? 0). }
  destruct Hsv as (Hsv & Hpv & Hps & Habs).
  destruct (sign_and_value_spec val radix Hval) as [Heq Hrange]. split_and!.
  - unfold int2str. destruct (bad_radix radix) eqn:Hbad; [unfold ll2str; by rewrite Hbad|].
    apply radix_ok in Hbad. rewrite Heq.
    destruct (first_digit_wrapped (vec_digit (if upcase then dig_vec_upper else dig_vec_lower)) (Z.abs radix)
      (printed_value val radix)) as (ds & Hds & ->); [lia..|].
    by rewrite (ll2str_unique val radix upcase ds).
  - unfold int10_to_str. rewrite Heq.
    destruct (first_digit_wrapped (fun d => "0"%chr + d) 10 (printed_value val radix)) as (ds & Hds & ->); [lia..|].
    rewrite (ll2str_unique val radix10 upcase ds) by (done || rewrite Habs, ?Hpv; done || lia).
    rewrite Hps, (digits_below_10 (if upcase then dig_vec_upper else dig_vec_lower)); [done| |apply Hds].
    destruct upcase; auto.
  - unfold longlong10_to_str. rewrite <-Hsv.
    replace (ll2str val radix10 upcase) with (ll2str val radix10 true).
    + unfold ll2str. rewrite Habs. replace (bad_radix radix10) with false by (unfold radix10; by destruct (radix <? 0)).
      destruct (sign_and_value val radix10) as [sign uval]. destruct (uval =? 0); [done|].
      by destruct (ulonglong_digits _ _ _ _ _).
    + destruct (first_digit (fun d => d) 10 (printed_value val radix)) as (ds & Hds & _); [lia..|].
      rewrite !(ll2str_unique val radix10 _ ds) by (done || rewrite Habs, ?Hpv; done || lia).
      rewrite <-(digits_below_10 dig_vec_upper), <-(digits_below_10 (if upcase then dig_vec_upper else dig_vec_lower));
        [done|destruct upcase; auto|apply Hds|auto|apply Hds].
Qed.

Lemma printing_functions_agree_witness :
  int2str (-255) (-16) false = ll2str (-255) (-16) false /\ Some (int10_to_str (-255) (-16)) = ll2str (-255) (-10) false
  /\ Some (longlong10_to_str (-255) (-16)) = ll2str (-255) (-10) false.
Proof. apply (printing_functions_agree (-255) (-16) false). unfold int64. lia. Defined.

(** ** Reading computes the value of all digits *)

Definition digits (ds : list Z) : Prop := Forall (fun c => "0"%chr <= c <= "9"%chr) ds.

Definition decimal (ds : list Z) : Z := positional 10 (map (fun c => c - "0"%chr) ds).

(** What a sign and digits stand for: the value and the error code. *)
Definition strtoll10_result (negative : bool) (v : Z) : Z * Z :=
  if negative then
    if v <=? 2 ^ 63 then (- v, -1) else (LONGLONG_MIN, MY_ERRNO_ERANGE)
  else if v <? 2 ^ 64 then (s64 v, 0) else (s64 ULONGLONG_MAX, MY_ERRNO_ERANGE).

Lemma decimal_app a b : decimal (a ++ b) = decimal a * 10 ^ Z.of_nat (length b) + decimal b.
Proof. unfold decimal. by rewrite map_app, positional_app, length_map. Qed.

Lemma decimal_one c : decimal [c] = c - "0"%chr.
Proof. reflexivity. Qed.

Lemma decimal_range ds : digits ds -> 0 <= decimal ds < 10 ^ Z.of_nat (length ds).
Proof.
  intros H. unfold decimal. rewrite <-(length_map (fun c => c - "0"%chr) ds). apply positional_range; [lia|].
  apply Forall_map. eapply Forall_impl; [exact H|]. cbn. lia.
Qed.

Lemma decimal_lower ds : digits ds -> ds <> [] -> deref ds <> "0"%chr -> 10 ^ Z.of_nat (length ds - 1) <= decimal ds.
Proof.
  intros H Hne Hd. unfold decimal. rewrite <-(length_map (fun c => c - "0"%chr) ds). apply positional_lower; [lia|..].
  - apply Forall_map. eapply Forall_impl; [exact H|]. cbn. lia.
  - by destruct ds.
  - destruct ds; [done|]. cbn in *. lia.
Qed.

Lemma is_digit_true c : "0"%chr <= c <= "9"%chr -> is_digit c = true.
Proof. intros H. unfold is_digit. apply Z.leb_le. rewrite Z.mod_small; lia. Qed.

Lemma read_digits_enough n ds rest acc :
  digits ds -> (n <= length ds)%nat ->
  read_digits n (ds ++ rest) acc = (acc * 10 ^ Z.of_nat n + decimal (take n ds), drop n ds ++ rest, false).
Proof.
  intros Hds. revert n acc. induction Hds as [|c ds Hc _ IH]; intros [|n] acc Hn; cbn in Hn; try lia.
  - cbn. f_equal. f_equal. change (decimal []) with 0. lia.
  - cbn. change (decimal []) with 0. do 2 f_equal. lia.
  - cbn [app read_digits]. rewrite is_digit_true by done. rewrite IH by lia. cbn [take drop].
    do 2 f_equal. change (c :: take n ds) with ([c] ++ take n ds).
    rewrite decimal_app, decimal_one, length_take_le, Nat2Z.inj_succ, Z.pow_succ_r by lia. ring.
Qed.

Lemma read_digits_short n ds rest acc :
  digits ds -> (length ds < n)%nat -> is_digit (deref rest) = false ->
  read_digits n (ds ++ rest) acc
  = (acc * 10 ^ Z.of_nat (length ds) + decimal ds, rest, negb (bool_decide (rest = []))).
Proof.
  intros Hds. revert n acc. induction Hds as [|c ds Hc _ IH]; intros [|n] acc Hn Hr; cbn in Hn; try lia.
  - cbn [app length]. change (decimal []) with 0. replace (acc * 10 ^ Z.of_nat 0 + 0) with acc by lia.
    destruct rest as [|c rest]; [done|]. cbn in Hr |- *. by rewrite Hr.
  - cbn [app read_digits]. rewrite is_digit_true by done. rewrite IH by (done || lia).
    do 2 f_equal. change (c :: ds) with ([c] ++ ds).
    rewrite decimal_app, decimal_one, length_app. cbn [length].
    rewrite Nat2Z.inj_add, Z.pow_add_r by lia. change (10 ^ Z.of_nat 1) with 10. ring.
Qed.

(** The result of a reading with what it leaves unread. *)
Definition reads (negative : bool) (ds rest : list Z) (r : Z * Z * list Z) : Prop :=
  fst r = strtoll10_result negative (decimal ds)
  /\ (snd (fst r) <> MY_ERRNO_ERANGE -> snd r = rest).

Lemma reads_small negative ds rest v :
  v = decimal ds -> 0 <= v < 2 ^ 63 ->
  reads negative ds rest (signed negative v, if negative then -1 else 0, rest).
Proof.
  intros -> Hv. split; [|done]. unfold strtoll10_result, signed. cbn [fst].
  destruct negative.
  - rewrite (proj2 (Z.leb_le _ _)) by lia. rewrite !s64_id; [done|..]; rewrite ?s64_id; unfold int64; lia.
  - by rewrite (proj2 (Z.ltb_lt _ _)) by lia.
Qed.

Lemma s64_neg_pow : s64 (- s64 (2 ^ 63)) = - 2 ^ 63.
Proof. reflexivity. Qed.

(** Nineteen digits. *)
Lemma read_tail_19 negative a b c rest :
  digits (a ++ b ++ [c]) -> length a = 9%nat -> length b = 9%nat -> is_digit (deref rest) = false ->
  reads negative (a ++ b ++ [c]) rest (read_tail negative (decimal a) (decimal b) (c - "0"%chr) rest).
Proof.
  intros Hd Ha Hb Hr. unfold read_tail. rewrite Hr.
  apply Forall_app in Hd as [Hda [Hdb [Hdc _]%Forall_cons]%Forall_app].
  pose proof (decimal_range a Hda) as Hra. pose proof (decimal_range b Hdb) as Hrb. rewrite Ha in Hra. rewrite Hb in Hrb.
  cbn in Hra, Hrb, Hdc.
  assert (Hv : decimal (a ++ b ++ [c]) = decimal a * LFACTOR1 + decimal b * 10 + (c - "0"%chr)).
  { rewrite !decimal_app, decimal_one, length_app, Hb. cbn. unfold LFACTOR1. lia. }
  rewrite (u64_id (decimal a * LFACTOR1)), (u64_id (decimal b * 10)), u64_id by (unfold LFACTOR1; lia).
  rewrite <-Hv. assert (0 <= decimal (a ++ b ++ [c]) < 2 ^ 64) by (rewrite Hv; unfold LFACTOR1; lia).
  set (v := decimal (a ++ b ++ [c])) in *. unfold reads, strtoll10_result, signed, MAX_NEGATIVE_NUMBER. fold v.
  destruct negative; cbn [andb].
  - destruct (Z.ltb_spec (2 ^ 63) v) as [Hlt|Hle].
    + rewrite (proj2 (Z.leb_gt _ _)) by lia. by split.
    + rewrite (proj2 (Z.leb_le _ _)) by lia. split; [|done]. cbn [fst]. f_equal.
      destruct (Z.eq_dec v (2 ^ 63)) as [->|Hne]; [apply s64_neg_pow|].
      rewrite !s64_id; [done|..]; rewrite ?s64_id; unfold int64; lia.
  - rewrite (proj2 (Z.ltb_lt _ _)) by lia. by split.
Qed.

(** The comparison in parts is the comparison of the whole numbers. *)
Lemma above_spec max i j k :
  0 <= max -> 0 <= j < LFACTOR -> 0 <= k < 100 ->
  above max i j k = (max <? i * LFACTOR2 + j * 100 + k).
Proof.
  intros Hmax Hj Hk. unfold above, LFACTOR, LFACTOR2 in *. set (L := 100000000000) in *.
  pose proof (Z.div_mod max L ltac:(lia)) as H1. pose proof (Z.mod_pos_bound max L ltac:(lia)).
  pose proof (Z.div_mod (max mod L) 100 ltac:(lia)) as H2. pose proof (Z.mod_pos_bound (max mod L) 100 ltac:(lia)).
  assert (max mod 100 = (max mod L) mod 100) as ->.
  { symmetry. apply Z.mod_mod_divide. by exists 1000000000. }
  apply eq_bool_prop_intro. rewrite !Is_true_true, orb_true_iff, andb_true_iff, orb_true_iff, andb_true_iff.
  rewrite !Z.ltb_lt, !Z.eqb_eq. unfold L in *. lia.
Qed.

(** Twenty digits and more. *)
Lemma read_tail_20 negative a b c d ds rest :
  digits (a ++ b ++ c :: d :: ds) -> length a = 9%nat -> length b = 9%nat -> deref a <> "0"%chr ->
  is_digit (deref rest) = false ->
  reads negative (a ++ b ++ c :: d :: ds) rest
    (read_tail negative (decimal a) (decimal b) (c - "0"%chr) (d :: ds ++ rest)).
Proof.
  intros Hdig Ha Hb Hnz Hr. set (D := a ++ b ++ c :: d :: ds) in *.
  assert (Hlow : 10 ^ Z.of_nat (length D - 1) <= decimal D).
  { apply decimal_lower; [done|by destruct a|by destruct a]. }
  assert (Hlen : length D = (20 + length ds)%nat) by (subst D; rewrite !length_app; cbn; lia).
  subst D. apply Forall_app in Hdig as [Hda [Hdb Hdc]%Forall_app].
  apply Forall_cons in Hdc as [Hdc [Hdd Hds]%Forall_cons]. cbn in Hdc, Hdd.
  pose proof (decimal_range a Hda) as Hra. pose proof (decimal_range b Hdb) as Hrb. rewrite Ha in Hra. rewrite Hb in Hrb.
  cbn in Hra, Hrb. unfold read_tail. change (deref (d :: ds ++ rest)) with d. rewrite drop_1_cons, is_digit_true by done.
  assert (Hover : negative = true \/ ds <> [] -> fst (overflow negative, ds ++ rest)
    = strtoll10_result negative (decimal (a ++ b ++ c :: d :: ds))).
  { intros Hc. unfold strtoll10_result, overflow.
    assert (10 ^ 19 <= decimal (a ++ b ++ c :: d :: ds)).
    { etrans; [|exact Hlow]. apply Z.pow_le_mono_r; lia. }
    destruct negative; [by rewrite (proj2 (Z.leb_gt _ _)) by lia|].
    destruct Hc as [?|Hc]; [done|]. assert (10 ^ 20 <= decimal (a ++ b ++ c :: d :: ds)).
    { etrans; [|exact Hlow]. apply Z.pow_le_mono_r; destruct ds; cbn in *; lia || done. }
    by rewrite (proj2 (Z.ltb_ge _ _)) by lia. }
  destruct ds as [|e ds].
  2: { apply Forall_cons in Hds as [He _]. cbn [app deref nth]. rewrite is_digit_true by done.
       split; [apply Hover; by right|done]. }
  cbn [app]. rewrite Hr.
  assert (Hv : decimal (a ++ b ++ [c; d]) = decimal a * LFACTOR2 + decimal b * 100 + ((c - "0"%chr) * 10 + (d - "0"%chr))).
  { rewrite !decimal_app, length_app, Hb. change [c; d] with ([c] ++ [d]). rewrite (decimal_app [c]), !decimal_one.
    cbn. unfold LFACTOR2. lia. }
  rewrite above_spec; [|destruct negative; unfold MAX_NEGATIVE_NUMBER, ULONGLONG_MAX; lia|unfold LFACTOR; lia|lia].
  rewrite <-Hv. destruct (Z.ltb_spec (if negative then MAX_NEGATIVE_NUMBER else ULONGLONG_MAX) (decimal (a ++ b ++ [c; d]))) as [Hgt|Hle].
  - destruct negative; [by split; [apply Hover; by left|]|]. split; [|done]. unfold strtoll10_result.
    cbn [fst overflow]. by rewrite (proj2 (Z.ltb_ge _ _)) by (unfold ULONGLONG_MAX in Hgt; lia).
  - cbn in Hlen. rewrite Hlen in Hlow. cbn in Hlow. destruct negative; [unfold MAX_NEGATIVE_NUMBER in Hle; lia|].
    unfold ULONGLONG_MAX in Hle. split; [|done]. unfold strtoll10_result. rewrite (proj2 (Z.ltb_lt _ _)) by lia.
    cbn [fst]. f_equal. unfold LFACTOR2 in *.
    rewrite (u64_id (decimal a * _)), (u64_id (decimal b * _)), u64_id by lia. by rewrite Hv.
Qed.

Lemma at_lfactor n : (n <= 8)%nat -> at_ lfactor n = 10 ^ Z.of_nat n.
Proof. intros H. do 9 (destruct n as [|n]; [done|]). lia. Qed.

(** The second group of digits, behind nine digits [a]. *)
Lemma read_second (negative : bool) a ds rest :
  digits a -> digits ds -> length a = 9%nat -> (deref a <> "0"%chr) -> is_digit (deref rest) = false ->
  ds ++ rest <> [] ->
  let s := ds ++ rest in
  let error := if negative then -1 else 0 in
  reads negative (a ++ ds) rest
    (let '(j, s1, stop) := read_digits INIT_CNT s 0 in
     let count := (length s - length s1)%nat in
     if stop || bool_decide (s1 = []) && negb (count =? INIT_CNT)%nat
     then (signed negative (u64 (u64 (decimal a * at_ lfactor count) + j)), error, s1)
     else match s1 with
          | c :: s2 =>
              if is_digit c then read_tail negative (decimal a) j (c - "0"%chr) s2
              else (signed negative (u64 (u64 (decimal a * LFACTOR) + j)), error, s1)
          | [] => (signed negative (u64 (u64 (decimal a * LFACTOR) + j)), error, s1)
          end).
Proof.
  intros Ha Hds Hlen Hnz Hr Hne s error. subst s error.
  pose proof (decimal_range a Ha) as Hra. rewrite Hlen in Hra. cbn in Hra.
  destruct (le_lt_dec INIT_CNT (length ds)) as [Hge|Hlt].
  - rewrite read_digits_enough by done. rewrite Z.mul_0_l, Z.add_0_l. cbv zeta.
    assert (Hsplit : ds = take INIT_CNT ds ++ drop INIT_CNT ds) by by rewrite take_drop.
    rewrite Hsplit in Hds. apply Forall_app in Hds as [Hd1 Hd2].
    assert (Hl1 : length (take INIT_CNT ds) = 9%nat) by (rewrite length_take; unfold INIT_CNT in *; lia).
    pose proof (decimal_range _ Hd1) as Hr1. rewrite Hl1 in Hr1. change (10 ^ Z.of_nat 9) with 1000000000 in Hr1.
    assert (Hcount : (length (ds ++ rest) - length (drop INIT_CNT ds ++ rest) = INIT_CNT)%nat).
    { rewrite Hsplit at 1. rewrite !length_app, Hl1. unfold INIT_CNT. lia. }
    rewrite Hcount, Nat.eqb_refl, andb_false_r. cbn [orb].
    rewrite Hsplit at 1. set (b := take INIT_CNT ds) in *. destruct (drop INIT_CNT ds) as [|c ds2].
    + assert (Hv : u64 (u64 (decimal a * LFACTOR) + decimal b) = decimal (a ++ b)).
      { rewrite decimal_app, Hl1. unfold LFACTOR. rewrite (u64_id (_ * _)), u64_id by lia. done. }
      assert (decimal (a ++ b) < 2 ^ 63) by (rewrite decimal_app, Hl1; lia).
      rewrite app_nil_r, Hv. pose proof (decimal_range (a ++ b) ltac:(by apply Forall_app)).
      cbn [app]. destruct rest as [|c rest]; [by apply reads_small; [|lia]|].
      cbn in Hr. rewrite Hr. by apply reads_small; [|lia].
    + cbn [app]. pose proof Hd2 as [Hc Hd3]%Forall_cons. rewrite is_digit_true by done.
      destruct ds2 as [|d ds2].
      * apply read_tail_19; [|done..]. apply Forall_app. by split; [|apply Forall_app].
      * apply read_tail_20; [|done..]. apply Forall_app. by split; [|apply Forall_app].
  - rewrite read_digits_short by done. rewrite Z.mul_0_l, Z.add_0_l. cbv zeta.
    assert (Hcount : (length (ds ++ rest) - length rest = length ds)%nat) by (rewrite length_app; lia).
    rewrite Hcount. replace (length ds =? INIT_CNT)%nat with false by (symmetry; apply Nat.eqb_neq; lia).
    replace (negb _ || _) with true by by destruct (bool_decide (rest = [])).
    pose proof (decimal_range ds Hds) as Hrd. unfold INIT_CNT in Hlt. rewrite at_lfactor by lia.
    assert (10 ^ Z.of_nat (length ds) <= 10 ^ 8) by (apply Z.pow_le_mono_r; lia).
    assert (Hv : u64 (u64 (decimal a * 10 ^ Z.of_nat (length ds)) + decimal ds) = decimal (a ++ ds)).
    { rewrite decimal_app. rewrite (u64_id (_ * _)), u64_id by nia. done. }
    rewrite Hv. apply reads_small; [done|]. rewrite decimal_app. nia.
Qed.

(** Everything behind the leading zeros: [a] are the digits read before. *)
Lemma read_number_spec negative n a ds rest :
  digits a -> digits ds -> (length a + n = 9)%nat -> (deref (a ++ ds) <> "0"%chr) -> is_digit (deref rest) = false ->
  reads negative (a ++ ds) rest (read_number negative n (decimal a) (ds ++ rest)).
Proof.
  intros Ha Hds Hn Hnz Hr. unfold read_number. pose proof (decimal_range a Ha) as Hra.
  destruct (le_lt_dec n (length ds)) as [Hge|Hlt].
  - rewrite read_digits_enough by done. cbn [orb].
    assert (Hsplit : ds = take n ds ++ drop n ds) by by rewrite take_drop.
    pose proof Hds as Hds'. rewrite Hsplit in Hds'. apply Forall_app in Hds' as [Hd1 Hd2].
    assert (Hlen : length (a ++ take n ds) = 9%nat) by (rewrite length_app, length_take; lia).
    assert (Hv : decimal a * 10 ^ Z.of_nat n + decimal (take n ds) = decimal (a ++ take n ds)).
    { rewrite decimal_app, length_take. repeat f_equal. lia. }
    assert (Hda : digits (a ++ take n ds)) by (by apply Forall_app).
    pose proof (decimal_range _ Hda) as Hr9. rewrite Hlen in Hr9. change (10 ^ Z.of_nat 9) with 1000000000 in Hr9.
    rewrite Hv. replace (a ++ ds) with ((a ++ take n ds) ++ drop n ds) by by rewrite <-app_assoc, take_drop.
    case_bool_decide as Hnil.
    + apply app_eq_nil in Hnil as [-> ->]. rewrite app_nil_r. apply reads_small; [done|lia].
    + apply read_second; try done. intros H0. apply Hnz.
      rewrite Hsplit, app_assoc. destruct (a ++ take n ds) as [|c l]; [done|]. exact H0.
  - rewrite read_digits_short by done. replace (_ || _) with true by by destruct (bool_decide (rest = [])).
    rewrite <-decimal_app. assert (Hd : digits (a ++ ds)) by (by apply Forall_app).
    pose proof (decimal_range _ Hd). apply reads_small; [done|].
    assert (10 ^ Z.of_nat (length (a ++ ds)) <= 10 ^ 9); [|lia].
    apply Z.pow_le_mono_r; [lia|]. rewrite length_app. lia.
Qed.

Lemma split_zeros ds : digits ds ->
  exists zs ds', ds = zs ++ ds' /\ Forall (fun c => c = "0"%chr) zs /\ deref ds' <> "0"%chr.
Proof.
  induction 1 as [|c ds Hc _ (zs & ds' & -> & Hz & Hd)]; [by exists [], []|].
  destruct (Z.eq_dec c "0"%chr) as [->|Hne].
  - exists ("0"%chr :: zs), ds'. split_and!; [done|by constructor|done].
  - by exists [], (c :: zs ++ ds').
Qed.

Lemma decimal_zeros zs ds : Forall (fun c => c = "0"%chr) zs -> decimal (zs ++ ds) = decimal ds.
Proof.
  intros Hz. enough (decimal zs = 0) as H by (rewrite decimal_app, H; lia).
  induction Hz as [|c zs -> _ IH]; [done|]. change (decimal ("0"%chr :: zs)) with (decimal (["0"%chr] ++ zs)).
  rewrite decimal_app, IH. change (decimal ["0"%chr]) with 0. lia.
Qed.

Lemma skip_zeros_app zs l : Forall (fun c => c = "0"%chr) zs -> deref l <> "0"%chr -> skip_zeros (zs ++ l) = l.
Proof.
  intros Hz Hl. unfold skip_zeros. induction Hz as [|c zs -> _ IH]; cbn; [|done].
  destruct l as [|c l]; [done|]. cbn in *. destruct (c =? 0); [done|]. by rewrite (proj2 (Z.eqb_neq _ _) Hl).
Qed.

Lemma not_digit_neq c d : is_digit c = false -> "0"%chr <= d <= "9"%chr -> c <> d.
Proof. intros H Hd ->. by rewrite is_digit_true in H. Qed.

(** Digits without a sign in front of them. *)
Lemma read_unsigned_digits negative c ds rest :
  digits (c :: ds) -> is_digit (deref rest) = false ->
  exists r, read_unsigned negative (c :: ds ++ rest) = Some r /\ reads negative (c :: ds) rest r.
Proof.
  intros [Hc Hds]%Forall_cons Hr. cbn in Hc. unfold read_unsigned. destruct (Z.eqb_spec c "0"%chr) as [->|Hc0].
  - destruct (split_zeros ds Hds) as (zs & ds' & -> & Hz & Hd).
    apply Forall_app in Hds as [_ Hds'].
    rewrite <-app_assoc, skip_zeros_app; [|done|].
    2: { destruct ds'; [|done]. apply (not_digit_neq _ _ Hr). lia. }
    eexists. split; [done|]. unfold reads. change ("0"%chr :: zs ++ ds') with (("0"%chr :: zs) ++ ds').
    rewrite decimal_zeros by by constructor. fold (reads negative ds' rest).
    destruct (ds' ++ rest) as [|e l] eqn:Hl.
    + apply app_eq_nil in Hl as [-> ->]. by apply reads_small.
    + rewrite <-Hl. by apply (read_number_spec negative INIT_CNT []); [constructor|..].
  - rewrite is_digit_true by done. eexists. split; [done|].
    change (c :: ds) with ([c] ++ ds). change (c - "0"%chr) with (decimal [c]).
    apply read_number_spec; try done. by apply Forall_singleton.
Qed.

Inductive sign_text : bool -> list Z -> Prop :=
  | sign_none : sign_text false []
  | sign_plus : sign_text false (str "+")
  | sign_minus : sign_text true (str "-").

(** What the conversion makes of a text: the value of its digits, or nothing
    when there is no digit. *)
Definition conversion_of (negative : bool) (ds rest : list Z) (o : option (Z * Z * list Z)) : Prop :=
  match o with
  | None => ds = []
  | Some r => ds <> [] /\ reads negative ds rest r
  end.

Lemma read_signed_spec negative sign ds rest :
  sign_text negative sign -> digits ds -> is_digit (deref rest) = false ->
  (ds = [] -> sign = [] -> rest = [] \/ deref rest <> "-"%chr /\ deref rest <> "+"%chr) ->
  conversion_of negative ds rest (read_signed (sign ++ ds ++ rest)).
Proof.
  intros Hs Hds Hr Hsign. destruct ds as [|c ds].
  - assert (Hnone : read_unsigned negative rest = None).
    { destruct rest as [|d rest]; [done|]. cbn in Hr. unfold read_unsigned.
      rewrite (proj2 (Z.eqb_neq _ _)) by (apply (not_digit_neq _ _ Hr); lia). by rewrite Hr. }
    destruct Hs; cbn [app str map list_ascii_of_string read_signed].
    + destruct rest as [|d rest]; [done|].
      destruct (Hsign eq_refl eq_refl) as [?|[H1 H2]]; [done|]. cbn in H1, H2. unfold read_signed.
      rewrite (proj2 (Z.eqb_neq _ _) H1), (proj2 (Z.eqb_neq _ _) H2). by rewrite Hnone.
    + change (conversion_of false [] rest (read_unsigned false rest)). by rewrite Hnone.
    + change (conversion_of true [] rest (read_unsigned true rest)). by rewrite Hnone.
  - destruct (read_unsigned_digits negative c ds rest Hds Hr) as (r & Heq & Hreads).
    destruct Hs; cbn [app].
    + pose proof Hds as [Hc _]%Forall_cons. cbn in Hc. unfold read_signed.
      rewrite (proj2 (Z.eqb_neq c "-"%chr)), (proj2 (Z.eqb_neq c "+"%chr)) by lia. by rewrite Heq.
    + change (conversion_of false (c :: ds) rest (read_unsigned false (c :: ds ++ rest))). by rewrite Heq.
    + change (conversion_of true (c :: ds) rest (read_unsigned true (c :: ds ++ rest))). by rewrite Heq.
Qed.

(** A text to convert: blanks, a sign, digits, and what follows them. *)
Record number_text := mkText { text_blanks : list Z; text_sign : list Z; text_digits : list Z; text_rest : list Z }.

Definition text_bytes (t : number_text) : list Z := text_blanks t ++ text_sign t ++ text_digits t ++ text_rest t.

Definition text_wf (negative : bool) (t : number_text) : Prop :=
  spaces my_charset_latin1 (text_blanks t) /\ (0 ∉ text_blanks t)
  /\ sign_text negative (text_sign t) /\ digits (text_digits t)
  /\ is_digit (deref (text_rest t)) = false
  /\ (text_sign t = [] -> text_digits t = [] ->
      my_isspace my_charset_latin1 (deref (text_rest t)) = false
      /\ deref (text_rest t) <> "-"%chr /\ deref (text_rest t) <> "+"%chr).

Lemma digit_not_space c : "0"%chr <= c <= "9"%chr -> my_isspace my_charset_latin1 c = false.
Proof.
  intros H. assert (In c (map Z.of_nat (seq 48 10))) as Hin.
  { apply in_map_iff. exists (Z.to_nat c). rewrite in_seq. lia. }
  cbn in Hin. by repeat destruct Hin as [<-|Hin].
Qed.

Lemma skip_text_blanks negative t :
  text_wf negative t ->
  skip_while (my_isspace my_charset_latin1) (text_bytes t) = text_sign t ++ text_digits t ++ text_rest t.
Proof.
  intros (Hb & H0 & Hs & Hd & Hr & Hn). apply skip_while_app.
  - apply Forall_forall. intros c Hc. split; [by intros ->|]. by apply (proj1 (Forall_forall _ _) Hb).
  - destruct Hs; cbn [app]; [|by right..]. destruct Hd as [|c ds Hc _]; cbn [app]; right.
    + by apply Hn.
    + by apply digit_not_space.
Qed.

(** What the function must return for a text. *)
Definition converts (negative : bool) (t : number_text) (r : conversion) : Prop :=
  if bool_decide (text_digits t = []) then r = mkConv 0 MY_ERRNO_EDOM 0
  else (conv_value r, conv_error r) = strtoll10_result negative (decimal (text_digits t))
    /\ (conv_error r <> MY_ERRNO_ERANGE ->
        conv_end r = length (text_blanks t ++ text_sign t ++ text_digits t)).

Lemma converts_of negative t rest o total :
  conversion_of negative (text_digits t) rest o ->
  (total = length (text_blanks t ++ text_sign t ++ text_digits t) + length rest)%nat ->
  converts negative t
    (match o with None => mkConv 0 MY_ERRNO_EDOM 0 | Some (v, e, s') => mkConv v e (total - length s') end).
Proof.
  intros Ho ->. unfold converts. destruct o as [[[v e] s']|]; cbn in Ho.
  - destruct Ho as [Hne [Hr He]]. rewrite bool_decide_eq_false_2 by done. split; [exact Hr|].
    cbn in *. intros Hnr. rewrite (He Hnr). lia.
  - by rewrite bool_decide_eq_true_2.
Qed.

Lemma my_strtoll10_text (negative fixed : bool) (t : number_text) (beyond : list Z) :
  text_wf negative t ->
  (fixed = false -> c_string (text_rest t) /\ Z.of_nat (length (text_bytes t)) < 65535) ->
  converts negative t
    (if fixed then my_strtoll10 (text_bytes t ++ beyond) (Some (length (text_bytes t)))
     else my_strtoll10 (text_bytes t) None).
Proof.
  intros Hwf Hnul. pose proof Hwf as (Hb & H0 & Hs & Hd & Hr & Hn). unfold my_strtoll10.
  assert (Hsg : text_digits t = [] -> text_sign t = [] ->
    text_rest t = [] \/ deref (text_rest t) <> "-"%chr /\ deref (text_rest t) <> "+"%chr).
  { intros. right. by apply Hn. }
  destruct fixed; [rewrite take_app_length|]; rewrite (skip_text_blanks negative t Hwf).
  - apply (converts_of negative t (text_rest t)); [by apply read_signed_spec|].
    unfold text_bytes. rewrite !length_app. lia.
  - destruct (Hnul eq_refl) as [Hc Hlen]. set (l := text_sign t ++ text_digits t ++ text_rest t).
    case_bool_decide as Hl.
    { apply app_eq_nil in Hl as [_ [Hl _]%app_eq_nil]. cbn. unfold converts. by rewrite bool_decide_eq_true_2. }
    assert (take (Z.to_nat 65535) (l ++ [0]) = text_sign t ++ text_digits t ++ text_rest t ++ [0]) as ->.
    { unfold text_bytes in Hlen. rewrite length_app in Hlen. fold l in Hlen.
      rewrite take_ge by (rewrite length_app; cbn; lia). subst l. by rewrite <-!app_assoc. }
    apply (converts_of negative t (text_rest t ++ [0])).
    + apply read_signed_spec; [done|done|by destruct (text_rest t)|].
      intros H1 H2. destruct (text_rest t); [by right|]. destruct (Hsg H1 H2) as [?|?]; [done|by right].
    + unfold text_bytes. rewrite !length_app. fold l. cbn. subst l. rewrite !length_app. lia.
Qed.

(** C15. Reading a number is equivalent to computing the value of all its
    digits: whatever blanks, sign, leading zeros and digits the text has, and
    whether it has a fixed length or ends with a NUL, [my_strtoll10] returns
    the exact value with error code 0 or -1, or the range error with the
    bound when the value is not below 2^64, or a negative one below -2^63.
    The end pointer stands behind the last digit.  Without a digit the error
    is EDOM and the end pointer stays at the start.  The split into groups of
    nine digits and the comparison of the groups with parts of the limits
    never show. *)
Theorem my_strtoll10_value (negative fixed : bool) (t : number_text) (beyond : list Z) :
  text_wf negative t ->
  (fixed = false -> c_string (text_rest t) /\ Z.of_nat (length (text_bytes t)) < 65535) ->
  converts negative t
    (if fixed then my_strtoll10 (text_bytes t ++ beyond) (Some (length (text_bytes t)))
     else my_strtoll10 (text_bytes t) None).
Proof. apply my_strtoll10_text. Qed.

Lemma my_strtoll10_value_witness :
  converts true (mkText (str "  ") (str "-") (str "09223372036854775809") (str "x"))
    (my_strtoll10 (str "  -09223372036854775809x") None).
Proof.
  apply (my_strtoll10_value true false (mkText (str "  ") (str "-") (str "09223372036854775809") (str "x")) []).
  - split_and!; try done.
    + by repeat constructor.
    + by apply (bool_decide_unpack _).
    + apply sign_minus.
    + by apply (bool_decide_unpack _).
  - intros _. split; [by repeat constructor|by vm_compute].
Defined.

(** ** What is printed is read back *)

Lemma decimal_digits ds : Forall (fun d => 0 <= d < 10) ds ->
  digits (map (fun d => "0"%chr + d) ds) /\ decimal (map (fun d => "0"%chr + d) ds) = positional 10 ds.
Proof.
  intros H. split.
  - apply Forall_map. eapply Forall_impl; [exact H|]. cbn. lia.
  - unfold decimal. rewrite map_map. f_equal. rewrite <-(map_id ds) at 2. apply map_ext. lia.
Qed.

Lemma int10_to_str_text val radix : int64 val ->
  exists ds, digits ds /\ ds <> [] /\ decimal ds = printed_value val radix
    /\ int10_to_str val radix = printed_sign val radix ++ ds.
Proof.
  intros Hval. destruct (sign_and_value_spec val radix Hval) as [Heq Hrange]. unfold int10_to_str. rewrite Heq.
  destruct (first_digit_wrapped (fun d => "0"%chr + d) 10 (printed_value val radix)) as (ds & Hds & ->); [lia..|].
  destruct Hds as (Hne & Hds & Hv & _). destruct (decimal_digits ds Hds) as [H1 H2].
  exists (map (fun d => "0"%chr + d) ds). split_and!; [done|by destruct ds|congruence|done].
Qed.

(** Round trip: every 64-bit number printed in decimal, signed or
    unsigned, and followed by anything that does not start with a digit, is
    read back as the same number, with the error code telling the sign and
    the end pointer standing behind the last digit. *)
Theorem print_read_roundtrip (val radix : Z) (rest : list Z) :
  int64 val -> is_digit (deref rest) = false ->
  let text := int10_to_str val radix in
  my_strtoll10 (text ++ rest) (Some (length (text ++ rest)))
  = mkConv val (if (radix <? 0) && (val <? 0) then -1 else 0) (length text).
Proof.
  intros Hval Hr text. destruct (int10_to_str_text val radix Hval) as (ds & Hds & Hne & Hv & Ht).
  set (negative := (radix <? 0) && (val <? 0)).
  assert (Hsign : sign_text negative (printed_sign val radix)).
  { unfold printed_sign. subst negative. destruct (_ && _); [apply sign_minus|apply sign_none]. }
  pose proof (my_strtoll10_text negative true (mkText [] (printed_sign val radix) ds rest) []) as H.
  unfold converts, text_bytes in H. cbn [text_blanks text_sign text_digits text_rest app] in H.
  rewrite app_nil_r, bool_decide_eq_false_2, app_assoc, <-Ht in H by done. fold text in H.
  destruct H as [H1 H2]; [|done|].
  { split_and!; try done; [constructor|apply not_elem_of_nil]. }
  assert (Hres : strtoll10_result negative (decimal ds) = (val, if negative then -1 else 0)).
  { rewrite Hv. unfold printed_value, strtoll10_result, negative, int64 in *.
    destruct (radix <? 0); cbn [andb].
    - destruct (Z.ltb_spec val 0).
      + rewrite (proj2 (Z.leb_le _ _)) by lia. f_equal. lia.
      + rewrite (proj2 (Z.ltb_lt _ _)), s64_id by (unfold int64; lia). f_equal. lia.
    - pose proof (u64_range val). rewrite (proj2 (Z.ltb_lt _ _)) by lia. f_equal. unfold s64, u64.
      rewrite Zplus_mod_idemp_l. rewrite <-(s64_id val) at 2; [done|]. unfold int64. lia. }
  rewrite Hres in H1. destruct (my_strtoll10 _ _) as [v e n]. cbn in *. injection H1 as -> ->.
  rewrite H2; [done|]. unfold MY_ERRNO_ERANGE. destruct negative; lia.
Qed.

Lemma print_read_roundtrip_witness :
  my_strtoll10 (str "-9223372036854775808 rows") (Some 25%nat) = mkConv (- 2 ^ 63) (-1) 20.
Proof. apply (print_read_roundtrip (- 2 ^ 63) (-10) (str " rows")); [unfold int64; lia|done]. Defined.
