(* ===== verification/Typelib.v ===== *)
(** * Lists of names (mysys/typelib.c)

    Options whose value is one of several names, a set of names or a list of
    flags look the names up here.  A [TYPELIB] is its list of names; the strings
    to be found are given up to their end, the character behind it being NUL. *)

From stdpp Require Import base list numbers.
From S2P Require Import Prelude CString Charset.
Open Scope Z_scope.

(** [type_names] up to its null pointer: [count] is the length of the list and
    [type_lengths], where it is set, the lengths of its elements; no name is looked
    up by the name of the list. *)
Definition TYPELIB : Type := list (list Z).

Definition my_toupper (cs : CHARSET_INFO) (c : Z) : Z := nth (Z.to_nat c) (to_upper cs) 0.

(** The two flags of a search: names end at a comma or an equal sign, and
    beginnings of names are not accepted. *)
Record find_flags := mkFlags { COMMA_TERM : bool; NO_PREFIX : bool }.

Definition FIND_TYPE_BASIC : find_flags := mkFlags false false.

Definition is_field_separator (F : find_flags) (X : Z) : bool := COMMA_TERM F && ((X =? ","%chr) || (X =? "="%chr)).

(** The comparison of the string with a name: what remains of both. *)
Fixpoint compare_name (F : find_flags) (i j : list Z) : list Z * list Z :=
  match i with
  | [] => ([], j)
  | c :: i' =>
      if negb (is_field_separator F c) && (my_toupper my_charset_latin1 c =? my_toupper my_charset_latin1 (deref j))
      then compare_name F i' (drop 1 j) else (i, j)
  end.

Fixpoint skip_spaces (i : list Z) : list Z :=
  match i with c :: i' => if c =? 32 then skip_spaces i' else i | [] => [] end.

(** The answer when no name was the string. *)
Definition find_result (F : find_flags) (x : list Z) (find findpos : Z) (termptr : list Z) : Z * list Z :=
  if (find =? 0) || bool_decide (x = []) then (0, x)
  else if negb (find =? 1) || NO_PREFIX F then (-1, x)
  else (findpos + 1, termptr).

(** [find], [findpos] and [termptr]: the number of names that begin like the
    string, the last one of them and where the string ends. *)
Fixpoint find_loop (F : find_flags) (x : list Z) (names : TYPELIB) (pos find findpos : Z) (termptr : list Z) : Z * list Z :=
  match names with
  | [] => find_result F x find findpos termptr
  | name :: names' =>
      let '(i, j) := compare_name F x name in
      let i := if bool_decide (j = []) then skip_spaces i else i in
      if bool_decide (j = []) && (bool_decide (i = []) || is_field_separator F (deref i)) then (pos + 1, i)
      else if bool_decide (i = []) && (bool_decide (j = []) || negb (NO_PREFIX F))
      then find_loop F x names' (pos + 1) (find + 1) pos i
      else find_loop F x names' (pos + 1) find findpos termptr
  end.

Definition find_type_eol (x : list Z) (typelib : TYPELIB) (F : find_flags) : Z * list Z :=
  if bool_decide (typelib = []) then (0, x) else find_loop F x typelib 0 0 0 x.

Definition find_type (x : list Z) (typelib : TYPELIB) (F : find_flags) : Z := fst (find_type_eol x typelib F).

(** The messages of [find_type_with_warning]. *)
Definition find_type_with_warning (x : list Z) (typelib : TYPELIB) (option : list Z) : Z * list Z :=
  let res := find_type x typelib FIND_TYPE_BASIC in
  if res <=? 0 then
    (res,
     (if bool_decide (x = []) then str "No option given to " ++ option ++ [10]
      else str "Unknown option to " ++ option ++ str ": " ++ x ++ [10])
     ++ str "Alternatives are: '" ++ default [] (head typelib) ++ str "'"
     ++ flat_map (fun n => str ",'" ++ n ++ str "'") (tail typelib) ++ [10])
  else (res, []).

Definition get_type (typelib : TYPELIB) (nr : nat) : list Z := nth nr typelib (str "?").

Definition make_type (nr : nat) (typelib : TYPELIB) : list Z :=
  match nr with O => [] | S n => get_type typelib n end.

(** ** Sets of names *)

(** The end of an element: the string from the comma on. *)
Fixpoint to_comma (x : list Z) : list Z :=
  match x with c :: x' => if c =? ","%chr then x else to_comma x' | [] => [] end.

(** The result and the number of the element that is wrong. *)
Fixpoint typeset_loop (fuel : nat) (x : list Z) (lib : TYPELIB) (result err : Z) : option (Z * Z) :=
  match x with
  | [] => Some (result, 0)
  | _ =>
      match fuel with
      | O => None
      | S fuel' =>
          let err := err + 1 in
          let e := to_comma x in
          let next := match e with _ :: (_ :: _) as e' => drop 1 e | _ => e end in
          let find := find_type x lib (mkFlags true false) - 1 in
          if find <? 0 then Some (0, err)
          else typeset_loop fuel' next lib (Z.lor result (Z.shiftl 1 find)) err
      end
  end.

(** [err] is the value of the caller's variable, which an empty list of names
    leaves alone. *)
Definition find_typeset (x : list Z) (lib : TYPELIB) (err : Z) : option (Z * Z) :=
  if bool_decide (lib = []) then Some (0, err) else typeset_loop (S (length x)) x lib 0 0.

(** ** Flags that are switched on and off *)

Definition on_off_default_typelib : TYPELIB := [str "off"; str "on"; str "default"].

Definition parse_name (lib : TYPELIB) (pos : list Z) : Z * list Z := find_type_eol pos lib (mkFlags true true).

Record flag_sets := mkFlagSets { flags_to_set : Z; flags_to_clear : Z; set_defaults : bool }.

(** One assignment from [start] on: the flags and the string behind it, [None]
    on an error. *)
Definition parse_flag (lib : TYPELIB) (default_name default_set : Z) (start : list Z) (s : flag_sets) : option (flag_sets * list Z) :=
  let '(flag_no, pos) := parse_name lib start in
  if flag_no =? 0 then None
  else if flag_no =? default_name then
    if set_defaults s then None else Some (mkFlagSets (flags_to_set s) (flags_to_clear s) true, pos)
  else
    let bit := Z.shiftl 1 (flag_no - 1) in
    if negb (Z.land (Z.lor (flags_to_clear s) (flags_to_set s)) bit =? 0) then None
    else match pos with
    | [] => None
    | c :: pos =>
        if negb (c =? "="%chr) then None
        else
          let '(value, pos) := parse_name on_off_default_typelib pos in
          let set := mkFlagSets (Z.lor (flags_to_set s) bit) (flags_to_clear s) (set_defaults s) in
          let clear := mkFlagSets (flags_to_set s) (Z.lor (flags_to_clear s) bit) (set_defaults s) in
          if value =? 0 then None
          else if value =? 1 then Some (clear, pos)
          else if value =? 2 then Some (set, pos)
          else if negb (Z.land default_set bit =? 0) then Some (set, pos) else Some (clear, pos)
    end.

(** The loop; [err_pos] is the rest of the string from a wrong assignment on. *)
Fixpoint flags_loop (fuel : nat) (lib : TYPELIB) (default_name default_set : Z) (start : list Z) (s : flag_sets)
    : option (flag_sets * option (list Z)) :=
  match fuel with
  | O => None
  | S fuel' =>
      match parse_flag lib default_name default_set start s with
      | None => Some (s, Some start)
      | Some (s, []) => Some (s, None)
      | Some (s, c :: pos) =>
          if negb (c =? ","%chr) then Some (s, Some start)
          else flags_loop fuel' lib default_name default_set pos s
      end
  end.

Definition find_set_from_flags (lib : TYPELIB) (default_name cur_set default_set : Z) (str : list Z) : option (Z * option (list Z)) :=
  '(s, err_pos) ← (if bool_decide (str = []) then Some (mkFlagSets 0 0 false, None)
                    else flags_loop (S (length str)) lib default_name default_set str (mkFlagSets 0 0 false));
  let res := Z.lor (if set_defaults s then default_set else cur_set) (flags_to_set s) in
  Some (Z.land res (Z.lnot (flags_to_clear s)), err_pos).

(** ** What a search finds *)

Definition upper (s : list Z) : list Z := map (my_toupper my_charset_latin1) s.

(** A string is a name, in letters of any case and with spaces behind it. *)
Definition is_name (e n : list Z) : bool :=
  bool_decide (upper (take (length n) e) = upper n) && forallb (fun c => c =? 32) (drop (length n) e).

(** A string is the beginning of a name. *)
Definition begins (e n : list Z) : bool := bool_decide (upper e = upper (take (length e) n)).

(** The numbers of the names that the string begins. *)
Fixpoint hits (e : list Z) (names : TYPELIB) (pos : Z) : list Z :=
  match names with
  | [] => []
  | n :: names' => if begins e n then pos :: hits e names' (pos + 1) else hits e names' (pos + 1)
  end.

(** The first name that the string is, or else the only one it begins: its
    number from 1 on, 0 if there is none and -1 if there are several. *)
Definition lookup_name (prefixes : bool) (e : list Z) (names : TYPELIB) : Z :=
  match list_find (fun n => is_name e n = true) names with
  | Some (k, _) => Z.of_nat k + 1
  | None =>
      if negb prefixes || bool_decide (e = []) then 0
      else match hits e names 0 with [] => 0 | [k] => k + 1 | _ => -1 end
  end.

Lemma toupper_nz : forallb (fun c => negb (my_toupper my_charset_latin1 c =? 0)) (map Z.of_nat (seq 1 255)) = true.
Proof. vm_compute. reflexivity. Qed.

Lemma toupper_char c : is_char c = true -> my_toupper my_charset_latin1 c <> 0.
Proof.
  intros [H1%Z.leb_le H2%Z.leb_le]%andb_true_iff. pose proof toupper_nz as H. rewrite forallb_forall in H.
  specialize (H c). rewrite negb_true_iff, Z.eqb_neq in H. apply H. apply in_map_iff. exists (Z.to_nat c). split; [lia|]. apply in_seq. lia.
Qed.

Section search.
Context (F : find_flags).

(** An element of a list, up to its separator. *)
Definition element (e rest : list Z) : Prop :=
  c_string e /\ Forall (fun c => is_field_separator F c = false) e /\ (rest = [] \/ is_field_separator F (deref rest) = true).

Lemma separator_nz c : is_field_separator F c = true -> c = 44 \/ c = 61.
Proof. unfold is_field_separator. rewrite andb_true_iff, orb_true_iff, !Z.eqb_eq. by intros [_ ?]. Qed.

(** The comparison stops at the end of the element, at the end of the name or
    where they differ. *)
Lemma compare_name_spec rest : forall e n, element e rest -> c_string n ->
  exists p q e' n', e = p ++ e' /\ n = q ++ n' /\ upper p = upper q /\ compare_name F (e ++ rest) n = (e' ++ rest, n')
    /\ (e' = [] \/ n' = [] \/ my_toupper my_charset_latin1 (deref e') <> my_toupper my_charset_latin1 (deref n')).
Proof.
  induction e as [|c e IH]; intros n (He & Hs & Hr) Hn.
  - exists [], [], [], n. split_and!; try done; [|by left]. cbn [app]. destruct Hr as [->|Hr]; [done|]. destruct rest as [|d rest]; [done|].
    cbn [compare_name]. cbn in Hr. by rewrite Hr.
  - apply Forall_cons in He as [Hc He], Hs as [Hsc Hs]. cbn [app compare_name]. rewrite Hsc. cbn [negb andb].
    destruct (Z.eqb_spec (my_toupper my_charset_latin1 c) (my_toupper my_charset_latin1 (deref n))) as [Heq|Hne].
    + destruct n as [|d n]; [by apply toupper_char in Hc|]. apply Forall_cons in Hn as [Hd Hn]. rewrite drop_1_cons.
      destruct (IH n) as (p & q & e' & n' & -> & -> & Hpq & -> & Hx); [done|done|]. exists (c :: p), (d :: q), e', n'. split_and!; try done.
      unfold upper in *. cbn [map]. by rewrite Heq, Hpq.
    + exists [], [], (c :: e), n. split_and!; try done. by right; right.
Qed.

Lemma skip_spaces_app s rest : deref rest <> 32 ->
  skip_spaces (s ++ rest) = if forallb (fun c => c =? 32) s then rest else skip_spaces s ++ rest.
Proof.
  intros Hr. induction s as [|c s IH]; cbn [app skip_spaces forallb].
  - destruct rest as [|d rest]; [done|]. cbn in Hr |- *. by rewrite (proj2 (Z.eqb_neq d 32)).
  - destruct (c =? 32); [apply IH|done].
Qed.

Lemma skip_spaces_cons s : forallb (fun c => c =? 32) s = false -> exists c s', skip_spaces s = c :: s' /\ c ∈ s.
Proof.
  induction s as [|c s IH]; [done|]. cbn [forallb skip_spaces]. destruct (c =? 32) eqn:E; cbn [andb].
  - intros (d & s' & Hd & Hin)%IH. exists d, s'. split; [done|by right].
  - intros _. exists c, s. split; [done|by left].
Qed.

Lemma upper_length p q : upper p = upper q -> length p = length q.
Proof. intros H%(f_equal length). unfold upper in H. by rewrite !length_map in H. Qed.

Lemma upper_app p q : upper (p ++ q) = upper p ++ upper q.
Proof. apply map_app. Qed.

Lemma app_same {A} (p q r s : list A) : length p = length q -> p ++ r = q ++ s -> r = s.
Proof. intros Hl H. by apply app_inj_1 in H as [_ ?]. Qed.

(** What the loop sees of one name. *)
Lemma name_cases e rest n : element e rest -> c_string n ->
  let '(i, j) := compare_name F (e ++ rest) n in
  let i := if bool_decide (j = []) then skip_spaces i else i in
  if is_name e n then j = [] /\ i = rest
  else bool_decide (j = []) && (bool_decide (i = []) || is_field_separator F (deref i)) = false
       /\ bool_decide (i = []) = begins e n && bool_decide (rest = []) /\ (i = [] -> j <> []).
Proof.
  intros He Hn. destruct (compare_name_spec rest e n He Hn) as (p & q & e' & n' & -> & -> & Hpq & -> & Hx).
  pose proof (upper_length p q Hpq) as Hl. destruct He as (He & Hs & Hr). unfold is_name, begins.
  assert (Hr32 : deref rest <> 32) by (destruct Hr as [->|Hr]; [done|]; apply separator_nz in Hr; lia).
  destruct n' as [|d n'].
  - rewrite !app_nil_r, <-Hl, take_app_length, drop_app_length, Hpq. rewrite (bool_decide_true (upper q = upper q)), (bool_decide_true (@nil Z = [])) by done.
    cbn [andb]. rewrite skip_spaces_app by done. destruct (forallb (fun c => c =? 32) e') eqn:Ee; [done|].
    destruct (skip_spaces_cons e' Ee) as (c & s' & -> & Hc). cbn [app deref nth].
    rewrite (bool_decide_false (c :: s' ++ rest = [])) by done. split_and!; [|symmetry|done].
    + cbn [orb]. apply Forall_app in Hs as [_ Hs]. rewrite Forall_forall in Hs. by apply Hs.
    + apply andb_false_iff. left. apply bool_decide_eq_false. intros H%upper_length. rewrite length_take, length_app in H.
      destruct e'; [by apply elem_of_nil in Hc|]. cbn in H. lia.
  - rewrite (bool_decide_false (d :: n' = [])) by done. cbn [andb].
    destruct e' as [|c e'].
    + rewrite app_nil_r, (bool_decide_false (upper (take _ p) = _)), andb_false_l.
      * split; [done|]. split; [|done]. rewrite Hl, take_app_length. by rewrite (bool_decide_true (upper p = upper q)).
      * intros H%upper_length. rewrite length_take, !length_app in H. cbn in H. lia.
    + destruct Hx as [|[|Hx]]; [done|done|]. cbn [deref nth] in Hx.
      assert (Hne : forall k k', upper (take (length p + S k) (p ++ c :: e')) <> upper (take (length q + S k') (q ++ d :: n'))).
      { intros k k'. rewrite !take_app_add. unfold upper. rewrite !map_app. intros H. apply app_same in H; [|by rewrite !length_map].
        cbn [take map] in H. congruence. }
      rewrite (bool_decide_false (upper (take _ (p ++ _)) = _)), andb_false_l.
      * split; [done|]. split; [|done]. symmetry. apply andb_false_iff. left. apply bool_decide_eq_false. intros H.
        apply (Hne (length e') (length e')). rewrite take_ge by (rewrite length_app; cbn; lia). rewrite H, length_app, Hl. done.
      * intros H. apply (Hne (length n') (length n')). rewrite (take_ge (q ++ _)) by (rewrite length_app; cbn; lia). rewrite <-H, length_app, Hl. done.
Qed.

Lemma find_loop_exact e rest names : forall pos find findpos termptr k n, element e rest -> Forall c_string names ->
  list_find (fun n => is_name e n = true) names = Some (k, n) ->
  find_loop F (e ++ rest) names pos find findpos termptr = (pos + Z.of_nat k + 1, rest).
Proof.
  induction names as [|m names IH]; intros pos find findpos termptr k n He Hn Hk; [done|]. apply Forall_cons in Hn as [Hm Hn].
  pose proof (name_cases e rest m He Hm) as Hc. cbn [find_loop list_find] in *. destruct (compare_name F (e ++ rest) m) as [i j].
  destruct (decide (is_name e m = true)) as [Em|Em%not_true_is_false]; rewrite Em in Hc.
  - injection Hk as <- <-. destruct Hc as [-> Hc]. cbn zeta. rewrite (bool_decide_true (@nil Z = [])) in * by done. rewrite Hc.
    destruct He as (_ & _ & [->|Hr]); [f_equal; lia|]. rewrite Hr, orb_true_r. cbn [andb]. f_equal. lia.
  - destruct (list_find _ names) as [[k' n']|] eqn:Ek; [|done]. cbn in Hk. injection Hk as <- <-. cbn zeta in *.
    destruct Hc as (-> & Hi & Hj).
    destruct (bool_decide _ && (bool_decide (j = []) || _)); rewrite (IH _ _ _ _ k' n') by done; f_equal; lia.
Qed.

Lemma find_loop_prefix e rest names : forall pos find findpos termptr, element e rest -> Forall c_string names ->
  list_find (fun n => is_name e n = true) names = None ->
  let h := if bool_decide (rest = []) && negb (NO_PREFIX F) then hits e names pos else [] in
  find_loop F (e ++ rest) names pos find findpos termptr
  = find_result F (e ++ rest) (find + Z.of_nat (length h)) (default findpos (last h)) (if bool_decide (h = []) then termptr else []).
Proof.
  induction names as [|m names IH]; intros pos find findpos termptr He Hn Hk.
  { cbn zeta. destruct (_ && _); cbn [find_loop hits length last default]; rewrite Z.add_0_r; by rewrite bool_decide_true. }
  apply Forall_cons in Hn as [Hm Hn]. pose proof (name_cases e rest m He Hm) as Hc. cbn [find_loop list_find] in Hk |- *.
  destruct (compare_name F (e ++ rest) m) as [i j]. destruct (decide (is_name e m = true)) as [Em|Em%not_true_is_false]; [done|]. rewrite Em in Hc.
  destruct (list_find _ names) as [[k' n']|] eqn:Ek; [done|]. cbn zeta in *. destruct Hc as (-> & Hi & Hj).
  set (i' := if bool_decide (j = []) then skip_spaces i else i) in *. cbn [hits].
  assert (bool_decide (i' = []) && (bool_decide (j = []) || negb (NO_PREFIX F)) = begins e m && (bool_decide (rest = []) && negb (NO_PREFIX F))) as ->.
  { rewrite andb_assoc, <-Hi. destruct (bool_decide_reflect (i' = [])) as [Hi'|]; [|done]. by rewrite (bool_decide_false (j = [])) by (by apply Hj). }
  destruct (bool_decide (rest = []) && negb (NO_PREFIX F)) eqn:Ep; rewrite ?andb_true_r, ?andb_false_r.
  - destruct (begins e m) eqn:Eb; rewrite IH by done; [|done]. cbn [length last]. rewrite (bool_decide_false (pos :: _ = [])) by done.
    f_equal; [lia| |].
    + rewrite last_cons. by destruct (last (hits e names (pos + 1))).
    + destruct (bool_decide (hits e names (pos + 1) = [])); [|done]. apply andb_true_iff in Ep as [Er _]. rewrite Er in Hi. by apply bool_decide_eq_true in Hi.
  - by rewrite IH.
Qed.

(** The search, as a function of the element that the string starts with. *)
Lemma find_type_spec e rest names : element e rest -> Forall c_string names ->
  fst (find_type_eol (e ++ rest) names F) = lookup_name (bool_decide (rest = []) && negb (NO_PREFIX F)) e names
  /\ (0 < fst (find_type_eol (e ++ rest) names F) -> snd (find_type_eol (e ++ rest) names F) = rest).
Proof.
  intros He Hn. unfold find_type_eol, lookup_name, TYPELIB. destruct (bool_decide_reflect (names = [])) as [->|Hnn].
  { cbn. by destruct (_ || _). }
  destruct (list_find _ names) as [[k n]|] eqn:Ek; [by rewrite (find_loop_exact e rest names _ _ _ _ k n)|].
  rewrite find_loop_prefix by done. unfold find_result.
  destruct (bool_decide_reflect (rest = [])) as [->|Hr]; cbn [andb negb]; [|done]. rewrite app_nil_r.
  destruct (NO_PREFIX F) eqn:En; cbn [negb orb]; [done|]. destruct (bool_decide (e = [])); [by rewrite orb_true_r|].
  destruct (hits e names 0) as [|h [|h' hs]]; cbn [orb length]; [done|done|].
  rewrite (proj2 (Z.eqb_neq (0 + Z.of_nat (S (S (length hs)))) 0)), (proj2 (Z.eqb_neq (0 + Z.of_nat (S (S (length hs)))) 1)) by lia. done.
Qed.

End search.
