(* ===== verification/FileNames.v ===== *)
(** * Names of files and directories (mysys/mf_dirname.c, mf_pack.c, mf_format.c, mf_fn_ext.c, my_getwd.c, mf_arr_appstr.c)

    The functions that take names apart, clean them and put them together, for a
    system with slashes, without device letters and without a multi-byte
    character set of the file system.  [None] is an access outside an array, a
    string that is not terminated, or a value that was never set. *)

From stdpp Require Import base list numbers.
From S2P Require Import Prelude CString.
Open Scope Z_scope.

Definition FN_LEN : nat := 256.
Definition FN_REFLEN : nat := 512.
Abbreviation FN_LIBCHAR := ("/"%chr).
Abbreviation FN_HOMELIB := ("~"%chr).
Abbreviation FN_CURLIB := ("."%chr).
Abbreviation FN_EXTCHAR := ("."%chr).

(** ** Parts of a name (mysys/mf_dirname.c, mf_fn_ext.c) *)

Fixpoint dirname_loop (name : list Z) (pos gpos : nat) : nat :=
  match name with
  | [] => gpos
  | c :: name' => dirname_loop name' (S pos) (if c =? FN_LIBCHAR then S pos else gpos)
  end.

Definition dirname_length (name : list Z) : nat := dirname_loop name 0 0.

(** The last character is a slash, or there is none. *)
Definition ends_dir (s : list Z) : bool := match last s with Some c => c =? FN_LIBCHAR | None => true end.

(** [from_end] is the number of characters up to the end, if one is given. *)
Definition convert_dirname (from : list Z) (from_end : option nat) : list Z :=
  let n := match from_end with Some n => if (FN_REFLEN - 2 <? n)%nat then (FN_REFLEN - 2)%nat else n | None => (FN_REFLEN - 2)%nat end in
  let to := strmake from n in
  if ends_dir to then to else to ++ [FN_LIBCHAR].

Definition dirname_part (name : list Z) : nat * list Z :=
  let length := dirname_length name in (length, convert_dirname name (Some length)).

Fixpoint strchr (s : list Z) (c : Z) : option nat :=
  match s with
  | [] => None
  | d :: s' => if d =? c then Some 0%nat else S <$> strchr s' c
  end.

Fixpoint strrchr (s : list Z) (c : Z) : option nat :=
  match s with
  | [] => None
  | d :: s' => match strrchr s' c with Some n => Some (S n) | None => if d =? c then Some 0%nat else None end
  end.

(** The extension, as the rest of the name. *)
Definition last_part (name : list Z) : list Z := match strrchr name FN_LIBCHAR with Some n => drop n name | None => name end.

Definition fn_ext (name : list Z) : list Z :=
  let g := last_part name in match strchr g FN_EXTCHAR with Some n => drop n g | None => [] end.

Definition fn_ext2 (name : list Z) : list Z :=
  let g := last_part name in match strrchr g FN_EXTCHAR with Some n => drop n g | None => [] end.

(** ** Cleaning (mysys/mf_pack.c) *)

Section names.
(** The home directory, [getcwd] with the size of its array, the home directory
    of a user, and the links of the file system. *)
Context (home_dir : option (list Z)) (getcwd : nat -> option (list Z)) (getpwnam : list Z -> option (list Z))
  (my_realpath my_readlink : list Z -> list Z).

(** The flags of the callers are zero: a failure of [getcwd] is then not seen and
    the array is used as it is. *)
Definition my_getwd (size : nat) : option (list Z) :=
  dir ← getcwd (size - 2);
  match last dir with
  | None => None
  | Some c => Some (strmake (if c =? FN_LIBCHAR then dir else dir ++ [FN_LIBCHAR]) (FN_REFLEN - 1))
  end.

Definition test_if_hard_path (dir_name : list Z) : bool :=
  let hard d := deref d =? FN_LIBCHAR in
  if (deref dir_name =? FN_HOMELIB) && (at_ dir_name 1 =? FN_LIBCHAR)
  then match home_dir with
       | Some h => if (deref h =? FN_HOMELIB) && (at_ h 1 =? FN_LIBCHAR) then false else hard h
       | None => false
       end
  else hard dir_name.

Definition parent : list Z := str "/..".
Definition BUFF_SIZE : nat := (FN_REFLEN + 1)%nat.

(** The character at a position of the array. *)
Definition rd (buff : list Z) (pos : Z) : option Z := if pos <? 0 then None else buff !! Z.to_nat pos.

(** A string with its NUL into the array. *)
Definition put (buff : list Z) (pos : Z) (s : list Z) : option (list Z) :=
  let n := Z.to_nat pos in
  if (pos <? 0) || (BUFF_SIZE <? n + length s)%nat then None else Some (take n buff ++ s ++ drop (n + length s) buff).

(** Three characters of the array are a slash and two dots. *)
Definition is_parent (buff : list Z) (pos : Z) : bool := bool_decide (take 3 (drop (Z.to_nat pos) buff) = parent).

(** Back to the slash before a position, or to the one before [start]. *)
Fixpoint back_to_slash (fuel : nat) (buff : list Z) (pos start : Z) : option Z :=
  if pos <? start then Some pos
  else c ← rd buff pos; if c =? FN_LIBCHAR then Some pos else match fuel with O => None | S fuel' => back_to_slash fuel' buff (pos - 1) start end.

(** The single character of a directory [~] or [.], which is a whole name. *)
Definition is_whole (buff : list Z) (pos start ch : Z) : option bool :=
  c ← rd buff pos;
  if negb (c =? ch) then Some false
  else if pos =? start then Some true
  else d ← rd buff (pos - 1); Some (d =? FN_LIBCHAR).

(** A directory into the array from its beginning; the position is that of its
    last character that is not a slash. *)
Definition unpack (buff dir : list Z) : option (list Z * Z) :=
  buff ← put buff 0 (dir ++ [0]);
  let pos := Z.of_nat (length dir) - 1 in
  c ← rd buff pos;
  Some (buff, if c =? FN_LIBCHAR then pos - 1 else pos).

(** The part of the loop for a slash behind two dots: the array and the position
    where the loop goes on. *)
Definition skip_prev (buff : list Z) (pos start : Z) : option (list Z * Z) :=
  let len := 3 in
  let pos := pos - len in
  if pos =? start then Some (buff, pos + 1)
  else
    let pos := pos - 1 in
    h ← is_whole buff pos start FN_HOMELIB;
    if (h : bool) && negb (found home_dir) then Some (buff, pos + len + 1 + 1)
    else
      '(buff, pos) ← (if (h : bool) then home ← home_dir; unpack buff home else Some (buff, pos));
      w ← is_whole buff pos start FN_CURLIB;
      '(buff, pos) ← (if (w : bool) then cwd ← my_getwd FN_REFLEN; unpack buff cwd else Some (buff, pos));
      let end_parentdir := pos in
      pos ← back_to_slash BUFF_SIZE buff pos start;
      c ← rd buff (pos + 1);
      if (c =? FN_HOMELIB) || ((start <=? pos) && is_parent buff pos) then
        buff ← put buff (end_parentdir + 1) (parent ++ [0]);
        let pos := end_parentdir + 1 + len in
        buff ← put buff pos [FN_LIBCHAR];
        Some (buff, pos + 1)
      else Some (buff, pos + 1).

(** The part of the loop for a slash: the array, where the loop goes on, and the
    beginning of the part that can be cleaned. *)
Definition clean_slash (buff : list Z) (pos start : Z) : option (list Z * Z * Z) :=
  let len := 3 in
  if (len <? pos - start) && is_parent buff (pos - len) then '(buff, pos) ← skip_prev buff pos start; Some (buff, pos, start)
  else if (pos - start =? len - 1) && bool_decide (take 2 (drop (Z.to_nat start) buff) = str "..") then Some (buff, pos + 1, pos)
  else if (0 <? pos - start) && bool_decide (rd buff (pos - 1) = Some FN_LIBCHAR) then Some (buff, pos, start)
  else if (1 <? pos - start) && bool_decide (rd buff (pos - 1) = Some FN_CURLIB) && bool_decide (rd buff (pos - 2) = Some FN_LIBCHAR)
  then Some (buff, pos - 1, start)
  else Some (buff, pos + 1, start).

Fixpoint cleanup_loop (from_ptr buff : list Z) (pos start : Z) : option (list Z) :=
  match from_ptr with
  | [] => buff ← put buff pos [0]; Some (take (Z.to_nat pos) buff)
  | c :: from_ptr' =>
      buff ← put buff pos [c];
      if c =? FN_LIBCHAR then '(buff, pos, start) ← clean_slash buff pos start; cleanup_loop from_ptr' buff pos start
      else cleanup_loop from_ptr' buff (pos + 1) start
  end.

(** The array has no values at first, but nothing behind [pos] is read. *)
Definition cleanup_dirname (from : list Z) : option (list Z) := cleanup_loop from (replicate BUFF_SIZE 0) 0 0.

(** [strnmov] ends the string only if it is shorter than the array. *)
Definition intern_filename (from : list Z) : option (list Z) :=
  let '(length, to) := dirname_part from in
  let rest := drop length from in
  if (List.length rest <? FN_REFLEN - List.length to)%nat then Some (to ++ rest) else None.

Definition normalize_dirname (from : list Z) : option (list Z) :=
  buff ← intern_filename from;
  let length := List.length buff in
  let buff :=
    if ends_dir buff then buff
    else take (if (BUFF_SIZE - 1 <=? length)%nat then (BUFF_SIZE - 2)%nat else length) buff ++ [FN_LIBCHAR] in
  cleanup_dirname buff.

(** The expansion and the rest of the path behind the tilde. *)
Definition expand_tilde (path : list Z) : option (list Z) * list Z :=
  if deref path =? FN_LIBCHAR then (home_dir, path)
  else
    let n := default (length path) (strchr path FN_LIBCHAR) in
    match getpwnam (take n path) with Some dir => (Some dir, drop n path) | None => (None, path) end.

Definition system_filename (from : list Z) : list Z := strmake from (FN_REFLEN - 1).

Definition unpack_dirname (from : list Z) : option (list Z) :=
  buff ← normalize_dirname from;
  let buff :=
    if deref buff =? FN_HOMELIB then
      match expand_tilde (drop 1 buff) with
      | (Some tilde_expansion, suffix) =>
          if (length suffix + 1 + length tilde_expansion <=? FN_REFLEN)%nat then
            (match last tilde_expansion with
             | Some c => if c =? FN_LIBCHAR then take (length tilde_expansion - 1) tilde_expansion else tilde_expansion
             | None => tilde_expansion
             end) ++ suffix
          else buff
      | (None, _) => buff
      end
    else buff in
  Some (system_filename buff).

Definition unpack_filename (from : list Z) : option (list Z) :=
  let '(length, buff) := dirname_part from in
  buff ← unpack_dirname buff;
  let rest := drop length from in
  Some (system_filename (if (List.length buff + List.length rest <? FN_REFLEN)%nat then buff ++ rest else from)).

(** The length of a directory without a slash at its end. *)
Definition dir_length (dir : list Z) : option nat :=
  match last dir with
  | None => None
  | Some c => Some (if c =? FN_LIBCHAR then (length dir - 1)%nat else length dir)
  end.

(** [/home/user/x] becomes [~/x]. *)
Definition pack_home (to : list Z) : option (list Z) :=
  match home_dir with
  | None => Some to
  | Some h =>
      n ← dir_length h;
      Some (if (1 <? n)%nat && (n <? length to)%nat && bool_decide (take n to = take n h) && (at_ to n =? FN_LIBCHAR)
            then FN_HOMELIB :: drop n to else to)
  end.

Definition pack_dirname (from : list Z) : option (list Z) :=
  to ← intern_filename from;
  buff ← my_getwd FN_REFLEN;
  to ← (if negb (deref to =? FN_LIBCHAR) && negb (bool_decide (to = [])) then
          if (length buff + length to <? FN_REFLEN)%nat then Some (buff ++ to) else None
        else Some to);
  to ← cleanup_dirname to;
  if bool_decide (to = []) then Some to
  else
    to ← pack_home to;
    buff ← pack_home buff;
    Some (if is_prefix to buff then (if (length buff <? length to)%nat then drop (length buff) to else [FN_CURLIB; FN_LIBCHAR]) else to).

(** ** Whole names (mysys/mf_format.c) *)

(** The length of a string without the blanks at its end; [skip_word] is the loop
    over the characters of a word, [skip_blanks] the one over blanks. *)
Fixpoint skip_word (s : list Z) : nat :=
  match s with
  | [] => 0
  | c :: s' => if c =? " "%chr then 0 else S (skip_word s')
  end.

Fixpoint skip_blanks (s : list Z) : nat :=
  match s with
  | [] => 0
  | c :: s' => if c =? " "%chr then S (skip_blanks s') else 0
  end.

Fixpoint strlength_loop (fuel : nat) (str : list Z) (pos found : nat) : option nat :=
  match fuel with
  | O => None
  | S fuel' =>
      if (length str <=? pos)%nat then Some found
      else
        let pos := if at_ str pos =? " "%chr then pos else (pos + 1 + skip_word (drop (pos + 1) str))%nat in
        if (length str <=? pos)%nat then Some pos
        else strlength_loop fuel' str (pos + 1 + skip_blanks (drop (pos + 1) str)) pos
  end.

Definition strlength (str : list Z) : option nat := strlength_loop (S (length str)) str 0 0.

Definition MY_REPLACE_DIR : Z := 1.
Definition MY_REPLACE_EXT : Z := 2.
Definition MY_UNPACK_FILENAME : Z := 4.
Definition MY_PACK_FILENAME : Z := 8.
Definition MY_RESOLVE_SYMLINKS : Z := 16.
Definition MY_RETURN_REAL_PATH : Z := 32.
Definition MY_SAFE_PATH : Z := 64.
Definition MY_RELATIVE_PATH : Z := 128.
Definition MY_APPEND_EXT : Z := 256.

Definition has (flag f : Z) : bool := negb (Z.land flag f =? 0).

(** The directory of the new name. *)
Definition format_dir (name dir : list Z) (flag : Z) : option (list Z) :=
  let '(length, dev) := dirname_part name in
  let dev :=
    if (length =? 0)%nat || has flag MY_REPLACE_DIR then convert_dirname dir None
    else if has flag MY_RELATIVE_PATH && negb (test_if_hard_path dev) then
      let buff := strmake dev (FN_REFLEN - 1) in
      let pos := convert_dirname dir None in
      pos ++ strmake buff (FN_REFLEN - 1 - List.length pos)
    else dev in
  dev ← (if has flag MY_PACK_FILENAME then pack_dirname dev else Some dev);
  if has flag MY_UNPACK_FILENAME then unpack_dirname dev else Some dev.

(** [Some None] is a null pointer. *)
Definition fn_format (name dir extension : list Z) (flag : Z) : option (option (list Z)) :=
  let startpos := name in
  dev ← format_dir name dir flag;
  let name := drop (dirname_length name) name in
  len ← strlength name;
  let '(len, ext) :=
    match strchr name FN_EXTCHAR with
    | Some pos => if has flag MY_APPEND_EXT then (len, extension) else if has flag MY_REPLACE_EXT then (pos, extension) else (len, [])
    | None => (len, extension)
    end in
  let resolved to := if has flag MY_RETURN_REAL_PATH then my_realpath to else if has flag MY_RESOLVE_SYMLINKS then my_readlink to else to in
  if (FN_REFLEN <=? length dev + len + length ext)%nat || (FN_LEN <=? len)%nat then
    if has flag MY_SAFE_PATH then Some None
    else n ← strlength startpos; Some (Some (resolved (strmake startpos (Nat.min n (FN_REFLEN - 1)))))
  else Some (Some (resolved (dev ++ strmake name len ++ ext))).

End names.

(** ** Lists of directories (mysys/mf_arr_appstr.c) *)

(** The array has room for [size - 1] elements; [None] is the result for a full
    array. *)
Fixpoint array_append_loop (str : list Z) (array : list (list Z)) : list (list Z) :=
  match array with
  | [] => [str]
  | p :: array' => if bool_decide (p = str) then array' ++ [str] else p :: array_append_loop str array'
  end.

Definition array_append_string_unique (str : list Z) (array : list (list Z)) (size : nat) : option (list (list Z)) :=
  if (size - 1 <=? default (length array) (fst <$> list_find (eq str) array))%nat then None else Some (array_append_loop str array).

(** ** What cleaning does *)

(** A directory from its components, the last one first. *)
Definition path_text (stack : list (list Z)) : list Z := FN_LIBCHAR :: concat (map (fun c => c ++ [FN_LIBCHAR]) (rev stack)).

(** One more component for the loop: empty ones and dots do nothing, and two dots
    remove the last one unless it is the beginning, or one that begins with two
    dots or with a tilde. *)
Definition resists (c : list Z) : bool := bool_decide (take 2 c = str "..") || (deref c =? FN_HOMELIB).

Definition walk (stack : list (list Z)) (c : list Z) : list (list Z) :=
  if bool_decide (c = []) || bool_decide (c = str ".") then stack
  else if bool_decide (c = str "..") then
    match stack with
    | top :: stack' => if resists top then c :: stack else stack'
    | [] => [c]
    end
  else c :: stack.

(** The components that the array can hold. *)
Definition plain_component (c : list Z) : Prop := c <> [] /\ (FN_LIBCHAR ∉ c) /\ c <> [FN_CURLIB] /\ c <> [FN_HOMELIB].

Lemma path_text_cons c stack : path_text (c :: stack) = path_text stack ++ c ++ [FN_LIBCHAR].
Proof. unfold path_text. cbn [rev]. rewrite map_app, concat_app. cbn. by rewrite app_nil_r. Qed.

Lemma path_text_end stack : exists t, path_text stack = t ++ [FN_LIBCHAR].
Proof. destruct stack as [|c stack]; [by exists []|]. exists (path_text stack ++ c). by rewrite path_text_cons, app_assoc. Qed.

(** Concatenations that differ in their parentheses. *)
Ltac reassoc := repeat (progress (cbn [app]; rewrite <-?app_assoc)); reflexivity.

(** Lengths of concatenations. *)
Ltac lens := repeat (progress (cbn [app length]; rewrite ?length_app)); lia.

Lemma put_here X s r rest : length (X ++ r ++ rest) = BUFF_SIZE -> length s = length r ->
  put (X ++ r ++ rest) (Z.of_nat (length X)) s = Some (X ++ s ++ rest).
Proof.
  intros Hlen Hs. unfold put. rewrite Nat2Z.id. rewrite !length_app in Hlen. rewrite (proj2 (Z.ltb_ge _ _)) by lia.
  rewrite (proj2 (Nat.ltb_ge _ _)) by lia. cbn [orb]. rewrite take_app_length, Hs, <-drop_drop, !drop_app_length. done.
Qed.

Lemma rd_at X c r : rd (X ++ c :: r) (Z.of_nat (length X)) = Some c.
Proof. unfold rd. rewrite (proj2 (Z.ltb_ge _ _)) by lia. rewrite Nat2Z.id, lookup_app_r, Nat.sub_diag by lia. done. Qed.

Lemma rd_last X c r z : z = Z.of_nat (length X) -> rd ((X ++ [c]) ++ r) z = Some c.
Proof. intros ->. rewrite <-app_assoc. apply rd_at. Qed.

Lemma is_parent_at X l r z : z = Z.of_nat (length X) -> length l = 3%nat -> is_parent (X ++ l ++ r) z = bool_decide (l = parent).
Proof. intros -> Hl. unfold is_parent. rewrite Nat2Z.id, drop_app_length, take_app_le, take_ge by lia. done. Qed.

Lemma back_to_slash_at A mid r fuel z : FN_LIBCHAR ∉ mid -> (length mid <= fuel)%nat -> z = Z.of_nat (length A + length mid) ->
  back_to_slash fuel (A ++ FN_LIBCHAR :: mid ++ r) z 0 = Some (Z.of_nat (length A)).
Proof.
  intros Hmid. revert r fuel z. induction mid as [|c mid IH] using rev_ind; intros r fuel z Hf ->.
  - rewrite Nat.add_0_r. destruct fuel; cbn [back_to_slash]; rewrite (proj2 (Z.ltb_ge _ _)) by lia; cbn [app]; by rewrite rd_at.
  - rewrite length_app in *. cbn [length] in *. destruct fuel as [|fuel]; [lia|]. cbn [back_to_slash]. rewrite (proj2 (Z.ltb_ge _ _)) by lia.
    replace (A ++ FN_LIBCHAR :: (mid ++ [c]) ++ r) with (((A ++ FN_LIBCHAR :: mid) ++ [c]) ++ r) by reassoc.
    rewrite rd_last by (rewrite length_app; cbn [length]; lia). cbn [mbind option_bind].
    destruct (Z.eqb_spec c FN_LIBCHAR) as [->|_]; [set_solver|]. rewrite <-!app_assoc. cbn [app].
    apply IH; [set_solver|lia|lia].
Qed.

Lemma is_whole_not A c r ch z : c <> [] -> c <> [ch] -> FN_LIBCHAR ∉ c -> ch <> FN_LIBCHAR -> z = Z.of_nat (length A + length c) -> 
  is_whole (A ++ FN_LIBCHAR :: c ++ r) z 0 ch = Some false.
Proof.
  intros Hc Hone Hs Hch ->. destruct c as [|y c _] using rev_ind; [done|]. unfold is_whole. rewrite length_app. cbn [length].
  replace (A ++ FN_LIBCHAR :: (c ++ [y]) ++ r) with (((A ++ FN_LIBCHAR :: c) ++ [y]) ++ r) by reassoc.
  rewrite (rd_last (A ++ FN_LIBCHAR :: c) y r (Z.of_nat (length A + (length c + 1)))) by (rewrite length_app; cbn [length]; lia). cbn [mbind option_bind]. destruct (Z.eqb_spec y ch) as [->|]; [cbn [negb]|done].
  rewrite (proj2 (Z.eqb_neq _ _)) by lia. destruct c as [|x c _] using rev_ind; [done|].
  replace (((A ++ FN_LIBCHAR :: c ++ [x]) ++ [ch]) ++ r) with (((A ++ FN_LIBCHAR :: c) ++ [x]) ++ [ch] ++ r) by reassoc.
  rewrite rd_last by (rewrite !length_app; cbn [length]; lia). cbn [mbind option_bind]. rewrite (proj2 (Z.eqb_neq _ _)); [done|set_solver].
Qed.

Lemma parent_next top r : top <> [] -> bool_decide (take 3 (FN_LIBCHAR :: top ++ parent ++ r) = parent) = bool_decide (take 2 top = str "..").
Proof.
  intros Hne. change parent with [47; 46; 46]. change (str "..") with [46; 46]. change FN_LIBCHAR with 47.
  destruct top as [|t [|u top]]; [done| |]; cbn [take app]; rewrite ?take_0; apply bool_decide_ext; split; congruence.
Qed.

Lemma ends_in_parent t c Y : FN_LIBCHAR ∉ c -> t ++ FN_LIBCHAR :: c = Y ++ parent -> c = str "..".
Proof.
  intros Hc. change parent with ([FN_LIBCHAR] ++ [FN_CURLIB] ++ [FN_CURLIB]). rewrite !app_assoc.
  destruct c as [|b c _] using rev_ind; [by intros [_ ?]%app_inj_tail|]. rewrite app_comm_cons, app_assoc. intros [H ->]%app_inj_tail.
  destruct c as [|a c _] using rev_ind; [by apply app_inj_tail in H as [_ ?]|]. rewrite app_comm_cons, app_assoc in H. apply app_inj_tail in H as [H ->].
  destruct c as [|x c _] using rev_ind; [done|]. rewrite app_comm_cons, app_assoc in H. apply app_inj_tail in H as [_ ->]. set_solver.
Qed.

Lemma not_parent t c r z : FN_LIBCHAR ∉ c -> c <> str ".." -> z = Z.of_nat (length (t ++ FN_LIBCHAR :: c)) - 3 -> 0 <= z ->
  is_parent ((t ++ FN_LIBCHAR :: c) ++ r) z = false.
Proof.
  intros Hs Hc -> Hz. unfold is_parent. apply bool_decide_eq_false. intros H. apply Hc, (ends_in_parent t c (take (length (t ++ FN_LIBCHAR :: c) - 3) (t ++ FN_LIBCHAR :: c)) Hs).
  set (X := t ++ FN_LIBCHAR :: c) in *. replace (Z.to_nat (Z.of_nat (length X) - 3)) with (length X - 3)%nat in H by lia.
  rewrite <-H, drop_app_le by lia. rewrite take_app_le by (rewrite length_drop; lia). rewrite (take_ge (drop _ X)) by (rewrite length_drop; lia). by rewrite take_drop.
Qed.

Section clean.
Context (home_dir : option (list Z)) (getcwd : nat -> option (list Z)).

(** The array holds a path, and the loop goes on behind it. *)
Definition holds (buff : list Z) (pos : Z) (text : list Z) : Prop :=
  pos = Z.of_nat (length text) /\ length buff = BUFF_SIZE /\ exists rest, buff = text ++ rest.

Lemma skip_prev_spec top stack rest pos (buff := path_text (top :: stack) ++ str ".." ++ FN_LIBCHAR :: rest) :
  plain_component top -> length buff = BUFF_SIZE -> pos = Z.of_nat (length (path_text (top :: stack)) + 2) ->
  exists buff' pos', skip_prev home_dir getcwd buff pos 0 = Some (buff', pos') /\ holds buff' pos' (path_text (walk (top :: stack) (str ".."))).
Proof.
  intros (Hne & Hs & Hdot & Hhome) Hlen ->. destruct (path_text_end stack) as [A HA].
  assert (Hbuff : buff = A ++ FN_LIBCHAR :: top ++ parent ++ FN_LIBCHAR :: rest) by (unfold buff; rewrite path_text_cons, HA; reassoc).
  assert (Htext : length (path_text (top :: stack)) = (length A + 1 + length top + 1)%nat) by (rewrite path_text_cons, HA, !length_app; cbn [length]; lia).
  rewrite Htext, Hbuff in *. clearbody buff. unfold skip_prev. rewrite (proj2 (Z.eqb_neq _ _)) by lia.
  set (p := Z.of_nat _ - 3 - 1). assert (Hp : p = Z.of_nat (length A + length top)) by lia. clearbody p.
  rewrite is_whole_not by (done || lia). cbn [mbind option_bind andb]. rewrite is_whole_not by (done || lia). cbn [mbind option_bind].
  assert (Htop : (length top <= BUFF_SIZE)%nat) by (rewrite length_app in Hlen; cbn [length] in Hlen; rewrite length_app in Hlen; lia).
  rewrite back_to_slash_at by done. cbn [mbind option_bind].
  assert (Hrd : rd (A ++ FN_LIBCHAR :: top ++ parent ++ FN_LIBCHAR :: rest) (Z.of_nat (length A) + 1) = Some (deref top)).
  { destruct top as [|t top]; [done|]. replace (A ++ FN_LIBCHAR :: (t :: top) ++ parent ++ FN_LIBCHAR :: rest) with ((A ++ [FN_LIBCHAR]) ++ t :: top ++ parent ++ FN_LIBCHAR :: rest) by reassoc.
    replace (Z.of_nat (length A) + 1) with (Z.of_nat (length (A ++ [FN_LIBCHAR]))) by (rewrite length_app; cbn [length]; lia). apply rd_at. }
  rewrite Hrd. cbn [mbind option_bind]. clear Hrd.
  assert (Hpar : is_parent (A ++ FN_LIBCHAR :: top ++ parent ++ FN_LIBCHAR :: rest) (Z.of_nat (length A)) = bool_decide (take 2 top = str "..")).
  { unfold is_parent. rewrite Nat2Z.id, drop_app_length. by apply parent_next. }
  rewrite Hpar, (proj2 (Z.leb_le _ _)) by lia. cbn [andb]. change (walk (top :: stack) (str "..")) with (if resists top then str ".." :: top :: stack else stack).
  rewrite orb_comm. fold (resists top). destruct (resists top).
  - replace (A ++ FN_LIBCHAR :: top ++ parent ++ FN_LIBCHAR :: rest) with ((A ++ FN_LIBCHAR :: top) ++ (parent ++ [FN_LIBCHAR]) ++ rest) in * by reassoc.
    replace (p + 1) with (Z.of_nat (length (A ++ FN_LIBCHAR :: top))) by (rewrite length_app; cbn [length]; lia).
    rewrite put_here by done. cbn [mbind option_bind].
    replace ((A ++ FN_LIBCHAR :: top) ++ (parent ++ [0]) ++ rest) with ((A ++ FN_LIBCHAR :: top ++ parent) ++ [0] ++ rest) by reassoc.
    replace (Z.of_nat (length (A ++ FN_LIBCHAR :: top)) + 3) with (Z.of_nat (length (A ++ FN_LIBCHAR :: top ++ parent))) by (rewrite !length_app; cbn [length]; rewrite length_app; change (length parent) with 3%nat; lia).
    rewrite put_here by (try done; rewrite !length_app in *; cbn [length] in *; rewrite ?length_app in *; cbn [length] in *; lia). cbn [mbind option_bind].
    eexists _, _. split; [reflexivity|]. split; [|split].
    + rewrite !path_text_cons, HA, !length_app. cbn [length]. rewrite !length_app. change (length parent) with 3%nat. change (length (str "..")) with 2%nat. lia.
    + rewrite !length_app in *. cbn [length] in *. rewrite ?length_app in *. cbn [length] in *. lia.
    + exists rest. rewrite !path_text_cons, HA. change parent with (FN_LIBCHAR :: str ".."). reassoc.
  - eexists _, _. split; [reflexivity|]. split; [rewrite HA, length_app; cbn [length]; lia|]. split; [exact Hlen|].
    exists (top ++ parent ++ FN_LIBCHAR :: rest). rewrite HA. reassoc.
Qed.
(** A character of the array. *)
Lemma rd_eq buff z c X r : buff = X ++ c :: r -> z = Z.of_nat (length X) -> rd buff z = Some c.
Proof using. intros -> ->. apply rd_at. Qed.

Lemma clean_slash_spec stack c rest pos (buff := path_text stack ++ c ++ FN_LIBCHAR :: rest) :
  Forall plain_component stack -> FN_LIBCHAR ∉ c -> length buff = BUFF_SIZE -> pos = Z.of_nat (length (path_text stack ++ c)) ->
  exists buff' pos', clean_slash home_dir getcwd buff pos 0 = Some (buff', pos', 0) /\ holds buff' pos' (path_text (walk stack c)).
Proof using.
  intros Hstack Hs Hlen ->. destruct (path_text_end stack) as [t Ht]. unfold clean_slash.
  destruct (decide (c = str ".." /\ stack <> [])) as [[-> Hne]|Hc].
  { destruct stack as [|top stack]; [done|]. inversion Hstack as [|? ? Htop _]; subst.
    assert (Hl : length (path_text (top :: stack) ++ str "..") = (length t + 3)%nat) by (rewrite Ht, !length_app; reflexivity || (cbn; lia)).
    assert (H3 : (3 < length t + 3)%nat) by (destruct Htop as [Hn _]; rewrite path_text_cons in Ht; apply (f_equal length) in Ht; rewrite !length_app in Ht; cbn in Ht; destruct top; [done|cbn in Ht; lia]).
    rewrite Hl, (proj2 (Z.ltb_lt _ _)) by lia. unfold buff at 1. rewrite Ht.
    replace ((t ++ [FN_LIBCHAR]) ++ str ".." ++ FN_LIBCHAR :: rest) with (t ++ parent ++ FN_LIBCHAR :: rest) by (change parent with (FN_LIBCHAR :: str ".."); reassoc).
    rewrite is_parent_at, bool_decide_true by (done || lia). cbn [andb].
    destruct (skip_prev_spec top stack rest (Z.of_nat (length t + 3)) Htop Hlen) as (buff' & pos' & Heq & Hh); [rewrite Ht, length_app; cbn [length]; lia|].
    unfold buff. rewrite Heq. cbn [mbind option_bind]. by eexists _, _. }
  set (X := path_text stack ++ c) in *. assert (HX : X = t ++ FN_LIBCHAR :: c) by (unfold X; rewrite Ht; reassoc).
  assert (Hbuff : buff = X ++ FN_LIBCHAR :: rest) by (unfold buff, X; reassoc).
  assert (H1 : (3 <? Z.of_nat (length X) - 0) && is_parent buff (Z.of_nat (length X) - 3) = false).
  { destruct (Z.ltb_spec 3 (Z.of_nat (length X) - 0)); [|done]. rewrite Hbuff, HX. apply not_parent; [done| |done|rewrite <-HX; lia].
    intros ->. apply Hc. split; [done|]. intros ->. unfold X in *. cbn in *. lia. }
  rewrite H1. clear H1. replace ((Z.of_nat (length X) - 0 =? 3 - 1) && bool_decide (take 2 (drop (Z.to_nat 0) buff) = str "..")) with false
    by (symmetry; apply andb_false_iff; right; apply bool_decide_eq_false; unfold buff, path_text; change (str "..") with [46; 46]; change (Z.to_nat 0) with 0%nat; cbn [drop app take]; congruence).
  assert (Hpush : walk stack c = c :: stack -> exists buff' pos', Some (buff, Z.of_nat (length X) + 1, 0) = Some (buff', pos', 0) /\ holds buff' pos' (path_text (walk stack c))).
  { intros ->. eexists _, _. split; [reflexivity|]. rewrite path_text_cons. split; [|split; [exact Hlen|]].
    - unfold X. rewrite !length_app. cbn [length]. lia.
    - exists rest. unfold buff. reassoc. }
  assert (Hother : c <> [] -> c <> str "." -> walk stack c = c :: stack).
  { intros Hn Hd. unfold walk. rewrite (bool_decide_false _ Hn), (bool_decide_false _ Hd). cbn [orb]. case_bool_decide as Hp; [|done]. destruct stack as [|top stack]; [done|]. by destruct Hc. }
  assert (HXl : (1 <= length X)%nat) by (rewrite HX, length_app; cbn [length]; lia). rewrite (proj2 (Z.ltb_lt 0 _)) by lia. cbn [andb].
  destruct c as [|b c _] using rev_ind.
  - rewrite (rd_eq buff (Z.of_nat (length X) - 1) FN_LIBCHAR t (FN_LIBCHAR :: rest)) by (rewrite ?Hbuff, HX; lens || reassoc).
    rewrite bool_decide_true by done. change (walk stack []) with stack. eexists _, _. split; [reflexivity|]. unfold X. rewrite app_nil_r.
    split; [done|]. split; [exact Hlen|]. by exists (FN_LIBCHAR :: rest).
  - assert (Hb : b <> FN_LIBCHAR) by set_solver.
    rewrite (rd_eq buff (Z.of_nat (length X) - 1) b (t ++ FN_LIBCHAR :: c) (FN_LIBCHAR :: rest)) by (rewrite ?Hbuff, HX; lens || reassoc).
    rewrite bool_decide_false by congruence.
    destruct (decide (b = FN_CURLIB)) as [->|Hdot]; [|rewrite bool_decide_false, andb_false_r by congruence; apply Hpush, Hother; [by destruct c|]; intros [_ H]%(app_inj_tail _ []); done].
    rewrite bool_decide_true, andb_true_r by done. rewrite (proj2 (Z.ltb_lt 1 _)) by (rewrite HX, !length_app; cbn [length]; rewrite length_app; cbn [length]; lia). cbn [andb].
    destruct c as [|a c _] using rev_ind.
    + rewrite (rd_eq buff (Z.of_nat (length X) - 2) FN_LIBCHAR t ([FN_CURLIB; FN_LIBCHAR] ++ rest)) by (rewrite ?Hbuff, HX; lens || reassoc).
      rewrite bool_decide_true by done. change (walk stack ([] ++ [FN_CURLIB])) with stack. eexists _, _. split; [reflexivity|].
      split; [rewrite HX, Ht; lens|]. split; [exact Hlen|]. exists ([FN_CURLIB; FN_LIBCHAR] ++ rest). unfold buff. reassoc.
    + assert (Ha : a <> FN_LIBCHAR) by set_solver.
      rewrite (rd_eq buff (Z.of_nat (length X) - 2) a (t ++ FN_LIBCHAR :: c) ([FN_CURLIB; FN_LIBCHAR] ++ rest))
        by (rewrite ?Hbuff, HX; lens || reassoc).
      rewrite bool_decide_false by congruence. apply Hpush, Hother; [by destruct c|]. intros H. by apply (f_equal length) in H; rewrite !length_app in H; cbn in H; lia.
Qed.

Lemma put_char buff pos text c : holds buff pos text -> (length text < BUFF_SIZE)%nat ->
  exists buff', put buff pos [c] = Some buff' /\ holds buff' (pos + 1) (text ++ [c]).
Proof using.
  intros (-> & Hlen & rest & ->) Hl. destruct rest as [|r rest]; [rewrite app_nil_r in Hlen; lia|]. change (r :: rest) with ([r] ++ rest) in *.
  rewrite put_here by done. eexists. split; [reflexivity|]. split; [lens|]. split; [revert Hlen; lens|]. exists rest. by rewrite <-app_assoc.
Qed.

Lemma cleanup_component c : forall from buff pos text, FN_LIBCHAR ∉ c -> holds buff pos text -> (length text + length c <= BUFF_SIZE)%nat ->
  exists buff' pos', cleanup_loop home_dir getcwd (c ++ from) buff pos 0 = cleanup_loop home_dir getcwd from buff' pos' 0 /\ holds buff' pos' (text ++ c).
Proof using.
  induction c as [|x c IH]; intros from buff pos text Hs Hh Hl; [rewrite app_nil_r; by eexists _, _|]. cbn [app cleanup_loop length] in *.
  destruct (put_char buff pos text x Hh ltac:(lia)) as (buff1 & -> & Hh1). cbn [mbind option_bind]. rewrite (proj2 (Z.eqb_neq _ _)) by set_solver.
  destruct (IH from buff1 (pos + 1) (text ++ [x])) as (buff' & pos' & Heq & Hh'); [set_solver|done|revert Hl; lens|]. rewrite Heq. exists buff', pos'. by rewrite <-app_assoc in Hh'.
Qed.

Lemma walk_plain stack c : Forall plain_component stack -> FN_LIBCHAR ∉ c -> c <> [FN_HOMELIB] -> Forall plain_component (walk stack c).
Proof using.
  intros Hst Hs Hh. unfold walk. destruct (bool_decide_reflect (c = [])); [done|]. destruct (bool_decide_reflect (c = str ".")) as [|Hd]; [done|]. cbn [orb].
  assert (Hc : plain_component c) by (split_and!; done). case_bool_decide; [|by constructor]. destruct Hst as [|top stack Htop Hst]; [constructor; [exact Hc|constructor]|]. destruct (resists top); [|exact Hst]. constructor; [exact Hc|by constructor].
Qed.

Lemma walk_length stack c : (length (path_text (walk stack c)) <= length (path_text stack) + length c + 1)%nat.
Proof using.
  assert (Hpush : (length (path_text (c :: stack)) <= length (path_text stack) + length c + 1)%nat) by (rewrite path_text_cons; lens).
  unfold walk. destruct (_ || _); [lia|]. case_bool_decide; [|done]. destruct stack as [|top stack]; [done|]. destruct (resists top); [done|]. rewrite path_text_cons. lens.
Qed.

(** Components, each with its slash. *)
Definition slashed (comps : list (list Z)) : list Z := concat (map (fun c => c ++ [FN_LIBCHAR]) comps).

Lemma cleanup_components comps : forall from stack buff pos, Forall (fun c => (FN_LIBCHAR ∉ c) /\ c <> [FN_HOMELIB]) comps -> Forall plain_component stack ->
  holds buff pos (path_text stack) -> (length (path_text stack) + length (slashed comps) <= BUFF_SIZE)%nat ->
  exists buff' pos', cleanup_loop home_dir getcwd (slashed comps ++ from) buff pos 0 = cleanup_loop home_dir getcwd from buff' pos' 0
    /\ holds buff' pos' (path_text (fold_left walk comps stack)) /\ (length (path_text (fold_left walk comps stack)) <= length (path_text stack) + length (slashed comps))%nat.
Proof using.
  induction comps as [|c comps IH]; intros from stack buff pos Hcomps Hst Hh Hl; [eexists _, _; split_and!; [done|done|cbn [fold_left]; lia]|].
  inversion Hcomps as [|? ? [Hs Hhome] Hcomps']; subst. change (slashed (c :: comps)) with ((c ++ [FN_LIBCHAR]) ++ slashed comps) in *. rewrite !length_app in Hl. cbn [length] in Hl.
  rewrite <-!app_assoc. destruct (cleanup_component c ([FN_LIBCHAR] ++ slashed comps ++ from) buff pos (path_text stack) Hs Hh ltac:(lia)) as (buff1 & pos1 & -> & Hh1).
  cbn [app cleanup_loop]. pose proof Hh1 as (Hp1 & _ & _). destruct (put_char buff1 pos1 _ FN_LIBCHAR Hh1 ltac:(rewrite length_app; lia)) as (buff2 & -> & Hh2).
  cbn [mbind option_bind]. rewrite Z.eqb_refl. destruct Hh2 as (_ & Hlen2 & rest & Hb2).
  assert (Hb2' : buff2 = path_text stack ++ c ++ FN_LIBCHAR :: rest) by (rewrite Hb2; reassoc). subst buff2. rewrite Hb2' in *.
  destruct (clean_slash_spec stack c rest pos1 Hst Hs Hlen2 Hp1) as (buff3 & pos3 & -> & Hh3). cbn [mbind option_bind fold_left].
  pose proof (walk_length stack c) as He. destruct (IH from (walk stack c) buff3 pos3 Hcomps') as (buff' & pos' & Heq & Hh' & Hle); [by apply walk_plain|done|lia|].
  exists buff', pos'. split; [exact Heq|]. split; [exact Hh'|]. lens.
Qed.

End clean.

Lemma cleanup_dirname_path (home_dir : option (list Z)) (getcwd : nat -> option (list Z)) (comps : list (list Z)) (name : list Z) :
  Forall (fun c => (FN_LIBCHAR ∉ c) /\ c <> [FN_HOMELIB]) comps -> FN_LIBCHAR ∉ name ->
  let path := FN_LIBCHAR :: slashed comps ++ name in
  (length path <= FN_REFLEN)%nat ->
  cleanup_dirname home_dir getcwd path = Some (path_text (fold_left walk comps []) ++ name).
Proof.
  intros Hcomps Hname path Hlen. unfold cleanup_dirname, path in *. cbn [length] in Hlen. rewrite length_app in Hlen.
  assert (Hstart : exists buff, put (replicate BUFF_SIZE 0) 0 [FN_LIBCHAR] = Some buff /\ holds buff 1 (path_text [])).
  { eexists. split; [reflexivity|]. split; [done|]. split; [done|]. by eexists. }
  destruct Hstart as (buff0 & Hput & Hh0). cbn [cleanup_loop]. rewrite Hput. cbn [mbind option_bind]. rewrite Z.eqb_refl.
  assert (Hc : clean_slash home_dir getcwd buff0 0 0 = Some (buff0, 1, 0)) by done. rewrite Hc. cbn [mbind option_bind]. clear Hput Hc.
  assert (Hbig : BUFF_SIZE = (FN_REFLEN + 1)%nat) by done.
  destruct (cleanup_components home_dir getcwd comps name [] buff0 1 Hcomps ltac:(constructor) Hh0 ltac:(change (length (path_text [])) with 1%nat; lia))
    as (buff1 & pos1 & -> & Hh1 & Hl1). change (length (path_text [])) with 1%nat in Hl1.
  destruct (cleanup_component home_dir getcwd name [] buff1 pos1 _ Hname Hh1 ltac:(lia)) as (buff2 & pos2 & Heq & Hh2). rewrite app_nil_r in Heq. rewrite Heq.
  cbn [cleanup_loop]. pose proof Hh2 as (-> & _ & _). destruct (put_char buff2 _ _ 0 Hh2 ltac:(rewrite length_app; lia)) as (buff3 & -> & _ & _ & rest & ->).
  cbn [mbind option_bind]. by rewrite Nat2Z.id, <-app_assoc, take_app_length.
Qed.

(** One more component of a path as it is meant: two dots remove the last one
    unless it is the beginning, two dots as well, or the home of a user. *)
Definition enter (stack : list (list Z)) (c : list Z) : list (list Z) :=
  if bool_decide (c = []) || bool_decide (c = str ".") then stack
  else if bool_decide (c = str "..") then
    match stack with
    | [] => [c]
    | top :: stack' => if bool_decide (top = str "..") || (deref top =? FN_HOMELIB) then c :: stack else stack'
    end
  else c :: stack.

(** A name, not two dots, that begins with two dots. *)
Definition dotted (c : list Z) : Prop := take 2 c = str ".." /\ c <> str "..".

Lemma walk_enter comps : forall stack, Forall (fun c => ~ dotted c) comps -> Forall (fun c => ~ dotted c) stack ->
  fold_left walk comps stack = fold_left enter comps stack.
Proof.
  induction comps as [|c comps IH]; intros stack Hc Hs; [done|]. apply Forall_cons in Hc as [Hc Hcs]. cbn [fold_left].
  assert (Hw : walk stack c = enter stack c).
  { unfold walk, enter. destruct (_ || _); [done|]. case_bool_decide; [|done]. destruct Hs as [|top stack Ht Hs]; [done|].
    unfold resists. replace (bool_decide (take 2 top = str "..")) with (bool_decide (top = str "..")); [done|].
    apply bool_decide_ext. split; [by intros ->|]. intros E. destruct (decide (top = str "..")); [done|]. by destruct Ht. }
  rewrite Hw. apply IH; [done|]. unfold enter. destruct (_ || _); [done|]. case_bool_decide; [|by constructor].
  destruct Hs as [|top stack Ht Hs]; [by constructor|]. destruct (_ || _); [|done]. constructor; [done|by constructor].
Qed.

(** C17. Cleaning the name of a directory.  An absolute path of components is
    cleaned to the path where empty components and dots are gone and two dots
    have removed the component before them; two dots stay behind the beginning,
    behind other ones and behind the home of a user.  The last component without
    a slash stays as it is, and nothing is written outside the array for paths
    of up to 512 characters.  Excepted are names that begin with two dots, which
    the function takes for the directory above: two dots behind such a name
    remove nothing.  (Where a component is a tilde alone the home directory is
    put in.) *)
Theorem cleanup_dirname_canonical (home_dir : option (list Z)) (getcwd : nat -> option (list Z)) (comps : list (list Z)) (name : list Z) :
  Forall (fun c => (FN_LIBCHAR ∉ c) /\ c <> [FN_HOMELIB]) comps -> FN_LIBCHAR ∉ name ->
  Forall (fun c => ~ dotted c) comps ->
  let cleaned := fold_left enter comps [] in
  ((length (FN_LIBCHAR :: slashed comps ++ name) <= FN_REFLEN)%nat ->
   cleanup_dirname home_dir getcwd (FN_LIBCHAR :: slashed comps ++ name) = Some (path_text cleaned ++ name))
  /\ forall c, dotted c -> FN_LIBCHAR ∉ c ->
     (length (FN_LIBCHAR :: slashed (comps ++ [c; str ".."]) ++ name) <= FN_REFLEN)%nat ->
     cleanup_dirname home_dir getcwd (FN_LIBCHAR :: slashed (comps ++ [c; str ".."]) ++ name)
     = Some (path_text (str ".." :: c :: cleaned) ++ name).
Proof.
  intros Hc Hn Hd cleaned. pose proof (walk_enter comps [] Hd ltac:(constructor)) as Hw. split.
  - intros Hl. unfold cleaned. rewrite <-Hw. by apply cleanup_dirname_path.
  - intros c [H2 Hne] Hcs Hl. rewrite cleanup_dirname_path; [|apply Forall_app; split; [done|]|done|done].
    + rewrite fold_left_app, Hw. cbn [fold_left]. fold cleaned.
      assert (walk cleaned c = c :: cleaned) as ->.
      { unfold walk. destruct (bool_decide_reflect (c = [])) as [->|_]; [done|].
        destruct (bool_decide_reflect (c = str ".")) as [->|_]; [done|]. by rewrite (bool_decide_false _ Hne). }
      change (walk (c :: cleaned) (str "..")) with (if resists c then str ".." :: c :: cleaned else cleaned).
      unfold resists. by rewrite (bool_decide_true _ H2).
    + constructor; [|constructor; [|constructor]].
      * split; [done|]. by intros ->.
      * split; [by apply (bool_decide_unpack _)|done].
Qed.

Lemma cleanup_dirname_canonical_witness :
  cleanup_dirname None (fun _ => None) (str "/usr/./lib//../x/../../../etc/mysql") = Some (str "/../etc/mysql")
  /\ cleanup_dirname None (fun _ => None) (str "/usr/./lib//../x/../../../etc/..foo/../mysql") = Some (str "/../etc/..foo/../mysql").
Proof.
  destruct (cleanup_dirname_canonical None (fun _ => None) [str "usr"; str "."; str "lib"; []; str ".."; str "x"; str ".."; str ".."; str ".."; str "etc"] (str "mysql")) as [H1 H2].
  - apply (bool_decide_eq_true_1 _). vm_compute. reflexivity.
  - apply (bool_decide_eq_true_1 _). vm_compute. reflexivity.
  - unfold dotted. apply (bool_decide_eq_true_1 _). vm_compute. reflexivity.
  - split; [etransitivity; [apply H1|]|etransitivity; [apply (H2 (str "..foo"))|]].
    + apply Nat.leb_le. vm_compute. reflexivity.
    + vm_compute. reflexivity.
    + by split.
    + apply (bool_decide_eq_true_1 _). vm_compute. reflexivity.
    + apply Nat.leb_le. vm_compute. reflexivity.
    + vm_compute. reflexivity.
Defined.

(** ** Clean names *)

(** The directory of some components, and names in it. *)
Definition dir_text (comps : list (list Z)) : list Z := FN_LIBCHAR :: slashed comps.

Definition clean_component (c : list Z) : Prop := plain_component c /\ c <> str "..".

Lemma walk_clean comps : forall stack, Forall clean_component comps -> fold_left walk comps stack = rev comps ++ stack.
Proof.
  induction comps as [|c comps IH]; intros stack Hc; [done|]. inversion Hc as [|? ? [(Hn & _ & Hd & _) Hp] Hc']; subst. cbn [fold_left rev]. rewrite <-app_assoc.
  rewrite <-IH by done. cbn [app]. unfold walk at 2. by rewrite !bool_decide_false by done.
Qed.

Lemma cleanup_clean home_dir getcwd comps name : Forall clean_component comps -> FN_LIBCHAR ∉ name -> (length (dir_text comps ++ name) <= FN_REFLEN)%nat ->
  cleanup_dirname home_dir getcwd (dir_text comps ++ name) = Some (dir_text comps ++ name).
Proof.
  intros Hc Hn Hl. unfold dir_text in *. cbn [app] in *. rewrite cleanup_dirname_path; [|apply (Forall_impl _ _ _ Hc); intros c [(_ & ? & _ & ?) _]; done|done|done].
  rewrite walk_clean, app_nil_r by done. unfold path_text. rewrite rev_involutive. done.
Qed.

Lemma dirname_loop_no_slash name : forall pos gpos, FN_LIBCHAR ∉ name -> dirname_loop name pos gpos = gpos.
Proof. induction name as [|c name IH]; intros pos gpos H; [done|]. cbn [dirname_loop]. rewrite (proj2 (Z.eqb_neq _ _)) by set_solver. apply IH. set_solver. Qed.

Lemma dirname_loop_app a name : forall pos gpos, FN_LIBCHAR ∉ name -> dirname_loop (a ++ FN_LIBCHAR :: name) pos gpos = (pos + length a + 1)%nat.
Proof.
  induction a as [|c a IH]; intros pos gpos H; cbn [app dirname_loop length]; [rewrite Z.eqb_refl, dirname_loop_no_slash by done; lia|].
  rewrite IH by done. lia.
Qed.

Lemma dirname_length_app a name : FN_LIBCHAR ∉ name -> dirname_length (a ++ FN_LIBCHAR :: name) = (length a + 1)%nat.
Proof. apply dirname_loop_app. Qed.

Lemma dir_text_end comps : exists a, dir_text comps = a ++ [FN_LIBCHAR].
Proof. unfold dir_text, slashed. destruct comps as [|c comps _] using rev_ind; [by exists []|]. rewrite map_app, concat_app. cbn. rewrite app_nil_r. exists (FN_LIBCHAR :: concat (map (fun c => c ++ [FN_LIBCHAR]) comps) ++ c). reassoc. Qed.

Lemma dirname_part_app comps name : c_string (dir_text comps) -> FN_LIBCHAR ∉ name -> (length (dir_text comps) <= FN_REFLEN - 2)%nat ->
  dirname_part (dir_text comps ++ name) = (length (dir_text comps), dir_text comps).
Proof.
  intros Hs Hn Hl. destruct (dir_text_end comps) as [a Ha]. unfold dirname_part. rewrite Ha in *.
  assert (Hd : dirname_length ((a ++ [FN_LIBCHAR]) ++ name) = (length a + 1)%nat) by (rewrite <-app_assoc; by apply dirname_length_app).
  rewrite Hd, length_app. cbn [length]. f_equal. unfold convert_dirname. rewrite length_app in Hl. cbn [length] in Hl.
  rewrite (proj2 (Nat.ltb_ge _ _)) by lia. assert (Hm : strmake ((a ++ [FN_LIBCHAR]) ++ name) (length a + 1) = a ++ [FN_LIBCHAR]).
  { clear Hl Ha Hd. revert Hs. rewrite <-app_assoc. induction a as [|c a IH]; intros Hs; [by destruct name|]. cbn [app] in Hs. unfold c_string in Hs. apply Forall_cons in Hs as [Hc Hs]. cbn [app length Nat.add strmake].
    rewrite (is_char_nz c Hc). f_equal. by apply IH. }
  rewrite Hm. unfold ends_dir. by rewrite last_snoc.
Qed.

(** ** Blanks at the end *)

Fixpoint rtrim (s : list Z) : list Z :=
  match s with
  | [] => []
  | c :: s' => match rtrim s' with [] => if c =? " "%chr then [] else [c] | t => c :: t end
  end.

Lemma rtrim_app a b : rtrim b <> [] -> rtrim (a ++ b) = a ++ rtrim b.
Proof. intros Hb. induction a as [|c a IH]; [done|]. cbn [app rtrim]. rewrite IH. destruct a, (rtrim b); done. Qed.

Lemma rtrim_snoc a c : c <> " "%chr -> rtrim (a ++ [c]) = a ++ [c].
Proof. intros Hc. assert (H1 : rtrim [c] = [c]) by (cbn; by rewrite (proj2 (Z.eqb_neq _ _) Hc)). by rewrite rtrim_app, H1 by (by rewrite H1). Qed.

Lemma rtrim_blanks a b : Forall (eq " "%chr) b -> rtrim (a ++ b) = rtrim a.
Proof.
  intros Hb. assert (H0 : rtrim b = []) by (induction Hb as [|x b <- _ IH]; [done|]; cbn; by rewrite IH).
  induction a as [|c a IH]; [done|]. cbn [app rtrim]. by rewrite IH.
Qed.

Lemma skip_word_spec s : exists w r, s = w ++ r /\ skip_word s = length w /\ Forall (fun c => c <> " "%chr) w /\ (r = [] \/ exists r', r = " "%chr :: r').
Proof.
  induction s as [|c s (w & r & -> & Hw & Hf & Hr)]; [by exists [], []; auto|]. cbn [skip_word]. destruct (Z.eqb_spec c " "%chr) as [->|Hc].
  - exists [], (" "%chr :: w ++ r). split_and!; eauto.
  - exists (c :: w), r. cbn. rewrite Hw. split_and!; auto.
Qed.

Lemma skip_blanks_spec s : exists b r, s = b ++ r /\ skip_blanks s = length b /\ Forall (eq " "%chr) b /\ deref r <> " "%chr.
Proof.
  induction s as [|c s (b & r & -> & Hb & Hf & Hr)]; [by exists [], []|]. cbn [skip_blanks]. destruct (Z.eqb_spec c " "%chr) as [->|Hc].
  - exists (" "%chr :: b), r. cbn. rewrite Hb. split_and!; auto.
  - by exists [], (c :: b ++ r).
Qed.

Lemma strlength_loop_spec fuel : forall a r, (a = [] \/ deref r <> " "%chr) -> (length r < fuel)%nat ->
  strlength_loop fuel (a ++ r) (length a) (length (rtrim a)) = Some (length (rtrim (a ++ r))).
Proof.
  induction fuel as [|fuel IH]; intros a r Ha Hf; [lia|]. cbn [strlength_loop]. destruct r as [|c r].
  { rewrite app_nil_r, Nat.leb_refl. done. }
  rewrite (proj2 (Nat.leb_gt _ _)) by lens. assert (Hat : at_ (a ++ c :: r) (length a) = c) by (unfold at_; by rewrite app_nth2, Nat.sub_diag by lia). rewrite Hat. clear Hat.
  replace (drop (length a + 1) (a ++ c :: r)) with r by (rewrite <-drop_drop, drop_app_length; done). cbn [length] in Hf.
  destruct (Z.eqb_spec c " "%chr) as [->|Hc].
  - destruct Ha as [->|?]; [|done]. cbn [app length Nat.add]. rewrite (proj2 (Nat.leb_gt _ _)) by (cbn; lia). change (drop 1 (" "%chr :: r)) with r.
    destruct (skip_blanks_spec r) as (b & r' & -> & -> & Hb & Hr'). specialize (IH (" "%chr :: b) r' (or_intror Hr')).
    replace (rtrim (" "%chr :: b)) with (@nil Z) in IH by (symmetry; apply (rtrim_blanks [] (" "%chr :: b)); by constructor). apply IH. revert Hf. lens.
  - destruct (skip_word_spec r) as (w & r' & -> & -> & Hw & Hr').
    assert (Hword : forall x, rtrim (x ++ c :: w) = x ++ c :: w).
    { intros x. destruct w as [|y w _] using rev_ind; [by apply rtrim_snoc|]. apply Forall_app in Hw as [_ [Hy _]%Forall_cons]. rewrite app_comm_cons, app_assoc. by apply rtrim_snoc. }
    destruct Hr' as [->|(r2 & ->)].
    + rewrite (proj2 (Nat.leb_le _ _)) by lens. rewrite app_nil_r, Hword. f_equal. lens.
    + rewrite (proj2 (Nat.leb_gt _ _)) by lens.
      replace (drop (length a + 1 + length w + 1) (a ++ c :: w ++ " "%chr :: r2)) with r2
        by (replace (a ++ c :: w ++ " "%chr :: r2) with ((a ++ c :: w ++ [" "%chr]) ++ r2) by reassoc; replace (length a + 1 + length w + 1)%nat with (length (a ++ c :: w ++ [" "%chr])) by lens; by rewrite drop_app_length).
      destruct (skip_blanks_spec r2) as (b & r3 & -> & -> & Hb & Hr3). specialize (IH (a ++ c :: w ++ " "%chr :: b) r3 (or_intror Hr3)).
      replace (a ++ c :: w ++ " "%chr :: b) with ((a ++ c :: w) ++ (" "%chr :: b)) in IH by reassoc.
      rewrite (rtrim_blanks (a ++ c :: w)), Hword in IH by (by constructor).
      replace (a ++ c :: w ++ " "%chr :: b ++ r3) with (((a ++ c :: w) ++ " "%chr :: b) ++ r3) by reassoc.
      replace (length a + 1 + length w + 1 + length b)%nat with (length ((a ++ c :: w) ++ " "%chr :: b)) by lens.
      replace (length a + 1 + length w)%nat with (length (a ++ c :: w)) by lens. apply IH. revert Hf. lens.
Qed.

(** [strlength] is the length without the blanks at the end. *)
Lemma strlength_spec s : strlength s = Some (length (rtrim s)).
Proof. apply (strlength_loop_spec (S (length s)) [] s); [by left|lia]. Qed.

(** ** Names that stay as they are *)

Section stay.
Context (home_dir : option (list Z)) (getcwd : nat -> option (list Z)) (getpwnam : list Z -> option (list Z)) (my_realpath my_readlink : list Z -> list Z).

Lemma unpack_clean comps : Forall clean_component comps -> c_string (dir_text comps) -> (length (dir_text comps) <= FN_REFLEN - 2)%nat ->
  unpack_dirname home_dir getcwd getpwnam (dir_text comps) = Some (dir_text comps).
Proof using.
  intros Hc Hs Hl. destruct (dir_text_end comps) as [a Ha]. unfold unpack_dirname, normalize_dirname, intern_filename.
  pose proof (dirname_part_app comps [] Hs ltac:(set_solver) Hl) as Hp. rewrite app_nil_r in Hp. rewrite Hp, drop_all. cbn [length].
  rewrite (proj2 (Nat.ltb_lt _ _)) by (unfold FN_REFLEN in *; lia). rewrite app_nil_r. cbn [mbind option_bind].
  assert (He : ends_dir (dir_text comps) = true) by (unfold ends_dir; by rewrite Ha, last_snoc). rewrite He.
  pose proof (cleanup_clean home_dir getcwd comps [] Hc ltac:(set_solver)) as Hclean. rewrite app_nil_r in Hclean. rewrite Hclean by lia. cbn [mbind option_bind].
  replace (deref (dir_text comps) =? FN_HOMELIB) with false by done. unfold system_filename. rewrite strmake_take by done. by rewrite take_ge by lia.
Qed.

(** The name behind a directory: the rest of [fn_format] once the directory is known. *)
Lemma format_known dir dir' name : FN_LIBCHAR ∉ name -> c_string name -> rtrim name = name -> (length name < FN_LEN)%nat ->
  (exists a, dir = a ++ [FN_LIBCHAR]) -> dirname_part (dir ++ name) = (length dir, dir) ->
  unpack_dirname home_dir getcwd getpwnam dir = Some dir' -> (length (dir' ++ name) < FN_REFLEN)%nat ->
  fn_format home_dir getcwd getpwnam my_realpath my_readlink (dir ++ name) [] [] MY_UNPACK_FILENAME = Some (Some (dir' ++ name)).
Proof using.
  intros Hn Hns Ht Hlen (a & Ha) Hp Hu Hl. unfold fn_format, format_dir. rewrite length_app in Hl. rewrite Hp.
  assert (H0 : (length dir =? 0)%nat = false) by (rewrite Ha, length_app; cbn [length]; by rewrite Nat.add_1_r). rewrite H0.
  change (has MY_UNPACK_FILENAME MY_REPLACE_DIR) with false. change (has MY_UNPACK_FILENAME MY_RELATIVE_PATH) with false.
  change (has MY_UNPACK_FILENAME MY_PACK_FILENAME) with false. change (has MY_UNPACK_FILENAME MY_UNPACK_FILENAME) with true. cbn [orb andb mbind option_bind].
  rewrite Hu. cbn [mbind option_bind].
  assert (Hd : dirname_length (dir ++ name) = length dir) by (rewrite Ha, <-app_assoc; cbn [app]; rewrite dirname_length_app, length_app by done; done).
  rewrite Hd, drop_app_length, (strlength_spec name), Ht. cbn [mbind option_bind].
  change (has MY_UNPACK_FILENAME MY_APPEND_EXT) with false. change (has MY_UNPACK_FILENAME MY_REPLACE_EXT) with false.
  change (has MY_UNPACK_FILENAME MY_RETURN_REAL_PATH) with false. change (has MY_UNPACK_FILENAME MY_RESOLVE_SYMLINKS) with false.
  destruct (strchr name FN_EXTCHAR) as [pos|]; cbn [length]; rewrite (proj2 (Nat.leb_gt FN_REFLEN _)), (proj2 (Nat.leb_gt FN_LEN _)) by lia; cbn [orb];
    rewrite app_nil_r, strmake_take, take_ge by (done || lia); done.
Qed.

(** The name of a file in a clean directory stays as it is. *)
Lemma format_clean comps name : Forall clean_component comps -> c_string (dir_text comps) -> c_string name -> FN_LIBCHAR ∉ name -> rtrim name = name ->
  (length name < FN_LEN)%nat -> (length (dir_text comps ++ name) < FN_REFLEN - 1)%nat ->
  fn_format home_dir getcwd getpwnam my_realpath my_readlink (dir_text comps ++ name) [] [] MY_UNPACK_FILENAME = Some (Some (dir_text comps ++ name)).
Proof using.
  intros Hc Hs Hns Hn Ht Hlen Hl. rewrite length_app in Hl.
  apply format_known; [done|done|done|done|apply dir_text_end|apply dirname_part_app|apply unpack_clean|rewrite length_app]; (done || lia).
Qed.

(** The tilde stands for the home directory. *)
Lemma format_home h c name : home_dir = Some (h ++ [c]) -> c <> FN_LIBCHAR -> c_string (h ++ [c]) -> c_string name -> FN_LIBCHAR ∉ name -> rtrim name = name ->
  (length name < FN_LEN)%nat -> (length (h ++ [c] ++ [FN_LIBCHAR] ++ name) < FN_REFLEN - 1)%nat ->
  fn_format home_dir getcwd getpwnam my_realpath my_readlink (str "~/" ++ name) [] [] MY_UNPACK_FILENAME = Some (Some ((h ++ [c; FN_LIBCHAR]) ++ name)).
Proof using.
  intros Hh Hc Hs Hns Hn Ht Hlen Hl. apply format_known; [done|done|done|done|by exists [FN_HOMELIB]| | |].
  - unfold dirname_part. change (str "~/" ++ name) with ([FN_HOMELIB] ++ FN_LIBCHAR :: name). rewrite dirname_length_app by done. cbn [length Nat.add app]. f_equal. by destruct name.
  - unfold unpack_dirname. assert (Hnorm : normalize_dirname home_dir getcwd (str "~/") = Some (str "~/")) by (vm_compute; reflexivity). rewrite Hnorm. cbn [mbind option_bind].
    replace (deref (str "~/") =? FN_HOMELIB) with true by done. change (drop 1 (str "~/")) with [FN_LIBCHAR]. unfold expand_tilde. replace (deref [FN_LIBCHAR] =? FN_LIBCHAR) with true by done.
    rewrite Hh. rewrite !length_app in Hl. cbn [length] in *. rewrite length_app. cbn [length]. rewrite (proj2 (Nat.leb_le _ _)) by lia. rewrite last_snoc, (proj2 (Z.eqb_neq _ _) Hc).
    assert (Hs' : c_string ((h ++ [c]) ++ [FN_LIBCHAR])) by (apply (proj2 (c_string_app _ _)); split; [exact Hs|by apply Forall_singleton]).
    unfold system_filename. rewrite (strmake_take _ _ Hs'), take_ge by lens. by rewrite <-app_assoc.
  - rewrite !length_app in *. cbn [length] in *. lia.
Qed.

End stay.
