(* ===== verification/OptionFiles.v ===== *)
(** * Option files (mysys/my_default.c)

    The files that give options before those of the command line: their lines,
    groups and include directives, the directories where they are looked for,
    the options that name them, and the argument list that comes out.  [None] is
    an access outside an array or a value that was never set. *)

From stdpp Require Import base list numbers strings.
From S2P Require Import Prelude CString Charset Numbers Typelib FileNames.
Open Scope Z_scope.

Abbreviation isspace := (my_isspace my_charset_latin1).

(** ** Lines *)

(** [fgets] with the array of 4095 characters. *)
Definition LINE_SIZE : nat := 4096.
Definition MAX_CHARS : nat := (LINE_SIZE - 2)%nat.

Fixpoint fgets_lines (content cur : list Z) (room : nat) : list (list Z) :=
  match content with
  | [] => if bool_decide (cur = []) then [] else [cur]
  | c :: content' =>
      if (c =? c_nl) || (room <=? 1)%nat then (cur ++ [c]) :: fgets_lines content' [] MAX_CHARS
      else fgets_lines content' (cur ++ [c]) (room - 1)
  end.

(** The loop [for ( ; my_isspace(end[-1]); end--)] in the array. *)
Fixpoint back_spaces (buff : list Z) (e : nat) : option nat :=
  match e with
  | O => None
  | S e' => if isspace (at_ buff e') then back_spaces buff e' else Some e
  end.

Definition slice (buff : list Z) (a b : nat) : list Z := take (b - a) (drop a buff).

Definition is_quote (c : Z) : bool := (c =? "'"%chr) || (c =? 34).

(** The number of characters before a comment. *)
Fixpoint remove_end_comment (ptr : list Z) (quote : Z) (escape : bool) : nat :=
  match ptr with
  | [] => 0
  | c :: ptr' =>
      let quote := if is_quote c && negb escape then (if quote =? 0 then c else if quote =? c then 0 else quote) else quote in
      if (quote =? 0) && (c =? "#"%chr) then 0
      else S (remove_end_comment ptr' quote (negb (quote =? 0) && (c =? "\"%chr) && negb escape))
  end.

Definition unescape_char (c : Z) : list Z :=
  if c =? "n"%chr then [c_nl] else if c =? "t"%chr then [c_tab] else if c =? "r"%chr then [c_cr] else if c =? "b"%chr then [8]
  else if c =? "s"%chr then [" "%chr] else if (c =? 34) || (c =? "'"%chr) || (c =? "\"%chr) then [c] else ["\"%chr; c].

Fixpoint unescape (value : list Z) : list Z :=
  match value with
  | [] => []
  | c :: value' =>
      match value' with
      | d :: value'' => if c =? "\"%chr then unescape_char d ++ unescape value'' else c :: unescape value'
      | [] => [c]
      end
  end.

Definition remove_quotes (value : list Z) : list Z :=
  if is_quote (deref value) && (1 <? length value)%nat && (deref value =? at_ value (length value - 1)) then slice value 1 (length value - 1) else value.

(** The option of a line, whose text starts at [ptr]. *)
Definition line_option (buff : list Z) (ptr : nat) : option (list Z) :=
  let n := remove_end_comment (drop ptr buff) 0 false in
  let buff := take (ptr + n) buff in
  let value := strchr (drop ptr buff) "="%chr in
  e ← back_spaces buff (match value with Some k => ptr + k | None => ptr + n end)%nat;
  if (e <? ptr)%nat then None
  else
    let option := str "--" ++ slice buff ptr e in
    option ← match value with
             | None => Some option
             | Some k =>
                 let start := (ptr + k + 1)%nat in
                 let value := (length buff - length (skip_while isspace (drop start buff)))%nat in
                 value_end ← back_spaces buff (length buff);
                 let value_end := if (value_end <? value)%nat then value else value_end in
                 Some (option ++ str "=" ++ unescape (remove_quotes (slice buff value value_end)))
             end;
    if (length option <? LINE_SIZE + 2)%nat then Some option else None.

(** ** Files *)

(** The arguments that were found, the groups that are read, and what was printed
    as an error. *)
Record ctx := mkCtx {
  ctx_args : list (list Z);
  ctx_group : TYPELIB;
  ctx_err : list Z
}.

Definition warn (m : list Z) (c : ctx) : ctx := mkCtx (ctx_args c) (ctx_group c) (ctx_err c ++ m).

Definition FIND_TYPE_NO_PREFIX : find_flags := mkFlags false true.

Definition handle_default_option (group_name option : list Z) (c : ctx) : ctx :=
  if negb (find_type group_name (ctx_group c) FIND_TYPE_NO_PREFIX =? 0) then mkCtx (ctx_args c ++ [option]) (ctx_group c) (ctx_err c) else c.

(** The loop over the lines of a file: the current group, if there is one, and the
    number of the line. *)
Record reader := mkReader {
  r_gr : option (list Z);
  r_line : nat;
  r_ctx : ctx
}.

Definition with_ctx (r : reader) (c : ctx) : reader := mkReader (r_gr r) (r_line r) c.

Definition at_line (name : list Z) (line : nat) (sep : list Z) : list Z := name ++ sep ++ str " " ++ int10_to_str (Z.of_nat line) (-10) ++ [c_nl].

(** The argument of a directive, or a message. *)
Definition get_argument (keyword buff : list Z) (ptr : nat) (name : list Z) (line : nat) : option (list Z + list Z) :=
  let ptr := (ptr + length keyword)%nat in
  let ptr := (length buff - length (skip_while isspace (drop ptr buff)))%nat in
  e ← back_spaces buff (length buff - 1);
  Some (if (e <=? ptr)%nat
        then inr (str "error: Wrong '!" ++ keyword ++ str "' directive in config file: " ++ at_line name line (str " at line"))
        else inl (slice buff ptr e)).

Definition f_extensions : list (list Z) := [str ".cnf"].

Section files.
(** The file system: whether a file exists and is a regular file that everybody
    may write, its contents, the sorted names of a directory and the message if
    there is none; and the decryption of login files, with the key. *)
Context (home_dir : option (list Z)) (getcwd : nat -> option (list Z)) (getpwnam : list Z -> option (list Z))
  (my_realpath my_readlink : list Z -> list Z)
  (my_stat : list Z -> option bool) (my_fopen : list Z -> option (list Z)) (my_dir : list Z -> option (list (list Z)))
  (dir_message : list Z -> list Z) (my_aes_decrypt : list Z -> list Z -> option (list Z)).

Abbreviation format := (fn_format home_dir getcwd getpwnam my_realpath my_readlink).

(** The lines of a login file behind the key; the end of the file in the length
    or an error ends them. *)
Fixpoint login_lines (fuel : nat) (content key : list Z) : list (option (list Z)) :=
  match fuel with
  | O => []
  | S fuel' =>
      match content with
      | a :: b :: c :: d :: content' =>
          let cipher_len := int32 (a + 256 * b + 65536 * c + 16777216 * d) in
          if Z.of_nat (LINE_SIZE - 1) <? cipher_len then []
          else if (cipher_len <? 0) || (Z.of_nat (length content') <? cipher_len) then [None]
          else
            let n := Z.to_nat cipher_len in
            match my_aes_decrypt (take n content') key with
            | None => []
            | Some line => Some line :: login_lines fuel' (drop n content') key
            end
      | _ => []
      end
  end.

Definition LOGIN_KEY_LEN : nat := 20.

(** All lines that [ob_file_getline] gives; [None] is one that is not defined. *)
Definition ob_file_lines (is_ob_login_file : bool) (content : list Z) : list (option (list Z)) :=
  if is_ob_login_file then
    let content := drop 4 content in
    if (length content <? LOGIN_KEY_LEN)%nat then []
    else login_lines (S (length content)) (drop LOGIN_KEY_LEN content) (take LOGIN_KEY_LEN content)
  else map Some (fgets_lines content [] MAX_CHARS).

(** The directives. [search] reads another file, if files may still be included. *)
Section lines.
Context (name : list Z) (search : option (list Z -> ctx -> option (Z * ctx))).

Fixpoint include_files (search : list Z -> ctx -> option (Z * ctx)) (dir : list Z) (files : list (list Z)) (c : ctx) : option ctx :=
  match files with
  | [] => Some c
  | f :: files' =>
      if bool_decide (fn_ext2 f ∈ f_extensions) then
        tmp ← format f dir [] (Z.lor MY_UNPACK_FILENAME MY_SAFE_PATH);
        tmp ← tmp;
        '(_, c) ← search tmp c;
        include_files search dir files' c
      else include_files search dir files' c
  end.

(** [true] is the end with an error. *)
Definition line_directive (buff : list Z) (ptr : nat) (r : reader) : option (bool * reader) :=
  match search with
  | None =>
      e ← back_spaces buff (length buff - 1);
      Some (false, with_ctx r (warn (str "Warning: skipping '" ++ slice buff ptr e
        ++ str "' directive as maximum includerecursion level was reached in file " ++ at_line name (r_line r) (str " at line")) (r_ctx r)))
  | Some search =>
      let p := skip_while isspace (drop (ptr + 1) buff) in
      let ptr := (length buff - length p)%nat in
      let is_keyword k := is_prefix p k && isspace (at_ p (length k)) in
      if is_keyword (str "includedir") then
        a ← get_argument (str "includedir") buff ptr name (r_line r);
        match a with
        | inr m => Some (true, with_ctx r (warn m (r_ctx r)))
        | inl dir =>
            match my_dir dir with
            | None => Some (true, with_ctx r (warn (dir_message dir) (r_ctx r)))
            | Some files => c ← include_files search dir files (r_ctx r); Some (false, with_ctx r c)
            end
        end
      else if is_keyword (str "include") then
        a ← get_argument (str "include") buff ptr name (r_line r);
        match a with
        | inr m => Some (true, with_ctx r (warn m (r_ctx r)))
        | inl file => '(_, c) ← search file (r_ctx r); Some (false, with_ctx r c)
        end
      else Some (false, r)
  end.

Definition line_group (buff : list Z) (ptr : nat) (r : reader) : option (bool * reader) :=
  match strchr (drop (ptr + 1) buff) "]"%chr with
  | None => Some (true, with_ctx r (warn (str "error: Wrong group definition in config file: " ++ at_line name (r_line r) (str " at line")) (r_ctx r)))
  | Some k =>
      e ← back_spaces buff (ptr + 1 + k);
      Some (false, mkReader (Some (take (LINE_SIZE - 1) (slice buff (ptr + 1) e))) (r_line r) (r_ctx r))
  end.

Definition process_line (buff : list Z) (r : reader) : option (bool * reader) :=
  let buff := cstr buff in
  let r := mkReader (r_gr r) (S (r_line r)) (r_ctx r) in
  let p := skip_while isspace buff in
  let ptr := (length buff - length p)%nat in
  let c := deref p in
  if (c =? "#"%chr) || (c =? ";"%chr) || (c =? 0) then Some (false, r)
  else if c =? "!"%chr then line_directive buff ptr r
  else if c =? "["%chr then line_group buff ptr r
  else match r_gr r with
  | None =>
      Some (true, with_ctx r (warn (str "error: Found option without preceding group in config file: " ++ at_line name (r_line r) (str " at line:")) (r_ctx r)))
  | Some curr_gr => option ← line_option buff ptr; Some (false, with_ctx r (handle_default_option curr_gr option (r_ctx r)))
  end.

Fixpoint process_lines (lines : list (option (list Z))) (r : reader) : option (Z * ctx) :=
  match lines with
  | [] => Some (0, r_ctx r)
  | line :: lines' =>
      buff ← line;
      '(failed, r) ← process_line buff r;
      if failed : bool then Some (-1, r_ctx r) else process_lines lines' r
  end.

End lines.

(** The name of a file in a directory. *)
Definition file_name (dir : option (list Z)) (ext config_file : list Z) : option (list Z) :=
  let name :=
    match dir with
    | Some dir => convert_dirname dir None ++ (if deref dir =? FN_HOMELIB then str "." else []) ++ config_file ++ ext
    | None => config_file
    end in
  name ← format name [] [] MY_UNPACK_FILENAME;
  name.

(** [levels] is the number of include directives that may still be nested. *)
Fixpoint search_default_file_with_ext (levels : nat) (dir : option (list Z)) (ext config_file : list Z) (is_ob_login_file : bool) (c : ctx) : option (Z * ctx) :=
  if (FN_REFLEN - 3 <=? length (default [] dir) + length config_file)%nat then Some (0, c)
  else
    name ← file_name dir ext config_file;
    match my_stat name with
    | None => Some (1, c)
    | Some world_writable =>
        if world_writable : bool then Some (0, warn (str "Warning: World-writable config file '" ++ name ++ str "' is ignored" ++ [c_nl]) c)
        else match my_fopen name with
        | None => Some (1, c)
        | Some content =>
            let search := match levels with
                          | O => None
                          | S levels' => Some (fun file c => search_default_file_with_ext levels' (Some []) [] file is_ob_login_file c)
                          end in
            process_lines name search (ob_file_lines is_ob_login_file content) (mkReader None 0 c)
        end
    end.

Definition max_recursion_level : nat := 10.

Definition with_ext := (search_default_file_with_ext max_recursion_level).

(** One file per extension. *)
Fixpoint search_extensions (exts : list (list Z)) (dir : option (list Z)) (config_file : list Z) (login : bool) (c : ctx) : option (Z * ctx) :=
  match exts with
  | [] => Some (0, c)
  | ext :: exts' =>
      '(error, c) ← with_ext dir ext config_file login c;
      if error <? 0 then Some (error, c) else search_extensions exts' dir config_file login c
  end.

Definition extensions (config_file : list Z) : list (list Z) := if bool_decide (fn_ext config_file = []) then f_extensions else [[]].

Definition search_default_file (dir : option (list Z)) (config_file : list Z) (login : bool) (c : ctx) : option (Z * ctx) :=
  search_extensions (extensions config_file) dir config_file login c.

(** ** Directories *)

Context (getenv : string -> option (list Z)).

Definition MAX_DEFAULT_DIRS : nat := 7.
Definition DEFAULT_DIRS_SIZE : nat := (MAX_DEFAULT_DIRS + 1)%nat.

Definition add_directory (dir : list Z) (dirs : list (list Z)) : option (list (list Z)) :=
  buf ← normalize_dirname home_dir getcwd dir;
  if (FN_REFLEN <=? length buf)%nat then None else Some (default dirs (array_append_string_unique buf dirs DEFAULT_DIRS_SIZE)).

(** The directory of the configuration of the system, if the build sets one. *)
Context (DEFAULT_SYSCONFDIR : option (list Z)).

Definition init_default_directories : option (list (list Z)) :=
  dirs ← match DEFAULT_SYSCONFDIR with
         | Some dir => if bool_decide (dir = []) then Some [] else add_directory dir []
         | None => dirs ← add_directory (str "/etc/") []; add_directory (str "/etc/mysql/") dirs
         end;
  dirs ← match getenv "MYSQL_HOME" with Some env => add_directory env dirs | None => Some dirs end;
  dirs ← add_directory [] dirs;
  add_directory (str "~/") dirs.

(** ** The options that name files and groups *)

Record defaults_options := mkDefaults {
  d_defaults : option (list Z);
  d_extra_defaults : option (list Z);
  d_group_suffix : option (list Z);
  d_login_path : option (list Z)
}.

(** The value behind a prefix, if it was not set before. *)
Definition take_option (old : option (list Z)) (prefix arg : list Z) : option (list Z) :=
  if negb (found old) && is_prefix arg prefix then Some (drop (length prefix) arg) else None.

(** [argv] are the arguments behind the name of the program; the result is the
    number of those that are used. *)
Fixpoint get_ob_defaults_options (argv : list (list Z)) (count : nat) (found_no_defaults : bool) (d : defaults_options) : nat * defaults_options :=
  match argv with
  | [] => (count, d)
  | arg :: argv' =>
      let next d := get_ob_defaults_options argv' (S count) found_no_defaults d in
      if is_prefix arg (str "--no-defaults") && (count =? 0)%nat then next d
      else match (if found_no_defaults then None else take_option (d_defaults d) (str "--defaults-file=") arg) with
      | Some v => next (mkDefaults (Some v) (d_extra_defaults d) (d_group_suffix d) (d_login_path d))
      | None =>
      match (if found_no_defaults then None else take_option (d_extra_defaults d) (str "--defaults-extra-file=") arg) with
      | Some v => next (mkDefaults (d_defaults d) (Some v) (d_group_suffix d) (d_login_path d))
      | None =>
      match take_option (d_group_suffix d) (str "--defaults-group-suffix=") arg with
      | Some v => next (mkDefaults (d_defaults d) (d_extra_defaults d) (Some v) (d_login_path d))
      | None =>
      match take_option (d_login_path d) (str "--login-path=") arg with
      | Some v => next (mkDefaults (d_defaults d) (d_extra_defaults d) (d_group_suffix d) (Some v))
      | None => (count, d)
      end end end end
  end.

(** The whole name of a file, or the code of an error. *)
Definition fn_expand (filename : list Z) : option (list Z + Z) :=
  dir ← my_getwd getcwd FN_REFLEN;
  r ← format filename dir [] (Z.lor MY_UNPACK_FILENAME (Z.lor MY_SAFE_PATH MY_RELATIVE_PATH));
  Some (match r with Some name => inl name | None => inr 2 end).

(** ** All files *)

(** The variables of the file: [my_defaults_file], [my_defaults_extra_file],
    [my_defaults_group_suffix] and [ob_login_path]. *)
Definition expand_files (d : defaults_options) : option (defaults_options + Z) :=
  extra ← match d_extra_defaults d with None => Some (inl None) | Some f => r ← fn_expand f; Some (match r with inl n => inl (Some n) | inr e => inr e end) end;
  match extra with
  | inr e => Some (inr e)
  | inl extra =>
      file ← match d_defaults d with None => Some (inl None) | Some f => r ← fn_expand f; Some (match r with inl n => inl (Some n) | inr e => inr e end) end;
      Some (match file with
            | inr e => inr e
            | inl file => inl (mkDefaults file extra (match d_group_suffix d with Some s => Some s | None => getenv "MYSQL_GROUP_SUFFIX" end) (d_login_path d))
            end)
  end.

Definition suffix_groups (suffix : option (list Z)) (group : TYPELIB) : TYPELIB :=
  match suffix with Some s => group ++ map (fun g => g ++ s) group | None => group end.

(** The array of the groups with the login path has three more elements than
    before; the number of its elements is then doubled and the element behind
    them set.  The elements between are not. *)
Definition login_groups (suffix login_path : option (list Z)) (group : TYPELIB) : option TYPELIB :=
  match login_path with
  | None => Some group
  | Some path =>
      let extra := match suffix with Some s => [path; path ++ s] | None => [path] end in
      let count := (2 * (length group + (length extra - 1)))%nat in
      if (length group + 3 <=? count)%nat then None
      else if (count <=? length group + length extra)%nat then Some (take count (group ++ extra)) else None
  end.

Fixpoint search_dirs (dirs : list (list Z)) (conf_file : list Z) (extra : option (list Z)) (login : bool) (c : ctx) : option (bool * ctx) :=
  match dirs with
  | [] => Some (true, c)
  | dir :: dirs' =>
      if negb (bool_decide (dir = [])) then
        '(error, c) ← search_default_file (Some dir) conf_file login c;
        if error <? 0 then Some (false, c) else search_dirs dirs' conf_file extra login c
      else match extra with
      | None => search_dirs dirs' conf_file extra login c
      | Some file =>
          '(error, c) ← with_ext (Some []) [] file login c;
          if error <? 0 then Some (false, c)
          else if 0 <? error then Some (false, warn (str "Could not open required defaults file: " ++ file ++ [c_nl]) c)
          else search_dirs dirs' conf_file extra login c
      end
  end.

(** The files for one name: the code and what was found. *)
Definition search_files (d : defaults_options) (conf_file : list Z) (dirs : list (list Z)) (login : bool) (c : ctx) : option (Z * ctx) :=
  '(ok, c) ←
    match d_defaults d with
    | Some file =>
        '(error, c) ← with_ext (Some []) [] file login c;
        Some (if error <? 0 then (false, c)
              else if 0 <? error then (false, warn (str "Could not open required defaults file: " ++ file ++ [c_nl]) c)
              else (true, c))
    | None =>
        if negb (dirname_length conf_file =? 0)%nat then
          '(error, c) ← search_default_file None conf_file login c;
          Some (if error <? 0 then (false, c) else (true, c))
        else search_dirs dirs conf_file (d_extra_defaults d) login c
    end;
  Some (if ok : bool then (0, c) else (1, warn (str "Fatal error in defaults handling. Program aborted" ++ [c_nl]) c)).

(** The login file of the user. *)
Definition my_default_get_ob_login_file : option (list Z) :=
  match getenv "MYSQL_TEST_LOGIN_FILE" with
  | Some f => if bool_decide (f = []) then None else Some (take (FN_REFLEN - 1) f)
  | None => match getenv "HOME" with Some h => Some (take (FN_REFLEN - 1) (h ++ str "/.mylogin.cnf")) | None => None end
  end.

(** ** The arguments of the program *)

(** The new arguments behind the name of the program, those of the command that
    prints them, or the code of an error. *)
Inductive loaded :=
| Loaded (argv : list (list Z))
| PrintDefaults (argv : list (list Z))
| Failed (code : Z).

Definition my_load_defaults (conf_file : list Z) (groups : TYPELIB) (argv : list (list Z)) : option (loaded * list Z) :=
  dirs ← init_default_directories;
  if bool_decide (head argv = Some (str "--no-defaults")) then Some (Loaded (drop 1 argv), [])
  else
    let '(args_used, d) := get_ob_defaults_options argv 0 false (mkDefaults None None None None) in
    d ← expand_files d;
    match d with
    | inr e => Some (Failed e, [])
    | inl d =>
        '(error, c) ← search_files d conf_file dirs false (mkCtx [] (suffix_groups (d_group_suffix d) groups) []);
        if negb (error =? 0) then Some (Failed error, ctx_err c)
        else
          '(error, c) ← match my_default_get_ob_login_file with
                        | None => Some (0, c)
                        | Some file =>
                            group ← login_groups (d_group_suffix d) (d_login_path d) (ctx_group c);
                            search_files d file dirs true (mkCtx (ctx_args c) group (ctx_err c))
                        end;
          if negb (error =? 0) then Some (Failed error, ctx_err c)
          else
            let rest := drop args_used argv in
            if bool_decide (head rest = Some (str "--print-defaults")) then Some (PrintDefaults (ctx_args c ++ drop 1 rest), ctx_err c)
            else Some (Loaded (ctx_args c ++ rest), ctx_err c)
    end.

(** ** The help *)

Definition print_dir_files (conf_file : list Z) (extra : option (list Z)) (dir : list Z) : list Z :=
  flat_map (fun ext =>
    if bool_decide (dir = []) then match extra with Some f => f ++ str " " | None => [] end
    else
      let name := convert_dirname dir None in
      name ++ (if deref name =? FN_HOMELIB then str "." else []) ++ conf_file ++ ext ++ str " ") (extensions conf_file).

Definition my_print_default_files (conf_file : list Z) (d : defaults_options) : option (list Z) :=
  let title := [c_nl] ++ str "Default options are read from the following files in the given order:" ++ [c_nl] in
  match d_defaults d with
  | Some file => Some (title ++ file ++ [c_nl])
  | None =>
      files ← (if negb (dirname_length conf_file =? 0)%nat then Some conf_file
               else dirs ← init_default_directories; Some (flat_map (print_dir_files conf_file (d_extra_defaults d)) dirs));
      Some (title ++ files ++ [c_nl])
  end.

Definition print_defaults (conf_file : list Z) (groups : TYPELIB) (d : defaults_options) : option (list Z) :=
  files ← my_print_default_files conf_file d;
  Some (files ++ str "The following groups are read:" ++ flat_map (fun g => str " " ++ g) groups
    ++ match d_group_suffix d with Some s => flat_map (fun g => str " " ++ g ++ s) groups | None => [] end
    ++ [c_nl] ++ str "The following options may be given as the first argument:" ++ [c_nl]
    ++ str "--print-defaults          Print the program argument list and exit." ++ [c_nl]
    ++ str "--no-defaults             Don't read default options from any option file." ++ [c_nl]
    ++ str "The following specify which files/extra groups are read (specified before remaining options):" ++ [c_nl]
    ++ str "--defaults-file=#         Only read default options from the given file #." ++ [c_nl]
    ++ str "--defaults-extra-file=#   Read this file after the global files are read." ++ [c_nl]
    ++ str "--defaults-group-suffix=# Additionally read default groups with # appended as a suffix." ++ [c_nl]
    ++ str "--login-path=#            Read this path from the login file." ++ [c_nl]).

End files.

(** The groups of the client. *)
Definition load_default_groups : TYPELIB := [str "mysql"; str "mariadb-client"; str "client"; str "client-server"; str "client-mariadb"].
