(* ===== verification/OptionFilesSpec.v ===== *)
(** * What option files say

    A grammar of option files, and that reading a file gives the options that
    its lines say. *)

From stdpp Require Import base list numbers strings.
From S2P Require Import Prelude CString Charset Typelib FileNames OptionFiles.
Open Scope Z_scope.

(** ** The grammar *)

(** A line: blanks, a remark, the beginning of a group, and an option without and
    with a value; the value is written in double quotes with escapes.  A comment
    may follow an option. *)
Inductive cnf_line :=
| Empty (sp : list Z)
| Remark (sp : list Z) (mark : Z) (remark : list Z)
| Group (sp name sp' rest : list Z)
| Switch (sp key sp' : list Z) (comment : option (list Z))
| Setting (sp key s1 s2 value s3 : list Z) (comment : option (list Z)).

Definition escape_char (c : Z) : list Z :=
  if c =? c_nl then str "\n" else if c =? c_tab then str "\t" else if c =? c_cr then str "\r" else if c =? 8 then str "\b"
  else if (c =? 34) || (c =? "\"%chr) then ["\"%chr; c] else [c].

Definition escaped (value : list Z) : list Z := flat_map escape_char value.
Definition quoted (value : list Z) : list Z := [34] ++ escaped value ++ [34].

Definition comment_text (comment : option (list Z)) : list Z := match comment with Some t => "#"%chr :: t | None => [] end.

Definition line_text (l : cnf_line) : list Z :=
  match l with
  | Empty sp => sp
  | Remark sp mark remark => sp ++ mark :: remark
  | Group sp name sp' rest => sp ++ "["%chr :: name ++ sp' ++ "]"%chr :: rest
  | Switch sp key sp' comment => sp ++ key ++ sp' ++ comment_text comment
  | Setting sp key s1 s2 value s3 comment => sp ++ key ++ s1 ++ "="%chr :: s2 ++ quoted value ++ s3 ++ comment_text comment
  end.

Definition blank (s : list Z) : Prop := Forall (fun c => isspace c = true) s.

Definition key_char (c : Z) : bool := negb (isspace c) && negb (c =? "="%chr) && negb (c =? "#"%chr) && negb (is_quote c).

Definition key_ok (k : list Z) : Prop := k <> [] /\ forallb key_char k = true /\ deref k ∉ [";"%chr; "!"%chr; "["%chr].

Definition parts_ok (l : cnf_line) : Prop :=
  match l with
  | Empty sp => blank sp
  | Remark sp mark remark => blank sp /\ mark ∈ ["#"%chr; ";"%chr]
  | Group sp name sp' rest => blank sp /\ blank sp' /\ ("]"%chr ∉ name) /\ match last name with Some c => isspace c = false | None => True end
  | Switch sp key sp' comment => blank sp /\ key_ok key /\ blank sp'
  | Setting sp key s1 s2 value s3 comment => blank sp /\ key_ok key /\ blank s1 /\ blank s2 /\ blank s3
  end.

Definition line_ok (l : cnf_line) : Prop :=
  c_string (line_text l) /\ (c_nl ∉ line_text l) /\ (length (line_text l) < MAX_CHARS)%nat /\ parts_ok l.

#[export] Instance line_ok_dec l : Decision (line_ok l).
Proof. unfold line_ok, parts_ok, blank, key_ok, c_string. destruct l; try apply _. destruct (last name); apply _. Defined.

Definition file_text (lines : list cnf_line) : list Z := concat (map (fun l => line_text l ++ [c_nl]) lines).

(** ** What the lines say *)

Definition selected (groups : TYPELIB) (gr : list Z) : bool := existsb (is_name gr) groups.

Definition setting_arg (l : cnf_line) : option (list Z) :=
  match l with
  | Switch _ key _ _ => Some (str "--" ++ key)
  | Setting _ key _ _ value _ _ => Some (str "--" ++ key ++ str "=" ++ value)
  | _ => None
  end.

(** The arguments of the selected groups, and the last group; [None] if an option
    comes before all groups. *)
Fixpoint file_args (groups : TYPELIB) (gr : option (list Z)) (lines : list cnf_line) : option (list (list Z)) :=
  match lines with
  | [] => Some []
  | l :: lines' =>
      match l with
      | Group _ name _ _ => file_args groups (Some name) lines'
      | _ =>
          match setting_arg l with
          | None => file_args groups gr lines'
          | Some a => g ← gr; args ← file_args groups gr lines'; Some ((if selected groups g then [a] else []) ++ args)
          end
      end
  end.

(** ** Characters and positions *)

Lemma isspace_nz c : isspace c = true -> c <> 0.
Proof. by intros H ->. Qed.

Lemma skip_blank sp l : blank sp -> (l = [] \/ isspace (deref l) = false) -> skip_while isspace (sp ++ l) = l.
Proof.
  intros Hsp Hl. apply skip_while_app.
  - apply (Forall_impl _ _ _ Hsp). intros c Hc. split; [by apply isspace_nz|done].
  - destruct Hl as [->|Hl]; auto.
Qed.

Lemma strchr_app A c r : c ∉ A -> strchr (A ++ c :: r) c = Some (length A).
Proof.
  induction A as [|a A IH]; cbn [app strchr length]; [by rewrite Z.eqb_refl|]. intros H. rewrite (proj2 (Z.eqb_neq _ _)) by set_solver.
  rewrite IH by set_solver. done.
Qed.

Lemma strchr_none A c : c ∉ A -> strchr A c = None.
Proof. induction A as [|a A IH]; [done|]. cbn [strchr]. intros H. rewrite (proj2 (Z.eqb_neq _ _)) by set_solver. by rewrite IH by set_solver. Qed.

Lemma back_spaces_stop A r : (forall c, last A = Some c -> isspace c = false) -> A <> [] -> back_spaces (A ++ r) (length A) = Some (length A).
Proof.
  intros Hl Hne. destruct A as [|x A _] using rev_ind; [done|]. rewrite length_app. cbn [length]. rewrite Nat.add_1_r. cbn [back_spaces].
  unfold at_. rewrite <-app_assoc, app_nth2, Nat.sub_diag by lia. cbn. rewrite Hl; [done|]. by rewrite last_snoc.
Qed.

Lemma back_spaces_blank A sp r : (forall c, last A = Some c -> isspace c = false) -> A <> [] -> blank sp ->
  back_spaces (A ++ sp ++ r) (length A + length sp) = Some (length A).
Proof.
  intros Hl Hne. revert r. induction sp as [|x sp IH] using rev_ind; intros r Hsp; [rewrite Nat.add_0_r; by apply back_spaces_stop|].
  apply Forall_app in Hsp as [Hsp [Hx _]%Forall_cons]. rewrite length_app. cbn [length]. rewrite Nat.add_assoc, Nat.add_1_r. cbn [back_spaces].
  unfold at_. replace (nth (length A + length sp) (A ++ (sp ++ [x]) ++ r) 0) with x.
  - rewrite Hx, <-app_assoc. by apply IH.
  - replace (A ++ (sp ++ [x]) ++ r) with ((A ++ sp) ++ x :: r) by (by rewrite <-!app_assoc). rewrite app_nth2; rewrite length_app; [|lia]. by rewrite Nat.sub_diag.
Qed.

Lemma slice_app A B r : slice (A ++ B ++ r) (length A) (length A + length B) = B.
Proof. unfold slice. rewrite drop_app_length, Nat.add_comm, Nat.add_sub, take_app_length. done. Qed.

Lemma last_nonspace A B c : B <> [] -> (forall c, last B = Some c -> isspace c = false) -> last (A ++ B) = Some c -> isspace c = false.
Proof. intros Hne Hl. destruct B as [|x B _] using rev_ind; [done|]. rewrite app_assoc, last_snoc. intros [= <-]. apply Hl. by rewrite last_snoc. Qed.

(** ** Comments and escapes *)

Definition no_mark (c : Z) : bool := negb (is_quote c) && negb (c =? "#"%chr).

Lemma blank_no_mark sp : blank sp -> forallb no_mark sp = true.
Proof.
  intros H. apply forallb_forall. intros c Hc. unfold blank in H. rewrite Forall_forall in H. apply list_elem_of_In in Hc. specialize (H c Hc).
  unfold no_mark, is_quote. destruct (Z.eqb_spec c "'"%chr) as [->|]; [done|]. destruct (Z.eqb_spec c 34) as [->|]; [done|]. by destruct (Z.eqb_spec c "#"%chr) as [->|].
Qed.

Lemma key_no_mark k : forallb key_char k = true -> forallb no_mark k = true.
Proof. rewrite !forallb_forall. intros H c Hc. specialize (H c Hc). unfold key_char in H. unfold no_mark. rewrite !andb_true_iff in *. tauto. Qed.

Lemma comment_plain A r : forallb no_mark A = true -> remove_end_comment (A ++ r) 0 false = (length A + remove_end_comment r 0 false)%nat.
Proof.
  induction A as [|c A IH]; cbn [forallb app]; [done|]. intros [Hc HA]%andb_prop. unfold no_mark in Hc. apply andb_prop in Hc as [Hq%negb_true_iff Hh%negb_true_iff].
  cbn [remove_end_comment length]. rewrite Hq, Hh. cbn [andb Z.eqb negb]. by rewrite IH.
Qed.

Lemma comment_open r : remove_end_comment (34 :: r) 0 false = S (remove_end_comment r 34 false).
Proof. done. Qed.

Lemma comment_close r : remove_end_comment (34 :: r) 34 false = S (remove_end_comment r 0 false).
Proof. done. Qed.

Lemma comment_escape c r : remove_end_comment (escape_char c ++ r) 34 false = (length (escape_char c) + remove_end_comment r 34 false)%nat.
Proof.
  unfold escape_char. repeat (match goal with |- context [c =? ?x] => destruct (Z.eqb_spec c x) as [->|?]; [done|] end). cbn [orb app remove_end_comment length].
  rewrite (proj2 (Z.eqb_neq c "\"%chr)), (proj2 (Z.eqb_neq 34 c)) by done. by destruct (is_quote c).
Qed.

Lemma comment_escaped v r : remove_end_comment (escaped v ++ r) 34 false = (length (escaped v) + remove_end_comment r 34 false)%nat.
Proof. unfold escaped. induction v as [|c v IH]; [done|]. cbn [flat_map]. rewrite <-app_assoc, comment_escape, IH, length_app. lia. Qed.

Lemma comment_quoted v r : remove_end_comment (quoted v ++ r) 0 false = (length (quoted v) + remove_end_comment r 0 false)%nat.
Proof. unfold quoted. rewrite <-!app_assoc. cbn [app]. rewrite comment_open, comment_escaped. cbn [app]. rewrite comment_close. cbn [length]. rewrite length_app. cbn [length]. lia. Qed.

(** What remains of the end of a line without its comment. *)
Definition line_rest (comment : option (list Z)) : list Z := match comment with Some _ => [] | None => [c_nl] end.

Lemma comment_end comment : remove_end_comment (comment_text comment ++ [c_nl]) 0 false = length (line_rest comment)
  /\ line_rest comment = take (length (line_rest comment)) (comment_text comment ++ [c_nl]) /\ blank (line_rest comment).
Proof. destruct comment; cbn; (split; [done|]); (split; [done|]); by repeat constructor. Qed.

Lemma unescape_escape_char c r : unescape (escape_char c ++ r) = c :: unescape r.
Proof.
  unfold escape_char. repeat (match goal with |- context [c =? ?x] => destruct (Z.eqb_spec c x) as [->|?]; [done|] end). cbn [orb app unescape].
  rewrite (proj2 (Z.eqb_neq c "\"%chr)) by done. by destruct r.
Qed.

Lemma unescape_escaped v : unescape (escaped v) = v.
Proof. unfold escaped. induction v as [|c v IH]; [done|]. cbn [flat_map]. by rewrite unescape_escape_char, IH. Qed.

Lemma remove_quotes_quoted v : remove_quotes (quoted v) = escaped v.
Proof.
  unfold remove_quotes, quoted. set (e := escaped v). replace (length ([34] ++ e ++ [34])) with (length e + 2)%nat by (rewrite !length_app; cbn [length]; lia).
  rewrite (proj2 (Nat.ltb_lt _ _)) by lia. replace (at_ ([34] ++ e ++ [34]) (length e + 2 - 1)) with 34.
  - change (deref ([34] ++ e ++ [34])) with 34. change (is_quote 34) with true. rewrite Z.eqb_refl. cbn [andb]. unfold slice. replace (length e + 2 - 1 - 1)%nat with (length e) by lia. change (drop 1 ([34] ++ e ++ [34])) with (e ++ [34]). by rewrite take_app_length.
  - unfold at_. replace (length e + 2 - 1)%nat with (S (length e)) by lia. cbn [app nth]. rewrite app_nth2, Nat.sub_diag by lia. done.
Qed.

Lemma length_escaped v : (length v <= length (escaped v))%nat.
Proof.
  unfold escaped. induction v as [|c v IH]; [done|]. cbn [flat_map length]. rewrite length_app.
  assert (1 <= length (escape_char c))%nat; [|lia]. unfold escape_char. repeat (destruct (c =? _); [cbn; lia|]). destruct (_ || _); cbn; lia.
Qed.

(** ** Single lines *)

Lemma key_last key : key_ok key -> forall c, last key = Some c -> isspace c = false.
Proof.
  intros (_ & Hk & _) c Hc. destruct key as [|x key _] using rev_ind; [done|]. rewrite last_snoc in Hc. injection Hc as ->.
  rewrite forallb_app in Hk. apply andb_prop in Hk as [_ Hk]. cbn in Hk. unfold key_char in Hk. rewrite !andb_true_iff in Hk. destruct Hk as [[[[H _] _] _] _]. by apply negb_true_iff in H.
Qed.

Lemma key_no_equals key s : key_ok key -> blank s -> "="%chr ∉ key ++ s.
Proof.
  intros (_ & Hk & _) Hs [H|H]%elem_of_app.
  - rewrite forallb_forall in Hk. apply list_elem_of_In, Hk in H. done.
  - unfold blank in Hs. rewrite Forall_forall in Hs. by apply Hs in H.
Qed.

Lemma cut_comment sp P comment : forallb no_mark P = true \/ (forall r, remove_end_comment (P ++ r) 0 false = (length P + remove_end_comment r 0 false)%nat) ->
  let buff := sp ++ P ++ comment_text comment ++ [c_nl] in
  remove_end_comment (drop (length sp) buff) 0 false = (length P + length (line_rest comment))%nat
  /\ take (length sp + (length P + length (line_rest comment))) buff = sp ++ P ++ line_rest comment.
Proof.
  intros HP buff. subst buff. rewrite drop_app_length. destruct (comment_end comment) as (He & Ht & _). split.
  - destruct HP as [HP|HP]; [rewrite comment_plain by done|rewrite HP]; by rewrite He.
  - rewrite take_app_add, take_app_add. by rewrite <-Ht.
Qed.

Lemma setting_no_comment key s1 s2 v s3 r : key_ok key -> blank s1 -> blank s2 -> blank s3 ->
  remove_end_comment ((key ++ s1 ++ "="%chr :: s2 ++ quoted v ++ s3) ++ r) 0 false
  = (length (key ++ s1 ++ "="%chr :: s2 ++ quoted v ++ s3) + remove_end_comment r 0 false)%nat.
Proof.
  intros (_ & Hk & _) H1 H2 H3.
  replace ((key ++ s1 ++ "="%chr :: s2 ++ quoted v ++ s3) ++ r) with ((key ++ s1 ++ "="%chr :: s2) ++ quoted v ++ s3 ++ r) by reassoc.
  rewrite comment_plain by (rewrite !forallb_app; cbn [forallb]; rewrite key_no_mark, !blank_no_mark by done; done).
  rewrite comment_quoted, comment_plain by (by apply blank_no_mark). lens.
Qed.

Lemma line_option_setting sp key s1 s2 v s3 comment : key_ok key -> blank s1 -> blank s2 -> blank s3 ->
  (length (line_text (Setting sp key s1 s2 v s3 comment)) < MAX_CHARS)%nat ->
  line_option (line_text (Setting sp key s1 s2 v s3 comment) ++ [c_nl]) (length sp) = Some (str "--" ++ key ++ str "=" ++ v).
Proof.
  intros Hk H1 H2 H3 Hlen. set (P := key ++ s1 ++ "="%chr :: s2 ++ quoted v ++ s3).
  assert (Hbuff : line_text (Setting sp key s1 s2 v s3 comment) ++ [c_nl] = sp ++ P ++ comment_text comment ++ [c_nl]) by (unfold P; cbn [line_text]; reassoc).
  rewrite Hbuff. destruct (cut_comment sp P comment) as [Hn Ht]; [right; intros r; by apply setting_no_comment|]. unfold line_option. rewrite Hn, Ht. clear Hn Ht.
  destruct (comment_end comment) as (_ & _ & Hrest). set (rest := line_rest comment) in *. clearbody rest.
  rewrite drop_app_length. replace (P ++ rest) with ((key ++ s1) ++ "="%chr :: s2 ++ quoted v ++ s3 ++ rest) by (unfold P; reassoc).
  rewrite strchr_app by (by apply key_no_equals).
  set (X := sp ++ key ++ s1 ++ "="%chr :: s2).
  assert (Hb : sp ++ (key ++ s1) ++ "="%chr :: s2 ++ quoted v ++ s3 ++ rest = X ++ quoted v ++ s3 ++ rest) by (unfold X; reassoc).
  assert (Hkey : back_spaces (X ++ quoted v ++ s3 ++ rest) (length sp + length (key ++ s1)) = Some (length (sp ++ key))).
  { replace (X ++ quoted v ++ s3 ++ rest) with ((sp ++ key) ++ s1 ++ "="%chr :: s2 ++ quoted v ++ s3 ++ rest) by (unfold X; reassoc).
    replace (length sp + length (key ++ s1))%nat with (length (sp ++ key) + length s1)%nat by lens. apply back_spaces_blank; [|by destruct sp, key; destruct Hk|done].
    intros c. apply last_nonspace; [apply Hk|by apply key_last]. }
  rewrite Hb, Hkey. cbn [mbind option_bind]. rewrite (proj2 (Nat.ltb_ge _ _)) by lens.
  assert (Hs : slice (X ++ quoted v ++ s3 ++ rest) (length sp) (length (sp ++ key)) = key).
  { rewrite length_app. rewrite <-Hb, <-app_assoc. apply slice_app. }
  assert (Hv : (length (X ++ quoted v ++ s3 ++ rest) - length (skip_while isspace (drop (length sp + length (key ++ s1) + 1) (X ++ quoted v ++ s3 ++ rest))) = length X)%nat).
  { replace (length sp + length (key ++ s1) + 1)%nat with (length (sp ++ key ++ s1 ++ ["="%chr])) by lens.
    replace (X ++ quoted v ++ s3 ++ rest) with ((sp ++ key ++ s1 ++ ["="%chr]) ++ s2 ++ quoted v ++ s3 ++ rest) by (unfold X; reassoc).
    rewrite drop_app_length, skip_blank by (done || by right). unfold X. lens. }
  assert (Hend : back_spaces (X ++ quoted v ++ s3 ++ rest) (length (X ++ quoted v ++ s3 ++ rest)) = Some (length X + length (quoted v))%nat).
  { replace (X ++ quoted v ++ s3 ++ rest) with ((X ++ quoted v) ++ (s3 ++ rest) ++ []) by (rewrite app_nil_r; reassoc).
    replace (length ((X ++ quoted v) ++ (s3 ++ rest) ++ [])) with (length (X ++ quoted v) + length (s3 ++ rest))%nat by lens.
    rewrite back_spaces_blank; [f_equal; lens| |by destruct X|by apply Forall_app].
    intros c. apply last_nonspace; [done|]. intros d. unfold quoted. rewrite app_assoc, last_snoc. by intros [= <-]. }
  cbn zeta. rewrite Hs, Hv, Hend. cbn [mbind option_bind]. rewrite (proj2 (Nat.ltb_ge (length X + _) (length X))) by lia. rewrite slice_app, remove_quotes_quoted, unescape_escaped.
  rewrite (proj2 (Nat.ltb_lt _ _)); [by rewrite <-app_assoc|]. pose proof (length_escaped v) as He. revert Hlen. cbn [line_text]. unfold quoted, MAX_CHARS, LINE_SIZE.
  change (length (str "--")) with 2%nat. change (length (str "=")) with 1%nat.
  repeat (progress (rewrite ?length_app; cbn [length app])). change (length (str "--")) with 2%nat. change (length (str "=")) with 1%nat. lia.
Qed.

Lemma line_option_switch sp key sp' comment : key_ok key -> blank sp' ->
  (length (line_text (Switch sp key sp' comment)) < MAX_CHARS)%nat ->
  line_option (line_text (Switch sp key sp' comment) ++ [c_nl]) (length sp) = Some (str "--" ++ key).
Proof.
  intros Hk Hs Hlen. assert (Hbuff : line_text (Switch sp key sp' comment) ++ [c_nl] = sp ++ (key ++ sp') ++ comment_text comment ++ [c_nl]) by (cbn [line_text]; reassoc).
  rewrite Hbuff. destruct (cut_comment sp (key ++ sp') comment) as [Hn Ht]; [left; rewrite forallb_app, key_no_mark, blank_no_mark by (done || apply Hk); done|].
  unfold line_option. rewrite Hn, Ht. clear Hn Ht. destruct (comment_end comment) as (_ & _ & Hrest). set (rest := line_rest comment) in *. clearbody rest.
  rewrite drop_app_length, strchr_none by (rewrite <-app_assoc; apply key_no_equals; [done|by apply Forall_app]).
  replace (sp ++ (key ++ sp') ++ rest) with ((sp ++ key) ++ (sp' ++ rest) ++ []) by (rewrite app_nil_r; reassoc).
  replace (length sp + (length (key ++ sp') + length rest))%nat with (length (sp ++ key) + length (sp' ++ rest))%nat by lens.
  rewrite back_spaces_blank; [|intros c; apply last_nonspace; [apply Hk|by apply key_last]|by destruct sp, key; destruct Hk|by apply Forall_app].
  cbn [mbind option_bind]. rewrite (proj2 (Nat.ltb_ge (length (sp ++ key)) (length sp))) by lens.
  assert (Hs' : slice ((sp ++ key) ++ (sp' ++ rest) ++ []) (length sp) (length (sp ++ key)) = key) by (rewrite length_app, <-app_assoc; apply slice_app).
  rewrite Hs', (proj2 (Nat.ltb_lt _ _)); [done|].
  revert Hlen. cbn [line_text]. unfold MAX_CHARS, LINE_SIZE. change (length (str "--" ++ key)) with (2 + length key)%nat. lens.
Qed.

(** ** Whole files *)

Lemma find_group gr groups : c_string gr -> Forall c_string groups ->
  negb (find_type gr groups FIND_TYPE_NO_PREFIX =? 0) = selected groups gr.
Proof.
  intros Hg Hgs. assert (Hel : element FIND_TYPE_NO_PREFIX gr []) by (split; [done|]; split; [by apply Forall_forall|by left]).
  destruct (find_type_spec FIND_TYPE_NO_PREFIX gr [] groups Hel Hgs) as [Hf _]. rewrite app_nil_r in Hf. unfold find_type. rewrite Hf. unfold lookup_name, selected.
  cbn [NO_PREFIX FIND_TYPE_NO_PREFIX negb andb orb]. rewrite andb_false_r. cbn [negb orb].
  destruct (list_find _ groups) as [[k n]|] eqn:E.
  - apply list_find_Some in E as (E & Hn & _). rewrite (proj2 (Z.eqb_neq _ _)) by lia. symmetry. apply existsb_exists. exists n. split; [|done].
    apply list_elem_of_In. by apply list_elem_of_lookup_2 in E.
  - apply list_find_None in E. symmetry. apply not_true_is_false. intros (n & Hn & He)%existsb_exists. rewrite Forall_forall in E. by apply (E n); [apply list_elem_of_In|].
Qed.

Definition next_group (gr : option (list Z)) (l : cnf_line) : option (list Z) := match l with Group _ name _ _ => Some name | _ => gr end.

Definition more_args (c : ctx) (args : list (list Z)) : ctx := mkCtx (ctx_args c ++ args) (ctx_group c) (ctx_err c).

(** The beginning of a line. *)
Lemma line_start sp p : blank sp -> isspace (deref p) = false -> p <> [] ->
  skip_while isspace (sp ++ p) = p /\ (length (sp ++ p) - length p = length sp)%nat.
Proof. intros Hsp Hp Hne. split; [apply skip_blank; auto|lens]. Qed.

Lemma cstr_line l : line_ok l -> cstr (line_text l ++ [c_nl]) = line_text l ++ [c_nl].
Proof. intros (Hc & _). apply cstr_c_string, c_string_app. split; [done|]. by repeat constructor. Qed.

Lemma fgets_line t : forall cur room r, c_nl ∉ t -> (length t < room)%nat -> fgets_lines (t ++ c_nl :: r) cur room = (cur ++ t ++ [c_nl]) :: fgets_lines r [] MAX_CHARS.
Proof.
  induction t as [|c t IH]; intros cur room r Hn Hl; [done|]. cbn [app fgets_lines length] in *. rewrite (proj2 (Z.eqb_neq _ _)) by set_solver.
  rewrite (proj2 (Nat.leb_gt _ _)) by lia. cbn [orb]. rewrite IH by (set_solver || lia). by rewrite <-app_assoc.
Qed.

Lemma fgets_file lines : Forall line_ok lines -> fgets_lines (file_text lines) [] MAX_CHARS = map (fun l => line_text l ++ [c_nl]) lines.
Proof.
  induction 1 as [|l lines (_ & Hn & Hlen & _) _ IH]; [done|]. unfold file_text. cbn [map concat]. rewrite <-app_assoc. cbn [app].
  rewrite fgets_line by done. fold (file_text lines). by rewrite IH.
Qed.

Section file.
Context (name : list Z) (home_dir : option (list Z)) (getcwd : nat -> option (list Z)) (getpwnam : list Z -> option (list Z))
  (my_realpath my_readlink : list Z -> list Z) (my_dir : list Z -> option (list (list Z))) (dir_message : list Z -> list Z)
  (search : option (list Z -> ctx -> option (Z * ctx))).
Abbreviation one_line := (process_line home_dir getcwd getpwnam my_realpath my_readlink my_dir dir_message name search).
Abbreviation all_lines := (process_lines home_dir getcwd getpwnam my_realpath my_readlink my_dir dir_message name search).

Lemma setting_line l gr n c a sp p : line_ok l -> line_text l ++ [c_nl] = sp ++ p -> blank sp -> p <> [] ->
  (exists k, key_ok k /\ deref p = deref k) -> line_option (line_text l ++ [c_nl]) (length sp) = Some a ->
  one_line (line_text l ++ [c_nl]) (mkReader (Some gr) n c) = Some (false, mkReader (Some gr) (S n) (handle_default_option gr a c)).
Proof using.
  intros Hl Hp Hsp Hne (k & Hk & Hd) Ha. unfold process_line. rewrite (cstr_line l Hl). cbn [r_gr r_line r_ctx].
  destruct Hk as (Hkn & Hkc & Hkf). destruct k as [|k0 k]; [done|]. cbn [deref nth] in Hd, Hkf. cbn [forallb] in Hkc. apply andb_prop in Hkc as [Hk0 _].
  unfold key_char in Hk0. rewrite !andb_true_iff, !negb_true_iff in Hk0. destruct Hk0 as [[[Hspace _] Hhash] _].
  destruct (line_start sp p Hsp) as [H1 H2]; [by rewrite Hd|done|]. rewrite Hp in *. rewrite H1, H2, Hd, Hhash.
  assert (Hz : k0 <> 0).
  { destruct p as [|p0 p]; [done|]. cbn in Hd. subst p0. assert (Hc : c_string (sp ++ k0 :: p)) by (rewrite <-Hp; apply c_string_app; split; [apply Hl|by repeat constructor]).
    apply c_string_nz in Hc. intros ->. apply Hc. set_solver. }
  rewrite (proj2 (Z.eqb_neq k0 ";"%chr)), (proj2 (Z.eqb_neq k0 "!"%chr)), (proj2 (Z.eqb_neq k0 "["%chr)), (proj2 (Z.eqb_neq k0 0)) by (done || set_solver).
  cbn [orb]. by rewrite Ha.
Qed.

Lemma plain_line l gr n c : line_ok l -> setting_arg l = None ->
  one_line (line_text l ++ [c_nl]) (mkReader gr n c) = Some (false, mkReader (next_group gr l) (S n) c).
Proof using.
  intros Hl Hs. unfold process_line. rewrite (cstr_line l Hl). cbn [r_gr r_line r_ctx]. destruct Hl as (Hc & Hn & Hlen & Hp).
  destruct l as [sp|sp mark remark|sp gname sp' rest|sp key sp' comment|sp key s1 s2 value s3 comment]; try discriminate Hs; cbn [line_text parts_ok next_group] in *.
  - rewrite <-(app_nil_r (sp ++ [c_nl])), skip_blank by (by left || (apply Forall_app; split; [done|by repeat constructor])). done.
  - destruct Hp as [Hsp Hm]. rewrite <-app_assoc. cbn [app]. assert (Hmark : mark = "#"%chr \/ mark = ";"%chr) by set_solver.
    rewrite skip_blank by (done || (right; by destruct Hmark as [->| ->])). cbn [deref nth]. by destruct Hmark as [->| ->].
  - destruct Hp as (Hsp & Hsp' & Hb & Hlast). set (p := "["%chr :: gname ++ sp' ++ "]"%chr :: rest ++ [c_nl]).
    assert (Htext : (sp ++ "["%chr :: gname ++ sp' ++ "]"%chr :: rest) ++ [c_nl] = sp ++ p) by (unfold p; reassoc). rewrite Htext.
    destruct (line_start sp p Hsp) as [H1 H2]; [done|done|]. rewrite H1, H2.
    replace ((deref p =? "#"%chr) || (deref p =? ";"%chr) || (deref p =? 0)) with false by done. replace (deref p =? "!"%chr) with false by done.
    replace (deref p =? "["%chr) with true by done. unfold line_group.
    replace (drop (length sp + 1) (sp ++ p)) with ((gname ++ sp') ++ "]"%chr :: rest ++ [c_nl]) by (rewrite <-drop_drop, drop_app_length; unfold p; cbn [drop]; rewrite drop_0; reassoc).
    rewrite strchr_app by (intros [?|H]%elem_of_app; [done|]; unfold blank in Hsp'; rewrite Forall_forall in Hsp'; by apply Hsp' in H).
    replace (sp ++ p) with ((sp ++ ["["%chr] ++ gname) ++ sp' ++ "]"%chr :: rest ++ [c_nl]) by (unfold p; reassoc).
    replace (length sp + 1 + length (gname ++ sp'))%nat with (length (sp ++ ["["%chr] ++ gname) + length sp')%nat by lens.
    rewrite back_spaces_blank; [|intros c'; rewrite app_assoc; destruct gname; [rewrite app_nil_r, last_snoc; by intros [= <-]|apply last_nonspace; [done|]; intros d Hd; by rewrite Hd in Hlast]|by destruct sp|done].
    cbn [mbind option_bind].
    assert (Hslice : slice ((sp ++ ["["%chr] ++ gname) ++ sp' ++ "]"%chr :: rest ++ [c_nl]) (length sp + 1) (length (sp ++ ["["%chr] ++ gname)) = gname).
    { replace ((sp ++ ["["%chr] ++ gname) ++ sp' ++ "]"%chr :: rest ++ [c_nl]) with ((sp ++ ["["%chr]) ++ gname ++ sp' ++ "]"%chr :: rest ++ [c_nl]) by reassoc.
      replace (length sp + 1)%nat with (length (sp ++ ["["%chr])) by lens. replace (length (sp ++ ["["%chr] ++ gname)) with (length (sp ++ ["["%chr]) + length gname)%nat by lens. apply slice_app. }
    rewrite Hslice, take_ge; [done|]. revert Hlen. unfold MAX_CHARS, LINE_SIZE. lens.
Qed.

Lemma option_line l gr n c a : line_ok l -> setting_arg l = Some a ->
  one_line (line_text l ++ [c_nl]) (mkReader (Some gr) n c) = Some (false, mkReader (Some gr) (S n) (handle_default_option gr a c)).
Proof using.
  intros Hl Ha. pose proof Hl as (_ & _ & Hlen & Hp). destruct l as [sp|sp mark remark|sp gname sp' rest|sp key sp' comment|sp key s1 s2 value s3 comment]; try discriminate Ha; injection Ha as <-.
  - destruct Hp as (Hsp & Hk & Hs). pose proof Hk as (Hne & _). apply (setting_line _ _ _ _ _ sp (key ++ sp' ++ comment_text comment ++ [c_nl])); [done|cbn [line_text]; reassoc|done|by destruct key| |by apply line_option_switch].
    exists key. split; [done|]. by destruct key.
  - destruct Hp as (Hsp & Hk & H1 & H2 & H3). pose proof Hk as (Hne & _).
    apply (setting_line _ _ _ _ _ sp (key ++ s1 ++ "="%chr :: s2 ++ quoted value ++ s3 ++ comment_text comment ++ [c_nl])); [done|cbn [line_text]; reassoc|done|by destruct key| |by apply line_option_setting].
    exists key. split; [done|]. by destruct key.
Qed.

Lemma handle_option_args gr a c : c_string gr -> Forall c_string (ctx_group c) ->
  handle_default_option gr a c = more_args c (if selected (ctx_group c) gr then [a] else []).
Proof using.
  intros Hg Hgs. unfold handle_default_option, more_args. rewrite find_group by done. destruct (selected (ctx_group c) gr); [done|]. rewrite app_nil_r. by destruct c.
Qed.

Lemma group_c_string sp name' sp' rest : line_ok (Group sp name' sp' rest) -> c_string name'.
Proof using. intros (Hc & _). cbn [line_text] in Hc. apply c_string_app in Hc as [_ Hc]. unfold c_string in *. apply Forall_cons in Hc as [_ Hc]. by apply Forall_app in Hc as [Hc _]. Qed.

Lemma process_lines_args lines : forall gr n c args, Forall line_ok lines -> Forall c_string (ctx_group c) -> (forall g, gr = Some g -> c_string g) ->
  file_args (ctx_group c) gr lines = Some args ->
  all_lines (map Some (map (fun l => line_text l ++ [c_nl]) lines)) (mkReader gr n c) = Some (0, more_args c args).
Proof using.
  induction lines as [|l lines IH]; intros gr n c args Hl Hgs Hgr Ha; cbn [file_args map process_lines] in *.
  { injection Ha as <-. unfold more_args. rewrite app_nil_r. by destruct c. }
  inversion Hl as [|? ? Hl1 Hl2]; subst. destruct (setting_arg l) as [a|] eqn:Hs.
  - assert (Ha' : exists g args', gr = Some g /\ file_args (ctx_group c) gr lines = Some args' /\ args = (if selected (ctx_group c) g then [a] else []) ++ args').
    { destruct l; try discriminate Hs; injection Hs as <-; destruct gr as [g|]; try discriminate Ha; cbn [mbind option_bind setting_arg] in Ha;
        destruct (file_args (ctx_group c) (Some g) lines) as [args'|]; try discriminate Ha; injection Ha as <-; by exists g, args'. }
    destruct Ha' as (g & args' & -> & Ha' & ->). cbn [mbind option_bind]. rewrite (option_line l g n c a Hl1 Hs). cbn [mbind option_bind].
    rewrite (handle_option_args g a c (Hgr g eq_refl) Hgs). rewrite (IH _ _ _ args') by done. unfold more_args. cbn [ctx_args ctx_group ctx_err]. by rewrite <-app_assoc.
  - cbn [mbind option_bind]. rewrite (plain_line l gr n c Hl1 Hs). cbn [mbind option_bind]. apply IH; [done|done| |].
    + intros g Hg. destruct l; cbn [next_group] in Hg; auto. injection Hg as <-. by eapply group_c_string.
    + by destruct l.
Qed.

End file.

(** ** The search for files *)

(** The home directory is a clean absolute path. *)
Definition home_path (comps : list (list Z)) (c : list Z) : list Z := dir_text comps ++ c.

Definition home_ok (comps : list (list Z)) (c : list Z) : Prop :=
  Forall clean_component (comps ++ [c]) /\ c_string (home_path comps c) /\ (length (home_path comps c) < 480)%nat.

Lemma home_dir_text comps c : home_path comps c ++ [FN_LIBCHAR] = dir_text (comps ++ [c]).
Proof. unfold home_path, dir_text, slashed. rewrite map_app, concat_app. cbn. rewrite app_nil_r. reassoc. Qed.

Lemma home_file home_dir getcwd getpwnam my_realpath my_readlink comps c : home_ok comps c -> home_dir = Some (home_path comps c) ->
  file_name home_dir getcwd getpwnam my_realpath my_readlink (Some (str "~/")) (str ".cnf") (str "my") = Some (home_path comps c ++ str "/.my.cnf").
Proof.
  intros (Hc & Hs & Hl) Hh. unfold file_name. replace (convert_dirname (str "~/") None ++ (if deref (str "~/") =? FN_HOMELIB then str "." else []) ++ str "my" ++ str ".cnf") with (str "~/" ++ str ".my.cnf") by done.
  apply Forall_app in Hc as [_ [[(Hne & Hslash & _) _] _]%Forall_cons]. destruct c as [|x c _] using rev_ind; [done|]. unfold home_path in *. rewrite app_assoc in *.
  rewrite (format_home home_dir getcwd getpwnam my_realpath my_readlink (dir_text comps ++ c) x (str ".my.cnf") Hh).
  - cbn [mbind option_bind]. rewrite <-!app_assoc. reflexivity.
  - set_solver.
  - exact Hs.
  - by repeat constructor.
  - apply (bool_decide_eq_true_1 _). vm_compute. reflexivity.
  - done.
  - apply Nat.ltb_lt. vm_compute. reflexivity.
  - revert Hl. rewrite !length_app. cbn [length]. change (length (str ".my.cnf")) with 7%nat. unfold FN_REFLEN. lia.
Qed.

Lemma strrchr_app a c r : c ∉ r -> strrchr (a ++ c :: r) c = Some (length a).
Proof.
  intros Hr. assert (Hnone : strrchr r c = None) by (clear a; induction r as [|x r IH]; [done|]; cbn [strrchr]; rewrite IH by set_solver; rewrite (proj2 (Z.eqb_neq _ _)) by set_solver; done).
  induction a as [|x a IH]; cbn [app strrchr length]; [by rewrite Hnone, Z.eqb_refl|by rewrite IH].
Qed.

Section load.
Context (home_dir : option (list Z)) (getcwd : nat -> option (list Z)) (getpwnam : list Z -> option (list Z)) (my_realpath my_readlink : list Z -> list Z)
  (my_stat : list Z -> option bool) (my_fopen : list Z -> option (list Z)) (my_dir : list Z -> option (list (list Z)))
  (dir_message : list Z -> list Z) (my_aes_decrypt : list Z -> list Z -> option (list Z)).

(** A file that is not there, or one of the grammar, and the arguments that it
    gives. *)
Inductive gives (groups : TYPELIB) (name : list Z) : list (list Z) -> Prop :=
| absent : my_stat name = None -> gives groups name []
| present lines args : my_stat name = Some false -> my_fopen name = Some (file_text lines) -> Forall line_ok lines -> file_args groups None lines = Some args ->
    gives groups name args.

Lemma search_gives levels dir ext config_file name c args :
  (length (default [] dir) + length config_file < FN_REFLEN - 3)%nat -> file_name home_dir getcwd getpwnam my_realpath my_readlink dir ext config_file = Some name ->
  Forall c_string (ctx_group c) -> gives (ctx_group c) name args ->
  exists code, 0 <= code /\ search_default_file_with_ext home_dir getcwd getpwnam my_realpath my_readlink my_stat my_fopen my_dir dir_message my_aes_decrypt levels dir ext config_file false c
    = Some (code, more_args c args).
Proof using.
  intros Hlen Hname Hgs Hg. assert (Hkeep : more_args c [] = c) by (unfold more_args; rewrite app_nil_r; by destruct c).
  destruct levels; cbn [search_default_file_with_ext]; rewrite (proj2 (Nat.leb_gt _ _)), Hname by lia; cbn [mbind option_bind]; destruct Hg as [Hs|lines args Hs Hf Hl Ha]; rewrite Hs;
    try (exists 1; split; [lia|]; by rewrite Hkeep); rewrite Hf; unfold ob_file_lines; rewrite fgets_file by done; exists 0; (split; [lia|]); by apply process_lines_args.
Qed.

Context (getenv : string -> option (list Z)).
Abbreviation name_of := (file_name home_dir getcwd getpwnam my_realpath my_readlink).
Abbreviation search := (search_default_file home_dir getcwd getpwnam my_realpath my_readlink my_stat my_fopen my_dir dir_message my_aes_decrypt).

Lemma more_args_nil c : more_args c [] = c.
Proof using. unfold more_args. rewrite app_nil_r. by destruct c. Qed.

Lemma more_args_app c a b : more_args (more_args c a) b = more_args c (a ++ b).
Proof using. unfold more_args. cbn. by rewrite app_assoc. Qed.

(** The directories when neither the build nor the environment names one. *)
Lemma default_directories : getenv "MYSQL_HOME" = None ->
  init_default_directories home_dir getcwd getenv None = Some [str "/etc/"; str "/etc/mysql/"; []; str "~/"].
Proof using. intros H. unfold init_default_directories. rewrite H. vm_compute. reflexivity. Qed.

Lemma search_dir dir name c args : (length dir < 500)%nat -> name_of (Some dir) (str ".cnf") (str "my") = Some name -> Forall c_string (ctx_group c) -> gives (ctx_group c) name args ->
  exists code, 0 <= code /\ search (Some dir) (str "my") false c = Some (code, more_args c args).
Proof using.
  intros Hlen Hn Hg Ha. unfold search_default_file. change (extensions (str "my")) with [str ".cnf"]. cbn [search_extensions]. unfold with_ext.
  destruct (search_gives max_recursion_level (Some dir) (str ".cnf") (str "my") name c args) as (code & Hcode & ->); [|done..|].
  - cbn [default from_option]. unfold id. change (length (str "my")) with 2%nat. unfold FN_REFLEN. lia.
  - cbn [mbind option_bind]. rewrite (proj2 (Z.ltb_ge _ _)) by lia. by exists 0.
Qed.

Abbreviation dirs_search := (search_dirs home_dir getcwd getpwnam my_realpath my_readlink my_stat my_fopen my_dir dir_message my_aes_decrypt).

Lemma search_dirs_step dir dirs extra name c args : dir <> [] -> (length dir < 500)%nat -> name_of (Some dir) (str ".cnf") (str "my") = Some name ->
  Forall c_string (ctx_group c) -> gives (ctx_group c) name args ->
  dirs_search (dir :: dirs) (str "my") extra false c = dirs_search dirs (str "my") extra false (more_args c args).
Proof using.
  intros Hd Hlen Hn Hg Ha. cbn [search_dirs]. rewrite bool_decide_false by done. cbn [negb].
  destruct (search_dir dir name c args Hlen Hn Hg Ha) as (code & Hcode & ->). cbn [mbind option_bind]. by rewrite (proj2 (Z.ltb_ge _ _)) by lia.
Qed.

Lemma search_dirs_empty dirs c : dirs_search ([] :: dirs) (str "my") None false c = dirs_search dirs (str "my") None false c.
Proof using. cbn [search_dirs]. by rewrite bool_decide_true by done. Qed.

(** ** All files and the command line *)

Lemma login_file_absent comps c x : home_ok comps c -> my_stat (home_path comps c ++ str "/.mylogin.cnf") = None ->
  search None (home_path comps c ++ str "/.mylogin.cnf") true x = Some (0, x).
Proof using.
  intros (Hc & Hs & Hl) Hstat. unfold search_default_file, extensions, fn_ext, last_part. change (str "/.mylogin.cnf") with (FN_LIBCHAR :: str ".mylogin.cnf") in *.
  rewrite strrchr_app by (apply (bool_decide_eq_true_1 _); vm_compute; reflexivity). rewrite drop_app_length.
  replace (bool_decide _) with false by (vm_compute; reflexivity). cbn [search_extensions]. unfold with_ext, max_recursion_level. cbn [search_default_file_with_ext].
  rewrite (proj2 (Nat.leb_gt _ _)) by (cbn [default from_option length Nat.add]; rewrite length_app; change (length (FN_LIBCHAR :: str ".mylogin.cnf")) with 13%nat; unfold FN_REFLEN; lia).
  unfold file_name. replace (home_path comps c ++ FN_LIBCHAR :: str ".mylogin.cnf") with (dir_text (comps ++ [c]) ++ str ".mylogin.cnf") in * by (rewrite <-home_dir_text; by rewrite <-app_assoc).
  assert (Hlen : (length (dir_text (comps ++ [c])) < 481)%nat) by (rewrite <-home_dir_text, length_app; cbn [length]; lia).
  rewrite format_clean; [cbn [mbind option_bind]; by rewrite Hstat|done| | | |done| |].
  - rewrite <-home_dir_text. apply (proj2 (c_string_app _ _)). split; [exact Hs|by apply Forall_singleton].
  - by repeat constructor.
  - apply (bool_decide_eq_true_1 _). vm_compute. reflexivity.
  - apply Nat.ltb_lt. vm_compute. reflexivity.
  - rewrite length_app. change (length (str ".mylogin.cnf")) with 12%nat. unfold FN_REFLEN. lia.
Qed.

(** Arguments that do not begin with one of the options for option files. *)
Definition plain_argv (argv : list (list Z)) : Prop :=
  forall a, head argv = Some a ->
    Forall (fun p => is_prefix a p = false) [str "--no-defaults"; str "--defaults-file="; str "--defaults-extra-file="; str "--defaults-group-suffix="; str "--login-path="]
    /\ a <> str "--print-defaults".

Lemma plain_defaults argv d : plain_argv argv -> get_ob_defaults_options argv 0 false d = (0%nat, d).
Proof using.
  intros H. destruct argv as [|a argv]; [done|]. destruct (H a eq_refl) as [Hp _]. unfold plain_argv in *.
  apply Forall_cons in Hp as [H1 Hp]. apply Forall_cons in Hp as [H2 Hp]. apply Forall_cons in Hp as [H3 Hp]. apply Forall_cons in Hp as [H4 Hp]. apply Forall_cons in Hp as [H5 _].
  cbn [get_ob_defaults_options]. unfold take_option. rewrite H1, H2, H3, H4, H5, !andb_false_r. done.
Qed.

End load.

Section standard.
Context (home_dir : option (list Z)) (getcwd : nat -> option (list Z)) (getpwnam : list Z -> option (list Z)) (my_realpath my_readlink : list Z -> list Z)
  (my_stat : list Z -> option bool) (my_fopen : list Z -> option (list Z)) (my_dir : list Z -> option (list (list Z)))
  (dir_message : list Z -> list Z) (my_aes_decrypt : list Z -> list Z -> option (list Z)).
Abbreviation files_search := (search_files home_dir getcwd getpwnam my_realpath my_readlink my_stat my_fopen my_dir dir_message my_aes_decrypt).

Lemma search_standard comps c g suffix a1 a2 a3 : home_ok comps c -> home_dir = Some (home_path comps c) -> Forall c_string g ->
  gives my_stat my_fopen g (str "/etc/my.cnf") a1 -> gives my_stat my_fopen g (str "/etc/mysql/my.cnf") a2 ->
  gives my_stat my_fopen g (home_path comps c ++ str "/.my.cnf") a3 ->
  files_search (mkDefaults None None suffix None) (str "my") [str "/etc/"; str "/etc/mysql/"; []; str "~/"] false (mkCtx [] g [])
  = Some (0, mkCtx (a1 ++ a2 ++ a3) g []).
Proof using.
  intros Hhome Hdir Hg H1 H2 H3. unfold search_files. cbn [d_defaults d_extra_defaults]. replace (dirname_length (str "my") =? 0)%nat with true by done. cbn [negb].
  erewrite search_dirs_step; [|done|apply Nat.ltb_lt; vm_compute; reflexivity|vm_compute; reflexivity|exact Hg|exact H1].
  erewrite search_dirs_step; [|done|apply Nat.ltb_lt; vm_compute; reflexivity|vm_compute; reflexivity|exact Hg|exact H2]. rewrite search_dirs_empty.
  erewrite search_dirs_step; [|done|apply Nat.ltb_lt; vm_compute; reflexivity|by apply home_file|exact Hg|exact H3].
  cbn [search_dirs mbind option_bind]. rewrite !more_args_app. unfold more_args. cbn [ctx_args ctx_group ctx_err app]. by rewrite <-?app_assoc.
Qed.

Lemma search_login comps c d dirs x : home_ok comps c -> d_defaults d = None -> my_stat (home_path comps c ++ str "/.mylogin.cnf") = None ->
  files_search d (home_path comps c ++ str "/.mylogin.cnf") dirs true x = Some (0, x).
Proof using.
  intros Hhome Hd Hstat. unfold search_files. rewrite Hd. rewrite login_file_absent by done.
  assert (Hdn : dirname_length (home_path comps c ++ str "/.mylogin.cnf") = (length (home_path comps c) + 1)%nat)
    by (apply (dirname_length_app (home_path comps c) (str ".mylogin.cnf")), (bool_decide_eq_true_1 _); vm_compute; reflexivity).
  rewrite Hdn, Nat.add_1_r. done.
Qed.

End standard.

(** The standard files in their order. *)
Lemma load_defaults_standard (home_dir : option (list Z)) getcwd getpwnam my_realpath my_readlink my_stat my_fopen my_dir dir_message my_aes_decrypt getenv
    (comps : list (list Z)) (c : list Z) (groups : TYPELIB) (argv a1 a2 a3 : list (list Z)) (g := suffix_groups (getenv "MYSQL_GROUP_SUFFIX") groups) :
  home_ok comps c -> home_dir = Some (home_path comps c) -> getenv "HOME" = Some (home_path comps c) -> getenv "MYSQL_HOME" = None ->
  getenv "MYSQL_TEST_LOGIN_FILE" = None -> Forall c_string g -> plain_argv argv -> my_stat (home_path comps c ++ str "/.mylogin.cnf") = None ->
  gives my_stat my_fopen g (str "/etc/my.cnf") a1 -> gives my_stat my_fopen g (str "/etc/mysql/my.cnf") a2 ->
  gives my_stat my_fopen g (home_path comps c ++ str "/.my.cnf") a3 ->
  my_load_defaults home_dir getcwd getpwnam my_realpath my_readlink my_stat my_fopen my_dir dir_message my_aes_decrypt getenv None (str "my") groups argv
  = Some (Loaded (a1 ++ a2 ++ a3 ++ argv), []).
Proof.
  intros Hhome Hdir Henv Hmh Htest Hg Hargv Hlogin H1 H2 H3. unfold my_load_defaults. rewrite default_directories by done. cbn [mbind option_bind].
  assert (Hno : bool_decide (head argv = Some (str "--no-defaults")) = false).
  { apply bool_decide_eq_false. intros H. destruct (Hargv _ H) as [[Hp _]%Forall_cons _]. by vm_compute in Hp. }
  rewrite Hno, plain_defaults by done. cbn [expand_files d_extra_defaults d_defaults d_group_suffix d_login_path mbind option_bind].
  fold g. rewrite (search_standard _ _ _ _ _ _ _ _ _ _ comps c g _ a1 a2 a3) by done. cbn [mbind option_bind Z.eqb negb].
  unfold my_default_get_ob_login_file. rewrite Htest, Henv. cbn [login_groups mbind option_bind].
  rewrite take_ge by (destruct Hhome as (_ & _ & Hl); rewrite length_app; change (length (str "/.mylogin.cnf")) with 13%nat; unfold FN_REFLEN; lia).
  rewrite search_login by done. cbn [mbind option_bind Z.eqb negb more_args ctx_args ctx_err ctx_group app]. rewrite drop_0.
  assert (Hpr : bool_decide (head argv = Some (str "--print-defaults")) = false) by (apply bool_decide_eq_false; intros H; by destruct (Hargv _ H)).
  rewrite Hpr. by rewrite <-!app_assoc.
Qed.

(** C8. Options from files.  When neither the build, the environment nor the
    command line names other files, the client reads /etc/my.cnf,
    /etc/mysql/my.cnf and .my.cnf in the home directory, those that exist, in
    this order, and puts the options of the groups that it uses, and of these
    groups with the suffix of the environment, before the arguments of the
    command line.  Every option of a group arrives once and in order, and its
    value, which a file writes in quotes with escapes, with blanks around it and
    a comment behind it, arrives exactly as it was meant; nothing is printed. *)
Theorem load_defaults_reads (home_dir : option (list Z)) getcwd getpwnam my_realpath my_readlink my_stat my_fopen my_dir dir_message my_aes_decrypt getenv
    (comps : list (list Z)) (c : list Z) (groups : TYPELIB) (argv a1 a2 a3 : list (list Z)) (g := suffix_groups (getenv "MYSQL_GROUP_SUFFIX") groups) :
  home_ok comps c -> home_dir = Some (home_path comps c) -> getenv "HOME" = Some (home_path comps c) -> getenv "MYSQL_HOME" = None ->
  getenv "MYSQL_TEST_LOGIN_FILE" = None -> Forall c_string g -> plain_argv argv -> my_stat (home_path comps c ++ str "/.mylogin.cnf") = None ->
  gives my_stat my_fopen g (str "/etc/my.cnf") a1 -> gives my_stat my_fopen g (str "/etc/mysql/my.cnf") a2 ->
  gives my_stat my_fopen g (home_path comps c ++ str "/.my.cnf") a3 ->
  my_load_defaults home_dir getcwd getpwnam my_realpath my_readlink my_stat my_fopen my_dir dir_message my_aes_decrypt getenv None (str "my") groups argv
  = Some (Loaded (a1 ++ a2 ++ a3 ++ argv), []).
Proof. intros Hhome Hdir Henv Hmh Htest Hg Hargv Hlogin H1 H2 H3. by apply (load_defaults_standard home_dir getcwd getpwnam my_realpath my_readlink my_stat my_fopen my_dir dir_message my_aes_decrypt getenv comps c). Qed.

(** A file system with two option files. *)
Definition sample_lines : list cnf_line :=
  [Remark [] "#"%chr (str " settings"); Group [] (str "Client") [] (str " for all"); Setting (str "  ") (str "prompt") (str " ") (str " ") (str "a#\ ") [] (Some (str " why"));
   Empty []; Group [] (str "other") [] []; Switch [] (str "batch") [] None; Group [] (str "mysql") (str " ") []; Switch [] (str "silent") (str " ") None].

Definition sample_files (name : list Z) : option (list Z) :=
  if bool_decide (name = str "/etc/my.cnf") then Some (file_text sample_lines)
  else if bool_decide (name = str "/home/me/.my.cnf") then Some (file_text [Group [] (str "client") [] []; Setting [] (str "port") [] [] (str "1") [] None])
  else None.

Definition sample_env (v : string) : option (list Z) := if bool_decide (v = "HOME") then Some (str "/home/me") else None.

Lemma load_defaults_reads_witness :
  my_load_defaults (Some (str "/home/me")) (fun _ => None) (fun _ => None) id id (fun f => if found (sample_files f) then Some false else None) sample_files
    (fun _ => None) id (fun _ _ => None) sample_env None (str "my") load_default_groups [str "-v"; str "db"]
  = Some (Loaded [str "--prompt=a#\ "; str "--silent"; str "--port=1"; str "-v"; str "db"], []).
Proof.
  rewrite (load_defaults_reads (Some (str "/home/me")) (fun _ => None) (fun _ => None) id id (fun f => if found (sample_files f) then Some false else None) sample_files
    (fun _ => None) id (fun _ _ => None) sample_env [str "home"] (str "me") load_default_groups [str "-v"; str "db"] [str "--prompt=a#\ "; str "--silent"] [] [str "--port=1"]).
  - reflexivity.
  - split_and!; [apply (bool_decide_eq_true_1 _); vm_compute; reflexivity..|apply Nat.ltb_lt; vm_compute; reflexivity].
  - reflexivity.
  - reflexivity.
  - reflexivity.
  - reflexivity.
  - by repeat constructor.
  - intros a [= <-]. split; [by repeat constructor|by vm_compute].
  - reflexivity.
  - apply (present _ _ _ _ sample_lines); [reflexivity|reflexivity| |vm_compute; reflexivity]. apply (bool_decide_eq_true_1 _). vm_compute. reflexivity.
  - by apply absent.
  - apply (present _ _ _ _ [Group [] (str "client") [] []; Setting [] (str "port") [] [] (str "1") [] None]); [reflexivity|reflexivity| |vm_compute; reflexivity].
    apply (bool_decide_eq_true_1 _). vm_compute. reflexivity.
Defined.

(** ** Where the code does not do what it means to *)

Lemma at_app_len a c r : at_ (a ++ c :: r) (length a) = c.
Proof. unfold at_. by rewrite app_nth2, Nat.sub_diag by lia. Qed.

Lemma include_cuts f c name line : f <> [] -> (forall x, last f = Some x -> isspace x = false) -> isspace (deref f) = false ->
  get_argument (str "include") (str "!include " ++ f ++ [c]) 1 name line = Some (inl f).
Proof.
  intros Hf Hl Hd. unfold get_argument. change (1 + length (str "include"))%nat with 8%nat.
  change (drop 8 (str "!include " ++ f ++ [c])) with ([" "%chr] ++ f ++ [c]). rewrite skip_blank; [|by repeat constructor|right; by destruct f].
  replace (length (str "!include " ++ f ++ [c]) - length (f ++ [c]))%nat with (length (str "!include ")) by lens.
  replace (length (str "!include " ++ f ++ [c]) - 1)%nat with (length (str "!include " ++ f)) by lens. rewrite (app_assoc (str "!include ") f [c]).
  rewrite back_spaces_stop; [|intros x; by apply last_nonspace|done]. cbn [mbind option_bind]. rewrite length_app.
  rewrite (proj2 (Nat.leb_gt _ _)) by (destruct f; [done|cbn [length]; lia]). by rewrite <-app_assoc, slice_app.
Qed.

Lemma back_spaces_all sp r : blank sp -> back_spaces (sp ++ r) (length sp) = None.
Proof.
  revert r. induction sp as [|x sp IH] using rev_ind; intros r Hsp; [done|]. apply Forall_app in Hsp as [Hsp [Hx _]%Forall_cons].
  rewrite length_app. cbn [length]. rewrite Nat.add_1_r. cbn [back_spaces]. rewrite <-app_assoc. cbn [app]. rewrite at_app_len, Hx. by apply IH.
Qed.

Lemma empty_key sp rest : blank sp -> line_option (sp ++ "="%chr :: rest) (length sp) = None.
Proof.
  intros Hsp. unfold line_option. rewrite drop_app_length. cbn [remove_end_comment is_quote Z.eqb Pos.eqb orb andb negb].
  set (n := remove_end_comment rest 0 false). rewrite take_app_add. cbn [take]. rewrite drop_app_length. cbn [strchr]. rewrite Z.eqb_refl, Nat.add_0_r.
  rewrite back_spaces_all by done. done.
Qed.

Lemma login_path_outside suffix path (group : TYPELIB) : (3 <= length group)%nat -> login_groups suffix (Some path) group = None.
Proof. intros Hg. unfold login_groups. destruct suffix; cbn [length]; rewrite (proj2 (Nat.leb_le _ _)) by lia; done. Qed.

Lemma long_directory home_dir getcwd name dirs : c_string name -> FN_LIBCHAR ∉ name -> length name = (FN_REFLEN - 2)%nat ->
  add_directory home_dir getcwd (FN_LIBCHAR :: name) dirs = None.
Proof.
  intros Hs Hn Hl. unfold add_directory, normalize_dirname, intern_filename. change (FN_LIBCHAR :: name) with (dir_text [] ++ name).
  rewrite dirname_part_app by (done || by repeat constructor || (unfold FN_REFLEN; cbn; lia)). change (length (dir_text [])) with 1%nat. change (drop 1 (dir_text [] ++ name)) with name.
  rewrite (proj2 (Nat.ltb_lt _ _)) by (rewrite Hl; unfold FN_REFLEN; lia). cbn [mbind option_bind].
  assert (He : ends_dir (dir_text [] ++ name) = false).
  { destruct name as [|x name _] using rev_ind; [done|]. unfold ends_dir. rewrite app_assoc, last_snoc. apply Z.eqb_neq. set_solver. }
  rewrite He. replace (length (dir_text [] ++ name)) with (FN_REFLEN - 1)%nat by (rewrite length_app, Hl; done).
  replace (BUFF_SIZE - 1 <=? FN_REFLEN - 1)%nat with false by done. rewrite take_ge by (rewrite length_app, Hl; done).
  replace ((dir_text [] ++ name) ++ [FN_LIBCHAR]) with (dir_text [name] ++ []) by (unfold dir_text, slashed; cbn; by rewrite !app_nil_r).
  assert (Hlong : (2 <= length name)%nat) by (rewrite Hl; unfold FN_REFLEN; lia).
  rewrite cleanup_clean; [| |set_solver|unfold dir_text, slashed; cbn; rewrite !app_nil_r; cbn [length]; rewrite length_app, Hl; unfold FN_REFLEN; cbn; lia].
  - cbn [mbind option_bind]. rewrite (proj2 (Nat.leb_le _ _)); [done|]. unfold dir_text, slashed. cbn [map concat app length]. rewrite !length_app, Hl. cbn [length]. unfold FN_REFLEN. lia.
  - repeat constructor; [| | | |intros ->; by vm_compute in Hl]; try done; intros ->; cbn in Hlong; lia.
Qed.

(** C40. Where reading option files does not do what it means to.  An include
    directive at the end of a file, without a line end, names the file without its
    last character.  A line that begins with an equals sign makes the client read
    before its array.  With --login-path the list of groups is ended outside its
    array, for any three groups or more.  MYSQL_HOME of 511 characters writes
    behind the array of the directory.  A home directory that is the root makes
    the cleaning of ~/.. read before its array.  With --defaults-file the login
    file is never read, whatever its name is; the file of the options is read in
    its place as if it were encrypted, and a negative length in it overflows the
    array. *)
Theorem option_file_quirks :
  (forall f c name line, f <> [] -> (forall x, last f = Some x -> isspace x = false) -> isspace (deref f) = false ->
     get_argument (str "include") (str "!include " ++ f ++ [c]) 1 name line = Some (inl f))
  /\ (forall sp rest, blank sp -> line_option (sp ++ "="%chr :: rest) (length sp) = None)
  /\ (forall suffix path group, (3 <= length group)%nat -> login_groups suffix (Some path) group = None)
  /\ (forall home_dir getcwd name dirs, c_string name -> FN_LIBCHAR ∉ name -> length name = (FN_REFLEN - 2)%nat ->
        add_directory home_dir getcwd (FN_LIBCHAR :: name) dirs = None)
  /\ (forall getcwd, cleanup_dirname (Some (str "/")) getcwd (str "~/../") = None)
  /\ (forall home_dir getcwd getpwnam my_realpath my_readlink my_stat my_fopen my_dir dir_message my_aes_decrypt d conf_file conf_file' dirs c,
        d_defaults d <> None ->
        let search conf := search_files home_dir getcwd getpwnam my_realpath my_readlink my_stat my_fopen my_dir dir_message my_aes_decrypt d conf dirs true c in
        search conf_file = search conf_file')
  /\ (forall my_aes_decrypt unused key rest, length unused = 4%nat -> length key = LOGIN_KEY_LEN ->
        ob_file_lines my_aes_decrypt true (unused ++ key ++ [0; 0; 0; 128] ++ rest) = [None]).
Proof.
  split_and!; [exact include_cuts|exact empty_key|exact login_path_outside|exact long_directory|reflexivity| |].
  - intros until c. intros Hd search. subst search. unfold search_files. by destruct (d_defaults d).
  - intros my_aes_decrypt unused key rest Hu Hk. unfold ob_file_lines. rewrite <-Hu at 1. rewrite !drop_app_length. rewrite <-Hu, drop_app_length. rewrite (proj2 (Nat.ltb_ge _ _)) by (rewrite length_app, Hk; lia).
    rewrite <-Hk, drop_app_length. reflexivity.
Qed.
