(* ===== verification/GetOpt.v ===== *)
(** * Command line options (mysys/my_getopt.c)

    [handle_options] walks through the arguments of the program, finds the
    option that each of them names in the table of the program, stores its value
    in the variable of the option and calls the program's [get_one_option].
    Arguments that are not options stay.  The variables and the rest of the
    program are a state [S] with three operations; messages go to the standard
    error output. *)

From stdpp Require Import base list numbers strings.
From S2P Require Import Prelude CString Charset Numbers Typelib.
Open Scope Z_scope.

(** ** Tables of options *)

Inductive get_type :=
| GET_NO_ARG | GET_BOOL | GET_INT | GET_UINT | GET_LONG | GET_ULONG | GET_LL | GET_ULL | GET_STR | GET_STR_ALLOC
| GET_DISABLED | GET_ENUM | GET_SET | GET_DOUBLE | GET_FLAGSET | GET_BIT.

#[global] Instance get_type_eq_dec : EqDecision get_type.
Proof. solve_decision. Defined.

Inductive get_opt_arg_type := NO_ARG | OPT_ARG | REQUIRED_ARG.

#[global] Instance get_opt_arg_type_eq_dec : EqDecision get_opt_arg_type.
Proof. solve_decision. Defined.

(** A variable of the program, by its name. *)
Abbreviation var := string.

(** Numbers, and strings that may be a null pointer. *)
Inductive val :=
| VNum (z : Z)
| VStr (p : option (list Z)).

(** [GET_ASK_ADDR] and [GET_AUTO] are the two flags of the type. *)
Record my_option := mkOption {
  o_name : list Z;
  o_id : Z;
  o_comment : option (list Z);
  o_value : option var;
  o_u_max_value : option var;
  o_typelib : TYPELIB;
  o_var_type : get_type;
  o_ask_addr : bool;
  o_auto : bool;
  o_arg_type : get_opt_arg_type;
  o_def_value : Z;
  o_min_value : Z;
  o_max_value : Z;
  o_block_size : Z
}.

#[global] Instance my_option_eq_dec : EqDecision my_option.
Proof. solve_decision. Defined.

(** The argument of an option is a string or one of the constants that the code
    compares by their addresses. *)
Inductive argument :=
| null
| enabled_my_option
| disabled_my_option
| autoset_my_option
| text (s : list Z).

Definition arg_text (a : argument) : list Z :=
  match a with
  | null => []
  | enabled_my_option => str "1"
  | disabled_my_option => str "0"
  | autoset_my_option => str "auto"
  | text s => s
  end.

Inductive loglevel := ERROR_LEVEL | WARNING_LEVEL | INFORMATION_LEVEL.

Definition default_reporter (level : loglevel) (message : list Z) : list Z :=
  match level with
  | WARNING_LEVEL => str "Warning: "
  | INFORMATION_LEVEL => str "Info: "
  | ERROR_LEVEL => []
  end ++ message ++ [10].

Definition EXIT_UNSPECIFIED_ERROR : Z := 1.
Definition EXIT_UNKNOWN_OPTION : Z := 2.
Definition EXIT_AMBIGUOUS_OPTION : Z := 3.
Definition EXIT_NO_ARGUMENT_ALLOWED : Z := 4.
Definition EXIT_ARGUMENT_REQUIRED : Z := 5.
Definition EXIT_VAR_PREFIX_NOT_UNIQUE : Z := 6.
Definition EXIT_UNKNOWN_VARIABLE : Z := 7.
Definition EXIT_UNKNOWN_SUFFIX : Z := 9.
Definition EXIT_NO_PTR_TO_VARIABLE : Z := 10.
Definition EXIT_OPTION_DISABLED : Z := 12.
Definition EXIT_ARGUMENT_INVALID : Z := 13.

(** ** Names *)

Definition dash (c : Z) : Z := if c =? "-"%chr then "_"%chr else c.

(** Whether the first [length] characters differ. *)
Fixpoint getopt_compare_strings (s t : list Z) (length : nat) : bool :=
  match length with
  | O => false
  | S n => if negb (dash (deref s) =? dash (deref t)) then true else getopt_compare_strings (drop 1 s) (drop 1 t) n
  end.

(** The result of [findopt]: the number of options found, the place in the
    table (the options from there on), the first name and the message. *)
Fixpoint findopt_loop (prefix_matching : bool) (optpat : list Z) (length : nat) (opt : list my_option) (opt_res : list my_option)
    (count : nat) (ffname : list Z) : nat * list my_option * list Z * list Z :=
  match opt with
  | [] =>
      (count, opt_res, ffname,
       if (count =? 1)%nat then
         default_reporter INFORMATION_LEVEL
           (str "Using unique option prefix '" ++ take length optpat ++ str "' is error-prone and can break in the future. Please use the full name '"
            ++ ffname ++ str "' instead.")
       else [])
  | o :: opt' =>
      if getopt_compare_strings (o_name o) optpat length then findopt_loop prefix_matching optpat length opt' opt_res count ffname
      else if at_ (o_name o) length =? 0 then (1%nat, opt, ffname, [])
      else if negb prefix_matching then findopt_loop prefix_matching optpat length opt' opt count ffname
      else if (count =? 0)%nat then findopt_loop prefix_matching optpat length opt' opt 1 (o_name o)
      else if negb (bool_decide (ffname = o_name o)) then findopt_loop prefix_matching optpat length opt' opt (S count) ffname
      else findopt_loop prefix_matching optpat length opt' opt count ffname
  end.

Definition findopt (prefix_matching : bool) (optpat : list Z) (length : nat) (opt_res : list my_option) (ffname : list Z) :=
  findopt_loop prefix_matching optpat length opt_res opt_res 0 ffname.

(** The index of a character, or the length. *)
Fixpoint strcend (s : list Z) (c : Z) : nat :=
  match s with [] => O | x :: s' => if x =? c then O else S (strcend s' c) end.

(** The name of the key and the place of the option behind the dot. *)
Definition check_struct_option (cur_arg : list Z) : list Z * list Z :=
  let ptr := S (strcend (drop 1 cur_arg) "."%chr) in
  let end_ := strcend cur_arg "="%chr in
  if (S ptr <? end_)%nat then (take (Nat.min ptr (512 - 1)) cur_arg, drop (S ptr) cur_arg) else ([], cur_arg).

Definition special_opt_prefix : list (list Z) :=
  [str "skip"; str "disable"; str "enable"; str "maximum"; str "loose"; str "autoset"].

Inductive enum_special_opt := OPT_SKIP | OPT_DISABLE | OPT_ENABLE | OPT_MAXIMUM | OPT_LOOSE | OPT_AUTOSET.

#[global] Instance enum_special_opt_eq_dec : EqDecision enum_special_opt.
Proof. solve_decision. Defined.

Definition special_opts : list (enum_special_opt * list Z) :=
  zip [OPT_SKIP; OPT_DISABLE; OPT_ENABLE; OPT_MAXIMUM; OPT_LOOSE; OPT_AUTOSET] special_opt_prefix.

(** ** Numbers *)

(** [strtoll] and [strtoull] of the C library for decimal numbers: the digits
    behind blanks and a sign, and the rest of the string. *)
Definition c_isspace (c : Z) : bool := ((9 <=? c) && (c <=? 13)) || (c =? 32).

Fixpoint digits_of (s : list Z) (acc : Z) : Z * list Z :=
  match s with
  | c :: s' => if ("0"%chr <=? c) && (c <=? "9"%chr) then digits_of s' (acc * 10 + (c - "0"%chr)) else (acc, s)
  | [] => (acc, [])
  end.

(** The sign, the number and the rest; without digits, zero and the whole
    string. *)
Definition strto (s : list Z) : bool * Z * list Z :=
  let s1 := skip_while c_isspace s in
  let '(negative, s2) :=
    match s1 with
    | c :: s' => if c =? "-"%chr then (true, s') else if c =? "+"%chr then (false, s') else (false, s1)
    | [] => (false, s1)
    end in
  let '(n, e) := digits_of s2 0 in
  if bool_decide (e = s2) then (false, 0, s) else (negative, n, e).

(** The value, the rest of the string and whether the number is out of range. *)
Definition strtoll (s : list Z) : Z * list Z * bool :=
  let '(negative, n, e) := strto s in
  if negative then (if n <=? 2 ^ 63 then (- n, e, false) else (- 2 ^ 63, e, true))
  else if n <? 2 ^ 63 then (n, e, false) else (2 ^ 63 - 1, e, true).

Definition strtoull (s : list Z) : Z * list Z * bool :=
  let '(negative, n, e) := strto s in
  if n <? 2 ^ 64 then ((if negative then - n else n) mod 2 ^ 64, e, false) else (2 ^ 64 - 1, e, true).

Definition wrap (z : Z) : Z := (z + 2 ^ 63) mod 2 ^ 64 - 2 ^ 63.

(** The factor of a suffix, [None] if it is unknown. *)
Definition eval_num_suffix (suffix : list Z) : option Z :=
  let c := deref suffix in
  if c =? 0 then Some 1
  else if (c =? "k"%chr) || (c =? "K"%chr) then Some (Z.shiftl 1 10)
  else if (c =? "m"%chr) || (c =? "M"%chr) then Some (Z.shiftl 1 20)
  else if (c =? "g"%chr) || (c =? "G"%chr) then Some (Z.shiftl 1 30)
  else if (c =? "t"%chr) || (c =? "T"%chr) then Some (Z.shiftl 1 40)
  else if (c =? "p"%chr) || (c =? "P"%chr) then Some (Z.shiftl 1 50)
  else if (c =? "e"%chr) || (c =? "E"%chr) then Some (Z.shiftl 1 60)
  else None.

(** The number with its suffix, whether it is wrong, and the message. *)
Definition eval_num (convert : list Z -> Z * list Z * bool) (wrap : Z -> Z) (argument option_name : list Z) : Z * bool * list Z :=
  let '(num, endchar, range) := convert argument in
  if range then (0, true, default_reporter ERROR_LEVEL (str "Incorrect integer value: '" ++ argument ++ str "'"))
  else match eval_num_suffix endchar with
  | Some f => (wrap (num * f), false, [])
  | None => (0, true, str "Unknown suffix '" ++ take 1 endchar ++ str "' used for variable '" ++ option_name
                      ++ str "' (value '" ++ argument ++ str "')" ++ [10])
  end.

Definition eval_num_suffix_ll : list Z -> list Z -> Z * bool * list Z := eval_num strtoll wrap.
Definition eval_num_suffix_ull : list Z -> list Z -> Z * bool * list Z := eval_num strtoull (fun z => z mod 2 ^ 64).

Definition adjusted_message (kind : list Z) (optp : my_option) (old num : list Z) : list Z :=
  default_reporter WARNING_LEVEL (str "option '" ++ o_name optp ++ str "': " ++ kind ++ str " value " ++ old ++ str " adjusted to " ++ num).

(** Signed values; the block size is an unsigned number, so that the division
    is one of unsigned numbers. *)
Definition getopt_ll_limit_value (num : Z) (optp : my_option) : Z * list Z :=
  let old := num in
  let block_size := if o_block_size optp =? 0 then 1 else o_block_size optp mod 2 ^ 64 in
  let '(num, adjusted) :=
    if (0 <? num) && (o_max_value optp mod 2 ^ 64 <? num) && negb (o_max_value optp =? 0) then (wrap (o_max_value optp), true) else (num, false) in
  let '(num, adjusted) :=
    match o_var_type optp with GET_INT => if 2 ^ 31 - 1 <? num then (2 ^ 31 - 1, true) else (num, adjusted) | _ => (num, adjusted) end in
  let num := wrap (num mod 2 ^ 64 / block_size) in
  let num := wrap (num * block_size) in
  let '(num, adjusted) :=
    if num <? o_min_value optp then (o_min_value optp, adjusted || (old <? o_min_value optp)) else (num, adjusted) in
  (num, if adjusted then adjusted_message (str "signed") optp (longlong10_to_str old (-10)) (longlong10_to_str num (-10)) else []).

Definition getopt_ull_limit_value (num : Z) (optp : my_option) : Z * list Z :=
  let old := num in
  let max_value := o_max_value optp mod 2 ^ 64 in
  let min_value := o_min_value optp mod 2 ^ 64 in
  let '(num, adjusted) := if (max_value <? num) && negb (max_value =? 0) then (max_value, true) else (num, false) in
  let '(num, adjusted) :=
    match o_var_type optp with GET_UINT => if 2 ^ 32 - 1 <? num then (2 ^ 32 - 1, true) else (num, adjusted) | _ => (num, adjusted) end in
  let num := if 1 <? o_block_size optp then num / o_block_size optp * o_block_size optp else num in
  let '(num, adjusted) := if num <? min_value then (min_value, adjusted || (old <? min_value)) else (num, adjusted) in
  (num, if adjusted then adjusted_message (str "unsigned") optp (longlong10_to_str old 10) (longlong10_to_str num 10) else []).

(** The value of an argument, whether it is wrong, and the messages. *)
Definition getopt_ll (arg : list Z) (optp : my_option) : Z * bool * list Z :=
  let '(num, err, m) := eval_num_suffix_ll arg (o_name optp) in
  let '(num, m') := getopt_ll_limit_value num optp in (num, err, m ++ m').

Definition getopt_ull (arg : list Z) (optp : my_option) : Z * bool * list Z :=
  let '(num, err, m) := eval_num_suffix_ull arg (o_name optp) in
  let '(num, m') := getopt_ull_limit_value num optp in (num, err, m ++ m').

(** ** The state of the program *)

Class Variables (S : Type) := {
  get_var : var -> S -> val;
  set_var : var -> val -> S -> S;
  put_err : list Z -> S -> S
}.

(** Messages that may be empty. *)
Definition put_messages {S} `{Variables S} (m : list Z) (s : S) : S := match m with [] => s | _ => put_err m s end.

Definition num_of (v : val) : Z := match v with VNum z => z | VStr _ => 0 end.

Definition my_strcasecmp_eq (s t : list Z) : bool := bool_decide (upper s = upper t).

Section setval.
Context {S : Type} `{Variables S} (my_progname : list Z).

(** The conversion of floating point numbers: the bits of the value, whether the
    argument is wrong, and the messages. *)
Variable getopt_double : list Z -> my_option -> Z * bool * list Z.

Definition report (level : loglevel) (message : list Z) (s : S) : S := put_err (default_reporter level message) s.

Definition get_bool_argument (opts : my_option) (argument : list Z) (s : S) : bool * S :=
  if my_strcasecmp_eq argument (str "true") || my_strcasecmp_eq argument (str "on") || my_strcasecmp_eq argument (str "1") then (true, s)
  else if my_strcasecmp_eq argument (str "false") || my_strcasecmp_eq argument (str "off") || my_strcasecmp_eq argument (str "0") then (false, s)
  else (false, report WARNING_LEVEL (str "option '" ++ o_name opts ++ str "': boolean value '" ++ argument ++ str "' wasn't recognized. Set to OFF.") s).

(** The bit of a [GET_BIT] option in the variable. *)
Definition put_bit (opts : my_option) (on : bool) (old : Z) : Z :=
  let bit := Z.abs (o_block_size opts) in
  if xorb on (o_block_size opts <? 0) then Z.lor old bit else Z.ldiff old bit.

(** A number of a type is stored at its width. *)
Definition store_width (t : get_type) (z : Z) : Z :=
  match t with
  | GET_INT => int32 z
  | GET_UINT => z mod 2 ^ 32
  | GET_LONG | GET_LL => wrap z
  | _ => z mod 2 ^ 64
  end.

(** The end of [setval] after an error. *)
Definition setval_failed (opts : my_option) (argument : list Z) (res : Z) (s : S) : Z * S :=
  (res, report ERROR_LEVEL (my_progname ++ str ": Error while setting value '" ++ argument ++ str "' to '" ++ o_name opts ++ str "'") s).

Definition set_number (opts : my_option) (value : var) (argument : list Z) (r : Z * bool * list Z) (s : S) : Z * S :=
  let '(num, err, m) := r in
  let s := set_var value (VNum (store_width (o_var_type opts) num)) (put_messages m s) in
  if err : bool then setval_failed opts argument EXIT_UNKNOWN_SUFFIX s else (0, s).

Definition set_enum (opts : my_option) (value : var) (argument : list Z) (s : S) : Z * S :=
  let type := find_type argument (o_typelib opts) FIND_TYPE_BASIC in
  if type =? 0 then
    let '(arg, endptr, _) := strtoull argument in
    if negb (bool_decide (endptr = [])) || (Z.of_nat (length (o_typelib opts)) <=? arg) then setval_failed opts argument EXIT_ARGUMENT_INVALID s
    else (0, set_var value (VNum arg) s)
  else if type <? 0 then setval_failed opts argument EXIT_AMBIGUOUS_OPTION s
  else (0, set_var value (VNum (type - 1)) s).

Definition set_set (opts : my_option) (value : var) (argument : list Z) (s : S) : option (Z * S) :=
  '(set, err) ← find_typeset argument (o_typelib opts) 0;
  let s := set_var value (VNum set) s in
  if err =? 0 then Some (0, s)
  else
    let '(arg, endptr, _) := strtoll argument in
    let arg := arg mod 2 ^ 64 in
    if negb (bool_decide (endptr = [])) || (Z.shiftl 1 (Z.of_nat (length (o_typelib opts)) - 1) <=? Z.shiftr arg 1)
    then Some (setval_failed opts argument EXIT_ARGUMENT_INVALID s)
    else Some (0, set_var value (VNum arg) s).

Definition set_flagset (opts : my_option) (value : var) (argument : list Z) (s : S) : option (Z * S) :=
  '(set, error) ← find_set_from_flags (o_typelib opts) (Z.of_nat (length (o_typelib opts))) (num_of (get_var value s))
                     (o_def_value opts mod 2 ^ 64) argument;
  let s := set_var value (VNum set) s in
  match error with Some _ => Some (setval_failed opts argument EXIT_ARGUMENT_INVALID s) | None => Some (0, s) end.

(** The result is [None] where a search for names never ends. *)
Definition setval (opts : my_option) (value : option var) (argument : argument) (set_maximum_value : bool) (s : S) : option (Z * S) :=
  let argument := match argument with null => enabled_my_option | a => a end in
  let a := arg_text argument in
  match value with
  | None => Some (0, s)
  | Some v =>
      match (if set_maximum_value then o_u_max_value opts else Some v) with
      | None => Some (EXIT_NO_PTR_TO_VARIABLE, report ERROR_LEVEL (my_progname ++ str ": Maximum value of '" ++ o_name opts ++ str "' cannot be set") s)
      | Some v =>
          match o_var_type opts with
          | GET_BOOL => let '(b, s) := get_bool_argument opts a s in Some (0, set_var v (VNum (Z.b2z b)) s)
          | GET_INT | GET_LONG | GET_LL => Some (set_number opts v a (getopt_ll a opts) s)
          | GET_UINT | GET_ULONG | GET_ULL => Some (set_number opts v a (getopt_ull a opts) s)
          | GET_DOUBLE => Some (set_number opts v a (getopt_double a opts) s)
          | GET_STR | GET_STR_ALLOC =>
              Some (0, set_var v (VStr (Some (match argument with enabled_my_option => [] | _ => a end))) s)
          | GET_ENUM => Some (set_enum opts v a s)
          | GET_SET => set_set opts v a s
          | GET_FLAGSET => set_flagset opts v a s
          | GET_BIT => let '(b, s) := get_bool_argument opts a s in Some (0, set_var v (VNum (put_bit opts b (num_of (get_var v s)))) s)
          | GET_NO_ARG | GET_DISABLED => Some (0, s)
          end
      end
  end.

(** ** Default values *)

(** The strings that are default values: a constant of the program for each
    number other than zero. *)
Variable constant : Z -> list Z.

Definition init_one_value (option : my_option) (variable : var) (value : Z) (s : S) : S :=
  let limit_ll z := let '(num, m) := getopt_ll_limit_value z option in set_var variable (VNum (store_width (o_var_type option) num)) (put_messages m s) in
  let limit_ull z := let '(num, m) := getopt_ull_limit_value z option in set_var variable (VNum (store_width (o_var_type option) num)) (put_messages m s) in
  match o_var_type option with
  | GET_BOOL => set_var variable (VNum (value mod 2 ^ 8)) s
  | GET_INT => limit_ll (int32 value)
  | GET_LONG | GET_LL => limit_ll value
  | GET_UINT => limit_ull (value mod 2 ^ 32)
  | GET_ULONG | GET_ULL => limit_ull (value mod 2 ^ 64)
  | GET_ENUM | GET_SET | GET_FLAGSET | GET_DOUBLE => set_var variable (VNum (value mod 2 ^ 64)) s
  | GET_BIT => set_var variable (VNum (put_bit option (negb (value =? 0)) (num_of (get_var variable s)))) s
  | GET_STR | GET_STR_ALLOC => if value =? 0 then s else set_var variable (VStr (Some (constant value))) s
  | GET_NO_ARG | GET_DISABLED => s
  end.

Definition fini_one_value (option : my_option) (variable : var) (value : Z) (s : S) : S :=
  match o_var_type option with GET_STR_ALLOC => set_var variable (VStr None) s | _ => s end.

(** [getopt_get_addr] is a function that the program registers. *)
Variable getopt_get_addr : list Z -> my_option -> Z * option var.

Fixpoint init_variables (options : list my_option) (func_init_one_value : my_option -> var -> Z -> S -> S) (s : S) : S :=
  match options with
  | [] => s
  | o :: options' =>
      let s := match o_u_max_value o with Some v => func_init_one_value o v (o_max_value o) s | None => s end in
      let value := if o_ask_addr o then snd (getopt_get_addr [] o) else o_value o in
      let s := match value with Some v => func_init_one_value o v (o_def_value o) s | None => s end in
      init_variables options' func_init_one_value s
  end.

Definition my_cleanup_options (options : list my_option) (s : S) : S := init_variables options fini_one_value s.

End setval.

(** ** The arguments of the program *)

(** An argument, or the mark between those from option files and those of the
    command line. *)
Inductive argv_elem :=
| Arg (s : list Z)
| Separator.

Definition elem_text (a : argv_elem) : list Z := match a with Arg s => s | Separator => str "----args-separator----" end.

Definition my_getopt_is_args_separator (a : argv_elem) : bool := match a with Separator => true | Arg _ => false end.

(** The switches of the library. *)
Record getopt_config := mkConfig {
  my_getopt_print_errors : bool;
  my_getopt_skip_unknown : bool;
  my_getopt_prefix_matching : bool;
  my_handle_options_init_variables : bool
}.

(** Their initial values. *)
Definition getopt_defaults : getopt_config := mkConfig true false true true.

(** The answer of [get_one_option]: whether it failed, or the end of the
    program. *)
Inductive reply (S : Type) :=
| Reply (failed : bool) (s : S)
| Exit (s : S).
Arguments Reply {S}.
Arguments Exit {S}.

(** What [handle_options] knows of a long option. *)
Record long_option := mkLong {
  l_found : nat;
  l_optp : list my_option;
  l_prev : list Z;
  l_str : list Z;
  l_len : nat;
  l_optend : argument;
  l_must_be_var : bool;
  l_set_maximum_value : bool;
  l_is_loose : bool;
  l_is_autoset : bool
}.

(** The variables of the loop: [argc], the arguments that stay, the end of the
    options, where the arguments come from and the commands not yet looked for. *)
Record run (S : Type) := mkRun {
  r_argc : Z;
  r_kept : list argv_elem;
  r_end_of_options : bool;
  r_is_cmdline_arg : bool;
  r_commands : list (list Z);
  r_state : S
}.
Arguments mkRun {S}.
Arguments r_argc {S}.
Arguments r_kept {S}.
Arguments r_end_of_options {S}.
Arguments r_is_cmdline_arg {S}.
Arguments r_commands {S}.
Arguments r_state {S}.

(** A turn of the loop goes on with the rest of the arguments, or returns, or the
    program ends. *)
Inductive turn (S : Type) :=
| Next (r : run S) (rest : list argv_elem)
| Return (code : Z) (r : run S)
| Died (s : S).
Arguments Next {S}.
Arguments Return {S}.
Arguments Died {S}.

Section handle_options.
Context {S : Type} `{Variables S} (my_progname : list Z) (getopt_double : list Z -> my_option -> Z * bool * list Z)
  (constant : Z -> list Z) (getopt_get_addr : list Z -> my_option -> Z * option var) (cfg : getopt_config)
  (longopts : list my_option) (get_one_option : option (Z -> my_option -> argument -> S -> reply S)) (ignore_unknown_option : bool).

Definition with_state (r : run S) (s : S) : run S :=
  mkRun (r_argc r) (r_kept r) (r_end_of_options r) (r_is_cmdline_arg r) (r_commands r) s.
Definition less_argc (r : run S) : run S :=
  mkRun (r_argc r - 1) (r_kept r) (r_end_of_options r) (r_is_cmdline_arg r) (r_commands r) (r_state r).
Definition keep (a : argv_elem) (r : run S) : run S :=
  mkRun (r_argc r) (r_kept r ++ [a]) (r_end_of_options r) (r_is_cmdline_arg r) (r_commands r) (r_state r).

Definition print_error (level : loglevel) (message : list Z) (r : run S) : run S :=
  if my_getopt_print_errors cfg then with_state r (report level message (r_state r)) else r.

(** The call of [get_one_option] and what follows it. *)
Definition call (o : my_option) (a : argument) (code : Z) (r : run S) (k : run S -> turn S) : turn S :=
  match get_one_option with
  | None => k r
  | Some f =>
      match f (o_id o) o a (r_state r) with
      | Exit s => Died s
      | Reply failed s => if failed then Return code (with_state r s) else k (with_state r s)
      end
  end.

(** *** Long options *)

Definition find_long (l : long_option) (r : run S) : long_option * run S :=
  let '(found, optp, prev, m) := findopt (my_getopt_prefix_matching cfg) (l_str l) (l_len l) (l_optp l) (l_prev l) in
  (mkLong found optp prev (l_str l) (l_len l) (l_optend l) (l_must_be_var l) (l_set_maximum_value l) (l_is_loose l) (l_is_autoset l),
   with_state r (put_messages m (r_state r))).

Definition special_matches (opt_str : list Z) (p : enum_special_opt * list Z) : bool :=
  let n := length p.2 in
  negb (getopt_compare_strings p.2 opt_str n) && ((at_ opt_str n =? "-"%chr) || (at_ opt_str n =? "_"%chr)).

(** The option without the prefix. *)
Definition strip_special (i : enum_special_opt) (p : list Z) (l : long_option) : long_option :=
  mkLong (l_found l) (l_optp l) (l_prev l) (drop (length p + 1) (l_str l)) (l_len l - (length p + 1)) (l_optend l) (l_must_be_var l)
    (l_set_maximum_value l) (match i with OPT_LOOSE => true | _ => l_is_loose l end) (match i with OPT_AUTOSET => true | _ => l_is_autoset l end).

(** What the prefix means, once the option is found. *)
Definition apply_special (i : enum_special_opt) (l : long_option) : long_option :=
  let zero := match l_optend l with text [c] => c =? "0"%chr | disabled_my_option => true | _ => false end in
  let optend := match i with
                | OPT_SKIP | OPT_DISABLE => if zero then enabled_my_option else disabled_my_option
                | OPT_ENABLE => if zero then disabled_my_option else enabled_my_option
                | _ => l_optend l
                end in
  mkLong (l_found l) (l_optp l) (l_prev l) (l_str l) (l_len l) optend
    (match i with OPT_MAXIMUM => true | _ => l_must_be_var l end) (match i with OPT_MAXIMUM => true | _ => l_set_maximum_value l end)
    (l_is_loose l) (l_is_autoset l).

(** The prefixes are stripped one after the other; [inl] is an error. *)
Fixpoint special_loop (fuel : nat) (l : long_option) (r : run S) : option ((Z + long_option) * run S) :=
  match fuel with
  | O => None
  | Datatypes.S fuel' =>
      match find (special_matches (l_str l)) special_opts with
      | None => Some (inr l, r)
      | Some (i, p) =>
          let '(l, r) := find_long (strip_special i p l) r in
          if (1 <? l_found l)%nat then
            Some (inl EXIT_AMBIGUOUS_OPTION,
                  print_error ERROR_LEVEL (my_progname ++ str ": ambiguous option '--" ++ p ++ str "-" ++ l_str l ++ str "' (--" ++ p ++ str "-"
                                           ++ l_prev l ++ str ")") r)
          else if (l_found l =? 1)%nat then Some (inr (apply_special i l), r)
          else special_loop fuel' l r
      end
  end.

(** The option that an argument names; [cur_arg] is the argument without the
    two dashes. *)
Definition find_long_option (cur_arg : list Z) (r : run S) : option ((Z + long_option) * run S) :=
  let '(key_name, opt_str) := check_struct_option cur_arg in
  let length := strcend opt_str "="%chr in
  let optend := match drop length opt_str with _ :: v => text v | [] => null end in
  let '(l, r) := find_long (mkLong 0 longopts [] opt_str length optend false false false false) r in
  if (l_found l =? 0)%nat then
    special_loop (Datatypes.S (List.length opt_str))
      (mkLong (l_found l) (l_optp l) (l_prev l) (l_str l) (l_len l) (l_optend l) (match optend with null => false | _ => true end) false false false) r
  else Some (inr l, r).

(** An option that is not known. *)
Definition unknown_long (arg : argv_elem) (cur_arg : list Z) (l : long_option) (rest : list argv_elem) (r : run S) : turn S :=
  let level := if l_is_loose l then WARNING_LEVEL else ERROR_LEVEL in
  if my_getopt_skip_unknown cfg then Next (keep arg r) rest
  else if l_must_be_var l then
    let r := print_error level (my_progname ++ str ": unknown variable '" ++ cur_arg ++ str "'") r in
    if negb (l_is_loose l) then Return EXIT_UNKNOWN_VARIABLE r else Next (less_argc r) rest
  else
    let r := print_error level (my_progname ++ str ": unknown option '--" ++ cur_arg ++ str "'") r in
    if negb (l_is_loose l) || ignore_unknown_option then Return EXIT_UNKNOWN_OPTION r else Next (less_argc r) rest.

(** A switch with the value that follows the equal sign, if any. *)
Definition bool_value (optend : argument) : option bool :=
  match optend with
  | null => Some true
  | a =>
      let v := arg_text a in
      if (deref v =? "1"%chr) || my_strcasecmp_eq v (str "true") || my_strcasecmp_eq v (str "on") then Some true
      else if (deref v =? "0"%chr) || my_strcasecmp_eq v (str "false") || my_strcasecmp_eq v (str "off") then Some false
      else None
  end.

Definition handle_switch (o : my_option) (value : option var) (optend : argument) (rest : list argv_elem) (r : run S) : option (turn S) :=
  let r := less_argc r in
  match bool_value optend with
  | None =>
      Some (Next (with_state r (report WARNING_LEVEL (my_progname ++ str ": ignoring option '--" ++ o_name o ++ str "' due to invalid value '"
                                                      ++ arg_text optend ++ str "'") (r_state r))) rest)
  | Some b =>
      v ← value;
      Some (call o (if b then enabled_my_option else disabled_my_option) EXIT_ARGUMENT_INVALID
              (with_state r (set_var v (VNum (Z.b2z b)) (r_state r))) (fun r => Next r rest))
  end.

(** The value is stored and the program told. *)
Definition finish_long (o : my_option) (l : long_option) (value : option var) (a : argument) (rest : list argv_elem) (r : run S) : option (turn S) :=
  '(error, s) ← (if l_is_autoset l then Some (0, r_state r)
                 else setval my_progname getopt_double o value a (l_set_maximum_value l) (r_state r));
  let r := with_state r s in
  if negb (error =? 0) && negb (l_is_loose l) then Some (Return error r)
  else Some (call o a EXIT_UNSPECIFIED_ERROR r (fun r => Next (less_argc r) rest)).

(** What is done with an option that has been found. *)
Definition handle_found (l : long_option) (o : my_option) (key_name : list Z) (rest : list argv_elem) (r : run S) : option (turn S) :=
  let level := if l_is_loose l then WARNING_LEVEL else ERROR_LEVEL in
  if bool_decide (o_var_type o = GET_DISABLED) then
    let r := if my_getopt_print_errors cfg then
               with_state r (put_err (my_progname ++ str ": " ++ (if l_is_loose l then str "WARNING" else str "ERROR") ++ str ": Option '" ++ l_str l
                                      ++ str "' used, but is disabled" ++ [10]) (r_state r)) else r in
    if l_is_loose l then Some (Next (less_argc r) rest) else Some (Return EXIT_OPTION_DISABLED r)
  else
    let '(error, value) := if o_ask_addr o then getopt_get_addr key_name o else (0, o_value o) in
    if negb (error =? 0) then Some (Return error r)
    else if bool_decide (o_arg_type o = NO_ARG) then
      if bool_decide (o_var_type o = GET_BOOL) then handle_switch o value (l_optend l) rest r
      else match l_optend l with
      | null => finish_long o l value null rest r
      | _ => Some (Return EXIT_NO_ARGUMENT_ALLOWED
                     (print_error ERROR_LEVEL (my_progname ++ str ": option '--" ++ o_name o ++ str "' cannot take an argument") r))
      end
    else if l_is_autoset l then
      match l_optend l with
      | null =>
          match get_one_option, o_auto o with
          | Some _, true => finish_long o l value autoset_my_option rest r
          | _, _ =>
              let r := with_state r (report level (my_progname ++ str ": automatic setup request is unsupported by option '--" ++ o_name o ++ str "'")
                                       (r_state r)) in
              if l_is_loose l then Some (Next r rest) else Some (Return EXIT_ARGUMENT_INVALID r)
          end
      | _ => Some (Return EXIT_NO_ARGUMENT_ALLOWED
                     (with_state r (report ERROR_LEVEL (my_progname ++ str ": automatically set option '--" ++ o_name o
                                                        ++ str "' cannot take an argument") (r_state r))))
      end
    else match o_arg_type o, l_optend l with
    | REQUIRED_ARG, null =>
        let missing := Some (Return EXIT_ARGUMENT_REQUIRED
                               (print_error ERROR_LEVEL (my_progname ++ str ": option '--" ++ o_name o ++ str "' requires an argument") r)) in
        if negb (r_is_cmdline_arg r) then missing
        else match rest with
        | [] => missing
        | a :: rest' => finish_long o l value (text (elem_text a)) rest' (less_argc r)
        end
    | _, optend => finish_long o l value optend rest r
    end.

Definition handle_long (arg : argv_elem) (cur_arg : list Z) (rest : list argv_elem) (r : run S) : option (turn S) :=
  '(x, r) ← find_long_option cur_arg r;
  match x with
  | inl code => Some (Return code r)
  | inr l =>
      if (l_found l =? 0)%nat then Some (unknown_long arg cur_arg l rest r)
      else if (1 <? l_found l)%nat then
        if l_must_be_var l then
          Some (Return EXIT_VAR_PREFIX_NOT_UNIQUE
                  (print_error ERROR_LEVEL (my_progname ++ str ": variable prefix '" ++ l_str l ++ str "' is not unique") r))
        else
          Some (Return EXIT_AMBIGUOUS_OPTION
                  (print_error ERROR_LEVEL (my_progname ++ str ": ambiguous option '--" ++ l_str l ++ str "' (" ++ l_prev l ++ str ", "
                                            ++ match l_optp l with o :: _ => o_name o | [] => [] end ++ str ")") r))
      else match l_optp l with
      | [] => None
      | o :: _ => handle_found l o (check_struct_option cur_arg).1 rest r
      end
  end.

(** *** Short options *)

(** A letter: the options with this letter, of which a switch and an option
    without its optional argument let the search go on.  The continuation gets
    whether an option was found, whether the rest of the argument was taken as
    the value, and the arguments behind it. *)
Fixpoint short_opt (opts : list my_option) (c : Z) (after : list Z) (rest : list argv_elem) (found : bool) (r : run S)
    (k : bool -> bool -> list argv_elem -> run S -> option (turn S)) : option (turn S) :=
  match opts with
  | [] => k found false rest r
  | o :: opts' =>
      if negb (negb (o_id o =? 0) && (o_id o =? c)) then short_opt opts' c after rest found r k
      else if bool_decide (o_var_type o = GET_DISABLED) then
        let r := if my_getopt_print_errors cfg then
                   with_state r (put_err (my_progname ++ str ": ERROR: Option '-" ++ [o_id o] ++ str "' used, but is disabled" ++ [10]) (r_state r)) else r in
        Some (Return EXIT_OPTION_DISABLED r)
      else
        let go_on r := match get_one_option with
                       | None => short_opt opts' c after rest true r k
                       | Some f =>
                           match f (o_id o) o null (r_state r) with
                           | Exit s => Some (Died s)
                           | Reply failed s =>
                               if failed then Some (Return EXIT_UNSPECIFIED_ERROR (with_state r s))
                               else short_opt opts' c after rest true (with_state r s) k
                           end
                       end in
        let finish a stop rest r :=
          '(error, s) ← setval my_progname getopt_double o (o_value o) a false (r_state r);
          let r := with_state r s in
          if negb (error =? 0) then Some (Return error r)
          else match get_one_option with
          | None => k true stop rest r
          | Some f =>
              match f (o_id o) o a (r_state r) with
              | Exit s => Some (Died s)
              | Reply failed s => if failed then Some (Return EXIT_UNSPECIFIED_ERROR (with_state r s)) else k true stop rest (with_state r s)
              end
          end in
        if bool_decide (o_var_type o = GET_BOOL) && bool_decide (o_arg_type o = NO_ARG) then
          v ← o_value o; go_on (with_state r (set_var v (VNum 1) (r_state r)))
        else match o_arg_type o with
        | NO_ARG => finish null false rest r
        | t =>
            match after with
            | _ :: _ => finish (text after) true rest r
            | [] =>
                match t with
                | OPT_ARG =>
                    if bool_decide (o_var_type o = GET_BOOL) && negb (o_ask_addr o) && negb (o_auto o) then v ← o_value o; go_on (with_state r (set_var v (VNum 1) (r_state r)))
                    else go_on r
                | _ =>
                    match rest with
                    | [] => Some (Return EXIT_ARGUMENT_REQUIRED
                                    (print_error ERROR_LEVEL (my_progname ++ str ": option '-" ++ [o_id o] ++ str "' requires an argument") r))
                    | a :: rest' => finish (text (elem_text a)) false rest' (less_argc r)
                    end
                end
            end
        end
  end.

(** The letters of an argument; [found] is that of the letter before. *)
Fixpoint short_loop (chars : list Z) (rest : list argv_elem) (found : bool) (r : run S) : option (turn S) :=
  match chars with
  | [] => Some (Next (if found then less_argc r else r) rest)
  | c :: chars' =>
      short_opt longopts c chars' rest false r (fun found stop rest r =>
        if found then if stop then Some (Next (less_argc r) rest) else short_loop chars' rest true r
        else if my_getopt_skip_unknown cfg then Some (Next (keep (Arg (str "-" ++ c :: chars')) r) rest)
        else Some (Return EXIT_UNKNOWN_OPTION (print_error ERROR_LEVEL (my_progname ++ str ": unknown option '-" ++ [c] ++ str "'") r)))
  end.

(** *** The loop *)

(** An argument that is not an option.  A command ends the work, and the
    commands that have been compared are not looked for again. *)
Fixpoint drop_commands (commands : list (list Z)) (a : list Z) : bool * list (list Z) :=
  match commands with
  | [] => (false, [])
  | c :: commands' => if bool_decide (c = a) then (true, commands) else drop_commands commands' a
  end.

Definition handle_plain (arg : argv_elem) (rest : list argv_elem) (r : run S) : turn S :=
  let '(hit, commands) := drop_commands (r_commands r) (elem_text arg) in
  let r := mkRun (r_argc r) (r_kept r ++ [arg]) (r_end_of_options r) (r_is_cmdline_arg r) commands (r_state r) in
  if hit then Return 0 (mkRun (r_argc r) (r_kept r ++ rest) (r_end_of_options r) (r_is_cmdline_arg r) commands (r_state r)) else Next r rest.

Definition handle_arg (arg : argv_elem) (rest : list argv_elem) (r : run S) : option (turn S) :=
  if negb (r_is_cmdline_arg r) && my_getopt_is_args_separator arg then
    let r := mkRun (r_argc r) (r_kept r) (r_end_of_options r) true (r_commands r) (r_state r) in
    Some (Next (if my_getopt_skip_unknown cfg then keep arg r else less_argc r) rest)
  else match elem_text arg with
  | d :: c :: chars =>
      if (d =? "-"%chr) && negb (r_end_of_options r) then
        if c =? "-"%chr then
          match chars with
          | [] => Some (Next (mkRun (r_argc r - 1) (r_kept r) true (r_is_cmdline_arg r) (r_commands r) (r_state r)) rest)
          | _ => handle_long arg chars rest r
          end
        else short_loop (c :: chars) rest false r
      else Some (handle_plain arg rest r)
  | _ => Some (handle_plain arg rest r)
  end.

Fixpoint handle_loop (fuel : nat) (args : list argv_elem) (r : run S) : option (turn S) :=
  match args with
  | [] => Some (Return 0 r)
  | arg :: rest =>
      match fuel with
      | O => None
      | Datatypes.S fuel' =>
          t ← handle_arg arg rest r;
          match t with Next r rest => handle_loop fuel' rest r | _ => Some t end
      end
  end.

(** The arguments behind the name of the program. *)
Definition ob_handle_options (commands : list (list Z)) (argv : list argv_elem) (s : S) : option (turn S) :=
  let s := if my_handle_options_init_variables cfg then init_variables getopt_get_addr longopts (init_one_value constant) s else s in
  handle_loop (length argv) argv
    (mkRun (Z.of_nat (length argv)) [] false (negb (existsb my_getopt_is_args_separator argv)) commands s).

End handle_options.

Definition handle_options {S} `{Variables S} my_progname getopt_double constant getopt_get_addr cfg longopts get_one_option (argv : list argv_elem) (s : S) :=
  ob_handle_options my_progname getopt_double constant getopt_get_addr cfg longopts get_one_option false [] argv s.
