(* ===== verification/GetOptParse.v ===== *)
(** * What a command line means

    A command line is a list of settings and plain arguments, written in any of
    the forms that the library accepts.  The theorem says that
    [handle_options] does what the settings say, in their order, and leaves
    exactly the plain arguments. *)

From stdpp Require Import base list numbers strings.
From S2P Require Import Prelude CString Charset Numbers Typelib GetOpt.
Open Scope Z_scope.

(** ** Settings *)

Inductive item :=
| LongEq (o : my_option) (v : list Z)
| LongNext (o : my_option) (v : list Z)
| Long (o : my_option)
| Special (i : enum_special_opt) (p : list Z) (o : my_option)
| ShortArg (o : my_option) (v : list Z)
| ShortNext (o : my_option) (v : list Z)
| Short (os : list my_option)
| Plain (a : list Z).

Definition render (i : item) : list argv_elem :=
  match i with
  | LongEq o v => [Arg (str "--" ++ o_name o ++ str "=" ++ v)]
  | LongNext o v => [Arg (str "--" ++ o_name o); Arg v]
  | Long o => [Arg (str "--" ++ o_name o)]
  | Special _ p o => [Arg (str "--" ++ p ++ str "-" ++ o_name o)]
  | ShortArg o v => [Arg (str "-" ++ o_id o :: v)]
  | ShortNext o v => [Arg (str "-" ++ [o_id o]); Arg v]
  | Short os => [Arg (str "-" ++ map o_id os)]
  | Plain a => [Arg a]
  end.

Definition plain (i : item) : list argv_elem := match i with Plain a => [Arg a] | _ => [] end.

(** What a setting does: it goes on, or an error or the end of the program. *)
Inductive outcome (S : Type) :=
| Goes (s : S)
| Fails (code : Z) (s : S)
| Ends (s : S).
Arguments Goes {S}.
Arguments Fails {S}.
Arguments Ends {S}.

Section meaning.
Context {S : Type} `{Variables S} (my_progname : list Z) (getopt_double : list Z -> my_option -> Z * bool * list Z)
  (get_one_option : Z -> my_option -> argument -> S -> reply S).

Definition tell (o : my_option) (a : argument) (code : Z) (s : S) : outcome S :=
  match get_one_option (o_id o) o a s with
  | Exit s => Ends s
  | Reply failed s => if failed then Fails code s else Goes s
  end.

(** The value is stored and the program told. *)
Definition set_value (o : my_option) (a : argument) (s : S) : option (outcome S) :=
  '(error, s) ← setval my_progname getopt_double o (o_value o) a false s;
  if negb (error =? 0) then Some (Fails error s) else Some (tell o a EXIT_UNSPECIFIED_ERROR s).

(** A switch is set to a value. *)
Definition set_switch (o : my_option) (a : argument) (s : S) : option (outcome S) :=
  match bool_value a with
  | None => Some (Goes (report WARNING_LEVEL (my_progname ++ str ": ignoring option '--" ++ o_name o ++ str "' due to invalid value '"
                                              ++ arg_text a ++ str "'") s))
  | Some b =>
      v ← o_value o;
      Some (tell o (if b then enabled_my_option else disabled_my_option) EXIT_ARGUMENT_INVALID (set_var v (VNum (Z.b2z b)) s))
  end.

Definition is_switch (o : my_option) : bool := bool_decide (o_var_type o = GET_BOOL) && bool_decide (o_arg_type o = NO_ARG).

(** A letter without a value: switches are set and the program is told without an argument. *)
Definition letter (o : my_option) (s : S) : option (outcome S) :=
  if is_switch o then v ← o_value o; Some (tell o null EXIT_UNSPECIFIED_ERROR (set_var v (VNum 1) s))
  else match o_arg_type o with
  | OPT_ARG =>
      if bool_decide (o_var_type o = GET_BOOL) && negb (o_ask_addr o) && negb (o_auto o)
      then v ← o_value o; Some (tell o null EXIT_UNSPECIFIED_ERROR (set_var v (VNum 1) s))
      else Some (tell o null EXIT_UNSPECIFIED_ERROR s)
  | _ => set_value o null s
  end.

Fixpoint letters (os : list my_option) (s : S) : option (outcome S) :=
  match os with
  | [] => Some (Goes s)
  | o :: os' => x ← letter o s; match x with Goes s => letters os' s | _ => Some x end
  end.

(** The value that a prefix gives. *)
Definition special_value (i : enum_special_opt) : argument :=
  match i with OPT_SKIP | OPT_DISABLE => disabled_my_option | OPT_ENABLE => enabled_my_option | _ => null end.

Definition meaning (i : item) (s : S) : option (outcome S) :=
  match i with
  | LongEq o v => if is_switch o then set_switch o (text v) s else set_value o (text v) s
  | LongNext o v => set_value o (text v) s
  | Long o => if is_switch o then set_switch o null s else set_value o null s
  | Special i _ o => if is_switch o then set_switch o (special_value i) s else set_value o (special_value i) s
  | ShortArg o v => set_value o (text v) s
  | ShortNext o v => set_value o (text v) s
  | Short os => letters os s
  | Plain _ => Some (Goes s)
  end.

Fixpoint meanings (items : list item) (s : S) : option (outcome S) :=
  match items with
  | [] => Some (Goes s)
  | i :: items' => x ← meaning i s; match x with Goes s => meanings items' s | _ => Some x end
  end.

End meaning.

(** ** Well-formed command lines *)

Section forms.
Context (longopts : list my_option) (prefix_matching : bool).

(** An option that its name stands for; its address is not asked for and it is
    not disabled. *)
Definition named (o : my_option) : bool :=
  let n := o_name o in
  negb (bool_decide (n = [])) && forallb is_char n && forallb (fun c => negb (c =? "="%chr) && negb (c =? "."%chr)) n
  && match list_find (fun p => map dash (o_name p) = map dash n) longopts with Some (_, p) => bool_decide (p = o) | None => false end
  && negb (o_ask_addr o) && negb (bool_decide (o_var_type o = GET_DISABLED)).

(** An option that its letter stands for. *)
Definition lettered (o : my_option) : bool :=
  (32 <? o_id o) && (o_id o <? 256) && negb (o_id o =? "-"%chr)
  && bool_decide (filter (fun p => o_id p = o_id o) longopts = [o]) && negb (bool_decide (o_var_type o = GET_DISABLED)).

Definition takes (o : my_option) (t : get_opt_arg_type) : bool := bool_decide (o_arg_type o = t).

(** Letters that can be written together: only the last one may be of an option
    that takes a value. *)
Fixpoint cluster (os : list my_option) : bool :=
  match os with
  | [] => true
  | [o] => lettered o && negb (takes o REQUIRED_ARG)
  | o :: os' => lettered o && takes o NO_ARG && cluster os'
  end.

Definition prefixed (i : enum_special_opt) (p n : list Z) : bool :=
  match i with OPT_SKIP | OPT_DISABLE | OPT_ENABLE => true | _ => false end
  && bool_decide (find (special_matches (p ++ str "-" ++ n)) special_opts = Some (i, p))
  && forallb is_char p && forallb (fun c => negb (c =? "="%chr) && negb (c =? "."%chr)) p
  && forallb (fun o => getopt_compare_strings (o_name o) (p ++ str "-" ++ n) (length (p ++ str "-" ++ n))) longopts.

Definition well_formed (i : item) : bool :=
  match i with
  | LongEq o v => named o && (is_switch o || negb (takes o NO_ARG))
  | LongNext o v => named o && takes o REQUIRED_ARG
  | Long o => named o && negb (takes o REQUIRED_ARG)
  | Special i p o => named o && (is_switch o || negb (takes o NO_ARG)) && prefixed i p (o_name o)
  | ShortArg o v => lettered o && negb (takes o NO_ARG) && negb (bool_decide (v = []))
  | ShortNext o v => lettered o && takes o REQUIRED_ARG
  | Short os => negb (bool_decide (os = [])) && cluster os
  | Plain a => negb ((deref a =? "-"%chr) && (1 <? length a)%nat)
  end.

End forms.

(** ** Names *)

Lemma dash_nz c : is_char c = true -> dash c <> 0.
Proof. intros [H1%Z.leb_le H2%Z.leb_le]%andb_true_iff. unfold dash. destruct (c =? "-"%chr); lia. Qed.

Lemma compare_spec n : forall s t, (n <= length t)%nat -> forallb is_char (take n t) = true ->
  getopt_compare_strings s t n = negb (bool_decide (map dash (take n s) = map dash (take n t))).
Proof.
  induction n as [|n IH]; intros s t Hn Ht; [done|]. destruct t as [|c t]; [cbn in Hn; lia|]. cbn [take forallb] in Ht.
  apply andb_true_iff in Ht as [Hc Ht]. cbn [getopt_compare_strings deref nth drop take map]. rewrite drop_0.
  destruct s as [|d s]; cbn [deref nth drop take map].
  - pose proof (dash_nz c Hc) as Hd. change (dash 0) with 0. rewrite (proj2 (Z.eqb_neq 0 (dash c))) by done. by rewrite bool_decide_false.
  - rewrite drop_0. destruct (Z.eqb_spec (dash d) (dash c)) as [He|He]; cbn [negb]; [|rewrite bool_decide_false; [done|congruence]].
    rewrite IH by (done || (cbn in Hn; lia)). f_equal. apply bool_decide_ext. rewrite He. split; congruence.
Qed.

Lemma at_string_end s n : forallb is_char s = true -> (at_ s n =? 0) = (length s <=? n)%nat.
Proof.
  intros Hs. unfold at_. destruct (Nat.leb_spec (length s) n) as [Hl|Hl]; [by rewrite nth_overflow|].
  destruct (lookup_lt_is_Some_2 s n Hl) as [c Hc]. rewrite (nth_lookup_Some _ _ _ _ Hc). rewrite forallb_forall in Hs.
  specialize (Hs c). rewrite <-list_elem_of_In in Hs. specialize (Hs (list_elem_of_lookup_2 _ _ _ Hc)). apply Z.eqb_neq. unfold is_char in Hs. lia.
Qed.

Lemma strcend_app n t c : forallb (fun x => negb (x =? c)) n = true -> strcend (n ++ t) c = (length n + strcend t c)%nat.
Proof. induction n as [|x n IH]; [done|]. cbn. rewrite andb_true_iff. intros [Hx Hn]. destruct (x =? c); [done|]. by rewrite IH. Qed.

Section find.
Context (longopts : list my_option) (Htable : forallb (fun o => forallb is_char (o_name o)) longopts = true) (pm : bool).

Lemma findopt_named o tl l : forall res count ff k, forallb is_char (o_name o) = true ->
  forallb (fun o => forallb is_char (o_name o)) l = true ->
  list_find (fun p => map dash (o_name p) = map dash (o_name o)) l = Some (k, o) ->
  exists post ff', findopt_loop pm (o_name o ++ tl) (length (o_name o)) l res count ff = (1%nat, o :: post, ff', []).
Proof.
  induction l as [|p l IH]; intros res count ff k Ho Hl Hk; [done|]. cbn [forallb] in Hl. apply andb_true_iff in Hl as [Hp Hl].
  cbn [findopt_loop list_find] in *. rewrite compare_spec, take_app_length by (rewrite ?length_app, ?take_app_length; done || lia).
  rewrite at_string_end by done. destruct (decide (map dash (o_name p) = map dash (o_name o))) as [He|He].
  - injection Hk as _ ->. rewrite take_ge, bool_decide_true, Nat.leb_refl by done. cbn. eauto.
  - destruct (list_find _ l) as [[k' o']|] eqn:El; [|done]. cbn in Hk. injection Hk as _ ->.
    destruct (bool_decide_reflect (map dash (take (length (o_name o)) (o_name p)) = map dash (o_name o))) as [Hpre|Hpre]; cbn [negb]; [|by eapply IH].
    destruct (Nat.leb_spec (length (o_name p)) (length (o_name o))) as [Hlen|Hlen]; [by rewrite take_ge in Hpre|].
    destruct pm; cbn [negb]; [|by eapply IH]. destruct (count =? 0)%nat; [by eapply IH|]. destruct (bool_decide _); by eapply IH.
Qed.

Lemma findopt_none pat n l : forall res ff, forallb (fun o => getopt_compare_strings (o_name o) pat n) l = true ->
  findopt_loop pm pat n l res 0 ff = (0%nat, res, ff, []).
Proof.
  induction l as [|p l IH]; intros res ff Hl; [done|]. cbn [forallb findopt_loop] in *. apply andb_true_iff in Hl as [-> Hl]. by apply IH.
Qed.

Definition plain_name (n : list Z) : bool := forallb (fun c => negb (c =? "="%chr) && negb (c =? "."%chr)) n.

Lemma plain_no n c : plain_name n = true -> c = "="%chr \/ c = "."%chr -> forallb (fun x => negb (x =? c)) n = true.
Proof.
  unfold plain_name. rewrite !forallb_forall. intros Hn Hc x Hx. specialize (Hn x Hx). apply andb_true_iff in Hn as [H1 H2]. by destruct Hc as [->| ->].
Qed.

(** The name of an option ends at the equal sign, and is not that of a member of
    a structure. *)
Lemma struct_none n tl : plain_name n = true -> n <> [] -> tl = [] \/ deref tl = "="%chr -> check_struct_option (n ++ tl) = ([], n ++ tl).
Proof.
  intros Hn Hne Htl. unfold check_struct_option. rewrite (strcend_app n tl "="%chr) by (apply plain_no; [done|by left]).
  destruct n as [|c n]; [done|]. cbn [app drop]. rewrite drop_0.
  assert (Hn' : plain_name n = true) by (cbn in Hn; by apply andb_true_iff in Hn as [_ ?]).
  rewrite (strcend_app n tl "."%chr) by (apply plain_no; [done|by right]).
  assert (strcend tl "="%chr = O) as -> by (destruct Htl as [->|Htl]; [done|]; destruct tl as [|d tl]; [done|]; cbn in Htl |- *; by rewrite Htl).
  cbn [length]. by rewrite (proj2 (Nat.ltb_ge _ _)) by lia.
Qed.

End find.

(** ** One argument *)

Section handle.
Context {S : Type} `{Variables S} (my_progname : list Z) (getopt_double : list Z -> my_option -> Z * bool * list Z)
  (constant : Z -> list Z) (getopt_get_addr : list Z -> my_option -> Z * option var) (cfg : getopt_config)
  (longopts : list my_option) (get_one_option : Z -> my_option -> argument -> S -> reply S)
  (Htable : forallb (fun o => forallb is_char (o_name o)) longopts = true).

Abbreviation handle_long := (handle_long my_progname getopt_double getopt_get_addr cfg longopts (Some get_one_option) false).
Abbreviation handle_found := (handle_found my_progname getopt_double getopt_get_addr cfg (Some get_one_option)).
Abbreviation handle_arg := (handle_arg my_progname getopt_double getopt_get_addr cfg longopts (Some get_one_option) false).
Abbreviation finish_long := (finish_long my_progname getopt_double (Some get_one_option)).
Abbreviation handle_switch := (handle_switch my_progname (Some get_one_option)).
Abbreviation short_opt := (short_opt my_progname getopt_double cfg (Some get_one_option)).
Abbreviation short_loop := (short_loop my_progname getopt_double cfg longopts (Some get_one_option)).
Abbreviation set := (set_value my_progname getopt_double get_one_option).
Abbreviation switch := (set_switch my_progname get_one_option).

(** The state of the loop on a command line. *)
Definition at_work (argc : Z) (kept : list argv_elem) (s : S) : run S := mkRun argc kept false true [] s.

(** A turn of the loop does what a setting says. *)
Definition agrees (t : option (turn S)) (x : option (outcome S)) (argc : Z) (kept : list argv_elem) (rest : list argv_elem) : Prop :=
  match x with
  | None => t = None
  | Some (Goes s) => t = Some (Next (at_work argc kept s) rest)
  | Some (Fails code s) => exists r, t = Some (Return code r) /\ r_state r = s
  | Some (Ends s) => t = Some (Died s)
  end.

Definition found_option (l : long_option) : Prop := l_set_maximum_value l = false /\ l_is_loose l = false /\ l_is_autoset l = false.

Lemma finish_long_spec o l a argc kept s rest : found_option l ->
  agrees (finish_long o l (o_value o) a rest (at_work argc kept s)) (set o a s) (argc - 1) kept rest.
Proof.
  intros (Hm & Hl & Ha). unfold GetOpt.finish_long, set_value, tell, call. rewrite Hm, Hl, Ha.
  cbn [at_work r_state]. destruct (setval my_progname getopt_double o (o_value o) a false s) as [[error s']|]; [|done]. cbn [mbind option_bind].
  rewrite andb_true_r. destruct (negb (error =? 0)); [eexists; split; [reflexivity|done]|]. cbn [with_state r_state at_work].
  destruct (get_one_option (o_id o) o a s') as [[] s''|s'']; cbn; [eexists; split; [reflexivity|done]|done|done].
Qed.

Lemma handle_switch_spec o a argc kept s rest :
  agrees (handle_switch o (o_value o) a rest (at_work argc kept s)) (switch o a s) (argc - 1) kept rest.
Proof.
  unfold GetOpt.handle_switch, set_switch, call, tell. destruct (bool_value a) as [b|]; [|done].
  destruct (o_value o) as [v|]; [|done]. cbn [mbind option_bind with_state less_argc at_work r_state].
  destruct (get_one_option (o_id o) o _ _) as [[] s''|s'']; cbn; [eexists; split; [reflexivity|done]|done|done].
Qed.

Lemma named_facts o : named longopts o = true ->
  o_name o <> [] /\ forallb is_char (o_name o) = true /\ plain_name (o_name o) = true /\ o_ask_addr o = false /\ o_var_type o <> GET_DISABLED
  /\ exists k, list_find (fun p => map dash (o_name p) = map dash (o_name o)) longopts = Some (k, o).
Proof.
  unfold named. rewrite !andb_true_iff, !negb_true_iff, !bool_decide_eq_false. intros [[[[[H1 H2] H3] H4] H5] H6]. split_and!; try done.
  destruct (list_find _ longopts) as [[k p]|]; [|done]. apply bool_decide_eq_true in H4 as ->. eauto.
Qed.

Definition optend_of (tl : list Z) : argument := match tl with [] => null | _ :: v => text v end.

Lemma handle_long_named o tl arg rest argc kept s : named longopts o = true -> tl = [] \/ deref tl = "="%chr ->
  exists post ff, handle_long arg (o_name o ++ tl) rest (at_work argc kept s)
  = handle_found (mkLong 1 (o :: post) ff (o_name o ++ tl) (length (o_name o)) (optend_of tl) false false false false) o [] rest (at_work argc kept s).
Proof.
  intros Ho Htl. destruct (named_facts o Ho) as (Hne & Hc & Hp & _ & _ & k & Hk).
  destruct (findopt_named (my_getopt_prefix_matching cfg) o tl longopts longopts 0 [] k Hc Htable Hk) as (post & ff & Hf).
  exists post, ff. unfold GetOpt.handle_long, find_long_option. rewrite struct_none by done.
  rewrite strcend_app by (apply plain_no; [done|by left]).
  assert (strcend tl "="%chr = O) as -> by (destruct Htl as [->|Htl]; [done|]; destruct tl as [|d tl]; [done|]; cbn in Htl |- *; by rewrite Htl).
  rewrite Nat.add_0_r, drop_app_length. unfold find_long, findopt. cbn [l_str l_len l_optp l_prev]. rewrite Hf. cbn.
  by destruct tl.
Qed.

(** A long option with what follows its name. *)
Lemma handle_found_spec o l rest argc kept s : named longopts o = true -> found_option l -> l_optend l <> null -> is_switch o || negb (takes o NO_ARG) = true ->
  agrees (handle_found l o [] rest (at_work argc kept s)) (if is_switch o then switch o (l_optend l) s else set o (l_optend l) s) (argc - 1) kept rest.
Proof.
  intros Ho Hl Hend Hs. destruct (named_facts o Ho) as (_ & _ & _ & Hask & Hd & _). unfold GetOpt.handle_found.
  rewrite bool_decide_false by done. rewrite Hask. cbn [Z.eqb negb]. destruct Hl as (Hm & Hlo & Hau). unfold is_switch, takes in *.
  destruct (bool_decide_reflect (o_arg_type o = NO_ARG)) as [Hn|Hn].
  - rewrite andb_true_r in *. destruct (bool_decide (o_var_type o = GET_BOOL)); [|done]. apply handle_switch_spec.
  - rewrite andb_false_r, Hau. destruct (o_arg_type o); [done| |]; destruct (l_optend l); try done; by apply finish_long_spec.
Qed.

Lemma handle_found_bare o l rest argc kept s : named longopts o = true -> found_option l -> l_optend l = null -> takes o REQUIRED_ARG = false ->
  agrees (handle_found l o [] rest (at_work argc kept s)) (if is_switch o then switch o null s else set o null s) (argc - 1) kept rest.
Proof.
  intros Ho Hl Hend Hs. destruct (named_facts o Ho) as (_ & _ & _ & Hask & Hd & _). unfold GetOpt.handle_found.
  rewrite bool_decide_false by done. rewrite Hask, Hend. cbn [Z.eqb negb]. pose proof Hl as (Hm & Hlo & Hau). unfold is_switch, takes in *.
  destruct (bool_decide_reflect (o_arg_type o = NO_ARG)) as [Hn|Hn].
  - rewrite andb_true_r in *. destruct (bool_decide (o_var_type o = GET_BOOL)); [apply handle_switch_spec|by apply finish_long_spec].
  - rewrite andb_false_r, Hau. destruct (o_arg_type o); [done| |done]. by apply finish_long_spec.
Qed.

Lemma handle_found_next o l rest argc kept s v : named longopts o = true -> found_option l -> l_optend l = null -> takes o REQUIRED_ARG = true ->
  agrees (handle_found l o [] (Arg v :: rest) (at_work argc kept s)) (set o (text v) s) (argc - 2) kept rest.
Proof.
  intros Ho Hl Hend Hs. destruct (named_facts o Ho) as (_ & _ & _ & Hask & Hd & _). unfold GetOpt.handle_found.
  rewrite bool_decide_false by done. rewrite Hask, Hend. cbn [Z.eqb negb]. pose proof Hl as (Hm & Hlo & Hau). unfold takes in *.
  apply bool_decide_eq_true in Hs. rewrite Hs, Hau. cbn [bool_decide decide]. rewrite bool_decide_false by done. cbn [r_is_cmdline_arg at_work negb elem_text].
  replace (argc - 2) with (argc - 1 - 1) by lia. by apply (finish_long_spec o l (text v) (argc - 1) kept s rest).
Qed.

Lemma handle_arg_long cur rest argc kept s : cur <> [] ->
  handle_arg (Arg (str "--" ++ cur)) rest (at_work argc kept s) = handle_long (Arg (str "--" ++ cur)) cur rest (at_work argc kept s).
Proof. by destruct cur. Qed.

Lemma handle_special i p o rest argc kept s : named longopts o = true -> prefixed longopts i p (o_name o) = true ->
  exists l, handle_long (Arg (str "--" ++ p ++ str "-" ++ o_name o)) (p ++ str "-" ++ o_name o) rest (at_work argc kept s)
    = handle_found l o [] rest (at_work argc kept s) /\ found_option l /\ l_optend l = special_value i.
Proof.
  intros Ho Hx. destruct (named_facts o Ho) as (Hne & Hc & Hp & _ & _ & k & Hk). unfold prefixed in Hx. rewrite !andb_true_iff in Hx.
  destruct Hx as [[[[Hi Hfind%bool_decide_eq_true] Hpc] Hpp] Hnone].
  destruct (findopt_named (my_getopt_prefix_matching cfg) o [] longopts longopts 0 [] k Hc Htable Hk) as (post & ff & Hf). rewrite app_nil_r in Hf.
  assert (Hplain : plain_name (p ++ str "-" ++ o_name o) = true) by (unfold plain_name; rewrite !forallb_app, Hpp; cbn; apply Hp).
  exists (apply_special i (mkLong 1 (o :: post) ff (o_name o) (length (o_name o)) null false false false false)).
  split; [|by destruct i]. unfold GetOpt.handle_long, find_long_option.
  pose proof (struct_none (p ++ str "-" ++ o_name o) [] Hplain ltac:(by destruct p) ltac:(by left)) as Hst. rewrite app_nil_r in Hst. rewrite Hst.
  pose proof (strcend_app (p ++ str "-" ++ o_name o) [] "="%chr ltac:(apply plain_no; [done|by left])) as Hce. rewrite app_nil_r in Hce. rewrite Hce.
  cbn [strcend]. rewrite Nat.add_0_r, drop_all. unfold find_long at 1, findopt. cbn [l_str l_len l_optp l_prev]. rewrite findopt_none by done.
  cbn [l_found l_optp l_prev l_str l_len l_optend Nat.eqb special_loop]. rewrite Hfind.
  unfold find_long, strip_special, findopt. cbn [l_str l_len l_optp l_prev l_optend l_must_be_var l_set_maximum_value l_is_loose l_is_autoset].
  assert (drop (length p + 1) (p ++ str "-" ++ o_name o) = o_name o) as -> by (by rewrite <-drop_drop, drop_app_length).
  assert (length (p ++ str "-" ++ o_name o) - (length p + 1) = length (o_name o))%nat as -> by (rewrite !length_app; cbn; lia).
  rewrite Hf. destruct i; try done.
Qed.

(** *** Letters *)

Lemma filter_single {A} (P : A -> Prop) `{forall x, Decision (P x)} (l : list A) x : filter P l = [x] ->
  exists pre post, l = pre ++ x :: post /\ Forall (fun y => ~ P y) pre /\ Forall (fun y => ~ P y) post.
Proof.
  induction l as [|y l IH]; [done|]. destruct (decide (P y)) as [Hy|Hy].
  - rewrite filter_cons_True by done. intros [= -> Hl]. exists [], l. split; [done|]. split; [constructor|]. apply Forall_forall. intros z Hz HP.
    assert (z ∈ filter P l) as Hf by (by apply list_elem_of_filter). rewrite Hl in Hf. by apply not_elem_of_nil in Hf.
  - rewrite filter_cons_False by done. intros (pre & post & -> & H1 & H2)%IH. exists (y :: pre), post. split; [done|]. split; [by constructor|done].
Qed.

Lemma short_skip c after rest found r k l l' : Forall (fun p => ~ o_id p = c) l ->
  short_opt (l ++ l') c after rest found r k = short_opt l' c after rest found r k.
Proof.
  induction 1 as [|p l Hp Hl IH]; [done|]. cbn [app GetOpt.short_opt]. rewrite (proj2 (Z.eqb_neq (o_id p) c) Hp), andb_false_r. cbn [negb]. apply IH.
Qed.

(** What follows a letter. *)
Definition then_ (x : option (outcome S)) (r : run S) (k : run S -> option (turn S)) (t : option (turn S)) : Prop :=
  match x with
  | None => t = None
  | Some (Goes s) => t = k (with_state r s)
  | Some (Fails code s) => exists r', t = Some (Return code r') /\ r_state r' = s
  | Some (Ends s) => t = Some (Died s)
  end.

Lemma lettered_facts o : lettered longopts o = true ->
  0 < o_id o /\ o_id o <> "-"%chr /\ o_var_type o <> GET_DISABLED
  /\ exists pre post, longopts = pre ++ o :: post /\ Forall (fun p => ~ o_id p = o_id o) pre /\ Forall (fun p => ~ o_id p = o_id o) post.
Proof.
  unfold lettered. rewrite !andb_true_iff, !negb_true_iff, Z.ltb_lt, Z.eqb_neq, bool_decide_eq_true, bool_decide_eq_false.
  intros [[[[H1 H2] H3] H4] H5]. split_and!; [lia|done|done|]. by apply (filter_single (fun p => o_id p = o_id o)).
Qed.

Lemma short_opt_letter o after rest r k : lettered longopts o = true -> takes o NO_ARG = true \/ (after = [] /\ takes o REQUIRED_ARG = false) ->
  then_ (letter my_progname getopt_double get_one_option o (r_state r)) r (k true false rest) (short_opt longopts (o_id o) after rest false r k).
Proof.
  intros Ho Ht. destruct (lettered_facts o Ho) as (Hpos & _ & Hd & pre & post & El & Hpre & Hpost). rewrite El, short_skip by done.
  cbn [GetOpt.short_opt]. rewrite (proj2 (Z.eqb_neq (o_id o) 0)), Z.eqb_refl by lia. cbn [negb andb]. rewrite bool_decide_false by done.
  assert (Hrest : forall found r, short_opt post (o_id o) after rest found r k = k found false rest r).
  { intros found r'. rewrite <-(app_nil_r post). by rewrite short_skip. }
  assert (Hgo : forall r',
    then_ (Some (tell get_one_option o null EXIT_UNSPECIFIED_ERROR (r_state r'))) r' (k true false rest)
      match get_one_option (o_id o) o null (r_state r') with
      | Exit s => Some (Died s)
      | Reply failed s =>
          if failed then Some (Return EXIT_UNSPECIFIED_ERROR (with_state r' s)) else short_opt post (o_id o) after rest true (with_state r' s) k
      end).
  { intros r'. unfold tell. destruct (get_one_option (o_id o) o null (r_state r')) as [[] s'|s']; cbn; [eauto|apply Hrest|done]. }
  unfold letter, is_switch, takes in *.
  destruct (o_arg_type o) eqn:Ea; [| |destruct Ht as [Ht|[_ Ht]]; by apply bool_decide_eq_true in Ht || by apply bool_decide_eq_false in Ht].
  - rewrite (bool_decide_true (NO_ARG = NO_ARG)) by done. destruct (bool_decide (o_var_type o = GET_BOOL)); cbn [andb].
    + destruct (o_value o) as [v|]; [|done]. cbn [mbind option_bind]. apply (Hgo (with_state r (set_var v (VNum 1) (r_state r)))).
    + unfold set_value, tell. destruct (setval my_progname getopt_double o (o_value o) null false (r_state r)) as [[error s']|]; [|done].
      cbn [mbind option_bind]. destruct (negb (error =? 0)); cbn [then_]; [eauto|]. cbn [with_state r_state].
      destruct (get_one_option (o_id o) o null s') as [[] s''|s'']; cbn; [eauto|done|done].
  - destruct Ht as [Ht|[-> _]]; [by apply bool_decide_eq_true in Ht|]. rewrite (bool_decide_false (OPT_ARG = NO_ARG)), andb_false_r by done.
    destruct (_ && _); [|apply Hgo]. destruct (o_value o) as [v|]; [|done]. cbn [mbind option_bind].
    apply (Hgo (with_state r (set_var v (VNum 1) (r_state r)))).
Qed.

(** A letter with its value, in the same argument or the next one. *)
Lemma short_opt_value o v after rest rest' stop r r' k : lettered longopts o = true -> takes o NO_ARG = false ->
  (after = v /\ v <> [] /\ rest = rest' /\ r' = r /\ stop = true)
  \/ (after = [] /\ rest = Arg v :: rest' /\ takes o REQUIRED_ARG = true /\ r' = less_argc r /\ stop = false) ->
  then_ (set o (text v) (r_state r)) r' (k true stop rest') (short_opt longopts (o_id o) after rest false r k).
Proof.
  intros Ho Ht Hv. destruct (lettered_facts o Ho) as (Hpos & _ & Hd & pre & post & El & Hpre & Hpost). rewrite El, short_skip by done.
  cbn [GetOpt.short_opt]. rewrite (proj2 (Z.eqb_neq (o_id o) 0)), Z.eqb_refl by lia. cbn [negb andb]. rewrite bool_decide_false by done.
  unfold takes in Ht. rewrite Ht, andb_false_r.
  assert (Hfin : then_ (set o (text v) (r_state r')) r' (k true stop rest')
    ('(error, s) ← setval my_progname getopt_double o (o_value o) (text v) false (r_state r');
     if negb (error =? 0) then Some (Return error (with_state r' s))
     else match get_one_option (o_id o) o (text v) s with
          | Exit s => Some (Died s)
          | Reply failed s => if failed then Some (Return EXIT_UNSPECIFIED_ERROR (with_state r' s)) else k true stop rest' (with_state r' s)
          end)).
  { unfold set_value, tell. destruct (setval my_progname getopt_double o (o_value o) (text v) false (r_state r')) as [[error s']|]; [|done].
    cbn [mbind option_bind]. destruct (negb (error =? 0)); cbn [then_]; [eauto|].
    destruct (get_one_option (o_id o) o (text v) s') as [[] s''|s'']; cbn; [eauto|done|done]. }
  destruct Hv as [(-> & Hne & -> & -> & ->) | (-> & -> & Hq & -> & ->)].
  - destruct v as [|c v]; [done|]. destruct (o_arg_type o); [done|apply Hfin|apply Hfin].
  - unfold takes in Hq. apply bool_decide_eq_true in Hq. rewrite Hq. apply Hfin.
Qed.

(** What the loop over the letters does after one. *)
Definition after_letter (c : Z) (chars : list Z) (found stop : bool) (rest : list argv_elem) (r : run S) : option (turn S) :=
  if found then if stop then Some (Next (less_argc r) rest) else short_loop chars rest true r
  else if my_getopt_skip_unknown cfg then Some (Next (keep (Arg (str "-" ++ c :: chars)) r) rest)
  else Some (Return EXIT_UNKNOWN_OPTION (print_error cfg ERROR_LEVEL (my_progname ++ str ": unknown option '-" ++ [c] ++ str "'") r)).

Lemma short_loop_cons c chars rest found r :
  short_loop (c :: chars) rest found r = short_opt longopts c chars rest false r (after_letter c chars).
Proof. done. Qed.

Lemma short_loop_cluster os : forall rest found argc kept s, cluster longopts os = true -> os <> [] ->
  agrees (short_loop (map o_id os) rest found (at_work argc kept s)) (letters my_progname getopt_double get_one_option os s) (argc - 1) kept rest.
Proof.
  induction os as [|o os IH]; intros rest found argc kept s Hc Hne; [done|]. cbn [map letters].
  assert (Ho : lettered longopts o = true /\ (takes o NO_ARG = true \/ (map o_id os = [] /\ takes o REQUIRED_ARG = false)) /\ cluster longopts os = true).
  { cbn [cluster] in Hc. destruct os as [|o' os']; rewrite !andb_true_iff in Hc; [|naive_solver].
    destruct Hc as [H1 H2%negb_true_iff]. split; [done|]. split; [by right|done]. }
  destruct Ho as (Ho & Ht & Hos). rewrite short_loop_cons.
  pose proof (short_opt_letter o (map o_id os) rest (at_work argc kept s) (after_letter (o_id o) (map o_id os)) Ho Ht) as Hs.
  cbn [r_state at_work] in Hs. destruct (letter my_progname getopt_double get_one_option o s) as [[s'|code s'|s']|]; cbn [then_ mbind option_bind] in *; try done.
  rewrite Hs. change (with_state (at_work argc kept s) s') with (at_work argc kept s').
  destruct os as [|o' os]; [done|]. by apply IH.
Qed.

(** ** The command line *)

Lemma handle_arg_short c chars rest argc kept s : c <> "-"%chr ->
  handle_arg (Arg ("-"%chr :: c :: chars)) rest (at_work argc kept s) = short_loop (c :: chars) rest false (at_work argc kept s).
Proof. intros Hc. unfold GetOpt.handle_arg. cbn [at_work r_is_cmdline_arg negb andb elem_text r_end_of_options]. by rewrite (proj2 (Z.eqb_neq c _) Hc). Qed.

Lemma then_agrees r x t argc kept rest : then_ x r (fun r' => Some (Next (at_work argc kept (r_state r')) rest)) t -> agrees t x argc kept rest.
Proof. by destruct x as [[]|]. Qed.

Lemma then_ext x r k k' t : (forall s, k (with_state r s) = k' (with_state r s)) -> then_ x r k t -> then_ x r k' t.
Proof. intros Hk. destruct x as [[s| |]|]; cbn; [|done..]. by rewrite Hk. Qed.

Lemma handle_item i rest argc kept s : well_formed longopts i = true ->
  exists arg rest', render i ++ rest = arg :: rest'
  /\ agrees (handle_arg arg rest' (at_work argc kept s)) (meaning my_progname getopt_double get_one_option i s)
       (argc - Z.of_nat (length (render i)) + Z.of_nat (length (plain i))) (kept ++ plain i) rest.
Proof.
  intros Hi. destruct i as [o v|o v|o|i p o|o v|o v|os|a]; cbn [well_formed render plain meaning app length] in *;
    rewrite ?app_nil_r; eexists _, _; (split; [reflexivity|]).
  - apply andb_true_iff in Hi as [Ho Ht]. replace (argc - Z.of_nat 1 + Z.of_nat 0) with (argc - 1) by lia. destruct (named_facts o Ho) as (Hne & _).
    rewrite handle_arg_long by (by destruct (o_name o)).
    destruct (handle_long_named o (str "=" ++ v) (Arg (str "--" ++ o_name o ++ str "=" ++ v)) rest argc kept s) as (post & ff & ->); [done|by right|].
    by apply (handle_found_spec o).
  - apply andb_true_iff in Hi as [Ho Ht]. replace (argc - Z.of_nat 2 + Z.of_nat 0) with (argc - 2) by lia. destruct (named_facts o Ho) as (Hne & _).
    rewrite handle_arg_long by done.
    destruct (handle_long_named o [] (Arg (str "--" ++ o_name o)) (Arg v :: rest) argc kept s) as (post & ff & Hl); [done|by left|].
    rewrite app_nil_r in Hl. rewrite Hl. by apply handle_found_next.
  - apply andb_true_iff in Hi as [Ho Ht%negb_true_iff]. replace (argc - Z.of_nat 1 + Z.of_nat 0) with (argc - 1) by lia.
    destruct (named_facts o Ho) as (Hne & _). rewrite handle_arg_long by done.
    destruct (handle_long_named o [] (Arg (str "--" ++ o_name o)) rest argc kept s) as (post & ff & Hl); [done|by left|].
    rewrite app_nil_r in Hl. rewrite Hl. by apply handle_found_bare.
  - rewrite !andb_true_iff in Hi. destruct Hi as [[Ho Ht] Hp]. replace (argc - Z.of_nat 1 + Z.of_nat 0) with (argc - 1) by lia.
    rewrite handle_arg_long by (by destruct p). destruct (handle_special i p o rest argc kept s Ho Hp) as (l & -> & Hl & Hend).
    rewrite <-Hend. apply handle_found_spec; try done. rewrite Hend. unfold prefixed in Hp. by destruct i.
  - rewrite !andb_true_iff, !negb_true_iff, bool_decide_eq_false in Hi. destruct Hi as [[Ho Ht] Hv].
    replace (argc - Z.of_nat 1 + Z.of_nat 0) with (argc - 1) by lia.
    destruct (lettered_facts o Ho) as (_ & Hd & _). change (str "-" ++ o_id o :: v) with ("-"%chr :: o_id o :: v). rewrite handle_arg_short by done.
    apply (then_agrees (at_work argc kept s)). rewrite short_loop_cons.
    eapply then_ext; [|apply (short_opt_value o v v rest rest true (at_work argc kept s) (at_work argc kept s) (after_letter (o_id o) v)); [done|done|by left]]. done.
  - apply andb_true_iff in Hi as [Ho Ht]. replace (argc - Z.of_nat 2 + Z.of_nat 0) with (argc - 2) by lia.
    destruct (lettered_facts o Ho) as (_ & Hd & _). change (str "-" ++ [o_id o]) with ("-"%chr :: o_id o :: []). rewrite handle_arg_short by done.
    apply (then_agrees (at_work (argc - 1) kept s)). rewrite short_loop_cons.
    eapply then_ext; [|apply (short_opt_value o v [] (Arg v :: rest) rest false (at_work argc kept s) (at_work (argc - 1) kept s) (after_letter (o_id o) []));
      [done| |by right]].
    + intros s'. cbn. unfold at_work, less_argc, with_state. cbn. replace (argc - 1 - 1) with (argc - 2) by lia. done.
    + unfold takes in *. apply bool_decide_eq_true in Ht. rewrite Ht. done.
  - apply andb_true_iff in Hi as [Hne%negb_true_iff%bool_decide_eq_false Hc]. replace (argc - Z.of_nat 1 + Z.of_nat 0) with (argc - 1) by lia.
    destruct os as [|o os]; [done|]. assert (Ho : lettered longopts o = true) by (cbn in Hc; destruct os; rewrite !andb_true_iff in Hc; tauto).
    destruct (lettered_facts o Ho) as (_ & Hd & _). change (str "-" ++ map o_id (o :: os)) with ("-"%chr :: o_id o :: map o_id os).
    rewrite handle_arg_short by done. by apply (short_loop_cluster (o :: os)).
  - replace (argc - Z.of_nat 1 + Z.of_nat 1) with argc by lia. unfold GetOpt.handle_arg. cbn [at_work r_is_cmdline_arg negb andb elem_text].
    destruct a as [|d [|c a]]; [done|done|]. cbn [deref nth length Nat.ltb] in Hi. apply negb_true_iff, andb_false_iff in Hi as [Hi|Hi]; [|done].
    by rewrite Hi.
Qed.

Lemma handle_items items : forall rest fuel argc kept s, forallb (well_formed longopts) items = true ->
  (length (concat (map render items) ++ rest) <= fuel)%nat ->
  let argc' := argc - Z.of_nat (length (concat (map render items))) + Z.of_nat (length (concat (map plain items))) in
  let loop := handle_loop my_progname getopt_double getopt_get_addr cfg longopts (Some get_one_option) false in
  match meanings my_progname getopt_double get_one_option items s with
  | None => loop fuel (concat (map render items) ++ rest) (at_work argc kept s) = None
  | Some (Goes s') => exists fuel', (length rest <= fuel')%nat
      /\ loop fuel (concat (map render items) ++ rest) (at_work argc kept s) = loop fuel' rest (at_work argc' (kept ++ concat (map plain items)) s')
  | Some (Fails code s') => exists r, loop fuel (concat (map render items) ++ rest) (at_work argc kept s) = Some (Return code r) /\ r_state r = s'
  | Some (Ends s') => loop fuel (concat (map render items) ++ rest) (at_work argc kept s) = Some (Died s')
  end.
Proof.
  induction items as [|i items IH]; intros rest fuel argc kept s Hw Hf; cbn [map concat meanings app length] in *.
  { exists fuel. split; [done|]. rewrite app_nil_r. do 2 f_equal. unfold at_work. f_equal. lia. }
  cbn [forallb] in Hw. apply andb_true_iff in Hw as [Hi Hw]. rewrite <-app_assoc in Hf |- *.
  destruct (handle_item i (concat (map render items) ++ rest) argc kept s Hi) as (arg & rest' & Hr & Ha). rewrite Hr in Hf |- *.
  destruct fuel as [|fuel]; [cbn in Hf; lia|]. cbn [handle_loop].
  destruct (meaning my_progname getopt_double get_one_option i s) as [[s'|code s'|s']|]; cbn [agrees mbind option_bind] in *.
  - rewrite Ha. cbn [mbind option_bind].
    assert (Hlen : (length (render i) + length (concat (map render items) ++ rest) = Datatypes.S (length rest'))%nat).
    { apply (f_equal length) in Hr. rewrite length_app in Hr. cbn in Hr. lia. }
    assert (Hpos : (1 <= length (render i))%nat) by (destruct i; cbn; lia).
    specialize (IH rest fuel (argc - Z.of_nat (length (render i)) + Z.of_nat (length (plain i))) (kept ++ plain i) s' Hw ltac:(cbn in Hf; lia)).
    rewrite !length_app. cbn zeta in IH.
    replace (argc - Z.of_nat (length (render i) + length (concat (map render items))) + Z.of_nat (length (plain i) + length (concat (map plain items))))
      with (argc - Z.of_nat (length (render i)) + Z.of_nat (length (plain i)) - Z.of_nat (length (concat (map render items)))
            + Z.of_nat (length (concat (map plain items)))) by lia.
    by rewrite app_assoc.
  - destruct Ha as (r & -> & Hs). exists r. done.
  - by rewrite Ha.
  - by rewrite Ha.
Qed.

Lemma handle_arg_dashes rest argc kept s :
  handle_arg (Arg (str "--")) rest (at_work argc kept s) = Some (Next (mkRun (argc - 1) kept true true [] s) rest).
Proof. done. Qed.

(** Behind two dashes everything is a plain argument. *)
Lemma handle_tail tail : forall fuel argc kept s, (length tail <= fuel)%nat ->
  handle_loop my_progname getopt_double getopt_get_addr cfg longopts (Some get_one_option) false fuel (map Arg tail) (mkRun argc kept true true [] s)
  = Some (Return 0 (mkRun argc (kept ++ map Arg tail) true true [] s)).
Proof.
  induction tail as [|a tail IH]; intros fuel argc kept s Hf; cbn [map]; [destruct fuel; by rewrite app_nil_r|].
  destruct fuel as [|fuel]; [cbn in Hf; lia|]. cbn [handle_loop]. unfold GetOpt.handle_arg. cbn [r_is_cmdline_arg r_end_of_options negb andb elem_text].
  assert (Hplain : handle_plain (Arg a) (map Arg tail) (mkRun argc kept true true [] s) = Next (mkRun argc (kept ++ [Arg a]) true true [] s) (map Arg tail)) by done.
  destruct a as [|d [|c a]]; rewrite ?andb_false_r, Hplain; cbn [mbind option_bind]; rewrite IH by (cbn in Hf; lia); by rewrite <-app_assoc.
Qed.

End handle.

(** The end of a command line: nothing, or two dashes and anything. *)
Definition render_tail (tail : option (list (list Z))) : list argv_elem :=
  match tail with None => [] | Some l => Arg (str "--") :: map Arg l end.

Definition tail_plain (tail : option (list (list Z))) : list argv_elem := match tail with None => [] | Some l => map Arg l end.

Definition command_line (items : list item) (tail : option (list (list Z))) : list argv_elem :=
  concat (map render items) ++ render_tail tail.

Lemma handle_options_meanings {S} `{Variables S} my_progname getopt_double constant getopt_get_addr cfg longopts get_one_option items tail (s : S) :
  forallb (fun o => forallb is_char (o_name o)) longopts = true -> forallb (well_formed longopts) items = true ->
  let s0 := if my_handle_options_init_variables cfg then init_variables getopt_get_addr longopts (init_one_value constant) s else s in
  let result := handle_options my_progname getopt_double constant getopt_get_addr cfg longopts (Some get_one_option) (command_line items tail) s in
  let left := concat (map plain items) ++ tail_plain tail in
  match meanings my_progname getopt_double get_one_option items s0 with
  | None => result = None
  | Some (Goes s') => exists r, result = Some (Return 0 r) /\ r_state r = s' /\ r_kept r = left /\ r_argc r = Z.of_nat (length left)
  | Some (Fails code s') => exists r, result = Some (Return code r) /\ r_state r = s'
  | Some (Ends s') => result = Some (Died s')
  end.
Proof.
  intros Htable Hw s0 result left. subst result. unfold handle_options, ob_handle_options. fold s0.
  assert (existsb my_getopt_is_args_separator (command_line items tail) = false) as ->.
  { apply not_true_is_false. intros (x & Hx & Hsep)%existsb_exists. destruct x as [|]; [done|].
    unfold command_line in Hx. apply in_app_iff in Hx as [Hx|Hx].
    - apply in_concat in Hx as (l & Hl & Hx). apply in_map_iff in Hl as (i & <- & _). destruct i; cbn in Hx; naive_solver.
    - destruct tail as [l|]; cbn in Hx; [|done]. destruct Hx as [|Hx]; [done|]. apply in_map_iff in Hx as (a & ? & _). done. }
  pose proof (handle_items my_progname getopt_double constant getopt_get_addr cfg longopts get_one_option Htable items (render_tail tail)
    (length (command_line items tail)) (Z.of_nat (length (command_line items tail))) [] s0 Hw ltac:(done)) as Hi.
  cbn zeta in Hi. fold (command_line items tail) in Hi. cbn [negb].
  match goal with |- context [mkRun ?a [] false true [] s0] => change (mkRun a [] false true [] s0) with (at_work a [] s0) end.
  destruct (meanings my_progname getopt_double get_one_option items s0) as [[s'|code s'|s']|]; [|by destruct Hi as (r & -> & Hs); eauto|done|done].
  destruct Hi as (fuel & Hfuel & ->). rewrite app_nil_l.
  assert (Hlen : length (command_line items tail) = (length (concat (map render items)) + length (render_tail tail))%nat) by (apply length_app).
  destruct tail as [l|]; cbn [render_tail tail_plain length] in *.
  - destruct fuel as [|fuel]; [lia|]. cbn [handle_loop]. rewrite length_map in *.
    rewrite handle_arg_dashes. cbn [mbind option_bind]. rewrite handle_tail by lia. eexists. split; [reflexivity|]. split; [done|]. split; [done|]. cbn [r_argc]. subst left.
    rewrite length_app, length_map. lia.
  - eexists. split; [by destruct fuel|]. split; [done|]. split; [subst left; cbn; by rewrite app_nil_r|]. cbn [r_argc]. subst left. rewrite length_app. cbn. lia.
Qed.

(** C5. Command lines mean what they say.  A command line is a list of settings,
    each in one of the forms --name, --name=value, --name value, --skip-name,
    --disable-name, --enable-name, -x, -xvalue, -x value and -xyz, with plain
    arguments between them and, behind two dashes, at the end.
    [handle_options] gives the variables their default values and then does what
    the settings say, in their order: it stores the value, or switches on or
    off, and tells the program.  If a value is wrong or the program objects it
    returns with the error, and otherwise it returns zero and leaves exactly
    the plain arguments in their order, with their number. *)
Theorem handle_options_parses {S} `{Variables S} my_progname getopt_double constant getopt_get_addr cfg longopts get_one_option items tail (s : S) :
  forallb (fun o => forallb is_char (o_name o)) longopts = true -> forallb (well_formed longopts) items = true ->
  let s0 := if my_handle_options_init_variables cfg then init_variables getopt_get_addr longopts (init_one_value constant) s else s in
  let result := handle_options my_progname getopt_double constant getopt_get_addr cfg longopts (Some get_one_option) (command_line items tail) s in
  let left := concat (map plain items) ++ tail_plain tail in
  match meanings my_progname getopt_double get_one_option items s0 with
  | None => result = None
  | Some (Goes s') => exists r, result = Some (Return 0 r) /\ r_state r = s' /\ r_kept r = left /\ r_argc r = Z.of_nat (length left)
  | Some (Fails code s') => exists r, result = Some (Return code r) /\ r_state r = s'
  | Some (Ends s') => result = Some (Died s')
  end.
Proof. apply handle_options_meanings. Qed.

(** A program with three options and its variables. *)
Definition store : Type := (list (var * val) * list Z)%type.

#[local] Instance store_variables : Variables store := {
  get_var v s := match find (fun e => bool_decide (e.1 = v)) s.1 with Some e => e.2 | None => VNum 0 end;
  set_var v x s := ((v, x) :: s.1, s.2);
  put_err m s := (s.1, s.2 ++ m)
}.

Definition verbose_option : my_option := mkOption (str "verbose") "v"%chr None (Some "verbose") None [] GET_BOOL false false NO_ARG 0 0 0 0.
Definition port_option : my_option := mkOption (str "port") "P"%chr None (Some "port") None [] GET_UINT false false REQUIRED_ARG 3306 0 0 0.
Definition host_option : my_option := mkOption (str "host_name") "h"%chr None (Some "host") None [] GET_STR false false REQUIRED_ARG 0 0 0 0.

(** [-vP 17 --disable-verbose db --host-name=here -- -v] *)
Lemma handle_options_parses_witness :
  exists r,
    handle_options (str "prog") (fun _ _ => (0, false, [])) (fun _ => []) (fun _ _ => (0, None)) getopt_defaults
      [verbose_option; port_option; host_option] (Some (fun _ _ _ s => Reply false s))
      (map Arg [str "-v"; str "-P"; str "17"; str "--disable-verbose"; str "db"; str "--host_name=here"; str "--"; str "-v"]) ([], [])
      = Some (Return 0 r)
    /\ map (fun v => get_var v (r_state r)) ["verbose"; "port"; "host"] = [VNum 0; VNum 17; VStr (Some (str "here"))]
    /\ r_kept r = [Arg (str "db"); Arg (str "-v")] /\ r_argc r = 2.
Proof.
  pose proof (handle_options_parses (str "prog") (fun _ _ => (0, false, [])) (fun _ => []) (fun _ _ => (0, None)) getopt_defaults
    [verbose_option; port_option; host_option] (fun _ _ _ s => Reply false s)
    [Short [verbose_option]; ShortNext port_option (str "17"); Special OPT_DISABLE (str "disable") verbose_option; Plain (str "db"); LongEq host_option (str "here")]
    (Some [str "-v"]) ([], []) ltac:(reflexivity) ltac:(vm_compute; reflexivity)) as H.
  cbv zeta in H. destruct (meanings _ _ _ _ _) as [[s'|code s'|s']|] eqn:E; vm_compute in E; try discriminate E.
  injection E as <-. destruct H as (r & Hr & Hs & Hk & Hn). exists r. split; [exact Hr|]. rewrite Hs, Hk, Hn. split_and!; vm_compute; reflexivity.
Defined.
