(* ===== verification/GetOptSafe.v ===== *)
(** * Every command line

    What holds for all command lines, well-formed or not: the parser comes to an
    end, and a property of the state that the program's own functions keep is
    kept, if it says nothing of the variables of the options. *)

From stdpp Require Import base list numbers strings.
From S2P Require Import Prelude CString Charset Numbers Typelib GetOpt.
Open Scope Z_scope.

(** Options whose values are never searched for in a list of names and whose
    switches have a variable. *)
Definition plain_option (o : my_option) : bool :=
  negb (o_ask_addr o)
  && match o_var_type o with GET_SET | GET_FLAGSET => false | GET_BOOL => match o_value o with Some _ => true | None => false end | _ => true end.

Section keeps.
Context {S : Type} `{Variables S} (my_progname : list Z) (getopt_double : list Z -> my_option -> Z * bool * list Z)
  (constant : Z -> list Z) (getopt_get_addr : list Z -> my_option -> Z * option var) (cfg : getopt_config)
  (longopts : list my_option) (get_one_option : Z -> my_option -> argument -> S -> reply S) (P : S -> Prop).

(** The variables of an option. *)
Definition owns (o : my_option) (v : var) : Prop := o_value o = Some v \/ o_u_max_value o = Some v.

Definition reply_keeps (r : reply S) : Prop := match r with Reply _ s | Exit s => P s end.

Hypothesis Hplain : Forall plain_option longopts.
Hypothesis Hset : forall o v x s, o ∈ longopts -> owns o v -> P s -> P (set_var v x s).
Hypothesis Herr : forall m s, P s -> P (put_err m s).
Hypothesis Hcall : forall o a s, o ∈ longopts -> P s -> reply_keeps (get_one_option (o_id o) o a s).

Definition turn_keeps (args : nat) (t : turn S) : Prop :=
  match t with
  | Next r rest => P (r_state r) /\ (length rest <= args)%nat
  | Return _ r => P (r_state r)
  | Died s => P s
  end.

(** An end with a turn. *)
Definition ends (args : nat) (t : option (turn S)) : Prop := exists t', t = Some t' /\ turn_keeps args t'.

Lemma put_messages_keeps m s : P s -> P (put_messages m s).
Proof using Herr. destruct m; [done|]. apply Herr. Qed.

Lemma plain_of o : o ∈ longopts -> plain_option o = true.
Proof using Hplain. rewrite Forall_forall in Hplain. intros Ho. apply Is_true_true. by apply Hplain. Qed.

(** ** Values *)

Lemma set_number_keeps o v a r s : o ∈ longopts -> owns o v -> P s -> P (set_number my_progname o v a r s).2.
Proof using Herr Hset.
  intros Ho Hv Hs. unfold set_number. destruct r as [[num err] m]. destruct err; cbn; [apply Herr|];
    apply (Hset o); auto using put_messages_keeps.
Qed.

Lemma set_enum_keeps o v a s : o ∈ longopts -> owns o v -> P s -> P (set_enum my_progname o v a s).2.
Proof using Herr Hset.
  intros Ho Hv Hs. unfold set_enum, setval_failed. destruct (_ =? 0).
  - destruct (strtoull a) as [[n e] ?]. destruct (_ || _); cbn; [by apply Herr|by apply (Hset o)].
  - destruct (_ <? 0); cbn; [by apply Herr|by apply (Hset o)].
Qed.

Lemma get_bool_keeps o a s : P s -> P (get_bool_argument o a s).2.
Proof using Herr. intros Hs. unfold get_bool_argument. destruct (_ || _); [done|]. destruct (_ || _); [done|]. by apply Herr. Qed.

Lemma setval_keeps o a max s : o ∈ longopts -> P s ->
  exists code s', setval my_progname getopt_double o (o_value o) a max s = Some (code, s') /\ P s'.
Proof using Hplain Herr Hset.
  intros Ho Hs. pose proof (plain_of o Ho) as Hp. unfold plain_option in Hp. apply andb_prop in Hp as [_ Hp]. unfold setval.
  destruct (o_value o) as [v|] eqn:Hv; [|eauto].
  destruct (if max then o_u_max_value o else Some v) as [v'|] eqn:Hv'; [|eauto using Herr].
  assert (Hown : owns o v') by (unfold owns; destruct max; [auto|injection Hv' as ->; auto]).
  set (b := GetOpt.arg_text _).
  assert (Hn : forall r, exists code s', Some (set_number my_progname o v' b r s) = Some (code, s') /\ P s').
  { intros r. pose proof (set_number_keeps o v' b r s Ho Hown Hs). destruct (set_number _ _ _ _ _ _). eauto. }
  destruct (o_var_type o); try done; auto; eauto using Hset.
  - pose proof (get_bool_keeps o b s Hs). destruct (get_bool_argument o b s). eauto using Hset.
  - pose proof (set_enum_keeps o v' b s Ho Hown Hs). destruct (set_enum _ _ _ _ _). eauto.
  - pose proof (get_bool_keeps o b s Hs). destruct (get_bool_argument o b s). eauto using Hset.
Qed.

Lemma init_one_keeps o v z s : o ∈ longopts -> owns o v -> P s -> P (init_one_value constant o v z s).
Proof using Herr Hset.
  intros Ho Hv Hs. unfold init_one_value.
  destruct (o_var_type o); try done; try (by apply (Hset o)); try (destruct (z =? 0); [done|by apply (Hset o)]);
    match goal with |- context [getopt_ll_limit_value ?a ?b] => destruct (getopt_ll_limit_value a b) | |- context [getopt_ull_limit_value ?a ?b] => destruct (getopt_ull_limit_value a b) end;
    apply (Hset o); auto using put_messages_keeps.
Qed.

Lemma init_variables_keeps options s : Forall (fun o => o ∈ longopts) options -> P s -> P (init_variables getopt_get_addr options (init_one_value constant) s).
Proof using Hplain Herr Hset.
  revert s. induction options as [|o options IH]; intros s Hsub Hs; [done|]. cbn [init_variables]. inversion Hsub as [|? ? Ho Hrest]; subst.
  pose proof (plain_of o Ho) as Hp. unfold plain_option in Hp. apply andb_prop in Hp as [Hask _]. apply negb_true_iff in Hask. rewrite Hask.
  apply IH; [done|]. unfold owns in *.
  assert (H1 : P (match o_u_max_value o with Some v => init_one_value constant o v (o_max_value o) s | None => s end)).
  { destruct (o_u_max_value o) eqn:E; [|done]. apply init_one_keeps; [done|by right|done]. }
  destruct (o_value o) eqn:E; [|done]. apply init_one_keeps; [done|by left|done].
Qed.

(** ** Long options *)

Abbreviation found_ok l := (Forall (fun o => o ∈ longopts) (l_optp l) /\ (l_found l <> 0%nat -> l_optp l <> [])).

Lemma findopt_in prefix pat n opt opt_res count ff r ff' m k :
  Forall (fun o => o ∈ longopts) opt -> Forall (fun o => o ∈ longopts) opt_res -> (count <> 0%nat -> opt_res <> []) ->
  findopt_loop prefix pat n opt opt_res count ff = (k, r, ff', m) ->
  Forall (fun o => o ∈ longopts) r /\ (k <> 0%nat -> r <> []).
Proof using.
  revert opt_res count ff. induction opt as [|o opt IH]; intros opt_res count ff Hopt Hres Hc; cbn [findopt_loop]; [intros [= <- <- _ _]; auto|].
  pose proof Hopt as Hopt'. inversion Hopt'; subst.
  destruct (getopt_compare_strings _ _ _); [by apply IH|]. destruct (at_ _ _ =? 0); [intros [= <- <- _ _]; auto|].
  destruct (negb prefix); [apply IH; auto|]. destruct (count =? 0)%nat; [apply IH; auto|]. destruct (negb _); apply IH; auto.
Qed.

Lemma find_long_ok l (r : run S) : Forall (fun o => o ∈ longopts) (l_optp l) -> P (r_state r) ->
  let '(l', r') := find_long cfg l r in
  found_ok l' /\ P (r_state r') /\ r_is_cmdline_arg r' = r_is_cmdline_arg r /\ l_str l' = l_str l.
Proof using Herr.
  intros Hl Hr. unfold find_long, findopt. destruct (findopt_loop _ _ _ _ _ _ _) as [[[k res] ff] m] eqn:E. cbn.
  apply findopt_in in E; [|done..]. split_and!; try apply E; try done. by apply put_messages_keeps.
Qed.

Lemma print_error_keeps level m (r : run S) : P (r_state r) -> P (r_state (print_error cfg level m r)).
Proof using Herr. intros Hr. unfold print_error. destruct (my_getopt_print_errors cfg); [|done]. by apply Herr. Qed.

Lemma special_ends fuel l (r : run S) : (length (l_str l) < fuel)%nat -> Forall (fun o => o ∈ longopts) (l_optp l) -> (l_found l <> 0%nat -> l_optp l <> []) -> P (r_state r) ->
  exists x r', special_loop my_progname cfg fuel l r = Some (x, r') /\ P (r_state r') /\ match x with inl _ => True | inr l' => found_ok l' end.
Proof using Herr.
  revert l r. induction fuel as [|fuel IH]; intros l r Hf Hl Hne Hr; [lia|]. cbn [special_loop].
  destruct (find (special_matches (l_str l)) special_opts) as [[i p]|] eqn:Hfind; [|by eexists _, _].
  apply find_some in Hfind as [_ Hm]. unfold special_matches in Hm. apply andb_prop in Hm as [_ Hm].
  assert (Hlen : (length p < length (l_str l))%nat).
  { destruct (Nat.lt_ge_cases (length p) (length (l_str l))) as [|Hge]; [done|]. unfold at_ in Hm. cbn in Hm. by rewrite nth_overflow in Hm. }
  pose proof (find_long_ok (strip_special i p l) r Hl Hr) as Hf'. destruct (find_long cfg (strip_special i p l) r) as [l1 r1]. destruct Hf' as ((Hl1 & Hne1) & Hr1 & _ & Hs1).
  destruct (1 <? l_found l1)%nat; [eexists _, _; split; [done|]; split; [by apply print_error_keeps|done]|].
  destruct (l_found l1 =? 1)%nat; [by eexists _, _|]. apply IH; try done. rewrite Hs1. cbn. rewrite length_drop. lia.
Qed.

Lemma find_long_option_ends cur_arg (r : run S) : P (r_state r) ->
  exists x r', find_long_option my_progname cfg longopts cur_arg r = Some (x, r') /\ P (r_state r') /\ match x with inl _ => True | inr l' => found_ok l' end.
Proof using Herr.
  intros Hr. unfold find_long_option. destruct (check_struct_option cur_arg) as [key opt_str].
  set (l0 := mkLong _ _ _ _ _ _ _ _ _ _). assert (Hl0 : Forall (fun o => o ∈ longopts) (l_optp l0)) by (by apply Forall_forall).
  pose proof (find_long_ok l0 r Hl0 Hr) as Hf. destruct (find_long cfg l0 r) as [l1 r1]. destruct Hf as ((Hl1 & Hne1) & Hr1 & _ & Hs1).
  destruct (l_found l1 =? 0)%nat; [|by eexists _, _]. apply special_ends; try done. cbn [l_str]. rewrite Hs1. cbn. lia.
Qed.

Lemma call_keeps o a code (r : run S) k args : o ∈ longopts -> P (r_state r) ->
  (forall s, P s -> turn_keeps args (k (with_state r s))) -> turn_keeps args (call (Some get_one_option) o a code r k).
Proof using Hcall.
  intros Ho Hr Hk. unfold call. pose proof (Hcall o a (r_state r) Ho Hr) as Hc. destruct (get_one_option _ _ _ _) as [failed s|s]; [|done].
  destruct failed; [done|]. by apply Hk.
Qed.

Lemma finish_long_ends o l a rest (r : run S) : o ∈ longopts -> P (r_state r) ->
  ends (length rest) (finish_long my_progname getopt_double (Some get_one_option) o l (o_value o) a rest r).
Proof using Hcall Hplain Herr Hset.
  intros Ho Hr. unfold finish_long.
  assert (Hv : exists code s', (if l_is_autoset l then Some (0, r_state r) else setval my_progname getopt_double o (o_value o) a (l_set_maximum_value l) (r_state r)) = Some (code, s') /\ P s')
    by (destruct (l_is_autoset l); [eauto|by apply setval_keeps]).
  destruct Hv as (code & s' & -> & Hs'). cbn [mbind option_bind]. destruct (_ && _); eexists; (split; [done|]); [done|]. apply call_keeps; try done.
Qed.

Lemma handle_switch_ends o v optend rest (r : run S) : o ∈ longopts -> o_value o = Some v -> P (r_state r) ->
  ends (length rest) (handle_switch my_progname (Some get_one_option) o (Some v) optend rest r).
Proof using Hcall Herr Hset.
  intros Ho Hv Hr. unfold handle_switch. destruct (bool_value optend) as [b|]; cbn [mbind option_bind]; eexists; (split; [done|]).
  - apply call_keeps; [done|apply (Hset o); [done|by left|done]|]. intros s Hs. split; [done|lia].
  - split; [by apply Herr|done].
Qed.

Lemma handle_found_ends l o key rest (r : run S) : o ∈ longopts -> P (r_state r) ->
  ends (length rest) (handle_found my_progname getopt_double getopt_get_addr cfg (Some get_one_option) l o key rest r).
Proof using Hcall Hplain Herr Hset.
  intros Ho Hr. unfold handle_found.
  pose proof (plain_of o Ho) as Hp. unfold plain_option in Hp. apply andb_prop in Hp as [Hask Hty]. apply negb_true_iff in Hask. rewrite Hask. cbn [negb Z.eqb].
  assert (Hfin : forall a rest' r', (length rest' <= length rest)%nat -> P (r_state r') ->
    ends (length rest) (finish_long my_progname getopt_double (Some get_one_option) o l (o_value o) a rest' r')).
  { intros a rest' r' Hle Hr'. destruct (finish_long_ends o l a rest' r' Ho Hr') as (t & -> & Ht). exists t. split; [done|]. destruct t; [|done..]. cbn in *. split; [apply Ht|lia]. }
  assert (Herror : forall code level m, ends (length rest) (Some (Return code (print_error cfg level m r)))) by (intros; eexists; split; [done|]; by apply print_error_keeps).
  destruct (bool_decide (o_var_type o = GET_DISABLED)).
  { set (r' := if my_getopt_print_errors cfg then _ else r). assert (Hr' : P (r_state r')) by (unfold r'; destruct (my_getopt_print_errors cfg); [by apply Herr|done]).
    destruct (l_is_loose l); eexists; (split; [done|]); [by split|done]. }
  destruct (bool_decide (o_arg_type o = NO_ARG)).
  { case_bool_decide as Hb; [|destruct (l_optend l); auto].
    rewrite Hb in Hty. destruct (o_value o) as [v|] eqn:Hv; [|done]. by apply handle_switch_ends. }
  destruct (l_is_autoset l).
  { destruct (l_optend l); try (eexists; split; [done|]; by apply Herr). destruct (o_auto o); [by apply Hfin|].
    destruct (l_is_loose l); eexists; (split; [done|]); [split; [by apply Herr|done]|by apply Herr]. }
  destruct (o_arg_type o); [by apply Hfin..|]. destruct (l_optend l); try (by apply Hfin).
  destruct (negb (r_is_cmdline_arg r)); [apply Herror|]. destruct rest as [|a rest]; [apply Herror|]. apply Hfin; [cbn; lia|done].
Qed.

Lemma ends_weaken a b t : (a <= b)%nat -> ends a t -> ends b t.
Proof using. intros Hab (t' & -> & Ht). exists t'. split; [done|]. destruct t'; [|done..]. cbn in *. split; [apply Ht|lia]. Qed.

Lemma handle_long_ends arg cur_arg rest (r : run S) : P (r_state r) ->
  ends (length rest) (handle_long my_progname getopt_double getopt_get_addr cfg longopts (Some get_one_option) false arg cur_arg rest r).
Proof using Hcall Hplain Herr Hset.
  intros Hr. unfold handle_long. destruct (find_long_option_ends cur_arg r Hr) as (x & r1 & -> & Hr1 & Hx). cbn [mbind option_bind].
  destruct x as [code|l]; [by eexists|]. destruct Hx as [Hl Hne]. destruct (l_found l =? 0)%nat eqn:H0.
  { eexists. split; [done|]. unfold unknown_long. destruct (my_getopt_skip_unknown cfg); [by split|].
    destruct (l_must_be_var l), (l_is_loose l); cbn; try (split; [|done]); by apply print_error_keeps. }
  apply Nat.eqb_neq in H0. destruct (1 <? l_found l)%nat; [destruct (l_must_be_var l); (eexists; split; [done|]; by apply print_error_keeps)|].
  specialize (Hne H0). destruct (l_optp l) as [|o os]; [done|]. apply handle_found_ends; [|done]. by inversion Hl.
Qed.

(** ** Short options *)

Lemma short_opt_ends args opts c after rest found (r : run S) k : Forall (fun o => o ∈ longopts) opts -> P (r_state r) ->
  (forall found stop rest' r', (length rest' <= length rest)%nat -> P (r_state r') -> ends args (k found stop rest' r')) ->
  ends args (short_opt my_progname getopt_double cfg (Some get_one_option) opts c after rest found r k).
Proof using Hcall Hplain Herr Hset.
  intros Hopts Hr Hk. revert found r Hr. induction opts as [|o opts IH]; intros found r Hr; cbn [short_opt]; [by apply Hk|].
  inversion Hopts as [|? ? Ho Hopts']; subst. specialize (IH Hopts').
  destruct (negb _) eqn:Hid; [by apply IH|]. clear Hid. destruct (bool_decide (o_var_type o = GET_DISABLED)).
  { eexists. split; [done|]. destruct (my_getopt_print_errors cfg); [by apply Herr|done]. }
  pose proof (plain_of o Ho) as Hp. unfold plain_option in Hp. apply andb_prop in Hp as [_ Hty].
  assert (Hgo : forall r', P (r_state r') ->
    ends args match get_one_option (o_id o) o null (r_state r') with
      | Exit s => Some (Died s)
      | Reply failed s => if failed then Some (Return EXIT_UNSPECIFIED_ERROR (with_state r' s))
                          else short_opt my_progname getopt_double cfg (Some get_one_option) opts c after rest true (with_state r' s) k end).
  { intros r' Hr'. pose proof (Hcall o null (r_state r') Ho Hr') as Hc. destruct (get_one_option _ _ _ _) as [[] s|s]; [by eexists|by apply IH|by eexists]. }
  assert (Hfin : forall a stop rest' r', (length rest' <= length rest)%nat -> P (r_state r') ->
    ends args ('(error, s) ← setval my_progname getopt_double o (o_value o) a false (r_state r');
               if negb (error =? 0) then Some (Return error (with_state r' s))
               else match get_one_option (o_id o) o a (r_state (with_state r' s)) with
                    | Exit s => Some (Died s)
                    | Reply failed s' => if failed then Some (Return EXIT_UNSPECIFIED_ERROR (with_state (with_state r' s) s'))
                                         else k true stop rest' (with_state (with_state r' s) s') end)).
  { intros a stop rest' r' Hle Hr'. destruct (setval_keeps o a false (r_state r') Ho Hr') as (code & s & -> & Hs). cbn [mbind option_bind].
    destruct (negb _); [by eexists|]. pose proof (Hcall o a s Ho Hs) as Hc. cbn [with_state r_state].
    destruct (get_one_option _ _ _ _) as [[] s'|s']; [by eexists|by apply Hk|by eexists]. }
  assert (Hsw : o_var_type o = GET_BOOL -> exists v, o_value o = Some v) by (intros Hb; rewrite Hb in Hty; destruct (o_value o); [eauto|done]).
  destruct (bool_decide (o_var_type o = GET_BOOL)) eqn:Hb; cbn [andb].
  - apply bool_decide_eq_true in Hb. destruct (Hsw Hb) as [v Hv]. rewrite Hv in Hfin |- *.
    assert (Hset' : P (set_var v (VNum 1) (r_state r))) by (apply (Hset o); [done|by left|done]).
    destruct (o_arg_type o); cbn [bool_decide mbind option_bind]; [by apply Hgo| |];
      (destruct after; [|by apply Hfin]).
    + destruct (negb (o_ask_addr o) && negb (o_auto o)); by apply Hgo.
    + destruct rest as [|a rest]; [eexists; split; [done|]; by apply print_error_keeps|]. apply Hfin; [cbn; lia|done].
  - destruct (o_arg_type o); [by apply Hfin|destruct after; [by apply Hgo|by apply Hfin]|].
    destruct after; [|by apply Hfin]. destruct rest as [|a rest]; [eexists; split; [done|]; by apply print_error_keeps|]. apply Hfin; [cbn; lia|done].
Qed.

Lemma short_loop_ends chars rest found (r : run S) : P (r_state r) ->
  ends (length rest) (short_loop my_progname getopt_double cfg longopts (Some get_one_option) chars rest found r).
Proof using Hcall Hplain Herr Hset.
  revert rest found r. induction chars as [|c chars IH]; intros rest found r Hr; cbn [short_loop]; [eexists; split; [done|]; by destruct found; split|].
  apply short_opt_ends; [by apply Forall_forall|done|]. intros found' stop rest' r' Hle Hr'.
  destruct found'; [destruct stop|].
  - eexists. split; [done|]. by split.
  - apply (ends_weaken (length rest')); [done|]. by apply IH.
  - destruct (my_getopt_skip_unknown cfg); eexists; (split; [done|]); [by split|by apply print_error_keeps].
Qed.

(** ** The loop *)

Lemma handle_arg_ends arg rest (r : run S) : P (r_state r) ->
  ends (length rest) (handle_arg my_progname getopt_double getopt_get_addr cfg longopts (Some get_one_option) false arg rest r).
Proof using Hcall Hplain Herr Hset.
  intros Hr. unfold handle_arg. destruct (_ && _); [eexists; split; [done|]; by destruct (my_getopt_skip_unknown cfg); split|].
  assert (Hp : ends (length rest) (Some (handle_plain arg rest r))).
  { eexists. split; [done|]. unfold handle_plain. destruct (drop_commands _ _) as [[] cs]; [done|by split]. }
  destruct (elem_text arg) as [|d [|c chars]]; [done..|]. destruct (_ && _); [|done]. destruct (c =? "-"%chr); [|by apply short_loop_ends].
  destruct chars; [eexists; split; [done|]; by split|by apply handle_long_ends].
Qed.

Lemma handle_loop_ends fuel args (r : run S) : (length args <= fuel)%nat -> P (r_state r) ->
  exists t, handle_loop my_progname getopt_double getopt_get_addr cfg longopts (Some get_one_option) false fuel args r = Some t
    /\ match t with Next _ _ => False | Return _ r => P (r_state r) | Died s => P s end.
Proof using Hcall Hplain Herr Hset.
  revert args r. induction fuel as [|fuel IH]; intros [|arg rest] r Hle Hr; cbn [handle_loop]; try (by eexists); [cbn in Hle; lia|].
  destruct (handle_arg_ends arg rest r Hr) as (t & -> & Ht). cbn [mbind option_bind]. destruct t as [r' rest'|code r'|s]; [|by eexists..].
  destruct Ht as [Hr' Hle']. apply IH; [cbn in Hle; lia|done].
Qed.

Lemma handle_options_ends argv s : P s ->
  exists t, handle_options my_progname getopt_double constant getopt_get_addr cfg longopts (Some get_one_option) argv s = Some t
    /\ match t with Next _ _ => False | Return _ r => P (r_state r) | Died s => P s end.
Proof using Hcall Hplain Herr Hset.
  intros Hs. unfold handle_options, ob_handle_options. apply handle_loop_ends; [done|]. cbn [r_state].
  destruct (my_handle_options_init_variables cfg); [|done]. apply init_variables_keeps; [by apply Forall_forall|done].
Qed.

End keeps.
