(* ===== verification/GetOptHelp.v ===== *)
(** * The help of a program (mysys/my_getopt.c: my_print_help, my_print_variables)

    The table of options also serves to print what the options are for and the
    values of their variables.  The comments are wrapped to a column; the
    theorem says how, and for which comments the wrapping ends. *)

From stdpp Require Import base list numbers strings.
From S2P Require Import Prelude CString Charset Numbers Typelib GetOpt.
Open Scope Z_scope.

Definition spaces (n : Z) : list Z := repeat " "%chr (Z.to_nat n).

(** The name with its underscores replaced; the length is that of the name. *)
Definition print_name (optp : my_option) : list Z := map (fun c => if c =? "_"%chr then "-"%chr else c) (o_name optp).

(** The last space among the first characters, or the beginning. *)
Fixpoint line_end (comment : list Z) (n : nat) : nat :=
  match n with O => O | S n' => if at_ comment n =? " "%chr then n else line_end comment n' end.

Definition is_space (c : Z) : bool := c =? " "%chr.

(** The lines of a comment: what is printed and the position after it. *)
Fixpoint print_lines (fuel : nat) (comment : list Z) (curpos startpos endpos : Z) : option (list Z * Z) :=
  if endpos - curpos <? Z.of_nat (length comment) then
    match fuel with
    | O => None
    | S fuel' =>
        let n := line_end comment (Z.to_nat (endpos - curpos)) in
        '(out, col) ← print_lines fuel' (skip_while is_space (drop n comment)) startpos startpos endpos;
        Some (take n comment ++ [c_nl] ++ spaces startpos ++ out, col)
    end
  else Some (comment, curpos + Z.of_nat (length comment)).

(** The full stop or comma that a comment may begin with. *)
Definition leading (comment : list Z) : list Z := if (deref comment =? "."%chr) || (deref comment =? ","%chr) then take 1 comment else [].

Definition print_comment_for (fuel : nat) (comment : list Z) (curpos startpos width : Z) : option (list Z * Z) :=
  let pad := spaces (startpos - curpos) in
  let curpos := Z.max curpos startpos in
  let punct := leading comment in
  '(out, col) ← print_lines fuel (drop (length punct) comment) (curpos + Z.of_nat (length punct)) startpos (startpos + width);
  Some (pad ++ punct ++ out, col).

(** Each line takes a character, but for the first one. *)
Definition print_comment (comment : list Z) : Z -> Z -> Z -> option (list Z * Z) := print_comment_for (S (S (length comment))) comment.

(** Several comments one after the other. *)
Fixpoint print_comments (comments : list (list Z)) (col name_space comment_space : Z) : option (list Z * Z) :=
  match comments with
  | [] => Some ([], col)
  | c :: comments' =>
      '(out, col) ← print_comment c col name_space comment_space;
      '(out', col) ← print_comments comments' col name_space comment_space;
      Some (out ++ out', col)
  end.

(** ** Options *)

Definition is_string_type (t : get_type) : bool :=
  match t with GET_STR | GET_STR_ALLOC | GET_ENUM | GET_SET | GET_FLAGSET => true | _ => false end.

(** The letter and the name with what the option takes. *)
Definition option_head (optp : my_option) : list Z * Z :=
  let '(a, col) := if negb (o_id optp =? 0) && (o_id optp <? 256)
                   then (str "  -" ++ [o_id optp] ++ (if bool_decide (o_name optp = []) then str "  " else str ", "), 6)
                   else (str "  ", 2) in
  if bool_decide (o_name optp = []) then (a, col)
  else
    let col := col + 2 + Z.of_nat (length (o_name optp)) in
    let a := a ++ str "--" ++ print_name optp in
    let optional := bool_decide (o_arg_type optp = OPT_ARG) in
    if bool_decide (o_arg_type optp = NO_ARG) || bool_decide (o_var_type optp = GET_BOOL) || bool_decide (o_var_type optp = GET_BIT) then (a ++ str " ", col + 1)
    else if is_string_type (o_var_type optp) then
      (a ++ (if optional then str "[" else []) ++ str "=name" ++ (if optional then str "]" else []) ++ str " ", col + if optional then 8 else 6)
    else (a ++ (if optional then str "[" else []) ++ str "=#" ++ (if optional then str "]" else []) ++ str " ", col + if optional then 5 else 3).

(** The sentence before the names of a type and their number. *)
Definition typelib_help (optp : my_option) : option (list Z * nat) :=
  let count := length (o_typelib optp) in
  match o_var_type optp with
  | GET_ENUM => Some (str ". One of: ", count)
  | GET_SET => Some (str ". Any combination of: ", count)
  | GET_FLAGSET =>
      Some (str ". Takes a comma-separated list of option=value pairs, where value is on, off, or default, and options are: ", (count - 1)%nat)
  | _ => None
  end.

Definition typelib_comments (optp : my_option) (comment : list Z) : option (list (list Z)) :=
  match typelib_help optp with
  | None => Some []
  | Some (help, count) =>
      first ← head (o_typelib optp);
      Some (if found (strstr comment first) then []
            else help :: first :: concat (map (fun name => [str ", "; name]) (drop 1 (take count (o_typelib optp)))))
  end.

Definition NAME_SPACE : Z := 22.
Definition COMMENT_SPACE : Z := 57.

Definition print_option (optp : my_option) : option (list Z) :=
  match o_comment optp with
  | None => Some []
  | Some comment =>
      let '(head, col) := option_head optp in
      body ← (if bool_decide (comment = []) then Some []
              else
                let '(nl, col) := if NAME_SPACE <? col then ([c_nl], 0) else ([], col) in
                names ← typelib_comments optp comment;
                '(out, _) ← print_comments (comment :: (if o_auto optp then [str " (Automatically configured unless set explicitly)"] else []) ++ names)
                              col NAME_SPACE COMMENT_SPACE;
                Some (nl ++ out));
      Some (head ++ body ++ [c_nl]
            ++ if bool_decide (o_var_type optp = GET_BOOL) && negb (o_def_value optp =? 0)
               then spaces NAME_SPACE ++ str "(Defaults to on; use --skip-" ++ print_name optp ++ str " to disable.)" ++ [c_nl] else [])
  end.

Fixpoint my_print_help (options : list my_option) : option (list Z) :=
  match options with
  | [] => Some []
  | o :: options' => a ← print_option o; b ← my_print_help options'; Some (a ++ b)
  end.

(** ** Variables *)

Section variables.
Context {S : Type} `{Variables S} (getopt_get_addr : list Z -> my_option -> Z * option var) (print_double : Z -> list Z) (s : S).

(** The members of a set: commas between them and a newline after the last. *)
Fixpoint print_set (names : TYPELIB) (llvalue : Z) : list Z :=
  match names with
  | [] => []
  | n :: names' =>
      if llvalue =? 0 then []
      else (if Z.odd llvalue then n ++ (if 1 <? llvalue then str "," else [c_nl]) else []) ++ print_set names' (Z.shiftr llvalue 1)
  end.

Fixpoint print_flags (names : TYPELIB) (first : bool) (llvalue : Z) : list Z :=
  match names with
  | [] => []
  | n :: names' =>
      if llvalue =? 0 then []
      else (if first then [] else str ",") ++ n ++ str "=" ++ (if Z.odd llvalue then str "on" else str "off") ++ print_flags names' false (Z.shiftr llvalue 1)
  end.

Definition print_bool (b : bool) : list Z := (if b then str "TRUE" else str "FALSE") ++ [c_nl].

Definition print_value (optp : my_option) (value : val) : list Z :=
  let n := num_of value in
  match o_var_type optp with
  | GET_SET => if n =? 0 then [c_nl] else print_set (o_typelib optp) n
  | GET_FLAGSET => print_flags (o_typelib optp) true n ++ [c_nl]
  | GET_ENUM => Typelib.get_type (o_typelib optp) (Z.to_nat n) ++ [c_nl]
  | GET_STR | GET_STR_ALLOC => match value with VStr (Some t) => t | _ => str "(No default value)" end ++ [c_nl]
  | GET_BOOL => print_bool (negb (n =? 0))
  | GET_BIT => print_bool (xorb (negb (Z.land n (Z.abs (o_block_size optp)) =? 0)) (o_block_size optp <? 0))
  | GET_INT | GET_LONG | GET_LL => longlong10_to_str n (-10) ++ [c_nl]
  | GET_UINT | GET_ULONG | GET_ULL => longlong10_to_str n 10 ++ [c_nl]
  | GET_DOUBLE => print_double n ++ [c_nl]
  | GET_NO_ARG => str "(No default value)" ++ [c_nl]
  | GET_DISABLED => str "(Disabled)" ++ [c_nl]
  end.

Definition print_variable (name_space : Z) (optp : my_option) : list Z :=
  match (if o_ask_addr optp then snd (getopt_get_addr [] optp) else o_value optp) with
  | None => []
  | Some v => print_name optp ++ spaces (name_space - Z.of_nat (length (o_name optp))) ++ print_value optp (get_var v s)
  end.

Definition my_print_variables (options : list my_option) : list Z :=
  let name_space := fold_left (fun n o => Z.max n (Z.of_nat (length (o_name o)) + 1)) options 34 in
  let head := str "and boolean options {FALSE|TRUE}" in
  [c_nl] ++ str "Variables (--variable-name=value)" ++ [c_nl]
  ++ head ++ spaces (name_space - Z.of_nat (length head)) ++ str "Value (after reading options)" ++ [c_nl]
  ++ map (fun i => if Z.of_nat i =? name_space then " "%chr else "-"%chr) (seq 1 74) ++ [c_nl]
  ++ concat (map (print_variable name_space) options).

End variables.

(** ** How comments are wrapped *)

(** The parts of a text between separators. *)
Fixpoint parts (sep : Z -> bool) (s : list Z) : list (list Z) :=
  match s with
  | [] => [[]]
  | c :: s' => if sep c then [] :: parts sep s' else match parts sep s' with w :: ws => (c :: w) :: ws | [] => [] end
  end.

Definition lines : list Z -> list (list Z) := parts (fun c => c =? c_nl).
Definition words (s : list Z) : list (list Z) := filter (fun w => w <> []) (parts (fun c => (c =? " "%chr) || (c =? c_nl)) s).

Lemma parts_cons sep s : exists w ws, parts sep s = w :: ws.
Proof. induction s as [|c s (w & ws & IH)]; cbn; [eauto|]. rewrite IH. destruct (sep c); eauto. Qed.

Lemma parts_app sep a c b : sep c = true -> parts sep (a ++ c :: b) = parts sep a ++ parts sep b.
Proof.
  intros Hc. induction a as [|x a IH]; cbn; [by rewrite Hc|]. rewrite IH. destruct (sep x); [done|].
  destruct (parts_cons sep a) as (w & ws & ->). done.
Qed.

Lemma parts_none sep a : forallb (fun c => negb (sep c)) a = true -> parts sep a = [a].
Proof. induction a as [|x a IH]; cbn; [done|]. intros [Hx Ha]%andb_prop. apply negb_true_iff in Hx. by rewrite Hx, IH. Qed.

Lemma parts_length sep s : Forall (fun w => (length w <= length s)%nat) (parts sep s).
Proof.
  induction s as [|c s IH]; cbn; [by repeat constructor|]. destruct (sep c).
  - constructor; [cbn; lia|]. eapply Forall_impl; [exact IH|]. cbn. lia.
  - destruct (parts_cons sep s) as (w & ws & Heq). rewrite Heq in *. inversion IH; subst. constructor; [cbn; lia|].
    eapply Forall_impl; [done|]. cbn. lia.
Qed.

Lemma words_app a c b : c = " "%chr \/ c = c_nl -> words (a ++ c :: b) = words a ++ words b.
Proof. intros Hc. unfold words. rewrite parts_app; [apply filter_app|]. by destruct Hc as [->| ->]. Qed.

Lemma words_sep c b : c = " "%chr \/ c = c_nl -> words (c :: b) = words b.
Proof. apply (words_app []). Qed.

Lemma words_spaces n s : words (spaces n ++ s) = words s.
Proof. unfold spaces. induction (Z.to_nat n) as [|k IH]; [done|]. cbn [repeat app]. by rewrite words_sep by auto. Qed.

Lemma words_skip s : words (skip_while is_space s) = words s.
Proof.
  induction s as [|c s IH]; [done|]. cbn [skip_while]. destruct (c =? 0); [done|]. unfold is_space at 1. destruct (Z.eqb_spec c " "%chr) as [->|]; [|done].
  by rewrite IH, words_sep by auto.
Qed.

Lemma words_length s : Forall (fun w => (length w <= length s)%nat) (words s).
Proof.
  unfold words. apply Forall_forall. intros w [_ Hw]%list_elem_of_filter. pose proof (parts_length (fun c => (c =? " "%chr) || (c =? c_nl)) s) as H.
  rewrite Forall_forall in H. by apply H.
Qed.

Lemma skip_spaces s : exists k, skip_while is_space s = drop k s.
Proof.
  induction s as [|c s (k & IH)]; cbn; [by exists 0%nat|]. destruct (c =? 0); [by exists 0%nat|]. destruct (is_space c); [by exists (S k)|by exists 0%nat].
Qed.

Lemma skip_shorter s : deref s = " "%chr -> (length (skip_while is_space s) < length s)%nat.
Proof.
  destruct s as [|c s]; [done|]. cbn. intros ->. cbn. destruct (skip_spaces s) as (k & ->). rewrite length_drop. lia.
Qed.

Lemma line_end_spec comment n :
  let k := line_end comment n in
  (k <= n)%nat /\ (k = 0%nat \/ at_ comment k = " "%chr) /\ forall j, (k < j <= n)%nat -> at_ comment j <> " "%chr.
Proof.
  induction n as [|n (IH1 & IH2 & IH3)]; cbn [line_end]; [split_and!; auto; lia|].
  destruct (Z.eqb_spec (at_ comment (S n)) " "%chr) as [He|He]; [split_and!; auto; lia|].
  split_and!; [lia|done|]. intros j Hj. destruct (decide (j = S n)) as [->|]; [done|]. apply IH3. lia.
Qed.

(** A text without a space among its first characters begins with a long word. *)
Lemma long_word s n : c_nl ∉ s -> (n < length s)%nat -> (forall j, (j <= n)%nat -> at_ s j <> " "%chr) -> Exists (fun w => (n < length w)%nat) (words s).
Proof.
  intros Hnl Hlen Hj. unfold words.
  assert (H : exists w ws, parts (fun c => (c =? " "%chr) || (c =? c_nl)) s = w :: ws /\ (n < length w)%nat).
  { revert n Hlen Hj. induction s as [|c s IH]; intros n Hlen Hj; [cbn in Hlen; lia|]. apply not_elem_of_cons in Hnl as [Hc Hnl].
    specialize (IH Hnl). pose proof (Hj 0%nat ltac:(lia)) as H0. cbn in H0. cbn [parts].
    rewrite (proj2 (Z.eqb_neq c " "%chr)) by done. rewrite (proj2 (Z.eqb_neq c c_nl)) by done. cbn [orb].
    destruct n as [|n]; [destruct (parts_cons (fun c => (c =? " "%chr) || (c =? c_nl)) s) as (w & ws & ->); exists (c :: w), ws; split; [done|cbn; lia]|].
    cbn in Hlen. destruct (IH n) as (w & ws & -> & Hw); [lia|intros j Hjn; apply (Hj (S j)); lia|]. exists (c :: w), ws. split; [done|cbn; lia]. }
  destruct H as (w & ws & -> & Hw). destruct w; [cbn in Hw; lia|]. rewrite filter_cons_True by done. by constructor.
Qed.

Lemma lines_one s : c_nl ∉ s -> lines s = [s].
Proof.
  intros Hs. apply parts_none, forallb_forall. intros c Hc. apply negb_true_iff, Z.eqb_neq. intros ->. by apply Hs, list_elem_of_In.
Qed.

Lemma spaces_no_nl n : c_nl ∉ spaces n.
Proof. unfold spaces. intros Hin%list_elem_of_In%repeat_spec. done. Qed.

Lemma part_of_drop (x : Z) s n : x ∈ drop n s -> x ∈ s.
Proof. rewrite <-(take_drop n s) at 2. set_solver. Qed.

Lemma part_of_take (x : Z) s n : x ∈ take n s -> x ∈ s.
Proof. rewrite <-(take_drop n s) at 2. set_solver. Qed.

Lemma at_deref_drop s n : at_ s n = deref (drop n s).
Proof. unfold at_. revert s. induction n as [|n IH]; intros [|c s]; try done. cbn. apply IH. Qed.

Section wrap.
Context (startpos width : Z).
Hypothesis (Hstart : 0 <= startpos) (Hwidth : 0 < width).

Definition fits (w : list Z) : Prop := Z.of_nat (length w) <= width.

(** The comment is divided at the end of the line. *)
Lemma line_words comment curpos : 
  let n := line_end comment (Z.to_nat (startpos + width - curpos)) in
  words comment = words (take n comment) ++ words (skip_while is_space (drop n comment)).
Proof.
  intros n. destruct (line_end_spec comment (Z.to_nat (startpos + width - curpos))) as (_ & Hsp & _). fold n in Hsp. rewrite words_skip.
  destruct Hsp as [->|Hsp]; [done|]. rewrite at_deref_drop in Hsp. destruct (drop n comment) as [|c r] eqn:Hd; [done|].
  rewrite <-(take_drop n comment) at 1. rewrite Hd. cbn in Hsp. subst c. rewrite words_app by auto. by rewrite (words_sep " "%chr r) by auto.
Qed.

(** The rest of the comment is shorter, unless the comment begins in the middle
    of a line or with a long word. *)
Lemma line_progress comment curpos :
  c_nl ∉ comment -> Forall fits (words comment) -> startpos <= curpos -> startpos + width - curpos < Z.of_nat (length comment) ->
  let rest := skip_while is_space (drop (line_end comment (Z.to_nat (startpos + width - curpos))) comment) in
  (length rest <= length comment)%nat /\ (curpos = startpos -> (length rest < length comment)%nat) /\ c_nl ∉ rest.
Proof.
  intros Hnl Hfit Hcur Hlen rest. unfold rest. clear rest. set (n := line_end _ _).
  destruct (line_end_spec comment (Z.to_nat (startpos + width - curpos))) as (Hle & Hsp & Hno). fold n in Hle, Hsp, Hno.
  destruct (skip_spaces (drop n comment)) as (k & Hk). split_and!.
  - rewrite Hk, !length_drop. lia.
  - intros ->. destruct (decide (n = 0%nat)) as [Hn|Hn]; [|rewrite Hk, !length_drop; lia]. rewrite Hn in *. rewrite drop_0.
    destruct (decide (deref comment = " "%chr)) as [Hs|Hs]; [by apply skip_shorter|]. exfalso.
    pose proof (long_word comment (Z.to_nat width) Hnl ltac:(lia)) as Hlong. rewrite Forall_forall in Hfit.
    apply Exists_exists in Hlong as (w & Hw & Hl); [pose proof (Hfit w Hw); unfold fits in *; lia|].
    intros j Hj. destruct j as [|j]; [by rewrite at_deref_drop, drop_0|]. apply Hno. lia.
  - rewrite Hk, drop_drop. intros Hin. by apply Hnl, (part_of_drop _ _ (n + k)).
Qed.

Definition last_line (s : list Z) : list Z := List.last (lines s) [].

(** The columns of a text that begins at a position. *)
Definition within (pos : Z) (out : list Z) (col : Z) : Prop :=
  (pos <= startpos + width -> Forall (fun l => Z.of_nat (length l) <= startpos + width) (lines (spaces pos ++ out)))
  /\ Z.of_nat (length (last_line (spaces pos ++ out))) = col.

Lemma lines_app a b : lines (a ++ c_nl :: b) = lines a ++ lines b.
Proof. by apply parts_app. Qed.

Lemma length_spaces n : 0 <= n -> Z.of_nat (length (spaces n)) = n.
Proof. intros. unfold spaces. rewrite repeat_length. lia. Qed.

Lemma last_app {A} (a b : list A) d : b <> [] -> List.last (a ++ b) d = List.last b d.
Proof. intros Hb. induction a as [|x a IH]; [done|]. cbn. rewrite IH. destruct (a ++ b) eqn:E; [|done]. by apply app_eq_nil in E as [_ ?]. Qed.

Lemma print_lines_ends fuel comment curpos :
  c_nl ∉ comment -> Forall fits (words comment) -> startpos <= curpos -> (length comment + (if decide (curpos = startpos) then 0 else 1) < fuel)%nat ->
  exists out col, print_lines fuel comment curpos startpos (startpos + width) = Some (out, col) /\ words out = words comment /\ within curpos out col.
Proof.
  revert comment curpos. induction fuel as [|fuel IH]; intros comment curpos Hnl Hfit Hcur Hfuel; [lia|]. cbn [print_lines].
  destruct (Z.ltb_spec (startpos + width - curpos) (Z.of_nat (length comment))) as [Hlt|Hge].
  - destruct (line_progress comment curpos Hnl Hfit Hcur Hlt) as (Hle & Hshort & Hnl'). pose proof (line_words comment curpos) as Hw. cbn zeta in Hle, Hshort, Hnl', Hw.
    destruct (line_end_spec comment (Z.to_nat (startpos + width - curpos))) as (Hn & _). set (n := line_end _ _) in *. rewrite Hw in Hfit. apply Forall_app in Hfit as [_ Hfit].
    destruct (IH (skip_while is_space (drop n comment)) startpos Hnl' Hfit ltac:(lia)) as (out & col & -> & Hout & Hin & Hcol).
    { rewrite decide_True by done. destruct (decide (curpos = startpos)); [specialize (Hshort e)|]; lia. }
    cbn. eexists _, _. split; [done|]. split.
    { rewrite words_app by auto. by rewrite words_spaces, Hout, Hw. }
    assert (Hlines : lines (spaces curpos ++ take n comment ++ c_nl :: spaces startpos ++ out) = (spaces curpos ++ take n comment) :: lines (spaces startpos ++ out)).
    { rewrite app_assoc, lines_app, lines_one; [done|]. rewrite elem_of_app. intros [?%spaces_no_nl|Hin2]; [done|]. by apply Hnl, (part_of_take _ _ n). }
    split.
    + intros Hc. rewrite Hlines. constructor; [|apply Hin; lia]. rewrite length_app, length_take, Nat2Z.inj_add, length_spaces by lia. lia.
    + unfold last_line. rewrite Hlines. change (?x :: ?y) with ([x] ++ y). rewrite last_app; [done|]. destruct (parts_cons (fun c => c =? c_nl) (spaces startpos ++ out)) as (? & ? & E). unfold lines. by rewrite E.
  - eexists _, _. split; [done|]. split; [done|]. unfold within, last_line. rewrite lines_one by (rewrite elem_of_app; intros [?%spaces_no_nl|?]; done).
    cbn. rewrite length_app, Nat2Z.inj_add, length_spaces by lia. split; [|done]. intros. repeat constructor. rewrite length_app, Nat2Z.inj_add, length_spaces; lia.
Qed.

(** A comment with a long word is never printed. *)
Lemma print_lines_fits fuel comment curpos r : startpos <= curpos -> print_lines fuel comment curpos startpos (startpos + width) = Some r -> Forall fits (words comment).
Proof.
  revert comment curpos r. induction fuel as [|fuel IH]; intros comment curpos r Hcur; cbn [print_lines];
    (destruct (Z.ltb_spec (startpos + width - curpos) (Z.of_nat (length comment))) as [Hlt|Hge];
      [|intros _; eapply Forall_impl; [apply words_length|]; unfold fits; cbn; lia]); [done|].
  set (n := line_end _ _). destruct (print_lines fuel _ _ _ _) as [r'|] eqn:E; [|done]. intros _. apply IH in E; [|lia].
  pose proof (line_words comment curpos) as Hw. cbn zeta in Hw. fold n in Hw. rewrite Hw. apply Forall_app. split; [|done].
  destruct (line_end_spec comment (Z.to_nat (startpos + width - curpos))) as (Hn & _). fold n in Hn.
  eapply Forall_impl; [apply words_length|]. unfold fits. cbn. intros w. rewrite length_take. lia.
Qed.

End wrap.

Lemma lines_prefix a s w ws : c_nl ∉ a -> lines s = w :: ws -> lines (a ++ s) = (a ++ w) :: ws.
Proof.
  intros Ha Hs. induction a as [|c a IH]; [done|]. apply not_elem_of_cons in Ha as [Hc Ha]. cbn [app lines parts]. unfold lines in *. cbn [parts].
  rewrite (proj2 (Z.eqb_neq c c_nl)) by done. by rewrite IH.
Qed.

#[global] Instance fits_dec width w : Decision (fits width w).
Proof. unfold fits. apply _. Defined.

(** The columns depend only on how many characters come before. *)
Lemma within_prefix startpos width pos a out col :
  c_nl ∉ a -> Z.of_nat (length a) = pos -> pos <= startpos + width -> within startpos width pos out col ->
  Forall (fun l => Z.of_nat (length l) <= startpos + width) (lines (a ++ out)) /\ Z.of_nat (length (last_line (a ++ out))) = col.
Proof.
  intros Ha Hl Hpos [Hin Hlast]. specialize (Hin Hpos). unfold last_line in *. destruct (parts_cons (fun c => c =? c_nl) out) as (w & ws & Hout). fold (lines out) in Hout.
  rewrite (lines_prefix (spaces pos) out w ws) in Hin, Hlast by (done || apply spaces_no_nl). rewrite (lines_prefix a out w ws) by done.
  inversion Hin as [|? ? Hw Hws]; subst. rewrite length_app, Nat2Z.inj_add, length_spaces in Hw by lia. split.
  - constructor; [|done]. rewrite length_app. lia.
  - destruct ws as [|w' ws]; cbn [List.last] in *; [|done]. rewrite !length_app, !Nat2Z.inj_add, length_spaces by lia. done.
Qed.

Lemma leading_cases comment : leading comment = [] \/ exists c, leading comment = [c] /\ c <> c_nl.
Proof.
  unfold leading. destruct comment as [|c s]; cbn; [by left|]. destruct (Z.eqb_spec c "."%chr) as [->|]; [right; by exists "."%chr|].
  destruct (Z.eqb_spec c ","%chr) as [->|]; [right; by exists ","%chr|by left].
Qed.

(** The comment of an option is wrapped to its column: behind a full stop or
    comma at its beginning, the words of the comment are printed in their
    order, every line starts at the column and ends within its width, and the
    position that is returned is the length of the last line.  This needs that
    every word fits into the width: a comment with a longer word is printed
    forever. *)
Theorem print_comment_wraps (comment : list Z) (curpos startpos width : Z) :
  0 <= curpos <= startpos -> 0 < width -> c_nl ∉ comment ->
  let body := drop (length (leading comment)) comment in
  (Forall (fits width) (words body) ->
     exists out col, print_comment comment curpos startpos width = Some (spaces (startpos - curpos) ++ leading comment ++ out, col)
       /\ words out = words body
       /\ Forall (fun l => Z.of_nat (length l) <= startpos + width) (lines (spaces startpos ++ leading comment ++ out))
       /\ Z.of_nat (length (last_line (spaces startpos ++ leading comment ++ out))) = col)
  /\ (~ Forall (fits width) (words body) -> forall fuel, print_comment_for fuel comment curpos startpos width = None).
Proof.
  intros Hpos Hwidth Hnl body. set (p := leading comment) in *. unfold print_comment, print_comment_for. fold p.
  assert (Hp : (length p <= 1)%nat /\ c_nl ∉ p) by (destruct (leading_cases comment) as [Hl|(c & Hl & Hc)]; unfold p; rewrite Hl; [split; [cbn; lia|set_solver]|split; [done|set_solver]]).
  rewrite Z.max_r by lia. fold body. split.
  - intros Hfit. destruct (print_lines_ends startpos width ltac:(lia) Hwidth (S (S (length comment))) body (startpos + Z.of_nat (length p))) as (out & col & -> & Hw & Hin); [| |lia| |].
    + intros Hin. by apply Hnl, (part_of_drop _ _ (length p)).
    + done.
    + unfold body. rewrite length_drop. destruct (decide _); lia.
    + exists out, col. cbn. split; [done|]. split; [done|]. rewrite !(app_assoc (spaces startpos)).
      apply (within_prefix _ _ (startpos + Z.of_nat (length p))); [| |lia|done].
      * rewrite elem_of_app. intros [?%spaces_no_nl|?]; [done|]. by apply Hp.
      * rewrite length_app, Nat2Z.inj_add, length_spaces; lia.
  - intros Hno fuel. destruct (print_lines fuel body _ _ _) as [r|] eqn:E; [|done]. by apply print_lines_fits in E; [|lia..].
Qed.

(** The comment of an option of the client. *)
Lemma print_comment_wraps_witness :
  (exists out col, print_comment (str "Wait and retry if connection is down.") 13 22 20 = Some (out, col)
     /\ lines out = [str "         Wait and retry if"; str "                      connection is down."] /\ col = 41)
  /\ forall fuel, print_comment_for fuel (str "connection") 0 2 9 = None.
Proof.
  split.
  - destruct (print_comment_wraps (str "Wait and retry if connection is down.") 13 22 20) as [H _]; [lia..|by apply (bool_decide_eq_true_1 _); vm_compute|].
    destruct H as (out & col & Heq & Hrest); [by apply (bool_decide_eq_true_1 _); vm_compute|].
    exists (spaces (22 - 13) ++ leading (str "Wait and retry if connection is down.") ++ out), col. split; [exact Heq|].
    assert (Hv : print_comment (str "Wait and retry if connection is down.") 13 22 20
      = Some (str "         Wait and retry if" ++ c_nl :: str "                      connection is down.", 41)) by (vm_compute; reflexivity).
    rewrite Hv in Heq. injection Heq as <- <-. split; [vm_compute|]; reflexivity.
  - apply (print_comment_wraps (str "connection") 0 2 9); [lia..|by apply (bool_decide_eq_true_1 _); vm_compute|].
    intros H%(bool_decide_eq_true_2 _). vm_compute in H. discriminate H.
Defined.
