(* ===== verification/Base64.v ===== *)
(** * Base64 (mysys/base64.c)

    The encoder reads three bytes at a time and writes four characters, with
    a newline after every 76; the decoder is a small machine that collects
    four characters at a time and skips blanks.  The theorems say that
    decoding gives back the bytes that were encoded, wherever blanks are
    added, and that the encoder writes exactly as many bytes as
    [my_base64_needed_encoded_length] announces. *)

From S2P Require Import Prelude.

Definition base64_table : list Z :=
  str "ABCDEFGHIJKLMNOPQRSTUVWXYZabcdefghijklmnopqrstuvwxyz0123456789+/".

Definition INT_MAX : Z := 2 ^ 31 - 1.

Definition my_base64_encode_max_arg_length : Z := 1589695686.

(** Signed C division rounds towards zero. *)
Definition my_base64_needed_encoded_length (length_of_data : Z) : Z :=
  let nb_base64_chars := Z.quot (length_of_data + 2) 3 * 4 in
  nb_base64_chars + Z.quot (nb_base64_chars - 1) 76 + 1.

Definition my_base64_decode_max_arg_length : Z := INT_MAX.

(** The conversion to [int] is applied before the division. *)
Definition my_base64_needed_decoded_length (length_of_encoded_data : Z) : Z :=
  int32 (Z.quot (int32 (length_of_encoded_data + 3)) 4 * 3).

(** ** Encoding *)

Definition sextet (c sh : Z) : Z := at_ base64_table (Z.to_nat (Z.land (Z.shiftr c sh) 63)).

(** The bits of up to three bytes, [s] being what is left of the source. *)
Definition collect (s : list Z) : Z :=
  let c := Z.shiftl (at_ s 0) 8 in
  let c := if (1 <? length s)%nat then c + at_ s 1 else c in
  let c := Z.shiftl c 8 in
  if (2 <? length s)%nat then c + at_ s 2 else c.

Definition encode_group (s : list Z) : list Z :=
  let c := collect s in
  [sextet c 18; sextet c 12;
   if (length s <? 2)%nat then "="%chr else sextet c 6;
   if (length s <? 3)%nat then "="%chr else sextet c 0].

Fixpoint encode_loop (fuel : nat) (s : list Z) (len : nat) : list Z :=
  match fuel, s with
  | S fuel', _ :: _ =>
      let '(newline, len) := if (len =? 76)%nat then ([c_nl], O) else ([], len) in
      newline ++ encode_group s ++ encode_loop fuel' (drop 3 s) (len + 4)
  | _, _ => []
  end.

(** What is stored at [dst], without the terminating NUL. *)
Definition my_base64_encode (src : list Z) : list Z := encode_loop (length src) src 0.

(** ** Decoding *)

Record MY_BASE64_DECODER := mkDecoder {
  src : list Z;
  c : Z;
  error : bool;
  state : nat;
  mark : nat
}.

Definition from_base64_table : list Z :=
  [(-1); (-1); (-1); (-1); (-1); (-1); (-1); (-1); (-1); (-2); (-2); (-2); (-2); (-2); (-1); (-1);
   (-1); (-1); (-1); (-1); (-1); (-1); (-1); (-1); (-1); (-1); (-1); (-1); (-1); (-1); (-1); (-1);
   (-2); (-1); (-1); (-1); (-1); (-1); (-1); (-1); (-1); (-1); (-1); 62; (-1); (-1); (-1); 63;
   52; 53; 54; 55; 56; 57; 58; 59; 60; 61; (-1); (-1); (-1); (-1); (-1); (-1);
   (-1); 0; 1; 2; 3; 4; 5; 6; 7; 8; 9; 10; 11; 12; 13; 14;
   15; 16; 17; 18; 19; 20; 21; 22; 23; 24; 25; (-1); (-1); (-1); (-1); (-1);
   (-1); 26; 27; 28; 29; 30; 31; 32; 33; 34; 35; 36; 37; 38; 39; 40;
   41; 42; 43; 44; 45; 46; 47; 48; 49; 50; 51; (-1); (-1); (-1); (-1); (-1);
   (-1); (-1); (-1); (-1); (-1); (-1); (-1); (-1); (-1); (-1); (-1); (-1); (-1); (-1); (-1); (-1);
   (-1); (-1); (-1); (-1); (-1); (-1); (-1); (-1); (-1); (-1); (-1); (-1); (-1); (-1); (-1); (-1);
   (-2); (-1); (-1); (-1); (-1); (-1); (-1); (-1); (-1); (-1); (-1); (-1); (-1); (-1); (-1); (-1);
   (-1); (-1); (-1); (-1); (-1); (-1); (-1); (-1); (-1); (-1); (-1); (-1); (-1); (-1); (-1); (-1);
   (-1); (-1); (-1); (-1); (-1); (-1); (-1); (-1); (-1); (-1); (-1); (-1); (-1); (-1); (-1); (-1);
   (-1); (-1); (-1); (-1); (-1); (-1); (-1); (-1); (-1); (-1); (-1); (-1); (-1); (-1); (-1); (-1);
   (-1); (-1); (-1); (-1); (-1); (-1); (-1); (-1); (-1); (-1); (-1); (-1); (-1); (-1); (-1); (-1);
   (-1); (-1); (-1); (-1); (-1); (-1); (-1); (-1); (-1); (-1); (-1); (-1); (-1); (-1); (-1); (-1)].

Definition from_base64 (ch : Z) : Z := nth (Z.to_nat ch) from_base64_table (-1).

Definition is_space64 (ch : Z) : bool := from_base64 ch =? -2.

Definition set_src (d : MY_BASE64_DECODER) (p : list Z) : MY_BASE64_DECODER :=
  mkDecoder p (c d) (error d) (state d) (mark d).

Definition set_error (d : MY_BASE64_DECODER) (e : bool) : MY_BASE64_DECODER :=
  mkDecoder (src d) (c d) e (state d) (mark d).

Definition next_state (d : MY_BASE64_DECODER) : MY_BASE64_DECODER :=
  mkDecoder (src d) (c d) (error d) (S (state d)) (mark d).

Fixpoint skip_spaces64 (p : list Z) : list Z :=
  match p with
  | ch :: p' => if is_space64 ch then skip_spaces64 p' else p
  | [] => []
  end.

(** The functions return the C truth value and the changed decoder. *)
Definition my_base64_decoder_skip_spaces (d : MY_BASE64_DECODER) : bool * MY_BASE64_DECODER :=
  let d := set_src d (skip_spaces64 (src d)) in
  if bool_decide (src d = []) then (true, if (0 <? state d)%nat then set_error d true else d)
  else (false, d).

Definition my_base64_add (d : MY_BASE64_DECODER) : bool * MY_BASE64_DECODER :=
  let bits := Z.shiftl (c d) 6 mod 2 ^ 32 in
  let res := from_base64 (deref (src d)) in
  if res <? 0 then (true, mkDecoder (drop 1 (src d)) bits true (state d) (mark d))
  else (false, mkDecoder (drop 1 (src d)) ((bits + res) mod 2 ^ 32) (error d) (state d) (mark d)).

Definition my_base64_decoder_getch (d : MY_BASE64_DECODER) : bool * MY_BASE64_DECODER :=
  let '(stop, d) := my_base64_decoder_skip_spaces d in
  if stop then (true, d)
  else
    let at_char := src d in
    let '(bad, d) := my_base64_add d in
    if negb bad then
      if (0 <? mark d)%nat then (true, set_src (set_error d true) at_char)
      else (false, next_state d)
    else if ((state d =? 2) || (state d =? 3))%nat && (deref at_char =? "="%chr) then
      (false, next_state (mkDecoder (src d) (c d) false (state d) (S (mark d))))
    else (true, set_src d at_char).

(** Four characters. *)
Fixpoint getch4 (n : nat) (d : MY_BASE64_DECODER) : bool * MY_BASE64_DECODER :=
  match n with
  | O => (false, d)
  | S n' =>
      let '(stop, d) := my_base64_decoder_getch d in
      if stop then (true, d) else getch4 n' d
  end.

Definition decoded_bytes (c : Z) : list Z :=
  [Z.land (Z.shiftr c 16) 255; Z.land (Z.shiftr c 8) 255; Z.land c 255].

Fixpoint decode_loop (fuel : nat) (multiple : bool) (d : MY_BASE64_DECODER) (dst : list Z)
    : MY_BASE64_DECODER * list Z :=
  match fuel with
  | O => (d, dst)
  | S fuel' =>
      let '(stop, d) := getch4 4 (mkDecoder (src d) 0 (error d) 0 (mark d)) in
      if stop then (d, dst)
      else
        let dst := dst ++ decoded_bytes (c d) in
        if (0 <? mark d)%nat then
          let dst := take (length dst - mark d) dst in
          if multiple then decode_loop fuel' multiple (mkDecoder (src d) (c d) (error d) (state d) 0) dst
          else (d, dst)
        else decode_loop fuel' multiple d dst
  end.

(** The decoded bytes, or [None] for the result -1; and the bytes from
    [end_ptr] on.  Every group takes at least four bytes. *)
Definition my_base64_decode (text : list Z) (multiple : bool) : option (list Z) * list Z :=
  let '(d, dst) := decode_loop (S (length text)) multiple (mkDecoder text 0 false 0 0) [] in
  let '(stop, d) := my_base64_decoder_skip_spaces (mkDecoder (src d) (c d) (error d) 0 (mark d)) in
  let d := if stop then d else set_error d true in
  (if error d then None else Some dst, src d).

(** ** Decoding gives back what was encoded *)

Definition bytes (s : list Z) : Prop := Forall (fun b => 0 <= b < 256) s.

(** A text without the characters the decoder skips. *)
Definition strip (p : list Z) : list Z := filter (fun ch => is_space64 ch = false) p.

Lemma skip_spaces64_cons p ch r :
  strip p = ch :: r -> exists p', skip_spaces64 p = ch :: p' /\ strip p' = r /\ (length p' < length p)%nat.
Proof.
  unfold strip. induction p as [|x p IH]; [done|]. cbn [skip_spaces64]. rewrite filter_cons.
  destruct (is_space64 x) eqn:Hx; case_decide; try done.
  - intros (p' & -> & H1 & H2)%IH. exists p'. split_and!; [done|done|cbn; lia].
  - intros [= -> <-]. exists p. split_and!; [done|done|cbn; lia].
Qed.

Lemma skip_spaces64_nil p : strip p = [] -> skip_spaces64 p = [].
Proof.
  unfold strip. induction p as [|x p IH]; [done|]. cbn [skip_spaces64]. rewrite filter_cons.
  destruct (is_space64 x) eqn:Hx; case_decide; done || auto.
Qed.

Lemma table_inverse x : 0 <= x < 64 -> from_base64 (at_ base64_table (Z.to_nat x)) = x.
Proof.
  intros H. assert (In x (map Z.of_nat (seq 0 64))) as Hin.
  { apply in_map_iff. exists (Z.to_nat x). rewrite in_seq. lia. }
  clear H. revert x Hin. apply List.Forall_forall. vm_compute. repeat constructor.
Qed.

(** Reading one character of the alphabet, and one padding character. *)
Lemma getch_char d x r :
  strip (src d) = at_ base64_table (Z.to_nat x) :: r -> 0 <= x < 64 -> 0 <= c d < 2 ^ 18 -> mark d = O ->
  exists p, my_base64_decoder_getch d = (false, mkDecoder p (c d * 64 + x) (error d) (S (state d)) 0)
    /\ strip p = r /\ (length p < length (src d))%nat.
Proof.
  intros Hs Hx Hc Hm. destruct (skip_spaces64_cons _ _ _ Hs) as (p & Hp & Hr & Hl).
  exists p. split; [|done]. unfold my_base64_decoder_getch, my_base64_decoder_skip_spaces, my_base64_add.
  cbn [src set_src]. rewrite Hp. rewrite bool_decide_eq_false_2 by done. cbn [src set_src c error state mark].
  change (deref (?a :: p)) with a. rewrite table_inverse by done. rewrite (proj2 (Z.ltb_ge _ _)) by lia.
  cbn [negb mark]. rewrite Hm. change (0 <? 0)%nat with false. unfold next_state. cbn [src c error state mark]. rewrite drop_1_cons.
  do 2 f_equal. rewrite Z.shiftl_mul_pow2 by lia. rewrite (Z.mod_small (c d * 2 ^ 6)) by lia. rewrite Z.mod_small; lia.
Qed.

Lemma getch_pad d r :
  strip (src d) = "="%chr :: r -> 0 <= c d < 2 ^ 18 -> (state d = 2 \/ state d = 3)%nat ->
  exists p, my_base64_decoder_getch d = (false, mkDecoder p (c d * 64) false (S (state d)) (S (mark d)))
    /\ strip p = r /\ (length p < length (src d))%nat.
Proof.
  intros Hs Hc Hst. destruct (skip_spaces64_cons _ _ _ Hs) as (p & Hp & Hr & Hl).
  exists p. split; [|done]. unfold my_base64_decoder_getch, my_base64_decoder_skip_spaces, my_base64_add.
  cbn [src set_src]. rewrite Hp. rewrite bool_decide_eq_false_2 by done. cbn [src set_src c error state mark].
  change (deref ("="%chr :: p)) with "="%chr. change (from_base64 "="%chr <? 0) with true.
  cbn [negb state]. replace ((state d =? 2) || (state d =? 3))%nat with true by (by destruct Hst as [-> | ->]).
  cbn [andb Z.eqb Pos.eqb]. unfold next_state. cbn [src c error state mark]. rewrite drop_1_cons.
  do 2 f_equal. rewrite Z.shiftl_mul_pow2 by lia. rewrite Z.mod_small; lia.
Qed.

Lemma sextet_eq n sh : 0 <= sh -> sextet n sh = at_ base64_table (Z.to_nat (n / 2 ^ sh mod 64)).
Proof.
  intros H. unfold sextet. rewrite Z.shiftr_div_pow2 by done. change 63 with (Z.ones 6).
  by rewrite Z.land_ones by lia.
Qed.

(** The number a group encodes. *)
Lemma collect_eq a b x : collect (a :: b :: x :: []) = a * 65536 + b * 256 + x
  /\ collect [a; b] = a * 65536 + b * 256 /\ collect [a] = a * 65536.
Proof. unfold collect. cbn [length Nat.ltb Nat.leb at_ nth]. rewrite !Z.shiftl_mul_pow2 by lia. lia. Qed.

Lemma collect_more a b x s : collect (a :: b :: x :: s) = collect [a; b; x].
Proof. reflexivity. Qed.

Lemma decoded_bytes_eq n : decoded_bytes n = [n / 65536 mod 256; n / 256 mod 256; n mod 256].
Proof.
  unfold decoded_bytes. change 255 with (Z.ones 8). rewrite !Z.land_ones, !Z.shiftr_div_pow2 by lia. done.
Qed.

(** The parts of a number below 2^24. *)
Lemma four_sextets n : 0 <= n < 2 ^ 24 ->
  (((n / 2 ^ 18 mod 64) * 64 + n / 2 ^ 12 mod 64) * 64 + n / 2 ^ 6 mod 64) * 64 + n / 2 ^ 0 mod 64 = n
  /\ 0 <= n / 2 ^ 18 mod 64 < 64 /\ 0 <= n / 2 ^ 12 mod 64 < 64 /\ 0 <= n / 2 ^ 6 mod 64 < 64
  /\ 0 <= n / 2 ^ 0 mod 64 < 64.
Proof.
  intros H. split_and!; try apply Z.mod_pos_bound; try lia.
  change (2 ^ 18) with 262144. change (2 ^ 12) with 4096. change (2 ^ 6) with 64. change (2 ^ 0) with 1.
  Z.to_euclidean_division_equations. lia.
Qed.

(** The state of the decoder in the middle of a text. *)
Definition reading (d : MY_BASE64_DECODER) (n : Z) (st mk : nat) (r : list Z) (len : nat) : Prop :=
  c d = n /\ error d = false /\ state d = st /\ mark d = mk /\ strip (src d) = r /\ (length (src d) <= len)%nat.

Lemma reading_char d n st x r len :
  reading d n st 0 (at_ base64_table (Z.to_nat x) :: r) len -> 0 <= x < 64 -> 0 <= n < 2 ^ 18 ->
  exists d', my_base64_decoder_getch d = (false, d') /\ reading d' (n * 64 + x) (S st) 0 r (len - 1).
Proof.
  intros (Hc & He & Hst & Hm & Hs & Hl) Hx Hn.
  destruct (getch_char d x r) as (p & -> & Hp & Hlen); [done|done|by rewrite Hc|done|].
  eexists. split; [done|]. unfold reading. cbn [src c error state mark]. rewrite Hc, Hst. split_and!; done || lia.
Qed.

Lemma reading_pad d n st mk r len :
  reading d n st mk ("="%chr :: r) len -> 0 <= n < 2 ^ 18 -> (st = 2 \/ st = 3)%nat ->
  exists d', my_base64_decoder_getch d = (false, d') /\ reading d' (n * 64) (S st) (S mk) r (len - 1).
Proof.
  intros (Hc & He & Hst & Hm & Hs & Hl) Hn Hor.
  destruct (getch_pad d r) as (p & -> & Hp & Hlen); [done|by rewrite Hc|by rewrite Hst|].
  eexists. split; [done|]. unfold reading. cbn [src c error state mark]. rewrite Hc, Hst, Hm. split_and!; done || lia.
Qed.

Lemma collect_range s : s <> [] -> bytes s -> 0 <= collect s < 2 ^ 24.
Proof.
  intros Hne Hb. destruct s as [|a [|b [|x s]]]; [done|..]; rewrite ?collect_more; destruct (collect_eq a 0 0) as (_ & _ & H1);
    [rewrite H1; inversion Hb; lia|..].
  - destruct (collect_eq a b 0) as (_ & H2 & _). rewrite H2. inversion Hb as [|? ? ? Hb']; inversion Hb'; lia.
  - destruct (collect_eq a b x) as (H3 & _ & _). rewrite H3.
    inversion Hb as [|? ? ? Hb']; inversion Hb' as [|? ? ? Hb'']; inversion Hb''; lia.
Qed.

(** One group of characters is read as the number it was made from. *)
Lemma getch4_group d s r len :
  s <> [] -> bytes s -> reading d 0 0 0 (encode_group s ++ r) len ->
  exists d', getch4 4 d = (false, d') /\ reading d' (collect s) 4 (3 - length s) r (len - 4).
Proof.
  intros Hne Hb Hd.
  pose proof (collect_range s Hne Hb) as Hn.
  destruct (four_sextets _ Hn) as (Hsum & H1 & H2 & H3 & H4).
  unfold encode_group in Hd. rewrite !sextet_eq in Hd by lia. cbn [app] in Hd.
  destruct (reading_char _ _ _ _ _ _ Hd H1 ltac:(lia)) as (d1 & E1 & Hd1).
  destruct (reading_char _ _ _ _ _ _ Hd1 H2 ltac:(lia)) as (d2 & E2 & Hd2).
  unfold getch4. rewrite E1, E2. clear E1 E2 Hd Hd1 d d1.
  destruct (Nat.ltb_spec (length s) 2) as [Hlt|Hge].
  - assert (Hs1 : exists a, s = [a]) by (destruct s as [|a [|b s]]; [done|by exists a|cbn in Hlt; lia]).
    destruct Hs1 as [a ->]. cbn [length Nat.ltb Nat.leb] in Hd2.
    destruct (reading_pad _ _ _ _ _ _ Hd2 ltac:(lia) ltac:(by left)) as (d3 & -> & Hd3).
    destruct (reading_pad _ _ _ _ _ _ Hd3 ltac:(lia) ltac:(by right)) as (d4 & -> & Hd4).
    exists d4. split; [done|]. destruct (collect_eq a 0 0) as (_ & _ & Hc).
    replace (len - 4)%nat with (len - 1 - 1 - 1 - 1)%nat by lia.
    replace (collect [a]) with ((((0 * 64 + collect [a] / 2 ^ 18 mod 64) * 64 + collect [a] / 2 ^ 12 mod 64) * 64) * 64); [done|].
    rewrite Hc in *. Z.to_euclidean_division_equations. lia.
  - destruct (reading_char _ _ _ _ _ _ Hd2 H3 ltac:(lia)) as (d3 & -> & Hd3).
    destruct (Nat.ltb_spec (length s) 3) as [Hlt|Hge3].
    + assert (Hs2 : exists a b, s = [a; b]).
      { destruct s as [|a [|b [|x s]]]; cbn in *; try lia. by exists a, b. }
      destruct Hs2 as (a & b & ->).
      destruct (reading_pad _ _ _ _ _ _ Hd3 ltac:(lia) ltac:(by right)) as (d4 & -> & Hd4).
      exists d4. split; [done|]. destruct (collect_eq a b 0) as (_ & Hc & _).
      replace (len - 4)%nat with (len - 1 - 1 - 1 - 1)%nat by lia. change (3 - length [a; b])%nat with 1%nat.
      replace (collect [a; b]) with ((((0 * 64 + collect [a; b] / 2 ^ 18 mod 64) * 64 + collect [a; b] / 2 ^ 12 mod 64) * 64
        + collect [a; b] / 2 ^ 6 mod 64) * 64); [done|].
      rewrite Hc in *. Z.to_euclidean_division_equations. lia.
    + destruct (reading_char _ _ _ _ _ _ Hd3 H4 ltac:(lia)) as (d4 & -> & Hd4).
      exists d4. split; [done|]. replace (3 - length s)%nat with 0%nat by lia.
      replace (len - 4)%nat with (len - 1 - 1 - 1 - 1)%nat by lia. rewrite <-Hsum. done.
Qed.

(** The characters without newlines. *)
Fixpoint groups (fuel : nat) (s : list Z) : list Z :=
  match fuel, s with
  | S fuel', _ :: _ => encode_group s ++ groups fuel' (drop 3 s)
  | _, _ => []
  end.

Lemma sextet_not_space n sh : 0 <= sh -> is_space64 (sextet n sh) = false.
Proof.
  intros H. rewrite sextet_eq by done. pose proof (Z.mod_pos_bound (n / 2 ^ sh) 64 ltac:(lia)).
  unfold is_space64. rewrite table_inverse by done. apply Z.eqb_neq. lia.
Qed.

Lemma strip_encode_loop fuel s len : strip (encode_loop fuel s len) = groups fuel s.
Proof.
  revert s len. induction fuel as [|fuel IH]; intros s len; [done|]. destruct s as [|a s]; [done|].
  cbn [encode_loop groups]. set (l := a :: s).
  assert (Hg : strip (encode_group l) = encode_group l).
  { apply filter_all. unfold encode_group. repeat apply Forall_cons_2; try apply Forall_nil_2;
      try destruct (_ <? _)%nat; try done; by apply sextet_not_space. }
  unfold strip in *. destruct (len =? 76)%nat; rewrite !filter_app, Hg, IH; done.
Qed.

Lemma decoded_group s : s <> [] -> bytes s ->
  take (3 - (3 - length s)) (decoded_bytes (collect s)) = take 3 s.
Proof.
  intros Hne Hb. rewrite decoded_bytes_eq.
  destruct s as [|a [|b [|x s]]]; [done|..].
  - destruct (collect_eq a 0 0) as (_ & _ & ->). inversion Hb. cbn. f_equal. Z.to_euclidean_division_equations. lia.
  - destruct (collect_eq a b 0) as (_ & -> & _). inversion Hb as [|? ? ? Hb']; inversion Hb'.
    cbn. repeat f_equal; Z.to_euclidean_division_equations; lia.
  - rewrite collect_more. destruct (collect_eq a b x) as (-> & _ & _).
    replace (3 - (3 - length (a :: b :: x :: s)))%nat with 3%nat by (cbn; lia).
    inversion Hb as [|? ? ? Hb']; inversion Hb' as [|? ? ? Hb'']; inversion Hb''; subst.
    cbn. rewrite take_0. repeat f_equal; Z.to_euclidean_division_equations; lia.
Qed.

Lemma decode_loop_end fuel multiple d dst :
  strip (src d) = [] -> error d = false ->
  exists d', decode_loop (S fuel) multiple d dst = (d', dst) /\ src d' = [] /\ error d' = false.
Proof.
  intros Hs He. cbn [decode_loop]. unfold getch4, my_base64_decoder_getch, my_base64_decoder_skip_spaces.
  cbn [src set_src state error]. rewrite skip_spaces64_nil by done. cbn. rewrite He. eexists. done.
Qed.

Lemma decode_loop_groups fuel k s d dst multiple :
  bytes s -> (length s <= k)%nat -> strip (src d) = groups k s -> error d = false -> mark d = O ->
  (length (src d) < fuel)%nat ->
  exists d', decode_loop fuel multiple d dst = (d', dst ++ s) /\ strip (src d') = [] /\ error d' = false.
Proof.
  revert k s d dst. induction fuel as [|fuel IH]; intros k s d dst Hb Hk Hs He Hm Hf; [lia|].
  destruct s as [|a s].
  { replace (groups k []) with (@nil Z) in Hs by by destruct k.
    destruct (decode_loop_end fuel multiple d dst Hs He) as (d' & -> & H1 & H2).
    exists d'. rewrite app_nil_r, H1. done. }
  destruct k as [|k]; [cbn in Hk; lia|]. cbn [groups] in Hs. set (l := a :: s) in *.
  destruct (getch4_group (mkDecoder (src d) 0 (error d) 0 (mark d)) l (groups k (drop 3 l)) (length (src d)))
    as (d' & Hg & Hc & He' & Hst & Hm' & Hs' & Hl); [done|done|by rewrite Hm|].
  cbn [decode_loop]. rewrite Hg, Hc, Hm'.
  assert (Hlen : (4 <= length (src d))%nat).
  { apply (f_equal length) in Hs. rewrite length_app in Hs. cbn [encode_group length] in Hs.
    pose proof (length_filter (fun ch => is_space64 ch = false) (src d)). unfold strip in Hs. lia. }
  pose proof (decoded_group l ltac:(done) Hb) as Hdec.
  assert (Hlb : length (decoded_bytes (collect l)) = 3%nat) by done.
  destruct (Nat.ltb_spec 0 (3 - length l)) as [Hpad|Hfull].
  - rewrite length_app, Hlb. replace (length dst + 3 - (3 - length l))%nat with (length dst + (3 - (3 - length l)))%nat by lia.
    rewrite take_app_add, Hdec. rewrite take_ge by lia.
    assert (Hrest : strip (src d') = []).
    { rewrite Hs'. replace (drop 3 l) with (@nil Z); [by destruct k|]. symmetry. apply drop_ge. lia. }
    destruct multiple; [|by exists d'].
    destruct fuel as [|fuel]; [lia|].
    destruct (decode_loop_end fuel true (mkDecoder (src d') (collect l) (error d') (state d') 0) (dst ++ l)) as (d2 & -> & H1 & H2);
      [done|done|]. exists d2. by rewrite H1.
  - replace (3 - length l)%nat with 0%nat in * by lia. rewrite Nat.sub_0_r, take_ge in Hdec by (rewrite Hlb; lia).
    rewrite Hdec. destruct (IH k (drop 3 l) d' (dst ++ take 3 l)) as (d2 & -> & H1 & H2); try done.
    + by apply Forall_drop.
    + rewrite length_drop. cbn in Hk |- *. lia.
    + lia.
    + exists d2. rewrite <-app_assoc, take_drop. done.
Qed.

(** C19. Round trip: decoding the base64 text of any bytes gives back exactly
    these bytes, without an error and with the whole text consumed.  The
    blanks in the text do not matter: newlines may be removed from the
    encoder's output and blanks of any kind may be added anywhere, and the
    option for several chunks makes no difference. *)
Theorem base64_roundtrip (data text : list Z) (multiple : bool) :
  bytes data -> strip text = strip (my_base64_encode data) ->
  my_base64_decode text multiple = (Some data, []).
Proof.
  intros Hb Ht. unfold my_base64_encode in Ht. rewrite strip_encode_loop in Ht. unfold my_base64_decode.
  destruct (decode_loop_groups (S (length text)) (length data) data (mkDecoder text 0 false 0 0) [] multiple)
    as (d & -> & Hs & He); try done; [cbn; lia|].
  unfold my_base64_decoder_skip_spaces. cbn [src set_src]. rewrite skip_spaces64_nil by done.
  cbn. by rewrite He.
Qed.

Lemma base64_roundtrip_witness : my_base64_decode (str " AP 8= ") false = (Some [0; 255], []).
Proof. apply (base64_roundtrip [0; 255]); [repeat constructor; lia|by vm_compute]. Defined.

(** ** The size of the encoded text *)

(** [j] groups are already on the line. *)
Lemma encode_loop_length fuel s j :
  (length s <= fuel)%nat -> (j <= 19)%nat ->
  let g := (Z.of_nat (length s) + 2) / 3 in
  Z.of_nat (length (encode_loop fuel s (4 * j)))
  = 4 * g + (if g =? 0 then 0 else (g + Z.of_nat j - 1) / 19).
Proof.
  revert s j. induction fuel as [|fuel IH]; intros s j Hf Hj g.
  { destruct s; [|cbn in Hf; lia]. done. }
  destruct s as [|a s]; [done|]. cbn [encode_loop]. set (l := a :: s) in *.
  assert (Hg : (Z.of_nat (length (drop 3 l)) + 2) / 3 = g - 1).
  { subst g. rewrite length_drop. subst l. cbn [length] in *. Z.to_euclidean_division_equations. lia. }
  assert (Hd : (length (drop 3 l) <= fuel)%nat) by (rewrite length_drop; lia).
  assert (1 <= g) by (subst g l; cbn [length]; Z.to_euclidean_division_equations; lia).
  rewrite (proj2 (Z.eqb_neq g 0)) by lia.
  assert (Hrest : forall k, (k <= 18)%nat ->
    Z.of_nat (length (encode_loop fuel (drop 3 l) (4 * k + 4))) = 4 * (g - 1) + (g + Z.of_nat k - 1) / 19).
  { intros k Hk. replace (4 * k + 4)%nat with (4 * S k)%nat by lia. rewrite IH by lia. rewrite Hg. f_equal.
    destruct (Z.eqb_spec (g - 1) 0).
    - replace g with 1 by lia. symmetry. apply Z.div_small. lia.
    - f_equal. lia. }
  destruct (Nat.eqb_spec (4 * j) 76) as [H76|Hne].
  - replace j with 19%nat by lia. rewrite !length_app, !Nat2Z.inj_add.
    change (0 + 4)%nat with (4 * 0 + 4)%nat. rewrite (Hrest 0%nat) by lia.
    cbn [length encode_group]. replace (g + Z.of_nat 19 - 1) with (g - 1 + 1 * 19) by lia. rewrite Z.div_add by lia.
    replace (g + Z.of_nat 0 - 1) with (g - 1) by lia. lia.
  - rewrite !length_app, !Nat2Z.inj_add. rewrite Hrest by lia. cbn [length encode_group app]. lia.
Qed.

(** The buffer announced by [my_base64_needed_encoded_length] is exactly
    as long as what the encoder writes, newlines and the terminating NUL
    included, for every length up to [my_base64_encode_max_arg_length]; and
    up to that length the computation does not overflow an [int], while for
    the next length it would. *)
Theorem base64_encoded_length (data : list Z) :
  Z.of_nat (length data) <= my_base64_encode_max_arg_length ->
  Z.of_nat (length (my_base64_encode data ++ [0])) = my_base64_needed_encoded_length (Z.of_nat (length data))
  /\ my_base64_needed_encoded_length (Z.of_nat (length data)) <= INT_MAX
  /\ INT_MAX < my_base64_needed_encoded_length (my_base64_encode_max_arg_length + 1).
Proof.
  intros Hmax. set (n := Z.of_nat (length data)) in *.
  unfold my_base64_needed_encoded_length, my_base64_encode_max_arg_length, INT_MAX in *. split_and!.
  - rewrite length_app, Nat2Z.inj_add. unfold my_base64_encode.
    change (encode_loop (length data) data 0) with (encode_loop (length data) data (4 * 0)).
    rewrite (encode_loop_length (length data) data 0) by lia. fold n. set (g := (n + 2) / 3).
    rewrite (Z.quot_div_nonneg (n + 2)) by lia. fold g.
    assert (0 <= g) by (subst g; Z.to_euclidean_division_equations; lia).
    destruct (Z.eqb_spec g 0) as [->|Hg]; [done|]. rewrite Z.quot_div_nonneg by lia.
    cbn [length]. replace (Z.of_nat 0) with 0 by done. Z.to_euclidean_division_equations. lia.
  - rewrite (Z.quot_div_nonneg (n + 2)) by lia.
    destruct (Z.eq_dec n 0) as [->|Hn]; [by vm_compute|].
    rewrite Z.quot_div_nonneg by (Z.to_euclidean_division_equations; lia).
    Z.to_euclidean_division_equations. lia.
  - by vm_compute.
Qed.

Lemma base64_encoded_length_witness :
  Z.of_nat (length (my_base64_encode (repeat 7 60) ++ [0])) = 82 /\ 82 <= INT_MAX
  /\ INT_MAX < my_base64_needed_encoded_length (my_base64_encode_max_arg_length + 1).
Proof. apply (base64_encoded_length (repeat 7 60)). by vm_compute. Defined.

(** The largest length announced as supported overflows. *)
Example needed_decoded_length_overflows :
  my_base64_needed_decoded_length my_base64_decode_max_arg_length = -1610612733.
Proof. reflexivity. Qed.
