(* ===== verification/Pack.v ===== *)
(** * Length-encoded integers of the protocol (sql-common/pack.c)

    Lengths are sent in one, three, four or nine bytes, the first of which
    tells how many follow; 251 stands for NULL.  Storing a number appends
    bytes to the packet; reading one returns it with the bytes behind it.
    The theorem says that the four encodings are read back exactly, and that
    the checked functions fail exactly when the packet is too short. *)

From S2P Require Import Prelude.

(** ** Bytes of an integer (include/byte_order_generic.h) *)

Definition uchar_at (v k : Z) : Z := Z.land (Z.shiftr v k) 255.

Definition int2store (v : Z) : list Z := [uchar_at v 0; uchar_at v 8].
Definition int3store (v : Z) : list Z := [uchar_at v 0; uchar_at v 8; uchar_at v 16].
Definition int4store (v : Z) : list Z := [uchar_at v 0; uchar_at v 8; uchar_at v 16; uchar_at v 24].
Definition int8store (v : Z) : list Z :=
  int4store (v mod 2 ^ 32) ++ int4store (Z.shiftr v 32 mod 2 ^ 32).

Definition uint2korr (p : list Z) : Z := Z.lor (at_ p 0) (Z.shiftl (at_ p 1) 8).
Definition uint3korr (p : list Z) : Z :=
  Z.lor (Z.lor (at_ p 0) (Z.shiftl (at_ p 1) 8)) (Z.shiftl (at_ p 2) 16).
Definition uint4korr (p : list Z) : Z :=
  Z.lor (Z.lor (Z.lor (at_ p 0) (Z.shiftl (at_ p 1) 8)) (Z.shiftl (at_ p 2) 16)) (Z.shiftl (at_ p 3) 24).
Definition uint8korr (p : list Z) : Z := Z.lor (uint4korr p) (Z.shiftl (uint4korr (drop 4 p)) 32).

(** ** The functions of pack.c *)

(** [~0UL] *)
Definition NULL_LENGTH : Z := 2 ^ 64 - 1.

Definition net_length_size (num : Z) : nat :=
  if num <? 251 then 1 else if num <? 65536 then 3 else if num <? 16777216 then 4 else 9.

(** The bytes stored at [packet]. *)
Definition net_store_length (length : Z) : list Z :=
  if length <? 251 then [length mod 256]
  else if length <? 65536 then 252 :: int2store (length mod 2 ^ 32)
  else if length <? 16777216 then 253 :: int3store length
  else 254 :: int8store length.

(** [None] is the result NULL. *)
Definition safe_net_store_length (packet_len : nat) (length : Z) : option (list Z) :=
  if length <? 251 then
    if (packet_len <? 1)%nat then None else Some [length mod 256]
  else if length <? 65536 then
    if (packet_len <? 3)%nat then None else Some (252 :: int2store (length mod 2 ^ 32))
  else if length <? 16777216 then
    if (packet_len <? 4)%nat then None else Some (253 :: int3store length)
  else if (packet_len <? 9)%nat then None else Some (254 :: int8store length).

Definition net_field_length (packet : list Z) : Z * list Z :=
  let pos := deref packet in
  if pos <? 251 then (pos, drop 1 packet)
  else if pos =? 251 then (NULL_LENGTH, drop 1 packet)
  else if pos =? 252 then (uint2korr (drop 1 packet), drop 3 packet)
  else if pos =? 253 then (uint3korr (drop 1 packet), drop 4 packet)
  else (uint4korr (drop 1 packet), drop 9 packet).

Definition net_field_length_ll (packet : list Z) : Z * list Z :=
  let pos := deref packet in
  if pos <? 251 then (pos, drop 1 packet)
  else if pos =? 251 then (NULL_LENGTH, drop 1 packet)
  else if pos =? 252 then (uint2korr (drop 1 packet), drop 3 packet)
  else if pos =? 253 then (uint3korr (drop 1 packet), drop 4 packet)
  else (uint8korr (drop 1 packet), drop 9 packet).

(** [None] is the error, where the packet pointer becomes NULL. *)
Definition safe_net_field_length_ll (packet : list Z) (packet_len : nat) : option (Z * list Z) :=
  if (packet_len <? 1)%nat then None
  else
    let pos := deref packet in
    if pos <? 251 then Some (pos, drop 1 packet)
    else if pos =? 251 then Some (NULL_LENGTH, drop 1 packet)
    else if pos =? 252 then
      if (packet_len <? 3)%nat then None else Some (uint2korr (drop 1 packet), drop 3 packet)
    else if pos =? 253 then
      if (packet_len <? 4)%nat then None else Some (uint3korr (drop 1 packet), drop 4 packet)
    else if (packet_len <? 9)%nat || negb (pos =? 254) then None
    else Some (uint8korr (drop 1 packet), drop 9 packet).

(** ** Bytes as digits *)

Lemma uchar_at_eq v k : 0 <= k -> uchar_at v k = v / 2 ^ k mod 256.
Proof.
  intros H. unfold uchar_at. change 255 with (Z.ones 8). by rewrite Z.land_ones, Z.shiftr_div_pow2 by lia.
Qed.

Lemma byte_range v k : 0 <= v / 2 ^ k mod 256 < 256.
Proof. apply Z.mod_pos_bound. lia. Qed.

Lemma uint2korr_store v r : 0 <= v < 2 ^ 16 -> uint2korr (int2store v ++ r) = v.
Proof.
  intros H. unfold uint2korr, int2store. cbn [app at_ nth]. rewrite !uchar_at_eq by lia.
  rewrite lor_shiftl by (lia || apply byte_range). change (2 ^ 0) with 1. change (2 ^ 8) with 256.
  Z.to_euclidean_division_equations. lia.
Qed.

Lemma uint3korr_store v r : 0 <= v < 2 ^ 24 -> uint3korr (int3store v ++ r) = v.
Proof.
  intros H. unfold uint3korr, int3store. cbn [app at_ nth]. rewrite !uchar_at_eq by lia.
  pose proof (byte_range v 0). pose proof (byte_range v 8).
  rewrite (lor_shiftl _ _ 8), (lor_shiftl _ _ 16) by lia. change (2 ^ 0) with 1. change (2 ^ 8) with 256. change (2 ^ 16) with 65536.
  Z.to_euclidean_division_equations. lia.
Qed.

Lemma uint4korr_store v r : 0 <= v < 2 ^ 32 -> uint4korr (int4store v ++ r) = v.
Proof.
  intros H. unfold uint4korr, int4store. cbn [app at_ nth]. rewrite !uchar_at_eq by lia.
  pose proof (byte_range v 0). pose proof (byte_range v 8). pose proof (byte_range v 16).
  rewrite (lor_shiftl _ _ 8), (lor_shiftl _ _ 16), (lor_shiftl _ _ 24) by lia. change (2 ^ 0) with 1. change (2 ^ 8) with 256. change (2 ^ 16) with 65536.
  change (2 ^ 24) with 16777216. Z.to_euclidean_division_equations. lia.
Qed.

Lemma uint8korr_store v r : 0 <= v < 2 ^ 64 -> uint8korr (int8store v ++ r) = v.
Proof.
  intros H. unfold uint8korr, int8store. rewrite <-app_assoc.
  change (drop 4 (int4store ?a ++ ?l)) with l. rewrite Z.shiftr_div_pow2 by lia.
  pose proof (Z.mod_pos_bound v (2 ^ 32) ltac:(lia)).
  rewrite !uint4korr_store by (apply Z.mod_pos_bound; lia).
  rewrite lor_shiftl by lia. rewrite (Z.mod_small (v / 2 ^ 32)).
  - pose proof (Z.div_mod v (2 ^ 32)). lia.
  - split; [apply Z.div_pos; lia|apply Z.div_lt_upper_bound; lia].
Qed.

(** The three longer forms, by their first byte. *)
Lemma read_252 l room :
  net_field_length_ll (252 :: l) = (uint2korr l, drop 2 l) /\ net_field_length (252 :: l) = (uint2korr l, drop 2 l)
  /\ safe_net_field_length_ll (252 :: l) room = if (room <? 3)%nat then None else Some (uint2korr l, drop 2 l).
Proof. split_and!; [done..|]. unfold safe_net_field_length_ll. by destruct room. Qed.

Lemma read_253 l room :
  net_field_length_ll (253 :: l) = (uint3korr l, drop 3 l) /\ net_field_length (253 :: l) = (uint3korr l, drop 3 l)
  /\ safe_net_field_length_ll (253 :: l) room = if (room <? 4)%nat then None else Some (uint3korr l, drop 3 l).
Proof. split_and!; [done..|]. unfold safe_net_field_length_ll. by destruct room. Qed.

Lemma read_254 l room :
  net_field_length_ll (254 :: l) = (uint8korr l, drop 8 l) /\ net_field_length (254 :: l) = (uint4korr l, drop 8 l)
  /\ safe_net_field_length_ll (254 :: l) room = if (room <? 9)%nat then None else Some (uint8korr l, drop 8 l).
Proof.
  split_and!; [done..|]. unfold safe_net_field_length_ll. destruct room; [done|].
  change (deref (254 :: l)) with 254. cbn [Z.ltb Z.compare Z.eqb negb orb]. by rewrite orb_false_r.
Qed.

(** C29. Lengths survive the wire: for every 64-bit length, the bytes that
    [net_store_length] stores are as many as [net_length_size] announces and
    do not start with the byte for NULL, and the reading functions give the
    length back and stand behind it, whatever follows.  The checked reader
    does the same on a packet that holds all the bytes and fails on every
    shorter one; the checked writer stores the same bytes when they fit and
    nothing otherwise.  The reader with the narrow result agrees below 2^32. *)
Theorem length_encoding_roundtrip (n : Z) (r : list Z) (room : nat) :
  0 <= n < 2 ^ 64 ->
  let bytes := net_store_length n in
  length bytes = net_length_size n /\ deref bytes <> 251
  /\ net_field_length_ll (bytes ++ r) = (n, r)
  /\ (n < 2 ^ 32 -> net_field_length (bytes ++ r) = (n, r))
  /\ safe_net_field_length_ll (bytes ++ r) room
     = (if (room <? net_length_size n)%nat then None else Some (n, r))
  /\ safe_net_store_length room n = (if (room <? net_length_size n)%nat then None else Some bytes).
Proof.
  intros Hn bytes. subst bytes. unfold net_length_size, net_store_length, safe_net_store_length.
  destruct (Z.ltb_spec n 251).
  { rewrite Z.mod_small by lia. unfold net_field_length_ll, net_field_length, safe_net_field_length_ll.
    cbn [length app deref nth]. rewrite (proj2 (Z.ltb_lt n 251)) by done. rewrite drop_1_cons.
    split_and!; try done; try lia. }
  destruct (Z.ltb_spec n 65536); [|destruct (Z.ltb_spec n 16777216)]; cbn [app].
  - rewrite (Z.mod_small n) by lia. destruct (read_252 (int2store n ++ r) room) as (-> & -> & ->).
    rewrite uint2korr_store by lia. by split_and!.
  - destruct (read_253 (int3store n ++ r) room) as (-> & -> & ->). rewrite uint3korr_store by lia. by split_and!.
  - destruct (read_254 (int8store n ++ r) room) as (-> & -> & ->). rewrite uint8korr_store by lia.
    split_and!; try done. intros Hlt. unfold int8store. rewrite <-app_assoc, (Z.mod_small n) by lia.
    rewrite uint4korr_store by lia. done.
Qed.

Lemma length_encoding_roundtrip_witness :
  net_store_length 70000 = [253; 112; 17; 1] /\ net_field_length_ll (net_store_length 70000 ++ [5]) = (70000, [5]).
Proof.
  split; [done|]. destruct (length_encoding_roundtrip 70000 [5] 4) as (_ & _ & H & _); [lia|exact H].
Defined.
