(* ===== verification/Queue.v ===== *)
(** * Priority queues (mysys/queues.c, include/queues.h)

    A queue is a heap in an array whose slot 0 is not used.  The elements are
    pointers; when the queue has [offset_to_queue_pos], every element also
    stores the slot it is in, so that it can be removed without a search.
    Elements are values of a type [A] with decidable equality (their
    addresses), [queue_pos] is the field in which they store their slot, and
    the comparison function is a parameter with the laws of a total preorder.
    The theorems say that every operation keeps the heap and the stored
    positions, and that the queue refines a bag from which the first element
    is always a smallest one. *)

From stdpp Require Import functions.
From Stdlib Require Import ZifyNat.
From S2P Require Import Prelude.

Ltac Zify.zify_post_hook ::= Z.to_euclidean_division_equations.

(** What a comparison function promises. *)
Class CompareLaws {A} (compare : A -> A -> Z) : Prop := {
  compare_sym x y : Z.sgn (compare x y) = - Z.sgn (compare y x);
  compare_trans x y z : compare x y <= 0 -> compare y z <= 0 -> compare x z <= 0
}.

Section queue.
  Context {A : Type} {A_dec : EqDecision A} {A_inh : Inhabited A} (compare : A -> A -> Z).

Record QUEUE := mkQueue {
  root : list A;
  elements : nat;
  max_elements : nat;
  auto_extent : nat;
  offset_to_queue_pos : bool;
  max_at_top : Z;
  queue_pos : A -> nat
}.

Definition set_root (q : QUEUE) (r : list A) (pos : A -> nat) : QUEUE :=
  mkQueue r (elements q) (max_elements q) (auto_extent q) (offset_to_queue_pos q) (max_at_top q) pos.

Definition set_elements (q : QUEUE) (n : nat) : QUEUE :=
  mkQueue (root q) n (max_elements q) (auto_extent q) (offset_to_queue_pos q) (max_at_top q) (queue_pos q).

(** [compare(x, y) * max_at_top] *)
Definition order (m : Z) (x y : A) : Z := compare x y * m.

(** The position is stored in the element. *)
Definition store_pos (offset : bool) (pos : A -> nat) (x : A) (idx : nat) : A -> nat :=
  if offset then <[x := idx]> pos else pos.

(** [malloc] delivers an array of arbitrary contents, or fails. *)
Definition init_queue (memory : option (list A)) (max : nat) (top offset : bool) (extent : nat) (pos : A -> nat)
    : option QUEUE :=
  match memory with
  | None => None
  | Some r => Some (mkQueue r 0 max extent offset (if top then -1 else 1) pos)
  end.

(** [realloc] keeps the slots that fit; [extra] is the contents of new ones. *)
Definition resize_queue (extra : option (list A)) (q : QUEUE) (max : nat) : bool * QUEUE :=
  if (max_elements q =? max)%nat then (false, q)
  else match extra with
       | None => (true, q)
       | Some l =>
           (false, mkQueue (take (S max) (root q ++ l)) (Nat.min (elements q) max) max (auto_extent q)
                     (offset_to_queue_pos q) (max_at_top q) (queue_pos q))
       end.

Definition reinit_queue (extra : option (list A)) (q : QUEUE) (max : nat) (top offset : bool) (extent : nat)
    : bool * QUEUE :=
  resize_queue extra
    (mkQueue (root q) 0 (max_elements q) extent offset (if top then -1 else 1) (queue_pos q)) max.

(** The loop of [insert_at]: parents that come after the element move down.
    The index is halved in every turn. *)
Fixpoint sift_up (fuel : nat) (m : Z) (offset : bool) (r : list A) (pos : A -> nat) (element : A) (idx : nat)
    : list A * (A -> nat) * nat :=
  match fuel with
  | O => (r, pos, idx)
  | S fuel' =>
      let next_index := (idx / 2)%nat in
      if (0 <? next_index)%nat && (order m element (r !!! next_index) <? 0) then
        let x := r !!! next_index in
        sift_up fuel' m offset (<[idx := x]> r) (store_pos offset pos x idx) element next_index
      else (r, pos, idx)
  end.

Definition insert_at (q : QUEUE) (element : A) (idx : nat) : QUEUE :=
  let '(r, pos, i) := sift_up idx (max_at_top q) (offset_to_queue_pos q) (root q) (queue_pos q) element idx in
  set_root q (<[i := element]> r) (store_pos (offset_to_queue_pos q) pos element i).

Definition queue_insert (q : QUEUE) (element : A) : QUEUE :=
  insert_at (set_elements q (S (elements q))) element (S (elements q)).

Definition queue_insert_safe (extra : option (list A)) (q : QUEUE) (element : A) : Z * QUEUE :=
  if (elements q =? max_elements q)%nat then
    if (auto_extent q =? 0)%nat then (2, q)
    else
      let '(failed, q') := resize_queue extra q (max_elements q + auto_extent q) in
      if failed then (1, q') else (0, queue_insert q' element)
  else (0, queue_insert q element).

(** The child of [idx] that comes first. *)
Definition first_child (m : Z) (n : nat) (r : list A) (idx : nat) : nat :=
  let next_index := (idx + idx)%nat in
  if (next_index <? n)%nat && (0 <? order m (r !!! next_index) (r !!! S next_index)) then S next_index else next_index.

Fixpoint sift_down (fuel : nat) (m : Z) (offset : bool) (n : nat) (r : list A) (pos : A -> nat) (element : A)
    (idx : nat) : list A * (A -> nat) * nat :=
  match fuel with
  | O => (r, pos, idx)
  | S fuel' =>
      if (idx <=? n / 2)%nat then
        let next_index := first_child m n r idx in
        if 0 <=? order m (r !!! next_index) element then (r, pos, idx)
        else
          let x := r !!! next_index in
          sift_down fuel' m offset n (<[idx := x]> r) (store_pos offset pos x idx) element next_index
      else (r, pos, idx)
  end.

Definition downheap (q : QUEUE) (idx : nat) : QUEUE :=
  let element := root q !!! idx in
  let '(r, pos, i) :=
    sift_down (elements q) (max_at_top q) (offset_to_queue_pos q) (elements q) (root q) (queue_pos q) element idx in
  set_root q (<[i := element]> r) (store_pos (offset_to_queue_pos q) pos element i).

Fixpoint fix_loop (i : nat) (q : QUEUE) : QUEUE :=
  match i with
  | O => q
  | S i' => fix_loop i' (downheap q i)
  end.

Definition queue_fix (q : QUEUE) : QUEUE := fix_loop (elements q / 2) q.

(** The loop of [queue_replace]: after the first turn the children move up
    without a comparison with the element. *)
Fixpoint sift_hole (fuel : nat) (m : Z) (offset : bool) (n : nat) (first : bool) (r : list A) (pos : A -> nat)
    (element : A) (idx : nat) : list A * (A -> nat) * nat :=
  match fuel with
  | O => (r, pos, idx)
  | S fuel' =>
      if (idx <=? n / 2)%nat then
        let next_index := first_child m n r idx in
        if first && (0 <=? order m (r !!! next_index) element)
        then (<[idx := element]> r, store_pos offset pos element idx, idx)
        else
          let x := r !!! next_index in
          sift_hole fuel' m offset n false (<[idx := x]> r) (store_pos offset pos x idx) element next_index
      else (r, pos, idx)
  end.

Definition queue_replace (q : QUEUE) (idx : nat) : QUEUE :=
  let element := root q !!! idx in
  let '(r, pos, i) :=
    sift_hole (elements q) (max_at_top q) (offset_to_queue_pos q) (elements q) true (root q) (queue_pos q) element idx in
  insert_at (set_root q r pos) element i.

Definition queue_remove (q : QUEUE) (idx : nat) : A * QUEUE :=
  let element := root q !!! idx in
  let q' := set_root q (<[idx := root q !!! elements q]> (root q)) (queue_pos q) in
  (element, queue_replace (set_elements q' (elements q - 1)) idx).

(** The freed array is the empty one. *)
Definition delete_queue (q : QUEUE) : QUEUE := set_root q [] (queue_pos q).

Definition queue_top (q : QUEUE) : A := root q !!! 1%nat.

Definition queue_remove_top (q : QUEUE) : A * QUEUE := queue_remove q 1.

Definition queue_remove_all (q : QUEUE) : QUEUE := set_elements q 0.

(** ** The order *)

  Context {compare_laws : CompareLaws compare}.

Definition le (m : Z) (x y : A) : Prop := order m x y <= 0.

Definition direction (m : Z) : Prop := m = 1 \/ m = -1.

Lemma order_lt m x y : direction m -> order m x y < 0 -> le m x y.
Proof. unfold le. lia. Qed.

Lemma compare_opp x y : compare x y <= 0 <-> 0 <= compare y x.
Proof. pose proof (compare_sym x y). lia. Qed.

Lemma le_flip m x y : direction m -> 0 <= order m x y <-> le m y x.
Proof.
  unfold le, order. pose proof (compare_opp x y). pose proof (compare_opp y x). intros [->| ->]; lia.
Qed.

Lemma le_trans m x y z : direction m -> le m x y -> le m y z -> le m x z.
Proof.
  intros Hm. unfold le, order. pose proof (compare_trans x y z). pose proof (compare_trans z y x).
  pose proof (compare_opp x y). pose proof (compare_opp y z). pose proof (compare_opp x z).
  pose proof (compare_opp y x). pose proof (compare_opp z y). pose proof (compare_opp z x).
  destruct Hm as [->| ->]; lia.
Qed.

Lemma le_total m x y : direction m -> ~ le m x y -> le m y x.
Proof. intros Hm H. apply (le_flip m x y Hm). unfold le in H. lia. Qed.

Lemma le_refl m x : direction m -> le m x x.
Proof. unfold le, order. pose proof (compare_sym x x). intros [->| ->]; lia. Qed.

(** ** Heaps with a hole

    While an element is sifted, its place is a hole; the array is considered
    with the element put into the hole. *)

Definition heap_from (m : Z) (k n : nat) (v : list A) : Prop :=
  forall i, (2 <= i <= n)%nat -> (k <= i / 2)%nat -> le m (v !!! (i / 2)%nat) (v !!! i).

Abbreviation heap m n v := (heap_from m 0 n v).

(** The parent of the hole comes before its children. *)
Definition skips (m : Z) (k n : nat) (v : list A) (idx : nat) : Prop :=
  forall i, (i <= n)%nat -> (i / 2 = idx)%nat -> (2 <= idx)%nat -> (k <= idx / 2)%nat ->
    le m (v !!! (idx / 2)%nat) (v !!! i).

Definition up_ok (m : Z) (n : nat) (v : list A) (idx : nat) : Prop :=
  (forall i, (2 <= i <= n)%nat -> i <> idx -> le m (v !!! (i / 2)%nat) (v !!! i)) /\ skips m 0 n v idx.

Definition down_ok (m : Z) (k n : nat) (v : list A) (idx : nat) : Prop :=
  (forall i, (2 <= i <= n)%nat -> (k <= i / 2)%nat -> (i / 2)%nat <> idx -> le m (v !!! (i / 2)%nat) (v !!! i))
  /\ skips m k n v idx.

Definition hole_ok (m : Z) (n : nat) (v : list A) (idx : nat) : Prop :=
  (forall i, (2 <= i <= n)%nat -> i <> idx -> (i / 2)%nat <> idx -> le m (v !!! (i / 2)%nat) (v !!! i))
  /\ skips m 0 n v idx.

(** The hole moves from [i] to [j]: the two slots are swapped. *)
Definition moved (v v' : list A) (i j : nat) : Prop :=
  v' !!! i = v !!! j /\ v' !!! j = v !!! i /\ forall k, k <> i -> k <> j -> v' !!! k = v !!! k.

Lemma up_step m n v v' idx :
  direction m -> up_ok m n v idx -> (2 <= idx <= n)%nat -> le m (v !!! idx) (v !!! (idx / 2)%nat) ->
  moved v v' idx (idx / 2) -> up_ok m n v' (idx / 2).
Proof.
  intros Hm [H1 H2] Hidx Hle (Ei & Ej & Ek). set (p := (idx / 2)%nat) in *. split.
  - intros i Hi Hip. destruct (decide (i = idx)) as [->|Hn].
    + fold p. by rewrite Ei, Ej.
    + rewrite (Ek i) by done. destruct (decide (i / 2 = idx)%nat) as [E|E].
      * rewrite E, Ei. apply H2; lia.
      * destruct (decide (i / 2 = p)%nat) as [E'|E'].
        -- rewrite E', Ej. apply (le_trans m _ (v !!! p)); [done|done|]. rewrite <-E'. by apply H1.
        -- rewrite (Ek (i / 2)%nat) by done. by apply H1.
  - intros i Hi Hip Hp2 _. rewrite (Ek (p / 2)%nat) by lia.
    assert (Hpp : le m (v !!! (p / 2)%nat) (v !!! p)) by (apply H1; lia).
    destruct (decide (i = idx)) as [->|Hn]; [by rewrite Ei|].
    rewrite (Ek i) by lia. apply (le_trans m _ (v !!! p)); [done|done|]. rewrite <-Hip. apply H1; lia.
Qed.

Lemma up_stop m n v idx :
  up_ok m n v idx -> ((2 <= idx)%nat -> le m (v !!! (idx / 2)%nat) (v !!! idx)) -> heap m n v.
Proof. intros [H1 _] H i Hi _. destruct (decide (i = idx)) as [->|Hn]; [apply H; lia|by apply H1]. Qed.

(** The child that moves up comes before its sibling. *)
Definition chosen (m : Z) (n : nat) (v : list A) (idx ch : nat) : Prop :=
  (ch / 2 = idx)%nat /\ (2 <= ch <= n)%nat
  /\ forall i, (i <= n)%nat -> (i / 2 = idx)%nat -> le m (v !!! ch) (v !!! i).

Lemma skips_step m k n v v' idx ch :
  (1 <= idx)%nat -> chosen m n v idx ch -> moved v v' idx ch ->
  (forall i, (2 <= i <= n)%nat -> (k <= i / 2)%nat -> i <> idx -> (i / 2)%nat <> idx -> le m (v !!! (i / 2)%nat) (v !!! i)) ->
  skips m k n v' ch.
Proof.
  intros Hidx (Hch & Hn & _) (Ei & Ej & Ek) H i Hi Hic Hc2 Hk.
  rewrite Hch, Ei. rewrite (Ek i) by lia. rewrite <-Hic. apply H; lia.
Qed.

Lemma down_step m k n v v' idx ch :
  (1 <= idx)%nat -> down_ok m k n v idx -> chosen m n v idx ch -> le m (v !!! ch) (v !!! idx) ->
  moved v v' idx ch -> down_ok m k n v' ch.
Proof.
  intros Hidx [H1 H2] Hc Hle Hmv. split.
  2: { eapply skips_step; eauto. }
  destruct Hc as (Hch & Hn & Hmin), Hmv as (Ei & Ej & Ek). intros i Hi Hk Hic.
  destruct (decide (i / 2 = idx)%nat) as [E|E].
  - rewrite E, Ei. destruct (decide (i = ch)) as [->|Hne]; [by rewrite Ej|].
    rewrite (Ek i) by lia. apply Hmin; lia.
  - rewrite (Ek (i / 2)%nat) by lia. destruct (decide (i = idx)) as [->|Hne].
    + rewrite Ei. apply H2; lia.
    + rewrite (Ek i); [by apply H1|done|]. intros ->. lia.
Qed.

Lemma hole_step m n v v' idx ch :
  (1 <= idx)%nat -> hole_ok m n v idx -> chosen m n v idx ch -> moved v v' idx ch -> hole_ok m n v' ch.
Proof.
  intros Hidx [H1 H2] Hc Hmv. split.
  2: { eapply skips_step; eauto. }
  destruct Hc as (Hch & Hn & Hmin), Hmv as (Ei & Ej & Ek). intros i Hi Hne Hic.
  destruct (decide (i / 2 = idx)%nat) as [E|E].
  - rewrite E, Ei, (Ek i) by lia. apply Hmin; lia.
  - rewrite (Ek (i / 2)%nat) by lia. destruct (decide (i = idx)) as [->|Hne'].
    + rewrite Ei. apply H2; lia.
    + rewrite (Ek i) by done. by apply H1.
Qed.

(** What a move keeps: the elements in the first [n] slots as a whole, and
    everything else in place. *)
Definition frame (n : nat) (v v' : list A) : Prop :=
  v ≡ₚ v' /\ length v = length v' /\ forall i, (i = 0 \/ n < i)%nat -> v !!! i = v' !!! i.

Lemma frame_refl n v : frame n v v.
Proof. done. Qed.

Lemma frame_trans n v1 v2 v3 : frame n v1 v2 -> frame n v2 v3 -> frame n v1 v3.
Proof.
  intros (P1 & L1 & E1) (P2 & L2 & E2). split_and!; [by etrans|congruence|].
  intros i Hi. rewrite E1 by done. by apply E2.
Qed.

Definition distinct (n : nat) (v : list A) : Prop :=
  forall i j, (1 <= i <= n)%nat -> (1 <= j <= n)%nat -> v !!! i = v !!! j -> i = j.

Definition pos_except (n : nat) (v : list A) (pos : A -> nat) (idx : nat) : Prop :=
  forall i, (1 <= i <= n)%nat -> i <> idx -> pos (v !!! i) = i.

(** The state of a loop: the element [e] belongs into the hole [idx]. *)
Record holding (n : nat) (offset : bool) (v0 r : list A) (pos : A -> nat) (e : A) (idx : nat) : Prop := mkHolding {
  h_range : (1 <= idx <= n)%nat;
  h_len : (n < length r)%nat;
  h_frame : frame n v0 (<[idx := e]> r);
  h_distinct : distinct n (<[idx := e]> r);
  h_pos : offset = true -> pos_except n (<[idx := e]> r) pos idx
}.

Lemma hole_off (r : list A) e idx k : k <> idx -> <[idx := e]> r !!! k = r !!! k.
Proof. intros Hk. by rewrite list_lookup_total_insert_ne. Qed.

Lemma moved_insert (r : list A) e i j :
  (i < length r)%nat -> (j < length r)%nat -> i <> j ->
  moved (<[i := e]> r) (<[j := e]> (<[i := r !!! j]> r)) i j.
Proof.
  intros Hi Hj Hij. split_and!.
  - rewrite list_lookup_total_insert_ne by done. rewrite list_lookup_total_insert_eq by done. by rewrite hole_off.
  - rewrite list_lookup_total_insert_eq by (by rewrite length_insert). by rewrite list_lookup_total_insert_eq.
  - intros k Hki Hkj. by rewrite !list_lookup_total_insert_ne.
Qed.

Lemma holding_move n offset v0 r pos e i j :
  holding n offset v0 r pos e i -> (1 <= j <= n)%nat -> i <> j ->
  let r' := <[i := r !!! j]> r in
  moved (<[i := e]> r) (<[j := e]> r') i j
  /\ holding n offset v0 r' (store_pos offset pos (r !!! j) i) e j.
Proof.
  intros [Hr Hlen Hf Hd Hp] Hj Hij r'.
  assert (Hmv : moved (<[i := e]> r) (<[j := e]> r') i j) by (apply moved_insert; lia).
  split; [done|]. pose proof Hmv as (Ei & Ej & Ek). split; [done|by unfold r'; rewrite length_insert|..].
  - apply (frame_trans n _ _ _ Hf). split_and!.
    + assert (<[j := e]> r' = <[j := e]> (<[i := r !!! j]> (<[i := e]> r))) as ->.
      { unfold r'. by rewrite list_insert_insert_eq. }
      symmetry. apply Permutation_insert_swap.
      * apply list_lookup_insert_eq. lia.
      * rewrite list_lookup_insert_ne by done. apply list_lookup_lookup_total_lt. lia.
    + unfold r'. by rewrite !length_insert.
    + intros k Hk. symmetry. apply Ek; lia.
  - intros a b Ha Hb Hab.
    assert (Hsw : forall k, (1 <= k <= n)%nat -> exists k', (1 <= k' <= n)%nat /\ <[j := e]> r' !!! k = <[i := e]> r !!! k'
      /\ (k = i /\ k' = j \/ k = j /\ k' = i \/ k <> i /\ k <> j /\ k' = k)).
    { intros k Hk. destruct (decide (k = i)) as [->|Hki]; [exists j; rewrite Ei; tauto|].
      destruct (decide (k = j)) as [->|Hkj]; [exists i; rewrite Ej; tauto|]. exists k. rewrite Ek by done. tauto. }
    destruct (Hsw a Ha) as (a' & Ha' & Ea & Ca), (Hsw b Hb) as (b' & Hb' & Eb & Cb).
    assert (a' = b') by (apply Hd; [done|done|congruence]). lia.
  - intros Ho a Ha Haj. rewrite Ho. unfold store_pos. destruct (decide (a = i)) as [->|Hai].
    + rewrite Ei, hole_off by done. by rewrite fn_lookup_insert.
    + rewrite Ek by done. rewrite fn_lookup_insert_ne; [by apply Hp|].
      intros Heq. apply Haj. symmetry. apply Hd; [done|done|]. by rewrite <-Heq, hole_off.
Qed.

Lemma first_child_chosen m n r e idx :
  direction m -> (1 <= idx <= n / 2)%nat ->
  chosen m n (<[idx := e]> r) idx (first_child m n r idx).
Proof.
  intros Hm Hidx. unfold first_child, chosen.
  assert (Hoff : forall k, (k / 2 = idx)%nat -> <[idx := e]> r !!! k = r !!! k) by (intros k Hk; apply hole_off; lia).
  destruct (Nat.ltb_spec (idx + idx) n) as [Hlt|Hge]; cbn [andb].
  - destruct (Z.ltb_spec 0 (order m (r !!! (idx + idx)%nat) (r !!! S (idx + idx)))) as [Ho|Ho].
    + split_and!; [lia..|]. intros i Hi Hii. rewrite !Hoff by lia.
      assert (i = idx + idx \/ i = S (idx + idx))%nat as [->| ->] by lia; [|by apply le_refl].
      apply le_flip; [done|]. lia.
    + split_and!; [lia..|]. intros i Hi Hii. rewrite !Hoff by lia.
      assert (i = idx + idx \/ i = S (idx + idx))%nat as [->| ->] by lia; [by apply le_refl|]. exact Ho.
  - split_and!; [lia..|]. intros i Hi Hii. rewrite !Hoff by lia. assert (i = idx + idx)%nat as -> by lia. by apply le_refl.
Qed.

(** ** The loops *)

Lemma sift_up_ok fuel m offset n v0 r pos e idx :
  direction m -> (idx <= fuel)%nat -> holding n offset v0 r pos e idx -> up_ok m n (<[idx := e]> r) idx ->
  let '(r', pos', i) := sift_up fuel m offset r pos e idx in
  holding n offset v0 r' pos' e i /\ heap m n (<[i := e]> r').
Proof.
  intros Hm. revert r pos idx. induction fuel as [|fuel IH]; intros r pos idx Hf Hh Hup.
  { destruct Hh as [Hr _ _ _ _]. lia. }
  cbn [sift_up]. pose proof (h_range _ _ _ _ _ _ _ Hh) as Hr. pose proof (h_len _ _ _ _ _ _ _ Hh) as Hlen.
  assert (He : <[idx := e]> r !!! idx = e) by (apply list_lookup_total_insert_eq; lia).
  destruct (Nat.ltb_spec 0 (idx / 2)) as [Hlt|Hge]; cbn [andb].
  - assert (Hoff : <[idx := e]> r !!! (idx / 2)%nat = r !!! (idx / 2)%nat) by (apply hole_off; lia).
    destruct (Z.ltb_spec (order m e (r !!! (idx / 2)%nat)) 0) as [Ho|Ho].
    + destruct (holding_move _ _ _ _ _ _ _ (idx / 2)%nat Hh ltac:(lia) ltac:(lia)) as [Hmv Hh'].
      apply IH; [lia|done|]. eapply up_step; [done|done|lia| |done].
      rewrite He, Hoff. by apply order_lt.
    + split; [done|]. apply (up_stop m n _ idx Hup). intros _. rewrite He, Hoff. by apply le_flip.
  - split; [done|]. apply (up_stop m n _ idx Hup). lia.
Qed.

Lemma sift_down_ok fuel m k offset n v0 r pos e idx :
  direction m -> (n / 2 < idx + fuel)%nat -> holding n offset v0 r pos e idx ->
  down_ok m k n (<[idx := e]> r) idx ->
  let '(r', pos', i) := sift_down fuel m offset n r pos e idx in
  holding n offset v0 r' pos' e i /\ heap_from m k n (<[i := e]> r').
Proof.
  intros Hm. revert r pos idx. induction fuel as [|fuel IH]; intros r pos idx Hf Hh Hdn; cbn [sift_down].
  { split; [done|]. destruct Hdn as [H1 _]. intros i Hi Hk. apply H1; lia. }
  pose proof (h_range _ _ _ _ _ _ _ Hh) as Hr. pose proof (h_len _ _ _ _ _ _ _ Hh) as Hlen.
  destruct (Nat.leb_spec idx (n / 2)) as [Hle|Hgt].
  2: { split; [done|]. destruct Hdn as [H1 _]. intros i Hi Hk. apply H1; lia. }
  assert (He : <[idx := e]> r !!! idx = e) by (apply list_lookup_total_insert_eq; lia).
  pose proof (first_child_chosen m n r e idx Hm ltac:(lia)) as Hc. set (ch := first_child m n r idx) in *.
  pose proof Hc as (Hc2 & Hcn & Hmin).
  assert (Hoff : <[idx := e]> r !!! ch = r !!! ch) by (apply hole_off; lia).
  destruct (Z.leb_spec 0 (order m (r !!! ch) e)) as [Ho|Ho].
  - split; [done|]. destruct Hdn as [H1 _]. intros i Hi Hk.
    destruct (decide (i / 2 = idx)%nat) as [E|E]; [|by apply H1].
    rewrite E, He. apply (le_trans m _ (<[idx := e]> r !!! ch)); [done| |by apply Hmin; [lia|]].
    rewrite Hoff. by apply le_flip.
  - destruct (holding_move _ _ _ _ _ _ _ ch Hh ltac:(lia) ltac:(lia)) as [Hmv Hh'].
    apply IH; [lia|done|]. eapply down_step; [|done|done| |done]; [lia|].
    rewrite He, Hoff. by apply order_lt.
Qed.

Lemma sift_hole_ok fuel m offset n first v0 r pos e idx :
  direction m -> (n / 2 < idx + fuel)%nat -> holding n offset v0 r pos e idx ->
  hole_ok m n (<[idx := e]> r) idx ->
  let '(r', pos', i) := sift_hole fuel m offset n first r pos e idx in
  holding n offset v0 r' pos' e i /\ up_ok m n (<[i := e]> r') i.
Proof.
  intros Hm. revert first r pos idx. induction fuel as [|fuel IH]; intros first r pos idx Hf Hh Hok; cbn [sift_hole].
  { split; [done|]. destruct Hok as [H1 H2]. split; [|done]. intros i Hi Hne. apply H1; lia. }
  pose proof (h_range _ _ _ _ _ _ _ Hh) as Hr. pose proof (h_len _ _ _ _ _ _ _ Hh) as Hlen.
  destruct (Nat.leb_spec idx (n / 2)) as [Hle|Hgt].
  2: { split; [done|]. destruct Hok as [H1 H2]. split; [|done]. intros i Hi Hne. apply H1; lia. }
  assert (He : <[idx := e]> r !!! idx = e) by (apply list_lookup_total_insert_eq; lia).
  pose proof (first_child_chosen m n r e idx Hm ltac:(lia)) as Hc. set (ch := first_child m n r idx) in *.
  pose proof Hc as (Hc2 & Hcn & Hmin).
  assert (Hoff : <[idx := e]> r !!! ch = r !!! ch) by (apply hole_off; lia).
  destruct (first && (0 <=? order m (r !!! ch) e)) eqn:Hstop.
  - apply andb_prop in Hstop as [_ Ho%Z.leb_le]. split.
    + destruct Hh as [Ha Hb Hc' Hd Hp]. split; rewrite ?list_insert_insert_eq, ?length_insert; try done.
      intros Ho' i Hi Hne. unfold store_pos. rewrite Ho'. rewrite fn_lookup_insert_ne; [by apply Hp|].
      intros Heq. apply Hne. apply Hd; [done|done|]. by rewrite <-Heq, He.
    + rewrite list_insert_insert_eq. destruct Hok as [H1 H2]. split; [|done]. intros i Hi Hne.
      destruct (decide (i / 2 = idx)%nat) as [E|E]; [|by apply H1].
      rewrite E, He. apply (le_trans m _ (<[idx := e]> r !!! ch)); [done| |by apply Hmin; [lia|]].
      rewrite Hoff. by apply le_flip.
  - destruct (holding_move _ _ _ _ _ _ _ ch Hh ltac:(lia) ltac:(lia)) as [Hmv Hh'].
    apply IH; [lia|done|]. eapply hole_step; [|done|done|done]. lia.
Qed.

(** ** The operations *)

(** The elements of a queue. *)
Definition contents (n : nat) (r : list A) : list A := take n (drop 1 r).

Definition positions (q : QUEUE) : Prop :=
  offset_to_queue_pos q = true -> forall i, (1 <= i <= elements q)%nat -> queue_pos q (root q !!! i) = i.

(** A queue in good order: there is room for its elements, they are distinct,
    and each stores its position. *)
Record queue_wf (q : QUEUE) : Prop := mkWf {
  wf_dir : direction (max_at_top q);
  wf_count : (elements q <= max_elements q)%nat;
  wf_size : length (root q) = S (max_elements q);
  wf_distinct : distinct (elements q) (root q);
  wf_positions : positions q
}.

Definition ordered (q : QUEUE) : Prop := heap (max_at_top q) (elements q) (root q).

Lemma split_contents n (r : list A) : (n < length r)%nat -> r = take 1 r ++ contents n r ++ drop (S n) r.
Proof.
  intros H. unfold contents. rewrite <-(take_drop 1 r) at 1. f_equal.
  rewrite <-(take_drop n (drop 1 r)) at 1. by rewrite drop_drop.
Qed.

Lemma frame_contents n v v' : (n < length v)%nat -> frame n v v' -> contents n v ≡ₚ contents n v'.
Proof.
  intros Hn (Hp & Hl & He).
  rewrite (split_contents n v), (split_contents n v') in Hp by lia.
  assert (take 1 v = take 1 v') as Ht.
  { apply list_eq. intros i. destruct (decide (i < 1)%nat) as [Hi|Hi].
    - rewrite !lookup_take_lt by done. rewrite !list_lookup_lookup_total_lt by lia. f_equal. apply He. lia.
    - by rewrite !lookup_take_ge by lia. }
  assert (drop (S n) v = drop (S n) v') as Hd.
  { apply list_eq. intros i. rewrite !lookup_drop.
    destruct (decide (S n + i < length v)%nat) as [Hi|Hi].
    - rewrite !list_lookup_lookup_total_lt by lia. f_equal. apply He. lia.
    - rewrite !lookup_ge_None_2 by lia. done. }
  rewrite Ht, Hd in Hp. apply Permutation_app_inv_l in Hp. by apply Permutation_app_inv_r in Hp.
Qed.

(** The element is put into the hole at the end. *)
Lemma holding_fill n offset v0 r pos e i :
  holding n offset v0 r pos e i ->
  frame n v0 (<[i := e]> r) /\ distinct n (<[i := e]> r) /\ length (<[i := e]> r) = length r
  /\ (offset = true -> forall j, (1 <= j <= n)%nat -> store_pos offset pos e i (<[i := e]> r !!! j) = j).
Proof.
  intros [Hr Hlen Hf Hd Hp]. split_and!; [done|done|by rewrite length_insert|].
  intros -> j Hj. unfold store_pos. assert (He : <[i := e]> r !!! i = e) by (apply list_lookup_total_insert_eq; lia).
  destruct (decide (j = i)) as [->|Hne].
  - rewrite He. by rewrite fn_lookup_insert.
  - rewrite fn_lookup_insert_ne; [by apply Hp|]. intros Heq. apply Hne. apply Hd; [done|done|]. by rewrite <-Heq, He.
Qed.

(** The parts of a queue that no operation on its elements changes. *)
Definition same_shape (q q' : QUEUE) : Prop :=
  elements q' = elements q /\ max_elements q' = max_elements q /\ max_at_top q' = max_at_top q
  /\ offset_to_queue_pos q' = offset_to_queue_pos q /\ auto_extent q' = auto_extent q.

Lemma insert_at_ok q v0 e idx :
  direction (max_at_top q) -> (elements q <= max_elements q)%nat -> length (root q) = S (max_elements q) ->
  holding (elements q) (offset_to_queue_pos q) v0 (root q) (queue_pos q) e idx ->
  up_ok (max_at_top q) (elements q) (<[idx := e]> (root q)) idx ->
  let q' := insert_at q e idx in
  queue_wf q' /\ ordered q' /\ same_shape q q' /\ frame (elements q) v0 (root q').
Proof.
  intros Hm Hn Hsize Hh Hup. unfold insert_at.
  pose proof (sift_up_ok idx (max_at_top q) _ _ _ _ _ _ _ Hm ltac:(done) Hh Hup) as Hs.
  destruct (sift_up _ _ _ _ _ _ _) as [[r pos] i]. destruct Hs as [Hh' Hheap].
  destruct (holding_fill _ _ _ _ _ _ _ Hh') as (Hf & Hd & Hl & Hp).
  assert (length r = S (max_elements q)) as Hlr.
  { destruct Hf as (_ & Hl1 & _). destruct (h_frame _ _ _ _ _ _ _ Hh) as (_ & Hl2 & _).
    rewrite length_insert in Hl1, Hl2. lia. }
  split_and!; [split|..]; cbn; rewrite ?length_insert; try done.
Qed.

Lemma downheap_ok q k idx :
  queue_wf q -> (1 <= idx <= elements q)%nat ->
  down_ok (max_at_top q) k (elements q) (root q) idx ->
  let q' := downheap q idx in
  queue_wf q' /\ same_shape q q' /\ frame (elements q) (root q) (root q')
  /\ heap_from (max_at_top q) k (elements q) (root q').
Proof.
  intros [Hm Hn Hsize Hd Hp] Hidx Hok. unfold downheap. set (e := root q !!! idx).
  assert (Hid : <[idx := e]> (root q) = root q).
  { apply list_insert_id, list_lookup_lookup_total_lt. lia. }
  assert (Hh : holding (elements q) (offset_to_queue_pos q) (root q) (root q) (queue_pos q) e idx).
  { split; rewrite ?Hid; try done; try lia. intros Ho i Hi _. by apply Hp. }
  pose proof (sift_down_ok (elements q) (max_at_top q) k _ (elements q) _ _ _ _ idx Hm ltac:(lia) Hh ltac:(by rewrite Hid)) as Hs.
  destruct (sift_down _ _ _ _ _ _ _ _) as [[r pos] i]. destruct Hs as [Hh' Hheap].
  destruct (holding_fill _ _ _ _ _ _ _ Hh') as (Hf & Hd' & Hl & Hp').
  assert (length r = S (max_elements q)) as Hlr.
  { destruct Hf as (_ & Hl1 & _). rewrite length_insert in Hl1. lia. }
  split_and!; [split|..]; cbn; rewrite ?length_insert; try done.
Qed.

Lemma queue_replace_ok q idx :
  queue_wf q \/ (direction (max_at_top q) /\ (elements q <= max_elements q)%nat /\ length (root q) = S (max_elements q)) ->
  (1 <= idx <= elements q)%nat -> distinct (elements q) (root q) ->
  (offset_to_queue_pos q = true -> pos_except (elements q) (root q) (queue_pos q) idx) ->
  hole_ok (max_at_top q) (elements q) (root q) idx ->
  let q' := queue_replace q idx in
  queue_wf q' /\ ordered q' /\ same_shape q q' /\ frame (elements q) (root q) (root q').
Proof.
  intros Hwf Hidx Hd Hp Hok.
  assert (Hq : direction (max_at_top q) /\ (elements q <= max_elements q)%nat /\ length (root q) = S (max_elements q))
    by (destruct Hwf as [[]|]; done).
  destruct Hq as (Hm & Hn & Hsize). unfold queue_replace. set (e := root q !!! idx).
  assert (Hid : <[idx := e]> (root q) = root q).
  { apply list_insert_id, list_lookup_lookup_total_lt. lia. }
  assert (Hh : holding (elements q) (offset_to_queue_pos q) (root q) (root q) (queue_pos q) e idx).
  { split; rewrite ?Hid; try done; lia. }
  pose proof (sift_hole_ok (elements q) (max_at_top q) _ (elements q) true _ _ _ _ idx Hm ltac:(lia) Hh ltac:(by rewrite Hid)) as Hs.
  destruct (sift_hole _ _ _ _ _ _ _ _ _) as [[r pos] i]. destruct Hs as [Hh' Hup].
  assert (length r = S (max_elements q)) as Hlr.
  { destruct (h_frame _ _ _ _ _ _ _ Hh') as (_ & Hl1 & _). rewrite length_insert in Hl1. lia. }
  apply (insert_at_ok (set_root q r pos) (root q) e i); done.
Qed.

Lemma contents_lookup n (r : list A) i :
  (n < length r)%nat -> contents n r !! i = if decide (i < n)%nat then Some (r !!! S i) else None.
Proof.
  intros H. unfold contents. case_decide as Hi.
  - rewrite lookup_take_lt, lookup_drop by done. apply list_lookup_lookup_total_lt. lia.
  - apply lookup_take_ge. lia.
Qed.

Lemma contents_length n (r : list A) : (n < length r)%nat -> length (contents n r) = n.
Proof. intros H. unfold contents. rewrite length_take, length_drop. lia. Qed.

Lemma contents_snoc (r : list A) n e : (S n < length r)%nat ->
  contents (S n) (<[S n := e]> r) = contents n r ++ [e].
Proof.
  intros H. apply list_eq. intros i. rewrite contents_lookup by (rewrite length_insert; lia).
  rewrite lookup_app. rewrite contents_lookup by lia. case_decide as Hi; case_decide as Hi'; try lia.
  - f_equal. apply list_lookup_total_insert_ne. lia.
  - assert (i = n) as -> by lia. rewrite contents_length by lia. rewrite Nat.sub_diag. cbn.
    by rewrite list_lookup_total_insert_eq by lia.
  - rewrite contents_length by lia. destruct (i - n)%nat eqn:E; [lia|done].
Qed.

Lemma delete_insert_same (l : list A) i y : delete i (<[i := y]> l) = delete i l.
Proof. revert i. induction l as [|x l IH]; intros [|i]; [done..|]. cbn. f_equal. apply IH. Qed.

(** Taking out slot [i]: the last element takes its place. *)
Lemma contents_remove (r : list A) n i : (S n < length r)%nat -> (1 <= i <= n)%nat ->
  contents (S n) r ≡ₚ r !!! i :: contents n (<[i := r !!! S n]> r).
Proof.
  intros H Hi.
  assert (contents (S n) r = contents n r ++ [r !!! S n]) as ->.
  { rewrite <-(contents_snoc r) by done. f_equal. symmetry. apply list_insert_id, list_lookup_lookup_total_lt. lia. }
  assert (contents n (<[i := r !!! S n]> r) = <[(i - 1)%nat := r !!! S n]> (contents n r)) as ->.
  { apply list_eq. intros j. rewrite contents_lookup by (rewrite length_insert; lia).
    destruct (decide (j = i - 1)%nat) as [->|Hne].
    - rewrite list_lookup_insert_eq by (rewrite contents_length; lia). rewrite decide_True by lia. f_equal.
      replace (S (i - 1)) with i by lia. apply list_lookup_total_insert_eq. lia.
    - rewrite list_lookup_insert_ne by done. rewrite contents_lookup by lia. case_decide; [|done]. f_equal.
      apply list_lookup_total_insert_ne. lia. }
  assert (Hl : contents n r !! (i - 1)%nat = Some (r !!! i)).
  { rewrite contents_lookup, decide_True by lia. do 2 f_equal. lia. }
  set (l := contents n r) in *. set (y := r !!! S n).
  etrans; [apply Permutation_app_tail, (delete_Permutation l _ _ Hl)|].
  rewrite (delete_Permutation (<[(i - 1)%nat := y]> l) (i - 1) y)
    by (apply list_lookup_insert_eq; eapply lookup_lt_Some; eauto).
  rewrite delete_insert_same, Permutation_app_comm. cbn. apply Permutation_swap.
Qed.

Lemma contents_elem n (r : list A) x : (n < length r)%nat ->
  x ∈ contents n r <-> exists i, (1 <= i <= n)%nat /\ r !!! i = x.
Proof.
  intros H. rewrite list_elem_of_lookup. setoid_rewrite contents_lookup; [|done]. split.
  - intros [i Hi]. case_decide; [|done]. exists (S i). split; [lia|congruence].
  - intros (i & Hi & <-). exists (i - 1)%nat. rewrite decide_True by lia. do 2 f_equal. lia.
Qed.

(** ** The queue as a bag *)

(** The queue holds the elements of the bag [b], the first one in front. *)
Definition represents (q : QUEUE) (b : list A) : Prop :=
  queue_wf q /\ ordered q /\ contents (elements q) (root q) ≡ₚ b.

Inductive op := Insert (x : A) | RemoveTop | RemoveStored (x : A).

Definition run (q : QUEUE) (o : op) : option A * QUEUE :=
  match o with
  | Insert x => (None, queue_insert q x)
  | RemoveTop => let '(x, q') := queue_remove_top q in (Some x, q')
  | RemoveStored x => let '(y, q') := queue_remove q (queue_pos q x) in (Some y, q')
  end.

(** What the operations do to a bag: a smallest element is removed first. *)
Inductive bag_step (m : Z) (b : list A) : op -> option A -> list A -> Prop :=
  | bag_insert x : bag_step m b (Insert x) None (x :: b)
  | bag_remove_top x b' : b ≡ₚ x :: b' -> (forall y, y ∈ b -> le m x y) -> bag_step m b RemoveTop (Some x) b'
  | bag_remove_stored x b' : b ≡ₚ x :: b' -> bag_step m b (RemoveStored x) (Some x) b'.

(** When the operations may be called. *)
Definition allowed (q : QUEUE) (b : list A) (o : op) : Prop :=
  match o with
  | Insert x => (x ∉ b) /\ (elements q < max_elements q)%nat
  | RemoveTop => b <> []
  | RemoveStored x => x ∈ b /\ offset_to_queue_pos q = true
  end.

Lemma heap_top m n v i : direction m -> heap m n v -> (1 <= i <= n)%nat -> le m (v !!! 1%nat) (v !!! i).
Proof.
  intros Hm Hh. induction i as [i IH] using lt_wf_ind. intros Hi.
  destruct (decide (i = 1)%nat) as [->|Hne]; [by apply le_refl|].
  apply (le_trans m _ (v !!! (i / 2)%nat)); [done|apply IH; lia|apply Hh; lia].
Qed.

Lemma queue_insert_ok q b x :
  represents q b -> (x ∉ b) -> (elements q < max_elements q)%nat -> represents (queue_insert q x) (x :: b).
Proof.
  intros ([Hm Hn Hsize Hd Hp] & Ho & Hb) Hx Hlt. unfold queue_insert. set (n := elements q) in *.
  set (v := <[S n := x]> (root q)).
  assert (Hnew : v !!! S n = x) by (apply list_lookup_total_insert_eq; lia).
  assert (Hold : forall i, (i <= n)%nat -> v !!! i = root q !!! i) by (intros i Hi; apply list_lookup_total_insert_ne; lia).
  assert (Hnin : forall i, (1 <= i <= n)%nat -> root q !!! i <> x).
  { intros i Hi Heq. apply Hx. rewrite <-Hb. apply contents_elem; [lia|]. by exists i. }
  destruct (insert_at_ok (set_elements q (S n)) v x (S n)) as (Hwf & Hord & Hsh & Hf); cbn; try done; try lia.
  - split; try done; cbn; try lia.
    + intros i j Hi Hj Hij. fold v in Hij. destruct (decide (i = S n)) as [->|Hi'], (decide (j = S n)) as [->|Hj']; try done.
      * rewrite Hnew, Hold in Hij by lia. exfalso. apply (Hnin j); [lia|done].
      * rewrite Hnew, Hold in Hij by lia. exfalso. apply (Hnin i); [lia|done].
      * rewrite !Hold in Hij by lia. apply Hd; [lia..|done].
    + intros Hoff i Hi Hne. fold v. rewrite Hold by lia. apply Hp; [done|]. fold n. lia.
  - split.
    + intros i Hi Hne. fold v. rewrite !Hold by lia. apply Ho; lia.
    + intros i Hi Hi2. lia.
  - split; [done|]. split; [done|]. destruct Hsh as (He & _). cbn in He. rewrite He.
    rewrite <-(frame_contents (S n) v) by (done || unfold v; rewrite length_insert; lia).
    unfold v. rewrite contents_snoc by lia. rewrite Hb. by rewrite Permutation_app_comm.
Qed.

(** Removing the last slot leaves the array as it is. *)
Lemma queue_remove_last q n :
  represents q (contents (S n) (root q)) -> elements q = S n ->
  let q' := snd (queue_remove q (S n)) in
  queue_wf q' /\ ordered q' /\ elements q' = n /\ root q' = root q.
Proof.
  intros ([Hm Hn Hsize Hd Hp] & Ho & _) Hel. unfold queue_remove. cbn [snd]. rewrite Hel in *.
  replace (S n - 1)%nat with n by lia. set (e := root q !!! S n).
  assert (Hid : <[S n := e]> (root q) = root q).
  { apply list_insert_id, list_lookup_lookup_total_lt. lia. }
  unfold queue_replace. cbn [root set_root set_elements elements max_at_top offset_to_queue_pos queue_pos].
  rewrite Hid. fold e.
  assert (sift_hole n (max_at_top q) (offset_to_queue_pos q) n true (root q) (queue_pos q) e (S n)
    = (root q, queue_pos q, S n)) as ->.
  { destruct n; [done|]. cbn [sift_hole]. by rewrite (proj2 (Nat.leb_gt _ _)) by lia. }
  unfold insert_at. cbn [root set_root set_elements elements max_at_top offset_to_queue_pos queue_pos].
  assert (sift_up (S n) (max_at_top q) (offset_to_queue_pos q) (root q) (queue_pos q) e (S n)
    = (root q, queue_pos q, S n)) as ->.
  { cbn [sift_up]. destruct (Nat.ltb_spec 0 (S n / 2)) as [Hlt|]; cbn [andb]; [|done].
    assert (Hle : le (max_at_top q) (root q !!! (S n / 2)%nat) e) by (apply Ho; [rewrite Hel|]; lia).
    apply le_flip in Hle; [|done]. by rewrite (proj2 (Z.ltb_ge _ _)). }
  rewrite Hid. split_and!; try done; [split; cbn; try done; try lia|..].
  - intros i j Hi Hj. apply Hd; lia.
  - intros Hoff i Hi. cbn in *. unfold store_pos. rewrite Hoff. rewrite fn_lookup_insert_ne; [apply Hp; [done|lia]|].
    intros Heq. enough (S n = i) by lia. apply Hd; [lia|lia|exact Heq].
  - intros i Hi Hk. cbn in *. apply Ho; [rewrite Hel|]; lia.
Qed.

Lemma queue_remove_ok q b idx :
  represents q b -> (1 <= idx <= elements q)%nat ->
  let '(x, q') := queue_remove q idx in
  x = root q !!! idx /\ exists b', b ≡ₚ x :: b' /\ represents q' b'.
Proof.
  intros Hq Hidx. destruct (queue_remove q idx) as [x q'] eqn:Hrem.
  assert (Hx : x = root q !!! idx) by (unfold queue_remove in Hrem; congruence). split; [done|].
  destruct (elements q) as [|n] eqn:Hel; [lia|]. pose proof Hq as ([Hm Hn Hsize Hd Hp] & Ho & Hb).
  unfold positions, ordered in *. rewrite Hel in *. destruct (decide (idx = S n)) as [->|Hne].
  - destruct (queue_remove_last q n) as (Hwf & Hord & He & Hr); [|done|].
    { destruct Hq as (Hwf & Hord & _). split; [done|]. split; [done|]. by rewrite Hel. }
    rewrite Hrem in *. cbn [snd] in *. exists (contents n (root q)). split.
    + rewrite <-Hb, Hx. rewrite <-(list_insert_id (root q) (S n) (root q !!! S n)) at 1
        by (apply list_lookup_lookup_total_lt; lia).
      rewrite contents_snoc by lia. by rewrite Permutation_app_comm.
    + split; [done|]. split; [done|]. by rewrite He, Hr.
  - set (v := <[idx := root q !!! S n]> (root q)).
    assert (Hat : v !!! idx = root q !!! S n) by (apply list_lookup_total_insert_eq; lia).
    assert (Hoff : forall k, k <> idx -> v !!! k = root q !!! k) by (intros k Hk; by apply list_lookup_total_insert_ne).
    assert (Hl : length v = S (max_elements q)) by (unfold v; by rewrite length_insert).
    unfold queue_remove in Hrem. rewrite Hel in Hrem. replace (S n - 1)%nat with n in Hrem by lia.
    destruct (queue_replace_ok (set_elements (set_root q v (queue_pos q)) n) idx) as (Hwf & Hord & Hsh & Hf); cbn.
    + right. split_and!; [done|lia|done].
    + lia.
    + intros i j Hi Hj Hij. destruct (decide (i = idx)) as [->|Hi'], (decide (j = idx)) as [->|Hj']; try done.
      * rewrite Hat, Hoff in Hij by done. apply Hd in Hij; lia.
      * rewrite Hat, Hoff in Hij by done. apply Hd in Hij; lia.
      * rewrite !Hoff in Hij by done. apply Hd; [lia..|done].
    + intros Hoffset i Hi Hi'. rewrite Hoff by done. apply Hp; [done|lia].
    + split.
      * intros i Hi H1 H2. rewrite !Hoff by done. apply Ho; lia.
      * intros i Hi Hi2 H2 _. rewrite !Hoff by lia. apply (le_trans _ _ (root q !!! idx)); [done|apply Ho; lia|].
        rewrite <-Hi2. apply Ho; lia.
    + injection Hrem as _ Hq'. fold v in Hq'. subst q'. exists (contents n v). split.
      * rewrite <-Hb, Hx. apply contents_remove; lia.
      * split; [done|]. split; [done|]. destruct Hsh as (He & _). cbn in He, Hf. rewrite He.
        symmetry. apply frame_contents; [lia|done].
Qed.

(** C13. The priority queue refines a bag: in every state that holds the
    elements of a bag as a heap, inserting adds the element; removing the
    first element returns an element of the bag that no other element comes
    before, in the order of [compare] or in the reverse order according to
    [max_at_top]; removing an element through the position it stores returns
    exactly that element.  The new state is again a heap, with every stored
    position up to date, that holds the new bag. *)
Theorem queue_refines_bag (q : QUEUE) (b : list A) (o : op) :
  represents q b -> allowed q b o ->
  exists b', bag_step (max_at_top q) b o (fst (run q o)) b' /\ represents (snd (run q o)) b'.
Proof.
  intros Hq Ha. pose proof Hq as ([Hm Hn Hsize Hd Hp] & Ho & Hb).
  assert (Hlen : elements q = length b) by (rewrite <-Hb, contents_length by lia; done).
  destruct o as [x| |x]; cbn [run allowed] in *.
  - exists (x :: b). split; [constructor|]. apply queue_insert_ok; tauto.
  - assert (1 <= elements q)%nat by (destruct b; [done|cbn in Hlen; lia]).
    pose proof (queue_remove_ok q b 1 Hq ltac:(lia)) as Hr. unfold queue_remove_top.
    destruct (queue_remove q 1) as [x q']. destruct Hr as (-> & b' & Hb' & Hq'). exists b'. split; [|done].
    constructor; [done|]. intros y Hy. rewrite <-Hb in Hy. apply contents_elem in Hy as (i & Hi & <-); [|lia].
    by apply (heap_top _ (elements q)).
  - destruct Ha as [Hx Hoff]. rewrite <-Hb in Hx. apply contents_elem in Hx as (i & Hi & <-); [|lia].
    rewrite (Hp Hoff i Hi). pose proof (queue_remove_ok q b i Hq Hi) as Hr.
    destruct (queue_remove q i) as [x q']. destruct Hr as (-> & b' & Hb' & Hq').
    exists b'. split; [by constructor|done].
Qed.

Lemma fix_loop_ok i q :
  queue_wf q -> (i <= elements q / 2)%nat -> heap_from (max_at_top q) (S i) (elements q) (root q) ->
  let q' := fix_loop i q in
  queue_wf q' /\ same_shape q q' /\ frame (elements q) (root q) (root q')
  /\ heap_from (max_at_top q) 1 (elements q) (root q').
Proof.
  revert q. induction i as [|i IH]; intros q Hwf Hi Hheap; cbn [fix_loop]; [done|].
  destruct (downheap_ok q (S i) (S i)) as (Hwf' & Hsh & Hf & Hheap'); [done|lia| |].
  { split; [|intros j Hj Hj2 H2 Hk; lia]. intros j Hj Hk Hne. apply Hheap; lia. }
  destruct Hsh as (E1 & E2 & E3 & E4 & E5).
  destruct (IH (downheap q (S i)) Hwf') as (H1 & H2 & H3 & H4); [rewrite E1; lia|by rewrite E1, E3|].
  rewrite E1, E3 in *. split_and!; [done| |by eapply frame_trans|done].
  destruct H2 as (F1 & F2 & F3 & F4 & F5). unfold same_shape. split_and!; congruence.
Qed.

(** [queue_fix] restores the order from any arrangement of the elements:
    whatever the keys have become, afterwards the queue is a heap again, with
    the same elements, every stored position up to date, and nothing outside
    the elements touched. *)
Theorem queue_fix_orders (q : QUEUE) :
  queue_wf q ->
  let q' := queue_fix q in
  queue_wf q' /\ ordered q' /\ same_shape q q'
  /\ contents (elements q) (root q') ≡ₚ contents (elements q) (root q).
Proof.
  intros Hwf. unfold queue_fix.
  destruct (fix_loop_ok (elements q / 2) q Hwf) as (H1 & H2 & H3 & H4); [done|intros i Hi Hk; lia|].
  split_and!; [done| |done|].
  - destruct H2 as (E1 & E2 & E3 & _). unfold ordered. rewrite E1, E3. intros i Hi _. apply H4; lia.
  - symmetry. apply frame_contents; [|done]. destruct Hwf. lia.
Qed.

(** Inserting into a full queue extends it or fails without a change. *)
Lemma queue_insert_safe_ok extra q b x :
  represents q b -> (x ∉ b) ->
  (forall l, extra = Some l -> (auto_extent q <= length l)%nat) ->
  let '(r, q') := queue_insert_safe extra q x in
  (r = 0 /\ represents q' (x :: b)) \/ ((r = 1 \/ r = 2) /\ q' = q /\ elements q = max_elements q).
Proof.
  intros Hq Hx Hex. unfold queue_insert_safe. pose proof Hq as ([Hm Hn Hsize Hd Hp] & Ho & Hb).
  destruct (Nat.eqb_spec (elements q) (max_elements q)) as [Hfull|Hnot].
  2: { left. split; [done|]. apply queue_insert_ok; [done|done|lia]. }
  destruct (Nat.eqb_spec (auto_extent q) 0) as [H0|H0]; [right; auto|].
  unfold resize_queue. rewrite (proj2 (Nat.eqb_neq _ _)) by lia. destruct extra as [l|]; [|right; auto].
  left. split; [done|]. specialize (Hex l eq_refl).
  assert (Hold : forall i, (i <= elements q)%nat ->
    take (S (max_elements q + auto_extent q)) (root q ++ l) !!! i = root q !!! i).
  { intros i Hi. rewrite !list_lookup_total_alt. f_equal. rewrite lookup_take_lt by lia. apply lookup_app_l. lia. }
  assert (Hmin : Nat.min (elements q) (max_elements q + auto_extent q) = elements q) by lia.
  apply queue_insert_ok; [|done|cbn; lia].
  split_and!; [split|..]; cbn [root elements max_elements max_at_top]; rewrite ?Hmin; try done; try lia.
  - rewrite length_take, length_app. lia.
  - intros i j Hi Hj. rewrite !Hold by lia. by apply Hd.
  - intros Hoff i Hi. cbn [root elements queue_pos] in *. rewrite ?Hmin in Hi. rewrite Hold by lia. by apply Hp.
  - intros i Hi Hk. cbn [elements root max_at_top] in *. rewrite ?Hmin in Hi. rewrite !Hold by lia. by apply Ho.
  - rewrite <-Hb. set (r := take _ _) in *.
    assert (contents (elements q) r = contents (elements q) (root q)) as Hc; [|by rewrite Hc].
    apply list_eq. intros i. rewrite !contents_lookup by (subst r; rewrite ?length_take, ?length_app; lia).
    case_decide; [|done]. f_equal. apply Hold. lia.
Qed.

End queue.

Arguments QUEUE : clear implicits.

(** ** A queue of integers *)

#[export] Instance Zsub_laws : CompareLaws Z.sub.
Proof. split; lia. Qed.

Definition sample : QUEUE Z :=
  mkQueue [0; 3; 5; 4; 0; 0] 3 5 0 true 1 (fun x => if (x =? 3)%Z then 1 else if (x =? 5)%Z then 2 else 3)%nat.

Lemma sample_wf : queue_wf sample.
Proof.
  split; [by left|cbn; lia|done|..].
  - intros i j Hi Hj Hij. cbn in Hi, Hj.
    destruct i as [|[|[|[|i]]]], j as [|[|[|[|j]]]]; try lia; by vm_compute in Hij.
  - intros _ i Hi. cbn in Hi. destruct i as [|[|[|[|i]]]]; try lia; done.
Qed.

Lemma sample_represents : represents Z.sub sample [3; 5; 4].
Proof.
  split; [apply sample_wf|]. split; [|done]. intros i Hi _. cbn [elements sample] in Hi.
  destruct i as [|[|[|[|i]]]]; try lia; by vm_compute.
Qed.

Lemma queue_refines_bag_witness :
  exists b', bag_step Z.sub 1 [3; 5; 4] RemoveTop (fst (run Z.sub sample RemoveTop)) b'
    /\ represents Z.sub (snd (run Z.sub sample RemoveTop)) b'.
Proof. apply (queue_refines_bag Z.sub sample [3; 5; 4] RemoveTop); [apply sample_represents|done]. Defined.

Lemma queue_fix_orders_witness :
  queue_wf (queue_fix Z.sub sample) /\ ordered Z.sub (queue_fix Z.sub sample) /\ same_shape sample (queue_fix Z.sub sample)
  /\ contents 3 (root (queue_fix Z.sub sample)) ≡ₚ [3; 5; 4].
Proof. apply (queue_fix_orders Z.sub sample), sample_wf. Defined.
