(* ===== verification/Hash.v ===== *)
(** * Hash tables (mysys/hash.c, include/hash.h)

    A table is an array of links without gaps.  A link stores a record (a
    pointer), the hash value of its key and the index of the next link of its
    chain.  The chain of an index starts at the index itself, and a link whose
    own chain starts elsewhere may only occupy an index whose chain is empty.
    The table grows and shrinks by one link at a time: an insertion splits one
    chain into two and a removal joins two.

    Records are values of a type [A] with decidable equality (their addresses);
    the bytes of their keys are in a memory [key], which is an argument of the
    operations because [my_hash_update] is called after the key of a record has
    changed.  The operations return [None] where the code would follow a link
    out of the array or never end; that this does not happen is part of the
    theorems, which are in the file [HashTables]. *)

From S2P Require Import Prelude.
From S2P Require Import Charset.

(** ** Data *)

(** [NO_RECORD] is [None]. *)
Record HASH_LINK {A : Type} := mkLink { next : option nat; hash_nr : Z; data : A }.
Arguments HASH_LINK : clear implicits.
Arguments mkLink {A}.

(** [key_length] is the length of the keys, or zero if they are delivered by a
    function; [free] tells whether the table has a function that frees records; [freed]
    are the records it has been called with. *)
Record HASH {A : Type} := mkHash {
  key_length : nat;
  blength : nat;
  records : nat;
  array : list (HASH_LINK A);
  unique : bool;
  free : bool;
  freed : list A
}.
Arguments HASH : clear implicits.
Arguments mkHash {A}.

Definition my_hash_init2 {A} (key_length : nat) (unique free : bool) : HASH A := mkHash key_length 1 0 [] unique free [].

Definition my_hash_free_elements {A} (h : HASH A) : HASH A :=
  mkHash (key_length h) (blength h) 0 (array h) (unique h) (free h)
    (if free h then freed h ++ map data (take (records h) (array h)) else freed h).

Definition my_hash_reset {A} (h : HASH A) : HASH A :=
  let h := my_hash_free_elements h in mkHash (key_length h) 1 (records h) [] (unique h) (free h) (freed h).

Definition my_hash_free {A} (h : HASH A) : HASH A :=
  let h := my_hash_free_elements h in mkHash (key_length h) 0 (records h) [] (unique h) false (freed h).

(** The index at which the chain of a hash value starts. *)
Definition my_hash_mask (hashnr : Z) (buffmax maxlength : nat) : nat :=
  let low := Z.to_nat (Z.land hashnr (Z.of_nat buffmax - 1)) in
  if (low <? maxlength)%nat then low else Z.to_nat (Z.land hashnr (Z.of_nat (Nat.div2 buffmax) - 1)).

Definition my_hash_rec_mask {A} (pos : HASH_LINK A) (buffmax maxlength : nat) : nat :=
  my_hash_mask (hash_nr pos) buffmax maxlength.

Definition set_next {A} (n : option nat) (pos : HASH_LINK A) : HASH_LINK A := mkLink n (hash_nr pos) (data pos).

Definition set_hash_nr {A} (nr : Z) (pos : HASH_LINK A) : HASH_LINK A := mkLink (next pos) nr (data pos).

(** The loop that looks for the link in front of [find]: a step back from it is
    impossible, so that it starts at the beginning of the chain. *)
Fixpoint movelink_loop {A} (fuel : nat) (a : list (HASH_LINK A)) (find : option nat) (next_link : nat) (newlink : option nat)
    : option (list (HASH_LINK A)) :=
  match fuel with
  | O => None
  | S fuel' =>
      old_link ← a !! next_link;
      if bool_decide (next old_link = find) then Some (<[next_link := set_next newlink old_link]> a)
      else next_link' ← next old_link; movelink_loop fuel' a find next_link' newlink
  end.

Definition movelink {A} (a : list (HASH_LINK A)) (find : option nat) (next_link : nat) (newlink : option nat) :=
  movelink_loop (length a) a find next_link newlink.

Section hash.
Context {A : Type} `{EqDecision A}.

(** The comparison and the hash function of the character set. *)
Context (coll : list Z -> list Z -> Z) (hash_function : list Z -> Z).

(** ** Search *)

(** [hashcmp(hash, pos, key, length) == 0]: for [length] zero, as much of the
    key is compared as the record has. *)
Definition hash_matches (key : A -> list Z) (k : list Z) (length : nat) (pos : HASH_LINK A) : bool :=
  let rec_key := key (data pos) in
  let rec_keylength := List.length rec_key in
  negb (negb (length =? 0)%nat && negb (length =? rec_keylength)%nat) && (coll rec_key (take rec_keylength k) =? 0).

Fixpoint first_loop (fuel : nat) (key : A -> list Z) (k : list Z) (length : nat) (h : HASH A) (flag : bool) (idx : nat)
    : option (option nat) :=
  match fuel with
  | O => None
  | S fuel' =>
      pos ← array h !! idx;
      if hash_matches key k length pos then Some (Some idx)
      else if flag && negb (my_hash_rec_mask pos (blength h) (records h) =? idx)%nat then Some None
      else match next pos with None => Some None | Some i => first_loop fuel' key k length h false i end
  end.

(** The index of the link that is found is what the code leaves in
    [current_record]. *)
Definition my_hash_first_from_hash_value (key : A -> list Z) (h : HASH A) (hash_value : Z) (k : list Z) (length : nat)
    : option (option nat) :=
  if (records h =? 0)%nat then Some None
  else first_loop (records h) key k length h true (my_hash_mask hash_value (blength h) (records h)).

Definition hash_of_key (h : HASH A) (k : list Z) (length : nat) : Z :=
  hash_function (take (if negb (length =? 0)%nat then length else key_length h) k).

Definition my_hash_first (key : A -> list Z) (h : HASH A) (k : list Z) (length : nat) : option (option nat) :=
  my_hash_first_from_hash_value key h (hash_of_key h k length) k length.

Fixpoint next_loop (fuel : nat) (key : A -> list Z) (k : list Z) (length : nat) (h : HASH A) (idx : option nat)
    : option (option nat) :=
  match idx with
  | None => Some None
  | Some i =>
      match fuel with
      | O => None
      | S fuel' =>
          pos ← array h !! i;
          if hash_matches key k length pos then Some (Some i) else next_loop fuel' key k length h (next pos)
      end
  end.

Definition my_hash_next (key : A -> list Z) (h : HASH A) (k : list Z) (length : nat) (current_record : option nat)
    : option (option nat) :=
  match current_record with
  | None => Some None
  | Some c => pos ← array h !! c; next_loop (records h) key k length h (next pos)
  end.

Definition my_hash_element (h : HASH A) (idx : nat) : option A :=
  if (idx <? records h)%nat then data <$> array h !! idx else None.

Definition my_hash_search (key : A -> list Z) (h : HASH A) (k : list Z) (length : nat) : option (option A) :=
  r ← my_hash_first key h k length;
  match r with None => Some None | Some i => pos ← array h !! i; Some (Some (data pos)) end.

Definition my_hash_replace (h : HASH A) (current_record : option nat) (new_row : A) : option (HASH A) :=
  match current_record with
  | None => Some h
  | Some c =>
      pos ← array h !! c;
      Some (mkHash (key_length h) (blength h) (records h) (<[c := mkLink (next pos) (hash_nr pos) new_row]> (array h)) (unique h) (free h) (freed h))
  end.

(** [my_hash_iterate]: the records in the order in which the action gets them,
    up to the first one for which it returns true. *)
Fixpoint iterate_loop (action : A -> bool) (a : list (HASH_LINK A)) : bool * list A :=
  match a with
  | [] => (false, [])
  | pos :: a' =>
      if action (data pos) then (true, [data pos])
      else let '(r, seen) := iterate_loop action a' in (r, data pos :: seen)
  end.

Definition my_hash_iterate (action : A -> bool) (h : HASH A) : bool * list A :=
  iterate_loop action (take (records h) (array h)).

(** ** Insertion *)

Definition LOWFIND : Z := 1.
Definition LOWUSED : Z := 2.
Definition HIGHFIND : Z := 4.
Definition HIGHUSED : Z := 8.

(** The variables of the loop that splits a chain: [gpos] and [gpos2] are the
    ends of the two chains built so far, [rec] and [rec2] the contents that are
    still to be written there. *)
Record split := mkSplit {
  arr : list (HASH_LINK A);
  flag : Z;
  empty : nat;
  gpos : nat;
  rec : Z * A;
  gpos2 : nat;
  rec2 : Z * A
}.

Definition has (f bits : Z) : bool := negb (Z.land f bits =? 0).

Definition put_link (i : nat) (r : Z * A) (n : option nat) (a : list (HASH_LINK A)) : list (HASH_LINK A) :=
  <[i := mkLink n r.1 r.2]> a.

Definition low_key (idx : nat) (pos : HASH_LINK A) (s : split) : split :=
  let r := (hash_nr pos, data pos) in
  if negb (has (flag s) LOWFIND) then
    if has (flag s) HIGHFIND then mkSplit (arr s) (Z.lor LOWFIND HIGHFIND) idx (empty s) r (gpos2 s) (rec2 s)
    else mkSplit (arr s) (Z.lor LOWFIND LOWUSED) (empty s) idx r (gpos2 s) (rec2 s)
  else if negb (has (flag s) LOWUSED) then
    mkSplit (put_link (gpos s) (rec s) (Some idx) (arr s))
      (Z.lor (Z.land (flag s) HIGHFIND) (Z.lor LOWFIND LOWUSED)) (empty s) idx r (gpos2 s) (rec2 s)
  else mkSplit (arr s) (flag s) (empty s) idx r (gpos2 s) (rec2 s).

Definition high_key (idx : nat) (pos : HASH_LINK A) (s : split) : split :=
  let r := (hash_nr pos, data pos) in
  if negb (has (flag s) HIGHFIND) then
    mkSplit (arr s) (Z.lor (Z.land (flag s) LOWFIND) HIGHFIND) idx (gpos s) (rec s) (empty s) r
  else if negb (has (flag s) HIGHUSED) then
    mkSplit (put_link (gpos2 s) (rec2 s) (Some idx) (arr s))
      (Z.lor (Z.land (flag s) LOWFIND) (Z.lor HIGHFIND HIGHUSED)) (empty s) (gpos s) (rec s) idx r
  else mkSplit (arr s) (flag s) (empty s) (gpos s) (rec s) idx r.

(** The chain stays as it is if the link at its start belongs elsewhere. *)
Fixpoint split_loop (fuel : nat) (blength records halfbuff first_index idx : nat) (s : split) : option split :=
  match fuel with
  | O => None
  | S fuel' =>
      pos ← arr s !! idx;
      if (flag s =? 0) && negb (my_hash_mask (hash_nr pos) blength records =? first_index)%nat then Some s
      else
        let s := if Z.land (hash_nr pos) (Z.of_nat halfbuff) =? 0 then low_key idx pos s else high_key idx pos s in
        pos ← arr s !! idx;
        match next pos with
        | None => Some s
        | Some i => split_loop fuel' blength records halfbuff first_index i s
        end
  end.

(** The last writes to the two chains. *)
Definition finish_split (s : split) : split :=
  let a := if Z.land (flag s) (Z.lor LOWFIND LOWUSED) =? LOWFIND then put_link (gpos s) (rec s) None (arr s) else arr s in
  let a := if Z.land (flag s) (Z.lor HIGHFIND HIGHUSED) =? HIGHFIND then put_link (gpos2 s) (rec2 s) None a else a in
  mkSplit a (flag s) (empty s) (gpos s) (rec s) (gpos2 s) (rec2 s).

(** [slot] is what the array delivers for a new link, with arbitrary contents,
    or nothing if there is no memory. *)
Definition split_chain (h : HASH A) (slot : HASH_LINK A) : option split :=
  let halfbuff := Nat.div2 (blength h) in
  let first_index := (records h - halfbuff)%nat in
  let s := mkSplit (array h ++ [slot]) 0 (records h) 0 (0, data slot) 0 (0, data slot) in
  if negb (first_index =? records h)%nat then
    s ← split_loop (records h) (blength h) (records h) halfbuff first_index first_index s;
    Some (finish_split s)
  else Some s.

(** The new record is stored at the start of its chain; a link that is there is
    moved to the free index [e]. *)
Definition place_record (blength n : nat) (a : list (HASH_LINK A)) (e : nat) (current_hash_nr : Z) (record : A)
    : option (list (HASH_LINK A)) :=
  let idx := my_hash_mask current_hash_nr blength n in
  pos ← a !! idx;
  a ← (if (idx =? e)%nat then Some (<[idx := set_next None pos]> a)
       else
         let a := <[e := pos]> a in
         let g := my_hash_rec_mask pos blength n in
         if (idx =? g)%nat then Some (<[idx := set_next (Some e) pos]> a)
         else movelink (<[idx := set_next None pos]> a) (Some idx) g (Some e));
  pos ← a !! idx;
  Some (<[idx := mkLink (next pos) current_hash_nr record]> a).

Definition my_hash_insert (key : A -> list Z) (slot : option (HASH_LINK A)) (h : HASH A) (record : A) : option (bool * HASH A) :=
  let k := key record in
  let current_hash_nr := hash_function k in
  dup ← (if unique h then my_hash_first_from_hash_value key h current_hash_nr k (length k) else Some None);
  match dup, slot with
  | Some _, _ | _, None => Some (true, h)
  | None, Some slot =>
      s ← split_chain h slot;
      let n := (records h + 1)%nat in
      a ← place_record (blength h) n (arr s) (empty s) current_hash_nr record;
      Some (false, mkHash (key_length h) (if (n =? blength h)%nat then blength h + blength h else blength h)%nat n a (unique h) (free h) (freed h))
  end.

(** ** Removal *)

(** The search for the record: the links at which it stops and in front of
    that; [None] inside if the record is not there. *)
Fixpoint find_record (fuel : nat) (a : list (HASH_LINK A)) (record : A) (gpos : option nat) (pos : nat)
    : option (option (option nat * nat)) :=
  match fuel with
  | O => None
  | S fuel' =>
      p ← a !! pos;
      if bool_decide (data p = record) then Some (Some (gpos, pos))
      else match next p with None => Some None | Some i => find_record fuel' a record (Some pos) i end
  end.

(** The link is taken out of its chain; the index that is free afterwards. *)
Definition unlink (a : list (HASH_LINK A)) (gpos : option nat) (pos : nat) : option (list (HASH_LINK A) * nat) :=
  p ← a !! pos;
  match gpos with
  | Some g => q ← a !! g; Some (<[g := set_next (next p) q]> a, pos)
  | None =>
      match next p with
      | Some e => q ← a !! e; Some (<[pos := q]> a, e)
      | None => Some (a, pos)
      end
  end.

(** The last link is moved to the free index, and the chain that started at the
    last index is joined to another one; [blength0] is the old [blength]. *)
Definition move_last (blength0 blength records : nat) (a : list (HASH_LINK A)) (e : nat) : option (list (HASH_LINK A)) :=
  if (e =? records)%nat then Some a
  else
    last ← a !! records;
    let pos := my_hash_mask (hash_nr last) blength records in
    if (pos =? e)%nat then Some (<[e := last]> a)
    else
      p ← a !! pos;
      let pos3 := my_hash_mask (hash_nr p) blength records in
      if negb (pos =? pos3)%nat then movelink (<[pos := last]> (<[e := p]> a)) (Some pos) pos3 (Some e)
      else
        let pos2 := my_hash_mask (hash_nr last) blength0 (records + 1) in
        let same := (pos2 =? my_hash_mask (hash_nr p) blength0 (records + 1))%nat in
        if same && negb (pos2 =? records)%nat then movelink (<[e := last]> a) (Some records) pos (Some e)
        else
          a ← movelink (<[e := last]> a) (if same then Some pos else None) e (next p);
          p ← a !! pos;
          Some (<[pos := set_next (Some e) p]> a).

Definition my_hash_delete (key : A -> list Z) (h : HASH A) (record : A) : option (bool * HASH A) :=
  if (records h =? 0)%nat then Some (true, h)
  else
    let blength0 := blength h in
    found ← find_record (records h) (array h) record None (my_hash_mask (hash_function (key record)) blength0 (records h));
    match found with
    | None => Some (true, h)
    | Some (gpos, pos) =>
        let n := (records h - 1)%nat in
        let bl := if (n <? Nat.div2 blength0)%nat then Nat.div2 blength0 else blength0 in
        '(a, e) ← unlink (array h) gpos pos;
        a ← move_last blength0 bl n a e;
        Some (false, mkHash (key_length h) bl n (take n a) (unique h) (free h) (if free h then freed h ++ [record] else freed h))
    end.

(** ** Change of a key *)

(** Whether another record has the key. *)
Fixpoint other_loop (fuel : nat) (key : A -> list Z) (h : HASH A) (record : A) (k : list Z) (found : option nat) : option bool :=
  match found with
  | None => Some false
  | Some i =>
      match fuel with
      | O => None
      | S fuel' =>
          pos ← array h !! i;
          if negb (bool_decide (data pos = record)) then Some true
          else found ← my_hash_next key h k (length k) (Some i); other_loop fuel' key h record k found
      end
  end.

(** The link that has been taken out is stored in its new chain. *)
Definition relocate (blength records : nat) (a : list (HASH_LINK A)) (e idx : nat) (org_link : HASH_LINK A) (nr : Z)
    : option (list (HASH_LINK A)) :=
  let new_index := my_hash_mask nr blength records in
  if (new_index =? e)%nat then
    let a := if negb (e =? idx)%nat then <[e := org_link]> a else a in
    pos ← a !! e;
    Some (<[e := mkLink None nr (data pos)]> a)
  else
    pos ← a !! new_index;
    let new_pos_index := my_hash_rec_mask pos blength records in
    if negb (new_index =? new_pos_index)%nat then
      a ← movelink (<[e := pos]> a) (Some new_index) new_pos_index (Some e);
      Some (<[new_index := mkLink None nr (data org_link)]> a)
    else
      Some (<[new_index := set_next (Some e) pos]> (<[e := mkLink (next pos) nr (data org_link)]> a)).

Definition my_hash_update (key : A -> list Z) (h : HASH A) (record : A) (old_key : list Z) (old_key_length : nat)
    : option (bool * HASH A) :=
  let new_key := key record in
  let nr := hash_function new_key in
  let keep a := mkHash (key_length h) (blength h) (records h) a (unique h) (free h) (freed h) in
  dup ← (if unique h then
           found ← my_hash_first_from_hash_value key h nr new_key (length new_key);
           other_loop (S (records h)) key h record new_key found
         else Some false);
  if (dup : bool) then Some (true, h)
  else
    let org_index := my_hash_mask (hash_of_key h old_key old_key_length) (blength h) (records h) in
    let new_index := my_hash_mask nr (blength h) (records h) in
    found ← find_record (records h) (array h) record None org_index;
    match found with
    | None => Some (true, h)
    | Some (previous, idx) =>
        org_link ← array h !! idx;
        if (org_index =? new_index)%nat then Some (false, keep (<[idx := set_hash_nr nr org_link]> (array h)))
        else
          '(a, e) ← unlink (array h) previous idx;
          a ← relocate (blength h) (records h) a e idx org_link nr; Some (false, keep a)
    end.

(** ** The check of the debugging library *)

(** The links behind the start of a chain: the number of links found and
    whether one is wrong.  Of [records] links that follow each other, one is
    counted or the chain never ends. *)
Fixpoint check_chain (fuel : nat) (h : HASH A) (i : nat) (found : nat) (error : bool) (idx : option nat) : option (nat * bool) :=
  match idx with
  | None => Some (found, error)
  | Some j =>
      if (found <? records h + 1)%nat then
        match fuel with
        | O => None
        | S fuel' =>
            pos ← array h !! j;
            if negb (my_hash_rec_mask pos (blength h) (records h) =? i)%nat then check_chain fuel' h i found true (next pos)
            else check_chain fuel' h i (S found) error (next pos)
        end
      else Some (found, error)
  end.

Fixpoint check_loop (key : A -> list Z) (h : HASH A) (i : nat) (links : list (HASH_LINK A)) (found : nat) (error : bool)
    : option (nat * bool) :=
  match links with
  | [] => Some (found, error)
  | pos :: links' =>
      let error := error || negb (hash_nr pos =? hash_function (key (data pos))) in
      '(found, error) ←
        (if (my_hash_rec_mask pos (blength h) (records h) =? i)%nat then check_chain (S (records h) * S (records h)) h i (S found) error (next pos)
         else Some (found, error));
      check_loop key h (S i) links' found error
  end.

Definition my_hash_check (key : A -> list Z) (h : HASH A) : option bool :=
  '(found, error) ← check_loop key h 0 (take (records h) (array h)) 0 false;
  Some (error || negb (found =? records h)%nat).

End hash.
