(* ===== verification/HashChains.v ===== *)
(** * Chains of a hash table

    Linked lists in the array of a hash table, and the invariant of the table:
    every index has a chain of links, empty or starting at the index itself,
    that consists of exactly the links whose hash values belong there.  Lemmas
    say what the elementary changes of the array do to the chains. *)

From Stdlib Require Import ZifyNat ZifyBool.
From stdpp Require Import functions.
From S2P Require Import Prelude.
From S2P Require Import Charset.
From S2P Require Import Hash.

(** ** Linked lists in an array *)

Section chains.
Context {A : Type}.
Implicit Types (a b : list (HASH_LINK A)) (l : list nat) (e : option nat).

(** The links of [l] follow each other, and the last one leads to [e]. *)
Fixpoint linked a l e : Prop :=
  match l with
  | [] => True
  | x :: l' => (exists k, a !! x = Some k /\ next k = match l' with [] => e | y :: _ => Some y end) /\ linked a l' e
  end.

Definition head_or l e : option nat := match l with [] => e | x :: _ => Some x end.

Lemma linked_cons a x l e : linked a (x :: l) e <-> (exists k, a !! x = Some k /\ next k = head_or l e) /\ linked a l e.
Proof. done. Qed.

Lemma linked_app a l1 l2 e : linked a (l1 ++ l2) e <-> linked a l1 (head_or l2 e) /\ linked a l2 e.
Proof.
  induction l1 as [|x l1 IH]; cbn [app]; [naive_solver|]. rewrite !linked_cons, IH.
  destruct l1 as [|y l1]; cbn [head_or app]; naive_solver.
Qed.

Lemma linked_ext a b l e : (forall x, x ∈ l -> next <$> a !! x = next <$> b !! x) -> linked a l e -> linked b l e.
Proof.
  induction l as [|x l IH]; intros Hx; [done|]. rewrite !linked_cons. intros [(k & Hk & Hn) Hl]. split.
  - specialize (Hx x ltac:(set_solver)). rewrite Hk in Hx. destruct (b !! x) as [k'|]; [|done]. injection Hx as Hx. exists k'.
    split; [done|congruence].
  - apply IH; [|done]. intros y Hy. apply Hx. set_solver.
Qed.

Lemma linked_insert_ne a x k l e : x ∉ l -> linked a l e -> linked (<[x := k]> a) l e.
Proof. intros Hx. apply linked_ext. intros y Hy. rewrite list_lookup_insert_ne; [done|set_solver]. Qed.

Lemma linked_lookup a l e x : linked a l e -> x ∈ l -> exists k, a !! x = Some k.
Proof. induction l as [|y l IH]; [set_solver|]. rewrite linked_cons. intros [(k & Hk & _) Hl] [-> | Hx]%elem_of_cons; eauto. Qed.

Lemma linked_lt a l e x : linked a l e -> x ∈ l -> (x < length a)%nat.
Proof. intros Hl Hx. destruct (linked_lookup a l e x Hl Hx) as [k Hk]. by apply lookup_lt_Some in Hk. Qed.

(** The index that ends a list leads to another place. *)
Definition relink a l e : list (HASH_LINK A) := match last l with Some q => alter (set_next e) q a | None => a end.

Lemma relink_snoc a l q e : relink a (l ++ [q]) e = alter (set_next e) q a.
Proof. unfold relink. by rewrite last_snoc. Qed.

Lemma length_relink a l e : length (relink a l e) = length a.
Proof. unfold relink. destruct (last l); [apply length_alter|done]. Qed.

Lemma alter_insert_eq (f : HASH_LINK A -> HASH_LINK A) i k a : a !! i = Some k -> alter f i a = <[i := f k]> a.
Proof.
  intros Hk. apply list_eq. intros j. destruct (decide (i = j)) as [<-|Hj].
  - rewrite list_lookup_alter_eq, list_lookup_insert_eq by (by eapply lookup_lt_Some). by rewrite Hk.
  - by rewrite list_lookup_alter_ne, list_lookup_insert_ne.
Qed.

Lemma linked_relink a l e e' : NoDup l -> linked a l e -> linked (relink a l e') l e'.
Proof.
  destruct l as [|q l _] using rev_ind; [done|]. intros Hn. rewrite relink_snoc, !linked_app. intros [Hl [(k & Hk & _) _]].
  apply NoDup_app in Hn as (_ & Hq & _). split; [|split; [|done]].
  - apply (linked_ext a); [|done]. intros x Hx. rewrite list_lookup_alter_ne; [done|set_solver].
  - exists (set_next e' k). split; [|done]. by rewrite list_lookup_alter_eq, Hk.
Qed.

Lemma relink_lookup_out a l e x : x ∉ l -> relink a l e !! x = a !! x.
Proof.
  intros Hx. unfold relink. destruct (last l) as [q|] eqn:E; [|done]. apply list_lookup_alter_ne. intros ->. apply Hx.
  apply last_Some in E as [l' ->]. set_solver.
Qed.

Lemma relink_linked_out a l e l' e' : l ## l' -> linked a l' e' -> linked (relink a l e) l' e'.
Proof. intros Hd. apply linked_ext. intros x Hx. rewrite relink_lookup_out; [done|set_solver]. Qed.

(** [movelink] finds the end of the list that leads to [find]. *)
Lemma movelink_loop_spec fuel a l find newlink x : NoDup (x :: l) -> (forall y, y ∈ l -> find <> Some y) -> linked a (x :: l) find ->
  (length l < fuel)%nat -> movelink_loop fuel a find x newlink = Some (relink a (x :: l) newlink).
Proof.
  revert x fuel. induction l as [|y l IH]; intros x fuel Hn Hf [(k & Hk & Hnx) Hl] Hlen; (destruct fuel as [|fuel]; [cbn in Hlen; lia|]);
    cbn [movelink_loop]; rewrite Hk; cbn [mbind option_bind].
  - rewrite Hnx, bool_decide_eq_true_2 by done. unfold relink. cbn [last]. by rewrite (alter_insert_eq _ _ k).
  - cbn [head_or] in Hnx. rewrite Hnx, bool_decide_eq_false_2 by (specialize (Hf y ltac:(set_solver)); congruence).
    cbn [mbind option_bind]. rewrite (IH y); [done|by apply NoDup_cons in Hn as [_ ?]|set_solver|done|cbn in Hlen; lia].
Qed.

Lemma NoDup_length_lt l n : NoDup l -> (forall x, x ∈ l -> (x < n)%nat) -> (length l <= n)%nat.
Proof.
  intros Hn Hl. rewrite <-(length_seq n 0). apply submseteq_length, NoDup_submseteq; [done|].
  intros x Hx. apply elem_of_seq. specialize (Hl x Hx). lia.
Qed.

Lemma movelink_spec a l find newlink x : NoDup (x :: l) -> (forall y, y ∈ l -> find <> Some y) -> linked a (x :: l) find ->
  movelink a find x newlink = Some (relink a (x :: l) newlink).
Proof.
  intros Hn Hf Hl. apply movelink_loop_spec; [done|done|done|].
  pose proof (NoDup_length_lt (x :: l) (length a) Hn (fun y => linked_lt a _ find y Hl)). cbn in *. lia.
Qed.

(** ** Contents *)

Definition rec_of (k : HASH_LINK A) : Z * A := (hash_nr k, data k).

Definition recs a : list (Z * A) := map rec_of a.

Lemma recs_lookup a i : recs a !! i = rec_of <$> a !! i.
Proof. apply list_lookup_fmap. Qed.

Lemma length_recs a : length (recs a) = length a.
Proof. apply length_map. Qed.

Lemma recs_insert a i k : recs (<[i := k]> a) = <[i := rec_of k]> (recs a).
Proof. apply list_fmap_insert. Qed.

Lemma recs_relink a l e : recs (relink a l e) = recs a.
Proof.
  unfold relink. destruct (last l) as [q|]; [|done]. apply list_eq. intros j. rewrite !recs_lookup.
  destruct (decide (q = j)) as [<-|Hj]; [rewrite list_lookup_alter_eq|by rewrite list_lookup_alter_ne].
  by destruct (a !! q).
Qed.

(** ** The chains of a table

    [D] are the indices in use and [f] is the index at which the chain of a hash
    value starts. *)
Record chains a (D : nat -> Prop) (f : Z -> nat) (ch : nat -> list nat) : Prop := {
  ch_head h x l : ch h = x :: l -> x = h;
  ch_linked h : linked a (ch h) None;
  ch_nodup h : NoDup (ch h);
  ch_mem h j : j ∈ ch h <-> D j /\ exists r, recs a !! j = Some r /\ f r.1 = h
}.

Section facts.
Context a D f ch (Hch : chains a D f ch).

Lemma chains_disjoint h h' j : j ∈ ch h -> j ∈ ch h' -> h = h'.
Proof.
  intros (_ & r & Hr & <-)%(ch_mem _ _ _ _ Hch) (_ & r' & Hr' & <-)%(ch_mem _ _ _ _ Hch). congruence.
Qed.

Lemma chains_home j r : D j -> recs a !! j = Some r -> exists l, ch (f r.1) = f r.1 :: l /\ j ∈ f r.1 :: l.
Proof.
  intros Hj Hr. assert (j ∈ ch (f r.1)) as Hin by (apply (ch_mem _ _ _ _ Hch); eauto).
  destruct (ch (f r.1)) as [|x l] eqn:E; [set_solver|]. pose proof (ch_head _ _ _ _ Hch _ _ _ E) as ->. eauto.
Qed.

Lemma chains_free (e : nat) : ~ D e -> ch e = [].
Proof.
  intros He. destruct (ch e) as [|x l] eqn:E; [done|]. pose proof (ch_head _ _ _ _ Hch _ _ _ E) as ->.
  destruct He. apply (ch_mem _ _ _ _ Hch e e). rewrite E. set_solver.
Qed.

(** A link that is not at home: where its chain leads to it. *)
Lemma chains_split j r : D j -> recs a !! j = Some r -> f r.1 <> j ->
  exists l1 l2, ch (f r.1) = f r.1 :: l1 ++ j :: l2 /\ ch j = [].
Proof.
  intros Hj Hr Hne. destruct (chains_home j r Hj Hr) as (l & E & Hin). apply elem_of_cons in Hin as [->|Hin]; [done|].
  apply list_elem_of_split in Hin as (l1 & l2 & ->). exists l1, l2. split; [done|].
  destruct (ch j) as [|x l'] eqn:E'; [done|]. pose proof (ch_head _ _ _ _ Hch _ _ _ E') as ->.
  destruct Hne. apply (chains_disjoint _ _ j); [rewrite E|rewrite E']; set_solver.
Qed.

End facts.

(** A record is stored at a free index; one that moves there leaves its index
    to another one. *)
Lemma perm_fill (R : list (Z * A)) (e : nat) x : (e < length R)%nat -> <[e := x]> R ≡ₚ x :: delete e R.
Proof. intros He. by rewrite insert_take_drop, delete_take_drop, Permutation_middle. Qed.

Lemma perm_move (R : list (Z * A)) (e p : nat) x y : e <> p -> (e < length R)%nat -> R !! p = Some y ->
  <[p := x]> (<[e := y]> R) ≡ₚ x :: delete e R.
Proof.
  intros Hne He Hp. assert (p < length R)%nat by (by eapply lookup_lt_Some).
  rewrite perm_fill by (by rewrite length_insert). constructor. apply (Permutation_cons_inv (a := y)).
  rewrite <-(perm_fill R e y) by done. symmetry. apply delete_Permutation. by rewrite list_lookup_insert_ne.
Qed.

(** ** Storing a record *)

Ltac inv_lookup :=
  repeat match goal with
  | H : Some _ = Some _ |- _ => injection H as H
  | H : Some _ = None |- _ => discriminate
  | H : None = Some _ |- _ => discriminate
  end.

Lemma chains_intro b (D : nat -> Prop) f ch :
  (forall h x l, ch h = x :: l -> x = h) -> (forall h, linked b (ch h) None) -> (forall h, NoDup (ch h)) ->
  (forall h j, j ∈ ch h -> D j /\ exists r, recs b !! j = Some r /\ f r.1 = h) ->
  (forall j r, D j -> recs b !! j = Some r -> j ∈ ch (f r.1)) -> chains b D f ch.
Proof. intros H1 H2 H3 H4 H5. split; [done|done|done|]. intros h j. split; [apply H4|]. intros (Hj & r & Hr & <-). by apply H5. Qed.

Lemma chains_ext a b (D D' : nat -> Prop) f ch :
  (forall j, D j <-> D' j) -> (forall j, D j -> a !! j = b !! j) -> chains a D f ch -> chains b D' f ch.
Proof.
  intros HD Hab [H1 H2 H3 H4]. apply chains_intro; [done| |done| |].
  - intros h. apply (linked_ext a); [|done]. intros x Hx. rewrite Hab; [done|]. by apply H4 in Hx as [? _].
  - intros h j (Hj & r & Hr & Hf)%H4. split; [by apply HD|]. exists r. rewrite recs_lookup, <-Hab, <-recs_lookup; done.
  - intros j r Hj Hr. apply HD in Hj. apply H4. split; [done|]. exists r. rewrite recs_lookup, Hab, <-recs_lookup; done.
Qed.

Lemma chains_home_ext a D f g ch : (forall j x, D j -> recs a !! j = Some x -> g x.1 = f x.1) -> chains a D f ch -> chains a D g ch.
Proof.
  intros Hfg [H1 H2 H3 H4]. split; [done|done|done|]. intros h j. rewrite H4.
  split; intros (Hj & x & Hx & <-); (split; [done|]); exists x; (split; [done|]); by rewrite (Hfg j x Hj Hx).
Qed.

(** The chains of [n] and [F] are replaced by one chain [l] of [F]; [b] differs
    from [a] in the links of these chains only. *)
Lemma chains_join a b (D D' : nat -> Prop) f f' ch (n F : nat) l :
  chains a D f ch ->
  (forall x l', l = x :: l' -> x = F) -> linked b l None -> NoDup l ->
  (forall j, j ∉ ch n -> j ∉ ch F -> j ∉ l -> a !! j = b !! j /\ (D j <-> D' j)) ->
  (forall j, j ∈ l -> D j -> j ∈ ch n \/ j ∈ ch F) ->
  (forall j, j ∈ l -> D' j /\ exists r, recs b !! j = Some r /\ f' r.1 = F) ->
  (forall j, D' j -> j ∈ ch n \/ j ∈ ch F -> j ∈ l) ->
  (forall j x, D j -> recs a !! j = Some x -> f x.1 <> n -> f' x.1 = f x.1) ->
  chains b D' f' (<[F := l]> (<[n := []]> ch)).
Proof.
  intros Hch Hhead Hl Hnd Hout Hin Hmem Hrest Hf. pose proof Hch as [H1 H2 H3 H4].
  assert (Hother : forall h j, h <> F -> h <> n -> j ∈ ch h -> (j ∉ ch n) /\ (j ∉ ch F) /\ (j ∉ l)).
  { intros h j Hne Hne' Hj. assert (j ∉ ch n) by (intros Hj'; by eapply Hne', chains_disjoint).
    assert (j ∉ ch F) by (intros Hj'; by eapply Hne, chains_disjoint). split_and!; [done|done|].
    intros Hj'. apply H4 in Hj as [Hd _]. destruct (Hin j Hj' Hd); done. }
  assert (Hlook : forall h, (<[F := l]> (<[n := []]> ch) : nat -> list nat) h = if decide (h = F) then l else if decide (h = n) then [] else ch h).
  { intros h. destruct (decide (h = F)) as [->|Hg]; [by rewrite fn_lookup_insert|]. rewrite fn_lookup_insert_ne by done.
    destruct (decide (h = n)) as [->|Hn]; [by rewrite fn_lookup_insert|by rewrite fn_lookup_insert_ne]. }
  apply chains_intro.
  - intros h x l'. rewrite Hlook. destruct (decide (h = F)) as [->|]; [apply Hhead|]. destruct (decide (h = n)) as [->|]; [done|apply H1].
  - intros h. rewrite Hlook. destruct (decide (h = F)) as [->|]; [done|]. destruct (decide (h = n)) as [->|]; [done|].
    apply (linked_ext a); [|done]. intros x Hx. destruct (Hother h x) as (O1 & O2 & O3); [done|done|done|]. by destruct (Hout x O1 O2 O3) as [-> _].
  - intros h. rewrite Hlook. destruct (decide (h = F)) as [->|]; [done|]. destruct (decide (h = n)) as [->|]; [apply NoDup_nil_2|done].
  - intros h j. rewrite Hlook. destruct (decide (h = F)) as [->|]; [apply Hmem|]. destruct (decide (h = n)) as [->|]; [by intros ?%not_elem_of_nil|].
    intros Hj. destruct (Hother h j) as (O1 & O2 & O3); [done|done|done|]. destruct (Hout j O1 O2 O3) as [Hab HD].
    apply H4 in Hj as (Hd & r & Hr & Hfr). split; [by apply HD|]. exists r. rewrite recs_lookup, <-Hab, <-recs_lookup. split; [done|].
    rewrite (Hf j r Hd Hr); congruence.
  - intros j r Hj Hr. rewrite Hlook. destruct (decide (j ∈ l)) as [Hjl|Hjl].
    { destruct (Hmem j Hjl) as (_ & r' & Hr' & Hf'). assert (r' = r) as -> by congruence. by rewrite decide_True. }
    destruct (decide (j ∈ ch n)) as [?|Hjn]; [destruct (Hjl (Hrest j Hj ltac:(by left)))|].
    destruct (decide (j ∈ ch F)) as [?|HjF]; [destruct (Hjl (Hrest j Hj ltac:(by right)))|].
    destruct (Hout j Hjn HjF Hjl) as [Hab HD]. rewrite recs_lookup, <-Hab, <-recs_lookup in Hr. apply HD in Hj.
    assert (j ∈ ch (f r.1)) as Hjr by (apply H4; eauto). assert (f r.1 <> n) as Hfn by (intros He; by rewrite He in Hjr).
    rewrite (Hf j r Hj Hr Hfn). rewrite decide_False by (intros He; by rewrite He in Hjr). by rewrite decide_False.
Qed.

(** One chain is replaced by another one. *)
Lemma chains_replace a b (D D' : nat -> Prop) f ch (h : nat) l :
  chains a D f ch ->
  (forall x l', l = x :: l' -> x = h) -> linked b l None -> NoDup l ->
  (forall j, j ∉ ch h -> j ∉ l -> a !! j = b !! j /\ (D j <-> D' j)) ->
  (forall j, j ∈ l -> D j -> j ∈ ch h) ->
  (forall j, j ∈ l -> D' j /\ exists r, recs b !! j = Some r /\ f r.1 = h) ->
  (forall j, D' j -> j ∈ ch h -> j ∈ l) ->
  chains b D' f (<[h := l]> ch).
Proof.
  intros Hch Hhead Hl Hnd Hout Hin Hmem Hrest.
  destruct (chains_join a b D D' f f ch h h l) as [H1 H2 H3 H4]; try done.
  - intros j H1 _ H2. by apply Hout.
  - intros j H1 H2. left. by apply Hin.
  - intros j H1 [H2|H2]; by apply Hrest.
  - assert (He : forall g, (<[h := l]> (<[h := []]> ch) : nat -> list nat) g = (<[h := l]> ch : nat -> list nat) g).
    { intros g. destruct (decide (h = g)) as [<-|Hg]; [by rewrite !fn_lookup_insert|by rewrite !fn_lookup_insert_ne]. }
    split; intros g; rewrite <-He; [apply H1|apply H2|apply H3|apply H4].
Qed.

(** A chain of its own at a free index. *)
Lemma chains_single a D f ch (i : nat) nr r : chains a D f ch -> ~ D i -> (i < length a)%nat -> f nr = i ->
  chains (<[i := mkLink None nr r]> a) (fun j => D j \/ j = i) f (<[i := [i]]> ch).
Proof.
  intros Hch Hi Hlt Hf. pose proof (chains_free _ _ _ _ Hch i Hi) as Hfree.
  apply (chains_replace a _ D); [done|naive_solver| |apply NoDup_singleton| | | |].
  - cbn. split; [|done]. exists (mkLink None nr r). by rewrite list_lookup_insert_eq.
  - intros j _ Hj. assert (i <> j) by set_solver. rewrite list_lookup_insert_ne by done. naive_solver.
  - intros j ->%list_elem_of_singleton. done.
  - intros j ->%list_elem_of_singleton. split; [by right|]. exists (nr, r).
    rewrite recs_insert, list_lookup_insert_eq by (by rewrite length_recs). done.
  - rewrite Hfree. set_solver.
Qed.

(** A link that is not at home moves to a free index. *)
Lemma chains_move a D f ch (i e g : nat) k l1 l2 : chains a D f ch -> ~ D e -> (e < length a)%nat -> a !! i = Some k ->
  ch g = g :: l1 ++ i :: l2 ->
  chains (relink (<[e := k]> a) (g :: l1) (Some e)) (fun j => (D j /\ j <> i) \/ j = e) f (<[g := g :: l1 ++ e :: l2]> ch).
Proof.
  intros Hch He Hlt Hk Hg. pose proof Hch as [_ H2 H3 H4].
  assert (Hec : forall h, e ∉ ch h) by (intros h (? & _)%H4; done).
  pose proof (H3 g) as Hnd. pose proof (H2 g) as Hl. pose proof (Hec g) as Heg. rewrite Hg in Hnd, Hl, Heg.
  change (g :: l1 ++ i :: l2) with ((g :: l1) ++ i :: l2) in *. change (g :: l1 ++ e :: l2) with ((g :: l1) ++ e :: l2).
  apply NoDup_app in Hnd as (Hn1 & Hn2 & [Hn3 Hn4]%NoDup_cons).
  apply linked_app in Hl as [Hl1 [(k' & Hk' & Hnx) Hl2]]. simplify_eq.
  assert (Hge : e ∉ g :: l1) by set_solver. assert (He2 : e ∉ l2) by set_solver. assert (Hie : e <> i) by set_solver.
  apply (chains_replace a _ D); [done|naive_solver| | | | | |]; rewrite ?Hg.
  - apply linked_app. split.
    + apply (linked_relink _ _ (Some i)); [done|]. by apply linked_insert_ne.
    + apply linked_cons. rewrite relink_lookup_out by done. rewrite list_lookup_insert_eq by done. split; [eauto|].
      apply relink_linked_out; [set_solver|]. by apply linked_insert_ne.
  - apply NoDup_app. split_and!; [done|set_solver|]. by apply NoDup_cons.
  - intros j Hj1 Hj2. rewrite relink_lookup_out by set_solver. rewrite list_lookup_insert_ne by set_solver. split; [done|]. set_solver.
  - intros j Hj HD. destruct (decide (j = e)) as [->|]; [done|]. set_solver.
  - intros j Hj. rewrite recs_relink, recs_insert. destruct (decide (j = e)) as [->|Hje].
    + split; [by right|]. exists (rec_of k). rewrite list_lookup_insert_eq by (by rewrite length_recs). split; [done|].
      destruct (proj1 (H4 g i)) as (_ & r & Hr & <-); [rewrite Hg; set_solver|]. rewrite recs_lookup, Hk in Hr. by injection Hr as <-.
    + rewrite list_lookup_insert_ne by done. destruct (proj1 (H4 g j)) as (Hd & r & Hr & Hf); [rewrite Hg; set_solver|].
      split; [left; set_solver|]. eauto.
  - intros j [[_ Hji] | ->] Hj; set_solver.
Qed.

(** A new link in front of a chain; the old first one moves to a free index. *)
Lemma chains_push a D f ch (i e : nat) k t nr r : chains a D f ch -> ~ D e -> (e < length a)%nat -> a !! i = Some k ->
  ch i = i :: t -> f nr = i ->
  chains (<[i := mkLink (Some e) nr r]> (<[e := k]> a)) (fun j => D j \/ j = e) f (<[i := i :: e :: t]> ch).
Proof.
  intros Hch He Hlt Hk Hi Hf. pose proof Hch as [_ H2 H3 H4].
  assert (Hec : forall h, e ∉ ch h) by (intros h (? & _)%H4; done).
  pose proof (H3 i) as Hnd. pose proof (H2 i) as Hl. pose proof (Hec i) as Hei. rewrite Hi in Hnd, Hl, Hei.
  apply NoDup_cons in Hnd as [Hit Ht]. destruct Hl as [(k' & Hk' & Hnx) Hl]. simplify_eq.
  assert (Hne : e <> f nr) by set_solver. assert (Hlt' : (f nr < length a)%nat) by (by eapply lookup_lt_Some).
  apply (chains_replace a _ D); [done|naive_solver| | | | | |]; rewrite ?Hi.
  - apply linked_cons. rewrite list_lookup_insert_eq by (by rewrite length_insert). split; [eauto|].
    apply linked_cons. rewrite list_lookup_insert_ne, list_lookup_insert_eq by done. split; [eauto|].
    apply linked_insert_ne; [done|]. apply linked_insert_ne; [set_solver|done].
  - apply NoDup_cons. split; [set_solver|]. apply NoDup_cons. split; [set_solver|done].
  - intros j Hj1 Hj2. rewrite !list_lookup_insert_ne by set_solver. set_solver.
  - intros j Hj HD. destruct (decide (j = e)) as [->|]; [done|]. set_solver.
  - intros j Hj. rewrite !recs_insert. destruct (decide (j = f nr)) as [->|Hj1]; [|destruct (decide (j = e)) as [->|Hj2]].
    + split; [left; apply (H4 (f nr)); rewrite Hi; set_solver|]. exists (nr, r).
      by rewrite list_lookup_insert_eq by (by rewrite length_insert, length_recs).
    + split; [by right|]. exists (rec_of k). rewrite list_lookup_insert_ne, list_lookup_insert_eq by (rewrite ?length_recs; done).
      split; [done|]. destruct (proj1 (H4 (f nr) (f nr))) as (_ & r' & Hr' & Hf'); [rewrite Hi; set_solver|].
      rewrite recs_lookup, Hk in Hr'. by injection Hr' as <-.
    + rewrite !list_lookup_insert_ne by done. destruct (proj1 (H4 (f nr) j)) as (Hd & r' & Hr' & Hf'); [rewrite Hi; set_solver|].
      eauto.
  - intros j [Hj | ->] Hj'; set_solver.
Qed.

(** A new link behind the first one of a chain. *)
Lemma chains_second a D f ch (i e : nat) k t nr r : chains a D f ch -> ~ D e -> (e < length a)%nat -> a !! i = Some k ->
  ch i = i :: t -> f nr = i ->
  chains (<[i := set_next (Some e) k]> (<[e := mkLink (next k) nr r]> a)) (fun j => D j \/ j = e) f (<[i := i :: e :: t]> ch).
Proof.
  intros Hch He Hlt Hk Hi Hf. pose proof Hch as [_ H2 H3 H4].
  assert (Hec : forall h, e ∉ ch h) by (intros h (? & _)%H4; done).
  pose proof (H3 i) as Hnd. pose proof (H2 i) as Hl. pose proof (Hec i) as Hei. rewrite Hi in Hnd, Hl, Hei.
  apply NoDup_cons in Hnd as [Hit Ht]. destruct Hl as [(k' & Hk' & Hnx) Hl]. assert (k' = k) as -> by congruence.
  assert (Hne : e <> i) by set_solver. assert (Hlt' : (i < length a)%nat) by (by eapply lookup_lt_Some).
  apply (chains_replace a _ D); [done|naive_solver| | | | | |]; rewrite ?Hi.
  - apply linked_cons. rewrite list_lookup_insert_eq by (by rewrite length_insert). split; [eauto|].
    apply linked_cons. rewrite list_lookup_insert_ne, list_lookup_insert_eq by done. split; [eauto|].
    apply linked_insert_ne; [done|]. apply linked_insert_ne; [set_solver|done].
  - apply NoDup_cons. split; [set_solver|]. apply NoDup_cons. split; [set_solver|done].
  - intros j Hj1 Hj2. rewrite !list_lookup_insert_ne by set_solver. set_solver.
  - intros j Hj HD. destruct (decide (j = e)) as [->|]; [done|]. set_solver.
  - intros j Hj. rewrite !recs_insert. destruct (decide (j = e)) as [->|Hj2].
    + split; [by right|]. exists (nr, r). by rewrite list_lookup_insert_ne, list_lookup_insert_eq by (rewrite ?length_recs; done).
    + destruct (proj1 (H4 i j)) as (Hd & r' & Hr' & Hf'); [rewrite Hi; set_solver|]. split; [by left|]. exists r'. split; [|done].
      destruct (decide (j = i)) as [->|Hj1]; [|by rewrite !list_lookup_insert_ne].
      rewrite list_lookup_insert_eq by (by rewrite length_insert, length_recs). by rewrite <-Hr', recs_lookup, Hk.
  - intros j [Hj | ->] Hj'; set_solver.
Qed.

(** A hash value changes without leaving its chain. *)
Lemma chains_set_hash a D f ch (i : nat) k nr : chains a D f ch -> a !! i = Some k -> f nr = f (hash_nr k) ->
  chains (<[i := set_hash_nr nr k]> a) D f ch.
Proof.
  intros [H1 H2 H3 H4] Hk Hf. assert (Hlt : (i < length a)%nat) by (by eapply lookup_lt_Some). split; [done| |done|].
  - intros h. apply (linked_ext a); [|done]. intros x _. destruct (decide (x = i)) as [->|Hx]; [|by rewrite list_lookup_insert_ne].
    by rewrite list_lookup_insert_eq, Hk.
  - intros h j. rewrite H4. apply and_iff_compat_l. rewrite recs_insert. destruct (decide (j = i)) as [->|Hj]; [|by rewrite list_lookup_insert_ne].
    rewrite list_lookup_insert_eq, recs_lookup, Hk by (by rewrite length_recs). cbn. split; intros (x & Hx & <-); injection Hx as <-; eauto.
Qed.

(** A link behind the first one is taken out. *)
Lemma chains_unlink a D f ch (i g : nat) l1 l2 : chains a D f ch -> ch g = g :: l1 ++ i :: l2 ->
  chains (relink a (g :: l1) (head_or l2 None)) (fun j => D j /\ j <> i) f (<[g := g :: l1 ++ l2]> ch).
Proof.
  intros Hch Hg. pose proof Hch as [_ H2 H3 H4]. pose proof (H3 g) as Hnd. pose proof (H2 g) as Hl. rewrite Hg in Hnd, Hl.
  change (g :: l1 ++ i :: l2) with ((g :: l1) ++ i :: l2) in *. change (g :: l1 ++ l2) with ((g :: l1) ++ l2).
  apply NoDup_app in Hnd as (Hn1 & Hn2 & [Hn3 Hn4]%NoDup_cons). apply linked_app in Hl as [Hl1 [_ Hl2]].
  apply (chains_replace a _ D); [done|naive_solver| | | | | |]; rewrite ?Hg.
  - apply linked_app. split; [by apply (linked_relink _ _ (Some i))|]. apply relink_linked_out; [set_solver|done].
  - apply NoDup_app. split_and!; [done|set_solver|done].
  - intros j Hj1 Hj2. rewrite relink_lookup_out by set_solver. set_solver.
  - set_solver.
  - intros j Hj. rewrite recs_relink. destruct (proj1 (H4 g j)) as (Hd & r & Hr & Hf); [rewrite Hg; set_solver|].
    split; [|eauto]. split; [done|]. intros ->. apply elem_of_app in Hj as [Hj|Hj]; [|done]. apply (Hn2 i Hj). set_solver.
  - intros j [_ Hji] Hj. set_solver.
Qed.

(** The first link is taken out: the second one takes its place. *)
Lemma chains_unlink_head a D f ch (i e : nat) k l : chains a D f ch -> ch i = i :: e :: l -> a !! e = Some k ->
  chains (<[i := k]> a) (fun j => D j /\ j <> e) f (<[i := i :: l]> ch).
Proof.
  intros Hch Hi Hk. pose proof Hch as [_ H2 H3 H4]. pose proof (H3 i) as Hnd. pose proof (H2 i) as Hl. rewrite Hi in Hnd, Hl.
  destruct Hl as [(k1 & Hk1 & _) [(k2 & Hk2 & Hnx) Hl]]. assert (k2 = k) as -> by congruence.
  apply NoDup_cons in Hnd as [Hn1 [Hn2 Hn3]%NoDup_cons]. assert (Hlt : (i < length a)%nat) by (by eapply lookup_lt_Some).
  apply (chains_replace a _ D); [done|naive_solver| | | | | |]; rewrite ?Hi.
  - apply linked_cons. rewrite list_lookup_insert_eq by done. split; [eauto|]. apply linked_insert_ne; [set_solver|done].
  - apply NoDup_cons. split; [set_solver|done].
  - intros j Hj1 Hj2. rewrite list_lookup_insert_ne by set_solver. set_solver.
  - set_solver.
  - intros j Hj. rewrite recs_insert. destruct (decide (j = i)) as [->|Hji].
    + destruct (proj1 (H4 i i)) as (Hd & _); [rewrite Hi; set_solver|]. split; [set_solver|].
      rewrite list_lookup_insert_eq by (by rewrite length_recs). exists (rec_of k). split; [done|].
      destruct (proj1 (H4 i e)) as (_ & r & Hr & Hf); [rewrite Hi; set_solver|]. rewrite recs_lookup, Hk in Hr. by injection Hr as <-.
    + rewrite list_lookup_insert_ne by done. destruct (proj1 (H4 i j)) as (Hd & r & Hr & Hf); [rewrite Hi; set_solver|].
      split; [|eauto]. set_solver.
  - intros j [_ Hje] Hj. set_solver.
Qed.

(** The only link of a chain is taken out. *)
Lemma chains_unlink_only a D f ch (i : nat) : chains a D f ch -> ch i = [i] -> chains a (fun j => D j /\ j <> i) f (<[i := []]> ch).
Proof.
  intros Hch Hi. apply (chains_replace a _ D); [done|done|done|apply NoDup_nil_2| | | |]; rewrite ?Hi; try set_solver.
Qed.

(** The chain of [n] becomes the chain of [F], which was free. *)
Lemma chains_rehome a D f f' ch (n F : nat) k t : chains a D f ch -> ch n = n :: t -> ~ D F -> (F < length a)%nat -> a !! n = Some k ->
  (forall j x, D j -> recs a !! j = Some x -> f' x.1 = if decide (f x.1 = n) then F else f x.1) ->
  chains (<[F := k]> a) (fun j => (D j /\ j <> n) \/ j = F) f' (<[F := F :: t]> (<[n := []]> ch)).
Proof.
  intros Hch Hn HF Hlt Hk Hf. pose proof Hch as [_ H2 H3 H4]. pose proof (H3 n) as Hnd. pose proof (H2 n) as Hl. rewrite Hn in Hnd, Hl.
  assert (HFc : forall h, F ∉ ch h) by (intros h (? & _)%H4; done). pose proof (chains_free _ _ _ _ Hch F HF) as HF0.
  pose proof (HFc n) as HFn. rewrite Hn in HFn. apply NoDup_cons in Hnd as [Hn1 Hn2]. destruct Hl as [(k' & Hk' & Hnx) Hl]. assert (k' = k) as -> by congruence.
  assert (Hmem : forall j, j ∈ n :: t -> D j /\ exists r, recs a !! j = Some r /\ f' r.1 = F).
  { intros j Hj. rewrite <-Hn in Hj. apply H4 in Hj as (Hd & r & Hr & Hfr). split; [done|]. exists r. split; [done|].
    rewrite (Hf j r Hd Hr). by rewrite decide_True. }
  apply (chains_join a _ D _ f); [done|naive_solver| | | | | | |]; rewrite ?Hn, ?HF0.
  - apply linked_cons. rewrite list_lookup_insert_eq by done. split; [eauto|]. apply linked_insert_ne; [set_solver|done].
  - apply NoDup_cons. split; [set_solver|done].
  - intros j Hj1 _ Hj2. rewrite list_lookup_insert_ne by set_solver. set_solver.
  - intros j Hj Hd. left. destruct (decide (j = F)) as [->|]; [done|]. set_solver.
  - intros j Hj. rewrite recs_insert. destruct (decide (j = F)) as [->|HjF].
    + split; [by right|]. rewrite list_lookup_insert_eq by (by rewrite length_recs). exists (rec_of k). split; [done|].
      destruct (Hmem n) as (_ & r & Hr & Hfr); [set_solver|]. rewrite recs_lookup, Hk in Hr. by injection Hr as <-.
    + rewrite list_lookup_insert_ne by done. destruct (Hmem j) as (Hd & r & Hr & Hfr); [set_solver|]. split; [|eauto]. set_solver.
  - intros j [[Hd Hjn] | ->] Hj; set_solver.
  - intros j x Hd Hx Hne. rewrite (Hf j x Hd Hx). by rewrite decide_False.
Qed.

(** The chain of [n] is joined to that of [F]: its first link moves to the free
    index [e], and the rest of the chain of [F] comes behind it.  The link at
    [F] may also be part of the chain of [n]. *)
Section merge.
Context a (D : nat -> Prop) (f f' : Z -> nat) (ch : nat -> list nat) (n F e : nat) (k p : HASH_LINK A) (l1 l2 : list nat)
  (Hch : chains a D f ch) (He : ~ D e) (Hlt : (e < length a)%nat) (Hk : a !! n = Some k) (Hp : a !! F = Some p) (HnF : n <> F)
  (Hcase : (ch n = n :: l1 ++ F :: l2 /\ ch F = []) \/ (ch n = n :: l1 /\ ch F = F :: l2))
  (Hf : forall j x, D j -> recs a !! j = Some x -> f' x.1 = if decide (f x.1 = n) then F else f x.1).

Lemma merge_set j : (j ∈ ch n \/ j ∈ ch F) <-> j ∈ n :: l1 ++ F :: l2.
Proof. clear - Hcase. destruct Hcase as [[-> ->] | [-> ->]]; set_solver. Qed.

Lemma merge_nodup : NoDup (n :: l1 ++ F :: l2).
Proof.
  destruct Hcase as [[E _] | [E1 E2]]; [rewrite <-E; apply (ch_nodup _ _ _ _ Hch)|]. change (NoDup ((n :: l1) ++ F :: l2)). rewrite <-E1, <-E2.
  apply NoDup_app. split_and!; [apply (ch_nodup _ _ _ _ Hch)| |apply (ch_nodup _ _ _ _ Hch)].
  intros j Hj Hj'. by apply HnF, (chains_disjoint _ _ _ _ Hch n F j).
Qed.

Lemma merge_free : e ∉ n :: l1 ++ F :: l2.
Proof. intros [Hj|Hj]%merge_set; by apply (ch_mem _ _ _ _ Hch) in Hj as [? _]. Qed.

Lemma merge_linked : exists X, linked a (n :: l1) X /\ linked a l2 None.
Proof.
  destruct Hcase as [[E _] | [E1 E2]].
  - pose proof (ch_linked _ _ _ _ Hch n) as Hl. rewrite E in Hl. apply (linked_app a (n :: l1)) in Hl as [Hl [_ Hl']]. eauto.
  - pose proof (ch_linked _ _ _ _ Hch n) as Hl. pose proof (ch_linked _ _ _ _ Hch F) as Hl'. rewrite E1 in Hl. rewrite E2 in Hl'.
    destruct Hl' as [_ Hl']. eauto.
Qed.

Lemma merge_mem j : j ∈ n :: l1 ++ F :: l2 -> D j /\ exists r, recs a !! j = Some r /\ f' r.1 = F.
Proof.
  intros Hj%merge_set. assert (D j /\ exists r, recs a !! j = Some r /\ (f r.1 = n \/ f r.1 = F)) as (Hd & r & Hr & Hfr).
  { destruct Hj as [(Hd & r & Hr & Hfr)%(ch_mem _ _ _ _ Hch) | (Hd & r & Hr & Hfr)%(ch_mem _ _ _ _ Hch)]; eauto 10. }
  split; [done|]. exists r. split; [done|]. rewrite (Hf j r Hd Hr). destruct (decide (f r.1 = n)); [done|]. by destruct Hfr.
Qed.

Lemma chains_merge :
  chains (<[F := set_next (Some e) p]> (relink (<[e := k]> a) (e :: l1) (head_or l2 None))) (fun j => (D j /\ j <> n) \/ j = e) f'
    (<[F := F :: e :: l1 ++ l2]> (<[n := []]> ch)).
Proof.
  pose proof merge_set as Hset. pose proof merge_mem as Hmem. pose proof merge_free as Hen. pose proof merge_nodup as Hnd.
  destruct merge_linked as (X & [(k' & Hk' & Hnx) Hl1] & Hl2). assert (k' = k) as -> by congruence.
  apply NoDup_cons in Hnd as [Hn1 (Hn2 & Hn3 & [Hn4 Hn5]%NoDup_cons)%NoDup_app].
  apply not_elem_of_cons in Hen as [Hen1 [Hen2 [Hen3 Hen4]%not_elem_of_cons]%not_elem_of_app].
  assert (HF1 : F ∉ l1) by (intros Hj; apply (Hn3 F Hj); by left). assert (Hd12 : l1 ## l2) by (intros x Hx Hx'; apply (Hn3 x Hx); by right).
  assert (HFlt : (F < length a)%nat) by (by eapply lookup_lt_Some).
  assert (Hnl : forall j, j ∈ e :: l1 ++ l2 -> j = e \/ (j ∈ n :: l1 ++ F :: l2 /\ j <> n /\ j <> F)).
  { clear -Hn1 Hn4 HF1. intros j [->|Hj]%elem_of_cons; [by left|right]. split; [set_solver|]. split; intros ->; set_solver. }
  apply (chains_join a _ D _ f); [done|naive_solver| | | | | | |].
  - apply linked_cons. rewrite list_lookup_insert_eq by (by rewrite length_relink, length_insert). split; [eauto|].
    apply linked_insert_ne; [rewrite not_elem_of_cons, not_elem_of_app; done|]. apply (linked_app _ (e :: l1)). split.
    + apply (linked_relink _ _ X); [by apply NoDup_cons|]. apply linked_cons. rewrite list_lookup_insert_eq by done. split; [eauto|].
      by apply linked_insert_ne.
    + apply relink_linked_out; [|by apply linked_insert_ne]. intros x [->|Hx]%elem_of_cons Hx'; [done|by apply (Hd12 x)].
  - rewrite !NoDup_cons, NoDup_app, !not_elem_of_cons, !not_elem_of_app. done.
  - intros j J1 J2 J3. rewrite !not_elem_of_cons, not_elem_of_app in J3. destruct J3 as (J3 & J4 & J5 & J6).
    rewrite list_lookup_insert_ne, relink_lookup_out, list_lookup_insert_ne by (rewrite ?not_elem_of_cons; done). split; [done|].
    assert (j <> n) by (intros ->; by destruct (proj2 (Hset n) ltac:(by left))). tauto.
  - intros j [->|[->|[Hj _]]%Hnl]%elem_of_cons Hd; [|done|by apply Hset]. apply Hset. by right; apply elem_of_app; right; left.
  - intros j Hj. rewrite recs_insert, recs_relink, recs_insert. destruct (decide (j = F)) as [->|HjF]; [|destruct (decide (j = e)) as [->|Hje]].
    + destruct (Hmem F) as (Hd & r & Hr & Hfr); [by right; apply elem_of_app; right; left|]. split; [by left|].
      rewrite list_lookup_insert_eq by (by rewrite length_insert, length_recs). exists (rec_of p). split; [done|].
      rewrite recs_lookup, Hp in Hr. by injection Hr as <-.
    + destruct (Hmem n) as (Hd & r & Hr & Hfr); [by left|]. split; [by right|]. exists r. split; [|done].
      rewrite list_lookup_insert_ne, list_lookup_insert_eq by (rewrite ?length_recs; done). by rewrite <-Hr, recs_lookup, Hk.
    + apply elem_of_cons in Hj as [->|Hj]; [done|]. destruct (Hnl j Hj) as [->|(Hj' & J1 & J2)]; [done|].
      destruct (Hmem j Hj') as (Hd & r & Hr & Hfr). split; [by left|]. exists r. by rewrite !list_lookup_insert_ne.
  - intros j Hj Hj'%Hset. destruct Hj as [[Hd Hjn] | ->]; [|by apply elem_of_cons; right; left]. clear -Hj' Hjn. set_solver.
  - intros j x Hd Hx Hne. rewrite (Hf j x Hd Hx). by rewrite decide_False.
Qed.

End merge.

Lemma relink_insert_comm a l e i k : i ∉ l -> relink (<[i := k]> a) l e = <[i := k]> (relink a l e).
Proof.
  intros Hi. unfold relink. destruct (last l) as [q|] eqn:E; [|done]. apply last_Some in E as [l' ->].
  assert (q <> i) by set_solver. destruct (decide (i < length a)%nat).
  - apply list_eq. intros j. destruct (decide (i = j)) as [<-|Hj].
    + by rewrite list_lookup_alter_ne, !list_lookup_insert_eq by (rewrite ?length_alter; done).
    + rewrite (list_lookup_insert_ne (alter _ _ _)) by done. destruct (decide (q = j)) as [<-|Hq].
      * by rewrite !list_lookup_alter_eq, list_lookup_insert_ne.
      * by rewrite !list_lookup_alter_ne, list_lookup_insert_ne.
  - by rewrite !list_insert_ge by (rewrite ?length_alter; lia).
Qed.

Lemma place_record_spec bl n a (e : nat) nr r ch : let f x := my_hash_mask x bl n in
  chains a (fun j => (j < length a)%nat /\ j <> e) f ch -> (e < length a)%nat -> (f nr < length a)%nat ->
  exists b ch', place_record bl n a e nr r = Some b /\ length b = length a
    /\ chains b (fun j => (j < length a)%nat) f ch' /\ recs b ≡ₚ (nr, r) :: delete e (recs a).
Proof.
  intros f Hch He Hi. unfold place_record. fold (f nr). set (idx := f nr) in *.
  destruct (lookup_lt_is_Some_2 a idx Hi) as [p Hp]. rewrite Hp. cbn [mbind option_bind].
  assert (Hrp : recs a !! idx = Some (rec_of p)) by (by rewrite recs_lookup, Hp).
  assert (HeR : (e < length (recs a))%nat) by (by rewrite length_recs).
  destruct (Nat.eqb_spec idx e) as [Hie|Hne].
  - rewrite <-Hie in *. cbn [mbind option_bind]. rewrite list_lookup_insert_eq by done.
    cbn [mbind option_bind next set_next]. rewrite list_insert_insert_eq.
    eexists _, (<[idx := [idx]]> ch). split; [reflexivity|]. rewrite length_insert. split; [done|]. split.
    + eapply chains_ext; [| |apply (chains_single a _ f ch idx nr r Hch); try done; tauto]; cbn; [intros j; lia|done].
    + rewrite recs_insert. by apply perm_fill.
  - change (my_hash_rec_mask p bl n) with (f (rec_of p).1). destruct (Nat.eqb_spec idx (f (rec_of p).1)) as [Hg|Hg].
    + cbn [mbind option_bind]. rewrite list_lookup_insert_eq by (by rewrite length_insert).
      cbn [mbind option_bind next set_next]. rewrite list_insert_insert_eq.
      destruct (chains_home _ _ _ _ Hch idx (rec_of p) ltac:(done) Hrp) as (t & Ht & _). rewrite <-Hg in Ht.
      eexists _, _. split; [reflexivity|]. rewrite !length_insert. split; [done|]. split.
      * eapply chains_ext; [| |apply (chains_push a _ f ch idx e p t nr r Hch); try done; tauto]; cbn; [intros j; lia|done].
      * rewrite !recs_insert. by apply perm_move.
    + destruct (chains_split _ _ _ _ Hch idx (rec_of p) ltac:(done) Hrp ltac:(done)) as (l1 & l2 & Hl & Hno).
      set (g := f (rec_of p).1) in *. pose proof (ch_nodup _ _ _ _ Hch g) as Hnd. rewrite Hl in Hnd.
      assert (Hig : idx ∉ g :: l1) by (change (g :: l1 ++ idx :: l2) with ((g :: l1) ++ idx :: l2) in Hnd; apply NoDup_app in Hnd; set_solver).
      assert (He' : e ∉ g :: l1 ++ idx :: l2) by (rewrite <-Hl; intros Hin; apply (ch_mem _ _ _ _ Hch) in Hin; tauto).
      rewrite (movelink_spec _ l1).
      2: { change (g :: l1 ++ idx :: l2) with ((g :: l1) ++ idx :: l2) in Hnd. by apply NoDup_app in Hnd as [? _]. }
      2: { intros y Hy ?. simplify_eq. set_solver. }
      2: { apply linked_insert_ne; [done|]. apply linked_insert_ne; [set_solver|].
           pose proof (ch_linked _ _ _ _ Hch g) as Hk. rewrite Hl in Hk.
           change (g :: l1 ++ idx :: l2) with ((g :: l1) ++ idx :: l2) in Hk. by apply linked_app in Hk as [? _]. }
      cbn [mbind option_bind]. rewrite relink_insert_comm by done.
      rewrite list_lookup_insert_eq by (by rewrite length_relink, length_insert). cbn [mbind option_bind next set_next].
      rewrite list_insert_insert_eq. eexists _, _. split; [reflexivity|].
      rewrite length_insert, length_relink, length_insert. split; [done|]. split.
      * eapply chains_ext; [| |apply (chains_single _ _ f _ idx nr r (chains_move a _ f ch idx e g p l1 l2 Hch ltac:(tauto) He Hp Hl))];
          cbn; [intros j; lia|done|lia|by rewrite length_relink, length_insert|done].
      * rewrite recs_insert, recs_relink, recs_insert. by apply perm_move.
Qed.

(** The same for a record that has been taken out of its old chain. *)
Lemma relocate_spec bl n a (e idx : nat) (k : HASH_LINK A) nr ch : let f x := my_hash_mask x bl n in
  chains a (fun j => (j < length a)%nat /\ j <> e) f ch -> (e < length a)%nat -> (f nr < length a)%nat ->
  (e = idx -> a !! e = Some k) ->
  exists b ch', relocate bl n a e idx k nr = Some b /\ length b = length a
    /\ chains b (fun j => (j < length a)%nat) f ch' /\ recs b ≡ₚ (nr, data k) :: delete e (recs a).
Proof.
  intros f Hch He Hi Hek. unfold relocate. fold (f nr). set (i := f nr) in *.
  assert (HeR : (e < length (recs a))%nat) by (by rewrite length_recs).
  destruct (Nat.eqb_spec i e) as [Hie|Hie].
  - assert ((if negb (e =? idx)%nat then <[e := k]> a else a) = <[e := k]> a) as ->.
    { destruct (Nat.eqb_spec e idx) as [Hx|Hx]; [|done]. cbn [negb]. symmetry. apply list_insert_id. by apply Hek. }
    rewrite list_lookup_insert_eq by done. cbn [mbind option_bind]. rewrite list_insert_insert_eq.
    eexists _, _. split; [reflexivity|]. rewrite length_insert. split; [done|]. split.
    + eapply chains_ext; [| |apply (chains_single a _ f ch e nr (data k) Hch); try done; tauto]; cbn; [intros j; lia|done].
    + rewrite recs_insert. by apply perm_fill.
  - destruct (lookup_lt_is_Some_2 a i Hi) as [p Hp]. rewrite Hp. cbn [mbind option_bind].
    assert (Hrp : recs a !! i = Some (rec_of p)) by (by rewrite recs_lookup, Hp).
    change (my_hash_rec_mask p bl n) with (f (rec_of p).1). destruct (Nat.eqb_spec i (f (rec_of p).1)) as [Hg|Hg]; cbn [negb].
    + destruct (chains_home _ _ _ _ Hch i (rec_of p) ltac:(done) Hrp) as (t & Ht & _). rewrite <-Hg in Ht.
      eexists _, _. split; [reflexivity|]. rewrite !length_insert. split; [done|]. split.
      * eapply chains_ext; [| |apply (chains_second a _ f ch i e p t nr (data k) Hch); try done; tauto]; cbn; [intros j; lia|done].
      * rewrite !recs_insert. rewrite (list_insert_id (<[e:=_]> (recs a)) i); [by apply perm_fill|]. by rewrite list_lookup_insert_ne.
    + destruct (chains_split _ _ _ _ Hch i (rec_of p) ltac:(done) Hrp ltac:(done)) as (l1 & l2 & Hl & Hno).
      set (g := f (rec_of p).1) in *. pose proof (ch_nodup _ _ _ _ Hch g) as Hnd. rewrite Hl in Hnd.
      assert (Hig : i ∉ g :: l1) by (change (g :: l1 ++ i :: l2) with ((g :: l1) ++ i :: l2) in Hnd; apply NoDup_app in Hnd; set_solver).
      assert (He' : e ∉ g :: l1 ++ i :: l2) by (rewrite <-Hl; intros Hin; apply (ch_mem _ _ _ _ Hch) in Hin; tauto).
      rewrite (movelink_spec _ l1).
      2: { change (g :: l1 ++ i :: l2) with ((g :: l1) ++ i :: l2) in Hnd. by apply NoDup_app in Hnd as [? _]. }
      2: { intros y Hy ?. simplify_eq. set_solver. }
      2: { apply linked_insert_ne; [set_solver|].
           pose proof (ch_linked _ _ _ _ Hch g) as Hk. rewrite Hl in Hk.
           change (g :: l1 ++ i :: l2) with ((g :: l1) ++ i :: l2) in Hk. by apply linked_app in Hk as [? _]. }
      cbn [mbind option_bind]. eexists _, _. split; [reflexivity|]. rewrite length_insert, length_relink, length_insert. split; [done|]. split.
      * eapply chains_ext; [| |apply (chains_single _ _ f _ i nr (data k) (chains_move a _ f ch i e g p l1 l2 Hch ltac:(tauto) He Hp Hl))];
          cbn; [intros j; lia|done|lia|by rewrite length_relink, length_insert|done].
      * rewrite recs_insert, recs_relink, recs_insert. by apply perm_move.
Qed.

End chains.
