(* ===== verification/HashSplit.v ===== *)
(** * Growing of a hash table

    Where chains start for a given number of records, and the loop of
    [my_hash_insert] that splits a chain in two and leaves one index free. *)

From Stdlib Require Import ZifyNat ZifyBool.
From stdpp Require Import functions.
From S2P Require Import Prelude.
From S2P Require Import Charset.
From S2P Require Import Hash.
From S2P Require Import HashChains.

(** ** Starts of chains *)

Lemma land_ones_mod x k : 0 <= k -> Z.land x (2 ^ k - 1) = x mod 2 ^ k.
Proof. intros Hk. rewrite <-Z.land_ones by done. by rewrite Z.ones_equiv, Z.sub_1_r. Qed.

(** [blength] is the power of two that belongs to a number of records. *)
Definition sized (bl n : nat) : Prop := exists k : nat, bl = (2 ^ k)%nat /\ (bl / 2 <= n < bl)%nat.

Lemma mask_mod x k n : 0 <= x ->
  my_hash_mask x (2 ^ S k) n
  = if (Z.to_nat (x mod 2 ^ (Z.of_nat k + 1)) <? n)%nat then Z.to_nat (x mod 2 ^ (Z.of_nat k + 1)) else Z.to_nat (x mod 2 ^ Z.of_nat k).
Proof.
  intros Hx. unfold my_hash_mask. rewrite Nat.div2_div.
  replace (2 ^ S k / 2)%nat with (2 ^ k)%nat by (rewrite Nat.pow_succ_r', Nat.mul_comm, Nat.div_mul; lia).
  rewrite !Nat2Z.inj_pow, !land_ones_mod by lia. replace (Z.of_nat (S k)) with (Z.of_nat k + 1) by lia. done.
Qed.

Lemma mask_one x n : (0 < n)%nat -> my_hash_mask x 1 n = O.
Proof. intros Hn. unfold my_hash_mask. cbn [Z.of_nat]. rewrite Z.land_0_r. destruct n; [lia|done]. Qed.

(** The half that a remainder is in. *)
Lemma mod_half x k : 0 <= x -> 0 <= k ->
  x mod 2 ^ (k + 1) = x mod 2 ^ k + (if Z.land x (2 ^ k) =? 0 then 0 else 2 ^ k).
Proof.
  intros Hx Hk. assert (0 < 2 ^ k) by (apply Z.pow_pos_nonneg; lia).
  assert (Z.land x (2 ^ k) = if Z.testbit x k then 2 ^ k else 0) as ->.
  { apply Z.bits_inj'. intros j Hj. rewrite Z.land_spec, Z.pow2_bits_eqb by lia.
    destruct (Z.eqb_spec k j) as [->|Hne]; [|rewrite andb_false_r; destruct (Z.testbit x k); [|by rewrite Z.bits_0]; by rewrite Z.pow2_bits_false by lia].
    rewrite andb_true_r. destruct (Z.testbit x j) eqn:E; [by rewrite Z.pow2_bits_true by lia|by rewrite Z.bits_0]. }
  rewrite Z.pow_add_r by lia. rewrite Z.rem_mul_r by lia. change (2 ^ 1) with 2.
  pose proof (Z.testbit_spec' x k Hk) as Hb. rewrite <-Hb. destruct (Z.testbit x k); cbn [Z.b2z].
  - rewrite (proj2 (Z.eqb_neq _ _)) by lia. lia.
  - cbn. lia.
Qed.

(** The values whose chain starts at a new index [n]. *)
Definition moves (bl n : nat) (x : Z) : bool := x mod Z.of_nat bl =? Z.of_nat n.

Lemma sized_cases bl n : sized bl n -> (bl = 1 /\ n = 0)%nat \/ exists k : nat, bl = (2 ^ S k)%nat /\ (2 ^ k <= n < 2 ^ S k)%nat.
Proof.
  intros ([|k] & -> & Hn); [left; cbn in Hn; lia|right]. exists k. split; [done|].
  rewrite Nat.pow_succ_r', (Nat.mul_comm 2), Nat.div_mul in Hn by lia. rewrite Nat.pow_succ_r'. lia.
Qed.

Ltac mask_facts x k :=
  pose proof (mod_half x (Z.of_nat k)) as Hhalf;
  assert (H2k : 0 < 2 ^ Z.of_nat k) by (apply Z.pow_pos_nonneg; lia);
  pose proof (Z.mod_pos_bound x (2 ^ Z.of_nat k)) as Hb1;
  pose proof (Nat2Z.inj_pow 2 k) as Hpow; pose proof (Nat.pow_succ_r' 2 k) as HS;
  assert (H2S : 2 ^ (Z.of_nat k + 1) = 2 * 2 ^ Z.of_nat k) by (rewrite Z.pow_add_r; lia);
  assert (Hbl : Z.of_nat (2 ^ S k) = 2 ^ (Z.of_nat k + 1)) by (rewrite HS; lia);
  assert (Hdiv : Nat.div2 (2 ^ S k) = (2 ^ k)%nat) by (rewrite Nat.div2_div, HS, Nat.mul_comm, Nat.div_mul; lia).

Lemma mask_grow bl n x : sized bl n -> 0 <= x ->
  my_hash_mask x bl (n + 1) = if moves bl n x then n else my_hash_mask x bl n.
Proof.
  intros [[-> ->] | (k & -> & Hn)]%sized_cases Hx.
  - rewrite mask_one by lia. unfold moves. by rewrite Z.mod_1_r.
  - mask_facts x k. unfold moves. rewrite !mask_mod by done. rewrite Hbl.
    destruct (Z.land x _ =? 0), (Z.eqb_spec (x mod 2 ^ (Z.of_nat k + 1)) (Z.of_nat n));
      repeat match goal with |- context [(?a <? ?b)%nat] => destruct (Nat.ltb_spec a b) end; lia.
Qed.

Lemma mask_lt bl n x : sized bl n -> 0 <= x -> (0 < n)%nat -> (my_hash_mask x bl n < n)%nat.
Proof.
  intros [[-> ->] | (k & -> & Hn)]%sized_cases Hx Hn0; [lia|]. mask_facts x k. rewrite mask_mod by done.
  destruct (Nat.ltb_spec (Z.to_nat (x mod 2 ^ (Z.of_nat k + 1))) n); lia.
Qed.

Lemma mask_lt_grow bl n x : sized bl n -> 0 <= x -> (my_hash_mask x bl (n + 1) < n + 1)%nat.
Proof.
  intros Hs Hx. rewrite mask_grow by done. destruct (moves bl n x) eqn:E; [lia|].
  destruct (decide (n = O)) as [->|]; [|pose proof (mask_lt bl n x Hs Hx); lia].
  apply sized_cases in Hs as [[-> _] | (k & -> & Hn)]; [|pose proof (Nat.pow_nonzero 2 k); lia].
  unfold moves in E. by rewrite Z.mod_1_r in E.
Qed.

(** The bit by which the loop decides. *)
Lemma moves_home bl n x : sized bl n -> 0 <= x -> (0 < n)%nat -> moves bl n x = true -> my_hash_mask x bl n = (n - Nat.div2 bl)%nat.
Proof.
  intros [[-> ->] | (k & -> & Hn)]%sized_cases Hx Hn0; [lia|]. mask_facts x k. unfold moves. rewrite mask_mod by done. rewrite Hbl, Hdiv.
  intros Hm%Z.eqb_eq. destruct (Z.land x _ =? 0); destruct (Nat.ltb_spec (Z.to_nat (x mod 2 ^ (Z.of_nat k + 1))) n); lia.
Qed.

Lemma moves_bit bl n x : sized bl n -> 0 <= x -> (0 < n)%nat -> my_hash_mask x bl n = (n - Nat.div2 bl)%nat ->
  (Z.land x (Z.of_nat (Nat.div2 bl)) =? 0) = negb (moves bl n x).
Proof.
  intros [[-> ->] | (k & -> & Hn)]%sized_cases Hx Hn0; [lia|]. mask_facts x k. unfold moves. rewrite mask_mod by done. rewrite Hbl, Hdiv.
  rewrite Hpow. change (Z.of_nat 2) with 2. destruct (Z.land x _ =? 0);
    destruct (Nat.ltb_spec (Z.to_nat (x mod 2 ^ (Z.of_nat k + 1))) n), (Z.eqb_spec (x mod 2 ^ (Z.of_nat k + 1)) (Z.of_nat n)); lia.
Qed.

(** Growing and shrinking of [blength]. *)
Lemma sized_succ bl n : sized bl n -> sized (if (n + 1 =? bl)%nat then bl + bl else bl)%nat (n + 1).
Proof.
  intros Hs. destruct (Nat.eqb_spec (n + 1) bl) as [He|He].
  - destruct Hs as (k & -> & Hn). exists (S k). rewrite Nat.pow_succ_r' in *. rewrite He. split; [lia|].
    replace (2 ^ k + 2 ^ k)%nat with (2 ^ k * 2)%nat by lia. rewrite Nat.div_mul by lia. pose proof (Nat.pow_nonzero 2 k). lia.
  - destruct Hs as (k & -> & Hn). exists k. split; [done|]. lia.
Qed.

Lemma mask_full x k : 0 <= x -> my_hash_mask x (2 ^ S k) (2 ^ k) = Z.to_nat (x mod 2 ^ Z.of_nat k).
Proof.
  intros Hx. mask_facts x k. rewrite mask_mod by done. destruct (Z.land x _ =? 0);
    destruct (Nat.ltb_spec (Z.to_nat (x mod 2 ^ (Z.of_nat k + 1))) (2 ^ k)); lia.
Qed.

Lemma mask_all x k : 0 <= x -> my_hash_mask x (2 ^ k) (2 ^ k) = Z.to_nat (x mod 2 ^ Z.of_nat k).
Proof.
  intros Hx. destruct k as [|k]; [rewrite mask_one by (cbn; lia); by rewrite Z.mod_1_r|]. mask_facts x k. rewrite mask_mod by done.
  replace (Z.of_nat (S k)) with (Z.of_nat k + 1) by lia. pose proof (Z.mod_pos_bound x (2 ^ (Z.of_nat k + 1))).
  destruct (Nat.ltb_spec (Z.to_nat (x mod 2 ^ (Z.of_nat k + 1))) (2 ^ S k)); [done|lia].
Qed.

Lemma mask_resize bl n x : sized bl n -> 0 <= x ->
  my_hash_mask x (if (n + 1 =? bl)%nat then bl + bl else bl)%nat (n + 1) = my_hash_mask x bl (n + 1).
Proof.
  intros (k & -> & Hn) Hx. destruct (Nat.eqb_spec (n + 1) (2 ^ k)) as [->|He]; [|done].
  replace (2 ^ k + 2 ^ k)%nat with (2 ^ S k)%nat by (rewrite Nat.pow_succ_r'; lia). by rewrite mask_full, mask_all.
Qed.

Definition shrunk (bl n : nat) : nat := if (n <? Nat.div2 bl)%nat then Nat.div2 bl else bl.

Lemma sized_pred bl n : sized bl (n + 1) -> sized (shrunk bl n) n.
Proof.
  intros [[-> Hn] | (k & -> & Hn)]%sized_cases; [lia|]. mask_facts 0 k. unfold shrunk. rewrite Hdiv. destruct (Nat.ltb_spec n (2 ^ k)) as [Hk|Hk].
  - exists k. split; [done|]. destruct k as [|k]; [cbn in *; lia|]. rewrite Nat.pow_succ_r', (Nat.mul_comm 2), Nat.div_mul in * by lia. lia.
  - exists (S k). split; [done|]. rewrite HS, (Nat.mul_comm 2), Nat.div_mul by lia. lia.
Qed.

Lemma mask_shrunk bl n x : sized bl (n + 1) -> 0 <= x -> my_hash_mask x bl (n + 1) = my_hash_mask x (shrunk bl n) (n + 1).
Proof.
  intros [[-> Hn] | (k & -> & Hn)]%sized_cases Hx; [lia|]. mask_facts x k. unfold shrunk. rewrite Hdiv. destruct (Nat.ltb_spec n (2 ^ k)) as [Hk|Hk]; [|done].
  replace (n + 1)%nat with (2 ^ k)%nat by lia. by rewrite mask_full, mask_all.
Qed.

(** ** Splitting a chain *)

Section split.
Context {A : Type} (f0 : Z -> nat) (hi : Z -> bool) (F n : nat) (a0 : list (HASH_LINK A)) (c : list nat).
Implicit Types (s : split (A := A)) (ls hs r : list nat) (E : list (Z * A)).

Definition flag_of ls hs (lu hu : bool) : Z :=
  match ls with [] => 0 | _ => LOWFIND end + (if lu then LOWUSED else 0)
  + match hs with [] => 0 | _ => HIGHFIND end + (if hu then HIGHUSED else 0).

(** One of the two chains: it ends at [g], where [x] is to be stored; if [used]
    it is there already and leads to the next link of the loop. *)
Record side (arr : list (HASH_LINK A)) ls (g : nat) (x : Z * A) (used : bool) (nx : option nat) : Prop := {
  side_end : ls <> [] -> exists l, ls = l ++ [g] /\ linked arr l (Some g);
  side_used : used = true -> ls <> [] /\ exists k, arr !! g = Some k /\ next k = nx /\ rec_of k = x
}.

(** The invariant of the loop: [ls] and [hs] are the two chains, [r] the links
    that are still to be visited, [E] the contents with the pending writes. *)
Record split_inv r ls hs (lu hu : bool) E s : Prop := {
  si_flag : flag s = flag_of ls hs lu hu;
  si_not_both : lu = true -> hu = false;
  si_nodup : NoDup (ls ++ hs ++ r ++ [empty s]);
  si_perm : ls ++ hs ++ r ++ [empty s] ≡ₚ c ++ [n];
  si_length : length (arr s) = length a0;
  si_same j : j ∉ ls ++ hs ++ [empty s] -> arr s !! j = a0 !! j;
  si_low : side (arr s) ls (gpos s) (rec s) lu (head_or r None);
  si_high : side (arr s) hs (gpos2 s) (rec2 s) hu (head_or r None);
  si_low_head : ls <> [] -> head ls = Some F;
  si_high_head : hs <> [] -> head hs = Some n;
  si_empty_low : ls = [] -> hs <> [] -> empty s = F;
  si_empty_high : hs = [] -> empty s = n;
  si_start : ls = [] -> hs = [] -> r = c;
  si_elength : length E = length a0;
  si_elow : ls <> [] -> E !! gpos s = Some (rec s);
  si_ehigh : hs <> [] -> E !! gpos2 s = Some (rec2 s);
  si_erest j : (ls <> [] -> j <> gpos s) -> (hs <> [] -> j <> gpos2 s) -> E !! j = recs (arr s) !! j;
  si_lows j : j ∈ ls -> exists x, E !! j = Some x /\ hi x.1 = false /\ f0 x.1 = F;
  si_highs j : j ∈ hs -> exists x, E !! j = Some x /\ hi x.1 = true;
  si_contents : delete (empty s) E ≡ₚ delete n (recs a0);
  si_rest : linked a0 r None
}.

Lemma side_in arr ls g x used nx : side arr ls g x used nx -> ls <> [] -> g ∈ ls.
Proof. intros [He _] Hl. destruct (He Hl) as (l & -> & _). set_solver. Qed.

(** The chain of the link that is visited gets longer. *)
Lemma side_extend arr ls g x used pos k nx : side arr ls g x used (Some pos) -> ls <> [] -> (g < length arr)%nat ->
  NoDup ls -> pos ∉ ls -> arr !! pos = Some k -> next k = nx ->
  side (if used then arr else put_link g x (Some pos) arr) (ls ++ [pos]) pos (rec_of k) true nx.
Proof.
  intros [He Hu] Hne Hg Hnd Hpos Hk Hnx. destruct (He Hne) as (l & -> & Hl). apply NoDup_app in Hnd as (_ & Hnd & _).
  assert (g <> pos) by set_solver. split.
  - intros _. exists (l ++ [g]). split; [done|]. apply linked_app. cbn [head_or]. destruct used.
    + split; [done|]. destruct (Hu eq_refl) as (_ & k' & Hk' & Hn' & _). cbn. eauto.
    + unfold put_link. split; [apply linked_insert_ne; [set_solver|done]|]. cbn. rewrite list_lookup_insert_eq by done. eauto.
  - intros _. split; [by destruct l|]. exists k. split; [|done]. destruct used; [done|]. unfold put_link. by rewrite list_lookup_insert_ne.
Qed.

(** The other chain stays as it is. *)
Lemma side_keep arr ls g x used nx i k nx' : side arr ls g x used nx -> i ∉ ls -> side (<[i := k]> arr) ls g x false nx'.
Proof.
  intros [He Hu] Hi. split; [|done]. intros Hne. destruct (He Hne) as (l & -> & Hl). exists l. split; [done|].
  apply linked_insert_ne; [set_solver|done].
Qed.

Lemma side_weaken arr ls g x used nx nx' : side arr ls g x used nx -> side arr ls g x false nx'.
Proof. intros [He Hu]. split; [done|]. done. Qed.

Lemma side_nil arr g x nx : side arr [] g x false nx.
Proof. by split. Qed.

Lemma side_one arr g x nx : side arr [g] g x false nx.
Proof. split; [|done]. intros _. by exists []. Qed.

(** The record of a link moves to the free index, and its own is free. *)
Lemma perm_hole E (e p : nat) y : e <> p -> (e < length E)%nat -> E !! p = Some y -> delete p (<[e := y]> E) ≡ₚ delete e E.
Proof.
  intros Hne He Hp. apply (Permutation_cons_inv (a := y)). rewrite <-(perm_fill E e y) by done.
  symmetry. apply delete_Permutation. by rewrite list_lookup_insert_ne.
Qed.

Context (Hc : forall j, j ∈ c ++ [n] -> (j < length a0)%nat).

Section step.
Context pos r ls hs lu hu E s (Hs : split_inv (pos :: r) ls hs lu hu E s) k (Hk : a0 !! pos = Some k).

Lemma step_pos : (pos ∉ ls) /\ (pos ∉ hs) /\ pos <> empty s /\ (empty s < length a0)%nat /\ (empty s ∉ ls) /\ (empty s ∉ hs).
Proof.
  pose proof (si_nodup _ _ _ _ _ _ _ Hs) as Hn. assert (empty s ∈ c ++ [n]) as He.
  { rewrite <-(si_perm _ _ _ _ _ _ _ Hs). set_solver. }
  apply NoDup_app in Hn as (_ & H1 & (_ & H2 & H3)%NoDup_app). cbn [app] in H3. apply NoDup_cons in H3 as [H3 _].
  split_and!; [| | |by apply Hc| |]; set_solver.
Qed.

Lemma step_arr : arr s !! pos = Some k /\ next k = head_or r None /\ E !! pos = Some (rec_of k).
Proof.
  destruct step_pos as (H1 & H2 & H3 & _). assert (arr s !! pos = Some k) as Ha by (rewrite (si_same _ _ _ _ _ _ _ Hs) by set_solver; done).
  split; [done|]. split.
  - destruct (si_rest _ _ _ _ _ _ _ Hs) as [(k' & Hk' & Hn') _]. by simplify_eq.
  - rewrite (si_erest _ _ _ _ _ _ _ Hs), recs_lookup, Ha; [done| |].
    + intros Hl ->. by apply H1, (side_in _ _ _ _ _ _ (si_low _ _ _ _ _ _ _ Hs)).
    + intros Hl ->. by apply H2, (side_in _ _ _ _ _ _ (si_high _ _ _ _ _ _ _ Hs)).
Qed.

Lemma step_sides : ls <> [] -> hs <> [] -> (gpos s ∉ hs) /\ (gpos2 s ∉ ls).
Proof.
  intros Hl Hh. pose proof (si_nodup _ _ _ _ _ _ _ Hs) as Hn. apply NoDup_app in Hn as (_ & H1 & _).
  pose proof (side_in _ _ _ _ _ _ (si_low _ _ _ _ _ _ _ Hs) Hl). pose proof (side_in _ _ _ _ _ _ (si_high _ _ _ _ _ _ _ Hs) Hh). set_solver.
Qed.

(** The link stays in the first chain, which is not empty. *)
Lemma low_extend : ls <> [] -> hi (hash_nr k) = false -> f0 (hash_nr k) = F ->
  split_inv r (ls ++ [pos]) hs true false E
    (mkSplit (if lu then arr s else put_link (gpos s) (rec s) (Some pos) (arr s)) (flag_of (ls ++ [pos]) hs true false)
       (empty s) pos (rec_of k) (gpos2 s) (rec2 s)).
Proof.
  intros Hl Hlo Hf. destruct step_pos as (Hp1 & Hp2 & Hp3 & He & He1 & He2). destruct step_arr as (Ha & Hnx & HE).
  pose proof (side_in _ _ _ _ _ _ (si_low _ _ _ _ _ _ _ Hs) Hl) as Hgl.
  assert (Hgh : gpos s ∉ hs) by (destruct (decide (hs = [])) as [->|]; [set_solver|by apply step_sides]).
  pose proof Hs as [Hfl Hnb Hnd Hpm Hlen Hsame Hlow Hhigh Hlh Hhh Hel Heh Hst Hel' HEl HEh HEr Hlows Hhighs Hcon Hrest].
  assert (Hg : (gpos s < length (arr s))%nat).
  { rewrite Hlen. apply Hc. rewrite <-Hpm. set_solver. }
  assert (HP : (ls ++ [pos]) ++ hs ++ r ++ [empty s] ≡ₚ ls ++ hs ++ (pos :: r) ++ [empty s]) by (rewrite <-app_assoc; cbn [app]; solve_Permutation).
  split; cbn [flag empty gpos rec gpos2 rec2 arr].
  - done.
  - done.
  - by rewrite HP.
  - by rewrite HP.
  - destruct lu; [done|]. unfold put_link. by rewrite length_insert.
  - intros j Hj. destruct lu; [apply Hsame; set_solver|]. unfold put_link. rewrite list_lookup_insert_ne by set_solver. apply Hsame. set_solver.
  - apply side_extend; try done. by apply NoDup_app in Hnd as [? _].
  - destruct lu; [by eapply side_weaken|]. unfold put_link. by eapply side_keep.
  - intros _. destruct ls; [done|]. by apply Hlh.
  - done.
  - intros Hn. by destruct ls.
  - done.
  - intros Hn. by destruct ls.
  - done.
  - done.
  - done.
  - intros j Hj1 Hj2. destruct (decide (j = gpos s)) as [->|Hjg].
    + rewrite HEl by done. destruct lu.
      * destruct (side_used _ _ _ _ _ _ Hlow eq_refl) as (_ & k' & Hk' & _ & <-). by rewrite recs_lookup, Hk'.
      * unfold put_link. rewrite recs_insert, list_lookup_insert_eq by (by rewrite length_recs). by destruct (rec s).
    + rewrite HEr by done. destruct lu; [done|]. unfold put_link. rewrite recs_insert. by rewrite list_lookup_insert_ne by done.
  - intros j [Hj | ->%list_elem_of_singleton]%elem_of_app; [by apply Hlows|]. exists (rec_of k). done.
  - done.
  - done.
  - apply Hrest.
Qed.

(** The link goes to the second chain, which is not empty. *)
Lemma high_extend : hs <> [] -> hi (hash_nr k) = true ->
  split_inv r ls (hs ++ [pos]) false true E
    (mkSplit (if hu then arr s else put_link (gpos2 s) (rec2 s) (Some pos) (arr s)) (flag_of ls (hs ++ [pos]) false true)
       (empty s) (gpos s) (rec s) pos (rec_of k)).
Proof.
  intros Hh Hhi. destruct step_pos as (Hp1 & Hp2 & Hp3 & He & He1 & He2). destruct step_arr as (Ha & Hnx & HE).
  pose proof (side_in _ _ _ _ _ _ (si_high _ _ _ _ _ _ _ Hs) Hh) as Hgh.
  assert (Hgl : gpos2 s ∉ ls) by (destruct (decide (ls = [])) as [->|]; [set_solver|by apply step_sides]).
  pose proof Hs as [Hfl Hnb Hnd Hpm Hlen Hsame Hlow Hhigh Hlh Hhh Hel Heh Hst Hel' HEl HEh HEr Hlows Hhighs Hcon Hrest].
  assert (Hg : (gpos2 s < length (arr s))%nat).
  { rewrite Hlen. apply Hc. rewrite <-Hpm. set_solver. }
  assert (HP : ls ++ (hs ++ [pos]) ++ r ++ [empty s] ≡ₚ ls ++ hs ++ (pos :: r) ++ [empty s]) by (rewrite <-!app_assoc; cbn [app]; solve_Permutation).
  split; cbn [flag empty gpos rec gpos2 rec2 arr].
  - done.
  - done.
  - by rewrite HP.
  - by rewrite HP.
  - destruct hu; [done|]. unfold put_link. by rewrite length_insert.
  - intros j Hj. destruct hu; [apply Hsame; set_solver|]. unfold put_link. rewrite list_lookup_insert_ne by set_solver. apply Hsame. set_solver.
  - destruct hu; [by eapply side_weaken|]. unfold put_link. by eapply side_keep.
  - apply side_extend; try done. by apply NoDup_app in Hnd as (_ & _ & (? & _)%NoDup_app).
  - done.
  - intros _. destruct hs; [done|]. by apply Hhh.
  - intros Hn _. by apply Hel.
  - intros Hn. by destruct hs.
  - intros _ Hn. by destruct hs.
  - done.
  - done.
  - done.
  - intros j Hj1 Hj2. destruct (decide (j = gpos2 s)) as [->|Hjg].
    + rewrite HEh by done. destruct hu.
      * destruct (side_used _ _ _ _ _ _ Hhigh eq_refl) as (_ & k' & Hk' & _ & <-). by rewrite recs_lookup, Hk'.
      * unfold put_link. rewrite recs_insert, list_lookup_insert_eq by (by rewrite length_recs). by destruct (rec2 s).
    + rewrite HEr by done. destruct hu; [done|]. unfold put_link. rewrite recs_insert. by rewrite list_lookup_insert_ne by done.
  - done.
  - intros j [Hj | ->%list_elem_of_singleton]%elem_of_app; [by apply Hhighs|]. exists (rec_of k). done.
  - done.
  - apply Hrest.
Qed.

(** The first link of the first chain, while the second one is empty. *)
Lemma low_first : ls = [] -> hs = [] -> head c = Some F -> hi (hash_nr k) = false -> f0 (hash_nr k) = F ->
  split_inv r [pos] [] true false E
    (mkSplit (arr s) (flag_of [pos] [] true false) (empty s) pos (rec_of k) (gpos2 s) (rec2 s)).
Proof.
  intros Hl0 Hh0 Hcf Hlo Hf. destruct step_pos as (Hp1 & Hp2 & Hp3 & He & He1 & He2). destruct step_arr as (Ha & Hnx & HE).
  pose proof Hs as [Hfl Hnb Hnd Hpm Hlen Hsame Hlow Hhigh Hlh Hhh Hel Heh Hst Hel' HEl HEh HEr Hlows Hhighs Hcon Hrest].
  clear Hs. subst ls hs.
  split; cbn [flag empty gpos rec gpos2 rec2 arr]; try done.
  - intros j Hj. apply Hsame. set_solver.
  - split; [intros _; by exists []|]. intros _. eauto.
  - intros _. by rewrite <-(Hst eq_refl eq_refl) in Hcf.
  - intros j Hj1 Hj2. by apply HEr.
  - intros j ->%list_elem_of_singleton. by exists (rec_of k).
  - apply Hrest.
Qed.

(** The first link of the first chain after one of the second one: it moves to
    the free index, which is the start of the chain. *)
Lemma low_first_after : ls = [] -> hs <> [] -> hi (hash_nr k) = false -> f0 (hash_nr k) = F ->
  split_inv r [empty s] hs false false (<[empty s := rec_of k]> E)
    (mkSplit (arr s) (flag_of [empty s] hs false false) pos (empty s) (rec_of k) (gpos2 s) (rec2 s)).
Proof.
  intros Hl0 Hh Hlo Hf. destruct step_pos as (Hp1 & Hp2 & Hp3 & He & He1 & He2). destruct step_arr as (Ha & Hnx & HE).
  pose proof (side_in _ _ _ _ _ _ (si_high _ _ _ _ _ _ _ Hs) Hh) as Hgh.
  pose proof Hs as [Hfl Hnb Hnd Hpm Hlen Hsame Hlow Hhigh Hlh Hhh Hel Heh Hst Hel' HEl HEh HEr Hlows Hhighs Hcon Hrest].
  clear Hs. subst ls.
  assert (HP : [empty s] ++ hs ++ r ++ [pos] ≡ₚ [] ++ hs ++ (pos :: r) ++ [empty s]) by (cbn [app]; solve_Permutation).
  split; cbn [flag empty gpos rec gpos2 rec2 arr]; try done.
  - by rewrite HP.
  - by rewrite HP.
  - intros j Hj. apply Hsame. set_solver.
  - apply side_one.
  - by eapply side_weaken.
  - intros _. cbn. by rewrite Hel.
  - by rewrite length_insert.
  - intros _. rewrite list_lookup_insert_eq by lia. done.
  - intros _. rewrite list_lookup_insert_ne by (intros Heq; by rewrite Heq in He2). by apply HEh.
  - intros j Hj1 Hj2. rewrite list_lookup_insert_ne by (intros <-; by apply Hj1). by apply HEr.
  - intros j ->%list_elem_of_singleton. exists (rec_of k). by rewrite list_lookup_insert_eq by lia.
  - intros j Hj. rewrite list_lookup_insert_ne by (by intros <-). by apply Hhighs.
  - rewrite perm_hole; [done|done|lia|done].
  - apply Hrest.
Qed.

(** The first link of the second chain moves to the new index. *)
Lemma high_first : hs = [] -> head c = Some F -> hi (hash_nr k) = true ->
  split_inv r ls [empty s] false false (<[empty s := rec_of k]> E)
    (mkSplit (arr s) (flag_of ls [empty s] false false) pos (gpos s) (rec s) (empty s) (rec_of k)).
Proof.
  intros Hh0 Hcf Hhi. destruct step_pos as (Hp1 & Hp2 & Hp3 & He & He1 & He2). destruct step_arr as (Ha & Hnx & HE).
  pose proof Hs as [Hfl Hnb Hnd Hpm Hlen Hsame Hlow Hhigh Hlh Hhh Hel Heh Hst Hel' HEl HEh HEr Hlows Hhighs Hcon Hrest].
  clear Hs. subst hs.
  assert (Hgl : ls <> [] -> gpos s <> empty s).
  { intros Hl Heq. apply He1. rewrite <-Heq. by apply (side_in _ _ _ _ _ _ Hlow). }
  assert (HP : ls ++ [empty s] ++ r ++ [pos] ≡ₚ ls ++ [] ++ (pos :: r) ++ [empty s]) by (cbn [app]; solve_Permutation).
  split; cbn [flag empty gpos rec gpos2 rec2 arr]; try done.
  - by rewrite HP.
  - by rewrite HP.
  - intros j Hj. apply Hsame. set_solver.
  - by eapply side_weaken.
  - apply side_one.
  - intros _. cbn. by rewrite Heh.
  - intros Hl _. rewrite <-(Hst Hl eq_refl) in Hcf. by injection Hcf.
  - by rewrite length_insert.
  - intros Hl. rewrite list_lookup_insert_ne by (by apply not_eq_sym, Hgl). by apply HEl.
  - intros _. by rewrite list_lookup_insert_eq by lia.
  - intros j Hj1 Hj2. rewrite list_lookup_insert_ne by (intros <-; by apply Hj2). by apply HEr.
  - intros j Hj. rewrite list_lookup_insert_ne by (by intros <-). by apply Hlows.
  - intros j ->%list_elem_of_singleton. exists (rec_of k). by rewrite list_lookup_insert_eq by lia.
  - rewrite perm_hole; [done|done|lia|done].
  - apply Hrest.
Qed.

Lemma low_key_inv : head c = Some F -> hi (hash_nr k) = false -> f0 (hash_nr k) = F ->
  exists ls' lu' E', split_inv r ls' hs lu' false E' (low_key pos k s) /\ arr (low_key pos k s) !! pos = Some k.
Proof.
  intros Hcf Hlo Hf. destruct step_pos as (Hp1 & _). destruct step_arr as (Ha & _).
  unfold low_key. rewrite (si_flag _ _ _ _ _ _ _ Hs). destruct (decide (ls = [])) as [Hl|Hl].
  - destruct (decide (hs = [])) as [Hh|Hh].
    + exists [pos], true, E. pose proof (low_first Hl Hh Hcf Hlo Hf) as Hi. rewrite Hl, Hh.
      assert (lu = false) as -> by (destruct lu; [by destruct (side_used _ _ _ _ _ _ (si_low _ _ _ _ _ _ _ Hs) eq_refl)|done]).
      assert (hu = false) as -> by (destruct hu; [by destruct (side_used _ _ _ _ _ _ (si_high _ _ _ _ _ _ _ Hs) eq_refl)|done]).
      exact (conj Hi Ha).
    + exists [empty s], false, (<[empty s := rec_of k]> E). pose proof (low_first_after Hl Hh Hlo Hf) as Hi. rewrite Hl.
      assert (lu = false) as -> by (destruct lu; [by destruct (side_used _ _ _ _ _ _ (si_low _ _ _ _ _ _ _ Hs) eq_refl)|done]).
      destruct hs as [|y hs']; [done|]. destruct hu; exact (conj Hi Ha).
  - exists (ls ++ [pos]), true, E. pose proof (low_extend Hl Hlo Hf) as Hi.
    pose proof (si_not_both _ _ _ _ _ _ _ Hs) as Hnb.
    assert (Hg : gpos s <> pos) by (intros <-; by apply Hp1, (side_in _ _ _ _ _ _ (si_low _ _ _ _ _ _ _ Hs))).
    destruct ls as [|x ls']; [done|]. destruct lu.
    + rewrite (Hnb eq_refl). destruct hs; exact (conj Hi Ha).
    + assert (arr (mkSplit (put_link (gpos s) (rec s) (Some pos) (arr s)) 0 0 0 (rec s) 0 (rec s)) !! pos = Some k) as Ha'
        by (cbn [arr]; unfold put_link; by rewrite list_lookup_insert_ne).
      destruct hs, hu; exact (conj Hi Ha').
Qed.

Lemma high_key_inv : head c = Some F -> hi (hash_nr k) = true ->
  exists hs' hu' E', split_inv r ls hs' false hu' E' (high_key pos k s) /\ arr (high_key pos k s) !! pos = Some k.
Proof.
  intros Hcf Hhi. destruct step_pos as (_ & Hp2 & _). destruct step_arr as (Ha & _).
  unfold high_key. rewrite (si_flag _ _ _ _ _ _ _ Hs). destruct (decide (hs = [])) as [Hh|Hh].
  - exists [empty s], false, (<[empty s := rec_of k]> E). pose proof (high_first Hh Hcf Hhi) as Hi. rewrite Hh.
    assert (hu = false) as -> by (destruct hu; [by destruct (side_used _ _ _ _ _ _ (si_high _ _ _ _ _ _ _ Hs) eq_refl)|done]).
    destruct ls, lu; exact (conj Hi Ha).
  - exists (hs ++ [pos]), true, E. pose proof (high_extend Hh Hhi) as Hi.
    pose proof (si_not_both _ _ _ _ _ _ _ Hs) as Hnb.
    assert (Hg : gpos2 s <> pos) by (intros <-; by apply Hp2, (side_in _ _ _ _ _ _ (si_high _ _ _ _ _ _ _ Hs))).
    destruct hs as [|x hs']; [done|]. destruct hu.
    + destruct lu; [by specialize (Hnb eq_refl)|]. destruct ls; exact (conj Hi Ha).
    + assert (arr (mkSplit (put_link (gpos2 s) (rec2 s) (Some pos) (arr s)) 0 0 0 (rec s) 0 (rec s)) !! pos = Some k) as Ha'
        by (cbn [arr]; unfold put_link; by rewrite list_lookup_insert_ne).
      destruct ls, lu; exact (conj Hi Ha').
Qed.

End step.

(** The loop visits the whole chain. *)
Lemma split_loop_spec bl nrec half fuel r : forall pos ls hs lu hu E s,
  (forall x, f0 x = my_hash_mask x bl nrec) -> head c = Some F ->
  (forall j, j ∈ pos :: r -> exists k, a0 !! j = Some k /\ f0 (hash_nr k) = F /\ (Z.land (hash_nr k) (Z.of_nat half) =? 0) = negb (hi (hash_nr k))) ->
  split_inv (pos :: r) ls hs lu hu E s -> (length r < fuel)%nat ->
  exists ls' hs' lu' hu' E' s', split_loop fuel bl nrec half F pos s = Some s' /\ split_inv [] ls' hs' lu' hu' E' s'.
Proof.
  revert fuel. induction r as [|y r IH]; intros fuel pos ls hs lu hu E s Hf0 Hcf Hr Hs Hlen;
    (destruct fuel as [|fuel]; [cbn in Hlen; lia|]); cbn [split_loop];
    destruct (Hr pos (proj2 (elem_of_cons _ _ _) (or_introl eq_refl))) as (k & Hk & HF & Hbit);
    destruct (step_arr _ _ _ _ _ _ _ _ Hs k Hk) as (Ha & Hnx & _); rewrite Ha; cbn [mbind option_bind];
    rewrite <-Hf0, HF, Nat.eqb_refl, andb_false_r, Hbit; destruct (hi (hash_nr k)) eqn:Hh; cbn [negb].
  - destruct (high_key_inv _ _ _ _ _ _ _ _ Hs k Hk Hcf Hh) as (hs' & hu' & E' & Hi & Hp). rewrite Hp. cbn [mbind option_bind].
    rewrite Hnx. cbn [head_or]. eauto 10.
  - destruct (low_key_inv _ _ _ _ _ _ _ _ Hs k Hk Hcf Hh HF) as (ls' & lu' & E' & Hi & Hp). rewrite Hp. cbn [mbind option_bind].
    rewrite Hnx. cbn [head_or]. eauto 10.
  - destruct (high_key_inv _ _ _ _ _ _ _ _ Hs k Hk Hcf Hh) as (hs' & hu' & E' & Hi & Hp). rewrite Hp. cbn [mbind option_bind].
    rewrite Hnx. cbn [head_or]. apply (IH _ _ _ _ _ _ _ _ Hf0 Hcf (fun j Hj => Hr j (proj2 (elem_of_cons _ _ _) (or_intror Hj))) Hi). cbn in Hlen. lia.
  - destruct (low_key_inv _ _ _ _ _ _ _ _ Hs k Hk Hcf Hh HF) as (ls' & lu' & E' & Hi & Hp). rewrite Hp. cbn [mbind option_bind].
    rewrite Hnx. cbn [head_or]. apply (IH _ _ _ _ _ _ _ _ Hf0 Hcf (fun j Hj => Hr j (proj2 (elem_of_cons _ _ _) (or_intror Hj))) Hi). cbn in Hlen. lia.
Qed.

(** The last write to a chain, if it is still pending. *)
Definition last_write (arr0 : list (HASH_LINK A)) ls (g : nat) (x : Z * A) (used : bool) : list (HASH_LINK A) :=
  match ls with [] => arr0 | _ => if used then arr0 else put_link g x None arr0 end.

Definition pending ls (g : nat) (x : Z * A) E : list (Z * A) := match ls with [] => E | _ => <[g := x]> E end.

Lemma side_finish arr0 ls g x used : side arr0 ls g x used None -> NoDup ls -> (forall j, j ∈ ls -> (j < length arr0)%nat) ->
  let b := last_write arr0 ls g x used in
  length b = length arr0 /\ linked b ls None /\ recs b = pending ls g x (recs arr0) /\ (forall j, j ∉ ls -> b !! j = arr0 !! j).
Proof.
  intros Hside Hnd Hlt b. destruct (decide (ls = [])) as [->|Hne]; [done|]. pose proof (side_in _ _ _ _ _ _ Hside Hne) as Hg.
  destruct Hside as [He Hu]. destruct (He Hne) as (l & -> & Hl). apply Hlt in Hg. apply NoDup_app in Hnd as (_ & Hnd & _).
  assert (b = if used then arr0 else put_link g x None arr0) as -> by (unfold b, last_write; by destruct l).
  assert (pending (l ++ [g]) g x (recs arr0) = <[g := x]> (recs arr0)) as -> by (by destruct l).
  destruct used.
  - destruct (Hu eq_refl) as (_ & k & Hk & Hn & Hr). split_and!; [done| | |done].
    + apply linked_app. cbn. eauto.
    + rewrite list_insert_id; [done|]. rewrite recs_lookup, Hk. cbn. by rewrite Hr.
  - unfold put_link. split_and!.
    + apply length_insert.
    + apply linked_app. split; [apply linked_insert_ne; [set_solver|done]|]. cbn. rewrite list_lookup_insert_eq by done. eauto.
    + rewrite recs_insert. by destruct x.
    + intros j Hj. apply list_lookup_insert_ne. set_solver.
Qed.

Lemma side_frame (arr1 arr2 : list (HASH_LINK A)) ls g x used nx : side arr1 ls g x used nx -> (forall j, j ∈ ls -> arr1 !! j = arr2 !! j) ->
  side arr2 ls g x used nx.
Proof.
  intros Hs Hj. split.
  - intros Hne. destruct (side_end _ _ _ _ _ _ Hs Hne) as (l & -> & Hl). exists l. split; [done|]. apply (linked_ext arr1); [|done].
    intros y Hy. rewrite Hj; [done|]. apply elem_of_app. by left.
  - intros Hu. destruct (side_used _ _ _ _ _ _ Hs Hu) as (Hne & k & Hk & Hr). split; [done|]. exists k.
    rewrite <-Hj; [done|]. by apply (side_in _ _ _ _ _ _ Hs).
Qed.

Lemma finish_spec ls hs lu hu E s : split_inv [] ls hs lu hu E s ->
  let b := arr (finish_split s) in
  length b = length a0 /\ recs b = E /\ linked b ls None /\ linked b hs None
  /\ (forall j, j ∉ ls ++ hs ++ [empty s] -> b !! j = a0 !! j) /\ empty (finish_split s) = empty s.
Proof.
  intros Hs. pose proof Hs as [Hfl Hnb Hnd Hpm Hlen Hsame Hlow Hhigh _ _ _ _ _ Hel' HEl HEh HEr _ _ _ _].
  apply NoDup_app in Hnd as (Hn1 & Hn2 & (Hn3 & Hn4 & _)%NoDup_app).
  assert (Hlt : forall j, j ∈ ls \/ j ∈ hs -> (j < length (arr s))%nat).
  { intros j Hj. rewrite Hlen. apply Hc. rewrite <-Hpm, !elem_of_app. destruct Hj as [Hj|Hj]; [by left|by right; left]. }
  assert (Hdis : forall j, j ∈ ls -> j ∉ hs) by (intros j Hj Hj'; apply (Hn2 j Hj), elem_of_app; by left).
  destruct (side_finish _ _ _ _ _ Hlow Hn1 (fun j Hj => Hlt j (or_introl Hj))) as (L1 & L2 & L3 & L4).
  set (b1 := last_write (arr s) ls (gpos s) (rec s) lu) in *.
  assert (Hh' : side b1 hs (gpos2 s) (rec2 s) hu None).
  { apply (side_frame (arr s)); [done|]. intros j Hj. rewrite L4; [done|]. intros Hj'. by apply (Hdis j). }
  destruct (side_finish _ _ _ _ _ Hh' Hn3 (fun j Hj => eq_ind_r (fun n => (j < n)%nat) (Hlt j (or_intror Hj)) L1)) as (M1 & M2 & M3 & M4).
  set (b2 := last_write b1 hs (gpos2 s) (rec2 s) hu) in *.
  assert (Hb : arr (finish_split s) = b2).
  { unfold finish_split, b2, b1, last_write. rewrite Hfl. cbn [arr].
    assert (lu = true -> ls <> []) as Hlu by (by intros [? _]%Hlow). assert (hu = true -> hs <> []) as Hhu by (by intros [? _]%Hhigh).
    destruct ls, lu, hs, hu; try reflexivity; try (by destruct (Hlu eq_refl)); by destruct (Hhu eq_refl). }
  cbn zeta. rewrite Hb. split_and!; [congruence| | |done| |done].
  - rewrite M3, L3. apply list_eq. intros j.
    pose proof (side_in _ _ _ _ _ _ Hlow) as Hgl. pose proof (side_in _ _ _ _ _ _ Hhigh) as Hgh.
    assert (HR : forall l g x R, (l <> [] -> (g < length R)%nat) -> pending l g x R !! j = if decide (l <> [] /\ j = g) then Some x else R !! j).
    { intros l g x R Hg. destruct l as [|y l]; cbn [pending]; [by rewrite decide_False by naive_solver|]. destruct (decide (j = g)) as [->|Hj].
      - rewrite decide_True by done. apply list_lookup_insert_eq. by apply Hg.
      - rewrite decide_False by naive_solver. by apply list_lookup_insert_ne. }
    rewrite HR, HR; [|intros Hne; rewrite length_recs; auto|intros Hne; rewrite <-L3, length_recs, L1; auto].
    destruct (decide (hs <> [] /\ j = gpos2 s)) as [[Hh ->]|Hjh]; [by rewrite HEh|].
    destruct (decide (ls <> [] /\ j = gpos s)) as [[Hl ->]|Hjl]; [by rewrite HEl|]. symmetry. apply HEr; [intros Hl ->|intros Hh ->]; auto.
  - apply (linked_ext b1); [|done]. intros j Hj. rewrite M4; [done|]. by apply Hdis.
  - intros j Hj. rewrite !not_elem_of_app in Hj. destruct Hj as (J1 & J2 & J3). rewrite M4, L4 by done. apply Hsame. rewrite !not_elem_of_app. done.
Qed.

End split.

Section tables.
Context {A : Type} `{EqDecision A}.
Implicit Types (h : HASH A) (a b : list (HASH_LINK A)).

Definition nonneg a : Prop := Forall (fun x => 0 <= x.1) (recs a).

Lemma nonneg_lookup a j x : nonneg a -> recs a !! j = Some x -> 0 <= x.1.
Proof. intros Hn Hj. by apply (Forall_lookup_1 _ _ _ _ Hn Hj). Qed.

Definition home (bl n : nat) (x : Z) : nat := my_hash_mask x bl n.

Lemma delete_last {B} (l : list B) y : delete (length l) (l ++ [y]) = l.
Proof. rewrite delete_take_drop, take_app_length, drop_ge, app_nil_r; [done|]. rewrite length_app. cbn. lia. Qed.

(** A table whose new index gets nothing. *)
Lemma no_split bl n a slot ch : sized bl n -> length a = n -> nonneg a -> chains a (fun j => (j < n)%nat) (home bl n) ch ->
  (forall j x, recs a !! j = Some x -> moves bl n x.1 = false) ->
  chains (a ++ [slot]) (fun j => (j < n + 1)%nat /\ j <> n) (home bl (n + 1)) ch.
Proof.
  intros Hs Hl Hnn Hch Hno.
  assert (Hlook : forall j, (j < n)%nat -> (a ++ [slot]) !! j = a !! j) by (intros j Hj; apply lookup_app_l; lia).
  assert (Hch' : chains (a ++ [slot]) (fun j => (j < n + 1)%nat /\ j <> n) (home bl n) ch).
  { apply (chains_ext a _ (fun j => (j < n)%nat)); [intros; lia|intros; by rewrite Hlook|done]. }
  destruct Hch' as [H1 H2 H3 H4]. split; [done|done|done|]. intros h j. rewrite H4.
  split; intros (Hj & x & Hx & <-); (split; [done|]); exists x; (split; [done|]);
    rewrite recs_lookup, Hlook, <-recs_lookup in Hx by lia; unfold home; rewrite (mask_grow bl n), (Hno j x Hx);
    try done; by eapply nonneg_lookup.
Qed.

Lemma elem_of_delete_ne {B} (l : list B) (e j : nat) x : l !! j = Some x -> j <> e -> x ∈ delete e l.
Proof.
  intros Hj Hje. apply list_elem_of_lookup. destruct (decide (j < e)%nat).
  - exists j. by rewrite list_lookup_delete_lt.
  - exists (j - 1)%nat. rewrite list_lookup_delete_ge by lia. replace (S (j - 1)) with j by lia. done.
Qed.

(** The start of the loop. *)
Lemma split_start bl n F a slot ch (t : list nat) : length a = n -> chains a (fun j => (j < n)%nat) (home bl n) ch -> ch F = F :: t ->
  split_inv (home bl n) (moves bl n) F n (a ++ [slot]) (F :: t) (F :: t) [] [] false false (recs (a ++ [slot]))
    (mkSplit (a ++ [slot]) 0 n 0 (0, data slot) 0 (0, data slot)).
Proof.
  intros Hl Hch Ht. assert (Hlt : forall j, j ∈ F :: t -> (j < n)%nat).
  { intros j Hj. rewrite <-Ht in Hj. by apply (ch_mem _ _ _ _ Hch) in Hj as [? _]. }
  split; cbn [arr flag empty gpos rec gpos2 rec2]; try done.
  - cbn [app]. apply (NoDup_app (F :: t) [n]). split_and!; [rewrite <-Ht; apply (ch_nodup _ _ _ _ Hch)| |apply NoDup_singleton].
    intros j Hj ->%list_elem_of_singleton. specialize (Hlt n Hj). lia.
  - by rewrite length_recs.
  - intros j Hj. by apply not_elem_of_nil in Hj.
  - intros j Hj. by apply not_elem_of_nil in Hj.
  - apply (linked_ext a); [|rewrite <-Ht; apply (ch_linked _ _ _ _ Hch)]. intros j Hj. rewrite lookup_app_l; [done|]. specialize (Hlt j Hj). lia.
Qed.

(** The chains after the loop. *)
Section after_split.
Context (bl n F : nat) (a : list (HASH_LINK A)) (slot : HASH_LINK A) (ch : nat -> list nat) (t ls hs : list nat) (lu hu : bool)
  (E : list (Z * A)) (s : split (A := A)).
Context (Hs : sized bl n) (Hn0 : (0 < n)%nat) (Hl : length a = n) (Hnn : nonneg a) (Hch : chains a (fun j => (j < n)%nat) (home bl n) ch)
  (HF : F = (n - Nat.div2 bl)%nat) (Ht : ch F = F :: t)
  (Hinv : split_inv (home bl n) (moves bl n) F n (a ++ [slot]) (F :: t) [] ls hs lu hu E s).

Lemma split_lt j : j ∈ F :: t -> (j < n)%nat.
Proof. intros Hj. rewrite <-Ht in Hj. by apply (ch_mem _ _ _ _ Hch) in Hj as [? _]. Qed.

Lemma split_in j : j ∈ (F :: t) ++ [n] -> (j < length (a ++ [slot]))%nat.
Proof. rewrite length_app, Hl. cbn [length]. intros [Hj%split_lt | ->%list_elem_of_singleton]%elem_of_app; lia. Qed.

Lemma split_set j : (j ∈ ls \/ j ∈ hs \/ j = empty s) <-> (j ∈ F :: t \/ j = n).
Proof.
  pose proof (si_perm _ _ _ _ _ _ _ _ _ _ _ _ _ Hinv) as Hp. cbn [app] in Hp. rewrite <-!list_elem_of_singleton, <-!elem_of_app.
  by rewrite Hp.
Qed.

Lemma split_used j : j ∈ ls \/ j ∈ hs -> (j < n + 1)%nat /\ j <> empty s.
Proof.
  intros Hj. split.
  - destruct (proj1 (split_set j)) as [Hj'|Hj']; [tauto|apply split_lt in Hj'; lia|lia].
  - intros ->. pose proof (si_nodup _ _ _ _ _ _ _ _ _ _ _ _ _ Hinv) as Hnd. cbn [app] in Hnd.
    rewrite app_assoc in Hnd. apply NoDup_app in Hnd as (_ & Hn & _). apply (Hn (empty s)); [by apply elem_of_app|by apply list_elem_of_singleton].
Qed.

Lemma split_other (g : nat) j : j ∈ ch g -> g <> F -> (j < n)%nat /\ ~ (j ∈ F :: t \/ j = n).
Proof.
  intros Hj Hne. pose proof (proj1 (proj1 (ch_mem _ _ _ _ Hch g j) Hj)) as Hjn. split; [done|]. intros [Hjt|Hjt]; [|lia].
  apply Hne. rewrite <-Ht in Hjt. by apply (chains_disjoint _ _ _ _ Hch g F j).
Qed.

Lemma split_same j : (j < n)%nat -> ~ (j ∈ F :: t \/ j = n) -> arr (finish_split s) !! j = a !! j.
Proof.
  intros Hj Hno. destruct (finish_spec _ _ _ _ _ _ split_in _ _ _ _ _ _ Hinv) as (_ & _ & _ & _ & Hout & _).
  rewrite Hout; [apply lookup_app_l; lia|]. rewrite !elem_of_app, list_elem_of_singleton. by rewrite split_set.
Qed.

Lemma split_chain_contents : delete (empty s) E ≡ₚ recs a.
Proof.
  rewrite (si_contents _ _ _ _ _ _ _ _ _ _ _ _ _ Hinv). unfold recs. rewrite map_app, <-Hl, <-(length_map rec_of). cbn [map].
  by rewrite delete_last.
Qed.

Lemma split_nonneg j x : E !! j = Some x -> j <> empty s -> 0 <= x.1.
Proof.
  intros Hj Hje. pose proof (elem_of_delete_ne E _ _ _ Hj Hje) as Hx. rewrite split_chain_contents in Hx.
  unfold nonneg in Hnn. rewrite Forall_forall in Hnn. by apply Hnn.
Qed.

(** A link of another chain stays where it is. *)
Lemma split_stays j x : recs a !! j = Some x -> home bl n x.1 <> F -> home bl (n + 1) x.1 = home bl n x.1.
Proof.
  intros Hx Hf. unfold home in *. rewrite mask_grow by (try done; by eapply nonneg_lookup). destruct (moves bl n x.1) eqn:Hm; [|done].
  apply moves_home in Hm; [|done|by eapply nonneg_lookup|done]. congruence.
Qed.

Lemma split_member (g : nat) j : j ∈ (<[n := hs]> (<[F := ls]> ch)) g ->
  ((j < n + 1)%nat /\ j <> empty s) /\ exists x, recs (arr (finish_split s)) !! j = Some x /\ home bl (n + 1) x.1 = g.
Proof.
  destruct (finish_spec _ _ _ _ _ _ split_in _ _ _ _ _ _ Hinv) as (_ & HR & _).
  destruct (decide (n = g)) as [<-|Hg1]; [|destruct (decide (F = g)) as [HFg|Hg2]].
  - rewrite fn_lookup_insert. intros Hj. pose proof (split_used j (or_intror Hj)) as Hu. split; [done|].
    destruct (si_highs _ _ _ _ _ _ _ _ _ _ _ _ _ Hinv j Hj) as (x & Hx & Hm). exists x. rewrite HR. split; [done|].
    unfold home. rewrite mask_grow, Hm; [done|done|]. eapply split_nonneg; [done|tauto].
  - rewrite fn_lookup_insert_ne by done. rewrite HFg, fn_lookup_insert. intros Hj. pose proof (split_used j (or_introl Hj)) as Hu. split; [done|].
    destruct (si_lows _ _ _ _ _ _ _ _ _ _ _ _ _ Hinv j Hj) as (x & Hx & Hm & Hf). exists x. rewrite HR. split; [done|].
    unfold home in *. rewrite mask_grow, Hm; [by rewrite Hf|done|]. eapply split_nonneg; [done|tauto].
  - rewrite !fn_lookup_insert_ne by done. intros Hj. destruct (split_other g j Hj) as [Hj1 Hj2]; [done|].
    apply (ch_mem _ _ _ _ Hch) in Hj as (_ & x & Hx & Hf). split.
    + split; [lia|]. intros ->. apply Hj2, split_set. tauto.
    + exists x. rewrite recs_lookup, split_same, <-recs_lookup by done. split; [done|]. rewrite (split_stays j) by congruence. done.
Qed.

Lemma split_all j x : (j < n + 1)%nat /\ j <> empty s -> recs (arr (finish_split s)) !! j = Some x ->
  j ∈ (<[n := hs]> (<[F := ls]> ch)) (home bl (n + 1) x.1).
Proof.
  intros [Hj Hje] Hx. assert (n <> F) as HnF by (pose proof (split_lt F (proj2 (elem_of_cons _ _ _) (or_introl eq_refl))); lia).
  destruct (decide (j ∈ F :: t \/ j = n)) as [Hin|Hin].
  - apply split_set in Hin as [Hj' | [Hj' | Hj']]; [| |done].
    + destruct (split_member F j) as (_ & x' & Hx' & Hf).
      { by rewrite fn_lookup_insert_ne, fn_lookup_insert. }
      assert (x' = x) as -> by congruence. by rewrite Hf, fn_lookup_insert_ne, fn_lookup_insert.
    + destruct (split_member n j) as (_ & x' & Hx' & Hf); [by rewrite fn_lookup_insert|]. assert (x' = x) as -> by congruence. by rewrite Hf, fn_lookup_insert.
  - assert (j < n)%nat as Hjn by (destruct (decide (j = n)); [tauto|lia]).
    rewrite recs_lookup, split_same, <-recs_lookup in Hx by done.
    assert (j ∈ ch (home bl n x.1)) as Hjc by (apply (ch_mem _ _ _ _ Hch); eauto).
    assert (home bl n x.1 <> F) as Hne by (intros Hf; rewrite Hf, Ht in Hjc; tauto).
    rewrite (split_stays j) by done. pose proof (mask_lt bl n x.1 Hs (nonneg_lookup _ _ _ Hnn Hx) Hn0). unfold home in *.
    rewrite !fn_lookup_insert_ne by lia. done.
Qed.

Lemma split_chains : chains (arr (finish_split s)) (fun j => (j < n + 1)%nat /\ j <> empty s) (home bl (n + 1)) (<[n := hs]> (<[F := ls]> ch)).
Proof.
  destruct (finish_spec _ _ _ _ _ _ split_in _ _ _ _ _ _ Hinv) as (_ & _ & Hll & Hlh & _).
  pose proof (si_nodup _ _ _ _ _ _ _ _ _ _ _ _ _ Hinv) as Hnd. apply NoDup_app in Hnd as (Hn1 & _ & (Hn3 & _)%NoDup_app).
  apply chains_intro; [| | |exact split_member|exact split_all].
  - intros g x l. destruct (decide (n = g)) as [<-|Hg1]; [|destruct (decide (F = g)) as [HFg|Hg2]].
    + rewrite fn_lookup_insert. intros Hh. pose proof (si_high_head _ _ _ _ _ _ _ _ _ _ _ _ _ Hinv) as Hx. rewrite Hh in Hx. by injection (Hx ltac:(done)).
    + rewrite fn_lookup_insert_ne by done. rewrite HFg, fn_lookup_insert. intros Hh.
      pose proof (si_low_head _ _ _ _ _ _ _ _ _ _ _ _ _ Hinv) as Hx. rewrite Hh in Hx. injection (Hx ltac:(done)). congruence.
    + rewrite !fn_lookup_insert_ne by done. apply (ch_head _ _ _ _ Hch).
  - intros g. destruct (decide (n = g)) as [<-|Hg1]; [by rewrite fn_lookup_insert|]. rewrite fn_lookup_insert_ne by done.
    destruct (decide (F = g)) as [HFg|Hg2]; [by rewrite HFg, fn_lookup_insert|].
    rewrite fn_lookup_insert_ne by done. apply (linked_ext a); [|apply (ch_linked _ _ _ _ Hch)]. intros j Hj.
    destruct (split_other g j Hj) as [Hj1 Hj2]; [done|]. by rewrite split_same.
  - intros g. destruct (decide (n = g)) as [<-|Hg1]; [by rewrite fn_lookup_insert|]. rewrite fn_lookup_insert_ne by done.
    destruct (decide (F = g)) as [HFg|Hg2]; [by rewrite HFg, fn_lookup_insert|].
    rewrite fn_lookup_insert_ne by done. apply (ch_nodup _ _ _ _ Hch).
Qed.

End after_split.

(** The loop on a chain that exists. *)
Lemma split_run bl n a slot ch t : let F := (n - Nat.div2 bl)%nat in
  let s0 := mkSplit (a ++ [slot]) 0 n 0 (0, data slot) 0 (0, data slot) in
  sized bl n -> (0 < n)%nat -> length a = n -> nonneg a -> chains a (fun j => (j < n)%nat) (home bl n) ch -> ch F = F :: t ->
  exists s ch', split_loop n bl n (Nat.div2 bl) F F s0 = Some s
    /\ length (arr (finish_split s)) = (n + 1)%nat /\ (empty (finish_split s) < n + 1)%nat
    /\ chains (arr (finish_split s)) (fun j => (j < n + 1)%nat /\ j <> empty (finish_split s)) (home bl (n + 1)) ch'
    /\ delete (empty (finish_split s)) (recs (arr (finish_split s))) ≡ₚ recs a.
Proof.
  intros F s0 Hs Hn0 Hl Hnn Hch Ht. pose proof (split_start bl n F a slot ch t Hl Hch Ht) as Hst. fold s0 in Hst.
  assert (Hlt : forall j, j ∈ F :: t -> (j < n)%nat) by (intros j; by eapply split_lt).
  assert (Hin : forall j, j ∈ (F :: t) ++ [n] -> (j < length (a ++ [slot]))%nat) by (intros j; by eapply split_in).
  destruct (split_loop_spec (home bl n) (moves bl n) F n (a ++ [slot]) (F :: t) Hin bl n (Nat.div2 bl) n t
    F [] [] false false (recs (a ++ [slot])) s0) as (ls & hs & lu & hu & E & s & Hloop & Hinv); [done|done| |done| |].
  - intros j Hj. rewrite <-Ht in Hj. apply (ch_mem _ _ _ _ Hch) in Hj as (Hj & x & Hx & Hf). pose proof (nonneg_lookup _ _ _ Hnn Hx) as Hpx.
    rewrite recs_lookup in Hx. destruct (a !! j) as [kj|] eqn:Ej; [|done]. injection Hx as <-. exists kj.
    rewrite lookup_app_l by lia. split; [done|]. split; [done|]. by apply moves_bit.
  - pose proof (ch_nodup _ _ _ _ Hch F) as Hnd. rewrite Ht in Hnd. pose proof (NoDup_length_lt _ n Hnd Hlt). cbn in *. lia.
  - destruct (finish_spec _ _ _ _ _ _ Hin _ _ _ _ _ _ Hinv) as (Hlen & HR & _ & _ & _ & He').
    eexists s, _. split; [done|]. rewrite Hlen, HR, He', length_app, Hl. split; [done|].
    split; [|split; [by eapply split_chains|by eapply split_chain_contents]].
    assert (empty s ∈ F :: t \/ empty s = n) as [Hj%Hlt | ->]; [by eapply split_set; [done|right; right]|lia|lia].
Qed.

(** A link at the start of the chain that belongs elsewhere: the chain is
    empty. *)
Lemma split_none bl n a ch k : let F := (n - Nat.div2 bl)%nat in
  sized bl n -> (0 < n)%nat -> length a = n -> nonneg a -> chains a (fun j => (j < n)%nat) (home bl n) ch ->
  a !! F = Some k -> home bl n (hash_nr k) <> F -> forall j x, recs a !! j = Some x -> moves bl n x.1 = false.
Proof.
  intros F Hs Hn0 Hl Hnn Hch Hk Hhome j x Hx. destruct (moves bl n x.1) eqn:Hm; [|done]. pose proof (nonneg_lookup _ _ _ Hnn Hx) as Hpx.
  apply moves_home in Hm; [|done|done|done]. assert (Hj : (j < n)%nat) by (apply lookup_lt_Some in Hx; rewrite length_recs in Hx; lia).
  destruct (chains_home _ _ _ _ Hch j x Hj Hx) as (t & Ht & _). unfold home in Ht. rewrite Hm in Ht. fold F in Ht.
  destruct Hhome. destruct (proj1 (ch_mem _ _ _ _ Hch F F)) as (_ & x' & Hx' & Hf'); [rewrite Ht; by left|].
  rewrite recs_lookup, Hk in Hx'. by injection Hx' as <-.
Qed.

(** [split_chain] makes room for one more record. *)
Lemma split_chain_spec h slot ch : sized (blength h) (records h) -> length (array h) = records h -> nonneg (array h) ->
  chains (array h) (fun j => (j < records h)%nat) (home (blength h) (records h)) ch ->
  exists s ch', split_chain h slot = Some s /\ length (arr s) = (records h + 1)%nat /\ (empty s < records h + 1)%nat
    /\ chains (arr s) (fun j => (j < records h + 1)%nat /\ j <> empty s) (home (blength h) (records h + 1)) ch'
    /\ delete (empty s) (recs (arr s)) ≡ₚ recs (array h).
Proof.
  intros Hs Hl Hnn Hch. unfold split_chain. set (bl := blength h) in *. set (n := records h) in *. set (a := array h) in *.
  set (s0 := mkSplit (a ++ [slot]) 0 n 0 (0, data slot) 0 (0, data slot)).
  assert (Hkeep : (forall j x, recs a !! j = Some x -> moves bl n x.1 = false) ->
    exists s ch', Some s0 = Some s /\ length (arr s) = (n + 1)%nat /\ (empty s < n + 1)%nat
    /\ chains (arr s) (fun j => (j < n + 1)%nat /\ j <> empty s) (home bl (n + 1)) ch' /\ delete (empty s) (recs (arr s)) ≡ₚ recs a).
  { intros Hno. exists s0, ch. cbn [arr empty s0]. split_and!; [done|rewrite length_app; cbn; lia|lia|by apply no_split|].
    unfold recs. rewrite map_app, <-Hl, <-(length_map rec_of). cbn [map]. by rewrite delete_last. }
  destruct (Nat.eqb_spec (n - Nat.div2 bl) n) as [He|He]; cbn [negb].
  - apply Hkeep. intros j x Hx. apply lookup_lt_Some in Hx. rewrite length_recs, Hl in Hx.
    apply sized_cases in Hs as [[-> Hn] | (k & Hk & Hn)]; [lia|]. rewrite Hk in He. mask_facts 0 k. lia.
  - set (F := (n - Nat.div2 bl)%nat) in *. assert (Hn0 : (0 < n)%nat) by lia.
    destruct (lookup_lt_is_Some_2 a F ltac:(lia)) as [k Hk]. destruct (decide (home bl n (hash_nr k) = F)) as [Hhome|Hhome].
    + destruct (chains_home _ _ _ _ Hch F (rec_of k)) as (t & Ht & _); [lia|by rewrite recs_lookup, Hk|]. cbn [fst rec_of] in Ht. rewrite Hhome in Ht.
      destruct (split_run bl n a slot ch t Hs Hn0 Hl Hnn Hch Ht) as (s & ch' & Hloop & Hrest). fold F s0 in Hloop. rewrite Hloop. cbn [mbind option_bind]. eauto.
    + assert (split_loop n bl n (Nat.div2 bl) F F s0 = Some s0) as ->.
      { destruct n as [|n'] eqn:En; [lia|]. cbn [split_loop]. rewrite <-En in *.
        assert (arr s0 !! F = Some k) as -> by (cbn [arr s0]; by rewrite lookup_app_l by lia). cbn [mbind option_bind flag s0].
        change (my_hash_mask (hash_nr k) bl n) with (home bl n (hash_nr k)). by rewrite (proj2 (Nat.eqb_neq _ _) Hhome). }
      cbn [mbind option_bind]. apply Hkeep. by eapply split_none.
Qed.

End tables.
