(* ===== verification/HashTables.v ===== *)
(** * Theorems on hash tables

    The operations of [Hash] keep the invariant of a table ([HashChains]),
    always end, never leave the array, and implement a bag of records with
    keys. *)

From Stdlib Require Import ZifyNat ZifyBool.
From stdpp Require Import functions.
From S2P Require Import Prelude.
From S2P Require Import Charset.
From S2P Require Import Hash.
From S2P Require Import HashChains.
From S2P Require Import HashSplit.

(** ** Shrinking *)

Section shrink.
Context {A : Type} (bl n : nat) (Hs : sized bl n).
Implicit Types (a b : list (HASH_LINK A)) (R : list (Z * A)).

Lemma home_shrink x : 0 <= x -> (0 < n)%nat ->
  home bl n x = if decide (home bl (n + 1) x = n) then (n - Nat.div2 bl)%nat else home bl (n + 1) x.
Proof.
  intros Hx Hn. unfold home. pose proof (mask_lt bl n x Hs Hx Hn). rewrite mask_grow by done. destruct (moves bl n x) eqn:Hm.
  - rewrite decide_True by done. by apply moves_home.
  - rewrite decide_False by lia. done.
Qed.

Lemma take_delete R : length R = (n + 1)%nat -> take n R = delete n R.
Proof. intros Hl. rewrite delete_take_drop, drop_ge, app_nil_r; [done|lia]. Qed.

Context a (e : nat) (ch : nat -> list nat) (Hl : length a = (n + 1)%nat) (He : (e < n)%nat)
  (Hch : chains a (fun j => (j < n + 1)%nat /\ j <> e) (home bl (n + 1)) ch)
  (Hnn : forall j x, j <> e -> recs a !! j = Some x -> 0 <= x.1).

Let F := (n - Nat.div2 bl)%nat.

Lemma shrink_home j x : (j < n + 1)%nat /\ j <> e -> recs a !! j = Some x ->
  home bl n x.1 = if decide (home bl (n + 1) x.1 = n) then F else home bl (n + 1) x.1.
Proof. intros [_ Hj] Hx. apply home_shrink; [by eapply Hnn|lia]. Qed.

Lemma shrink_free : ~ ((e < n + 1)%nat /\ e <> e).
Proof. lia. Qed.

Lemma shrink_last : (n < n + 1)%nat /\ n <> e.
Proof. lia. Qed.

Lemma shrink_recs x : recs a !! n = Some x -> take n (<[e := x]> (recs a)) ≡ₚ delete e (recs a).
Proof.
  intros Hx. rewrite take_delete by (rewrite length_insert, length_recs; lia). apply perm_hole; [lia|rewrite length_recs; lia|done].
Qed.

(** The last link starts the chain that is joined, and its new place is free. *)
Lemma shrink_rehome k t : a !! n = Some k -> ch n = n :: t -> e = F ->
  exists ch', chains (<[e := k]> a) (fun j => (j < n)%nat) (home bl n) ch'.
Proof.
  intros Hk Ht HeF. pose proof (chains_rehome a _ _ (home bl n) ch n e k t Hch Ht shrink_free ltac:(lia) Hk) as Hr.
  eexists. eapply chains_ext; [| |apply Hr]; cbn; [intros j; lia|done|]. intros j x Hj Hx. rewrite (shrink_home j x Hj Hx). by rewrite HeF.
Qed.

(** The last link starts the chain that is joined, and the link at its new place
    belongs elsewhere. *)
Lemma shrink_displace k p t g l1 l2 : a !! n = Some k -> a !! F = Some p -> ch n = n :: t -> e <> F -> F <> n -> g <> n ->
  ch g = g :: l1 ++ F :: l2 ->
  exists ch', chains (<[F := k]> (relink (<[e := p]> a) (g :: l1) (Some e))) (fun j => (j < n)%nat) (home bl n) ch'.
Proof.
  intros Hk Hp Ht HeF HFn Hgn Hg. pose proof (chains_move a _ _ ch F e g p l1 l2 Hch shrink_free ltac:(lia) Hp Hg) as Hm.
  assert (HnF : n ∉ g :: l1).
  { intros Hin. apply Hgn, (chains_disjoint _ _ _ _ Hch g n n); [|rewrite Ht; by left].
    rewrite Hg. apply (elem_of_app (g :: l1)). by left. }
  eexists. eapply chains_ext; [| |eapply (chains_rehome _ _ _ (home bl n) _ n F k t Hm)]; cbn; [intros j; lia|done| |lia| | |].
  - by rewrite fn_lookup_insert_ne.
  - rewrite length_relink, length_insert. lia.
  - rewrite relink_lookup_out, list_lookup_insert_ne by (done || lia). done.
  - intros j x Hj Hx. rewrite recs_relink, recs_insert in Hx. destruct (decide (j = e)) as [->|Hje].
    + rewrite list_lookup_insert_eq in Hx by (rewrite length_recs; lia). injection Hx as <-. apply (shrink_home F); [lia|]. by rewrite recs_lookup, Hp.
    + rewrite list_lookup_insert_ne in Hx by done. apply (shrink_home j); [lia|done].
Qed.

(** The last link is inside another chain. *)
Lemma shrink_inside k g l1 l2 : a !! n = Some k -> ch g = g :: l1 ++ n :: l2 -> ch n = [] ->
  exists ch', chains (relink (<[e := k]> a) (g :: l1) (Some e)) (fun j => (j < n)%nat) (home bl n) ch'.
Proof.
  intros Hk Hg Hn. pose proof (chains_move a _ _ ch n e g k l1 l2 Hch shrink_free ltac:(lia) Hk Hg) as Hm.
  eexists. eapply (chains_home_ext _ _ (home bl (n + 1))); [|eapply chains_ext; [| |exact Hm]; cbn; [intros j; lia|done]].
  intros j x Hj Hx. rewrite recs_relink, recs_insert in Hx.
  assert (exists i, (i < n + 1)%nat /\ i <> e /\ recs a !! i = Some x) as (i & Hi & Hie & Hxi).
  { destruct (decide (j = e)) as [->|Hje].
    - rewrite list_lookup_insert_eq in Hx by (rewrite length_recs; lia). exists n. rewrite recs_lookup, Hk. split; [lia|]. split; [lia|done].
    - rewrite list_lookup_insert_ne in Hx by done. exists j. split; [lia|done]. }
  rewrite (shrink_home i x) by done. rewrite decide_False; [done|]. intros Hf.
  assert (i ∈ ch n) as Hin by (apply (ch_mem _ _ _ _ Hch); eauto). rewrite Hn in Hin. by apply not_elem_of_nil in Hin.
Qed.

(** The chain of the last index is joined to another one. *)
Lemma shrink_merge k p l1 l2 : a !! n = Some k -> a !! F = Some p -> F <> n ->
  (ch n = n :: l1 ++ F :: l2 /\ ch F = []) \/ (ch n = n :: l1 /\ ch F = F :: l2) ->
  exists ch', chains (<[F := set_next (Some e) p]> (relink (<[e := k]> a) (e :: l1) (head_or l2 None))) (fun j => (j < n)%nat) (home bl n) ch'.
Proof.
  intros Hk Hp HFn Hcase. eexists. eapply chains_ext; [| |eapply (chains_merge a _ _ (home bl n) ch n F e k p l1 l2 Hch)]; cbn;
    [intros j; lia|done|lia|lia|done|done|lia|done|exact shrink_home].
Qed.

Context (bl0 : nat)
  (Hbl0 : forall j x, j <> e -> recs a !! j = Some x -> my_hash_mask x.1 bl0 (n + 1) = home bl (n + 1) x.1).

Definition moved (r : option (list (HASH_LINK A))) : Prop :=
  exists b ch', r = Some b /\ length b = (n + 1)%nat /\ chains b (fun j => (j < n)%nat) (home bl n) ch' /\ take n (recs b) ≡ₚ delete e (recs a).

Lemma not_free j : j ∈ ch j -> j <> e.
Proof. intros Hj ->. by apply (ch_mem _ _ _ _ Hch) in Hj as [[_ ?] _]. Qed.

(** The last link is inside a chain that starts elsewhere. *)
Lemma move_last_inside k : a !! n = Some k -> home bl (n + 1) (hash_nr k) <> n -> moved (move_last bl0 bl n a e).
Proof.
  intros Hk Hf. set (g := home bl (n + 1) (hash_nr k)) in *. assert (HkR : recs a !! n = Some (rec_of k)) by (by rewrite recs_lookup, Hk).
  pose proof (shrink_home n (rec_of k) ltac:(lia) HkR) as Hhk. cbn [fst rec_of] in Hhk. fold g in Hhk. rewrite decide_False in Hhk by done.
  destruct (chains_split _ _ _ _ Hch n (rec_of k) shrink_last HkR Hf) as (l1 & l2 & Hg & Hn0). cbn [fst rec_of] in Hg. fold g in Hg.
  assert (Hgg : g ∈ ch g) by (rewrite Hg; by left). pose proof (not_free g Hgg) as Hge.
  apply (ch_mem _ _ _ _ Hch) in Hgg as ([Hgn _] & x & Hx & Hfx). pose proof (shrink_home g x ltac:(lia) Hx) as Hhx. rewrite decide_False in Hhx by lia.
  destruct (a !! g) as [p|] eqn:Hp; rewrite recs_lookup, Hp in Hx; [|done]. injection Hx as <-. cbn [fst rec_of] in Hfx, Hhx.
  pose proof (Hbl0 n (rec_of k) ltac:(lia) HkR) as Hbk. pose proof (Hbl0 g (rec_of p) Hge ltac:(by rewrite recs_lookup, Hp)) as Hbp. cbn [fst rec_of] in Hbk, Hbp.
  unfold move_last. rewrite (proj2 (Nat.eqb_neq e n)) by lia. rewrite Hk. cbn [mbind option_bind].
  change (my_hash_mask (hash_nr k) bl n) with (home bl n (hash_nr k)). rewrite Hhk, (proj2 (Nat.eqb_neq g e)), Hp by done. cbn [mbind option_bind].
  change (my_hash_mask (hash_nr p) bl n) with (home bl n (hash_nr p)). rewrite Hhx, Hfx, Nat.eqb_refl, Hbk, Hbp, Hfx. fold g.
  rewrite Nat.eqb_refl, (proj2 (Nat.eqb_neq g n)) by done. cbn [negb andb].
  pose proof (ch_nodup _ _ _ _ Hch g) as Hnd. pose proof (ch_linked _ _ _ _ Hch g) as Hlk. rewrite Hg in Hnd, Hlk.
  apply (linked_app a (g :: l1)) in Hlk as [Hlk _]. apply (NoDup_app (g :: l1)) in Hnd as (Hnd1 & Hnd2 & _).
  rewrite (movelink_spec _ l1); [|done|intros y Hy Hy'; simplify_eq; apply (Hnd2 y); [by right|by left]|].
  - destruct (shrink_inside k g l1 l2 Hk Hg Hn0) as [ch' Hch']. eexists _, ch'. split; [reflexivity|]. rewrite length_relink, length_insert.
    split; [done|]. split; [done|]. rewrite recs_relink, recs_insert. by apply shrink_recs.
  - apply linked_insert_ne; [|done]. intros Hin. assert (e ∈ ch g) as Heg by (rewrite Hg; apply (elem_of_app (g :: l1)); by left).
    apply (ch_mem _ _ _ _ Hch) in Heg as [[_ ?] _]. done.
Qed.

(** The last link starts a chain, which is joined to another one. *)
Lemma move_last_merges k p l1 l2 : a !! n = Some k -> home bl (n + 1) (hash_nr k) = n -> F <> e -> (F < n)%nat -> a !! F = Some p ->
  (ch n = n :: l1 ++ F :: l2 /\ ch F = [] /\ home bl (n + 1) (hash_nr p) = n)
  \/ (ch n = n :: l1 /\ ch F = F :: l2 /\ home bl (n + 1) (hash_nr p) = F) ->
  moved (move_last bl0 bl n a e).
Proof.
  intros Hk Hf HFe HFn Hp Hcase. assert (HkR : recs a !! n = Some (rec_of k)) by (by rewrite recs_lookup, Hk).
  assert (HpR : recs a !! F = Some (rec_of p)) by (by rewrite recs_lookup, Hp).
  pose proof (shrink_home n (rec_of k) ltac:(lia) HkR) as Hhk. pose proof (shrink_home F (rec_of p) ltac:(lia) HpR) as Hhp. cbn [fst rec_of] in Hhk, Hhp.
  rewrite decide_True in Hhk by done. assert (home bl n (hash_nr p) = F) as Hhp'.
  { rewrite Hhp. destruct Hcase as [(_ & _ & ->) | (_ & _ & ->)]; [by rewrite decide_True|rewrite decide_False by lia; done]. }
  pose proof (Hbl0 n (rec_of k) ltac:(lia) HkR) as Hbk. pose proof (Hbl0 F (rec_of p) HFe HpR) as Hbp. cbn [fst rec_of] in Hbk, Hbp.
  unfold move_last. rewrite (proj2 (Nat.eqb_neq e n)) by lia. rewrite Hk. cbn [mbind option_bind].
  change (my_hash_mask (hash_nr k) bl n) with (home bl n (hash_nr k)). rewrite Hhk, (proj2 (Nat.eqb_neq F e)), Hp by done. cbn [mbind option_bind].
  change (my_hash_mask (hash_nr p) bl n) with (home bl n (hash_nr p)). rewrite Hhp', Nat.eqb_refl, Hbk, Hbp, Hf, Nat.eqb_refl, andb_false_r. cbn [negb].
  assert (Hc2 : (ch n = n :: l1 ++ F :: l2 /\ ch F = []) \/ (ch n = n :: l1 /\ ch F = F :: l2)) by tauto.
  pose proof (merge_nodup a _ _ ch n F l1 l2 Hch ltac:(lia) Hc2) as Hnd. pose proof (merge_free a _ _ ch n F e l1 l2 Hch shrink_free Hc2) as Hfree.
  assert (Hlk : linked a (n :: l1) (if (n =? home bl (n + 1) (hash_nr p))%nat then Some F else None) /\ next p = head_or l2 None).
  { destruct Hcase as [(E1 & _ & ->) | (E1 & E2 & ->)].
    - pose proof (ch_linked _ _ _ _ Hch n) as Hl'. rewrite E1 in Hl'. apply (linked_app a (n :: l1)) in Hl' as [Hl1 [(p' & Hp' & Hnx) _]].
      rewrite Nat.eqb_refl. split; [done|]. assert (p' = p) as -> by congruence. exact Hnx.
    - pose proof (ch_linked _ _ _ _ Hch n) as Hl1. pose proof (ch_linked _ _ _ _ Hch F) as Hl2. rewrite E1 in Hl1. rewrite E2 in Hl2.
      destruct Hl2 as [(p' & Hp' & Hnx) _]. rewrite (proj2 (Nat.eqb_neq n F)) by lia. split; [done|].
      assert (p' = p) as -> by congruence. exact Hnx. }
  destruct Hlk as [[(k' & Hk' & Hnk) Hlk] ->]. assert (k' = k) as -> by congruence.
  apply NoDup_cons in Hnd as [_ (Hn2 & Hn3 & _)%NoDup_app].
  apply not_elem_of_cons in Hfree as [Hen1 [Hen2 _]%not_elem_of_app].
  assert (HF1 : F ∉ l1) by (intros Hj; apply (Hn3 F Hj); by left).
  rewrite (movelink_spec _ l1); [|by apply NoDup_cons| |].
  - cbn [mbind option_bind]. rewrite relink_lookup_out, list_lookup_insert_ne, Hp by (rewrite ?not_elem_of_cons; done). cbn [mbind option_bind].
    destruct (shrink_merge k p l1 l2 Hk Hp ltac:(lia) Hc2) as [ch' Hch']. eexists _, ch'. split; [reflexivity|].
    rewrite length_insert, length_relink, length_insert. split; [done|]. split; [done|]. rewrite recs_insert, recs_relink, recs_insert.
    rewrite list_insert_id; [by apply shrink_recs|]. rewrite list_lookup_insert_ne by done. by rewrite HpR.
  - intros y Hy. destruct (_ =? _)%nat; [|done]. intros Hy'. by simplify_eq.
  - apply linked_cons. rewrite list_lookup_insert_eq by lia. split; [eauto|]. by apply linked_insert_ne.
Qed.

(** The last link starts a chain, and the link at its new place belongs to a
    third one. *)
Lemma move_last_displaces k p t l1 l2 : let g := home bl (n + 1) (hash_nr p) in
  a !! n = Some k -> home bl (n + 1) (hash_nr k) = n -> ch n = n :: t -> F <> e -> (F < n)%nat -> a !! F = Some p ->
  g <> n -> g <> F -> ch g = g :: l1 ++ F :: l2 -> moved (move_last bl0 bl n a e).
Proof.
  intros g Hk Hf Ht HFe HFn Hp Hgn HgF Hg. assert (HkR : recs a !! n = Some (rec_of k)) by (by rewrite recs_lookup, Hk).
  assert (HpR : recs a !! F = Some (rec_of p)) by (by rewrite recs_lookup, Hp).
  pose proof (shrink_home n (rec_of k) shrink_last HkR) as Hhk. pose proof (shrink_home F (rec_of p) ltac:(lia) HpR) as Hhp. cbn [fst rec_of] in Hhk, Hhp.
  fold g in Hhp. rewrite decide_True in Hhk by done. rewrite decide_False in Hhp by done.
  unfold move_last. rewrite (proj2 (Nat.eqb_neq e n)) by lia. rewrite Hk. cbn [mbind option_bind].
  change (my_hash_mask (hash_nr k) bl n) with (home bl n (hash_nr k)). rewrite Hhk, (proj2 (Nat.eqb_neq F e)), Hp by done. cbn [mbind option_bind].
  change (my_hash_mask (hash_nr p) bl n) with (home bl n (hash_nr p)). rewrite Hhp, (proj2 (Nat.eqb_neq F g)) by done. cbn [negb].
  pose proof (ch_nodup _ _ _ _ Hch g) as Hnd. pose proof (ch_linked _ _ _ _ Hch g) as Hlk. rewrite Hg in Hnd, Hlk.
  apply (linked_app a (g :: l1)) in Hlk as [Hlk _]. apply (NoDup_app (g :: l1)) in Hnd as (Hnd1 & Hnd2 & _).
  assert (HF1 : F ∉ g :: l1) by (intros Hj; apply (Hnd2 F Hj); by left).
  assert (He1 : e ∉ g :: l1).
  { intros Hj. assert (e ∈ ch g) as Heg by (rewrite Hg; apply (elem_of_app (g :: l1)); by left). apply (ch_mem _ _ _ _ Hch) in Heg as [[_ ?] _]. done. }
  rewrite (movelink_spec _ l1); [|done|intros y Hy Hy'; simplify_eq; by apply HF1; right|by repeat apply linked_insert_ne].
  destruct (shrink_displace k p t g l1 l2 Hk Hp Ht ltac:(done) ltac:(lia) Hgn Hg) as [ch' Hch']. rewrite relink_insert_comm by done.
  eexists _, ch'. split; [reflexivity|]. rewrite length_insert, length_relink, length_insert. split; [done|]. split; [done|].
  rewrite recs_insert, recs_relink, recs_insert. rewrite take_delete by (rewrite !length_insert, length_recs; lia).
  rewrite (perm_hole _ F n); [|lia|rewrite length_insert, length_recs; lia|by rewrite list_lookup_insert_ne by lia].
  apply perm_hole; [done|rewrite length_recs; lia|done].
Qed.

(** [move_last] when another index is free. *)
Lemma move_last_moves : moved (move_last bl0 bl n a e).
Proof.
  destruct (lookup_lt_is_Some_2 a n ltac:(lia)) as [k Hk]. assert (HkR : recs a !! n = Some (rec_of k)) by (by rewrite recs_lookup, Hk).
  destruct (decide (home bl (n + 1) (hash_nr k) = n)) as [Hf|Hf]; [|by eapply move_last_inside].
  pose proof (shrink_home n (rec_of k) shrink_last HkR) as Hhk. cbn [fst rec_of] in Hhk. rewrite decide_True in Hhk by done.
  assert (HFn : (F < n)%nat) by (rewrite <-Hhk; apply mask_lt; [done|by apply (Hnn n (rec_of k)); [lia|]|lia]).
  destruct (chains_home _ _ _ _ Hch n (rec_of k) shrink_last HkR) as (t & Ht & _). cbn [fst rec_of] in Ht. rewrite Hf in Ht.
  destruct (decide (F = e)) as [HFe|HFe].
  - unfold move_last. rewrite (proj2 (Nat.eqb_neq e n)) by lia. rewrite Hk. cbn [mbind option_bind].
    change (my_hash_mask (hash_nr k) bl n) with (home bl n (hash_nr k)). rewrite Hhk, HFe, Nat.eqb_refl.
    destruct (shrink_rehome k t Hk Ht (eq_sym HFe)) as [ch' Hch']. eexists _, ch'. split; [reflexivity|]. rewrite length_insert.
    split; [done|]. split; [done|]. rewrite recs_insert. by apply shrink_recs.
  - destruct (lookup_lt_is_Some_2 a F ltac:(lia)) as [p Hp]. assert (HpR : recs a !! F = Some (rec_of p)) by (by rewrite recs_lookup, Hp).
    assert (HDF : (F < n + 1)%nat /\ F <> e) by lia.
    destruct (decide (home bl (n + 1) (hash_nr p) = F)) as [HpF|HpF].
    { destruct (chains_home _ _ _ _ Hch F (rec_of p) HDF HpR) as (l2 & Hl2 & _). cbn [fst rec_of] in Hl2. rewrite HpF in Hl2.
      eapply (move_last_merges k p t l2); try done. right. done. }
    destruct (chains_split _ _ _ _ Hch F (rec_of p) HDF HpR HpF) as (l1 & l2 & Hl1 & HF0). cbn [fst rec_of] in Hl1.
    destruct (decide (home bl (n + 1) (hash_nr p) = n)) as [Hpn|Hpn].
    { rewrite Hpn in Hl1. eapply (move_last_merges k p l1 l2); try done. left. done. }
    by eapply move_last_displaces.
Qed.

End shrink.

Lemma recs_take {A} n (a : list (HASH_LINK A)) : recs (take n a) = take n (recs a).
Proof. unfold recs. by rewrite firstn_map. Qed.

Lemma move_last_spec {A} (bl0 bl n : nat) (a : list (HASH_LINK A)) (e : nat) ch :
  sized bl n -> length a = (n + 1)%nat -> (e < n + 1)%nat ->
  chains a (fun j => (j < n + 1)%nat /\ j <> e) (home bl (n + 1)) ch ->
  (forall j x, j <> e -> recs a !! j = Some x -> 0 <= x.1 /\ my_hash_mask x.1 bl0 (n + 1) = home bl (n + 1) x.1) ->
  exists b ch', move_last bl0 bl n a e = Some b /\ length b = (n + 1)%nat /\ chains b (fun j => (j < n)%nat) (home bl n) ch'
    /\ take n (recs b) ≡ₚ delete e (recs a).
Proof.
  intros Hs Hl He Hch Hx. destruct (decide (e = n)) as [->|Hen].
  - unfold move_last. rewrite Nat.eqb_refl. exists a, ch. split_and!; [done|done| |by rewrite take_delete by (by rewrite length_recs)].
    apply (chains_home_ext _ _ (home bl (n + 1))).
    + intros j x Hj Hjx. destruct (Hx j x ltac:(lia) Hjx) as [Hnn _]. rewrite (home_shrink bl n) by (done || lia).
      rewrite decide_False; [done|]. intros Hf. assert (j ∈ ch n) as Hin by (apply (ch_mem _ _ _ _ Hch); split; [lia|]; eauto).
      rewrite (chains_free _ _ _ _ Hch n) in Hin by (by intros [_ ?]). by apply not_elem_of_nil in Hin.
    + eapply chains_ext; [|done|exact Hch]. intros j. cbn. lia.
  - apply (move_last_moves bl n Hs a e ch Hl ltac:(lia) Hch); intros j x Hj Hjx; by destruct (Hx j x Hj Hjx).
Qed.

(** ** The invariant *)

(** What the comparison and the hash function of a character set promise: keys
    that compare equal have the same hash value. *)
Class KeyLaws (coll : list Z -> list Z -> Z) (hash_function : list Z -> Z) : Prop := {
  hash_range k : 0 <= hash_function k < 2 ^ 32;
  coll_refl k : coll k k = 0;
  coll_hash k k' : length k = length k' -> coll k k' = 0 -> hash_function k = hash_function k'
}.

Section hash_tables.
Context {A : Type} `{EqDecision A} (coll : list Z -> list Z -> Z) (hash_function : list Z -> Z) `{!KeyLaws coll hash_function}.
Implicit Types (h : HASH A) (key : A -> list Z) (a : list (HASH_LINK A)).

Definition contents h : list A := map data (array h).

Lemma contents_recs h : contents h = map snd (recs (array h)).
Proof. unfold contents, recs. by rewrite map_map. Qed.

Record table key h : Prop := {
  tb_sized : sized (blength h) (records h);
  tb_length : length (array h) = records h;
  tb_hash j x : recs (array h) !! j = Some x -> x.1 = hash_function (key x.2);
  tb_chains : exists ch, chains (array h) (fun j => (j < records h)%nat) (home (blength h) (records h)) ch
}.

Lemma table_nonneg key h : table key h -> nonneg (array h).
Proof.
  intros Ht. apply Forall_lookup_2. intros j x Hx. rewrite (tb_hash _ _ Ht _ _ Hx). apply hash_range.
Qed.

(** ** Search *)

Definition same_key (k1 k2 : list Z) : Prop := length k1 = length k2 /\ coll k1 k2 = 0.

#[global] Instance same_key_dec k1 k2 : Decision (same_key k1 k2).
Proof. unfold same_key. apply _. Defined.

(** The arguments of a search: the key with its length, or a key of the fixed
    length of the table and zero. *)
Definition search_args key h (k : list Z) (len : nat) : Prop :=
  (len = length k /\ len <> O) \/ (len = O /\ length k = key_length h /\ forall r, r ∈ contents h -> length (key r) = key_length h).

Lemma search_args_hash key h k len : search_args key h k len -> hash_of_key hash_function h k len = hash_function k.
Proof.
  unfold hash_of_key. intros [[-> Hne] | (-> & Hl & _)].
  - rewrite (proj2 (Nat.eqb_neq _ _) Hne). cbn [negb]. by rewrite take_ge.
  - cbn [Nat.eqb negb]. rewrite take_ge; [done|lia].
Qed.

Lemma hash_matches_spec key h k len pos : search_args key h k len -> data pos ∈ contents h ->
  hash_matches coll key k len pos = bool_decide (same_key (key (data pos)) k).
Proof.
  intros Hk Hin. apply eq_bool_prop_intro. rewrite bool_decide_spec. unfold hash_matches, same_key.
  rewrite andb_True, negb_True, andb_True, !negb_True, !Is_true_true, Z.eqb_eq, !Nat.eqb_eq.
  destruct Hk as [[-> Hne] | (-> & Hl & Hall)].
  - split; [intros [Hn Hc]|intros [Hl Hc]].
    + destruct (decide (length k = length (key (data pos)))) as [He|He]; [|tauto]. split; [done|]. by rewrite take_ge in Hc by lia.
    + rewrite take_ge by lia. split; [|done]. intros [_ Hx]. by rewrite Hl in Hx.
  - specialize (Hall _ Hin). split; [intros [_ Hc]; split; [lia|]|intros [_ Hc]; split; [tauto|]]; by rewrite take_ge in * by lia.
Qed.

Section search.
Context key h (Ht : table key h) (k : list Z) (len : nat) (Hk : search_args key h k len).

(** Whether the record at an index has the key. *)
Definition hit (j : nat) : bool :=
  match array h !! j with Some pos => bool_decide (same_key (key (data pos)) k) | None => false end.

Lemma hit_matches j pos : array h !! j = Some pos -> hash_matches coll key k len pos = hit j.
Proof.
  intros Hj. unfold hit. rewrite Hj. apply (hash_matches_spec key h); [done|].
  unfold contents. apply list_elem_of_fmap. eexists. split; [done|]. by eapply list_elem_of_lookup_2.
Qed.

Lemma next_loop_spec l : forall fuel, linked (array h) l None -> (length l <= fuel)%nat ->
  next_loop coll fuel key k len h (head_or l None) = Some (head (List.filter hit l)).
Proof.
  induction l as [|j l IH]; intros fuel Hl Hlen; [by destruct fuel|]. destruct fuel as [|fuel]; [cbn in Hlen; lia|].
  destruct Hl as [(pos & Hj & Hn) Hl]. cbn [head_or next_loop List.filter]. rewrite Hj. cbn [mbind option_bind].
  rewrite (hit_matches j) by done. destruct (hit j); [done|]. rewrite Hn. apply IH; [done|cbn in Hlen; lia].
Qed.

Lemma first_loop_spec l : forall fuel j flag, linked (array h) (j :: l) None -> (length l < fuel)%nat ->
  (flag = true -> forall pos, array h !! j = Some pos -> my_hash_rec_mask pos (blength h) (records h) = j) ->
  first_loop coll fuel key k len h flag j = Some (head (List.filter hit (j :: l))).
Proof.
  induction l as [|j' l IH]; intros fuel j flag [(pos & Hj & Hn) Hl] Hlen Hflag; (destruct fuel as [|fuel]; [cbn in Hlen; lia|]);
    cbn [first_loop List.filter]; rewrite Hj; cbn [mbind option_bind]; rewrite (hit_matches j) by done; (destruct (hit j); [done|]);
    (assert (flag && negb (my_hash_rec_mask pos (blength h) (records h) =? j)%nat = false) as ->
      by (destruct flag; [rewrite (Hflag eq_refl pos Hj), Nat.eqb_refl|]; done)); rewrite Hn; [done|].
  apply IH; [done|cbn in Hlen; lia|done].
Qed.

(** The chain that is searched, and that no other one has the key. *)
Definition home_of : nat := my_hash_mask (hash_function k) (blength h) (records h).

Lemma hit_home ch j : chains (array h) (fun j => (j < records h)%nat) (home (blength h) (records h)) ch -> hit j = true -> j ∈ ch home_of.
Proof.
  intros Hch. unfold hit. destruct (array h !! j) as [pos|] eqn:Hj; [|done]. intros [Hl Hc]%bool_decide_eq_true.
  apply (ch_mem _ _ _ _ Hch). assert (recs (array h) !! j = Some (rec_of pos)) as Hr by (by rewrite recs_lookup, Hj).
  split; [rewrite <-(tb_length _ _ Ht); by eapply lookup_lt_Some|]. exists (rec_of pos). split; [done|].
  unfold home, home_of. by rewrite (tb_hash _ _ Ht _ _ Hr), (coll_hash (key (data pos)) k).
Qed.

Lemma search_first ch : chains (array h) (fun j => (j < records h)%nat) (home (blength h) (records h)) ch ->
  my_hash_first_from_hash_value coll key h (hash_function k) k len = Some (head (List.filter hit (ch home_of))).
Proof.
  intros Hch. unfold my_hash_first_from_hash_value. fold home_of. pose proof (tb_sized _ _ Ht) as Hs.
  destruct (Nat.eqb_spec (records h) 0) as [H0|H0].
  { destruct (ch home_of) as [|x l] eqn:E; [done|]. assert (x ∈ ch home_of) as Hx by (rewrite E; by left).
    apply (ch_mem _ _ _ _ Hch) in Hx as [Hx _]. lia. }
  assert (Hlt : (home_of < records h)%nat) by (apply mask_lt; [done|apply hash_range|lia]).
  destruct (lookup_lt_is_Some_2 (array h) home_of) as [pos Hpos]; [by rewrite (tb_length _ _ Ht)|].
  assert (Hr : recs (array h) !! home_of = Some (rec_of pos)) by (by rewrite recs_lookup, Hpos).
  destruct (ch home_of) as [|x l] eqn:E.
  - destruct (records h) as [|n] eqn:En; [lia|]. cbn [first_loop]. rewrite Hpos. cbn [mbind option_bind]. rewrite (hit_matches home_of) by done.
    destruct (hit home_of) eqn:Eh; [apply (hit_home ch) in Eh; [rewrite E in Eh; by apply not_elem_of_nil in Eh|by rewrite En]|].
    rewrite En. destruct (Nat.eqb_spec (my_hash_rec_mask pos (blength h) (S n)) home_of) as [Hm|Hm]; [|done]. exfalso.
    assert (home_of ∈ ch home_of) as Hx by (apply (ch_mem _ _ _ _ Hch); split; [done|]; eauto). rewrite E in Hx. by apply not_elem_of_nil in Hx.
  - pose proof (ch_head _ _ _ _ Hch _ _ _ E) as ->. pose proof (ch_linked _ _ _ _ Hch home_of) as Hl. pose proof (ch_nodup _ _ _ _ Hch home_of) as Hnd.
    rewrite E in Hl, Hnd. apply first_loop_spec; [done| |].
    + pose proof (NoDup_length_lt _ _ Hnd (fun y => linked_lt (array h) _ None y Hl)) as Hlen. rewrite (tb_length _ _ Ht) in Hlen. cbn in Hlen. lia.
    + intros _ pos' Hp'. simplify_eq. destruct (proj1 (ch_mem _ _ _ _ Hch home_of home_of)) as (_ & x & Hx & Hf); [rewrite E; by left|].
      rewrite Hr in Hx. injection Hx as <-. done.
Qed.

(** Behind a link that has been found, the search goes on. *)
Lemma search_next ch l1 j l2 : chains (array h) (fun j => (j < records h)%nat) (home (blength h) (records h)) ch ->
  ch home_of = l1 ++ j :: l2 -> my_hash_next coll key h k len (Some j) = Some (head (List.filter hit l2)).
Proof.
  intros Hch E. pose proof (ch_linked _ _ _ _ Hch home_of) as Hl. pose proof (ch_nodup _ _ _ _ Hch home_of) as Hnd. rewrite E in Hl, Hnd.
  apply linked_app in Hl as [_ [(pos & Hj & Hn) Hl]]. cbn [my_hash_next]. rewrite Hj. cbn [mbind option_bind]. rewrite Hn.
  apply NoDup_app in Hnd as (_ & _ & (_ & Hnd)%NoDup_cons). apply next_loop_spec; [done|].
  rewrite <-(tb_length _ _ Ht). apply NoDup_length_lt; [done|]. intros y. by eapply linked_lt.
Qed.

(** All records that [my_hash_first] and [my_hash_next] deliver. *)
Fixpoint all_from (fuel : nat) (current_record : option nat) : option (list A) :=
  match current_record with
  | None => Some []
  | Some i =>
      match fuel with
      | O => None
      | S fuel' =>
          pos ← array h !! i;
          found ← my_hash_next coll key h k len (Some i);
          rest ← all_from fuel' found;
          Some (data pos :: rest)
      end
  end.

Definition record_at (j : nat) : option A := data <$> array h !! j.

Lemma all_from_spec ch l : chains (array h) (fun j => (j < records h)%nat) (home (blength h) (records h)) ch ->
  forall l1 fuel, ch home_of = l1 ++ l -> (length l <= fuel)%nat ->
  all_from fuel (head (List.filter hit l)) = Some (omap record_at (List.filter hit l)).
Proof.
  intros Hch. induction l as [|j l IH]; intros l1 fuel E Hlen; [by destruct fuel|]. cbn [List.filter]. destruct (hit j) eqn:Ej.
  - destruct fuel as [|fuel]; [cbn in Hlen; lia|]. cbn [head all_from omap list_omap]. unfold record_at at 1.
    destruct (array h !! j) as [pos|] eqn:Hj; [|by unfold hit in Ej; rewrite Hj in Ej]. cbn [mbind option_bind fmap option_fmap option_map].
    rewrite (search_next ch l1 j l) by done. cbn [mbind option_bind]. rewrite (IH (l1 ++ [j])); [done| |cbn in Hlen; lia].
    by rewrite <-app_assoc.
  - apply (IH (l1 ++ [j])); [by rewrite <-app_assoc|cbn in Hlen; lia].
Qed.

Lemma hits_records l : (forall j, j ∈ l -> (j < length (array h))%nat) ->
  omap record_at (List.filter hit l) = filter (fun r => same_key (key r) k) (omap record_at l).
Proof.
  induction l as [|j l IH]; intros Hl; [done|]. cbn [List.filter omap list_omap]. unfold hit at 1, record_at at 2.
  destruct (lookup_lt_is_Some_2 (array h) j) as [pos Hj]; [apply Hl; by left|]. rewrite Hj. cbn [fmap option_fmap option_map].
  specialize (IH (fun y Hy => Hl y (proj2 (elem_of_cons _ _ _) (or_intror Hy)))).
  destruct (bool_decide_reflect (same_key (key (data pos)) k)) as [Hs|Hs].
  - rewrite filter_cons_True by done. cbn [omap list_omap]. unfold record_at at 1. rewrite Hj. cbn. by rewrite IH.
  - by rewrite filter_cons_False.
Qed.

End search.

Lemma records_all h : omap (record_at h) (seq 0 (length (array h))) = contents h.
Proof.
  unfold contents, record_at. induction (array h) as [|pos a IH] using rev_ind; [done|]. rewrite length_app, seq_app, omap_app, map_app.
  f_equal; [rewrite <-IH|].
  - apply list_omap_ext, Forall2_same_length_lookup_2; [done|]. intros i x y Hx Hy. simplify_eq. apply lookup_seq in Hx as [-> Hi].
    by rewrite lookup_app_l by lia.
  - cbn. by rewrite lookup_app_r, Nat.sub_diag by lia.
Qed.

Lemma filter_bool {B} (f : B -> bool) l : List.filter f l = filter (fun x => f x = true) l.
Proof. induction l as [|x l IH]; [done|]. cbn [List.filter]. rewrite filter_cons, IH. by destruct (f x), (decide _). Qed.

(** The hits of the chain are all records with the key. *)
Lemma hits_contents key h k ch : table key h ->
  chains (array h) (fun j => (j < records h)%nat) (home (blength h) (records h)) ch ->
  omap (record_at h) (List.filter (hit key h k) (ch (home_of h k))) ≡ₚ filter (fun r => same_key (key r) k) (contents h).
Proof.
  intros Ht Hch. rewrite <-records_all, <-hits_records by (intros j Hj%elem_of_seq; lia). rewrite !filter_bool.
  apply omap_Permutation, NoDup_Permutation.
  - apply NoDup_filter, (ch_nodup _ _ _ _ Hch).
  - apply NoDup_filter, NoDup_seq.
  - intros j. rewrite !list_elem_of_filter, elem_of_seq, (tb_length _ _ Ht). split; intros [Hh Hj]; (split; [done|]).
    + apply (ch_mem _ _ _ _ Hch) in Hj as [Hj _]. lia.
    + by eapply hit_home.
Qed.

(** [my_hash_first] and [my_hash_next] deliver exactly the records with the
    key. *)
Lemma search_all key h k len : table key h -> search_args key h k len ->
  exists l, (found ← my_hash_first coll hash_function key h k len; all_from key h k len (records h) found) = Some l
    /\ l ≡ₚ filter (fun r => same_key (key r) k) (contents h).
Proof.
  intros Ht Hk. destruct (tb_chains _ _ Ht) as [ch Hch]. unfold my_hash_first.
  rewrite (search_args_hash key) by done. rewrite (search_first key h Ht k len Hk ch) by done. cbn [mbind option_bind].
  rewrite (all_from_spec key h Ht k len Hk ch _ Hch []); [|done|].
  - eexists. split; [done|]. by apply hits_contents.
  - rewrite <-(tb_length _ _ Ht). apply NoDup_length_lt; [apply (ch_nodup _ _ _ _ Hch)|]. intros j Hj.
    apply (ch_mem _ _ _ _ Hch) in Hj as [Hj _]. rewrite (tb_length _ _ Ht). lia.
Qed.

Lemma table_search_spec key h k len : table key h -> search_args key h k len ->
  exists o, my_hash_first_from_hash_value coll key h (hash_function k) k len = Some o
    /\ match o with
       | None => forall r, r ∈ contents h -> ~ same_key (key r) k
       | Some i => exists pos, array h !! i = Some pos /\ same_key (key (data pos)) k
       end.
Proof.
  intros Ht Hk. destruct (tb_chains _ _ Ht) as [ch Hch]. rewrite (search_first key h Ht k len Hk ch) by done. eexists. split; [done|].
  pose proof (hits_contents key h k ch Ht Hch) as Hp. destruct (List.filter (hit key h k) (ch (home_of h k))) as [|i l] eqn:E; cbn [head].
  - intros r Hr Hs. assert (r ∈ filter (fun r => same_key (key r) k) (contents h)) as Hin by (by apply list_elem_of_filter).
    rewrite <-Hp in Hin. by apply not_elem_of_nil in Hin.
  - assert (i ∈ List.filter (hit key h k) (ch (home_of h k))) as Hi by (rewrite E; by left).
    rewrite filter_bool, list_elem_of_filter in Hi. destruct Hi as [Hi _]. unfold hit in Hi.
    destruct (array h !! i) as [pos|]; [|done]. exists pos. split; [done|]. by apply bool_decide_eq_true in Hi.
Qed.

(** ** Insertion *)

Lemma contents_perm a b r x : recs b ≡ₚ (x, r) :: recs a -> map data b ≡ₚ r :: map data a.
Proof.
  intros Hp. assert (forall c : list (HASH_LINK A), map data c = map snd (recs c)) as Hs by (intros c; unfold recs; by rewrite map_map).
  rewrite !Hs, Hp. done.
Qed.

Lemma insert_spec key slot h r : table key h -> key r <> [] ->
  (unique h = false \/ forall r', r' ∈ contents h -> ~ same_key (key r') (key r)) ->
  exists h', my_hash_insert coll hash_function key (Some slot) h r = Some (false, h') /\ table key h'
    /\ contents h' ≡ₚ r :: contents h /\ (key_length h', unique h', free h', freed h') = (key_length h, unique h, free h, freed h).
Proof.
  intros Ht Hne Hu. unfold my_hash_insert. cbn zeta.
  assert ((if unique h then my_hash_first_from_hash_value coll key h (hash_function (key r)) (key r) (length (key r)) else Some None) = Some None) as ->.
  { destruct (unique h) eqn:Eu; [|done]. destruct Hu as [|Hu]; [done|].
    destruct (table_search_spec key h (key r) (length (key r)) Ht) as (o & -> & Ho); [left; split; [done|]; by destruct (key r)|].
    destruct o as [i|]; [|done]. destruct Ho as (pos & Hi & Hs). destruct (Hu (data pos)); [|done].
    apply list_elem_of_fmap. eexists. split; [done|]. by eapply list_elem_of_lookup_2. }
  cbn [mbind option_bind]. destruct (tb_chains _ _ Ht) as [ch Hch]. pose proof (tb_sized _ _ Ht) as Hs.
  destruct (split_chain_spec h slot ch Hs (tb_length _ _ Ht) (table_nonneg _ _ Ht) Hch) as (s & ch1 & -> & Hlen & He & Hch1 & Hp). cbn [mbind option_bind].
  destruct (place_record_spec (blength h) (records h + 1) (arr s) (empty s) (hash_function (key r)) r ch1) as (b & ch2 & -> & Hlb & Hch2 & Hp2).
  { by rewrite Hlen. }
  { by rewrite Hlen. }
  { rewrite Hlen. apply mask_lt_grow; [done|apply hash_range]. }
  cbn [mbind option_bind]. rewrite Hp in Hp2. eexists. split; [reflexivity|].
  split; [|split; [by apply (contents_perm _ _ _ _ Hp2)|done]].
  assert (Hhash : forall j x, recs b !! j = Some x -> x.1 = hash_function (key x.2)).
  { intros j x Hx. apply list_elem_of_lookup_2 in Hx. rewrite Hp2 in Hx. apply elem_of_cons in Hx as [-> | Hx]; [done|].
    apply list_elem_of_lookup_1 in Hx as [i Hx]. by apply (tb_hash _ _ Ht i). }
  split; cbn [blength records array].
  - by apply sized_succ.
  - congruence.
  - done.
  - exists ch2. eapply chains_home_ext; [|rewrite Hlen in Hch2; exact Hch2]. intros j x _ Hx. unfold home. apply mask_resize; [done|].
    rewrite (Hhash j x Hx). apply hash_range.
Qed.

(** ** Removal *)

Lemma find_record_spec a r l : forall fuel x g, linked a (x :: l) None -> (length l < fuel)%nat ->
  (find_record fuel a r g x = Some None /\ forall j p, j ∈ x :: l -> a !! j = Some p -> data p <> r)
  \/ exists l1 j l2 p, x :: l = l1 ++ j :: l2 /\ a !! j = Some p /\ data p = r
     /\ find_record fuel a r g x = Some (Some (match last l1 with Some q => Some q | None => g end, j)).
Proof.
  induction l as [|y l IH]; intros fuel x g [(p & Hp & Hnx) Hl] Hlen; (destruct fuel as [|fuel]; [cbn in Hlen; lia|]); cbn [find_record];
    rewrite Hp; cbn [mbind option_bind]; (destruct (bool_decide_reflect (data p = r)) as [Hr|Hr]; [right; eexists [], x, _, p; split; [reflexivity|done]|]); rewrite Hnx.
  - left. split; [done|]. intros j p' ->%list_elem_of_singleton Hp'. congruence.
  - destruct (IH fuel y (Some x) Hl ltac:(cbn in Hlen; lia)) as [[-> Hno] | (l1 & j & l2 & p' & E & Hp' & Hr' & ->)].
    + left. split; [done|]. intros j p' [->|Hj]%elem_of_cons Hp'; [congruence|by eapply Hno].
    + right. exists (x :: l1), j, l2, p'. split; [by rewrite E|]. split; [done|]. split; [done|]. destruct l1 as [|z l1]; [done|].
      rewrite (last_cons_cons x z). destruct (last (z :: l1)) eqn:El; [done|]. by apply last_None in El.
Qed.

Lemma unlink_spec a D f ch (idx j : nat) l1 l2 p : chains a D f ch -> ch idx = l1 ++ j :: l2 -> a !! j = Some p ->
  exists b e ch', unlink a (last l1) j = Some (b, e) /\ length b = length a /\ D e
    /\ chains b (fun i => D i /\ i <> e) f ch' /\ rec_of p :: delete e (recs b) ≡ₚ recs a /\ (e = j -> b !! e = Some p).
Proof.
  intros Hch E Hp. unfold unlink. rewrite Hp. cbn [mbind option_bind]. pose proof (ch_linked _ _ _ _ Hch idx) as Hl. rewrite E in Hl.
  assert (HDj : forall i, i ∈ l1 ++ j :: l2 -> D i) by (intros i Hi; rewrite <-E in Hi; by apply (ch_mem _ _ _ _ Hch) in Hi as [? _]).
  assert (HpR : recs a !! j = Some (rec_of p)) by (by rewrite recs_lookup, Hp).
  destruct l1 as [|x l1 _] using rev_ind.
  - pose proof (ch_head _ _ _ _ Hch _ _ _ E) as ->. cbn [last]. destruct Hl as [(p' & Hp' & Hnx) Hl]. assert (p' = p) as -> by congruence.
    rewrite Hnx. destruct l2 as [|e l2].
    + eexists _, _, _. split; [reflexivity|]. split; [done|]. split; [apply HDj; by left|]. split; [by apply chains_unlink_only|].
      split; [symmetry; by apply delete_Permutation|done].
    + destruct Hl as [(q & Hq & _) _]. cbn [head_or]. rewrite Hq. cbn [mbind option_bind]. eexists _, e, _. split; [reflexivity|].
      rewrite length_insert. split; [done|]. split; [apply HDj; by right; left|]. split; [by eapply chains_unlink_head|].
      pose proof (ch_nodup _ _ _ _ Hch idx) as Hnd. rewrite E in Hnd. apply NoDup_cons in Hnd as [Hie _].
      assert (idx <> e) by (intros ->; apply Hie; by left). split; [|done].
      rewrite recs_insert, (perm_hole _ idx e); [symmetry; by apply delete_Permutation|done|rewrite length_recs; by eapply lookup_lt_Some|by rewrite recs_lookup, Hq].
  - rewrite last_snoc. apply linked_app in Hl as [Hl1 [(p' & Hp' & Hnx) Hl2]]. assert (p' = p) as -> by congruence.
    destruct (linked_lookup _ _ _ x Hl1) as [q Hq]; [apply elem_of_app; right; by left|]. rewrite Hq. cbn [mbind option_bind].
    assert (exists l0, l1 ++ [x] = idx :: l0) as [l0 El].
    { destruct l1 as [|y l1]; cbn [app] in E |- *; pose proof (ch_head _ _ _ _ Hch _ _ _ E) as ->; eauto. }
    exists (<[x := set_next (next p) q]> a), j, (<[idx := idx :: l0 ++ l2]> ch). split; [done|]. rewrite length_insert. split; [done|].
    split; [apply HDj; rewrite elem_of_app; right; by left|]. pose proof (ch_nodup _ _ _ _ Hch idx) as Hnd. rewrite E in Hnd.
    assert (x <> j) by (intros ->; apply NoDup_app in Hnd as (_ & Hnd & _); apply (Hnd j); [apply elem_of_app; right|]; by left).
    rewrite list_lookup_insert_ne by done. rewrite <-(alter_insert_eq (set_next (next p)) x q) by done.
    rewrite <-(relink_snoc a l1 x), El, Hnx. rewrite El in E. split; [by apply chains_unlink|].
    split; [|done]. rewrite recs_relink. symmetry. by apply delete_Permutation.
Qed.

(** The links from an index on: all of its chain, or the end of another one. *)
Lemma walk_from h ch (idx : nat) : length (array h) = records h -> (idx < records h)%nat ->
  chains (array h) (fun j => (j < records h)%nat) (home (blength h) (records h)) ch ->
  exists l, linked (array h) (idx :: l) None /\ NoDup (idx :: l) /\ (length l < records h)%nat /\ (forall j, j ∈ ch idx -> ch idx = idx :: l).
Proof.
  intros Hlh Hidx Hch. destruct (lookup_lt_is_Some_2 (array h) idx) as [q Hq]; [by rewrite Hlh|].
  destruct (chains_home _ _ _ _ Hch idx (rec_of q) Hidx) as (l & El & Hin); [by rewrite recs_lookup, Hq|].
  set (g := home (blength h) (records h) (rec_of q).1) in *. apply list_elem_of_split in Hin as (l0 & l' & El'). rewrite El' in El.
  pose proof (ch_linked _ _ _ _ Hch g) as Hlk. pose proof (ch_nodup _ _ _ _ Hch g) as Hnd. rewrite El in Hlk, Hnd.
  apply linked_app in Hlk as [_ Hlk]. apply NoDup_app in Hnd as (_ & Hnd0 & Hnd). exists l'. split_and!; [done|done| |].
  - pose proof (NoDup_length_lt _ _ Hnd (fun y => linked_lt (array h) _ None y Hlk)) as Hlen. rewrite Hlh in Hlen. cbn in Hlen. lia.
  - intros j Hj. destruct (ch idx) as [|x t] eqn:Ei; [by apply not_elem_of_nil in Hj|]. pose proof (ch_head _ _ _ _ Hch _ _ _ Ei) as ->.
    assert (idx = g) as Hg by (apply (chains_disjoint _ _ _ _ Hch idx g idx); [rewrite Ei; by left|rewrite El; apply elem_of_app; right; by left]).
    rewrite <-Hg, Ei in El. destruct l0 as [|z l0]; [done|]. injection El as <- _. destruct (Hnd0 idx); by left.
Qed.

(** The search for a record starts at the right chain, or at a link that belongs
    elsewhere. *)
Lemma find_located key h r ch : table key h -> (0 < records h)%nat ->
  chains (array h) (fun j => (j < records h)%nat) (home (blength h) (records h)) ch ->
  let idx := my_hash_mask (hash_function (key r)) (blength h) (records h) in
  (find_record (records h) (array h) r None idx = Some None /\ r ∉ contents h)
  \/ exists l1 j l2 p, ch idx = l1 ++ j :: l2 /\ array h !! j = Some p /\ data p = r
     /\ find_record (records h) (array h) r None idx = Some (Some (last l1, j)).
Proof.
  intros Ht Hn Hch idx. assert (Hidx : (idx < records h)%nat) by (apply mask_lt; [apply (tb_sized _ _ Ht)|apply hash_range|done]).
  assert (Hhome : forall j p, array h !! j = Some p -> data p = r -> j ∈ ch idx).
  { intros j p Hp <-. apply (ch_mem _ _ _ _ Hch). assert (recs (array h) !! j = Some (rec_of p)) as Hr by (by rewrite recs_lookup, Hp).
    split; [rewrite <-(tb_length _ _ Ht); by eapply lookup_lt_Some|]. exists (rec_of p). split; [done|].
    unfold home. by rewrite (tb_hash _ _ Ht _ _ Hr). }
  destruct (walk_from h ch idx (tb_length _ _ Ht) Hidx Hch) as (l' & Hlk & _ & Hlen & Hstart).
  destruct (find_record_spec (array h) r l' (records h) idx None Hlk Hlen) as [[-> Hno] | (l1 & j & l2 & p & E & Hp & Hr & ->)].
  - left. split; [done|]. intros (p & -> & Hp)%list_elem_of_fmap. apply list_elem_of_lookup_1 in Hp as [j Hp]. pose proof (Hhome j p Hp eq_refl) as Hj.
    rewrite (Hstart j Hj) in Hj. by apply (Hno j p Hj Hp).
  - right. exists l1, j, l2, p. split_and!; [|done|done|by destruct (last l1)]. rewrite <-E. apply (Hstart j). by eapply Hhome.
Qed.

Lemma delete_spec key h r : table key h ->
  (r ∉ contents h -> my_hash_delete hash_function key h r = Some (true, h))
  /\ (r ∈ contents h -> exists h', my_hash_delete hash_function key h r = Some (false, h') /\ table key h' /\ contents h ≡ₚ r :: contents h'
      /\ (key_length h', unique h', free h') = (key_length h, unique h, free h)
      /\ freed h' = if free h then freed h ++ [r] else freed h).
Proof.
  intros Ht. unfold my_hash_delete. destruct (Nat.eqb_spec (records h) 0) as [H0|H0].
  { split; [done|]. unfold contents. rewrite <-(tb_length _ _ Ht) in H0. destruct (array h); [by intros ?%not_elem_of_nil|done]. }
  destruct (tb_chains _ _ Ht) as [ch Hch]. destruct (find_located key h r ch Ht ltac:(lia) Hch) as [[-> Hno] | (l1 & j & l2 & p & E & Hp & Hr & ->)];
    [by split|]. cbn [mbind option_bind].
  split; [intros Hr'; destruct Hr'; apply list_elem_of_fmap; exists p; split; [done|by eapply list_elem_of_lookup_2]|]. intros _.
  destruct (unlink_spec _ _ _ _ _ _ _ _ _ Hch E Hp) as (a1 & e & ch1 & -> & Hl1 & He & Hch1 & Hp1 & _). cbn [mbind option_bind].
  set (n := (records h - 1)%nat). assert (Hn : records h = (n + 1)%nat) by lia. fold (shrunk (blength h) n). pose proof (tb_sized _ _ Ht) as Hs.
  rewrite Hn in Hs, He, Hch1. assert (Hold : forall x, x ∈ delete e (recs a1) -> x.1 = hash_function (key x.2)).
  { intros x Hx. assert (x ∈ recs (array h)) as Hx' by (rewrite <-Hp1; by right). apply list_elem_of_lookup_1 in Hx' as [i Hx']. by apply (tb_hash _ _ Ht i). }
  destruct (move_last_spec (blength h) (shrunk (blength h) n) n a1 e ch1) as (b & ch2 & -> & Hlb & Hch2 & Hp2).
  { by apply sized_pred. }
  { by rewrite Hl1, (tb_length _ _ Ht). }
  { done. }
  { eapply chains_home_ext; [|exact Hch1]. intros i x [_ Hj] Hx. unfold home. rewrite (mask_shrunk (blength h)); [done|done|].
    rewrite (Hold x) by (by eapply elem_of_delete_ne). apply hash_range. }
  { intros i x Hj Hx. pose proof (Hold x (elem_of_delete_ne _ _ _ _ Hx Hj)) as Hh. pose proof (hash_range (key x.2)) as Hr'. split; [lia|].
    apply mask_shrunk; [done|lia]. }
  cbn [mbind option_bind]. eexists. split; [reflexivity|]. split; [|split; [|done]].
  - split; cbn [blength records array]; [by apply sized_pred|rewrite length_take; lia| |].
    + intros i x Hx. apply Hold. rewrite <-Hp2. apply list_elem_of_lookup_2 in Hx. by rewrite recs_take in Hx.
    + exists ch2. apply (chains_ext b _ (fun i => (i < n)%nat)); [intros i; reflexivity| |exact Hch2]. intros i Hi. by rewrite lookup_take_lt.
  - unfold contents. cbn [array]. apply (contents_perm _ _ _ (hash_nr p)). rewrite recs_take, Hp2, <-Hp1, <-Hr. done.
Qed.

(** ** Change of a key *)

(** Whether the link at an index is that of another record. *)
Definition other h (r : A) (j : nat) : bool :=
  match array h !! j with Some pos => negb (bool_decide (data pos = r)) | None => false end.

Lemma other_loop_spec key h r k w : length (array h) = records h -> k <> [] -> forall fuel,
  linked (array h) w None -> NoDup w -> (length w <= fuel)%nat ->
  other_loop coll fuel key h r k (head (List.filter (hit key h k) w))
  = Some (existsb (other h r) (List.filter (hit key h k) w)).
Proof.
  intros Hlh Hk. assert (Ha : search_args key h k (length k)) by (left; split; [done|by destruct k]).
  induction w as [|j w IH]; intros fuel Hl Hnd Hlen; [by destruct fuel|]. apply NoDup_cons in Hnd as [Hj Hnd]. destruct Hl as [(pos & Hp & Hnx) Hl].
  cbn [List.filter]. destruct (hit key h k j) eqn:Eh; [|apply IH; [done|done|cbn in Hlen; lia]].
  destruct fuel as [|fuel]; [cbn in Hlen; lia|]. cbn [head other_loop existsb]. unfold other at 1. rewrite Hp.
  cbn [mbind option_bind]. destruct (bool_decide_reflect (data pos = r)) as [Hr|Hr]; [|done]. cbn [negb orb my_hash_next].
  rewrite Hp. cbn [mbind option_bind]. rewrite Hnx.
  rewrite (next_loop_spec key h k (length k) Ha w) by (done || (rewrite <-Hlh; apply NoDup_length_lt; [done|]; intros y; by eapply linked_lt)).
  cbn [mbind option_bind]. apply IH; [done|done|cbn in Hlen; lia].
Qed.

(** The key of one record has changed; the table still has the old one. *)
Section update.
Context key0 key h (r : A) (rest : list A) (Ht : table key0 h) (Hrest : contents h ≡ₚ r :: rest) (Hr : r ∉ rest)
  (Hkey : forall r', r' ∈ rest -> key r' = key0 r') (Hne : key r <> []).

Definition new_index : nat := my_hash_mask (hash_function (key r)) (blength h) (records h).

Lemma update_records : (0 < records h)%nat.
Proof.
  rewrite <-(tb_length _ _ Ht). pose proof (Permutation_length Hrest) as Hl. unfold contents in Hl. rewrite length_map in Hl. cbn in Hl. lia.
Qed.

Lemma new_index_lt : (new_index < records h)%nat.
Proof. apply mask_lt; [apply (tb_sized _ _ Ht)|apply hash_range|apply update_records]. Qed.

(** A link with another record and the new key is in the new chain. *)
Lemma other_home ch j pos : chains (array h) (fun j => (j < records h)%nat) (home (blength h) (records h)) ch ->
  array h !! j = Some pos -> data pos ∈ rest -> same_key (key (data pos)) (key r) -> j ∈ ch new_index.
Proof.
  intros Hch Hj Hin [Hl Hc]. assert (HR : recs (array h) !! j = Some (rec_of pos)) by (by rewrite recs_lookup, Hj).
  apply (ch_mem _ _ _ _ Hch). split; [rewrite <-(tb_length _ _ Ht); by eapply lookup_lt_Some|]. exists (rec_of pos). split; [done|].
  unfold home, new_index. rewrite (tb_hash _ _ Ht _ _ HR). cbn [rec_of snd]. by rewrite <-Hkey, (coll_hash (key (data pos)) (key r)).
Qed.

Lemma in_rest j pos : array h !! j = Some pos -> data pos <> r -> data pos ∈ rest.
Proof.
  intros Hj Hn. assert (data pos ∈ contents h) as Hin by (apply list_elem_of_fmap; eexists; split; [done|by eapply list_elem_of_lookup_2]).
  rewrite Hrest in Hin. by apply elem_of_cons in Hin as [?|?].
Qed.

Lemma rest_link r' : r' ∈ rest -> exists j pos, array h !! j = Some pos /\ data pos = r'.
Proof.
  intros Hin. assert (r' ∈ contents h) as (pos & -> & Hp)%list_elem_of_fmap by (rewrite Hrest; by right).
  apply list_elem_of_lookup_1 in Hp as [j Hj]. eauto.
Qed.

(** The hits among some links that are other records. *)
Lemma others_spec w : existsb (other h r) (List.filter (hit key h (key r)) w) = true
  <-> exists j pos, j ∈ w /\ array h !! j = Some pos /\ data pos ∈ rest /\ same_key (key (data pos)) (key r).
Proof.
  rewrite filter_bool, existsb_exists. unfold other, hit. split.
  - intros (j & Hj & Ho). apply list_elem_of_In, list_elem_of_filter in Hj as [Hh Hj]. destruct (array h !! j) as [pos|] eqn:Ej; [|done].
    apply negb_true_iff, bool_decide_eq_false in Ho. apply bool_decide_eq_true in Hh. exists j, pos. split_and!; try done. by eapply in_rest.
  - intros (j & pos & Hj & Ej & Hin & Hs). exists j. rewrite <-list_elem_of_In, list_elem_of_filter, Ej, bool_decide_true by done. split; [done|].
    apply negb_true_iff, bool_decide_eq_false. intros E. by rewrite E in Hin.
Qed.

Lemma dup_spec : exists d,
  (found ← my_hash_first_from_hash_value coll key h (hash_function (key r)) (key r) (length (key r));
   other_loop coll (S (records h)) key h r (key r) found) = Some d
  /\ (d = true <-> exists r', r' ∈ rest /\ same_key (key r') (key r)).
Proof.
  destruct (tb_chains _ _ Ht) as [ch Hch]. pose proof (tb_length _ _ Ht) as Hlh. pose proof new_index_lt as Hlt.
  destruct (walk_from h ch new_index Hlh Hlt Hch) as (l & Hlk & Hnd & Hlen & Hall).
  assert (Ha : search_args key h (key r) (length (key r))) by (left; split; [done|by destruct (key r)]).
  assert (Hiff : forall d w, (d = true <-> existsb (other h r) (List.filter (hit key h (key r)) w) = true) -> (forall j, j ∈ ch new_index -> j ∈ w) ->
    d = true <-> exists r', r' ∈ rest /\ same_key (key r') (key r)).
  { intros d w Hd Hw. rewrite Hd, others_spec. split; [intros (j & pos & _ & _ & ? & ?); eauto|]. intros (r' & Hr' & Hs).
    destruct (rest_link r' Hr') as (j & pos & Hj & <-). exists j, pos. split_and!; try done. by eapply Hw, other_home. }
  destruct (lookup_lt_is_Some_2 (array h) new_index) as [q Hq]; [by rewrite Hlh|].
  assert (HqR : recs (array h) !! new_index = Some (rec_of q)) by (by rewrite recs_lookup, Hq).
  unfold my_hash_first_from_hash_value. fold new_index. rewrite (proj2 (Nat.eqb_neq (records h) 0)) by (pose proof update_records; lia).
  destruct (decide (my_hash_rec_mask q (blength h) (records h) = new_index)) as [Hin|Hin].
  - assert (new_index ∈ ch new_index) as Hin' by (apply (ch_mem _ _ _ _ Hch); eauto). apply Hall in Hin'.
    rewrite (first_loop_spec key h (key r) (length (key r)) Ha l) by (done || (intros _ pos Hpos; congruence)). cbn [mbind option_bind].
    rewrite other_loop_spec by (done || (cbn; lia)). eexists. split; [done|]. apply (Hiff _ (new_index :: l)); [done|]. by rewrite Hin'.
  - assert (Hno : forall j, j ∉ ch new_index).
    { intros j Hj. assert (new_index ∈ ch new_index) as Hj' by (rewrite (Hall j Hj); by left).
      apply (ch_mem _ _ _ _ Hch) in Hj' as (_ & x & Hx & Hf). rewrite HqR in Hx. by injection Hx as <-. }
    destruct (records h) as [|n] eqn:En; [lia|]. cbn [first_loop]. rewrite Hq. cbn [mbind option_bind].
    rewrite (hit_matches key h (key r) (length (key r)) Ha new_index) by done. rewrite En, (proj2 (Nat.eqb_neq _ _) Hin). cbn [andb negb].
    destruct (hit key h (key r) new_index) eqn:Eh; cbn [mbind option_bind].
    + assert (Some new_index = head (List.filter (hit key h (key r)) (new_index :: l))) as -> by (cbn [List.filter]; by rewrite Eh).
      rewrite other_loop_spec by (congruence || done || (cbn; lia)). eexists. split; [done|]. apply (Hiff _ (new_index :: l)); [done|].
      intros j Hj. by destruct (Hno j).
    + exists false. split; [done|]. apply (Hiff _ []); [done|]. intros j Hj. by destruct (Hno j).
Qed.

Lemma updated_table b ch q x : (x, r) :: q ≡ₚ recs (array h) -> length b = records h ->
  chains b (fun j => (j < records h)%nat) (home (blength h) (records h)) ch -> recs b ≡ₚ (hash_function (key r), r) :: q ->
  table key (mkHash (key_length h) (blength h) (records h) b (unique h) (free h) (freed h)) /\ map data b ≡ₚ contents h.
Proof.
  intros Hq Hl Hch Hb. assert (Hrq : map snd q ≡ₚ rest).
  { apply (Permutation_cons_inv (a := r)). rewrite <-Hrest, contents_recs, <-Hq. done. }
  split; [split; cbn [array blength records]|].
  - apply (tb_sized _ _ Ht).
  - done.
  - intros j y Hy%list_elem_of_lookup_2. rewrite Hb in Hy. apply elem_of_cons in Hy as [-> | Hy]; [done|].
    rewrite Hkey by (rewrite <-Hrq; apply list_elem_of_fmap; eauto).
    assert (y ∈ recs (array h)) as [i Hi]%list_elem_of_lookup_1 by (rewrite <-Hq; by right). by apply (tb_hash _ _ Ht i).
  - eauto.
  - rewrite Hrest, <-Hrq. apply (Permutation_map snd) in Hb. unfold recs in Hb. by rewrite map_map in Hb.
Qed.

Lemma update_spec old_key old_key_length : search_args key0 h old_key old_key_length -> old_key = key0 r ->
  (unique h = false \/ forall r', r' ∈ rest -> ~ same_key (key r') (key r)) ->
  exists h', my_hash_update coll hash_function key h r old_key old_key_length = Some (false, h') /\ table key h' /\ contents h' ≡ₚ contents h
    /\ (key_length h', unique h', free h', freed h') = (key_length h, unique h, free h, freed h).
Proof.
  intros Ha -> Hu. unfold my_hash_update. cbn zeta.
  assert ((if unique h then found ← my_hash_first_from_hash_value coll key h (hash_function (key r)) (key r) (length (key r));
           other_loop coll (S (records h)) key h r (key r) found else Some false) = Some false) as ->.
  { destruct (unique h); [|done]. destruct Hu as [|Hu]; [done|]. destruct dup_spec as (d & -> & Hd). f_equal.
    apply not_true_is_false. rewrite Hd. intros (r' & Hr' & Hs). by apply (Hu r'). }
  cbn [mbind option_bind]. rewrite (search_args_hash key0 h) by done.
  destruct (tb_chains _ _ Ht) as [ch Hch].
  destruct (find_located key0 h r ch Ht update_records Hch) as [[_ Hno] | (l1 & j & l2 & p & E & Hp & Hpr & ->)];
    [destruct Hno; rewrite Hrest; by left|].
  cbn [mbind option_bind]. rewrite Hp. cbn [mbind option_bind]. fold new_index.
  set (org := my_hash_mask (hash_function (key0 r)) (blength h) (records h)) in *.
  destruct (Nat.eqb_spec org new_index) as [Ho|Ho].
  - eexists. split; [reflexivity|].
    destruct (updated_table (<[j := set_hash_nr (hash_function (key r)) p]> (array h)) ch (delete j (recs (array h))) (hash_nr p)) as [H1 H2];
      [|by rewrite length_insert, (tb_length _ _ Ht)| | |by split_and!].
    + rewrite <-Hpr. symmetry. apply (delete_Permutation _ j (rec_of p)). by rewrite recs_lookup, Hp.
    + apply chains_set_hash; [done|done|]. unfold home. fold new_index. rewrite <-Ho. unfold org.
      pose proof (tb_hash _ _ Ht j (rec_of p)) as Hh. rewrite recs_lookup, Hp in Hh. specialize (Hh eq_refl). cbn [rec_of fst snd] in Hh.
      by rewrite Hh, Hpr.
    + rewrite recs_insert. cbn [rec_of set_hash_nr hash_nr data]. rewrite <-Hpr. apply perm_fill. rewrite length_recs. by eapply lookup_lt_Some.
  - destruct (unlink_spec _ _ _ _ _ _ _ _ _ Hch E Hp) as (a1 & e & ch1 & -> & Hl1 & He & Hch1 & Hp1 & Hej). cbn [mbind option_bind].
    rewrite (tb_length _ _ Ht) in Hl1.
    destruct (relocate_spec (blength h) (records h) a1 e j p (hash_function (key r)) ch1) as (b & ch2 & -> & Hlb & Hch2 & Hp2);
      [by rewrite Hl1|by rewrite Hl1|rewrite Hl1; apply new_index_lt|done|].
    rewrite Hpr in Hp2. rewrite Hl1 in Hlb, Hch2. eexists. split; [reflexivity|]. cbn [mbind option_bind].
    destruct (updated_table b ch2 (delete e (recs a1)) (hash_nr p)) as [H1 H2]; [by rewrite <-Hpr|done|done|done|by split_and!].
Qed.

End update.

(** ** The check *)

Section check.
Context key h (Ht : table key h) (ch : nat -> list nat)
  (Hch : chains (array h) (fun j => (j < records h)%nat) (home (blength h) (records h)) ch).

(** The links of the chains in front of an index. *)
Definition counted (i : nat) : nat := length (concat (map ch (seq 0 i))).

Lemma counted_S i : counted (S i) = (counted i + length (ch i))%nat.
Proof. unfold counted. rewrite seq_S, map_app, concat_app, length_app. cbn. by rewrite app_nil_r. Qed.

Lemma counted_le i j : (i <= j)%nat -> (counted i <= counted j)%nat.
Proof. induction 1; [done|]. rewrite counted_S. lia. Qed.

Lemma concat_chains l : NoDup l -> NoDup (concat (map ch l)).
Proof.
  induction 1 as [|i l Hi Hl IH]; [apply NoDup_nil_2|]. cbn. apply NoDup_app. split; [apply (ch_nodup _ _ _ _ Hch)|]. split; [|done].
  intros j Hj Hin. apply list_elem_of_In, in_concat in Hin as (c & Hc & Hin). apply in_map_iff in Hc as (i' & <- & Hi'). apply list_elem_of_In in Hi', Hin.
  assert (i = i') as -> by (by apply (chains_disjoint _ _ _ _ Hch i i' j)). done.
Qed.

Lemma counted_all : counted (records h) = records h.
Proof.
  unfold counted. transitivity (length (seq 0 (records h))); [|apply length_seq]. apply Permutation_length, NoDup_Permutation.
  - apply concat_chains, NoDup_seq.
  - apply NoDup_seq.
  - intros j. rewrite list_elem_of_In, in_concat. setoid_rewrite in_map_iff. setoid_rewrite <-list_elem_of_In. setoid_rewrite elem_of_seq. split.
    + intros (c & (i & <- & _) & Hj). apply (ch_mem _ _ _ _ Hch) in Hj as [Hj _]. lia.
    + intros [_ Hj]. destruct (lookup_lt_is_Some_2 (array h) j) as [p Hp]; [by rewrite (tb_length _ _ Ht)|].
      destruct (chains_home _ _ _ _ Hch j (rec_of p) Hj) as (l & El & Hin); [by rewrite recs_lookup, Hp|].
      eexists. split; [eexists; split; [reflexivity|]|rewrite El; exact Hin].
      assert (home (blength h) (records h) (rec_of p).1 ∈ ch (home (blength h) (records h) (rec_of p).1)) as Hx by (rewrite El; by left).
      apply (ch_mem _ _ _ _ Hch) in Hx as [Hx _]. lia.
Qed.

Lemma chain_home i j pos : j ∈ ch i -> array h !! j = Some pos -> my_hash_rec_mask pos (blength h) (records h) = i.
Proof. intros (_ & x & Hx & Hf)%(ch_mem _ _ _ _ Hch) Hj. rewrite recs_lookup, Hj in Hx. by injection Hx as <-. Qed.

Lemma check_chain_spec i l : forall fuel found, linked (array h) l None -> (forall j, j ∈ l -> j ∈ ch i) -> (found + length l <= records h)%nat ->
  (length l <= fuel)%nat -> check_chain fuel h i found false (head_or l None) = Some ((found + length l)%nat, false).
Proof.
  induction l as [|j l IH]; intros fuel found Hl Hin Hf Hlen.
  { destruct fuel; cbn; do 2 f_equal; lia. }
  destruct Hl as [(pos & Hj & Hnx) Hl]. cbn [length] in Hf, Hlen. destruct fuel as [|fuel]; [lia|]. cbn [head_or check_chain].
  rewrite (proj2 (Nat.ltb_lt found (records h + 1))) by lia. rewrite Hj. cbn [mbind option_bind].
  rewrite (chain_home i j), Nat.eqb_refl by (done || (apply Hin; by left)). cbn [negb]. rewrite Hnx, IH; [|done| |lia|lia].
  - cbn [length]. do 2 f_equal. lia.
  - intros y Hy. apply Hin. by right.
Qed.

Lemma check_loop_spec n : forall i, (i + n = records h)%nat ->
  check_loop hash_function key h i (drop i (array h)) (counted i) false = Some (records h, false).
Proof.
  induction n as [|n IH]; intros i Hi.
  { rewrite drop_ge by (rewrite (tb_length _ _ Ht); lia). cbn. by rewrite <-counted_all, <-Hi, Nat.add_0_r. }
  destruct (lookup_lt_is_Some_2 (array h) i) as [p Hp]; [rewrite (tb_length _ _ Ht); lia|]. rewrite (drop_S _ _ _ Hp). cbn [check_loop].
  assert (HpR : recs (array h) !! i = Some (rec_of p)) by (by rewrite recs_lookup, Hp).
  rewrite (tb_hash _ _ Ht _ _ HpR : hash_nr p = hash_function (key (data p))), Z.eqb_refl. cbn [negb orb].
  pose proof (counted_le (S i) (records h) ltac:(lia)) as Hle. rewrite counted_all, counted_S in Hle.
  assert ((if (my_hash_rec_mask p (blength h) (records h) =? i)%nat then check_chain (S (records h) * S (records h)) h i (S (counted i)) false (next p)
           else Some (counted i, false)) = Some (counted (S i), false)) as ->; [|apply IH; lia]. rewrite counted_S.
  pose proof (ch_linked _ _ _ _ Hch i) as Hl. destruct (Nat.eqb_spec (my_hash_rec_mask p (blength h) (records h)) i) as [Hm|Hm].
  - assert (Hi' : (i < records h)%nat) by lia. destruct (chains_home _ _ _ _ Hch i (rec_of p) Hi' HpR) as (l & El & _).
    change (home (blength h) (records h) (rec_of p).1) with (my_hash_rec_mask p (blength h) (records h)) in El. rewrite Hm in El.
    rewrite El in Hl, Hle |- *. destruct Hl as [(p' & Hp' & Hnx) Hl]. assert (p' = p) as -> by congruence.
    cbn [length] in Hle |- *. rewrite (Hnx : next p = head_or l None), check_chain_spec; [do 2 f_equal; lia|done| |lia|nia]. intros j Hj. rewrite El. by right.
  - destruct (ch i) as [|x l] eqn:El; [by rewrite Nat.add_0_r|]. destruct Hm. pose proof (ch_head _ _ _ _ Hch _ _ _ El) as ->.
    apply (chain_home i i); [|done]. rewrite El. by left.
Qed.

End check.

Lemma check_spec key h : table key h -> my_hash_check hash_function key h = Some false.
Proof.
  intros Ht. destruct (tb_chains _ _ Ht) as [ch Hch]. unfold my_hash_check. rewrite take_ge by (by rewrite (tb_length _ _ Ht)).
  pose proof (check_loop_spec key h Ht ch Hch (records h) 0 eq_refl) as Hc. rewrite drop_0 in Hc. unfold counted in Hc. cbn [seq map concat length] in Hc. rewrite Hc.
  cbn. by rewrite Nat.eqb_refl.
Qed.


End hash_tables.
