(* ===== verification/HashSpec.v ===== *)
(** * What hash tables promise

    A hash table of src/mysys/hash.c is a bag of records of which the records
    with a given key can be found.  The bag is the specification; the theorem
    is that every sequence of insertions, removals, changes of a key and
    searches gives the answers of the bag.  The comparison and the hash
    function are those of the simple character sets
    (src/strings/ctype-simple.c), for which the promise that equal keys have
    equal hash values is proved here. *)

From stdpp Require Import base list numbers functions.
From S2P Require Import Prelude CString Charset Hash HashChains HashSplit HashTables.
Open Scope Z_scope.

(** ** The hash function of the simple character sets *)

Definition MY_HASH_ADD (nr : Z * Z) (value : Z) : Z * Z :=
  let '(A, B) := nr in
  (Z.lxor A (((Z.land A 63 + B) * value + Z.shiftl A 8) mod 2 ^ 64), (B + 3) mod 2 ^ 64).

Definition my_hash_sort_simple_nopad (cs : CHARSET_INFO) (key : list Z) (nr : Z * Z) : Z * Z :=
  fold_left (fun nr c => MY_HASH_ADD nr (nth (Z.to_nat c) (sort_order cs) 0)) key nr.

(** The end of the string without the spaces at its end that lie behind
    [stop], and without the words of four spaces. *)
Fixpoint skip_bytes (s : list Z) (stop end_ : nat) : nat :=
  match end_ with
  | O => O
  | S e => if (stop <? end_)%nat && (at_ s e =? 32) then skip_bytes s stop e else end_
  end.

Fixpoint skip_words (fuel : nat) (s : list Z) (stop end_ : nat) : nat :=
  match fuel with
  | O => end_
  | S fuel' =>
      if (stop <? end_)%nat && forallb (fun c => c =? 32) (take 4 (drop (end_ - 4) s)) then skip_words fuel' s stop (end_ - 4) else end_
  end.

(** [ptr] is the address of the string, which decides where its words are. *)
Definition skip_trailing_space (ptr : nat) (s : list Z) : nat :=
  let len := length s in
  let end_words := ((ptr + len) / 4 * 4 - ptr)%nat in
  let start_words := ((ptr + 4 - 1) / 4 * 4 - ptr)%nat in
  let end_ :=
    if (20 <? len)%nat && (0 <? end_words)%nat then
      let e := skip_bytes s end_words len in
      if (at_ s (e - 1) =? 32) && (start_words <? end_words)%nat then skip_words len s start_words e else e
    else len in
  skip_bytes s 0 end_.

(** The end without the characters that sort like a space. *)
Fixpoint skip_weight (cs : CHARSET_INFO) (s : list Z) (end_ : nat) : nat :=
  match end_ with
  | O => O
  | S e =>
      if negb (nth (Z.to_nat (at_ s e)) (sort_order cs) 0 =? nth 32 (sort_order cs) 0) then end_ else skip_weight cs s e
  end.

Definition my_hash_sort_simple (cs : CHARSET_INFO) (ptr : nat) (key : list Z) (nr : Z * Z) : Z * Z :=
  let len := length key in
  let end_ := if (16 <? len)%nat then skip_trailing_space ptr key else len in
  my_hash_sort_simple_nopad cs (take (skip_weight cs key end_) key) nr.

(** The hash value of a key, 32 bits of the first number. *)
Definition my_hash_sort (cs : CHARSET_INFO) (ptr : nat) (key : list Z) : Z :=
  let '(nr1, _) := my_hash_sort_simple cs ptr key (1, 4) in nr1 mod 2 ^ 32.

Definition my_coll (cs : CHARSET_INFO) (k1 k2 : list Z) : Z := my_strnncoll cs k1 (length k1) k2 (length k2).

(** ** Equal keys have equal hash values *)

Section simple.
Context (cs : CHARSET_INFO).
Definition weight (c : Z) : Z := nth (Z.to_nat c) (sort_order cs) 0.

Lemma skip_weight_bytes s stop n : skip_weight cs s (skip_bytes s stop n) = skip_weight cs s n.
Proof.
  induction n as [|n IH]; [done|]. cbn [skip_bytes]. destruct ((stop <? S n)%nat && (at_ s n =? 32)) eqn:E; [|done].
  apply andb_true_iff in E as [_ E%Z.eqb_eq]. rewrite IH. cbn [skip_weight]. rewrite E. by rewrite Z.eqb_refl.
Qed.

Lemma skip_bytes_le s stop n : (skip_bytes s stop n <= n)%nat.
Proof. induction n as [|n IH]; [done|]. cbn [skip_bytes]. destruct (_ && _); lia. Qed.

Lemma skip_weight_spaces s k : forall n, (forall i, (n - k <= i < n)%nat -> at_ s i = 32) -> skip_weight cs s (n - k) = skip_weight cs s n.
Proof.
  induction k as [|k IH]; intros n Hs; [by rewrite Nat.sub_0_r|]. destruct n as [|n]; [done|]. change (S n - S k)%nat with (n - k)%nat.
  rewrite (IH n) by (intros i Hi; apply Hs; lia).
  cbn [skip_weight]. rewrite (Hs n) by lia. by rewrite Z.eqb_refl.
Qed.

Lemma skip_weight_words s stop fuel : forall n, (n <= length s)%nat -> skip_weight cs s (skip_words fuel s stop n) = skip_weight cs s n.
Proof.
  induction fuel as [|fuel IH]; intros n Hn; [done|]. cbn [skip_words]. destruct (_ && _) eqn:E; [|done]. apply andb_true_iff in E as [_ E].
  rewrite IH by lia. apply skip_weight_spaces. intros i Hi. rewrite forallb_forall in E. apply Z.eqb_eq, E.
  apply list_elem_of_In, list_elem_of_lookup. exists (i - (n - 4))%nat. rewrite lookup_take_lt, lookup_drop by lia.
  replace (n - 4 + (i - (n - 4)))%nat with i by lia. destruct (lookup_lt_is_Some_2 s i) as [c Hc]; [lia|]. rewrite Hc. f_equal. symmetry. by apply nth_lookup_Some.
Qed.

Lemma skip_weight_trailing ptr s : skip_weight cs s (skip_trailing_space ptr s) = skip_weight cs s (length s).
Proof.
  unfold skip_trailing_space. rewrite skip_weight_bytes. destruct (_ && _); [|done]. cbn zeta.
  set (stop := (_ - ptr)%nat). pose proof (skip_bytes_le s stop (length s)) as Hle.
  destruct (_ && _); rewrite ?skip_weight_words by done; apply skip_weight_bytes.
Qed.

(** The hash value does not depend on the address of the key. *)
Lemma my_hash_sort_simple_spec ptr key nr :
  my_hash_sort_simple cs ptr key nr = my_hash_sort_simple_nopad cs (take (skip_weight cs key (length key)) key) nr.
Proof. unfold my_hash_sort_simple. cbn zeta. destruct (_ <? _)%nat; [|done]. by rewrite skip_weight_trailing. Qed.

Lemma strnncoll_weights k1 : forall k2, length k1 = length k2 ->
  match strnncoll_loop (sort_order cs) (length k1) k1 k2 with
  | Some d => d <> 0 /\ map weight k1 <> map weight k2
  | None => map weight k1 = map weight k2
  end.
Proof.
  induction k1 as [|c k1 IH]; intros [|d k2] Hl; try done. cbn [length strnncoll_loop deref nth drop map]. fold (weight c) (weight d).
  injection Hl as Hl. specialize (IH k2 Hl). rewrite !drop_0. destruct (Z.eqb_spec (weight c) (weight d)) as [Hw|Hw]; cbn [negb].
  - destruct (strnncoll_loop _ _ k1 k2) as [x|]; [|congruence]. destruct IH as [? Hn]. split; [done|]. intros [= _ E]. done.
  - split; [lia|]. intros [= E _]. done.
Qed.

(** Two keys of the same length compare equal if their characters sort alike. *)
Lemma coll_weights k1 k2 : length k1 = length k2 -> my_coll cs k1 k2 = 0 <-> map weight k1 = map weight k2.
Proof.
  intros Hl. pose proof (strnncoll_weights k1 k2 Hl) as Hs. unfold my_coll, my_strnncoll, my_strnncoll_simple. rewrite <-Hl, Nat.ltb_irrefl.
  cbn [andb]. rewrite Nat.ltb_irrefl. destruct (strnncoll_loop _ _ k1 k2) as [d|]; [|done]. destruct Hs as [Hd Hn]. by split.
Qed.

Lemma weight_at k1 k2 i : map weight k1 = map weight k2 -> (i < length k1)%nat -> weight (at_ k1 i) = weight (at_ k2 i).
Proof.
  intros Hw Hi. assert (length k1 = length k2) as Hl by (apply (f_equal length) in Hw; by rewrite !length_map in Hw).
  apply (f_equal (fun l => l !! i)) in Hw. rewrite !list_lookup_fmap in Hw.
  destruct (lookup_lt_is_Some_2 k1 i Hi) as [c Hc], (lookup_lt_is_Some_2 k2 i) as [d Hd]; [lia|]. rewrite Hc, Hd in Hw. injection Hw as Hw.
  unfold at_. by rewrite (nth_lookup_Some k1 i 0 c Hc), (nth_lookup_Some k2 i 0 d Hd).
Qed.

Lemma skip_weight_ext k1 k2 : map weight k1 = map weight k2 -> forall n, (n <= length k1)%nat -> skip_weight cs k1 n = skip_weight cs k2 n.
Proof.
  intros Hw. induction n as [|n IH]; intros Hn; [done|]. cbn [skip_weight]. fold (weight (at_ k1 n)) (weight (at_ k2 n)).
  rewrite (weight_at k1 k2) by (done || lia). destruct (negb _); [done|]. apply IH. lia.
Qed.

Lemma nopad_weights key nr : my_hash_sort_simple_nopad cs key nr = fold_left MY_HASH_ADD (map weight key) nr.
Proof. unfold my_hash_sort_simple_nopad. revert nr. induction key as [|c key IH]; intros nr; [done|]. cbn. apply IH. Qed.

(** Every simple character set has the laws, wherever the keys are in memory. *)
#[global] Instance simple_laws (address : list Z -> nat) : KeyLaws (my_coll cs) (fun k => my_hash_sort cs (address k) k).
Proof.
  split.
  - intros k. unfold my_hash_sort. destruct (my_hash_sort_simple _ _ _ _). apply Z.mod_pos_bound. lia.
  - intros k. by apply coll_weights.
  - intros k1 k2 Hl Hc. apply coll_weights in Hc; [|done]. unfold my_hash_sort.
    rewrite !my_hash_sort_simple_spec, !nopad_weights, <-!firstn_map. by rewrite Hc, <-Hl, (skip_weight_ext k1 k2).
Qed.

End simple.

(** ** The bag *)

Section bag.
Context {A : Type} `{EqDecision A}.

(** What a client does with a table.  [slot] is the new element of the array,
    [None] if there is no memory for it.  The key of a record is changed in
    memory before [my_hash_update] is called, and changed back when the call is
    refused. *)
Inductive op :=
| Insert (slot : option (HASH_LINK A)) (r : A)
| Delete (r : A)
| Update (r : A) (k : list Z)
| Search (k : list Z)
| Reset.

Inductive answer :=
| Refused (b : bool)
| Found (l : list A).

(** The records with their keys, the two settings of the table, and the records
    that have been given to the [free] function. *)
Record bag := mkBag {
  mem : A -> list Z;
  items : list A;
  only_once : bool;
  with_free : bool;
  gone : list A
}.

Fixpoint remove_one (r : A) (l : list A) : list A :=
  match l with [] => [] | x :: l' => if decide (x = r) then l' else x :: remove_one r l' end.

Context (coll : list Z -> list Z -> Z).

(** Whether a key that may occur once only is there already. *)
Definition taken (s : bag) (mem : A -> list Z) (l : list A) (k : list Z) : bool :=
  only_once s && existsb (fun r => bool_decide (same_key coll (mem r) k)) l.

Definition do_bag (s : bag) (o : op) : answer * bag :=
  match o with
  | Insert slot r =>
      if taken s (mem s) (items s) (mem s r) then (Refused true, s)
      else match slot with
           | None => (Refused true, s)
           | Some _ => (Refused false, mkBag (mem s) (r :: items s) (only_once s) (with_free s) (gone s))
           end
  | Delete r =>
      if bool_decide (r ∈ items s) then
        (Refused false, mkBag (mem s) (remove_one r (items s)) (only_once s) (with_free s) (if with_free s then gone s ++ [r] else gone s))
      else (Refused true, s)
  | Update r k =>
      let mem' := <[r := k]> (mem s) in
      if taken s mem' (remove_one r (items s)) k then (Refused true, s)
      else (Refused false, mkBag mem' (items s) (only_once s) (with_free s) (gone s))
  | Search k => (Found (filter (fun r => same_key coll (mem s r) k) (items s)), s)
  | Reset => (Refused false, mkBag (mem s) [] (only_once s) (with_free s) (if with_free s then gone s ++ items s else gone s))
  end.

(** What the library expects: keys are not empty, and a record whose key changes
    is in the table once. *)
Definition allowed (s : bag) (o : op) : bool :=
  match o with
  | Insert _ r => bool_decide (mem s r <> [])
  | Delete r => true
  | Update r k => bool_decide (r ∈ items s) && bool_decide (r ∉ remove_one r (items s)) && bool_decide (k <> []) && bool_decide (mem s r <> [])
  | Search k => bool_decide (k <> [])
  | Reset => true
  end.

Fixpoint run_bag (s : bag) (ops : list op) : list answer * bag :=
  match ops with
  | [] => ([], s)
  | o :: ops' => let '(a, s) := do_bag s o in let '(l, s) := run_bag s ops' in (a :: l, s)
  end.

Fixpoint all_allowed (s : bag) (ops : list op) : bool :=
  match ops with
  | [] => true
  | o :: ops' => allowed s o && all_allowed (snd (do_bag s o)) ops'
  end.

(** The same operations on a table. *)
Context (hash_function : list Z -> Z).

Definition do_hash (st : (A -> list Z) * HASH A) (o : op) : option (answer * ((A -> list Z) * HASH A)) :=
  let '(key, h) := st in
  match o with
  | Insert slot r => '(b, h) ← my_hash_insert coll hash_function key slot h r; Some (Refused b, (key, h))
  | Delete r => '(b, h) ← my_hash_delete hash_function key h r; Some (Refused b, (key, h))
  | Update r k =>
      '(b, h) ← my_hash_update coll hash_function (<[r := k]> key) h r (key r) (length (key r));
      Some (Refused b, ((if b : bool then key else <[r := k]> key), h))
  | Search k =>
      found ← my_hash_first coll hash_function key h k (length k);
      l ← all_from coll key h k (length k) (records h) found;
      Some (Found l, (key, h))
  | Reset => Some (Refused false, (key, my_hash_reset h))
  end.

Fixpoint run_hash (st : (A -> list Z) * HASH A) (ops : list op) : option (list answer * ((A -> list Z) * HASH A)) :=
  match ops with
  | [] => Some ([], st)
  | o :: ops' => '(a, st) ← do_hash st o; '(l, st) ← run_hash st ops'; Some (a :: l, st)
  end.

(** Answers agree up to the order in which a search delivers the records. *)
Definition agree (a b : answer) : Prop :=
  match a, b with
  | Refused x, Refused y => x = y
  | Found l, Found l' => l ≡ₚ l'
  | _, _ => False
  end.

Record implements (st : (A -> list Z) * HASH A) (s : bag) : Prop := {
  im_mem : st.1 = mem s;
  im_table : table hash_function st.1 st.2;
  im_items : contents st.2 ≡ₚ items s;
  im_once : unique st.2 = only_once s;
  im_free : free st.2 = with_free s;
  im_gone : freed st.2 ≡ₚ gone s
}.

Context `{!KeyLaws coll hash_function}.

Lemma remove_one_perm r l : r ∈ l -> l ≡ₚ r :: remove_one r l.
Proof.
  induction l as [|x l IH]; [by intros ?%not_elem_of_nil|]. cbn [remove_one]. destruct (decide (x = r)) as [->|Hx]; [done|].
  intros [->|Hin]%elem_of_cons; [done|]. rewrite (IH Hin) at 1. apply perm_swap.
Qed.

Lemma taken_spec s mem l k : taken s mem l k = true <-> only_once s = true /\ exists r, r ∈ l /\ same_key coll (mem r) k.
Proof.
  unfold taken. rewrite andb_true_iff, existsb_exists. setoid_rewrite bool_decide_eq_true. setoid_rewrite <-list_elem_of_In. done.
Qed.

Lemma empty_table (key : A -> list Z) kl u f g : table hash_function key (mkHash kl 1 0 [] u f g).
Proof.
  split; cbn [blength records array]; [exists 0%nat; cbn; lia|done|done|]. exists (fun _ => []). split; [done|done|intros; apply NoDup_nil_2|].
  intros i j. split; [by intros ?%not_elem_of_nil|]. intros [? _]. lia.
Qed.

Lemma insert_refused (key : A -> list Z) slot (h : HASH A) (r : A) : table hash_function key h -> key r <> [] ->
  (unique h = true /\ (exists r', r' ∈ contents h /\ same_key coll (key r') (key r))) \/ slot = None ->
  my_hash_insert coll hash_function key slot h r = Some (true, h).
Proof.
  intros Ht Hne Hr. unfold my_hash_insert. cbn zeta.
  destruct (table_search_spec coll hash_function key h (key r) (length (key r)) Ht) as (o & Ho & Hs); [left; split; [done|by destruct (key r)]|].
  destruct Hr as [[-> (r' & Hin & Hk)] | ->].
  - rewrite Ho. cbn. destruct o as [i|]; [done|]. by destruct (Hs r').
  - destruct (unique h); [rewrite Ho; by destruct o|done].
Qed.

Ltac stay := eexists _, _; split; [reflexivity|]; split; [done|by split].

Section step.
Context (st : (A -> list Z) * HASH A) (s : bag) (Hi : implements st s).

Lemma insert_sim slot r : allowed s (Insert slot r) = true -> exists a st', do_hash st (Insert slot r) = Some (a, st')
  /\ agree a (do_bag s (Insert slot r)).1 /\ implements st' (do_bag s (Insert slot r)).2.
Proof.
  destruct st as [key h], Hi as [Hm Ht Hc Ho Hf Hg]. cbn [fst snd] in *. subst key. intros Hne%bool_decide_eq_true. cbn [do_hash do_bag].
  destruct (taken s (mem s) (items s) (mem s r)) eqn:Et.
  { apply taken_spec in Et as (Hu & r' & Hin & Hk). rewrite insert_refused; [|done|done|left; split; [congruence|exists r'; by rewrite Hc]]. stay. }
  destruct slot as [slot|]; [|rewrite insert_refused; [|done|done|by right]; stay].
  destruct (insert_spec coll hash_function (mem s) slot h r Ht Hne) as (h' & -> & Ht' & Hc' & Hx).
  { rewrite Ho. destruct (only_once s) eqn:Eo; [right|by left]. intros r' Hin Hk. apply not_true_iff_false in Et. apply Et.
    apply taken_spec. split; [done|]. exists r'. by rewrite <-Hc. }
  injection Hx as Hx1 Hx2 Hx3 Hx4. cbn [mbind option_bind]. eexists _, _. split; [reflexivity|]. split; [done|].
  split; cbn [fst snd mem items only_once with_free gone]; try congruence. by rewrite Hc', Hc.
Qed.

Lemma delete_sim r : exists a st', do_hash st (Delete r) = Some (a, st') /\ agree a (do_bag s (Delete r)).1 /\ implements st' (do_bag s (Delete r)).2.
Proof.
  destruct st as [key h], Hi as [Hm Ht Hc Ho Hf Hg]. cbn [fst snd] in *. subst key. cbn [do_hash do_bag].
  destruct (delete_spec coll hash_function (mem s) h r Ht) as [Hd1 Hd2]. destruct (bool_decide_reflect (r ∈ items s)) as [Hr|Hr].
  - destruct Hd2 as (h' & -> & Ht' & Hc' & Hx & Hfr); [by rewrite Hc|]. injection Hx as Hx1 Hx2 Hx3. cbn [mbind option_bind].
    eexists _, _. split; [reflexivity|]. split; [done|]. split; cbn [fst snd mem items only_once with_free gone]; try congruence.
    + apply (Permutation_cons_inv (a := r)). by rewrite <-Hc', <-remove_one_perm.
    + rewrite Hfr, <-Hf. destruct (free h); by rewrite Hg.
  - rewrite Hd1 by (by rewrite Hc). stay.
Qed.

Lemma update_sim r k : allowed s (Update r k) = true -> exists a st', do_hash st (Update r k) = Some (a, st')
  /\ agree a (do_bag s (Update r k)).1 /\ implements st' (do_bag s (Update r k)).2.
Proof.
  destruct st as [key h], Hi as [Hm Ht Hc Ho Hf Hg]. cbn [fst snd] in *. subst key. cbn [allowed do_hash do_bag].
  intros [[[Hin%bool_decide_eq_true Hr%bool_decide_eq_true]%andb_true_iff Hk%bool_decide_eq_true]%andb_true_iff Hold%bool_decide_eq_true]%andb_true_iff.
  set (rest := remove_one r (items s)) in *. set (key := <[r:=k]> (mem s)) in *.
  assert (Hp : contents h ≡ₚ r :: rest) by (unfold rest; by rewrite Hc, <-remove_one_perm).
  assert (Hkr : key r = k) by (apply fn_lookup_insert).
  assert (Hko : forall r', r' ∈ rest -> key r' = mem s r').
  { intros r' Hr'. apply fn_lookup_insert_ne. intros <-. done. }
  assert (Hne : key r <> []) by (by rewrite Hkr). destruct (taken s key rest k) eqn:Et.
  - apply taken_spec in Et as [Hu Hex]. rewrite <-Hkr in Hex.
    destruct (dup_spec coll hash_function (mem s) key h r rest Ht Hp Hr Hko Hne) as (d & Hd & Hd').
    unfold my_hash_update. cbn zeta. rewrite Ho, Hu, Hd. cbn [mbind option_bind]. rewrite (proj2 Hd' Hex). stay.
  - destruct (update_spec coll hash_function (mem s) key h r rest Ht Hp Hr Hko Hne (mem s r) (length (mem s r))) as (h' & -> & Ht' & Hc' & Hx).
    + left. split; [done|by destruct (mem s r)].
    + done.
    + rewrite Ho, Hkr. destruct (only_once s) eqn:Eo; [right|by left]. intros r' Hr' Hs. apply not_true_iff_false in Et. apply Et, taken_spec. eauto.
    + injection Hx as Hx1 Hx2 Hx3 Hx4. cbn [mbind option_bind]. eexists _, _. split; [reflexivity|]. split; [done|].
      split; cbn [fst snd mem items only_once with_free gone]; try congruence. by rewrite Hc', Hc.
Qed.

Lemma do_sim o : allowed s o = true ->
  exists a st', do_hash st o = Some (a, st') /\ agree a (do_bag s o).1 /\ implements st' (do_bag s o).2.
Proof.
  destruct o as [slot r|r|r k|k|]; intros Ha.
  - by apply insert_sim.
  - apply delete_sim.
  - by apply update_sim.
  - destruct st as [key h], Hi as [Hm Ht Hc Ho Hf Hg]. cbn [fst snd] in *. subst key. apply bool_decide_eq_true in Ha. cbn [do_hash do_bag].
    destruct (search_all coll hash_function (mem s) h k (length k) Ht) as (l & Hl & Hp); [left; split; [done|by destruct k]|].
    destruct (my_hash_first coll hash_function (mem s) h k (length k)) as [found|]; [|done]. cbn [mbind option_bind] in Hl |- *. rewrite Hl.
    cbn [mbind option_bind]. eexists _, _. split; [reflexivity|]. split; [cbn; by rewrite Hp, Hc|by split].
  - destruct st as [key h], Hi as [Hm Ht Hc Ho Hf Hg]. cbn [fst snd] in *. subst key. cbn [do_hash do_bag].
    eexists _, _. split; [reflexivity|]. split; [done|].
    split; cbn [fst snd mem items only_once with_free gone my_hash_reset my_hash_free_elements contents array unique free freed records]; try done.
    + apply empty_table.
    + rewrite <-Hf. rewrite take_ge by (by rewrite (tb_length _ _ _ Ht)). destruct (free h); rewrite Hg; [|done]. by rewrite <-Hc.
Qed.

End step.

Lemma run_sim ops : forall st s, implements st s -> all_allowed s ops = true ->
  exists l st', run_hash st ops = Some (l, st') /\ Forall2 agree l (run_bag s ops).1 /\ implements st' (run_bag s ops).2.
Proof.
  induction ops as [|o ops IH]; intros st s Hi Ha; [eexists _, _; split; [reflexivity|]; split; [constructor|done]|].
  cbn [all_allowed] in Ha. apply andb_true_iff in Ha as [Ha Has]. destruct (do_sim st s Hi o Ha) as (a & st1 & Hd & Hag & Hi1).
  cbn [run_hash run_bag]. rewrite Hd. destruct (do_bag s o) as [b s1]. cbn [fst snd mbind option_bind] in *.
  destruct (IH st1 s1 Hi1 Has) as (l & st2 & -> & Hl & Hi2). destruct (run_bag s1 ops) as [l' s2]. cbn [fst snd mbind option_bind] in *.
  eexists _, _. split; [reflexivity|]. split; [by constructor|done].
Qed.

Lemma init_implements key kl u f : implements (key, my_hash_init2 kl u f) (mkBag key [] u f []).
Proof. split; try done. apply empty_table. Qed.

End bag.

Arguments op : clear implicits.
Arguments answer : clear implicits.
Arguments bag : clear implicits.

(** ** The refinement *)

(** C4. Hash tables are bags.  From the table of [my_hash_init2] on, every
    sequence of insertions (with or without memory), removals, changes of a key,
    searches with [my_hash_first] and [my_hash_next] and resets that respects
    the conditions of the library runs to its end and gives the answers of the
    bag: an operation is refused exactly if the bag refuses it, a search
    delivers exactly the records with the key, each as often as it is there.  At
    the end the table holds the records of the bag, has given the others to the
    [free] function, and passes [my_hash_check].  This holds for every simple
    character set and wherever the keys are in memory. *)
Theorem hash_refines_bag (A : Type) `{EqDecision A} (cs : CHARSET_INFO) (address : list Z -> nat) (key : A -> list Z) (key_length : nat)
    (unique free : bool) (ops : list (op A)) :
  let hash_function k := my_hash_sort cs (address k) k in
  let s := mkBag key [] unique free [] in
  all_allowed (my_coll cs) s ops = true ->
  exists answers key' h,
    run_hash (my_coll cs) hash_function (key, my_hash_init2 key_length unique free) ops = Some (answers, (key', h))
    /\ Forall2 agree answers (run_bag (my_coll cs) s ops).1
    /\ key' = mem (run_bag (my_coll cs) s ops).2
    /\ contents h ≡ₚ items (run_bag (my_coll cs) s ops).2
    /\ freed h ≡ₚ gone (run_bag (my_coll cs) s ops).2
    /\ my_hash_check hash_function key' h = Some false.
Proof.
  intros hash_function s Ha.
  destruct (run_sim (my_coll cs) hash_function ops _ _ (init_implements hash_function key key_length unique free) Ha) as (l & [key' h] & Hr & Hl & Hi).
  exists l, key', h. split; [done|]. split; [done|]. split; [apply (im_mem _ _ _ Hi)|]. split; [apply (im_items _ _ _ Hi)|].
  split; [apply (im_gone _ _ _ Hi)|]. apply check_spec, (im_table _ _ _ Hi).
Qed.

(** A unique table of numbered names: eight insertions, one of them of a name
    that is there in other letters, a search, a change of a name, removals. *)
Definition names (n : nat) : list Z :=
  nth n [str "alpha"; str "beta"; str "gamma"; str "delta"; str "Alpha"; str "epsilon"; str "zeta"; str "eta"] [64].

Definition session : list (op nat) :=
  let slot := Some (mkLink None 0 0%nat) in
  [Insert slot 0; Insert slot 1; Insert slot 2; Insert slot 3; Insert slot 4; Insert None 5; Insert slot 5; Insert slot 6; Insert slot 7;
   Search (str "ALPHA"); Update 2 (str "beta"); Update 2 (str "theta"); Delete 0; Delete 0; Search (str "alpha"); Search (str "THETA");
   Delete 6]%nat.

Lemma hash_refines_bag_witness :
  exists answers key' h,
    run_hash (my_coll my_charset_latin1) (fun k => my_hash_sort my_charset_latin1 0 k) (names, my_hash_init2 0 true true) session
      = Some (answers, (key', h))
    /\ Forall2 agree answers [Refused false; Refused false; Refused false; Refused false; Refused true; Refused true; Refused false; Refused false;
         Refused false; Found [0%nat]; Refused true; Refused false; Refused false; Refused true; Found []; Found [2%nat]; Refused false]
    /\ contents h ≡ₚ [7; 5; 3; 2; 1]%nat /\ freed h ≡ₚ [0; 6]%nat.
Proof.
  destruct (hash_refines_bag nat my_charset_latin1 (fun _ => 0%nat) names 0 true true session) as (l & key' & h & Hr & Hl & _ & Hc & Hf & _);
    [vm_compute; reflexivity|].
  exists l, key', h. split; [exact Hr|]. split; [exact Hl|]. split; [exact Hc|exact Hf].
Defined.
