(* ===== verification/Wild.v ===== *)
(** * Wildcard patterns (mysys/mf_wcomp.c)

    [wild_compare] compares a name with a pattern in which one character,
    normally a star, stands for any characters and another, normally a
    question mark, for one; a prefix character, when the program has set one,
    takes away the meaning of the character behind it.  The theorem says
    that the backtracking search decides the declarative meaning of the
    pattern. *)

From S2P Require Import Prelude.
From S2P Require Import CString.

Section wild.
  (** The global variables: [*] and [?] unless the program changes them, and 0
      when there is no prefix. *)
  Context (wild_many wild_one wild_prefix : Z).

Definition is_wild (c : Z) : bool := (c =? wild_many) || (c =? wild_one).

(** [*wildstr == wild_prefix && wildstr[1]] *)
Definition escapes (w : list Z) : bool := (deref w =? wild_prefix) && negb (at_ w 1 =? 0).

(** The loop over the characters up to the next wildcard; [None] is a
    mismatch. *)
Fixpoint literals (fuel : nat) (str_is_pattern : bool) (str w : list Z) : option (list Z * list Z) :=
  match fuel with
  | O => Some (str, w)
  | S fuel' =>
      if (deref w =? 0) || is_wild (deref w) then Some (str, w)
      else
        let escaped := escapes w in
        let w := if escaped then drop 1 w else w in
        if escaped && str_is_pattern && negb (deref str =? wild_prefix) then None
        else
          let str := if escaped && str_is_pattern then drop 1 str else str in
          if negb (deref w =? deref str) then None
          else literals fuel' str_is_pattern (drop 1 str) (drop 1 w)
  end.

(** [while (str_is_pattern && *str == wild_many) str++] *)
Definition skip_many (str_is_pattern : bool) (str : list Z) : list Z :=
  if str_is_pattern then skip_while (fun c => c =? wild_many) str else str.

(** The wildcards behind a [*]: each [?] takes a character. *)
Fixpoint stars (str_is_pattern : bool) (str w : list Z) : option (list Z * list Z) :=
  match w with
  | c :: w' =>
      if c =? wild_many then stars str_is_pattern (skip_many str_is_pattern str) w'
      else if c =? wild_one then
        if str_is_pattern && escapes str then stars str_is_pattern (drop 2 str) w'
        else if deref str =? 0 then None
        else stars str_is_pattern (drop 1 str) w'
      else Some (str, w)
  | [] => Some (str, w)
  end.

(** The search for a place from which the rest of the pattern matches. *)
Fixpoint search (rest_matches : list Z -> bool) (cmp : Z) (str : list Z) : bool :=
  match str with
  | [] => false
  | c :: str' => if (c =? cmp) && rest_matches str then true else search rest_matches cmp str'
  end.

(** The function with [true] for the result 0.  Every turn of the loop and
    every recursive call uses up a wildcard of the pattern. *)
Fixpoint wild_match (fuel : nat) (str_is_pattern : bool) (str w : list Z) : bool :=
  match fuel with
  | O => false
  | S fuel' =>
      match literals (length w) str_is_pattern str w with
      | None => false
      | Some (str, []) => deref str =? 0
      | Some (str, c :: w) =>
          if c =? wild_one then
            if (deref str =? 0) || str_is_pattern && (deref str =? wild_many) then false
            else
              let str' := drop 1 str in
              let str' :=
                if (deref str =? wild_prefix) && str_is_pattern && negb (deref str' =? 0) then drop 1 str' else str' in
              wild_match fuel' str_is_pattern str' w
          else
            match stars str_is_pattern (skip_many str_is_pattern str) w with
            | None => false
            | Some (str, []) => true
            | Some (str, w) =>
                let cmp := if escapes w && negb str_is_pattern then at_ w 1 else deref w in
                search (fun s => wild_match fuel' str_is_pattern s w) cmp str
            end
      end
  end.

Definition wild_compare (str w : list Z) (str_is_pattern : bool) : Z :=
  if wild_match (S (length w)) str_is_pattern str w then 0 else 1.

(** ** What a pattern means *)

Inductive token := Lit (c : Z) | One | Many.

Fixpoint parse (fuel : nat) (w : list Z) : list token :=
  match fuel, w with
  | S fuel', c :: w' =>
      if c =? wild_many then Many :: parse fuel' w'
      else if c =? wild_one then One :: parse fuel' w'
      else if escapes w then Lit (deref w') :: parse fuel' (drop 1 w')
      else Lit c :: parse fuel' w'
  | _, _ => []
  end.

Inductive matches : list token -> list Z -> Prop :=
  | match_nil : matches [] []
  | match_lit c p s : matches p s -> matches (Lit c :: p) (c :: s)
  | match_one c p s : matches p s -> matches (One :: p) (c :: s)
  | match_many p s1 s2 : matches p s2 -> matches (Many :: p) (s1 ++ s2).

Definition tokens (w : list Z) : list token := parse (length w) w.

(** ** The search decides the meaning *)

  Context (Hmany : wild_many <> 0) (Hone : wild_one <> 0) (Hdiff : wild_many <> wild_one).

Lemma parse_fuel n m w : (length w <= n)%nat -> (length w <= m)%nat -> parse n w = parse m w.
Proof.
  revert m w. induction n as [|n IH]; intros [|m] [|c w] Hn Hm; cbn [length] in *; try lia; try done.
  cbn [parse]. destruct (c =? wild_many); [f_equal; apply IH; lia|].
  destruct (c =? wild_one); [f_equal; apply IH; lia|].
  destruct (escapes _); f_equal; apply IH; rewrite ?length_drop; lia.
Qed.

Lemma tokens_cons c w :
  tokens (c :: w)
  = if c =? wild_many then Many :: tokens w
    else if c =? wild_one then One :: tokens w
    else if escapes (c :: w) then Lit (deref w) :: tokens (drop 1 w)
    else Lit c :: tokens w.
Proof.
  unfold tokens. cbn [length parse]. destruct (c =? wild_many); [done|]. destruct (c =? wild_one); [done|].
  destruct (escapes _); [|done]. f_equal. apply parse_fuel; rewrite length_drop; lia.
Qed.

Lemma escapes_cons c w : c_string (c :: w) -> escapes (c :: w) = (c =? wild_prefix) && negb (bool_decide (w = [])).
Proof.
  intros Hw. unfold escapes. change (deref (c :: w)) with c. do 2 f_equal.
  inversion Hw as [|? ? _ Hw']; subst. destruct w as [|d w]; [done|]. inversion Hw'; subst. cbn.
  by apply is_char_nz.
Qed.

Lemma matches_lit c p s : matches (Lit c :: p) s <-> exists s', s = c :: s' /\ matches p s'.
Proof. split; [inversion 1; eauto|intros (s' & -> & H); by constructor]. Qed.

Lemma matches_one p s : matches (One :: p) s <-> exists c s', s = c :: s' /\ matches p s'.
Proof. split; [inversion 1; eauto|intros (c & s' & -> & H); by constructor]. Qed.

Lemma matches_many p s : matches (Many :: p) s <-> exists s1 s2, s = s1 ++ s2 /\ matches p s2.
Proof. split; [inversion 1; eauto|intros (s1 & s2 & -> & H); by constructor]. Qed.

Lemma matches_nil s : matches [] s <-> s = [].
Proof. split; [by inversion 1|intros ->; constructor]. Qed.

Lemma matches_many_many p s : matches (Many :: Many :: p) s <-> matches (Many :: p) s.
Proof.
  rewrite !matches_many. split.
  - intros (s1 & s2 & -> & (s3 & s4 & -> & H)%matches_many). exists (s1 ++ s3), s4. by rewrite app_assoc.
  - intros (s1 & s2 & -> & H). exists s1, s2. split; [done|]. by apply (match_many _ []).
Qed.

Lemma matches_many_one p s : matches (Many :: One :: p) s <-> exists c s', s = c :: s' /\ matches (Many :: p) s'.
Proof.
  split.
  - intros (s1 & s2 & -> & (c & s' & -> & H)%matches_one)%matches_many.
    destruct s1 as [|d s1]; [exists c, s'; split; [done|]; by apply (match_many _ [])|].
    exists d, (s1 ++ c :: s'). split; [done|]. rewrite (cons_middle c s1 s'), app_assoc. by constructor.
  - intros (c & s' & -> & (s1 & s2 & -> & H)%matches_many).
    destruct s1 as [|d s1] using rev_ind.
    + apply (match_many _ []). by constructor.
    + rewrite <-app_assoc. change (c :: s1 ++ [d] ++ s2) with ((c :: s1) ++ d :: s2). by do 2 constructor.
Qed.

(** The literal characters. *)
Lemma literals_spec n str w :
  c_string str -> c_string w -> (length w <= n)%nat ->
  match literals n false str w with
  | None => ~ matches (tokens w) str
  | Some (str', w') =>
      (matches (tokens w) str <-> matches (tokens w') str') /\ c_string str' /\ c_string w'
      /\ (length w' <= length w)%nat /\ (w' = [] \/ is_wild (deref w') = true)
  end.
Proof.
  revert str w. induction n as [|n IH]; intros str w Hs Hw Hn.
  { destruct w; [|cbn in Hn; lia]. cbn. split_and!; try done; by left. }
  cbn [literals]. destruct w as [|c w]; [cbn; split_and!; try done; by left|].
  change (deref (c :: w)) with c. pose proof Hw as Hw0. inversion Hw0 as [|? ? Hc Hw']; subst. rewrite is_char_nz by done. cbn [orb].
  destruct (is_wild c) eqn:Hwild; [split_and!; try done; by right|].
  unfold is_wild in Hwild. apply orb_false_iff in Hwild as [H1 H2].
  rewrite tokens_cons, H1, H2. rewrite !andb_false_r. cbn [andb].
  assert (Hstep : forall d v, c_string (d :: v) -> (length v <= n)%nat -> (length v <= length w)%nat ->
    match (if negb (d =? deref str) then None else literals n false (drop 1 str) v) with
    | None => ~ matches (Lit d :: tokens v) str
    | Some (str', w') =>
        (matches (Lit d :: tokens v) str <-> matches (tokens w') str') /\ c_string str' /\ c_string w'
        /\ (length w' <= S (length w))%nat /\ (w' = [] \/ is_wild (deref w') = true)
    end).
  { intros d v Hd Hv Hvw. inversion Hd as [|? ? Hd' Hv']; subst.
    destruct (Z.eqb_spec d (deref str)) as [He|He]; cbn [negb].
    - destruct str as [|e str]; [cbn in He; by subst|]. cbn in He. subst e. rewrite drop_1_cons.
      inversion Hs as [|? ? _ Hs']; subst. specialize (IH str v Hs' Hv' Hv).
      destruct (literals n false str v) as [[str' w']|].
      + destruct IH as (IH & H3 & H4 & H5 & H6). split_and!; try done; [|lia].
        rewrite matches_lit, <-IH. split; [by intros (s' & [= <-] & H)|eauto].
      + rewrite matches_lit. by intros (s' & [= <-] & H).
    - rewrite matches_lit. by intros (s' & -> & H). }
  cbn [length] in Hn |- *. destruct (escapes (c :: w)) eqn:Hesc.
  - rewrite drop_1_cons. rewrite escapes_cons in Hesc by done. destruct w as [|d w]; [by rewrite andb_false_r in Hesc|].
    cbn [drop]. rewrite !drop_0. change (deref (d :: w)) with d. apply Hstep; [done|cbn in Hn; lia|cbn; lia].
  - rewrite drop_1_cons. change (deref (c :: w)) with c. apply Hstep; [done|lia|lia].
Qed.

(** The wildcards behind a star. *)
Lemma stars_spec str w :
  c_string str -> c_string w ->
  match stars false str w with
  | None => ~ matches (Many :: tokens w) str
  | Some (str', w') =>
      (matches (Many :: tokens w) str <-> matches (Many :: tokens w') str') /\ c_string str' /\ c_string w'
      /\ (length w' <= length w)%nat /\ (w' = [] \/ is_wild (deref w') = false)
  end.
Proof.
  intros Hs Hw. revert str Hs. induction Hw as [|c w Hc Hw IH]; intros str Hs.
  { cbn. split_and!; try done; by left. }
  cbn [stars]. rewrite tokens_cons. destruct (c =? wild_many) eqn:H1; [|destruct (c =? wild_one) eqn:H2].
  - cbn [skip_many]. specialize (IH str Hs). destruct (stars false str w) as [[str' w']|].
    + destruct IH as (IH & H3 & H4 & H5 & H6). rewrite matches_many_many. split_and!; try done. cbn. lia.
    + by rewrite matches_many_many.
  - cbn [andb]. rewrite deref_c_string by done. case_bool_decide as Hnil.
    { subst str. rewrite matches_many_one. by intros (x & s' & ? & _). }
    destruct str as [|x str]; [done|]. rewrite drop_1_cons. inversion Hs as [|? ? _ Hs']; subst.
    specialize (IH str Hs'). destruct (stars false str w) as [[str' w']|].
    + destruct IH as (IH & H3 & H4 & H5 & H6). rewrite matches_many_one. split_and!; try done; [|cbn; lia].
      rewrite <-IH. split; [by intros (? & ? & [= <- <-] & H)|eauto].
    + rewrite matches_many_one. by intros (? & ? & [= <- <-] & H).
  - rewrite tokens_cons, H1, H2. split_and!; try done; [by constructor|]. right. cbn. unfold is_wild. by rewrite H1, H2.
Qed.

(** The first character a pattern that starts with a literal needs. *)
Lemma tokens_first c w s :
  c_string (c :: w) -> is_wild c = false -> matches (tokens (c :: w)) s ->
  exists s', s = (if escapes (c :: w) then at_ (c :: w) 1 else c) :: s'.
Proof.
  intros Hw [H1 H2]%orb_false_iff. rewrite tokens_cons, H1, H2.
  destruct (escapes _); intros (s' & -> & _)%matches_lit; [|by exists s'].
  exists s'. by destruct w.
Qed.

Lemma search_spec f cmp p str :
  c_string str ->
  (forall s, c_string s -> f s = true <-> matches p s) ->
  (forall s, matches p s -> exists s', s = cmp :: s') ->
  search f cmp str = true <-> matches (Many :: p) str.
Proof.
  intros Hs Hf Hfirst. induction Hs as [|c str Hc Hs IH]; cbn [search].
  - split; [done|]. intros (s1 & s2 & [-> ->]%eq_sym%app_eq_nil & H)%matches_many.
    by destruct (Hfirst _ H) as [s' ?].
  - assert (Hcs : c_string (c :: str)) by by constructor.
    destruct (Z.eqb_spec c cmp) as [->|Hne]; cbn [andb].
    + destruct (f (cmp :: str)) eqn:Hfc.
      * split; [intros _|done]. apply Hf in Hfc; [|done]. by apply (match_many _ []).
      * rewrite IH, !matches_many. split.
        -- intros (s1 & s2 & -> & H). exists (cmp :: s1), s2. done.
        -- intros (s1 & s2 & He & H). destruct s1 as [|d s1]; [|injection He as _ He; by exists s1, s2].
           cbn in He. subst s2. apply Hf in H; [congruence|done].
    + rewrite IH, !matches_many. split.
      * intros (s1 & s2 & -> & H). exists (c :: s1), s2. done.
      * intros (s1 & s2 & He & H). destruct s1 as [|d s1]; [|injection He as _ He; by exists s1, s2].
        cbn in He. subst s2. destruct (Hfirst _ H) as [s' [= ? ?]]. done.
Qed.

Lemma wild_match_spec fuel str w :
  c_string str -> c_string w -> (length w < fuel)%nat ->
  wild_match fuel false str w = true <-> matches (tokens w) str.
Proof.
  revert str w. induction fuel as [|fuel IH]; intros str w Hs Hw Hf; [lia|]. cbn [wild_match].
  pose proof (literals_spec (length w) str w Hs Hw ltac:(done)) as Hlit.
  destruct (literals _ _ _ _) as [[str1 w1]|]; [|by split].
  destruct Hlit as (-> & Hs1 & Hw1 & Hl1 & Hend). destruct w1 as [|c w1].
  { rewrite deref_c_string by done. rewrite bool_decide_eq_true. by rewrite matches_nil. }
  destruct Hend as [?|Hwild]; [done|]. cbn in Hwild. inversion Hw1 as [|? ? Hc Hw1']; subst. cbn [length] in Hl1.
  rewrite tokens_cons. destruct (c =? wild_one) eqn:H1.
  - assert ((c =? wild_many) = false) as -> by (apply Z.eqb_eq in H1; apply Z.eqb_neq; congruence).
    cbn [andb]. rewrite andb_false_r, orb_false_r. cbn [andb]. rewrite deref_c_string, matches_one by done.
    case_bool_decide as Hnil; [subst; split; [done|by intros (? & ? & ? & _)]|].
    destruct str1 as [|x str1]; [done|]. rewrite drop_1_cons. inversion Hs1; subst.
    rewrite IH by (done || lia). split; [eauto|by intros (? & ? & [= <- <-] & H)].
  - assert ((c =? wild_many) = true) as -> by (unfold is_wild in Hwild; by rewrite H1, orb_false_r in Hwild).
    cbn [skip_many]. pose proof (stars_spec str1 w1 Hs1 Hw1') as Hst.
    destruct (stars _ _ _) as [[str2 w2]|]; [|by split].
    destruct Hst as (-> & Hs2 & Hw2 & Hl2 & Hend2). destruct w2 as [|d w2].
    { split; [intros _|done]. rewrite <-(app_nil_r str2). constructor. constructor. }
    destruct Hend2 as [?|Hd]; [done|]. rewrite andb_true_r. change (deref (d :: w2)) with d in *.
    apply search_spec; [done|..].
    + intros s' Hs'. apply IH; [done|done|]. lia.
    + intros s'. by apply tokens_first.
Qed.

(** C25. Comparing a name with a wildcard pattern decides what the pattern
    means: [wild_compare] returns 0 exactly when the name is made of the
    pattern's literal characters in order, with any characters where the
    pattern has a star, one character where it has a question mark, and the
    character behind a prefix taken literally.  It always returns, and it
    never rejects a name because of a wrong first try. *)
Theorem wild_compare_matches (str w : list Z) :
  c_string str -> c_string w ->
  wild_compare str w false = 0 <-> matches (tokens w) str.
Proof.
  intros Hs Hw. unfold wild_compare. rewrite <-(wild_match_spec (S (length w)) str w) by (done || lia).
  by destruct (wild_match _ _ _ _).
Qed.

End wild.

Lemma wild_compare_matches_witness :
  matches (tokens "*"%chr "?"%chr "\"%chr (str "t*\_?.f*m")) (str "tab_1.frm").
Proof.
  apply (wild_compare_matches "*"%chr "?"%chr "\"%chr); try done; by repeat constructor.
Defined.
