(* ===== verification/Dates.v ===== *)
(** * Day numbers and calendar dates (sql-common/my_time.c, sql/sql_time.cc)

    Dates are converted to the number of days since year 0 and back, in the
    Gregorian calendar extended to all years.  [int] and [uint] values are
    integers; where the source relies on unsigned arithmetic the wrap-around
    is written out, and signed division rounds towards zero.  The theorems
    say that the day number counts days, and that every date is recovered
    from its number. *)

From Stdlib Require Import ZifyNat.
From S2P Require Import Prelude.

Inductive enum_mysql_timestamp_type :=
  | MYSQL_TIMESTAMP_NONE | MYSQL_TIMESTAMP_ERROR | MYSQL_TIMESTAMP_DATE | MYSQL_TIMESTAMP_DATETIME
  | MYSQL_TIMESTAMP_TIME.

Record MYSQL_TIME := mkTime {
  year : Z; month : Z; day : Z; hour : Z; minute : Z; second : Z; second_part : Z;
  neg : bool;
  time_type : enum_mysql_timestamp_type
}.

Definition is_time (t : enum_mysql_timestamp_type) : bool :=
  match t with MYSQL_TIMESTAMP_TIME => true | _ => false end.

Definition days_in_month : list Z := [31; 28; 31; 30; 31; 30; 31; 31; 30; 31; 30; 31; 0].

Definition C_TIME_NO_ZERO_IN_DATE : Z := 2 ^ 23.
Definition C_TIME_NO_ZERO_DATE : Z := 2 ^ 24.
Definition C_TIME_INVALID_DATES : Z := 2 ^ 25.
Definition MYSQL_TIME_WARN_ZERO_DATE : Z := 8.
Definition TIME_MAX_HOUR : Z := 838.
Definition TIME_MAX_SECOND_PART : Z := 999999.
Definition YY_PART_YEAR : Z := 70.
Definition MAX_DAY_NUMBER : Z := 3652424.

Definition calc_days_in_year (y : Z) : Z :=
  if (Z.land y 3 =? 0) && (negb (y mod 100 =? 0) || (y mod 400 =? 0) && negb (y =? 0)) then 366 else 365.

Definition has_flag (flags flag : Z) : bool := negb (Z.land flags flag =? 0).

(** The result and the new value of [was_cut]. *)
Definition check_date (t : MYSQL_TIME) (not_zero_date : bool) (flags was_cut : Z) : bool * Z :=
  if is_time (time_type t) then (false, was_cut)
  else if not_zero_date then
    if has_flag flags C_TIME_NO_ZERO_IN_DATE && ((month t =? 0) || (day t =? 0))
       || neg t
       || negb (has_flag flags C_TIME_INVALID_DATES)
          && negb (month t =? 0) && (at_ days_in_month (Z.to_nat (month t - 1)) <? day t)
          && (negb (month t =? 2) || negb (calc_days_in_year (year t) =? 366) || negb (day t =? 29))
    then (true, 2)
    else (false, was_cut)
  else if has_flag flags C_TIME_NO_ZERO_DATE then (true, Z.lor was_cut MYSQL_TIME_WARN_ZERO_DATE)
  else (false, was_cut).

Definition check_datetime_range (t : MYSQL_TIME) : bool :=
  (9999 <? year t) || (12 <? month t) || (31 <? day t) || (59 <? minute t) || (59 <? second t)
  || (TIME_MAX_SECOND_PART <? second_part t) || ((if is_time (time_type t) then TIME_MAX_HOUR else 23) <? hour t).

Definition year_2000_handling (y : Z) : Z :=
  if y + 1900 <? 1900 + YY_PART_YEAR then y + 1900 + 100 else y + 1900.

Definition calc_daynr (yr mon dy : Z) : Z :=
  if (yr =? 0) && (mon =? 0) then 0
  else
    let delsum := 365 * yr + 31 * (mon - 1) + dy in
    let '(y, delsum) := if mon <=? 2 then (yr - 1, delsum) else (yr, delsum - Z.quot (mon * 4 + 23) 10) in
    let temp := Z.quot ((Z.quot y 100 + 1) * 3) 4 in
    delsum + Z.quot y 4 - temp.

Definition calc_weekday (daynr : Z) (sunday_first_day_of_week : bool) : Z :=
  Z.rem (daynr + 5 + (if sunday_first_day_of_week then 1 else 0)) 7.

(** [while (day_of_year > days_in_year)] *)
Fixpoint year_loop (fuel : nat) (y day_of_year : Z) : Z * Z :=
  match fuel with
  | O => (y, day_of_year)
  | S fuel' =>
      if calc_days_in_year y <? day_of_year
      then year_loop fuel' (y + 1) (day_of_year - calc_days_in_year y)
      else (y, day_of_year)
  end.

Fixpoint month_loop (lengths : list Z) (mon day_of_year : Z) : Z * Z :=
  match lengths with
  | [] => (mon, day_of_year)
  | n :: lengths' => if n <? day_of_year then month_loop lengths' (mon + 1) (day_of_year - n) else (mon, day_of_year)
  end.

(** The month and the day from the day of the year. *)
Definition month_and_day (days_in_year day_of_year : Z) : Z * Z :=
  let '(day_of_year, leap_day) :=
    if (days_in_year =? 366) && (31 + 28 <? day_of_year)
    then (day_of_year - 1, if day_of_year - 1 =? 31 + 28 then 1 else 0)
    else (day_of_year, 0) in
  let '(mon, d) := month_loop days_in_month 1 day_of_year in
  (mon, d + leap_day).

(** The date, or [None] when the function reports an error.  Every turn of the
    loop over the years takes at least 365 days off. *)
Definition get_date_from_daynr (daynr : Z) : option (Z * Z * Z) :=
  if (daynr <? 366) || (MAX_DAY_NUMBER <? daynr) then None
  else
    let y := daynr * 100 / 36525 in
    let temp := ((y - 1) / 100 + 1) * 3 / 4 in
    let day_of_year := ((daynr - y * 365) - (y - 1) / 4 + temp) mod 2 ^ 32 in
    let '(y, day_of_year) := year_loop (Z.to_nat day_of_year) y day_of_year in
    let '(mon, d) := month_and_day (calc_days_in_year y) day_of_year in
    Some (y, mon, d).

(** Periods: months counted from year 0, written YYYYMM or YYMM. *)
Definition convert_period_to_month (period : Z) : Z :=
  if (period =? 0) || (999912 <? period) then 0
  else
    let a := period / 100 in
    let a := if a <? YY_PART_YEAR then a + 2000 else if a <? 100 then a + 1900 else a in
    a * 12 + period mod 100 - 1.

Definition convert_month_to_period (mon : Z) : Z :=
  if mon =? 0 then 0
  else
    let y := mon / 12 in
    let y := if y <? 100 then y + (if y <? YY_PART_YEAR then 2000 else 1900) else y in
    y * 100 + mon mod 12 + 1.

(** ** The day number counts days *)

(** The leap days up to and including year [y]. *)
Definition leap_days (y : Z) : Z := y / 4 - ((y / 100 + 1) * 3) / 4.

Lemma days_in_year_eq y :
  calc_days_in_year y
  = if (y mod 4 =? 0) && (negb (y mod 100 =? 0) || (y mod 400 =? 0) && negb (y =? 0)) then 366 else 365.
Proof. unfold calc_days_in_year. change 3 with (Z.ones 2). by rewrite Z.land_ones by lia. Qed.

Lemma leap_days_step y : 1 <= y -> leap_days y - leap_days (y - 1) = calc_days_in_year y - 365.
Proof.
  intros Hy. rewrite days_in_year_eq. unfold leap_days.
  destruct (Z.eqb_spec (y mod 4) 0), (Z.eqb_spec (y mod 100) 0), (Z.eqb_spec (y mod 400) 0), (Z.eqb_spec y 0);
    cbn [andb orb negb]; Z.to_euclidean_division_equations; lia.
Qed.

Definition month_length (y mon : Z) : Z :=
  at_ days_in_month (Z.to_nat (mon - 1)) + (if (mon =? 2) && (calc_days_in_year y =? 366) then 1 else 0).

Definition valid_date (y mon d : Z) : Prop :=
  0 <= y /\ 1 <= mon <= 12 /\ 1 <= d <= month_length y mon.

(** The day after. *)
Definition next_date (y mon d : Z) : Z * Z * Z :=
  if d <? month_length y mon then (y, mon, d + 1)
  else if mon <? 12 then (y, mon + 1, 1) else (y + 1, 1, 1).

Lemma calc_daynr_eq y mon d : 1 <= y -> 1 <= mon <= 12 ->
  calc_daynr y mon d
  = 365 * y + 31 * (mon - 1) + d
    + (if mon <=? 2 then leap_days (y - 1) else leap_days y - (mon * 4 + 23) / 10).
Proof.
  intros Hy Hm. unfold calc_daynr, leap_days. rewrite (proj2 (Z.eqb_neq y 0)) by lia. cbn [andb].
  destruct (Z.leb_spec mon 2); rewrite !Z.quot_div_nonneg by (Z.to_euclidean_division_equations; lia); lia.
Qed.

(** Year 0 has 365 days. *)
Lemma calc_daynr_0 mon d : 1 <= mon <= 12 ->
  calc_daynr 0 mon d = 31 * (mon - 1) + d - (if mon <=? 2 then 0 else (mon * 4 + 23) / 10).
Proof.
  intros Hm. unfold calc_daynr. rewrite (proj2 (Z.eqb_neq mon 0)) by lia. cbn [Z.eqb andb].
  destruct (Z.leb_spec mon 2); [cbn; lia|]. rewrite Z.quot_div_nonneg by lia. cbn. lia.
Qed.

Lemma month_cases mon : 1 <= mon <= 12 ->
  mon = 1 \/ mon = 2 \/ mon = 3 \/ mon = 4 \/ mon = 5 \/ mon = 6 \/ mon = 7 \/ mon = 8 \/ mon = 9 \/ mon = 10
  \/ mon = 11 \/ mon = 12.
Proof. lia. Qed.

Lemma days_in_year_cases y : calc_days_in_year y = 365 \/ calc_days_in_year y = 366.
Proof. unfold calc_days_in_year. destruct (_ && _); auto. Qed.

(** Twelve goals, one for each month. *)
Ltac each_month H := apply month_cases in H; repeat (destruct H as [->|H]); subst.

(** Evaluates the closed comparisons, table entries and quotients. *)
Ltac eval_closed :=
  repeat match goal with
  | |- context [?a <=? ?b] => let r := eval vm_compute in (a <=? b) in change (a <=? b) with r
  | |- context [?a <? ?b] => let r := eval vm_compute in (a <? b) in change (a <? b) with r
  | |- context [at_ days_in_month ?n] =>
      let r := eval vm_compute in (at_ days_in_month n) in change (at_ days_in_month n) with r
  | |- context [?a / 10] => let r := eval vm_compute in (a / 10) in change (a / 10) with r
  end; cbn [Z.eqb Pos.eqb andb].

Lemma calc_daynr_next y mon d :
  valid_date y mon d -> let '(y', mon', d') := next_date y mon d in calc_daynr y' mon' d' = calc_daynr y mon d + 1.
Proof.
  intros (Hy & Hm & Hd). unfold next_date. pose proof (days_in_year_cases y) as Hdy.
  destruct (Z.ltb_spec d (month_length y mon)) as [Hlt|Hge].
  - destruct (Z.eq_dec y 0) as [->|Hy0]; [rewrite !calc_daynr_0 by lia|rewrite !calc_daynr_eq by lia]; lia.
  - assert (d = month_length y mon) as -> by lia. clear Hd Hge. destruct (Z.eq_dec y 0) as [->|Hy0].
    + each_month Hm; reflexivity.
    + pose proof (leap_days_step y ltac:(lia)) as Hstep. unfold month_length.
      destruct Hdy as [Hd|Hd]; rewrite Hd in *; each_month Hm; eval_closed;
        rewrite !calc_daynr_eq by lia; eval_closed; replace (y + 1 - 1) with y by lia; lia.
Qed.

(** A date the checks of the source accept. *)
Definition accepted (t : MYSQL_TIME) : Prop :=
  check_datetime_range t = false
  /\ fst (check_date t true C_TIME_NO_ZERO_IN_DATE 0) = false
  /\ is_time (time_type t) = false /\ 0 <= year t /\ 0 <= month t /\ 0 <= day t.

Lemma accepted_valid t : accepted t -> valid_date (year t) (month t) (day t) /\ year t <= 9999.
Proof.
  intros (Hr & Hc & Ht & Hy & Hm & Hd). unfold check_datetime_range in Hr. rewrite !orb_false_iff, !Z.ltb_ge in Hr.
  unfold check_date in Hc. rewrite Ht in Hc.
  change (has_flag C_TIME_NO_ZERO_IN_DATE C_TIME_NO_ZERO_IN_DATE) with true in Hc.
  change (has_flag C_TIME_NO_ZERO_IN_DATE C_TIME_INVALID_DATES) with false in Hc. cbn [andb negb] in Hc.
  destruct (_ || _) eqn:E in Hc; [done|]. rewrite !orb_false_iff in E. destruct E as [[[Em Ed] _] E].
  apply Z.eqb_neq in Em, Ed. rewrite (proj2 (Z.eqb_neq _ _) Em) in E. cbn [negb andb] in E.
  split; [|lia]. split; [done|]. split; [lia|]. split; [lia|]. unfold month_length.
  destruct (Z.ltb_spec (at_ days_in_month (Z.to_nat (month t - 1))) (day t)) as [Hlt|Hge].
  - cbn [andb] in E. rewrite !orb_false_iff, !negb_false_iff in E. destruct E as [[E1 E2] E3].
    rewrite E1, E2. apply Z.eqb_eq in E1, E3. rewrite E1, E3. eval_closed. lia.
  - clear E. destruct (_ && _); lia.
Qed.

(** The day number counts days: for every date that the checks of the
    source accept, the number of the following day is one more, through ends
    of months, leap days and ends of years, and the day of the week advances
    by one.  The count starts with 1 on the first of January of year 0, and
    the first of January 1970 has the number 719528, a Thursday. *)
Theorem calc_daynr_counts (t : MYSQL_TIME) :
  accepted t ->
  let '(y, mon, d) := next_date (year t) (month t) (day t) in
  let n := calc_daynr (year t) (month t) (day t) in
  calc_daynr y mon d = n + 1
  /\ (forall b, 0 <= n -> calc_weekday (calc_daynr y mon d) b = (calc_weekday n b + 1) mod 7)
  /\ calc_daynr 0 1 1 = 1 /\ calc_daynr 1970 1 1 = 719528 /\ calc_weekday 719528 false = 3.
Proof.
  intros [Hv _]%accepted_valid. pose proof (calc_daynr_next _ _ _ Hv) as Hn.
  destruct (next_date _ _ _) as [[y mon] d]. rewrite Hn. split_and!; try done.
  intros b H0. unfold calc_weekday. rewrite !Z.rem_mod_nonneg by (destruct b; lia).
  destruct b; Z.to_euclidean_division_equations; lia.
Qed.

Lemma calc_daynr_counts_witness :
  calc_daynr 2024 3 1 = calc_daynr 2024 2 29 + 1
  /\ (forall b, 0 <= calc_daynr 2024 2 29 ->
        calc_weekday (calc_daynr 2024 3 1) b = (calc_weekday (calc_daynr 2024 2 29) b + 1) mod 7)
  /\ calc_daynr 0 1 1 = 1 /\ calc_daynr 1970 1 1 = 719528 /\ calc_weekday 719528 false = 3.
Proof.
  apply (calc_daynr_counts (mkTime 2024 2 29 0 0 0 0 false MYSQL_TIMESTAMP_DATE)).
  split_and!; try done; cbn; lia.
Defined.

(** ** The date is recovered from its number *)

(** The number of the last day before year [y]. *)
Definition before_year (y : Z) : Z := 365 * y + leap_days (y - 1).

Lemma before_year_step y : 1 <= y -> before_year (y + 1) = before_year y + calc_days_in_year y.
Proof.
  intros Hy. unfold before_year. pose proof (leap_days_step y Hy). replace (y + 1 - 1) with y by lia. lia.
Qed.

Lemma before_year_grows a n : 1 <= a -> before_year a + 365 * Z.of_nat n <= before_year (a + Z.of_nat n).
Proof.
  intros Ha. induction n as [|n IH]; [replace (a + Z.of_nat 0) with a by lia; lia|].
  replace (a + Z.of_nat (S n)) with (a + Z.of_nat n + 1) by lia. rewrite before_year_step by lia.
  pose proof (days_in_year_cases (a + Z.of_nat n)). lia.
Qed.

Lemma before_year_le a b : 1 <= a <= b -> before_year a + 365 * (b - a) <= before_year b.
Proof.
  intros H. pose proof (before_year_grows a (Z.to_nat (b - a)) ltac:(lia)) as Hg.
  replace (a + Z.of_nat (Z.to_nat (b - a))) with b in Hg by lia. lia.
Qed.

(** The loop finds the year the day is in. *)
Lemma year_loop_spec fuel y n :
  1 <= y -> before_year y < n -> n - before_year y <= 365 * Z.of_nat fuel ->
  exists y', year_loop fuel y (n - before_year y) = (y', n - before_year y') /\ y <= y'
    /\ before_year y' < n <= before_year (y' + 1).
Proof.
  revert y. induction fuel as [|fuel IH]; intros y Hy Hlt Hf; [lia|]. cbn [year_loop].
  pose proof (before_year_step y Hy). pose proof (days_in_year_cases y).
  destruct (Z.ltb_spec (calc_days_in_year y) (n - before_year y)) as [Hgt|Hle].
  - replace (n - before_year y - calc_days_in_year y) with (n - before_year (y + 1)) by lia.
    destruct (IH (y + 1)) as (y' & -> & Hy' & Hn); [lia..|]. exists y'. split; [done|]. lia.
  - exists y. split; [done|]. lia.
Qed.

(** The guess of the year is never too late. *)
Lemma first_guess n : 366 <= n -> 1 <= n * 100 / 36525 /\ before_year (n * 100 / 36525) < n.
Proof. intros H. unfold before_year, leap_days. Z.to_euclidean_division_equations. lia. Qed.

(** The day of the year of a date. *)
Definition day_of (days mon d : Z) : Z :=
  31 * (mon - 1) + d - (if mon <=? 2 then 0 else (mon * 4 + 23) / 10 - (days - 365)).

Lemma calc_daynr_day_of y mon d : 1 <= y -> 1 <= mon <= 12 ->
  calc_daynr y mon d = before_year y + day_of (calc_days_in_year y) mon d.
Proof.
  intros Hy Hm. rewrite calc_daynr_eq by done. unfold before_year, day_of.
  pose proof (leap_days_step y Hy). destruct (mon <=? 2); lia.
Qed.

(** All days of a year, with their months. *)
Definition year_days (days : Z) : list (Z * Z) :=
  flat_map (fun mon =>
    map (fun d => (mon, d))
      (map Z.of_nat (seq 1 (Z.to_nat (at_ days_in_month (Z.to_nat (mon - 1)) + (if (mon =? 2) && (days =? 366) then 1 else 0))))))
    (map Z.of_nat (seq 1 12)).

Lemma in_range a n z : In z (map Z.of_nat (seq a n)) <-> Z.of_nat a <= z < Z.of_nat a + Z.of_nat n.
Proof.
  rewrite in_map_iff. split; [intros (k & <- & Hk%in_seq); lia|]. intros H. exists (Z.to_nat z). rewrite in_seq. lia.
Qed.

Lemma in_year_days days mon d :
  In (mon, d) (year_days days)
  <-> 1 <= mon <= 12
      /\ 1 <= d <= at_ days_in_month (Z.to_nat (mon - 1)) + (if (mon =? 2) && (days =? 366) then 1 else 0).
Proof.
  unfold year_days. rewrite in_flat_map. split.
  - intros (m & Hm%in_range & Hin). apply in_map_iff in Hin as (d' & [= <- <-] & Hd%in_range). lia.
  - intros [Hm Hd]. exists mon. rewrite in_range. split; [lia|]. apply in_map_iff. exists d. split; [done|].
    rewrite in_range. lia.
Qed.

(** Both directions, checked for every day of a common and of a leap year. *)
Lemma month_and_day_of days mon d :
  days = 365 \/ days = 366 -> In (mon, d) (year_days days) ->
  month_and_day days (day_of days mon d) = (mon, d) /\ 1 <= day_of days mon d <= days.
Proof.
  intros Hd Hin.
  assert (Hall : forallb (fun '(m, e) =>
    bool_decide (month_and_day days (day_of days m e) = (m, e))
    && (1 <=? day_of days m e) && (day_of days m e <=? days)) (year_days days) = true)
    by (destruct Hd as [-> | ->]; by vm_compute).
  rewrite forallb_forall in Hall. specialize (Hall _ Hin). cbn in Hall.
  rewrite !andb_true_iff, bool_decide_eq_true, !Z.leb_le in Hall. tauto.
Qed.

Lemma day_of_month_and_day days k :
  days = 365 \/ days = 366 -> 1 <= k <= days ->
  let '(mon, d) := month_and_day days k in In (mon, d) (year_days days) /\ day_of days mon d = k.
Proof.
  intros Hd Hk.
  assert (Hall : forallb (fun e => let '(m, d) := month_and_day days e in
    existsb (fun x => bool_decide (x = (m, d))) (year_days days) && (day_of days m d =? e))
    (map Z.of_nat (seq 1 (Z.to_nat days))) = true) by (destruct Hd as [-> | ->]; by vm_compute).
  rewrite forallb_forall in Hall. specialize (Hall k). rewrite in_range in Hall.
  destruct (month_and_day days k) as [mon d]. rewrite andb_true_iff, existsb_exists, Z.eqb_eq in Hall.
  destruct Hall as [(x & Hx & ->%bool_decide_eq_true) He]; [lia|]. done.
Qed.

Lemma valid_year_days y mon d : valid_date y mon d <-> 0 <= y /\ In (mon, d) (year_days (calc_days_in_year y)).
Proof. rewrite in_year_days. unfold valid_date, month_length. tauto. Qed.

(** The year and the day of the year of a day number are unique. *)
Lemma year_unique n a b : 1 <= a -> 1 <= b ->
  before_year a < n <= before_year (a + 1) -> before_year b < n <= before_year (b + 1) -> a = b.
Proof.
  intros Ha Hb Hna Hnb. destruct (Z.lt_trichotomy a b) as [H|[H|H]]; [|done|].
  - pose proof (before_year_le (a + 1) b ltac:(lia)). lia.
  - pose proof (before_year_le (b + 1) a ltac:(lia)). lia.
Qed.

(** What the function computes. *)
Lemma get_date_from_daynr_eq n : 366 <= n <= MAX_DAY_NUMBER ->
  exists y, 1 <= y <= 9999 /\ before_year y < n <= before_year (y + 1)
    /\ get_date_from_daynr n
       = let '(mon, d) := month_and_day (calc_days_in_year y) (n - before_year y) in Some (y, mon, d).
Proof.
  intros Hn. destruct (first_guess n) as [Hg1 Hg2]; [lia|]. unfold get_date_from_daynr.
  rewrite (proj2 (Z.ltb_ge _ _)), (proj2 (Z.ltb_ge MAX_DAY_NUMBER n)) by lia. cbn [orb]. cbv zeta.
  set (y0 := n * 100 / 36525) in *.
  replace (n - y0 * 365 - (y0 - 1) / 4 + ((y0 - 1) / 100 + 1) * 3 / 4) with (n - before_year y0)
    by (unfold before_year, leap_days; lia).
  assert (Hb : 0 <= before_year y0) by (unfold before_year, leap_days; Z.to_euclidean_division_equations; lia).
  rewrite Z.mod_small by (unfold MAX_DAY_NUMBER in Hn; lia).
  destruct (year_loop_spec (Z.to_nat (n - before_year y0)) y0 n) as (y & -> & Hy & Hny); [lia..|].
  exists y. split; [|split; [done|by destruct (month_and_day _ _)]]. split; [lia|].
  destruct (Z.le_gt_cases y 9999) as [?|Hgt]; [done|]. pose proof (before_year_le 10000 y ltac:(lia)).
  assert (before_year 10000 = MAX_DAY_NUMBER) by reflexivity. lia.
Qed.

Lemma calc_daynr_range y mon d : valid_date y mon d -> 1 <= y <= 9999 ->
  before_year y < calc_daynr y mon d <= before_year (y + 1) /\ 366 <= calc_daynr y mon d <= MAX_DAY_NUMBER.
Proof.
  intros [Hy0 Hin]%valid_year_days Hy. pose proof (proj1 (in_year_days _ _ _) Hin) as [Hm _].
  rewrite calc_daynr_day_of by lia. rewrite before_year_step by lia.
  destruct (month_and_day_of _ _ _ (days_in_year_cases y) Hin) as [_ Hd].
  pose proof (before_year_le 1 y ltac:(lia)). pose proof (before_year_le (y + 1) 10000 ltac:(lia)).
  rewrite before_year_step in * by lia.
  assert (before_year 10000 = MAX_DAY_NUMBER) by reflexivity. assert (before_year 1 = 365) by reflexivity. lia.
Qed.

(** C20. Dates and day numbers correspond one to one: in the supported range,
    [get_date_from_daynr] returns a date for a day number exactly when
    that date exists in the calendar, lies in the years 1 to 9999 and has that
    number according to [calc_daynr].  In particular every date is
    recovered from its number, and every number from 366 to the number of
    the last day of year 9999 is the number of a date. *)
Theorem get_date_from_daynr_inverse (n y mon d : Z) :
  get_date_from_daynr n = Some (y, mon, d)
  <-> valid_date y mon d /\ 1 <= y <= 9999 /\ calc_daynr y mon d = n.
Proof.
  split.
  - intros He. assert (Hn : 366 <= n <= MAX_DAY_NUMBER).
    { unfold get_date_from_daynr in He. destruct (Z.ltb_spec n 366), (Z.ltb_spec MAX_DAY_NUMBER n); try done; lia. }
    destruct (get_date_from_daynr_eq n Hn) as (y' & Hy & Hny & Hg). rewrite Hg in He.
    pose proof (before_year_step y' ltac:(lia)).
    pose proof (day_of_month_and_day _ (n - before_year y') (days_in_year_cases y') ltac:(lia)) as Hd.
    destruct (month_and_day _ _) as [m e]. injection He as -> -> ->. destruct Hd as [Hin Hd].
    rewrite valid_year_days. split; [split; [lia|done]|]. split; [done|].
    apply in_year_days in Hin as [Hm _]. rewrite calc_daynr_day_of by lia. lia.
  - intros (Hv & Hy & <-). destruct (calc_daynr_range _ _ _ Hv Hy) as [Hr Hn].
    destruct (get_date_from_daynr_eq _ Hn) as (y' & Hy' & Hny & ->).
    rewrite (year_unique (calc_daynr y mon d) y' y ltac:(lia) ltac:(lia) Hny Hr).
    apply valid_year_days in Hv as [_ Hin]. pose proof (proj1 (in_year_days _ _ _) Hin) as [Hm _].
    rewrite calc_daynr_day_of by lia.
    replace (before_year y + _ - before_year y) with (day_of (calc_days_in_year y) mon d) by lia.
    by destruct (month_and_day_of _ _ _ (days_in_year_cases y) Hin) as [-> _].
Qed.

(** ** Years of two digits and periods *)

(** A year of two digits is one of the years 1970 to 2069 that end in them. *)
Lemma year_2000_handling_range y : 0 <= y < 100 ->
  1970 <= year_2000_handling y <= 2069 /\ year_2000_handling y mod 100 = y.
Proof.
  intros H. unfold year_2000_handling, YY_PART_YEAR.
  destruct (Z.ltb_spec (y + 1900) (1900 + 70)); Z.to_euclidean_division_equations; lia.
Qed.

(** A period is recovered from its number of months, with the century added
    to a year of two digits. *)
Lemma period_roundtrip y mon : 0 <= y <= 9999 -> 1 <= mon <= 12 ->
  convert_month_to_period (convert_period_to_month (y * 100 + mon))
  = (if y <? 100 then year_2000_handling y else y) * 100 + mon.
Proof.
  intros Hy Hm. unfold convert_period_to_month, year_2000_handling, YY_PART_YEAR.
  rewrite (proj2 (Z.eqb_neq _ 0)), (proj2 (Z.ltb_ge 999912 _)) by lia. cbn [orb]. cbv zeta.
  rewrite Z.div_add_l, (Z.div_small mon 100), Z.add_0_r by lia.
  replace ((y * 100 + mon) mod 100) with mon by (Z.to_euclidean_division_equations; lia).
  set (a := if y <? 70 then _ else _).
  assert (Ha : 100 <= a <= 9999 /\ a = if y <? 100 then (if y + 1900 <? 1900 + 70 then y + 1900 + 100 else y + 1900) else y).
  { subst a. destruct (Z.ltb_spec y 70), (Z.ltb_spec y 100), (Z.ltb_spec (y + 1900) (1900 + 70)); lia. }
  destruct Ha as [Hr <-]. unfold convert_month_to_period. rewrite (proj2 (Z.eqb_neq _ 0)) by lia. cbv zeta.
  replace ((a * 12 + mon - 1) / 12) with a by (Z.to_euclidean_division_equations; lia).
  replace ((a * 12 + mon - 1) mod 12) with (mon - 1) by (Z.to_euclidean_division_equations; lia).
  rewrite (proj2 (Z.ltb_ge a 100)) by lia. lia.
Qed.
