(* ===== verification/NumFormat.v ===== *)
(** * Numbers in a column of fixed width (client/mysql.cc)

    In Oracle mode numbers are brought into a form of at most NUMWIDTH
    characters.  The functions work in place on arrays of 130 bytes: the
    digits of the number are collected in [num_info] from index 1 on, index 0
    is kept for a carry, and the result is written to [obclient_num_array].
    Arrays are lists of bytes; a write outside of the array, which is undefined
    in C, has no effect, and the theorems are about texts whose digits fit.
    The theorems say that a number that fits is printed exactly, that the
    result is never wider than the column, and what is printed wrongly. *)

From S2P Require Import Prelude.
From S2P Require Import CString.

Definition OB_MAX_NUM_LENGTH : nat := 128.

Definition zeros : list Z := replicate (OB_MAX_NUM_LENGTH + 2) 0.

Record STR_NORMAL_NUMBER := mkNum {
  num_info : list Z;
  start_pos : Z;
  dot_pos : Z;
  num_mark : Z
}.

Record STR_NORMAL_NUMBER_BINARY := mkBin {
  bin_info : list Z;
  exp_info : Z;
  bin_start_pos : Z;
  bin_num_mark : Z;
  is_zero : bool
}.

(** The global variables: the width of number columns, the array with the
    result and the sign that the last [str_num_object] had; its other members
    are set before they are read. *)
Record num_state := mkNumState {
  obclient_num_width : Z;
  obclient_num_array : list Z;
  last_num_mark : Z
}.

(** ** Arrays *)

Definition ix (l : list Z) (i : Z) : Z := at_ l (Z.to_nat i).
Definition upd (l : list Z) (i v : Z) : list Z := <[Z.to_nat i := v]> l.
Definition from (l : list Z) (i : Z) : list Z := drop (Z.to_nat i) l.
Definition len_from (l : list Z) (i : Z) : Z := Z.of_nat (strlen (from l i)).

(** [memset(l, c, n)] *)
Definition memset (l : list Z) (c n : Z) : list Z := replicate (Z.to_nat n) c ++ drop (Z.to_nat n) l.

(** An array and the [offset] at which the next byte is written. *)
Definition put (w : list Z * Z) (c : Z) : list Z * Z := (upd (fst w) (snd w) c, snd w + 1).
Definition puts (w : list Z * Z) (l : list Z) : list Z * Z := fold_left put l w.

Definition is_dec (c : Z) : bool := ("0"%chr <=? c) && (c <=? "9"%chr).

(** [auto_incr(str, n - 1)] with [str] at index [start]: adds one to the last
    digit; the result is the carry. *)
Fixpoint auto_incr (n : nat) (start : Z) (info : list Z) (overflow : bool) : bool * list Z :=
  match n with
  | O => (overflow, info)
  | S n' =>
      let i := start + Z.of_nat n' in
      if ix info i =? "."%chr then auto_incr n' start info overflow
      else if (ix info i <? "9"%chr) && ("0"%chr <=? ix info i) then (false, upd info i (ix info i + 1))
      else if ix info i =? "9"%chr then auto_incr n' start (upd info i "0"%chr) true
      else (overflow, info)
  end.

(** [auto_incr] at [pos], and a 1 in front of the digits when it carries. *)
Definition round_up (info : list Z) (start pos : Z) : list Z * Z :=
  let '(overflow, info) := auto_incr (Z.to_nat (pos + 1)) start info false in
  if overflow then (upd info 0 "1"%chr, 0) else (info, start).

(** [for (; i > low; i--)]: zero digits are removed. *)
Fixpoint strip (n : nat) (i : Z) (info : list Z) : list Z :=
  match n with
  | O => info
  | S n' => if ix info i =? "0"%chr then strip n' (i - 1) (upd info i 0) else info
  end.

(** ** Reading a decimal number *)

(** [num_mark], the index of the first digit, and whether there may be digits
    in front of the point. *)
Definition parse_sign (c : Z) : option (Z * nat * bool) :=
  if c =? "+"%chr then Some (1, 1%nat, true)
  else if c =? "-"%chr then Some (2, 1%nat, true)
  else if c =? "."%chr then Some (0, 0%nat, false)
  else if is_dec c then Some (0, 0%nat, true)
  else None.

Fixpoint skip_leading (p : list Z) : list Z * bool :=
  match p with
  | [] => ([], true)
  | c :: p' => if c =? "."%chr then (p, false) else if c =? "0"%chr then skip_leading p' else (p, true)
  end.

Fixpoint collect_digits (p : list Z) (positive : bool) (info : list Z) (dot j : Z) : bool * list Z * Z * Z :=
  match p with
  | [] => (true, info, dot, j)
  | c :: p' =>
      if is_dec c then collect_digits p' positive (upd info j c) (if positive then j else dot) (j + 1)
      else if c =? "."%chr then collect_digits p' false info dot j
      else (false, info, dot, j)
  end.

(** The loop that is to remove zeros at the end; [dot - 1] is converted to
    [unsigned long]. *)
Fixpoint trim_tail (i : nat) (dot : Z) (info : list Z) : list Z :=
  match i with
  | O => info
  | S i' =>
      if (Z.of_nat i <? (dot - 1) mod 2 ^ 64) || negb (at_ info i =? "0"%chr) then info
      else trim_tail i' dot (<[i := 0]> info)
  end.

(** The sign and the digits: whether the text is a number, [num_mark],
    [num_info], [dot_pos] and the index behind the digits. *)
Definition parse_digits (str : list Z) : bool * Z * list Z * Z * Z :=
  match parse_sign (deref str) with
  | None => (false, 0, zeros, -1, 1)
  | Some (mark, i, positive) =>
      let '(p, positive) := if positive then skip_leading (drop i str) else (drop i str, false) in
      let '(ok, info, dot, j) := collect_digits p positive zeros (-1) 1 in
      (ok, mark, info, dot, j)
  end.

(** The result is true for the return of 0. *)
Definition parse_normal_number_object_from_str (str : list Z) : bool * STR_NORMAL_NUMBER :=
  match str with
  | [] => (true, mkNum zeros 0 (-1) 0)
  | _ =>
      let '(ok, mark, info, dot, j) := parse_digits str in
      (ok, mkNum (trim_tail (Z.to_nat j) dot info) 1 dot mark)
  end.

(** ** Decimal form *)

Definition put_exp (w : list Z * Z) (sign e : Z) : list Z * Z :=
  puts w ["E"%chr; sign; "0"%chr + Z.quot e 10; "0"%chr + Z.rem e 10].

(** [while (offset < fwidth - 4)] *)
Definition pad (w : list Z * Z) (fwidth : Z) : list Z * Z :=
  puts w (replicate (Z.to_nat (fwidth - 4 - snd w)) "0"%chr).

(** The number is rounded to the width; its integer part fits. *)
Definition format_rounded (width fwidth : Z) (n : STR_NORMAL_NUMBER) (w : list Z * Z) : list Z :=
  let '(info, start, dot) := (num_info n, start_pos n, dot_pos n) in
  let '(info, start) :=
    if fwidth - (dot - start + 1) <? 2 then
      let '(info, start) :=
        if "4"%chr <? ix info (dot + 1) then round_up info start (dot - start) else (info, start) in
      (upd info (dot + 1) 0, start)
    else
      let '(info, start) :=
        if "4"%chr <? ix info (fwidth - 1 + start) then round_up info start (fwidth - 1) else (info, start) in
      (upd info (fwidth - 1 + start) 0, start) in
  let info := strip (Z.to_nat (fwidth - 1 + start - 1 - dot)) (fwidth - 1 + start - 1) info in
  if (start =? 0) && (fwidth <? dot - start + 1) then
    let exp_len := dot - start in
    if 100 <? exp_len then memset (fst w) "#"%chr width
    else fst (put_exp (pad (puts w (str "1.")) fwidth) "+"%chr exp_len)
  else if len_from info start =? 0 then fst (put w "0"%chr)
  else
    let w := puts w (take (Z.to_nat (dot - start + 1)) (from info start)) in
    if 0 <? len_from info (dot + 1) then fst (puts (put w "."%chr) (cstr (from info (dot + 1)))) else fst w.

(** The integer part does not fit: an exponent. *)
Definition format_large (width fwidth : Z) (n : STR_NORMAL_NUMBER) (w : list Z * Z) : list Z :=
  let '(info, start, dot) := (num_info n, start_pos n, dot_pos n) in
  if fwidth <? 7 then memset (fst w) "#"%chr width
  else
    let valid_pos := fwidth - 5 in
    let '(info, start) :=
      if "4"%chr <? ix info (valid_pos + 1) then round_up info start (valid_pos + 1) else (info, start) in
    let info := upd info (start + valid_pos) 0 in
    let w := put (put w (ix info start)) "."%chr in
    let w := if len_from info (start + 1) =? 0 then put w "0"%chr else puts w (cstr (from info (start + 1))) in
    let exp_len := dot - start in
    if 100 <? exp_len then memset (fst w) "#"%chr width
    else fst (put_exp (pad w fwidth) "+"%chr exp_len).

(** [for (i = start_pos; i < (int) strlen(...); i++)] *)
Fixpoint zero_prefix (n : nat) (i : Z) (info : list Z) : Z :=
  match n with
  | O => 0
  | S n' => if ix info i =? "0"%chr then 1 + zero_prefix n' (i + 1) info else 0
  end.

(** A small number with an exponent. *)
Definition format_small (width fwidth zero_prefix_len : Z) (info : list Z) (start : Z) (w : list Z * Z) : list Z :=
  let valid_pos := fwidth - 5 + zero_prefix_len in
  let '(overflow, info) :=
    if "4"%chr <? ix info (start + valid_pos) then auto_incr (Z.to_nat (valid_pos + 1)) start info false
    else (false, info) in
  if overflow then fst (put w "1"%chr)
  else
    let info := upd info (start + valid_pos) 0 in
    let info := strip (Z.to_nat (valid_pos - 1 + start)) (valid_pos - 1 + start) info in
    let zero_prefix_len :=
      if negb (ix info (zero_prefix_len - 1 + start) =? "0"%chr) then zero_prefix_len - 1 else zero_prefix_len in
    let w := put (put w (ix info (zero_prefix_len + start))) "."%chr in
    if len_from info (zero_prefix_len + 1 + start) =? 0 then fst (put w "0"%chr)
    else
      let w := puts w (cstr (from info (zero_prefix_len + 1 + start))) in
      let exp_len := zero_prefix_len + 1 in
      if 100 <? exp_len then memset (fst w) "#"%chr width
      else fst (put_exp w "-"%chr exp_len).

(** A number below 1. *)
Definition format_fraction (width fwidth : Z) (n : STR_NORMAL_NUMBER) (w : list Z * Z) : list Z :=
  let '(info, start) := (num_info n, start_pos n) in
  if len_from info start <=? fwidth - 1 then fst (puts (put w "."%chr) (cstr (from info start)))
  else
    let zero_prefix_len := zero_prefix (Z.to_nat (len_from info start - start)) start info in
    if (fwidth - 1 - zero_prefix_len <? fwidth - 5) && (7 <=? fwidth)
    then format_small width fwidth zero_prefix_len info start w
    else if fwidth - 1 - zero_prefix_len <? 0 then upd (memset (fst w) 0 width) 0 "0"%chr
    else
      let '(overflow, info) :=
        if "4"%chr <? ix info (start + fwidth - 1) then auto_incr (Z.to_nat fwidth) start info false
        else (false, info) in
      if overflow then fst (put w "1"%chr)
      else
        let info := upd info (start + fwidth - 1) 0 in
        let info := strip (Z.to_nat (fwidth - 1)) (fwidth - 2 + start) info in
        if len_from info start =? 0 then fst (put (memset (fst w) 0 width, snd w) "0"%chr)
        else fst (puts (put w "."%chr) (cstr (from info start))).

Definition num_width (st : num_state) : Z :=
  if (obclient_num_width st <? 2) || (128 <? obclient_num_width st) then 10 else obclient_num_width st.

Definition format_fix_width_num (st : num_state) (text : list Z) : num_state :=
  let width := num_width st in
  let array := memset (obclient_num_array st) 0 (width + 1) in
  let '(ok, n) := parse_normal_number_object_from_str text in
  mkNumState width
    (if ok then
       let syb_len := if num_mark n =? 2 then 1 else 0 in
       let fwidth := width - syb_len in
       let w := if 0 <? syb_len then put (array, 0) "-"%chr else (array, 0) in
       let size := len_from (num_info n) (start_pos n) in
       if size =? 0 then upd (fst w) 0 "0"%chr
       else if 0 <? dot_pos n then
         if (size <? fwidth) || (size =? fwidth) && (size =? dot_pos n) then
           let w := puts w (take (Z.to_nat (dot_pos n)) (from (num_info n) (start_pos n))) in
           if dot_pos n <? size
           then fst (puts (put w "."%chr)
                       (take (Z.to_nat (size - dot_pos n)) (from (num_info n) (start_pos n + dot_pos n))))
           else fst w
         else if dot_pos n - start_pos n + 1 <=? fwidth then format_rounded width fwidth n w
         else format_large width fwidth n w
       else format_fraction width fwidth n w
     else memset array "#"%chr width)
    (num_mark n).

(** ** Binary floating point numbers, written with an exponent of three digits *)

(** The exponent behind an [E], or [None] when it is malformed. *)
Definition parse_exp (p : list Z) : option Z :=
  if (length p <? 5)%nat || negb (at_ p 1 =? "+"%chr) && negb (at_ p 1 =? "-"%chr)
     || negb (is_dec (at_ p 2)) || negb (is_dec (at_ p 3)) || negb (is_dec (at_ p 4))
  then None
  else
    let e := 100 * (at_ p 2 - "0"%chr) + 10 * (at_ p 3 - "0"%chr) + (at_ p 3 - "0"%chr) in
    Some (if at_ p 1 =? "-"%chr then -1 * e else e).

(** The result, the digits, the exponent and [j]. *)
Fixpoint collect_binary (p : list Z) (info : list Z) (j : Z) : bool * list Z * Z * Z :=
  match p with
  | [] => (true, info, 0, j)
  | c :: p' =>
      if is_dec c then collect_binary p' (upd info j c) (j + 1)
      else if c =? "."%chr then collect_binary p' info j
      else if c =? "E"%chr then
        match parse_exp p with
        | None => (false, info, 0, j)
        | Some e => (true, info, e, j)
        end
      else (false, info, 0, j)
  end.

(** The first digits, accepted without the digit 4. *)
Definition is_lead (c : Z) : bool := ("1"%chr <=? c) && (c <=? "9"%chr) && negb (c =? "4"%chr).

Definition parse_binary_number_object_from_str (str : list Z) : bool * STR_NORMAL_NUMBER_BINARY :=
  match str with
  | [] => (true, mkBin zeros 0 0 0 false)
  | c :: _ =>
      if c =? "0"%chr then (true, mkBin zeros 0 0 0 true)
      else
        let '(ok, mark, i, info, j) :=
          if c =? "+"%chr then (true, 1, 1%nat, zeros, 1)
          else if c =? "-"%chr then (true, 2, 1%nat, zeros, 1)
          else if c =? "."%chr then (true, 0, 0%nat, zeros, 1)
          else if is_lead c then
            if (length str <? 8)%nat || negb (at_ str 1 =? "."%chr) then (false, 0, 0%nat, zeros, 1)
            else (true, 0, 2%nat, upd zeros 1 c, 2)
          else (false, 0, 0%nat, zeros, 1) in
        let '(ok, info, e, j) := if ok then collect_binary (drop i str) info j else (false, info, 0, j) in
        (ok, mkBin (strip (Z.to_nat (j - 2)) (j - 1) info) e 1 mark false)
  end.

(** Rounding to [valid_size] digits. *)
Definition bin_round (valid_size : Z) (info : list Z) (start : Z) : list Z * Z :=
  if valid_size <? len_from info start then
    let '(info, start) :=
      if "4"%chr <? ix info (start + valid_size) then round_up info start (start + valid_size) else (info, start) in
    let info := upd info (start + valid_size) 0 in
    (strip (Z.to_nat (len_from info start - 1 - start)) (len_from info start - 1) info, start)
  else (info, start).

(** The sign is taken from the last decimal number. *)
Definition format_fix_width_num_binary (st : num_state) (text : list Z) : num_state :=
  let width := num_width st in
  let array := memset (obclient_num_array st) 0 (width + 1) in
  let '(ok, n) := parse_binary_number_object_from_str text in
  mkNumState width
    (if negb ok then memset array "#"%chr width
     else if is_zero n then upd array 0 "0"%chr
     else
       let syb_len := if last_num_mark st =? 2 then 1 else 0 in
       let w := if 0 <? syb_len then put (array, 0) "-"%chr else (array, 0) in
       let valid_size := width - syb_len - 5 - 1 in
       if valid_size <? 2 then memset (fst w) "#"%chr width
       else
         let '(info, start) := bin_round valid_size (bin_info n) (bin_start_pos n) in
         let w := put (put w (ix info start)) "."%chr in
         let w :=
           if 0 <? len_from info (start + 1) then puts w (cstr (from info (start + 1))) else put w "0"%chr in
         let e := if start =? 0 then exp_info n + 1 else exp_info n in
         let w := put w "E"%chr in
         if (999 <? e) || (e <? -999) then memset (fst w) "#"%chr width
         else
           let w := if 0 <=? e then put w "+"%chr else put w "-"%chr in
           let e := Z.abs e in
           fst (puts w ["0"%chr + e / 100; "0"%chr + e mod 100 / 10; "0"%chr + e mod 10]))
    (last_num_mark st).

(** What is printed of the array. *)
Definition shown (st : num_state) : list Z := cstr (obclient_num_array st).

Definition num_start (width : Z) : num_state := mkNumState width zeros 0.

(** ** Arrays and the bytes written to them *)

Lemma strlen_le l n : at_ l n = 0 -> (strlen l <= n)%nat.
Proof.
  revert n. induction l as [|c l IH]; intros [|n] H; cbn in *; try lia.
  - subst c. cbn. lia.
  - destruct (c =? 0); [lia|]. specialize (IH n H). lia.
Qed.

Lemma length_cstr l : length (cstr l) = strlen l.
Proof.
  unfold cstr. rewrite length_take. assert (strlen l <= length l)%nat; [|lia].
  induction l as [|c l IH]; cbn; [lia|]. destruct (c =? 0); lia.
Qed.

Lemma at_drop l a n : at_ (drop a l) n = at_ l (a + n).
Proof. unfold at_. rewrite !nth_lookup, lookup_drop. done. Qed.

(** The text from [i] on ends at the latest before a NUL. *)
Lemma length_text_le info i j : 0 <= i <= j -> ix info j = 0 -> Z.of_nat (length (cstr (from info i))) <= j - i.
Proof.
  intros Hi Hj. rewrite length_cstr. unfold from.
  assert (strlen (drop (Z.to_nat i) info) <= Z.to_nat (j - i))%nat; [|lia].
  apply strlen_le. rewrite at_drop. unfold ix in Hj. rewrite <-Hj. f_equal. lia.
Qed.

Lemma ix_upd_ne l i j v : 0 <= i -> 0 <= j -> i <> j -> ix (upd l i v) j = ix l j.
Proof.
  intros Hi Hj Hne. unfold ix, upd, at_. rewrite !nth_lookup, list_lookup_insert_ne by lia. done.
Qed.

Lemma ix_upd_0 l i : ix (upd l i 0) i = 0.
Proof.
  unfold ix, upd, at_. rewrite nth_lookup. destruct (decide (Z.to_nat i < length l)%nat).
  - by rewrite list_lookup_insert_eq.
  - rewrite list_insert_ge, lookup_ge_None_2 by lia. done.
Qed.

Lemma ix_upd_zero l i j : 0 <= i -> 0 <= j -> ix l j = 0 -> ix (upd l i 0) j = 0.
Proof.
  intros Hi Hj H. destruct (Z.eq_dec i j) as [->|Hne]; [apply ix_upd_0|by rewrite ix_upd_ne].
Qed.

Lemma ix_memset l c n : 0 <= n -> ix (memset l c n) n = ix l n.
Proof.
  intros Hn. unfold ix, memset, at_. rewrite !nth_lookup, lookup_app_r by (rewrite length_replicate; lia).
  rewrite length_replicate, lookup_drop. f_equal. f_equal. lia.
Qed.

Lemma ix_memset_0 l n i : 0 <= i < n -> ix (memset l 0 n) i = 0.
Proof.
  intros Hi. unfold ix, memset, at_. rewrite nth_lookup, lookup_app_l by (rewrite length_replicate; lia).
  by rewrite lookup_replicate_2 by lia.
Qed.

Lemma puts_app w a b : puts w (a ++ b) = puts (puts w a) b.
Proof. apply fold_left_app. Qed.

Lemma put_puts w c : put w c = puts w [c].
Proof. done. Qed.

Lemma snd_puts w l : snd (puts w l) = snd w + Z.of_nat (length l).
Proof.
  revert w. induction l as [|c l IH]; intros w; cbn [puts fold_left]; [cbn; lia|].
  fold (puts (put w c) l). rewrite IH. cbn [put snd length]. lia.
Qed.

(** Bytes behind the text are not touched. *)
Lemma ix_puts w l i : 0 <= snd w -> snd w + Z.of_nat (length l) <= i -> ix (fst (puts w l)) i = ix (fst w) i.
Proof.
  revert w. induction l as [|c l IH]; intros w Hw Hi; [done|]. cbn [length] in Hi. cbn [puts fold_left].
  fold (puts (put w c) l). rewrite IH by (cbn [put snd]; lia). cbn [put fst]. apply ix_upd_ne; lia.
Qed.

Lemma puts_array a l b t : length b = length l ->
  fst (puts (a ++ b ++ t, Z.of_nat (length a)) l) = a ++ l ++ t.
Proof.
  revert a b. induction l as [|c l IH]; intros a [|x b] Hb; try done. cbn [puts fold_left app].
  fold (puts (put (a ++ x :: b ++ t, Z.of_nat (length a)) c) l). unfold put. cbn [fst snd].
  assert (Hu : upd (a ++ x :: b ++ t) (Z.of_nat (length a)) c = (a ++ [c]) ++ b ++ t).
  { unfold upd. rewrite Nat2Z.id, insert_app_r_alt, Nat.sub_diag by lia. cbn. by rewrite <-app_assoc. }
  rewrite Hu. replace (Z.of_nat (length a) + 1) with (Z.of_nat (length (a ++ [c]))) by (rewrite length_app; cbn; lia).
  rewrite IH by (cbn in Hb; lia). by rewrite <-app_assoc.
Qed.

Definition nonzero (l : list Z) : Prop := Forall (fun c => c <> 0) l.

Lemma cstr_app_nul l t : nonzero l -> cstr (l ++ 0 :: t) = l.
Proof.
  intros H. unfold cstr. assert (strlen (l ++ 0 :: t) = length l) as ->.
  { induction H as [|c l Hc _ IH]; [done|]. cbn. rewrite (proj2 (Z.eqb_neq _ _) Hc), IH. done. }
  by rewrite take_app_length.
Qed.

(** Text written from the start of the cleared array is what is printed. *)
Lemma cstr_puts array width l : nonzero l -> Z.of_nat (length l) <= width ->
  cstr (fst (puts (memset array 0 (width + 1), 0) l)) = l.
Proof.
  intros Hl Hw. unfold memset.
  replace (Z.to_nat (width + 1)) with (length l + S (Z.to_nat width - length l))%nat by lia.
  rewrite replicate_add, <-app_assoc. change 0 with (Z.of_nat (length (@nil Z))) at 3.
  change (replicate (length l) 0 ++ ?x) with ([] ++ replicate (length l) 0 ++ x).
  rewrite puts_array by apply length_replicate. cbn [app replicate]. by apply cstr_app_nul.
Qed.

(** ** The digits of a number *)

Definition digits (ds : list Z) : Prop := Forall (fun c => is_dec c = true) ds.

Lemma is_dec_range c : is_dec c = true -> "0"%chr <= c <= "9"%chr.
Proof. unfold is_dec. lia. Qed.

Lemma digits_nonzero ds : digits ds -> nonzero ds.
Proof. intros H. eapply Forall_impl; [exact H|]. intros c Hc%is_dec_range. cbn in Hc. lia. Qed.

(** The array with the digits from index 1 on. *)
Definition packed (ds : list Z) : list Z := 0 :: ds ++ replicate (OB_MAX_NUM_LENGTH + 1 - length ds) 0.

Lemma packed_snoc ds c : (length ds <= OB_MAX_NUM_LENGTH)%nat ->
  upd (packed ds) (1 + Z.of_nat (length ds)) c = packed (ds ++ [c]).
Proof.
  intros H. unfold packed, upd. rewrite length_app. cbn [length].
  replace (Z.to_nat (1 + Z.of_nat (length ds))) with (S (length ds)) by lia.
  change (<[S ?n := c]> (0 :: ?l)) with (0 :: <[n := c]> l). f_equal.
  rewrite insert_app_r_alt, Nat.sub_diag, <-app_assoc by lia. f_equal.
  replace (OB_MAX_NUM_LENGTH + 1 - length ds)%nat with (S (OB_MAX_NUM_LENGTH + 1 - (length ds + 1))) by lia. done.
Qed.

Lemma ix_packed_0 ds i : digits ds -> Z.of_nat (length ds) < i -> ix (packed ds) i = 0.
Proof.
  intros Hd Hi. unfold ix, packed, at_. destruct (Z.to_nat i) as [|n] eqn:E; [lia|]. cbn [nth].
  rewrite app_nth2 by lia. rewrite nth_lookup. destruct (_ !! _) eqn:El; [|done].
  by apply lookup_replicate in El as [-> _].
Qed.

Lemma from_packed ds : (length ds <= OB_MAX_NUM_LENGTH)%nat ->
  exists t, from (packed ds) 1 = ds ++ 0 :: t.
Proof.
  intros H. unfold from, packed. change (Z.to_nat 1) with 1%nat. rewrite drop_1_cons.
  replace (OB_MAX_NUM_LENGTH + 1 - length ds)%nat with (S (OB_MAX_NUM_LENGTH - length ds)) by lia.
  cbn [replicate]. eauto.
Qed.

Lemma collect_digits_app ds p positive a dot :
  digits ds -> (length a + length ds <= OB_MAX_NUM_LENGTH)%nat ->
  collect_digits (ds ++ p) positive (packed a) dot (1 + Z.of_nat (length a))
  = collect_digits p positive (packed (a ++ ds))
      (if positive && negb (bool_decide (ds = [])) then Z.of_nat (length a + length ds) else dot)
      (1 + Z.of_nat (length a + length ds)).
Proof.
  intros Hd. revert a dot. induction Hd as [|c ds Hc Hd IH]; intros a dot Hl.
  - rewrite bool_decide_eq_true_2, andb_false_r, app_nil_r by done. cbn [length app]. by rewrite Nat.add_0_r.
  - cbn [length app collect_digits] in *. rewrite Hc, packed_snoc by lia.
    replace (1 + Z.of_nat (length a) + 1) with (1 + Z.of_nat (length (a ++ [c]))) by (rewrite length_app; cbn; lia).
    rewrite IH by (rewrite length_app; cbn; lia). rewrite <-app_assoc. cbn [app].
    rewrite length_app. cbn [length]. rewrite (bool_decide_eq_false_2 (c :: ds = [])) by done.
    replace (length a + 1 + length ds)%nat with (length a + S (length ds))%nat by lia.
    f_equal. destruct positive; [|done]. destruct ds; cbn [andb negb length]; [cbn; lia|done].
Qed.

Lemma trim_tail_packed ds dot : digits ds ->
  trim_tail (Z.to_nat (1 + Z.of_nat (length ds))) dot (packed ds) = packed ds.
Proof.
  intros Hd. replace (Z.to_nat _) with (S (length ds)) by lia. cbn [trim_tail].
  assert (at_ (packed ds) (S (length ds)) = 0) as ->.
  { rewrite <-(ix_packed_0 ds (1 + Z.of_nat (length ds))) by (done || lia). unfold ix. f_equal. lia. }
  by rewrite orb_true_r.
Qed.

(** A decimal text: a sign, zeros, the digits of the integer part from the
    first that is not zero on, and the digits behind the point. *)
Record decimal_text := mkText {
  text_sign : option bool; (* a minus, or a plus *)
  leading : nat;
  int_part : list Z;
  point : bool;
  fraction : list Z
}.

Definition text_bytes (t : decimal_text) : list Z :=
  match text_sign t with Some true => [ "-"%chr ] | Some false => [ "+"%chr ] | None => [] end
  ++ replicate (leading t) "0"%chr ++ int_part t ++ (if point t then "."%chr :: fraction t else []).

Definition text_wf (t : decimal_text) : Prop :=
  digits (int_part t) /\ digits (fraction t) /\ head (int_part t) <> Some "0"%chr
  /\ (point t = false -> fraction t = []).

(** The number without the zeros and the plus in front. *)
Definition plain_text (t : decimal_text) : list Z :=
  if bool_decide (int_part t ++ fraction t = []) then [ "0"%chr ]
  else match text_sign t with Some true => [ "-"%chr ] | _ => [] end
       ++ int_part t ++ (if bool_decide (fraction t = []) then [] else "."%chr :: fraction t).

Definition text_mark (t : decimal_text) : Z :=
  match text_sign t with Some true => 2 | Some false => 1 | None => 0 end.

Definition text_tail (t : decimal_text) : list Z := if point t then "."%chr :: fraction t else [].

Definition text_dot (t : decimal_text) : Z :=
  if bool_decide (int_part t = []) then -1 else Z.of_nat (length (int_part t)).

Lemma skip_leading_text t : text_wf t ->
  skip_leading (replicate (leading t) "0"%chr ++ int_part t ++ text_tail t)
  = (int_part t ++ text_tail t, negb (bool_decide (int_part t = []) && point t)).
Proof.
  intros (Hi & _ & Hh & _). induction (leading t) as [|n IH]; [|done]. cbn [replicate app]. unfold text_tail.
  destruct (int_part t) as [|c i]; [by destruct (point t)|]. cbn [app skip_leading].
  apply Forall_cons in Hi as [Hc%is_dec_range _]. cbn in Hc. cbn in Hh.
  rewrite (proj2 (Z.eqb_neq c "."%chr)) by lia. rewrite (proj2 (Z.eqb_neq c "0"%chr)) by congruence. done.
Qed.

Lemma collect_text t : text_wf t -> (length (int_part t) + length (fraction t) <= OB_MAX_NUM_LENGTH)%nat ->
  collect_digits (int_part t ++ text_tail t) (negb (bool_decide (int_part t = []) && point t)) zeros (-1) 1
  = (true, packed (int_part t ++ fraction t), text_dot t, 1 + Z.of_nat (length (int_part t ++ fraction t))).
Proof.
  intros (Hi & Hf & _ & Hp) Hl. change zeros with (packed []). change 1 with (1 + Z.of_nat (length (@nil Z))).
  rewrite collect_digits_app by (cbn; done || lia). cbn [app length Nat.add]. unfold text_dot, text_tail.
  assert (Hdot : (if negb (bool_decide (int_part t = []) && point t) && negb (bool_decide (int_part t = []))
                  then Z.of_nat (length (int_part t)) else -1)
                 = if bool_decide (int_part t = []) then -1 else Z.of_nat (length (int_part t))).
  { by destruct (bool_decide (int_part t = [])), (point t). }
  rewrite Hdot. destruct (point t).
  - cbn [collect_digits is_dec]. change (is_dec "."%chr) with false. change ("."%chr =? "."%chr) with true.
    cbn iota. rewrite <-(app_nil_r (fraction t)) at 1. rewrite collect_digits_app by done.
    cbn [andb collect_digits]. by rewrite length_app.
  - rewrite Hp by done. cbn [collect_digits]. by rewrite app_nil_r.
Qed.

Lemma parse_digits_text t : text_wf t -> (length (int_part t) + length (fraction t) <= OB_MAX_NUM_LENGTH)%nat ->
  text_bytes t <> [] ->
  parse_digits (text_bytes t)
  = (true, text_mark t, packed (int_part t ++ fraction t), text_dot t,
     1 + Z.of_nat (length (int_part t ++ fraction t))).
Proof.
  intros Hwf Hl Hne. pose proof (skip_leading_text t Hwf) as Hs. pose proof (collect_text t Hwf Hl) as Hc.
  unfold parse_digits, text_bytes, text_mark in *. fold (text_tail t) in *.
  destruct (text_sign t) as [[|]|]; cbn [app] in *.
  { change (parse_sign (deref _)) with (Some (2, 1%nat, true)). cbn iota. by rewrite drop_1_cons, Hs, Hc. }
  { change (parse_sign (deref _)) with (Some (1, 1%nat, true)). cbn iota. by rewrite drop_1_cons, Hs, Hc. }
  set (body := replicate _ _ ++ _) in *.
  assert (Hsign : parse_sign (deref body) = Some (0, 0%nat, negb (bool_decide (deref body = "."%chr)))
    /\ (deref body = "."%chr -> skip_leading body = (body, false))).
  { destruct Hwf as (Hi & _). subst body. destruct (leading t); [|done]. cbn [replicate app] in *. unfold text_tail in *.
    destruct (int_part t) as [|c i]; [by destruct (point t)|]. cbn [app deref nth].
    apply Forall_cons in Hi as [Hd _]. pose proof (is_dec_range _ Hd) as Hr. cbn in Hr. unfold parse_sign. rewrite Hd.
    rewrite (proj2 (Z.eqb_neq c "+"%chr)), (proj2 (Z.eqb_neq c "-"%chr)), (proj2 (Z.eqb_neq c "."%chr)) by lia.
    rewrite bool_decide_eq_false_2 by lia. split; [done|]. lia. }
  destruct Hsign as [-> Hdot]. rewrite drop_0.
  destruct (bool_decide_reflect (deref body = "."%chr)) as [E|E]; cbn [negb]; [|by rewrite Hs, Hc].
  specialize (Hdot E). rewrite Hs in Hdot. injection Hdot as Hb Hp. rewrite Hp in Hc. by rewrite <-Hb, Hc.
Qed.

Lemma parse_text t : text_wf t -> (length (int_part t) + length (fraction t) <= OB_MAX_NUM_LENGTH)%nat ->
  text_bytes t <> [] ->
  parse_normal_number_object_from_str (text_bytes t)
  = (true, mkNum (packed (int_part t ++ fraction t)) 1 (text_dot t) (text_mark t)).
Proof.
  intros Hwf Hl Hne. unfold parse_normal_number_object_from_str. rewrite parse_digits_text by done.
  destruct (text_bytes t); [done|]. rewrite trim_tail_packed; [done|]. apply Forall_app. split; apply Hwf.
Qed.

Lemma text_packed ds : digits ds -> (length ds <= OB_MAX_NUM_LENGTH)%nat -> cstr (from (packed ds) 1) = ds.
Proof. intros Hd Hl. destruct (from_packed ds Hl) as [t ->]. by apply cstr_app_nul, digits_nonzero. Qed.

Lemma len_packed ds : digits ds -> (length ds <= OB_MAX_NUM_LENGTH)%nat ->
  len_from (packed ds) 1 = Z.of_nat (length ds).
Proof. intros Hd Hl. unfold len_from. rewrite <-length_cstr. by rewrite text_packed. Qed.

Lemma take_packed a b : (length (a ++ b) <= OB_MAX_NUM_LENGTH)%nat ->
  take (length a) (from (packed (a ++ b)) 1) = a
  /\ take (length b) (from (packed (a ++ b)) (1 + Z.of_nat (length a))) = b.
Proof.
  intros Hl. destruct (from_packed _ Hl) as [t Ht]. split; [by rewrite Ht, <-app_assoc, take_app_length|].
  unfold from in *. replace (Z.to_nat (1 + Z.of_nat (length a))) with (Z.to_nat 1 + length a)%nat by lia.
  by rewrite <-drop_drop, Ht, <-app_assoc, drop_app_length, take_app_length.
Qed.

Definition minus_of (mark : Z) : list Z := if mark =? 2 then [ "-"%chr ] else [].

(** The writer behind the sign. *)
Lemma sign_puts array mark :
  (if 0 <? (if mark =? 2 then 1 else 0) then put (array, 0) "-"%chr else (array, 0)) = puts (array, 0) (minus_of mark)
  /\ (if mark =? 2 then 1 else 0) = Z.of_nat (length (minus_of mark)).
Proof. unfold minus_of. by destruct (mark =? 2). Qed.

Lemma shown_zero array width mark : 1 <= width ->
  cstr (upd (fst (puts (memset array 0 (width + 1), 0) (minus_of mark))) 0 "0"%chr) = [ "0"%chr ].
Proof.
  intros Hw. transitivity (cstr (fst (puts (memset array 0 (width + 1), 0) [ "0"%chr ]))).
  - unfold minus_of. destruct (mark =? 2); [|done]. cbn [puts fold_left put fst snd]. unfold upd.
    by rewrite list_insert_insert_eq.
  - apply cstr_puts; [by repeat constructor|cbn; lia].
Qed.

Lemma plain_text_length t : int_part t ++ fraction t <> [] ->
  Z.of_nat (length (plain_text t))
  = Z.of_nat (length (minus_of (text_mark t))) + Z.of_nat (length (int_part t ++ fraction t))
    + (if bool_decide (fraction t = []) then 0 else 1).
Proof.
  intros H. unfold plain_text. rewrite bool_decide_eq_false_2 by done. rewrite !length_app. unfold minus_of, text_mark.
  destruct (text_sign t) as [[|]|], (bool_decide_reflect (fraction t = [])) as [->|]; cbn; lia.
Qed.

Lemma plain_text_eq t : int_part t ++ fraction t <> [] ->
  plain_text t = minus_of (text_mark t) ++ int_part t ++ (if bool_decide (fraction t = []) then [] else "."%chr :: fraction t).
Proof.
  intros H. unfold plain_text. rewrite bool_decide_eq_false_2 by done. unfold minus_of, text_mark.
  by destruct (text_sign t) as [[|]|].
Qed.

Lemma plain_text_nonzero t : text_wf t -> nonzero (plain_text t).
Proof.
  intros (Hi%digits_nonzero & Hf%digits_nonzero & _). unfold plain_text. destruct (bool_decide _); [by repeat constructor|].
  apply Forall_app. split; [destruct (text_sign t) as [[|]|]; by repeat constructor|].
  apply Forall_app. split; [done|]. destruct (bool_decide _); [constructor|]. by constructor.
Qed.

Lemma text_bytes_ne t : text_wf t -> int_part t ++ fraction t <> [] -> text_bytes t <> [].
Proof.
  intros (_ & _ & _ & Hp) Hn E. unfold text_bytes in E. apply app_nil in E as [_ [_ [Ei Et]%app_nil]%app_nil].
  destruct (point t); [done|]. apply Hn. by rewrite Ei, Hp.
Qed.

Lemma num_width_range st : 2 <= num_width st <= 128.
Proof.
  unfold num_width. destruct (Z.ltb_spec (obclient_num_width st) 2), (Z.ltb_spec 128 (obclient_num_width st)); cbn; lia.
Qed.

Lemma format_zero st t : text_wf t -> int_part t ++ fraction t = [] ->
  shown (format_fix_width_num st (text_bytes t)) = [ "0"%chr ].
Proof.
  intros Hwf Hn. pose proof (num_width_range st) as Hw.
  unfold shown, format_fix_width_num. set (array := memset _ 0 _) in *.
  assert (Hp : exists mark, parse_normal_number_object_from_str (text_bytes t)
    = (true, mkNum zeros (if bool_decide (text_bytes t = []) then 0 else 1) (-1) mark)).
  { apply app_nil in Hn as [Hi Hf]. destruct (decide (text_bytes t = [])) as [E|E].
    - rewrite E. by exists 0.
    - rewrite parse_text by (done || (rewrite Hi, Hf; apply Nat.le_0_l)). rewrite bool_decide_eq_false_2 by done.
      unfold text_dot. rewrite Hi, Hf. by exists (text_mark t). }
  destruct Hp as [mark ->]. cbn [num_mark num_info start_pos obclient_num_array].
  destruct (sign_puts array mark) as [-> _].
  assert (len_from zeros (if bool_decide (text_bytes t = []) then 0 else 1) = 0) as -> by by destruct (bool_decide _).
  cbn [Z.eqb]. apply shown_zero. lia.
Qed.

Lemma format_fits st t : text_wf t -> int_part t ++ fraction t <> [] ->
  Z.of_nat (length (plain_text t)) <= num_width st ->
  obclient_num_array (format_fix_width_num st (text_bytes t))
  = fst (puts (memset (obclient_num_array st) 0 (num_width st + 1), 0) (plain_text t)).
Proof.
  intros Hwf Hn Hl. pose proof (num_width_range st) as Hw.
  rewrite plain_text_length in Hl by done. rewrite plain_text_eq by done. rewrite !puts_app.
  assert (Hd : digits (int_part t ++ fraction t)) by (apply Forall_app; split; apply Hwf).
  assert (Hlen : (length (int_part t ++ fraction t) <= OB_MAX_NUM_LENGTH)%nat)
    by (unfold OB_MAX_NUM_LENGTH; destruct (bool_decide _); lia).
  unfold format_fix_width_num. set (array := memset _ 0 _).
  rewrite parse_text by (done || (by rewrite <-length_app) || by apply text_bytes_ne).
  cbn [num_mark num_info start_pos dot_pos obclient_num_array].
  destruct (sign_puts array (text_mark t)) as [-> ->]. set (w := puts (array, 0) _).
  rewrite len_packed by done. destruct (take_packed _ _ Hlen) as [Hti Htf].
  rewrite (proj2 (Z.eqb_neq _ 0)) by (destruct (int_part t ++ fraction t); cbn; done || lia).
  unfold text_dot. destruct (bool_decide_reflect (int_part t = [])) as [Ei|Ei].
  - rewrite Ei in *. cbn [app length puts fold_left] in *. cbn [Z.ltb Z.compare].
    unfold format_fraction. cbn [num_info start_pos]. rewrite len_packed by done.
    rewrite bool_decide_eq_false_2 in * by done. rewrite (proj2 (Z.leb_le _ _)) by lia. by rewrite text_packed.
  - assert (0 < length (int_part t))%nat by (destruct (int_part t); cbn; [done|lia]).
    rewrite (proj2 (Z.ltb_lt 0 _)) by lia. rewrite Nat2Z.id, Hti. rewrite !length_app in *.
    destruct (bool_decide_reflect (fraction t = [])) as [Ef|Ef].
    + rewrite Ef in *. cbn [length] in *.
      replace (_ || _) with true by (symmetry; rewrite orb_true_iff, andb_true_iff, Z.ltb_lt, !Z.eqb_eq; lia).
      rewrite (proj2 (Z.ltb_ge _ _)) by lia. done.
    + assert (0 < length (fraction t))%nat by (destruct (fraction t); cbn; [done|lia]).
      rewrite (proj2 (Z.ltb_lt (Z.of_nat _) (_ - _))) by lia. cbn [orb]. rewrite (proj2 (Z.ltb_lt _ _)) by lia.
      replace (Z.to_nat (_ - _)) with (length (fraction t)) by lia. by rewrite Htf.
Qed.

(** A number that fits into the column is printed exactly: whenever the
    text without leading zeros and plus sign is not wider than the column, it
    is what is printed, for every width the user may set. *)
Theorem format_fix_width_num_exact (st : num_state) (t : decimal_text) :
  text_wf t -> Z.of_nat (length (plain_text t)) <= num_width st ->
  shown (format_fix_width_num st (text_bytes t)) = plain_text t.
Proof.
  intros Hwf Hl. destruct (decide (int_part t ++ fraction t = [])) as [Hn|Hn].
  - rewrite format_zero by done. unfold plain_text. by rewrite bool_decide_eq_true_2.
  - unfold shown. rewrite format_fits by done. apply cstr_puts; [by apply plain_text_nonzero|done].
Qed.

Lemma format_fix_width_num_exact_witness :
  text_bytes (mkText (Some true) 2 (str "123456") true (str "50")) = str "-00123456.50"
  /\ shown (format_fix_width_num (num_start 10) (str "-00123456.50")) = str "-123456.50".
Proof.
  split; [done|].
  apply (format_fix_width_num_exact (num_start 10) (mkText (Some true) 2 (str "123456") true (str "50"))).
  - split_and!; [by repeat constructor|by repeat constructor|done|done].
  - cbn. lia.
Defined.

(** ** The result fits into the column *)

Definition safe (width : Z) (w : list Z * Z) : Prop := 0 <= snd w /\ ix (fst w) width = 0.

Lemma safe_puts width w l : safe width w -> snd w + Z.of_nat (length l) <= width -> safe width (puts w l).
Proof. intros [H0 Hi] Hl. split; [rewrite snd_puts; lia|]. by rewrite ix_puts. Qed.

Lemma safe_put width w c : safe width w -> snd w + 1 <= width -> safe width (put w c).
Proof. intros Hs Hl. by apply (safe_puts width w [c]). Qed.

Lemma snd_put w c : snd (put w c) = snd w + 1.
Proof. done. Qed.

Lemma safe_memset width w c : 0 <= width -> safe width w -> ix (memset (fst w) c width) width = 0.
Proof. intros H0 [_ Hi]. by rewrite ix_memset. Qed.

Lemma safe_pad_exp width w fwidth sign e :
  safe width w -> snd w + 4 <= width -> fwidth <= width -> ix (fst (put_exp (pad w fwidth) sign e)) width = 0.
Proof.
  intros Hs Hw Hf. unfold put_exp, pad. eapply safe_puts; [apply safe_puts; [done|]|]; rewrite ?snd_puts, ?length_replicate; cbn; lia.
Qed.

Lemma strip_keeps n i info j : Z.of_nat n <= i + 1 -> 0 <= j -> ix info j = 0 -> ix (strip n i info) j = 0.
Proof.
  revert i info. induction n as [|n IH]; intros i info Hn Hj H; [done|]. cbn [strip].
  destruct (_ =? _); [|done]. apply IH; [lia|done|]. apply ix_upd_zero; lia.
Qed.

Lemma round_up_start info start pos :
  let '(_, start') := round_up info start pos in start' = start \/ start' = 0.
Proof. unfold round_up. destruct (auto_incr _ _ _ _) as [[|] info']; auto. Qed.

Lemma format_rounded_fits width fwidth n w :
  7 <= width -> safe width w -> snd w <= 1 -> fwidth = width - snd w -> start_pos n = 1 -> 1 <= dot_pos n <= fwidth ->
  ix (format_rounded width fwidth n w) width = 0.
Proof.
  intros Hw Hs Hb Hf Hst Hdot. pose proof (proj1 Hs) as H0. unfold format_rounded. rewrite Hst. set (dot := dot_pos n) in *.
  destruct (if fwidth - (dot - 1 + 1) <? 2 then _ else _) as [info start] eqn:E.
  assert (H1 : (start = 0 \/ start = 1)
    /\ (ix info (dot + 1) = 0 \/ dot + 2 <= fwidth /\ ix info (fwidth - 1 + start) = 0)).
  { destruct (Z.ltb_spec (fwidth - (dot - 1 + 1)) 2);
      match type of E with context [round_up ?a ?b ?c] => pose proof (round_up_start a b c) as Hr end;
      destruct (_ <? _), (round_up _ _ _) as [info' start'] in *; injection E as <- <-;
      (split; [lia|]); [left|left|right|right]; try split; try lia; apply ix_upd_0. }
  clear E. destruct H1 as [Hstart Hz]. set (info' := strip _ _ info).
  assert (Hz' : ix info' (dot + 1) = 0 \/ dot + 2 <= fwidth /\ ix info' (fwidth - 1 + start) = 0)
    by (destruct Hz as [Hz|[? Hz]]; [left|right; split; [lia|]]; apply strip_keeps; lia).
  destruct ((start =? 0) && (fwidth <? dot - start + 1)) eqn:Eb.
  - destruct (100 <? _); [apply safe_memset; [lia|done]|].
    apply safe_pad_exp; [apply safe_puts; [done|]|rewrite snd_puts|]; change (length (str _)) with 2%nat; lia.
  - assert (dot - start + 1 <= fwidth) by lia. clear Eb. destruct (_ =? 0); [apply safe_put; [done|lia]|].
    set (w' := puts w _). assert (Hw' : safe width w' /\ snd w' <= snd w + (dot - start + 1)).
    { unfold w'. rewrite snd_puts, length_take. split; [|lia]. apply safe_puts; [done|]. rewrite length_take. lia. }
    destruct (Z.ltb_spec 0 (len_from info' (dot + 1))) as [Hl|_]; [|apply Hw'].
    unfold len_from in Hl. rewrite <-length_cstr in Hl.
    destruct Hz' as [Hz'|[Hd Hz']].
    + pose proof (length_text_le info' (dot + 1) (dot + 1) ltac:(lia) Hz'). lia.
    + pose proof (length_text_le info' (dot + 1) (fwidth - 1 + start) ltac:(lia) Hz').
      apply safe_puts; [apply safe_put; [apply Hw'|lia]|]. rewrite snd_put. lia.
Qed.

Lemma format_large_fits width fwidth n w :
  safe width w -> snd w <= 1 -> fwidth = width - snd w -> start_pos n = 1 -> 2 <= width ->
  ix (format_large width fwidth n w) width = 0.
Proof.
  intros Hs Hb Hf Hst Hw. pose proof (proj1 Hs) as H0. unfold format_large. rewrite Hst.
  destruct (Z.ltb_spec fwidth 7) as [|H7]; [apply safe_memset; [lia|done]|].
  destruct (if "4"%chr <? _ then _ else _) as [info start] eqn:E.
  assert (Hstart : start = 0 \/ start = 1).
  { match type of E with context [round_up ?a ?b ?c] => pose proof (round_up_start a b c) as Hr end.
    destruct (_ <? _), (round_up _ _ _) as [info' start'] in *; injection E as <- <-; lia. }
  clear E. set (info' := upd info (start + (fwidth - 5)) 0).
  assert (Hz : ix info' (start + (fwidth - 5)) = 0) by apply ix_upd_0.
  pose proof (length_text_le info' (start + 1) (start + (fwidth - 5)) ltac:(lia) Hz) as Hl.
  set (w1 := put (put w _) "."%chr).
  assert (Hw1 : safe width w1 /\ snd w1 = snd w + 2).
  { unfold w1. rewrite !snd_put. split; [|lia]. repeat apply safe_put; rewrite ?snd_put; done || lia. }
  set (w2 := if len_from info' (start + 1) =? 0 then _ else _).
  assert (Hw2 : safe width w2 /\ snd w2 + 4 <= width).
  { unfold w2. destruct (_ =? 0); [rewrite snd_put|rewrite snd_puts]; (split; [|lia]).
    - apply safe_put; [apply Hw1|lia].
    - apply safe_puts; [apply Hw1|lia]. }
  destruct (100 <? _); [apply safe_memset; [lia|apply Hw2]|]. apply safe_pad_exp; [apply Hw2|apply Hw2|lia].
Qed.

Lemma ix_upd_eq l i v : ix l i <> 0 -> ix (upd l i v) i = v.
Proof.
  unfold ix, upd, at_. rewrite !nth_lookup. intros H. destruct (l !! Z.to_nat i) eqn:E; [|done].
  by rewrite list_lookup_insert_eq by by eapply lookup_lt_Some.
Qed.

Lemma auto_incr_frame n start info ov j :
  0 <= start -> start + Z.of_nat n <= j -> ix (snd (auto_incr n start info ov)) j = ix info j.
Proof.
  revert info ov. induction n as [|n IH]; intros info ov H0 Hj; [done|]. cbn [auto_incr].
  destruct (_ =? "."%chr); [apply IH; lia|]. destruct (_ && _); [apply ix_upd_ne; lia|].
  destruct (_ =? "9"%chr); [|done]. rewrite IH by lia. apply ix_upd_ne; lia.
Qed.

(** A carry leaves zeros behind it. *)
Lemma auto_incr_carry n start info ov k m :
  0 <= start -> (forall i, ix info i <> "."%chr) ->
  ix (snd (auto_incr n start info ov)) (start + Z.of_nat k) <> ix info (start + Z.of_nat k) ->
  (k < m < n)%nat -> ix (snd (auto_incr n start info ov)) (start + Z.of_nat m) = "0"%chr.
Proof.
  revert info ov. induction n as [|n IH]; intros info ov H0 Hdot Hk Hm; [lia|]. cbn [auto_incr] in *.
  rewrite (proj2 (Z.eqb_neq _ _) (Hdot _)) in *. destruct (_ && _).
  { cbn [snd] in Hk. destruct Hk. apply ix_upd_ne; lia. }
  destruct (Z.eqb_spec (ix info (start + Z.of_nat n)) "9"%chr) as [E|E]; [|done].
  assert (Hu : ix (upd info (start + Z.of_nat n) "0"%chr) (start + Z.of_nat n) = "0"%chr)
    by (apply ix_upd_eq; rewrite E; done).
  destruct (decide (m = n)) as [->|Hne]; [by rewrite auto_incr_frame by lia|].
  apply IH; [done| | |lia].
  - intros i. destruct (Z.eq_dec i (start + Z.of_nat n)) as [->|Hi]; [by rewrite Hu|].
    unfold ix, upd, at_ in *. rewrite !nth_lookup.
    destruct (decide (Z.to_nat i = Z.to_nat (start + Z.of_nat n))) as [Ei|Ei].
    + rewrite Ei. rewrite nth_lookup in Hu. by rewrite Hu.
    + rewrite list_lookup_insert_ne by done. specialize (Hdot i). by rewrite nth_lookup in Hdot.
  - rewrite ix_upd_ne by lia. done.
Qed.

Lemma strip_zero n i info j :
  0 <= j <= i -> i - j < Z.of_nat n <= i + 1 -> (forall x, j <= x <= i -> ix info x = "0"%chr) ->
  ix (strip n i info) j = 0.
Proof.
  revert i info. induction n as [|n IH]; intros i info Hj Hn H; [lia|]. cbn [strip].
  rewrite (H i) by lia. cbn [Z.eqb Pos.eqb].
  destruct (Z.eq_dec i j) as [->|Hne]; [apply strip_keeps; [lia|lia|apply ix_upd_0]|].
  apply IH; [lia|lia|]. intros x Hx. rewrite ix_upd_ne by lia. apply H. lia.
Qed.

(** When a zero digit is removed, so are all digits behind it. *)
Lemma strip_removes n i info x y :
  0 <= x <= y -> y <= i -> Z.of_nat n <= i + 1 ->
  ix info x = "0"%chr -> ix (strip n i info) x <> "0"%chr -> ix (strip n i info) y = 0.
Proof.
  revert i info. induction n as [|n IH]; intros i info Hx Hy Hn H0 Hne; [done|]. cbn [strip] in *.
  destruct (_ =? _); [|done].
  destruct (Z.eq_dec y i) as [->|Hyi]; [apply strip_keeps; [lia|lia|apply ix_upd_0]|].
  apply IH; [lia|lia|lia|by rewrite ix_upd_ne by lia|done].
Qed.

Lemma format_small_fits width fwidth zpl info w :
  safe width w -> snd w <= 1 -> fwidth = width - snd w -> 7 <= fwidth -> 5 <= zpl ->
  (forall i, ix info i <> "."%chr) -> ix info zpl = "0"%chr ->
  ix (format_small width fwidth zpl info 1 w) width = 0.
Proof.
  intros Hs Hb Hf H7 Hz Hdot Hzero. pose proof (proj1 Hs) as H0. unfold format_small. cbv zeta.
  set (valid_pos := fwidth - 5 + zpl) in *.
  destruct (if "4"%chr <? _ then _ else _) as [ov info1] eqn:E.
  assert (Hinfo1 : ix info1 zpl <> "0"%chr -> forall x, zpl < x <= valid_pos -> ix info1 x = "0"%chr).
  { destruct (_ <? _); [|injection E as <- <-; done]. intros Hne x Hx.
    pose proof (auto_incr_carry (Z.to_nat (valid_pos + 1)) 1 info false (Z.to_nat (zpl - 1)) (Z.to_nat (x - 1))) as Hc.
    rewrite E in Hc. cbn [snd] in Hc.
    replace (1 + Z.of_nat (Z.to_nat (zpl - 1))) with zpl in Hc by lia.
    replace (1 + Z.of_nat (Z.to_nat (x - 1))) with x in Hc by lia. apply Hc; [lia|done|by rewrite Hzero|lia]. }
  clear E. destruct ov; [apply safe_put; [done|lia]|].
  set (info2 := upd info1 (1 + valid_pos) 0). set (info3 := strip _ _ info2).
  assert (Hend : ix info3 (1 + valid_pos) = 0) by (apply strip_keeps; [lia|lia|apply ix_upd_0]).
  replace (zpl - 1 + 1) with zpl by lia. set (zpl' := if negb _ then _ else _).
  assert (Hlen : Z.of_nat (length (cstr (from info3 (zpl' + 1 + 1)))) <= fwidth - 6).
  { unfold zpl'. destruct (Z.eqb_spec (ix info3 zpl) "0"%chr) as [Eq|Ne]; cbn [negb].
    - pose proof (length_text_le info3 (zpl + 1 + 1) (1 + valid_pos) ltac:(lia) Hend). lia.
    - assert (ix info3 (zpl + 1) = 0) as Hn.
      { assert (Hsame : forall x, 0 <= x <= valid_pos -> ix info2 x = ix info1 x)
          by (intros x Hx; apply ix_upd_ne; lia).
        destruct (Z.eq_dec (ix info2 zpl) "0"%chr) as [E2|E2].
        - apply (strip_removes _ _ info2 zpl); [lia|lia|lia|done|done].
        - apply strip_zero; [lia|lia|]. intros x Hx. rewrite Hsame in * by lia. apply Hinfo1; [done|lia]. }
      pose proof (length_text_le info3 (zpl + 1) (zpl + 1) ltac:(lia) Hn).
      replace (zpl - 1 + 1 + 1) with (zpl + 1) by lia. lia. }
  set (w1 := put (put w _) "."%chr).
  assert (Hw1 : safe width w1 /\ snd w1 = snd w + 2).
  { unfold w1. rewrite !snd_put. split; [|lia]. repeat apply safe_put; rewrite ?snd_put; done || lia. }
  destruct (_ =? 0); [apply safe_put; [apply Hw1|lia]|].
  set (w2 := puts w1 _). assert (Hw2 : safe width w2 /\ snd w2 <= snd w + 2 + (fwidth - 6)).
  { unfold w2. rewrite snd_puts. split; [apply safe_puts; [apply Hw1|]|]; lia. }
  destruct (100 <? _); [apply safe_memset; [lia|apply Hw2]|]. apply safe_puts; [apply Hw2|cbn; lia].
Qed.

Lemma zero_prefix_digit n i info : 0 <= zero_prefix n i info <= Z.of_nat n
  /\ (forall k, 0 <= k < zero_prefix n i info -> ix info (i + k) = "0"%chr).
Proof.
  revert i. induction n as [|n IH]; intros i; cbn [zero_prefix]; [split; lia|].
  destruct (Z.eqb_spec (ix info i) "0"%chr) as [E|_]; [|split; lia]. destruct (IH (i + 1)) as [Hr Hk]. split; [lia|].
  intros k Hk'. destruct (Z.eq_dec k 0) as [->|Hn]; [by rewrite Z.add_0_r|].
  replace (i + k) with (i + 1 + (k - 1)) by lia. apply Hk. lia.
Qed.

Lemma format_fraction_fits width fwidth n w :
  2 <= width -> safe width w -> snd w <= 1 -> fwidth = width - snd w -> start_pos n = 1 ->
  (forall i, ix (num_info n) i <> "."%chr) -> ix (format_fraction width fwidth n w) width = 0.
Proof.
  intros Hw Hs Hb Hf Hst Hdot. pose proof (proj1 Hs) as H0. unfold format_fraction. rewrite Hst.
  destruct (Z.leb_spec (len_from (num_info n) 1) (fwidth - 1)) as [Hl|_].
  { apply safe_puts; [apply safe_put; [done|lia]|]. rewrite snd_put. unfold len_from in Hl. rewrite length_cstr. lia. }
  cbv zeta. set (zpl := zero_prefix _ _ _).
  destruct (zero_prefix_digit (Z.to_nat (len_from (num_info n) 1 - 1)) 1 (num_info n)) as [_ Hk]. fold zpl in Hk.
  destruct (_ && _) eqn:E.
  { apply format_small_fits; [done..|lia|lia|done|]. replace zpl with (1 + (zpl - 1)) by lia. apply Hk. lia. }
  destruct (_ <? 0). { rewrite ix_upd_ne by lia. by apply safe_memset; [lia|]. }
  destruct (if "4"%chr <? _ then _ else _) as [ov info]. destruct ov; [apply safe_put; [done|lia]|].
  destruct (_ =? 0). { apply safe_put; [|cbn; lia]. split; [done|]. cbn [fst]. by apply safe_memset; [lia|]. }
  set (info' := strip _ _ _).
  assert (Hz : ix info' (1 + fwidth - 1) = 0) by (apply strip_keeps; [lia|lia|apply ix_upd_0]).
  pose proof (length_text_le info' 1 (1 + fwidth - 1) ltac:(lia) Hz).
  apply safe_puts; [apply safe_put; [done|lia]|]. rewrite snd_put. lia.
Qed.

(** What reading a text gives. *)
Lemma collect_digits_shape p positive a dot :
  digits a -> (length a + length p <= OB_MAX_NUM_LENGTH)%nat -> dot <= Z.of_nat (length a) ->
  exists ok ds dot', collect_digits p positive (packed a) dot (1 + Z.of_nat (length a))
    = (ok, packed ds, dot', 1 + Z.of_nat (length ds))
    /\ digits ds /\ (length ds <= OB_MAX_NUM_LENGTH)%nat /\ dot' <= Z.of_nat (length ds).
Proof.
  revert positive a dot. induction p as [|c p IH]; intros positive a dot Ha Hl Hd; cbn [collect_digits length] in *.
  { exists true, a, dot. split_and!; [done|done|lia|done]. }
  destruct (is_dec c) eqn:Ec.
  - rewrite packed_snoc by lia.
    replace (1 + Z.of_nat (length a) + 1) with (1 + Z.of_nat (length (a ++ [c]))) by (rewrite length_app; cbn; lia).
    apply IH; [apply Forall_app; split; [done|by repeat constructor]|rewrite length_app; cbn; lia|].
    rewrite length_app. cbn [length]. destruct positive; lia.
  - destruct (c =? "."%chr); [apply IH; [done|lia|done]|]. exists false, a, dot. split_and!; [done|done|lia|done].
Qed.

Lemma skip_leading_length p : (length (fst (skip_leading p)) <= length p)%nat.
Proof.
  induction p as [|c p IH]; cbn [skip_leading]; [done|].
  destruct (c =? "."%chr); [done|]. destruct (c =? "0"%chr); cbn [length]; [lia|done].
Qed.

Lemma parse_shape text : (length text <= OB_MAX_NUM_LENGTH)%nat ->
  exists ds, let '(_, n) := parse_normal_number_object_from_str text in
    num_info n = packed ds /\ digits ds /\ (length ds <= OB_MAX_NUM_LENGTH)%nat
    /\ dot_pos n <= Z.of_nat (length ds) /\ (start_pos n = 1 \/ start_pos n = 0 /\ ds = []).
Proof.
  intros Hl. unfold parse_normal_number_object_from_str. destruct text as [|c text].
  { exists []. cbn [num_info dot_pos start_pos length]. split_and!; [done|constructor|lia|done|by right]. }
  unfold parse_digits. destruct (parse_sign _) as [[[mark i] positive]|].
  - destruct (if positive then _ else _) as [p b] eqn:Ep.
    assert (Hp : (length p <= OB_MAX_NUM_LENGTH)%nat).
    { assert (length (drop i (c :: text)) <= OB_MAX_NUM_LENGTH)%nat by (rewrite length_drop; lia).
      destruct positive; [|injection Ep as <- <-; done].
      pose proof (skip_leading_length (drop i (c :: text))) as Hs. rewrite Ep in Hs. cbn [fst] in Hs. lia. }
    destruct (collect_digits_shape p b [] (-1)) as (ok & ds & dot & Ec & Hd & Hn & Hdot); [constructor|done|cbn; lia|].
    change (packed []) with zeros in Ec. change (1 + Z.of_nat (length (@nil Z))) with 1 in Ec. rewrite Ec.
    exists ds. cbn [num_info dot_pos start_pos]. rewrite trim_tail_packed by done. split_and!; auto.
  - exists []. change (trim_tail (Z.to_nat 1) (-1) zeros) with zeros. cbn [num_info dot_pos start_pos length].
    split_and!; [done|constructor|lia|lia|by left].
Qed.

Lemma packed_no_dot ds i : digits ds -> ix (packed ds) i <> "."%chr.
Proof.
  intros Hd. unfold ix, packed, at_. destruct (Z.to_nat i) as [|n]; [done|]. cbn [nth]. rewrite nth_lookup.
  destruct (_ !! n) as [c|] eqn:E; [|done]. cbn. apply lookup_app_Some in E as [E|[_ E]].
  - eapply (Forall_lookup_1 _ _ _ _ Hd), is_dec_range in E. cbn in E. lia.
  - apply lookup_replicate in E as [-> _]. done.
Qed.

Lemma shown_le st width : 0 <= width -> ix (obclient_num_array st) width = 0 -> Z.of_nat (length (shown st)) <= width.
Proof. intros H0 H. unfold shown. rewrite length_cstr. pose proof (strlen_le _ _ H). lia. Qed.

Lemma safe_start array width mark : 2 <= width ->
  safe width (puts (memset array 0 (width + 1), 0) (minus_of mark))
  /\ snd (puts (memset array 0 (width + 1), 0) (minus_of mark)) = Z.of_nat (length (minus_of mark))
  /\ Z.of_nat (length (minus_of mark)) <= 1.
Proof.
  intros Hw. assert (Z.of_nat (length (minus_of mark)) <= 1) by (unfold minus_of; destruct (mark =? 2); cbn; lia).
  rewrite snd_puts. cbn [snd]. split_and!; [|lia|done].
  apply safe_puts; [split; [done|]; apply ix_memset_0; lia|]. cbn [snd]. lia.
Qed.

Lemma format_fix_width_num_ends st text :
  (length text <= OB_MAX_NUM_LENGTH)%nat -> 7 <= num_width st ->
  ix (obclient_num_array (format_fix_width_num st text)) (num_width st) = 0.
Proof.
  intros Hl Hw. destruct (parse_shape text Hl) as [ds Hn]. unfold format_fix_width_num.
  destruct (parse_normal_number_object_from_str text) as [ok n]. destruct Hn as (Hi & Hd & Hlen & Hdot & Hst).
  cbn [obclient_num_array]. set (array := memset _ 0 _).
  destruct ok; [|rewrite ix_memset by lia; apply ix_memset_0; lia].
  destruct (sign_puts array (num_mark n)) as [-> ->].
  destruct (safe_start (obclient_num_array st) (num_width st) (num_mark n)) as (Hs & Hsnd & H1); [lia|].
  fold array in Hs, Hsnd. set (w := puts (array, 0) _) in *. rewrite <-Hsnd in *.
  destruct (Z.eqb_spec (len_from (num_info n) (start_pos n)) 0) as [_|Hne]; [rewrite ix_upd_ne by lia; apply Hs|].
  destruct Hst as [Hst|[Hst ->]]; [|by rewrite Hi, Hst in Hne]. rewrite Hst, Hi, len_packed in * by done.
  destruct (Z.ltb_spec 0 (dot_pos n)) as [Hpos|_]; cycle 1.
  { apply format_fraction_fits; rewrite ?Hi; auto with lia. intros i. by apply packed_no_dot. }
  destruct (_ || _) eqn:E.
  { set (w' := puts w _). assert (Hw' : safe (num_width st) w' /\ snd w' <= snd w + dot_pos n).
    { unfold w'. rewrite snd_puts, length_take. split; [|lia]. apply safe_puts; [done|]. rewrite length_take. lia. }
    destruct (Z.ltb_spec (dot_pos n) (Z.of_nat (length ds))); [|apply Hw'].
    apply safe_puts; [apply safe_put; [apply Hw'|lia]|]. rewrite snd_put, length_take. lia. }
  destruct (Z.leb_spec (dot_pos n - 1 + 1) (num_width st - snd w)).
  - apply format_rounded_fits; auto with lia.
  - apply format_large_fits; auto with lia.
Qed.

Lemma strip_frame n i info j : 0 <= j <= i - Z.of_nat n -> ix (strip n i info) j = ix info j.
Proof.
  revert i info. induction n as [|n IH]; intros i info Hj; [done|]. cbn [strip]. destruct (_ =? _); [|done].
  rewrite IH by lia. apply ix_upd_ne; lia.
Qed.

Lemma collect_binary_shape p a :
  digits a -> (length a + length p <= OB_MAX_NUM_LENGTH)%nat ->
  exists ok ds e, collect_binary p (packed a) (1 + Z.of_nat (length a)) = (ok, packed ds, e, 1 + Z.of_nat (length ds))
    /\ digits ds /\ (length ds <= OB_MAX_NUM_LENGTH)%nat.
Proof.
  revert a. induction p as [|c p IH]; intros a Ha Hl; cbn [collect_binary length] in *.
  { exists true, a, 0. split_and!; [done|done|lia]. }
  destruct (is_dec c) eqn:Ec.
  - rewrite packed_snoc by lia.
    replace (1 + Z.of_nat (length a) + 1) with (1 + Z.of_nat (length (a ++ [c]))) by (rewrite length_app; cbn; lia).
    apply IH; [apply Forall_app; split; [done|by repeat constructor]|rewrite length_app; cbn; lia].
  - destruct (c =? "."%chr); [apply IH; [done|lia]|]. destruct (c =? "E"%chr); [|by exists false, a, 0; split_and!; [|done|lia]].
    destruct (parse_exp _) as [e|]; [exists true, a, e|exists false, a, 0]; split_and!; done || lia.
Qed.

(** The digits of a binary number: none, or some from index 1 on. *)
Definition bin_shape (info : list Z) (start : Z) : Prop :=
  info = zeros /\ (start = 0 \/ start = 1) \/ start = 1 /\ ix info 1 <> 0.

Lemma strip_shape ds : digits ds ->
  bin_shape (strip (Z.to_nat (1 + Z.of_nat (length ds) - 2)) (1 + Z.of_nat (length ds) - 1) (packed ds)) 1.
Proof.
  intros Hd. destruct ds as [|d ds]; [by left; split; [|right]|]. right. split; [done|].
  cbn [length]. rewrite strip_frame by lia. change (ix (packed (d :: ds)) 1) with d.
  apply Forall_cons in Hd as [Hd%is_dec_range _]. cbn in Hd. lia.
Qed.

Lemma parse_binary_shape text : (length text <= OB_MAX_NUM_LENGTH)%nat ->
  let '(_, n) := parse_binary_number_object_from_str text in bin_shape (bin_info n) (bin_start_pos n).
Proof.
  intros Hl. unfold parse_binary_number_object_from_str. destruct text as [|c text]; [by left; split; [|left]|].
  destruct (c =? "0"%chr); [by left; split; [|left]|].
  destruct (if c =? "+"%chr then _ else _) as [[[[ok mark] i] info] j] eqn:E.
  assert (Hinfo : exists a, info = packed a /\ j = 1 + Z.of_nat (length a) /\ digits a
    /\ (ok = true -> (length a + length (drop i (c :: text)) <= OB_MAX_NUM_LENGTH)%nat)).
  { rewrite length_drop. cbn [length] in *.
    destruct (c =? "+"%chr); [|destruct (c =? "-"%chr); [|destruct (c =? "."%chr); [|destruct (is_lead c) eqn:El; [destruct (_ || _)|]]]];
      injection E as <- <- <- <- <-; try (exists []; split_and!; [done|done|constructor|cbn; lia]).
    exists [c]. unfold is_lead in El. split_and!; [done|done|repeat constructor; unfold is_dec; lia|cbn; lia]. }
  clear E. destruct Hinfo as (a & -> & -> & Ha & Hla). destruct ok.
  - destruct (collect_binary_shape (drop i (c :: text)) a Ha (Hla eq_refl)) as (ok & ds & e & -> & Hd & _).
    cbn [bin_info bin_start_pos]. by apply strip_shape.
  - cbn [bin_info bin_start_pos]. by apply strip_shape.
Qed.

Lemma bin_shape_rest info start v : bin_shape info start -> 2 <= v -> len_from info start <= v ->
  len_from info (start + 1) <= v - 1.
Proof.
  intros [[-> [-> | ->]]|[-> Hne]] Hv Hl; [by change (len_from zeros _) with 0; lia..|].
  change (1 + 1) with 2. unfold len_from, from, ix, at_ in *. change (Z.to_nat 1) with 1%nat in *. change (Z.to_nat 2) with 2%nat.
  destruct info as [|x [|y info]]; cbn in *; [lia|lia|]. rewrite drop_0 in *. rewrite (proj2 (Z.eqb_neq _ _) Hne) in Hl. lia.
Qed.

Lemma bin_round_fits v info start : bin_shape info start -> 2 <= v ->
  let '(info', start') := bin_round v info start in Z.of_nat (length (cstr (from info' (start' + 1)))) <= v - 1.
Proof.
  intros Hn Hv. unfold bin_round. destruct (Z.ltb_spec v (len_from info start)) as [_|Hle].
  - destruct (if "4"%chr <? _ then _ else _) as [info' start'] eqn:Er.
    assert (Hst : 0 <= start').
    { match type of Er with context [round_up ?a ?b ?c] => pose proof (round_up_start a b c) as Hr end.
      assert (0 <= start) by (destruct Hn as [[_ [-> | ->]]|[-> _]]; lia).
      destruct (_ <? _), (round_up _ _ _) as [i s] in *; injection Er as <- <-; lia. }
    clear Er. cbv zeta. set (info2 := upd _ _ 0).
    assert (0 <= len_from info2 start') by (unfold len_from; lia).
    assert (Hz : ix (strip (Z.to_nat (len_from info2 start' - 1 - start')) (len_from info2 start' - 1) info2) (start' + v) = 0)
      by (apply strip_keeps; [lia|lia|apply ix_upd_0]).
    pose proof (length_text_le _ (start' + 1) (start' + v) ltac:(lia) Hz). lia.
  - rewrite length_cstr. by apply bin_shape_rest.
Qed.

Lemma format_fix_width_num_binary_ends st text :
  (length text <= OB_MAX_NUM_LENGTH)%nat ->
  ix (obclient_num_array (format_fix_width_num_binary st text)) (num_width st) = 0.
Proof.
  intros Hl. pose proof (num_width_range st) as Hw. pose proof (parse_binary_shape text Hl) as Hn.
  unfold format_fix_width_num_binary. destruct (parse_binary_number_object_from_str text) as [ok n].
  cbn [obclient_num_array]. set (array := memset _ 0 _).
  destruct ok; cbn [negb]; [|rewrite ix_memset by lia; apply ix_memset_0; lia].
  destruct (is_zero n); [rewrite ix_upd_ne by lia; apply ix_memset_0; lia|].
  destruct (sign_puts array (last_num_mark st)) as [-> ->].
  destruct (safe_start (obclient_num_array st) (num_width st) (last_num_mark st)) as (Hs & Hsnd & H1); [lia|].
  fold array in Hs, Hsnd. set (w := puts (array, 0) _) in *. rewrite <-Hsnd in *. pose proof (proj1 Hs) as H0.
  set (v := num_width st - snd w - 5 - 1). destruct (Z.ltb_spec v 2); [apply safe_memset; [lia|done]|].
  pose proof (bin_round_fits v _ _ Hn ltac:(lia)) as Hlen.
  destruct (bin_round v _ _) as [info start]. set (w1 := put (put w _) "."%chr).
  assert (Hw1 : safe (num_width st) w1 /\ snd w1 = snd w + 2).
  { unfold w1. rewrite !snd_put. split; [|lia]. repeat apply safe_put; rewrite ?snd_put; done || lia. }
  set (w2 := if 0 <? len_from info (start + 1) then _ else _).
  assert (Hw2 : safe (num_width st) w2 /\ snd w2 <= snd w + 2 + (v - 1)).
  { unfold w2. destruct (0 <? _); [rewrite snd_puts|rewrite snd_put]; (split; [|lia]).
    - apply safe_puts; [apply Hw1|lia].
    - apply safe_put; [apply Hw1|lia]. }
  set (w3 := put w2 _). assert (Hw3 : safe (num_width st) w3) by (apply safe_put; [apply Hw2|lia]).
  destruct (_ || _); [apply safe_memset; [lia|done]|].
  apply safe_puts; [destruct (0 <=? _); apply safe_put; try done|destruct (0 <=? _)]; unfold w3; rewrite ?snd_put; cbn [length]; lia.
Qed.

(** C35. A printed number is never wider than its column: for every text of
    up to 128 bytes, a number or not, the decimal form has at most as many
    characters as the column, if the column has room for an exponent, and the
    form of binary numbers has for every width. *)
Theorem number_display_fits (st : num_state) (text : list Z) :
  (length text <= OB_MAX_NUM_LENGTH)%nat ->
  (7 <= num_width st -> Z.of_nat (length (shown (format_fix_width_num st text))) <= num_width st)
  /\ Z.of_nat (length (shown (format_fix_width_num_binary st text))) <= num_width st.
Proof.
  intros Hl. pose proof (num_width_range st). split; [intros Hw|]; (apply shown_le; [lia|]).
  - by apply format_fix_width_num_ends.
  - by apply format_fix_width_num_binary_ends.
Qed.

Lemma number_display_fits_witness :
  (7 <= 10 -> Z.of_nat (length (shown (format_fix_width_num (num_start 10) (str "-98765432109876.5")))) <= 10)
  /\ Z.of_nat (length (shown (format_fix_width_num_binary (num_start 10) (str "1.23456789E+012")))) <= 10.
Proof.
  split.
  - apply (number_display_fits (num_start 10) (str "-98765432109876.5")). unfold OB_MAX_NUM_LENGTH. cbn. lia.
  - apply (number_display_fits (num_start 10) (str "1.23456789E+012")). unfold OB_MAX_NUM_LENGTH. cbn. lia.
Defined.

(** What is printed wrongly, at the width 10 unless noted: a small number
    of which one digit is left loses its exponent; digits are cut off instead
    of rounded; binary numbers that begin with 4 are not printed, lose the
    last digit of the exponent, and take their sign from the last decimal
    number; in narrow columns a carry is printed wider than the column, and
    a small negative number as nothing at all. *)
Theorem number_display_wrong :
  shown (format_fix_width_num (num_start 10) (str ".0000000001")) = str "1.0"
  /\ shown (format_fix_width_num (num_start 10) (str "1.2345678951")) = str "1.23456789"
  /\ shown (format_fix_width_num (num_start 10) (str "123456789012")) = str "1.2345E+11"
  /\ shown (format_fix_width_num_binary (num_start 10) (str "4.5000000E+001")) = str "##########"
  /\ shown (format_fix_width_num_binary (num_start 10) (str "1.5000000E+008")) = str "1.5E+000"
  /\ shown (format_fix_width_num_binary (format_fix_width_num (num_start 10) (str "-1")) (str "1.5000000E+000"))
     = str "-1.5E+000"
  /\ shown (format_fix_width_num (num_start 2) (str "99.9")) = str "1.E+02"
  /\ shown (format_fix_width_num (num_start 5) (str "-.0001")) = [].
Proof. by vm_compute. Qed.
