(* ===== verification/Utf8.v ===== *)
(** * UTF-8 (strings/ctype-utf8.h, strings/ctype-utf8.c, strings/ctype-mb.c,
    strings/ctype-mb.ic)

    The character set utf8mb4: its decoder and encoder of single characters,
    the length of the character at the start of a text, and the functions of
    the multi-byte character sets that are built on them: the number of
    characters and of screen cells of a text, the well-formed part of a text
    and the copy that repairs broken bytes.

    A range of bytes between two pointers is the list of these bytes.  A
    conversion returns its result code and the code point it stores, if it
    stores one; an encoder gets the room that is left in the destination. *)

From S2P Require Import Prelude Charset CellWidths.

(** ** Single characters *)

Definition MY_CS_ILSEQ : Z := 0.
Definition MY_CS_ILUNI : Z := 0.
Definition MY_CS_TOOSMALL : Z := -101.
Definition MY_CS_TOOSMALL2 : Z := -102.
Definition MY_CS_TOOSMALL3 : Z := -103.
Definition MY_CS_TOOSMALL4 : Z := -104.
Definition MY_CS_TOOSMALLN (n : Z) : Z := -100 - n.

Definition IS_CONTINUATION_BYTE (c : Z) : bool := Z.lxor c 0x80 <? 0x40.

Definition IS_UTF8MB3_STEP2 (b0 b1 b2 : Z) : bool :=
  IS_CONTINUATION_BYTE b1 && IS_CONTINUATION_BYTE b2 && ((0xe1 <=? b0) || (0xa0 <=? b1)).

Definition IS_UTF8MB4_STEP2 (b0 b1 b2 b3 : Z) : bool :=
  IS_CONTINUATION_BYTE b1 && IS_CONTINUATION_BYTE b2 && IS_CONTINUATION_BYTE b3
  && ((0xf1 <=? b0) || (0x90 <=? b1)) && ((b0 <=? 0xf3) || (b1 <=? 0x8f)).

Definition UTF8MB2_CODE (b0 b1 : Z) : Z :=
  Z.lor (Z.shiftl (Z.land b0 0x1f) 6) (Z.lxor b1 0x80).

Definition UTF8MB3_CODE (b0 b1 b2 : Z) : Z :=
  Z.lor (Z.lor (Z.shiftl (Z.land b0 0x0f) 12) (Z.shiftl (Z.lxor b1 0x80) 6)) (Z.lxor b2 0x80).

Definition UTF8MB4_CODE (b0 b1 b2 b3 : Z) : Z :=
  Z.lor (Z.lor (Z.lor (Z.shiftl (Z.land b0 0x07) 18) (Z.shiftl (Z.lxor b1 0x80) 12))
               (Z.shiftl (Z.lxor b2 0x80) 6))
        (Z.lxor b3 0x80).

Definition my_mb_wc_utf8mb4_quick (s : list Z) : Z * option Z :=
  if (length s =? 0)%nat then (MY_CS_TOOSMALL, None)
  else
    let c := at_ s 0 in
    if c <? 0x80 then (1, Some c)
    else if c <? 0xc2 then (MY_CS_ILSEQ, None)
    else if c <? 0xe0 then
      if (length s <? 2)%nat then (MY_CS_TOOSMALL2, None)
      else if negb (IS_CONTINUATION_BYTE (at_ s 1)) then (MY_CS_ILSEQ, None)
      else (2, Some (UTF8MB2_CODE c (at_ s 1)))
    else if c <? 0xf0 then
      if (length s <? 3)%nat then (MY_CS_TOOSMALL3, None)
      else if negb (IS_UTF8MB3_STEP2 c (at_ s 1) (at_ s 2)) then (MY_CS_ILSEQ, None)
      else (3, Some (UTF8MB3_CODE c (at_ s 1) (at_ s 2)))
    else if c <? 0xf5 then
      if (length s <? 4)%nat then (MY_CS_TOOSMALL4, None)
      else if negb (IS_UTF8MB4_STEP2 c (at_ s 1) (at_ s 2) (at_ s 3)) then (MY_CS_ILSEQ, None)
      else (4, Some (UTF8MB4_CODE c (at_ s 1) (at_ s 2) (at_ s 3)))
    else (MY_CS_ILSEQ, None).

Definition my_mb_wc_utf8mb4 (s : list Z) : Z * option Z := my_mb_wc_utf8mb4_quick s.

(** The decoder of utf8mb3, which knows the basic plane only. *)
Definition my_mb_wc_utf8mb3_quick (s : list Z) : Z * option Z :=
  if (length s =? 0)%nat then (MY_CS_TOOSMALL, None)
  else
    let c := at_ s 0 in
    if c <? 0x80 then (1, Some c)
    else if c <? 0xc2 then (MY_CS_ILSEQ, None)
    else if c <? 0xe0 then
      if (length s <? 2)%nat then (MY_CS_TOOSMALL2, None)
      else if negb (IS_CONTINUATION_BYTE (at_ s 1)) then (MY_CS_ILSEQ, None)
      else (2, Some (UTF8MB2_CODE c (at_ s 1)))
    else if c <? 0xf0 then
      if (length s <? 3)%nat then (MY_CS_TOOSMALL3, None)
      else if negb (IS_UTF8MB3_STEP2 c (at_ s 1) (at_ s 2)) then (MY_CS_ILSEQ, None)
      else (3, Some (UTF8MB3_CODE c (at_ s 1) (at_ s 2)))
    else (MY_CS_ILSEQ, None).

(** The fall-through of the [switch (count)]: the continuation bytes are
    stored from the last one on, each leaving the bits in front of it and a
    mark that ends up in the first byte. *)
Definition tail_byte (wc : Z) : Z := Z.lor 0x80 (Z.land wc 0x3f) mod 256.

Definition store_utf8mb4 (count wc : Z) : list Z :=
  let '(r3, wc) := if count =? 4 then ([tail_byte wc], Z.lor (Z.shiftr wc 6) 0x10000) else ([], wc) in
  let '(r2, wc) := if 3 <=? count then ([tail_byte wc], Z.lor (Z.shiftr wc 6) 0x800) else ([], wc) in
  let '(r1, wc) := if 2 <=? count then ([tail_byte wc], Z.lor (Z.shiftr wc 6) 0xc0) else ([], wc) in
  [wc mod 256] ++ r1 ++ r2 ++ r3.

(** The result code and the bytes stored at [r]. *)
Definition my_wc_mb_utf8mb4 (wc : Z) (room : nat) : Z * list Z :=
  if (room =? 0)%nat then (MY_CS_TOOSMALL, [])
  else
    let count :=
      if wc <? 0x80 then 1 else if wc <? 0x800 then 2 else if wc <? 0x10000 then 3
      else if wc <? 0x200000 then 4 else 0 in
    if count =? 0 then (MY_CS_ILUNI, [])
    else if Z.of_nat room <? count then (MY_CS_TOOSMALLN count, [])
    else (count, store_utf8mb4 count wc).

Definition my_valid_mbcharlen_utf8mb3 (s : list Z) : Z :=
  let c := at_ s 0 in
  if c <? 0x80 then 1
  else if c <? 0xc2 then MY_CS_ILSEQ
  else if c <? 0xe0 then
    if (length s <? 2)%nat then MY_CS_TOOSMALL2
    else if negb (IS_CONTINUATION_BYTE (at_ s 1)) then MY_CS_ILSEQ
    else 2
  else if (length s <? 3)%nat then MY_CS_TOOSMALL3
  else if negb (IS_UTF8MB3_STEP2 c (at_ s 1) (at_ s 2)) then MY_CS_ILSEQ
  else 3.

Definition my_charlen_utf8mb4 (s : list Z) : Z :=
  if (length s =? 0)%nat then MY_CS_TOOSMALL
  else
    let c := at_ s 0 in
    if c <? 0xf0 then my_valid_mbcharlen_utf8mb3 s
    else if c <? 0xf5 then
      if (length s <? 4)%nat then MY_CS_TOOSMALL4
      else if negb (IS_UTF8MB4_STEP2 c (at_ s 1) (at_ s 2) (at_ s 3)) then MY_CS_ILSEQ
      else 4
    else MY_CS_ILSEQ.

(** ** Texts

    The functions of strings/ctype-mb.c work with the handler of any
    multi-byte character set. *)
Section multibyte.

Context (charlen : list Z -> Z) (mb_wc : list Z -> Z * option Z) (wc_mb : Z -> nat -> Z * list Z).

Definition my_ismbchar (s : list Z) : nat :=
  let char_length := charlen s in if 1 <? char_length then Z.to_nat char_length else 0%nat.

(** The bytes that the loops below advance by. *)
Definition mb_step (s : list Z) : nat :=
  let mb_len := my_ismbchar s in if negb (mb_len =? 0)%nat then mb_len else 1%nat.

(** The loops take the length of the text as fuel. *)
Fixpoint numchars_loop (fuel : nat) (pos : list Z) (count : nat) : nat :=
  match fuel, pos with
  | S fuel', _ :: _ => numchars_loop fuel' (drop (mb_step pos) pos) (S count)
  | _, _ => count
  end.

Definition my_numchars_mb (s : list Z) : nat := numchars_loop (length s) s 0.

Fixpoint charpos_loop (fuel : nat) (n : nat) (pos : list Z) (len : nat) : nat * nat :=
  match fuel, len, pos with
  | S fuel', S len', _ :: _ => charpos_loop fuel' (n + mb_step pos) (drop (mb_step pos) pos) len'
  | _, _, _ => (n, len)
  end.

Definition my_charpos_mb (s : list Z) (len : nat) : nat :=
  let '(n, len) := charpos_loop (length s) 0 s len in
  if negb (len =? 0)%nat then (length s + 2)%nat else n.

(** The cells that a decoded character takes beyond the first one. *)
Definition extra_cells (wc : Z) : Z :=
  if 0xffff <? wc then if (0x20000 <=? wc) && (wc <=? 0x3fffd) then 1 else 0
  else
    let pg := Z.land (Z.shiftr wc 8) 0xff in
    match nth (Z.to_nat pg) utr11_data (0, None) with
    | (_, Some p) => nth (Z.to_nat (Z.land wc 0xff)) p 0
    | (page, None) => page
    end.

Fixpoint numcells_loop (fuel : nat) (b : list Z) (clen : nat) : nat :=
  match fuel, b with
  | S fuel', _ :: _ =>
      match mb_wc b with
      | (mb_len, Some wc) =>
          if mb_len <=? 0 then numcells_loop fuel' (drop 1 b) clen
          else numcells_loop fuel' (drop (Z.to_nat mb_len) b) (S (clen + Z.to_nat (extra_cells wc)))
      | (_, None) => numcells_loop fuel' (drop 1 b) clen
      end
  | _, _ => clen
  end.

Definition my_numcells_mb (b : list Z) : nat := numcells_loop (length b) b 0.

(** [MY_STRCOPY_STATUS], with positions counted from the start of the text. *)
Record MY_STRCOPY_STATUS := mkStatus {
  m_source_end_pos : nat;
  m_well_formed_error_pos : option nat
}.

(** The number of characters read and the status; [b] is at position [pos]. *)
Fixpoint well_formed_loop (nchars : nat) (b : list Z) (pos read : nat) : nat * MY_STRCOPY_STATUS :=
  match nchars with
  | O => (read, mkStatus pos None)
  | S nchars' =>
      let chlen := charlen b in
      if chlen <=? 0 then (read, mkStatus pos (match b with [] => None | _ => Some pos end))
      else well_formed_loop nchars' (drop (Z.to_nat chlen) b) (pos + Z.to_nat chlen) (S read)
  end.

Definition well_formed_char_length (b : list Z) (nchars : nat) : nat * MY_STRCOPY_STATUS :=
  well_formed_loop nchars b 0 0.

(** [from] is at position [pos] of the source, [room] is [to_end - to]: the
    bytes appended, the position reached and the first error. *)
Fixpoint append_loop (nchars : nat) (from : list Z) (pos room : nat) (err : option nat) (to : list Z)
    : list Z * MY_STRCOPY_STATUS :=
  match nchars with
  | O => (to, mkStatus pos err)
  | S nchars' =>
      let chlen := charlen from in
      if 0 <? chlen then
        if Z.of_nat room <? chlen then (to, mkStatus pos err)
        else
          let n := Z.to_nat chlen in
          append_loop nchars' (drop n from) (pos + n) (room - n) err (to ++ take n from)
      else if negb (chlen =? MY_CS_ILSEQ) && bool_decide (from = []) then (to, mkStatus pos err)
      else
        let err := match err with Some p => Some p | None => Some pos end in
        let '(chlen, bytes) := wc_mb "?"%chr room in
        if chlen <=? 0 then (to, mkStatus pos err)
        else append_loop nchars' (drop 1 from) (S pos) (room - Z.to_nat chlen) err (to ++ bytes)
  end.

Definition my_append_fix_badly_formed_tail (room : nat) (from : list Z) (pos nchars : nat)
    (status : MY_STRCOPY_STATUS) : list Z * MY_STRCOPY_STATUS :=
  append_loop nchars from pos room (m_well_formed_error_pos status) [].

(** The bytes stored at [dst] and the status. *)
Definition my_copy_fix_mb (dst_length : nat) (src : list Z) (nchars : nat) : list Z * MY_STRCOPY_STATUS :=
  let src := take (Nat.min (length src) dst_length) src in
  let '(well_formed_nchars, status) := well_formed_char_length src nchars in
  let well_formed_length := m_source_end_pos status in
  match m_well_formed_error_pos status with
  | None => (take well_formed_length src, status)
  | Some _ =>
      let '(fixed, status) :=
        my_append_fix_badly_formed_tail (dst_length - well_formed_length) (drop well_formed_length src)
          well_formed_length (nchars - well_formed_nchars) status in
      (take well_formed_length src ++ fixed, status)
  end.

End multibyte.

(** ** The encoding as the standard describes it *)

Definition utf8_of (wc : Z) : list Z :=
  if wc <? 0x80 then [wc]
  else if wc <? 0x800 then [0xc0 + wc / 64; 0x80 + wc mod 64]
  else if wc <? 0x10000 then [0xe0 + wc / 4096; 0x80 + wc / 64 mod 64; 0x80 + wc mod 64]
  else [0xf0 + wc / 262144; 0x80 + wc / 4096 mod 64; 0x80 + wc / 64 mod 64; 0x80 + wc mod 64].

Definition utf8_text (wcs : list Z) : list Z := concat (map utf8_of wcs).

(** The code points of Unicode. *)
Definition code_point (wc : Z) : Prop := 0 <= wc <= 0x10ffff.

(** A decidable property of all bytes. *)
Lemma byte_all (P : Z -> bool) : forallb P (seqZ 0 256) = true -> forall c, 0 <= c < 256 -> P c = true.
Proof. intros H c Hc. apply (proj1 (forallb_forall _ _) H). apply list_elem_of_In, elem_of_seqZ. lia. Qed.

Lemma continuation_spec c : 0 <= c < 256 -> IS_CONTINUATION_BYTE c = (128 <=? c) && (c <? 192).
Proof.
  intros Hc. apply eqb_prop. by apply (byte_all (fun c => eqb (IS_CONTINUATION_BYTE c) ((128 <=? c) && (c <? 192)))).
Qed.

Lemma continuation_bits c : 128 <= c < 192 -> Z.lxor c 0x80 = c - 128.
Proof.
  intros Hc. apply Z.eqb_eq.
  assert (H : implb ((128 <=? c) && (c <? 192)) (Z.lxor c 128 =? c - 128) = true)
    by (apply (byte_all (fun c => implb ((128 <=? c) && (c <? 192)) (Z.lxor c 128 =? c - 128))); [done|lia]).
  by rewrite (proj2 (Z.leb_le 128 c)), (proj2 (Z.ltb_lt c 192)) in H by lia.
Qed.

Lemma lor_low a b k : 0 <= k -> 0 <= b < 2 ^ k -> Z.lor (a * 2 ^ k) b = a * 2 ^ k + b.
Proof. intros Hk Hb. rewrite Z.lor_comm, <-(Z.shiftl_mul_pow2 a k), lor_shiftl by done. rewrite Z.shiftl_mul_pow2 by done. lia. Qed.

Lemma code_2 b0 b1 : 0xc0 <= b0 < 0xe0 -> 128 <= b1 < 192 -> UTF8MB2_CODE b0 b1 = (b0 - 0xc0) * 64 + (b1 - 128).
Proof.
  intros H0 H1. unfold UTF8MB2_CODE. rewrite continuation_bits by done.
  change 0x1f with (Z.ones 5). rewrite Z.land_ones, Z.shiftl_mul_pow2, lor_low by lia.
  change (2 ^ 5) with 32. change (2 ^ 6) with 64. Z.to_euclidean_division_equations. lia.
Qed.

Lemma code_3 b0 b1 b2 : 0xe0 <= b0 < 0xf0 -> 128 <= b1 < 192 -> 128 <= b2 < 192 ->
  UTF8MB3_CODE b0 b1 b2 = (b0 - 0xe0) * 4096 + (b1 - 128) * 64 + (b2 - 128).
Proof.
  intros H0 H1 H2. unfold UTF8MB3_CODE. rewrite !continuation_bits by done.
  change 0x0f with (Z.ones 4). rewrite Z.land_ones, !Z.shiftl_mul_pow2 by lia.
  rewrite (lor_low _ _ 12) by lia. change (2 ^ 12) with (64 * 2 ^ 6). rewrite Z.mul_assoc, <-Z.mul_add_distr_r, lor_low by lia.
  change (2 ^ 4) with 16. change (2 ^ 6) with 64. Z.to_euclidean_division_equations. lia.
Qed.

Lemma code_4 b0 b1 b2 b3 : 0xf0 <= b0 < 0xf8 -> 128 <= b1 < 192 -> 128 <= b2 < 192 -> 128 <= b3 < 192 ->
  UTF8MB4_CODE b0 b1 b2 b3 = (b0 - 0xf0) * 262144 + (b1 - 128) * 4096 + (b2 - 128) * 64 + (b3 - 128).
Proof.
  intros H0 H1 H2 H3. unfold UTF8MB4_CODE. rewrite !continuation_bits by done.
  change 0x07 with (Z.ones 3). rewrite Z.land_ones, !Z.shiftl_mul_pow2 by lia.
  rewrite (lor_low _ _ 18) by lia. change (2 ^ 18) with (64 * 2 ^ 12). rewrite Z.mul_assoc, <-Z.mul_add_distr_r, (lor_low _ _ 12) by lia.
  change (2 ^ 12) with (64 * 2 ^ 6). rewrite Z.mul_assoc, <-Z.mul_add_distr_r, lor_low by lia.
  change (2 ^ 3) with 8. change (2 ^ 6) with 64. Z.to_euclidean_division_equations. lia.
Qed.

Lemma tail_byte_eq wc : 0 <= wc -> tail_byte wc = 0x80 + wc mod 64.
Proof.
  intros H. unfold tail_byte. change 0x3f with (Z.ones 6). rewrite Z.land_ones by lia.
  change 0x80 with (2 * 2 ^ 6). change (2 ^ 6) with 64 at 2. rewrite lor_low by (change (2 ^ 6) with 64; Z.to_euclidean_division_equations; lia).
  change (2 * 2 ^ 6) with 128. Z.to_euclidean_division_equations. lia.
Qed.

Lemma mark_bits wc k m : 0 <= k -> 0 <= wc -> wc / 64 < 2 ^ k -> Z.lor (Z.shiftr wc 6) (m * 2 ^ k) = m * 2 ^ k + wc / 64.
Proof.
  intros Hk Hw Hl. rewrite Z.shiftr_div_pow2, Z.lor_comm by lia. change (2 ^ 6) with 64.
  apply lor_low; [done|]. split; [by apply Z.div_pos|done].
Qed.

(** The marks that the second, third and fourth bytes leave. *)
Lemma mark_2 wc : 0 <= wc < 0x1000 -> Z.lor (Z.shiftr wc 6) 0xc0 = 0xc0 + wc / 64.
Proof.
  intros H. apply (mark_bits wc 6 3); [done|lia|].
  change (2 ^ 6) with 64. Z.to_euclidean_division_equations. lia.
Qed.

Lemma mark_3 wc : 0 <= wc < 0x20000 -> Z.lor (Z.shiftr wc 6) 0x800 = 0x800 + wc / 64.
Proof.
  intros H. apply (mark_bits wc 11 1); [done|lia|].
  change (2 ^ 11) with 2048. Z.to_euclidean_division_equations. lia.
Qed.

Lemma mark_4 wc : 0 <= wc < 0x200000 -> Z.lor (Z.shiftr wc 6) 0x10000 = 0x10000 + wc / 64.
Proof.
  intros H. apply (mark_bits wc 16 1); [done|lia|].
  change (2 ^ 16) with 65536. Z.to_euclidean_division_equations. lia.
Qed.

Ltac div_lia := Z.to_euclidean_division_equations; lia.
Ltac bytes_equal := cbn [app]; repeat apply (f_equal2 cons); [div_lia..|done].

Lemma store_utf8_of wc : 0 <= wc < 0x200000 ->
  store_utf8mb4 (if wc <? 0x80 then 1 else if wc <? 0x800 then 2 else if wc <? 0x10000 then 3 else 4) wc = utf8_of wc.
Proof.
  intros Hw. unfold store_utf8mb4, utf8_of.
  destruct (Z.ltb_spec wc 0x80); [cbn; f_equal; div_lia|].
  destruct (Z.ltb_spec wc 0x800); [|destruct (Z.ltb_spec wc 0x10000)];
    cbn -[tail_byte Z.lor Z.shiftr Z.mul Z.modulo Z.div Z.add].
  - rewrite tail_byte_eq, mark_2 by lia. bytes_equal.
  - rewrite mark_3, mark_2, !tail_byte_eq by div_lia. bytes_equal.
  - rewrite mark_4, mark_3, mark_2, !tail_byte_eq by div_lia. bytes_equal.
Qed.

Lemma my_wc_mb_utf8 wc room : 0 <= wc < 0x200000 ->
  my_wc_mb_utf8mb4 wc room
  = if (room <? length (utf8_of wc))%nat
    then (if (room =? 0)%nat then MY_CS_TOOSMALL else MY_CS_TOOSMALLN (Z.of_nat (length (utf8_of wc))), [])
    else (Z.of_nat (length (utf8_of wc)), utf8_of wc).
Proof.
  intros Hw. rewrite <-(store_utf8_of wc) at 4 by done. unfold my_wc_mb_utf8mb4, utf8_of.
  destruct (Nat.eqb_spec room 0) as [->|Hr].
  { repeat case_match; done. }
  rewrite (proj2 (Z.ltb_lt wc 0x200000)) by lia.
  destruct (Z.ltb_spec wc 0x80); [|destruct (Z.ltb_spec wc 0x800); [|destruct (Z.ltb_spec wc 0x10000)]]; cbn [length Z.eqb];
    match goal with |- context [Z.of_nat room <? ?k] => destruct (Z.ltb_spec (Z.of_nat room) k) end;
    match goal with |- context [(room <? ?k)%nat] => destruct (Nat.ltb_spec room k) end; try lia; done.
Qed.

Lemma continuation_true c : 128 <= c < 192 -> IS_CONTINUATION_BYTE c = true.
Proof. intros H. rewrite continuation_spec by lia. by rewrite (proj2 (Z.leb_le _ _)), (proj2 (Z.ltb_lt _ _)) by lia. Qed.

Lemma continuation_range c : 0 <= c < 256 -> IS_CONTINUATION_BYTE c = true -> 128 <= c < 192.
Proof. intros Hc. rewrite continuation_spec by done. intros [H1%Z.leb_le H2%Z.ltb_lt]%andb_prop. done. Qed.

Lemma step2_3 b0 b1 b2 : 128 <= b1 < 192 -> 128 <= b2 < 192 -> 0xe1 <= b0 \/ 0xa0 <= b1 -> IS_UTF8MB3_STEP2 b0 b1 b2 = true.
Proof. intros H1 H2 H. unfold IS_UTF8MB3_STEP2. rewrite !continuation_true by done. cbn [andb]. lia. Qed.

Lemma step2_4 b0 b1 b2 b3 : 128 <= b1 < 192 -> 128 <= b2 < 192 -> 128 <= b3 < 192 ->
  0xf1 <= b0 \/ 0x90 <= b1 -> b0 <= 0xf3 \/ b1 <= 0x8f -> IS_UTF8MB4_STEP2 b0 b1 b2 b3 = true.
Proof. intros H1 H2 H3 H4 H5. unfold IS_UTF8MB4_STEP2. rewrite !continuation_true by done. cbn [andb]. lia. Qed.

(** Decides a comparison of the first byte. *)
Ltac first_byte :=
  match goal with |- context [if ?a <? ?b then _ else _] =>
    first [rewrite (proj2 (Z.ltb_lt a b)) by div_lia|rewrite (proj2 (Z.ltb_ge a b)) by div_lia] end.

(** What the decoder says of an encoding. *)
Lemma decode_utf8_of wc s : code_point wc ->
  my_mb_wc_utf8mb4 (utf8_of wc ++ s) = (Z.of_nat (length (utf8_of wc)), Some wc).
Proof.
  intros Hw. red in Hw. unfold my_mb_wc_utf8mb4, my_mb_wc_utf8mb4_quick, utf8_of.
  destruct (Z.ltb_spec wc 0x80); [|destruct (Z.ltb_spec wc 0x800); [|destruct (Z.ltb_spec wc 0x10000)]];
    cbn [app length at_ nth Nat.eqb Nat.ltb Nat.leb].
  - by first_byte.
  - repeat first_byte. rewrite continuation_true by div_lia. cbn [negb]. rewrite code_2 by div_lia. do 2 f_equal. div_lia.
  - repeat first_byte. rewrite step2_3 by div_lia. cbn [negb]. rewrite code_3 by div_lia. do 2 f_equal. div_lia.
  - repeat first_byte. rewrite step2_4 by div_lia. cbn [negb]. rewrite code_4 by div_lia. do 2 f_equal. div_lia.
Qed.

Lemma utf8_of_2 wc : 0x80 <= wc < 0x800 -> utf8_of wc = [0xc0 + wc / 64; 0x80 + wc mod 64].
Proof. intros H. unfold utf8_of. by repeat first_byte. Qed.

Lemma utf8_of_3 wc : 0x800 <= wc < 0x10000 ->
  utf8_of wc = [0xe0 + wc / 4096; 0x80 + wc / 64 mod 64; 0x80 + wc mod 64].
Proof. intros H. unfold utf8_of. by repeat first_byte. Qed.

Lemma utf8_of_4 wc : 0x10000 <= wc ->
  utf8_of wc = [0xf0 + wc / 262144; 0x80 + wc / 4096 mod 64; 0x80 + wc / 64 mod 64; 0x80 + wc mod 64].
Proof. intros H. unfold utf8_of. by repeat first_byte. Qed.

(** The decoder accepts encodings only. *)
Lemma decode_sound s n wc : Forall is_byte s -> my_mb_wc_utf8mb4 s = (n, Some wc) ->
  code_point wc /\ n = Z.of_nat (length (utf8_of wc)) /\ exists t, s = utf8_of wc ++ t.
Proof.
  intros Hs. unfold my_mb_wc_utf8mb4, my_mb_wc_utf8mb4_quick, code_point.
  destruct s as [|b0 s]; [done|]. apply Forall_cons in Hs as [B0 Hs]. cbn [length at_ nth Nat.eqb].
  destruct (Z.ltb_spec b0 0x80); [intros [= <- <-]; unfold utf8_of; first_byte; split_and!; [lia|lia|done|by exists s]|].
  destruct (Z.ltb_spec b0 0xc2); [done|]. destruct (Z.ltb_spec b0 0xe0).
  { destruct s as [|b1 s]; [done|]. apply Forall_cons in Hs as [B1 _]. cbn [length nth Nat.ltb Nat.leb].
    destruct (IS_CONTINUATION_BYTE b1) eqn:E1; [|done]. apply continuation_range in E1; [|done].
    cbn [negb]. rewrite code_2 by lia. intros [= <- <-]. rewrite utf8_of_2 by lia.
    split_and!; [lia|lia|done|]. exists s. bytes_equal. }
  destruct (Z.ltb_spec b0 0xf0).
  { destruct s as [|b1 [|b2 s]]; [done..|]. apply Forall_cons in Hs as [B1 Hs]. apply Forall_cons in Hs as [B2 _].
    cbn [length nth Nat.ltb Nat.leb]. destruct (IS_UTF8MB3_STEP2 b0 b1 b2) eqn:E; [|done].
    apply andb_prop in E as [[E1 E2]%andb_prop E3]. apply continuation_range in E1, E2; [|done..].
    cbn [negb]. rewrite code_3 by lia. intros [= <- <-]. rewrite utf8_of_3 by lia.
    split_and!; [lia|lia|done|]. exists s. bytes_equal. }
  destruct (Z.ltb_spec b0 0xf5); [|done].
  destruct s as [|b1 [|b2 [|b3 s]]]; [done..|]. apply Forall_cons in Hs as [B1 Hs].
  apply Forall_cons in Hs as [B2 Hs]. apply Forall_cons in Hs as [B3 _].
  cbn [length nth Nat.ltb Nat.leb]. destruct (IS_UTF8MB4_STEP2 b0 b1 b2 b3) eqn:E; [|done].
  apply andb_prop in E as [[[[E1 E2]%andb_prop E3]%andb_prop E4]%andb_prop E5].
  apply continuation_range in E1, E2, E3; [|done..].
  cbn [negb]. rewrite code_4 by lia. intros [= <- <-]. rewrite utf8_of_4 by lia.
  split_and!; [lia|lia|done|]. exists s. bytes_equal.
Qed.

(** The length function of the character set agrees with the decoder. *)
Lemma charlen_decode s : my_charlen_utf8mb4 s = fst (my_mb_wc_utf8mb4 s).
Proof.
  unfold my_charlen_utf8mb4, my_mb_wc_utf8mb4, my_mb_wc_utf8mb4_quick, my_valid_mbcharlen_utf8mb3.
  destruct (Nat.eqb_spec (length s) 0); [done|]. set (c := at_ s 0).
  destruct (Z.ltb_spec c 0xf0) as [Hc|Hc].
  - repeat (case_match; try done).
  - repeat first_byte. destruct (c <? 0xf5); [|done]. repeat (case_match; try done).
Qed.

(** A result code is positive exactly when a code point is stored, and the
    character lies within the text. *)
Lemma decode_code s :
  (exists n wc, my_mb_wc_utf8mb4 s = (Z.of_nat n, Some wc) /\ (1 <= n <= length s)%nat)
  \/ (exists n, my_mb_wc_utf8mb4 s = (n, None) /\ n <= 0).
Proof.
  unfold my_mb_wc_utf8mb4, my_mb_wc_utf8mb4_quick.
  destruct (Nat.eqb_spec (length s) 0); [right; by eexists|].
  assert (Hno : forall n, n <= 0 -> exists n', (n, @None Z) = (n', None) /\ n' <= 0) by (intros n0 ?; by exists n0).
  assert (Hyes : forall n (wc : Z), (1 <= n <= length s)%nat ->
    exists n' wc', (Z.of_nat n, Some wc) = (Z.of_nat n', Some wc') /\ (1 <= n' <= length s)%nat)
    by (intros n0 wc ?; by exists n0, wc).
  destruct (_ <? 128); [left; apply (Hyes 1%nat); lia|]. destruct (_ <? 194); [right; by apply Hno|].
  destruct (_ <? 224).
  { destruct (Nat.ltb_spec (length s) 2); [right; by apply Hno|].
    destruct (negb _); [right; by apply Hno|left; apply (Hyes 2%nat); lia]. }
  destruct (_ <? 240).
  { destruct (Nat.ltb_spec (length s) 3); [right; by apply Hno|].
    destruct (negb _); [right; by apply Hno|left; apply (Hyes 3%nat); lia]. }
  destruct (_ <? 245); [|right; by apply Hno].
  destruct (Nat.ltb_spec (length s) 4); [right; by apply Hno|].
  destruct (negb _); [right; by apply Hno|left; apply (Hyes 4%nat); lia].
Qed.

(** ** The characters of a text

    A text is a sequence of characters and of broken bytes, [None]. *)
Fixpoint decode_all (fuel : nat) (s : list Z) : list (option Z) :=
  match fuel, s with
  | S fuel', _ :: _ =>
      match my_mb_wc_utf8mb4 s with
      | (n, Some wc) => Some wc :: decode_all fuel' (drop (Z.to_nat n) s)
      | (_, None) => None :: decode_all fuel' (drop 1 s)
      end
  | _, _ => []
  end.

Definition decoded (s : list Z) : list (option Z) := decode_all (length s) s.

Lemma decode_all_fuel fuel s : (length s <= fuel)%nat -> decode_all fuel s = decoded s.
Proof.
  unfold decoded. remember (length s) as k eqn:Hk. revert s fuel Hk.
  induction k as [k IH] using lt_wf_ind. intros s fuel -> Hl.
  destruct s as [|c s]; [by destruct fuel|]. destruct fuel as [|fuel]; [cbn in Hl; lia|].
  cbn [length decode_all] in *.
  destruct (decode_code (c :: s)) as [(n & wc & -> & Hn)|(n & -> & _)].
  - rewrite Nat2Z.id. f_equal. cbn [length] in Hn. assert (Hd : (length (drop n (c :: s)) <= length s)%nat) by (rewrite length_drop; cbn [length]; lia).
    rewrite (IH (length (drop n (c :: s))) ltac:(lia) _ fuel eq_refl), (IH (length (drop n (c :: s))) ltac:(lia) _ (length s) eq_refl) by lia. done.
  - rewrite drop_1_cons. f_equal. by apply (IH (length s)); [lia|done|lia].
Qed.

Lemma decoded_char s n wc : my_mb_wc_utf8mb4 s = (Z.of_nat n, Some wc) -> decoded s = Some wc :: decoded (drop n s).
Proof.
  intros H. destruct (decode_code s) as [(n' & wc' & H' & Hn)|(n' & H' & _)]; rewrite H in H'; [|done].
  assert (n' = n) as -> by (injection H'; lia). destruct s as [|c s]; [cbn in Hn; lia|]. unfold decoded at 1. cbn [length decode_all].
  rewrite H, Nat2Z.id, decode_all_fuel; [done|]. rewrite length_drop. cbn [length]. lia.
Qed.

Lemma decoded_broken s n : s <> [] -> my_mb_wc_utf8mb4 s = (n, None) -> decoded s = None :: decoded (drop 1 s).
Proof.
  intros Hs H. destruct s as [|c s]; [done|]. unfold decoded at 1. cbn [length decode_all]. by rewrite H, drop_1_cons.
Qed.

(** Induction over the characters and broken bytes of a text. *)
Lemma text_ind (P : list Z -> Prop) :
  P [] ->
  (forall s n wc, my_mb_wc_utf8mb4 s = (Z.of_nat n, Some wc) -> (1 <= n <= length s)%nat -> P (drop n s) -> P s) ->
  (forall c s n, my_mb_wc_utf8mb4 (c :: s) = (n, None) -> n <= 0 -> P s -> P (c :: s)) ->
  forall s, P s.
Proof.
  intros H0 H1 H2 s. remember (length s) as k eqn:Hk. revert s Hk. induction k as [k IH] using lt_wf_ind.
  intros s ->. destruct s as [|c s]; [done|].
  destruct (decode_code (c :: s)) as [(n & wc & Hd & Hn)|(n & Hd & Hn)].
  - apply (H1 _ n wc Hd Hn). apply (IH (length (drop n (c :: s)))); [rewrite length_drop; lia|done].
  - apply (H2 _ _ n Hd Hn). apply (IH (length s)); [cbn; lia|done].
Qed.

Lemma decoded_text wcs s : Forall code_point wcs -> decoded (utf8_text wcs ++ s) = map Some wcs ++ decoded s.
Proof.
  intros H. induction H as [|wc wcs Hw _ IH]; [done|]. unfold utf8_text. cbn [map concat]. rewrite <-app_assoc.
  rewrite (decoded_char _ (length (utf8_of wc)) wc) by by apply decode_utf8_of.
  rewrite drop_app_length. cbn [app]. f_equal. exact IH.
Qed.

Lemma decode_split s n wc : Forall is_byte s -> my_mb_wc_utf8mb4 s = (Z.of_nat n, Some wc) ->
  code_point wc /\ n = length (utf8_of wc) /\ take n s = utf8_of wc /\ Forall is_byte (drop n s).
Proof.
  intros Hs H. destruct (decode_sound s _ wc Hs H) as (Hw & Hn & t & ->). apply Nat2Z.inj in Hn as ->.
  split_and!; [done|done|by rewrite take_app_length|]. rewrite drop_app_length. by apply Forall_app in Hs as [_ Hs].
Qed.

(** ** Counting *)

Lemma step_char s n wc : my_mb_wc_utf8mb4 s = (Z.of_nat n, Some wc) -> (1 <= n)%nat -> mb_step my_charlen_utf8mb4 s = n.
Proof.
  intros H Hn. unfold mb_step, my_ismbchar. rewrite charlen_decode, H. cbn [fst].
  destruct (Z.ltb_spec 1 (Z.of_nat n)) as [Hl|Hl]; [rewrite Nat2Z.id; by destruct n as [|[|n]]; [lia|lia|]|].
  cbn. lia.
Qed.

Lemma step_broken s n : my_mb_wc_utf8mb4 s = (n, None) -> n <= 0 -> mb_step my_charlen_utf8mb4 s = 1%nat.
Proof.
  intros H Hn. unfold mb_step, my_ismbchar. rewrite charlen_decode, H. cbn [fst].
  by rewrite (proj2 (Z.ltb_ge 1 n)) by lia.
Qed.

Lemma numchars_loop_spec s : forall fuel count, (length s <= fuel)%nat ->
  numchars_loop my_charlen_utf8mb4 fuel s count = (count + length (decoded s))%nat.
Proof.
  induction s as [|s n wc Hd Hn IH|c s n Hd Hn IH] using text_ind; intros fuel count Hf.
  - destruct fuel; cbn; lia.
  - destruct s as [|c s]; [cbn in Hn; lia|]. destruct fuel as [|fuel]; [cbn in Hf; lia|]. cbn [numchars_loop].
    rewrite (step_char _ n wc Hd), IH, (decoded_char _ n wc Hd); [cbn; lia|rewrite length_drop; cbn [length] in *; lia|lia].
  - destruct fuel as [|fuel]; [cbn in Hf; lia|]. cbn [numchars_loop].
    rewrite (step_broken _ n Hd Hn), (decoded_broken _ n), drop_1_cons, IH by (cbn in *; done || lia). cbn. lia.
Qed.

Lemma my_numchars_decoded s : my_numchars_mb my_charlen_utf8mb4 s = length (decoded s).
Proof. apply numchars_loop_spec. lia. Qed.

(** ** The screen

    What a text shows: a character fills a cell with its code point, and the
    second cell of a wide character stays empty; broken bytes show nothing. *)
Definition char_cells (d : option Z) : list Z :=
  match d with
  | Some wc => wc :: replicate (Z.to_nat (extra_cells wc)) (-1)
  | None => []
  end.

Definition utf8_screen (s : list Z) : list Z := concat (map char_cells (decoded s)).

Lemma utf8_screen_char s n wc : my_mb_wc_utf8mb4 s = (Z.of_nat n, Some wc) ->
  utf8_screen s = char_cells (Some wc) ++ utf8_screen (drop n s).
Proof. intros H. unfold utf8_screen. by rewrite (decoded_char s n wc H). Qed.

Lemma utf8_screen_broken c s n : my_mb_wc_utf8mb4 (c :: s) = (n, None) -> utf8_screen (c :: s) = utf8_screen s.
Proof. intros H. unfold utf8_screen. by rewrite (decoded_broken (c :: s) n), drop_1_cons. Qed.

Lemma numcells_loop_spec s : forall fuel clen, (length s <= fuel)%nat ->
  numcells_loop my_mb_wc_utf8mb4 fuel s clen = (clen + length (utf8_screen s))%nat.
Proof.
  induction s as [|s n wc Hd Hn IH|c s n Hd Hn IH] using text_ind; intros fuel clen Hf.
  - destruct fuel; cbn; lia.
  - destruct s as [|c s]; [cbn in Hn; lia|]. destruct fuel as [|fuel]; [cbn in Hf; lia|]. cbn [numcells_loop].
    rewrite Hd, (utf8_screen_char _ n wc Hd), (proj2 (Z.leb_gt _ _)), Nat2Z.id, IH by (lia || rewrite length_drop; cbn [length] in *; lia).
    cbn [char_cells length app]. rewrite length_app, length_replicate. lia.
  - destruct fuel as [|fuel]; [cbn in Hf; lia|]. cbn [numcells_loop].
    rewrite Hd, (utf8_screen_broken c s n Hd), drop_1_cons, IH by (cbn in Hf; lia). done.
Qed.

Lemma my_numcells_screen s : my_numcells_mb my_mb_wc_utf8mb4 s = length (utf8_screen s).
Proof. apply (numcells_loop_spec s (length s) 0). lia. Qed.

(** An ASCII character shows itself. *)
Lemma extra_cells_ascii c : 0 <= c < 128 -> extra_cells c = 0.
Proof.
  intros H. apply Z.eqb_eq. assert (Hi : implb (c <? 128) (extra_cells c =? 0) = true)
    by (apply (byte_all (fun c => implb (c <? 128) (extra_cells c =? 0))); [vm_compute; done|lia]).
  by rewrite (proj2 (Z.ltb_lt c 128)) in Hi by lia.
Qed.

Lemma decode_ascii c s : c < 128 -> my_mb_wc_utf8mb4 (c :: s) = (Z.of_nat 1, Some c).
Proof. intros H. unfold my_mb_wc_utf8mb4, my_mb_wc_utf8mb4_quick. cbn [length Nat.eqb at_ nth]. by first_byte. Qed.

Lemma utf8_screen_ascii c s : 0 <= c < 128 -> utf8_screen (c :: s) = c :: utf8_screen s.
Proof.
  intros H. rewrite (utf8_screen_char _ 1 c) by (apply decode_ascii; lia).
  cbn [char_cells]. rewrite extra_cells_ascii by done. by rewrite drop_1_cons.
Qed.

(** No character is wider than its encoding is long. *)
Lemma extra_cells_range wc : 0 <= extra_cells wc <= 1.
Proof.
  unfold extra_cells. destruct (0xffff <? wc); [destruct (_ && _); lia|].
  assert (Hp : Forall (fun e : Z * option (list Z) => 0 <= fst e <= 1 /\ Forall (fun w => 0 <= w <= 1) (default [] (snd e))) utr11_data)
    by (apply (bool_decide_unpack _); vm_compute; done).
  set (k := Z.to_nat _). destruct (nth_in_or_default k utr11_data (0, None)) as [Hin| ->]; [|lia].
  apply (proj1 (List.Forall_forall _ _) Hp) in Hin. destruct (nth k utr11_data (0, None)) as [page [p|]]; [|apply Hin].
  set (j := Z.to_nat _). destruct (nth_in_or_default j p 0) as [Hj| ->]; [|lia].
  apply (proj1 (List.Forall_forall _ _) (proj2 Hin) _ Hj).
Qed.

Lemma utf8_screen_length s : Forall is_byte s -> (length (utf8_screen s) <= length s)%nat.
Proof.
  induction s as [|s n wc Hd Hn IH|c s n Hd Hn IH] using text_ind; intros Hs; [done| |].
  - rewrite (utf8_screen_char s n wc Hd), length_app. cbn [char_cells length]. rewrite length_replicate.
    pose proof (extra_cells_range wc) as He. specialize (IH (Forall_drop _ _ _ Hs)). rewrite length_drop in IH.
    destruct (decide (n = 1%nat)) as [->|]; [|lia].
    destruct (decode_split s 1 wc Hs Hd) as (Hw & Hl & _ & _). red in Hw.
    assert (wc < 128) by (unfold utf8_of in Hl; destruct (Z.ltb_spec wc 0x80); [done|]; repeat case_match; done).
    rewrite extra_cells_ascii by lia. cbn. lia.
  - apply Forall_cons in Hs as [_ Hs]. rewrite (utf8_screen_broken c s n Hd). specialize (IH Hs). cbn [length]. lia.
Qed.

(** Bytes that the decoder cannot tell apart except by what they show: equal
    ones and ASCII characters. *)
Definition similar (x y : Z) : Prop := x = y \/ (0 <= x < 128 /\ 0 <= y < 128).

Lemma continuation_ascii c : 0 <= c < 128 -> IS_CONTINUATION_BYTE c = false.
Proof. intros H. rewrite continuation_spec by lia. by rewrite (proj2 (Z.leb_gt _ _)) by lia. Qed.

Lemma similar_continuation x y : similar x y -> IS_CONTINUATION_BYTE x = IS_CONTINUATION_BYTE y.
Proof. intros [->|[Hx Hy]]; [done|]. by rewrite !continuation_ascii. Qed.

Lemma similar_same x y : similar x y -> IS_CONTINUATION_BYTE x = true -> x = y.
Proof. intros [->|[Hx Hy]]; [done|]. by rewrite continuation_ascii. Qed.

Lemma similar_step2_3 b0 x1 x2 y1 y2 : similar x1 y1 -> similar x2 y2 ->
  IS_UTF8MB3_STEP2 b0 x1 x2 = IS_UTF8MB3_STEP2 b0 y1 y2.
Proof.
  intros H1 H2. unfold IS_UTF8MB3_STEP2. rewrite <-(similar_continuation x1 y1), <-(similar_continuation x2 y2) by done.
  destruct (IS_CONTINUATION_BYTE x1) eqn:E1; [|done]. by rewrite (similar_same x1 y1).
Qed.

Lemma similar_step2_4 b0 x1 x2 x3 y1 y2 y3 : similar x1 y1 -> similar x2 y2 -> similar x3 y3 ->
  IS_UTF8MB4_STEP2 b0 x1 x2 x3 = IS_UTF8MB4_STEP2 b0 y1 y2 y3.
Proof.
  intros H1 H2 H3. unfold IS_UTF8MB4_STEP2.
  rewrite <-(similar_continuation x1 y1), <-(similar_continuation x2 y2), <-(similar_continuation x3 y3) by done.
  destruct (IS_CONTINUATION_BYTE x1) eqn:E1; [|done]. by rewrite (similar_same x1 y1).
Qed.

Lemma similar_at s t k : Forall2 similar s t -> similar (at_ s k) (at_ t k).
Proof. intros H. unfold at_. revert k. induction H; intros [|k]; cbn; try (by left); done. Qed.

(** Similar texts have the same characters, up to the ASCII ones. *)
Lemma decode_similar s t : Forall2 similar s t ->
  exists d, my_mb_wc_utf8mb4 t = (fst (my_mb_wc_utf8mb4 s), d)
    /\ option_Forall2 similar (snd (my_mb_wc_utf8mb4 s)) d.
Proof.
  intros H. pose proof (Forall2_length _ _ _ H) as Hl. pose proof (fun k => similar_at s t k H) as Ha.
  unfold my_mb_wc_utf8mb4, my_mb_wc_utf8mb4_quick. rewrite <-Hl.
  rewrite <-(similar_continuation (at_ s 1) (at_ t 1)) by done.
  destruct (Nat.eqb_spec (length s) 0); [eexists; split; [reflexivity|constructor]|].
  destruct (Ha 0%nat) as [E0|[H0 H0']].
  2: { repeat first_byte. eexists; split; [reflexivity|constructor; right; lia]. }
  rewrite <-E0, <-(similar_step2_3 _ (at_ s 1) (at_ s 2)), <-(similar_step2_4 _ (at_ s 1) (at_ s 2) (at_ s 3)) by done.
  destruct (IS_CONTINUATION_BYTE (at_ s 1)) eqn:E1.
  - rewrite <-(similar_same (at_ s 1) (at_ t 1)) by done. unfold IS_UTF8MB4_STEP2, IS_UTF8MB3_STEP2. rewrite E1.
    destruct (IS_CONTINUATION_BYTE (at_ s 2)) eqn:E2; [rewrite <-(similar_same (at_ s 2) (at_ t 2)) by done|].
    + destruct (IS_CONTINUATION_BYTE (at_ s 3)) eqn:E3; [rewrite <-(similar_same (at_ s 3) (at_ t 3)) by done|];
        repeat case_match; eexists; (split; [reflexivity|constructor; by left]) || (split; [reflexivity|constructor]).
    + cbn [andb negb]. repeat case_match; eexists; (split; [reflexivity|constructor; by left]) || (split; [reflexivity|constructor]).
  - unfold IS_UTF8MB4_STEP2, IS_UTF8MB3_STEP2. rewrite E1. cbn [andb negb].
    repeat case_match; eexists; (split; [reflexivity|constructor; by left]) || (split; [reflexivity|constructor]).
Qed.

Lemma decoded_similar s : forall t, Forall2 similar s t -> Forall2 (option_Forall2 similar) (decoded s) (decoded t).
Proof.
  induction s as [|s n wc Hd Hn IH|c s n Hd Hn IH] using text_ind; intros t Ht.
  - apply Forall2_nil_inv_l in Ht as ->. constructor.
  - destruct (decode_similar s t Ht) as (d & Hdt & Hw). rewrite Hd in Hdt, Hw. cbn in Hdt, Hw. inversion Hw; subst.
    erewrite (decoded_char s), (decoded_char t) by done. constructor; [done|]. by apply IH, Forall2_drop.
  - destruct (decode_similar _ t Ht) as (d & Hdt & Hw). rewrite Hd in Hdt, Hw. cbn in Hdt, Hw. inversion Hw; subst.
    apply Forall2_cons_inv_l in Ht as (c' & t' & _ & Ht & ->).
    rewrite (decoded_broken (c :: s) n), (decoded_broken (c' :: t') n), !drop_1_cons by done. constructor; [done|]. by apply IH.
Qed.

Lemma utf8_screen_similar s t : Forall2 similar s t -> length (utf8_screen s) = length (utf8_screen t).
Proof.
  intros H%decoded_similar. unfold utf8_screen. induction H as [|d e ds es H _ IH]; [done|].
  cbn [map concat]. rewrite !length_app, IH. f_equal. inversion H as [x y [->|[Hx Hy]]|]; [done| |done].
  cbn [char_cells]. by rewrite !extra_cells_ascii.
Qed.

(** A character is decoded from its own bytes only. *)
Lemma decode_more s t n wc : my_mb_wc_utf8mb4 s = (n, Some wc) -> my_mb_wc_utf8mb4 (s ++ t) = (n, Some wc).
Proof.
  unfold my_mb_wc_utf8mb4, my_mb_wc_utf8mb4_quick. rewrite length_app.
  assert (Ha : forall k, (k < length s)%nat -> at_ (s ++ t) k = at_ s k) by (intros k Hk; unfold at_; by rewrite app_nth1).
  destruct (Nat.eqb_spec (length s) 0); [done|]. rewrite (proj2 (Nat.eqb_neq _ _)), (Ha 0%nat) by lia.
  destruct (_ <? 128); [done|]. destruct (_ <? 194); [done|]. destruct (_ <? 224).
  { destruct (Nat.ltb_spec (length s) 2); [done|]. by rewrite (proj2 (Nat.ltb_ge _ _)), (Ha 1%nat) by lia. }
  destruct (_ <? 240).
  { destruct (Nat.ltb_spec (length s) 3); [done|]. by rewrite (proj2 (Nat.ltb_ge _ _)), (Ha 1%nat), (Ha 2%nat) by lia. }
  destruct (_ <? 245); [|done]. destruct (Nat.ltb_spec (length s) 4); [done|].
  by rewrite (proj2 (Nat.ltb_ge _ _)), (Ha 1%nat), (Ha 2%nat), (Ha 3%nat) by lia.
Qed.

(** Broken bytes stay broken in front of an ASCII character. *)
Lemma decode_broken_more c s a t n : 0 <= a < 128 -> my_mb_wc_utf8mb4 (c :: s) = (n, None) ->
  exists n', my_mb_wc_utf8mb4 ((c :: s) ++ a :: t) = (n', None).
Proof.
  intros Ha H. destruct (decode_code ((c :: s) ++ a :: t)) as [(n' & wc & Hd & Hn)|(n' & Hd & _)]; [|by exists n'].
  exfalso. revert H Hd. unfold my_mb_wc_utf8mb4, my_mb_wc_utf8mb4_quick. rewrite length_app. cbn [length Nat.eqb Nat.add app at_ nth].
  destruct (c <? 128); [done|]. destruct (c <? 194); [done|].
  unfold IS_UTF8MB3_STEP2, IS_UTF8MB4_STEP2.
  destruct s as [|b1 [|b2 [|b3 s]]]; cbn [app nth length Nat.ltb Nat.leb Nat.add];
    rewrite ?(continuation_ascii a), ?andb_false_r by done; cbn [andb negb]; repeat (case_match; try done).
Qed.

Lemma decoded_app_ascii s a t : 0 <= a < 128 -> decoded (s ++ a :: t) = decoded s ++ decoded (a :: t).
Proof.
  intros Ha. induction s as [|s n wc Hd Hn IH|c s n Hd Hn IH] using text_ind; [done| |].
  - rewrite (decoded_char s n wc Hd), (decoded_char (s ++ a :: t) n wc) by by apply decode_more.
    rewrite drop_app_le by lia. by rewrite IH.
  - destruct (decode_broken_more c s a t n Ha Hd) as [n' Hd'].
    rewrite (decoded_broken (c :: s) n), (decoded_broken ((c :: s) ++ a :: t) n') by done. cbn [app].
    rewrite !drop_1_cons, IH. done.
Qed.

Lemma utf8_screen_app s a t : 0 <= a < 128 -> utf8_screen (s ++ a :: t) = utf8_screen s ++ utf8_screen (a :: t).
Proof. intros H. unfold utf8_screen. by rewrite decoded_app_ascii, map_app, concat_app. Qed.

(** ** The well-formed part of a text and the repair of the rest *)

Lemma decoded_take_char nchars s n wc : my_mb_wc_utf8mb4 s = (Z.of_nat n, Some wc) ->
  take (S nchars) (decoded s) = Some wc :: take nchars (decoded (drop n s)).
Proof. intros H. by rewrite (decoded_char s n wc H). Qed.

(** Either all the characters wanted, or the text before the first broken byte. *)
Lemma well_formed_loop_spec b : forall nchars pos read, Forall is_byte b ->
  exists good t err,
    well_formed_loop my_charlen_utf8mb4 nchars b pos read
    = ((read + length good)%nat, mkStatus (pos + length (utf8_text good)) err)
    /\ Forall code_point good /\ b = utf8_text good ++ t
    /\ ((err = None /\ (length good = nchars \/ t = []) /\ (length good <= nchars)%nat)
        \/ (err = Some (pos + length (utf8_text good))%nat /\ (length good < nchars)%nat
            /\ exists ds, decoded t = None :: ds)).
Proof.
  induction b as [|b n wc Hd Hn IH|c b n Hd Hn IH] using text_ind; intros nchars pos read Hb.
  - exists [], [], None. destruct nchars; cbn; rewrite ?Nat.add_0_r; split_and!; auto with lia.
  - destruct nchars as [|nchars].
    { exists [], b, None. cbn. rewrite !Nat.add_0_r. split_and!; auto with lia. }
    destruct (decode_split b n wc Hb Hd) as (Hw & Hl & Ht & Hbd).
    cbn [well_formed_loop]. rewrite charlen_decode, Hd. cbn [fst]. rewrite (proj2 (Z.leb_gt _ _)), Nat2Z.id by lia.
    destruct (IH nchars (pos + n)%nat (S read) Hbd) as (good & t & err & -> & Hg & Hbt & He).
    assert (Hu : length (utf8_text (wc :: good)) = (n + length (utf8_text good))%nat)
      by (unfold utf8_text; cbn [map concat]; rewrite length_app; lia).
    exists (wc :: good), t, err. rewrite Hu. split_and!; [by cbn; do 2 f_equal; lia|by constructor| |].
    + rewrite <-(take_drop n b), Ht, Hbt. unfold utf8_text. cbn [map concat]. by rewrite app_assoc.
    + cbn [length]. destruct He as [(-> & Hor & Hle)|(-> & Hlt & Hds)]; [left|right]; split_and!; try done; try lia.
      * destruct Hor; [left; lia|by right].
      * f_equal. lia.
  - destruct nchars as [|nchars].
    { exists [], (c :: b), None. cbn. rewrite !Nat.add_0_r. split_and!; auto with lia. }
    cbn [well_formed_loop]. rewrite charlen_decode, Hd. cbn [fst]. rewrite (proj2 (Z.leb_le _ _)) by done.
    exists [], (c :: b), (Some pos). cbn [length utf8_text map concat]. rewrite !Nat.add_0_r.
    split_and!; [done|done|done|]. right. split_and!; [done|lia|]. eexists. by apply (decoded_broken _ n).
Qed.

Abbreviation repaired := (default "?"%chr).

Lemma append_loop_spec from : forall nchars pos room e to, Forall is_byte from -> (length from <= room)%nat ->
  exists end_pos, append_loop my_charlen_utf8mb4 my_wc_mb_utf8mb4 nchars from pos room (Some e) to
  = (to ++ utf8_text (map repaired (take nchars (decoded from))), mkStatus end_pos (Some e)).
Proof.
  induction from as [|s n wc Hd Hn IH|c s n Hd Hn IH] using text_ind; intros [|nchars] pos room e to Hs Hr;
    try (exists pos; cbn; by rewrite app_nil_r).
  - destruct (decode_split s n wc Hs Hd) as (Hw & Hl & Ht & Hbd).
    cbn [append_loop]. rewrite charlen_decode, Hd. cbn [fst]. rewrite (proj2 (Z.ltb_lt 0 _)), (proj2 (Z.ltb_ge _ _)), Nat2Z.id by lia.
    destruct (IH nchars (pos + n)%nat (room - n)%nat e (to ++ take n s)) as [p ->]; [done|rewrite length_drop; lia|].
    exists p. f_equal. rewrite (decoded_char s n wc Hd), Ht. unfold utf8_text. cbn [take map concat default]. by rewrite app_assoc.
  - cbn [append_loop]. rewrite charlen_decode, Hd. cbn [fst]. rewrite (proj2 (Z.ltb_ge 0 n)) by done.
    rewrite bool_decide_eq_false_2, andb_false_r by done. rewrite my_wc_mb_utf8 by done.
    change (utf8_of "?"%chr) with ["?"%chr]. cbn [length] in *. rewrite (proj2 (Nat.ltb_ge _ _)) by lia. change (Z.of_nat 1 <=? 0) with false. rewrite Nat2Z.id.
    apply Forall_cons in Hs as [_ Hs]. rewrite drop_1_cons.
    destruct (IH nchars (S pos) (room - 1)%nat e (to ++ ["?"%chr])) as [p Hp]; [done|lia|].
    rewrite Hp. exists p. f_equal.
    rewrite (decoded_broken (c :: s) n) by done. rewrite drop_1_cons. unfold utf8_text. cbn [take map concat default].
    by rewrite <-app_assoc.
Qed.

Lemma utf8_text_app l k : utf8_text (l ++ k) = utf8_text l ++ utf8_text k.
Proof. unfold utf8_text. by rewrite map_app, concat_app. Qed.

Lemma repaired_some l : map repaired (map Some l) = l.
Proof. rewrite map_map. apply map_id. Qed.

(** Repairing does not make a text longer. *)
Lemma repaired_length s : forall k, Forall is_byte s ->
  (length (utf8_text (map repaired (take k (decoded s)))) <= length s)%nat.
Proof.
  induction s as [|s n wc Hd Hn IH|c s n Hd Hn IH] using text_ind; intros [|k] Hs; [done..| | | |]; try (rewrite take_0; apply Nat.le_0_l).
  - destruct (decode_split s n wc Hs Hd) as (_ & Hl & _ & Hb). rewrite (decoded_char s n wc Hd).
    specialize (IH k Hb). rewrite length_drop in IH. unfold utf8_text in *. cbn [take map concat default]. rewrite length_app. change (id wc) with wc. lia.
  - apply Forall_cons in Hs as [_ Hs]. rewrite (decoded_broken (c :: s) n), drop_1_cons by done.
    specialize (IH k Hs). unfold utf8_text in *. cbn [take map concat default]. rewrite length_app.
    change (length (utf8_of "?"%chr)) with 1%nat. cbn [length]. lia.
Qed.

(** The copy of a text into a buffer repairs it: the buffer gets, of the
    bytes of the source that could fit, the first [nchars] characters, with a
    question mark for every byte that belongs to no character, and never more
    bytes than it has room for; the status reports an error exactly when a
    byte was replaced. *)
Theorem my_copy_fix_mb_repairs (dst_length : nat) (src : list Z) (nchars : nat) : Forall is_byte src ->
  let chars := take nchars (decoded (take dst_length src)) in
  let '(dst, status) := my_copy_fix_mb my_charlen_utf8mb4 my_wc_mb_utf8mb4 dst_length src nchars in
  dst = utf8_text (map repaired chars)
  /\ (length dst <= dst_length)%nat
  /\ (m_well_formed_error_pos status = None <-> None ∉ chars).
Proof.
  intros Hs. cbv zeta. unfold my_copy_fix_mb, well_formed_char_length, my_append_fix_badly_formed_tail.
  rewrite Nat.min_comm, <-take_take, firstn_all. pose proof (Forall_take _ dst_length _ Hs) as Hb.
  assert (Hlen : (length (take dst_length src) <= dst_length)%nat) by (rewrite length_take; lia).
  set (b := take dst_length src) in *. clearbody b. clear Hs src.
  destruct (well_formed_loop_spec b nchars 0 0 Hb) as (good & t & err & -> & Hg & -> & He). cbn [Nat.add m_source_end_pos m_well_formed_error_pos].
  rewrite take_app_length, drop_app_length, decoded_text by done.
  assert (Hnone : None ∉ map Some good) by (rewrite list_elem_of_fmap; by intros (? & ? & _)).
  rewrite length_app in Hlen. destruct He as [(-> & Hor & Hle)|(-> & Hlt & ds & Hds)].
  - assert (take nchars (map Some good ++ decoded t) = map Some good) as ->.
    { destruct Hor as [<-| ->]; [by rewrite <-(length_map Some), take_app_length|].
      rewrite app_nil_r. apply take_ge. by rewrite length_map. }
    rewrite repaired_some. split_and!; [done|lia|done].
  - apply Forall_app in Hb as [_ Hb].
    rewrite take_app, length_map, take_ge by (rewrite length_map; lia). cbn [m_well_formed_error_pos].
    destruct (append_loop_spec t (nchars - length good) (length (utf8_text good)) (dst_length - length (utf8_text good))
                (0 + length (utf8_text good)) []) as [p ->]; [done|lia|].
    cbn [app m_well_formed_error_pos]. rewrite map_app, repaired_some, utf8_text_app. split_and!; [done| |].
    + rewrite length_app. pose proof (repaired_length t (nchars - length good) Hb). lia.
    + split; [done|]. rewrite Hds. intros []. apply elem_of_app. right.
      destruct (nchars - length good)%nat eqn:E; [lia|]. cbn. left.
Qed.

Definition broken_text : list Z := [97; 228; 184; 173; 255; 98; 228; 184; 173].

Lemma my_copy_fix_mb_repairs_witness :
  fst (my_copy_fix_mb my_charlen_utf8mb4 my_wc_mb_utf8mb4 8 broken_text 10)
  = utf8_text (map repaired (take 10 (decoded (take 8 broken_text))))
  /\ utf8_text (map repaired (take 10 (decoded (take 8 broken_text)))) = [97; 228; 184; 173; 63; 98; 63; 63].
Proof.
  split; [|vm_compute; reflexivity].
  exact (proj1 (my_copy_fix_mb_repairs 8 broken_text 10 ltac:(repeat constructor; lia))).
Defined.

(** C18. The encoder and the decoder of utf8mb4 are inverse to each other: the
    encoder stores the bytes that the standard prescribes for a code point,
    and the decoder reads it back from them whatever follows; and whenever
    the decoder accepts bytes, it reads a code point of Unicode whose encoding
    they are, so that no other sequence, overlong or beyond U+10FFFF, is
    accepted. *)
Theorem utf8mb4_roundtrip :
  (forall wc room rest, code_point wc -> (length (utf8_of wc) <= room)%nat ->
     my_wc_mb_utf8mb4 wc room = (Z.of_nat (length (utf8_of wc)), utf8_of wc)
     /\ my_mb_wc_utf8mb4 (utf8_of wc ++ rest) = (Z.of_nat (length (utf8_of wc)), Some wc))
  /\ (forall s n wc, Forall is_byte s -> my_mb_wc_utf8mb4 s = (n, Some wc) ->
     code_point wc /\ my_wc_mb_utf8mb4 wc (length s) = (n, take (Z.to_nat n) s)).
Proof.
  split.
  - intros wc room rest Hw Hr. split; [|by apply decode_utf8_of].
    rewrite my_wc_mb_utf8 by (red in Hw; lia). by rewrite (proj2 (Nat.ltb_ge _ _)).
  - intros s n wc Hs H. destruct (decode_sound s n wc Hs H) as (Hw & -> & t & ->). split; [done|].
    rewrite my_wc_mb_utf8 by (red in Hw; lia). rewrite (proj2 (Nat.ltb_ge _ _)) by (rewrite length_app; lia).
    by rewrite Nat2Z.id, take_app_length.
Qed.

(** The code points that the encoder accepts beyond those of Unicode are not
    decoded. *)
Lemma encoder_accepts_more : exists wc,
  my_wc_mb_utf8mb4 wc 4 = (4, utf8_of wc) /\ my_mb_wc_utf8mb4 (utf8_of wc) = (MY_CS_ILSEQ, None).
Proof. exists 0x110000. by vm_compute. Qed.
