(* ===== verification/Output.v ===== *)
(** * Printing of query results (client/mysql.cc)

    The output goes to the pager and, when a tee file is open, to that file
    too; [fprintf] to the pager alone does not reach the tee file.  A result
    is a list of columns and a list of rows of optional values, as the
    connector library delivers them; the tests for column types that this
    library defines are parameters.  Modelled are the table, the vertical, the
    HTML, the XML and the batch form, without the listing of column types.
    The theorems say that the batch form can be read back, that the columns
    of a table are aligned on a screen that the class [Screen] describes, that the XML and HTML encoding can be undone and
    never contains markup, and where values are lost. *)

From S2P Require Import Prelude.
From S2P Require Import CString.
From S2P Require Import Charset.
From S2P Require Import Numbers.
From S2P Require Import NumFormat.

(** What the connector library defines about column types. *)
Class Connector := {
  MYSQL_TYPE_OB_NVARCHAR2 : Z;
  MYSQL_TYPE_OB_NCHAR : Z;
  IS_NUM : Z -> bool;
  IS_NUM_TERMINAL : Z -> bool;
  IS_NUM_BINARY_TERMINAL : Z -> bool
}.

Definition MYSQL_TYPE_VARCHAR : Z := 15.
Definition MYSQL_TYPE_BIT : Z := 16.
Definition MYSQL_TYPE_TINY_BLOB : Z := 249.
Definition MYSQL_TYPE_MEDIUM_BLOB : Z := 250.
Definition MYSQL_TYPE_LONG_BLOB : Z := 251.
Definition MYSQL_TYPE_BLOB : Z := 252.
Definition MYSQL_TYPE_VAR_STRING : Z := 253.
Definition MYSQL_TYPE_STRING : Z := 254.
Definition MYSQL_TYPE_GEOMETRY : Z := 255.

Record MYSQL_FIELD := mkField {
  field_name : list Z;
  field_length : nat;
  max_length : nat;
  not_null : bool;
  charsetnr : Z;
  type : Z
}.

Abbreviation row := (list (option (list Z))).

(** The variables of the program that decide about the form, the character
    set of the client and what a signal handler leaves in
    [interrupted_query] when a row is about to be printed. *)
Record settings := mkSettings {
  charset_info : CHARSET_INFO;
  numcells : list Z -> nat;
  column_names : bool;
  quick : bool;
  oracle_mode : bool;
  in_com_source : bool;
  is_termout_oracle : bool;
  opt_binhex : bool;
  opt_raw_data : bool;
  opt_silent : nat;
  force_set_num_width_close : bool;
  interrupted_query : nat -> bool
}.

Record out := mkOut {
  pager : list Z;
  opt_outfile : bool;
  outfile : list Z;
  nums : num_state
}.

(** ** Writing *)

(** [tee_fputs], [tee_putc] and [tee_fprintf]. *)
Definition tee (s : list Z) (o : out) : out :=
  mkOut (pager o ++ s) (opt_outfile o) (if opt_outfile o then outfile o ++ s else outfile o) (nums o).

Definition tee_puts (s : list Z) (o : out) : out := tee (s ++ [c_nl]) o.

Definition fprintf (s : list Z) (o : out) : out := mkOut (pager o ++ s) (opt_outfile o) (outfile o) (nums o).

Definition set_nums (n : num_state) (o : out) : out := mkOut (pager o) (opt_outfile o) (outfile o) n.

Definition is_termout_oracle_enable (s : settings) : bool :=
  negb (oracle_mode s) || negb (oracle_mode s && in_com_source s && negb (is_termout_oracle s)).

Definition my_numcells_8bit (b : list Z) : nat := length b.

(** The rows up to the one before which the query is interrupted. *)
Fixpoint seen_rows (interrupted : nat -> bool) (i : nat) (rows : list row) : list row :=
  match rows with
  | [] => []
  | r :: rows' => if interrupted i then [] else r :: seen_rows interrupted (S i) rows'
  end.

Section output.
Context `{con : Connector}.

Definition is_binary_field (f : MYSQL_FIELD) : bool :=
  (charsetnr f =? 63)
  && ((type f =? MYSQL_TYPE_BIT) || (type f =? MYSQL_TYPE_BLOB) || (type f =? MYSQL_TYPE_LONG_BLOB)
      || (type f =? MYSQL_TYPE_MEDIUM_BLOB) || (type f =? MYSQL_TYPE_TINY_BLOB) || (type f =? MYSQL_TYPE_VAR_STRING)
      || (type f =? MYSQL_TYPE_OB_NVARCHAR2) || (type f =? MYSQL_TYPE_OB_NCHAR) || (type f =? MYSQL_TYPE_STRING)
      || (type f =? MYSQL_TYPE_VARCHAR) || (type f =? MYSQL_TYPE_GEOMETRY)).

Definition is_binary_field_oracle (f : MYSQL_FIELD) : bool :=
  (charsetnr f =? 63)
  && ((type f =? MYSQL_TYPE_BLOB) || (type f =? MYSQL_TYPE_LONG_BLOB) || (type f =? MYSQL_TYPE_MEDIUM_BLOB)
      || (type f =? MYSQL_TYPE_TINY_BLOB)).

(** [%02X] *)
Definition hex_byte (c : Z) : list Z := [vec_digit dig_vec_upper (c / 16); vec_digit dig_vec_upper (c mod 16)].

Definition hex (s : list Z) : list Z := concat (map hex_byte s).

Definition spaces_to (n total : nat) : list Z := replicate (total - n) " "%chr.

Definition print_as_hex (s : list Z) (total_bytes_to_send : nat) (o : out) : out :=
  tee (spaces_to (2 * length s + 2) total_bytes_to_send) (fprintf (hex s) (fprintf (str "0x") o)).

Definition print_as_hex_oracle (s : list Z) (total_bytes_to_send : nat) (o : out) : out :=
  tee (spaces_to (2 * length s) total_bytes_to_send) (fprintf (hex s) o).

Definition nul_to_space (c : Z) : Z := if c =? 0 then " "%chr else c.

Definition tee_print_sized_data (data : list Z) (total_bytes_to_send : nat) (right_justified : bool) (o : out) : out :=
  let padding := spaces_to (length data) total_bytes_to_send in
  tee (if right_justified then padding ++ map nul_to_space data else map nul_to_space data ++ padding) o.

(** ** The table *)

Definition MAX_COLUMN_LENGTH : nat := 1024.

Definition column_length (s : settings) (f : MYSQL_FIELD) : nat :=
  let length := if column_names s then length (field_name f) else 0%nat in
  let length :=
    if quick s then if oracle_mode s then Nat.max length (max_length f) else Nat.max length (field_length f)
    else Nat.max length (max_length f) in
  Nat.max length 4.

(** The new [max_length] of a column. *)
Definition column_width (s : settings) (f : MYSQL_FIELD) : nat :=
  let length := column_length s f in
  if oracle_mode s && is_binary_field_oracle f then (length * 2)%nat
  else if opt_binhex s && is_binary_field f then (2 + length * 2)%nat
  else length.

Definition separator (s : settings) (fs : list MYSQL_FIELD) : list Z :=
  "+"%chr :: concat (map (fun f => replicate (column_width s f + 2) "-"%chr ++ [ "+"%chr ]) fs).

(** [%-*s] *)
Definition left_justified (width : nat) (s : list Z) : list Z := s ++ spaces_to (length s) width.

Definition header_cell (s : settings) (f : MYSQL_FIELD) : list Z :=
  let display_length := (column_width s f + length (field_name f) - numcells s (field_name f))%nat in
  " "%chr :: left_justified (Nat.min display_length MAX_COLUMN_LENGTH) (field_name f) ++ str " |".

(** Whether values are brought into the form of number columns. *)
Definition formats_numbers (s : settings) (v : option (list Z)) : bool :=
  negb (force_set_num_width_close s) && oracle_mode s && found v.

Definition null_text : list Z := str "NULL".

Definition print_cell (s : settings) (f : MYSQL_FIELD) (v : option (list Z)) (o : out) : out :=
  let buffer := default null_text v in
  let width := column_width s f in
  let extra_padding := (length buffer - numcells s buffer)%nat in
  if formats_numbers s v && IS_NUM_TERMINAL (type f) && IS_NUM_BINARY_TERMINAL (type f) then
    let n := format_fix_width_num_binary (nums o) buffer in
    tee_print_sized_data (shown n) width (IS_NUM (type f)) (set_nums n o)
  else if formats_numbers s v && IS_NUM_TERMINAL (type f) then
    let n := format_fix_width_num (nums o) buffer in
    tee_print_sized_data (shown n) (width + extra_padding) true (set_nums n o)
  else if oracle_mode s && found v && is_binary_field_oracle f then print_as_hex_oracle buffer width o
  else if opt_binhex s && found v && is_binary_field f then print_as_hex buffer width o
  else if (MAX_COLUMN_LENGTH <? width)%nat
  then tee_print_sized_data buffer (MAX_COLUMN_LENGTH + extra_padding) false o
  else tee_print_sized_data buffer (width + extra_padding) (IS_NUM (type f)) o.

Fixpoint print_cells (s : settings) (fs : list MYSQL_FIELD) (r : row) (first : bool) (o : out) : out :=
  match fs, r with
  | f :: fs', v :: r' =>
      let o := if first then o else tee (str " ") o in
      print_cells s fs' r' false (tee (str " |") (print_cell s f v o))
  | _, _ => o
  end.

Definition print_table_row (s : settings) (fs : list MYSQL_FIELD) (o : out) (r : row) : out :=
  if is_termout_oracle_enable s then tee [c_nl] (print_cells s fs r true (tee (str "| ") o)) else o.

Definition print_table_data (s : settings) (fs : list MYSQL_FIELD) (rows : list row) (o : out) : out :=
  let sep := separator s fs in
  let o :=
    if is_termout_oracle_enable s then
      let o := tee_puts sep o in
      if column_names s
      then tee_puts sep (tee [c_nl] (tee (concat (map (header_cell s) fs)) (tee (str "|") o)))
      else o
    else o in
  let o := fold_left (print_table_row s fs) (seen_rows (interrupted_query s) 0 rows) o in
  if is_termout_oracle_enable s then tee_puts sep o else o.

(** The width that decides about the vertical form. *)
Definition get_field_disp_length (s : settings) (f : MYSQL_FIELD) : nat :=
  let length := if column_names s then length (field_name f) else 0%nat in
  let length := Nat.max length (if quick s then field_length f else max_length f) in
  if (length <? 4)%nat && negb (not_null f) then 4%nat else length.

Definition get_result_width (s : settings) (fs : list MYSQL_FIELD) : nat :=
  S (list_sum (map (fun f => get_field_disp_length s f + 3)%nat fs)).

(** ** The encoding of XML and HTML *)

Definition xmlmeta : list (Z * list Z) :=
  [("&"%chr, str "&amp;"); ("<"%chr, str "&lt;"); (">"%chr, str "&gt;"); (34, str "&quot;"); (0, str " ")].

Fixpoint array_value (array : list (Z * list Z)) (key : Z) : option (list Z) :=
  match array with
  | [] => None
  | (k, v) :: array' => if k =? key then Some v else array_value array' key
  end.

Definition xmlencode (src : list Z) : list Z :=
  concat (map (fun c => default [c] (array_value xmlmeta c)) src).

Definition xmlencode_print (src : option (list Z)) (o : out) : out :=
  match src with
  | None => tee null_text o
  | Some src => tee (xmlencode src) o
  end.

(** A value in HTML and in XML.  [t] is the type that decides about the number
    format: HTML takes that of the first column. *)
Definition print_markup_value (s : settings) (f : MYSQL_FIELD) (t : Z) (v : option (list Z)) (o : out) : out :=
  let data := default [] v in
  if oracle_mode s && is_binary_field_oracle f then
    if negb (force_set_num_width_close s) && found v && IS_NUM_BINARY_TERMINAL t then
      let n := format_fix_width_num_binary (nums o) data in
      print_as_hex_oracle (shown n) (length data) (set_nums n o)
    else print_as_hex_oracle data (length data) o
  else if opt_binhex s && is_binary_field f then print_as_hex data (length data) o
  else if formats_numbers s v && IS_NUM_TERMINAL t then
    let n := format_fix_width_num (nums o) data in xmlencode_print (Some (shown n)) (set_nums n o)
  else xmlencode_print v o.

Fixpoint print_html_cells (s : settings) (t : Z) (fs : list MYSQL_FIELD) (r : row) (o : out) : out :=
  match fs, r with
  | f :: fs', v :: r' =>
      print_html_cells s t fs' r' (tee (str "</TD>") (print_markup_value s f t v (tee (str "<TD>") o)))
  | _, _ => o
  end.

Definition html_header (o : out) (f : MYSQL_FIELD) : out :=
  let o := tee (str "<TH>") o in
  let o := if bool_decide (field_name f = []) then tee (str " &nbsp; ") o else xmlencode_print (Some (field_name f)) o in
  tee (str "</TH>") o.

Definition print_table_data_html (s : settings) (fs : list MYSQL_FIELD) (rows : list row) (o : out) : out :=
  let t := match fs with f :: _ => type f | [] => 0 end in
  let o := tee (str "<TABLE BORDER=1>") o in
  let o :=
    if column_names s then tee (str "</TR>") (fold_left html_header fs (tee (str "<TR>") o)) else o in
  let print_row o r := tee (str "</TR>") (print_html_cells s t fs r (tee (str "<TR>") o)) in
  tee (str "</TABLE>") (fold_left print_row (seen_rows (interrupted_query s) 0 rows) o).

Definition quoted (s : list Z) : list Z := [34] ++ s ++ [34].

Definition print_xml_field (s : settings) (o : out) (x : MYSQL_FIELD * option (list Z)) : out :=
  let '(f, v) := x in
  let o := tee ([c_tab] ++ str "<field name=" ++ [34]) o in
  let o := xmlencode_print (Some (field_name f)) o in
  match v with
  | Some _ => tee (str "</field>" ++ [c_nl]) (print_markup_value s f (type f) v (tee ([34] ++ str ">") o))
  | None => tee ([34] ++ str " xsi:nil=" ++ quoted (str "true") ++ str " />" ++ [c_nl]) o
  end.

(** [statement] is the text of [glob_buffer]. *)
Definition print_table_data_xml (s : settings) (statement : list Z) (fs : list MYSQL_FIELD) (rows : list row) (o : out)
    : out :=
  let o := tee (str "<?xml version=" ++ quoted (str "1.0") ++ str "?>" ++ [c_nl; c_nl]
                ++ str "<resultset statement=" ++ [34]) o in
  let o := xmlencode_print (Some statement) o in
  let o := tee ([34] ++ str " xmlns:xsi=" ++ quoted (str "http://www.w3.org/2001/XMLSchema-instance") ++ str ">") o in
  let print_row o r :=
    tee (str "  </row>" ++ [c_nl])
      (fold_left (print_xml_field s) (zip fs r) (tee ([c_nl] ++ str "  <row>" ++ [c_nl]) o)) in
  tee (str "</resultset>" ++ [c_nl]) (fold_left print_row (seen_rows (interrupted_query s) 0 rows) o).

(** ** The vertical form *)

Definition print_vertical_field (s : settings) (width : nat) (o : out) (x : MYSQL_FIELD * option (list Z)) : out :=
  let '(f, v) := x in
  let o :=
    if column_names s then tee (spaces_to (length (field_name f)) width ++ field_name f ++ str ": ") o else o in
  match v with
  | None => tee (null_text ++ [c_nl]) o
  | Some data =>
      let binary := opt_binhex s && is_binary_field f in
      let o := if binary && negb (oracle_mode s) then fprintf (str "0x") o else o in
      let '(data, o) :=
        if formats_numbers s v && IS_NUM_BINARY_TERMINAL (type f) then
          let n := format_fix_width_num_binary (nums o) data in (shown n, set_nums n o)
        else if formats_numbers s v && IS_NUM_TERMINAL (type f) then
          let n := format_fix_width_num (nums o) data in (shown n, set_nums n o)
        else (data, o) in
      tee [c_nl] (if binary then fprintf (hex data) o else tee (map nul_to_space data) o)
  end.

Definition vertical_title (row_count : nat) : list Z :=
  replicate 27 "*"%chr ++ str " " ++ int10_to_str (Z.of_nat row_count) (-10) ++ str ". row " ++ replicate 27 "*"%chr
  ++ [c_nl].

Fixpoint print_vertical_rows (s : settings) (fs : list MYSQL_FIELD) (row_count : nat) (rows : list row) (o : out) : out :=
  match rows with
  | [] => o
  | r :: rows' =>
      let width := list_max (map (fun f => length (field_name f)) fs) in
      let o := tee (vertical_title row_count) o in
      print_vertical_rows s fs (S row_count) rows' (fold_left (print_vertical_field s width) (zip fs r) o)
  end.

Definition print_table_data_vertically (s : settings) (fs : list MYSQL_FIELD) (rows : list row) (o : out) : out :=
  print_vertical_rows s fs 1 (seen_rows (interrupted_query s) 0 rows) o.

(** ** The batch form *)

Definition escape (c : Z) : list Z :=
  if c =? 0 then str "\0"
  else if c =? c_tab then str "\t"
  else if c =? c_nl then str "\n"
  else if c =? "\"%chr then str "\\"
  else [c].

(** The bytes of a multi-byte character are written as they are. *)
Fixpoint escape_field (fuel : nat) (cs : CHARSET_INFO) (pos : list Z) : list Z :=
  match fuel, pos with
  | S fuel', c :: pos' =>
      let l := if use_mb cs then ismbchar cs pos else 0%nat in
      if negb (l =? 0)%nat then take l pos ++ escape_field fuel' cs (drop l pos)
      else escape c ++ escape_field fuel' cs pos'
  | _, _ => []
  end.

Definition safe_put_field (s : settings) (pos : option (list Z)) (o : out) : out :=
  match pos with
  | None => tee null_text o
  | Some data => tee (if opt_raw_data s then data else escape_field (length data) (charset_info s) data) o
  end.

Definition print_tab_field (s : settings) (f : MYSQL_FIELD) (v : option (list Z)) (o : out) : out :=
  let data := default [] v in
  if oracle_mode s && is_binary_field_oracle f then print_as_hex_oracle data (length data) o
  else if opt_binhex s && is_binary_field f then print_as_hex data (length data) o
  else safe_put_field s v o.

Fixpoint print_tab_fields (s : settings) (fs : list MYSQL_FIELD) (r : row) (first : bool) (o : out) : out :=
  match fs, r with
  | f :: fs', v :: r' =>
      let o := if first then o else tee [c_tab] o in
      print_tab_fields s fs' r' false (print_tab_field s f v o)
  | _, _ => o
  end.

Definition print_tab_row (s : settings) (fs : list MYSQL_FIELD) (o : out) (r : row) : out :=
  if is_termout_oracle_enable s then tee [c_nl] (print_tab_fields s fs r true o) else o.

Fixpoint joined (sep : list Z) (l : list (list Z)) : list Z :=
  match l with
  | [] => []
  | [x] => x
  | x :: l' => x ++ sep ++ joined sep l'
  end.

Definition print_tab_data (s : settings) (fs : list MYSQL_FIELD) (rows : list row) (o : out) : out :=
  let o :=
    if is_termout_oracle_enable s && (opt_silent s <? 2)%nat && column_names s
    then tee (joined [c_tab] (map field_name fs) ++ [c_nl]) o else o in
  fold_left (print_tab_row s fs) rows o.

(** ** The batch form can be read back *)

(** The reader of the batch form. *)
Fixpoint unescape (s : list Z) : list Z :=
  match s with
  | c :: s' =>
      if c =? "\"%chr then
        match s' with
        | d :: s'' =>
            (if d =? "0"%chr then 0 else if d =? "t"%chr then c_tab else if d =? "n"%chr then c_nl else d) :: unescape s''
        | [] => []
        end
      else c :: unescape s'
  | [] => []
  end.

Fixpoint split_at (sep : Z) (cur s : list Z) : list (list Z) :=
  match s with
  | [] => [cur]
  | c :: s' => if c =? sep then cur :: split_at sep [] s' else split_at sep (cur ++ [c]) s'
  end.

Fixpoint text_lines (cur s : list Z) : list (list Z) :=
  match s with
  | [] => []
  | c :: s' => if c =? c_nl then cur :: text_lines [] s' else text_lines (cur ++ [c]) s'
  end.

Definition read_batch (s : list Z) : list (list (list Z)) :=
  map (fun l => map unescape (split_at c_tab [] l)) (text_lines [] s).

Lemma split_at_app sep cur a s : sep ∉ a -> split_at sep cur (a ++ s) = split_at sep (cur ++ a) s.
Proof.
  revert cur. induction a as [|c a IH]; intros cur Ha; [by rewrite app_nil_r|]. cbn.
  apply not_elem_of_cons in Ha as [Hc Ha]. rewrite (proj2 (Z.eqb_neq c sep)) by done. by rewrite IH, <-app_assoc.
Qed.

Lemma split_at_joined sep xs : xs <> [] -> Forall (fun x => sep ∉ x) xs -> split_at sep [] (joined [sep] xs) = xs.
Proof.
  intros Hne Hx. induction Hx as [|x xs Hx Hxs IH]; [done|]. destruct xs as [|y xs].
  - cbn [joined]. rewrite <-(app_nil_r x) at 1. by rewrite split_at_app.
  - change (joined [sep] (x :: y :: xs)) with (x ++ sep :: joined [sep] (y :: xs)). rewrite split_at_app by done.
    cbn [split_at]. rewrite Z.eqb_refl, IH by done. done.
Qed.

Lemma text_lines_app cur a s : c_nl ∉ a -> text_lines cur (a ++ s) = text_lines (cur ++ a) s.
Proof.
  revert cur. induction a as [|c a IH]; intros cur Ha; [by rewrite app_nil_r|]. cbn.
  apply not_elem_of_cons in Ha as [Hc Ha]. rewrite (proj2 (Z.eqb_neq c c_nl)) by done. by rewrite IH, <-app_assoc.
Qed.

Lemma text_lines_concat ls : Forall (fun l => c_nl ∉ l) ls -> text_lines [] (concat (map (fun l => l ++ [c_nl]) ls)) = ls.
Proof.
  intros Hl. induction Hl as [|l ls Hl _ IH]; [done|]. cbn [map concat]. rewrite <-app_assoc, text_lines_app by done.
  cbn [app text_lines]. change (c_nl =? c_nl) with true. cbn iota. by rewrite IH.
Qed.

Definition special (c : Z) : Prop := c = c_tab \/ c = c_nl \/ c = "\"%chr.

(** Multi-byte characters lie within the value and contain none of the bytes
    that are escaped, as in UTF-8. *)
Definition plain_multibyte (cs : CHARSET_INFO) : Prop :=
  use_mb cs = true -> forall p, (ismbchar cs p <= length p)%nat /\ Forall (fun c => ~ special c) (take (ismbchar cs p) p).

Lemma unescape_plain l s : Forall (fun c => ~ special c) l -> unescape (l ++ s) = l ++ unescape s.
Proof.
  intros Hl. induction Hl as [|c l Hc _ IH]; [done|]. cbn [app unescape].
  rewrite (proj2 (Z.eqb_neq c "\"%chr)) by (unfold special in Hc; tauto). by rewrite IH.
Qed.

Lemma unescape_escape c s : unescape (escape c ++ s) = c :: unescape s.
Proof.
  unfold escape. destruct (Z.eqb_spec c 0) as [->|]; [done|]. destruct (Z.eqb_spec c c_tab) as [->|]; [done|].
  destruct (Z.eqb_spec c c_nl) as [->|]; [done|]. destruct (Z.eqb_spec c "\"%chr) as [->|Hc]; [done|].
  cbn [app unescape]. by rewrite (proj2 (Z.eqb_neq c "\"%chr)).
Qed.

Definition line_safe (l : list Z) : Prop := (c_tab ∉ l) /\ (c_nl ∉ l).

Lemma line_safe_app a b : line_safe (a ++ b) <-> line_safe a /\ line_safe b.
Proof. unfold line_safe. rewrite !not_elem_of_app. tauto. Qed.

Lemma escape_safe c : line_safe (escape c).
Proof.
  unfold escape, line_safe. destruct (c =? 0); [set_solver|]. destruct (Z.eqb_spec c c_tab); [set_solver|].
  destruct (Z.eqb_spec c c_nl); [set_solver|]. destruct (c =? "\"%chr); set_solver.
Qed.

Lemma plain_safe l : Forall (fun c => ~ special c) l -> line_safe l.
Proof.
  intros Hl. split; intros Hin; apply (proj1 (Forall_forall _ _) Hl) in Hin; apply Hin; unfold special; auto.
Qed.

Lemma escape_field_spec cs fuel data : plain_multibyte cs -> (length data <= fuel)%nat ->
  unescape (escape_field fuel cs data) = data /\ line_safe (escape_field fuel cs data).
Proof.
  intros Hcs. revert data. induction fuel as [|fuel IH]; intros [|c data] Hl; cbn [length] in Hl; try lia;
    [split; [done|split; apply not_elem_of_nil]..|]. cbn [escape_field].
  set (l := if use_mb cs then _ else _). destruct (Nat.eqb_spec l 0) as [El|El]; cbn [negb].
  - destruct (IH data) as [Hu Hs]; [lia|]. rewrite unescape_escape, Hu, line_safe_app. auto using escape_safe.
  - assert (Hm : use_mb cs = true /\ l = ismbchar cs (c :: data)) by (unfold l in *; by destruct (use_mb cs)).
    destruct Hm as [Hm Hlm]. destruct (Hcs Hm (c :: data)) as [Hle Hp]. rewrite <-Hlm in *.
    destruct (IH (drop l (c :: data))) as [Hu Hs]; [rewrite length_drop; cbn [length]; lia|].
    rewrite unescape_plain, Hu, take_drop, line_safe_app by done. auto using plain_safe.
Qed.

Definition field_text (s : settings) (v : option (list Z)) : list Z :=
  match v with
  | None => null_text
  | Some data => escape_field (length data) (charset_info s) data
  end.

Lemma field_text_spec s v : plain_multibyte (charset_info s) ->
  unescape (field_text s v) = default null_text v /\ line_safe (field_text s v).
Proof.
  intros Hcs. destruct v as [data|]; [by apply escape_field_spec|]. split; [done|].
  split; by apply (bool_decide_unpack _).
Qed.

(** The columns that are not printed in hexadecimal digits. *)
Definition as_text (s : settings) (f : MYSQL_FIELD) : Prop :=
  oracle_mode s && is_binary_field_oracle f = false /\ opt_binhex s && is_binary_field f = false.

Lemma print_tab_fields_text s fs r first o :
  opt_raw_data s = false -> Forall (as_text s) fs -> length r = length fs -> fs <> [] ->
  pager (print_tab_fields s fs r first o)
  = pager o ++ (if first then [] else [c_tab]) ++ joined [c_tab] (map (field_text s) r).
Proof.
  intros Hraw Hf. revert r first o. induction Hf as [|f fs [Hf1 Hf2] Hf IH]; intros [|v r] first o Hl Hne; try done.
  cbn [print_tab_fields]. unfold print_tab_field at 1. rewrite Hf1, Hf2. cbn [length] in Hl.
  assert (Hp : forall o, pager (safe_put_field s v o) = pager o ++ field_text s v)
    by (intros o'; unfold safe_put_field; destruct v; [rewrite Hraw|]; done).
  destruct fs as [|f' fs].
  - destruct r; [|done]. cbn [print_tab_fields map joined]. rewrite Hp. destruct first; cbn [app tee pager]; [done|].
    by rewrite <-app_assoc.
  - rewrite IH by (done || lia). destruct r as [|v' r]; [done|]. rewrite Hp.
    change (joined [c_tab] (map (field_text s) (v :: v' :: r)))
      with (field_text s v ++ [c_tab] ++ joined [c_tab] (map (field_text s) (v' :: r))).
    destruct first; cbn [tee pager]; by rewrite <-!app_assoc.
Qed.

Definition row_line (s : settings) (r : row) : list Z := joined [c_tab] (map (field_text s) r).

Lemma print_tab_rows_text s fs rows o :
  is_termout_oracle_enable s = true -> opt_raw_data s = false -> Forall (as_text s) fs -> fs <> [] ->
  Forall (fun r => length r = length fs) rows ->
  pager (fold_left (print_tab_row s fs) rows o)
  = pager o ++ concat (map (fun l => l ++ [c_nl]) (map (row_line s) rows)).
Proof.
  intros Ht Hraw Hf Hne Hr. revert o. induction Hr as [|r rows Hr _ IH]; intros o; cbn [fold_left map concat].
  - by rewrite app_nil_r.
  - rewrite IH. unfold print_tab_row. rewrite Ht. cbn [tee pager]. rewrite print_tab_fields_text by done.
    cbn [app]. unfold row_line at 2. by rewrite <-!app_assoc.
Qed.

Lemma joined_safe ls : Forall line_safe ls -> c_nl ∉ joined [c_tab] ls.
Proof.
  intros Hl. induction Hl as [|x ls [_ Hx] Hls IH]; [apply not_elem_of_nil|]. destruct ls as [|y ls]; [done|].
  change (joined [c_tab] (x :: y :: ls)) with (x ++ [c_tab] ++ joined [c_tab] (y :: ls)). set_solver.
Qed.

(** The lines of the rows, behind the line of the names. *)
Definition tab_body (s : settings) (rows : list row) : list Z := concat (map (fun l => l ++ [c_nl]) (map (row_line s) rows)).

Definition tab_header (s : settings) (fs : list MYSQL_FIELD) : list Z :=
  if (opt_silent s <? 2)%nat && column_names s then joined [c_tab] (map field_name fs) ++ [c_nl] else [].

Lemma print_tab_data_text s fs rows o :
  is_termout_oracle_enable s = true -> opt_raw_data s = false -> Forall (as_text s) fs -> fs <> [] ->
  Forall (fun r => length r = length fs) rows ->
  pager (print_tab_data s fs rows o) = pager o ++ tab_header s fs ++ tab_body s rows.
Proof.
  intros Ht Hraw Hf Hne Hr. unfold print_tab_data, tab_header. rewrite print_tab_rows_text by done. rewrite Ht. cbn [andb].
  destruct (_ && _); cbn [tee pager]; [by rewrite <-app_assoc|done].
Qed.

Lemma read_tab_body s n rows : plain_multibyte (charset_info s) -> (0 < n)%nat -> Forall (fun r => length r = n) rows ->
  read_batch (tab_body s rows) = map (map (default null_text)) rows.
Proof.
  intros Hcs Hn Hr. unfold read_batch, tab_body. rewrite text_lines_concat.
  - rewrite map_map. apply map_ext_Forall. eapply Forall_impl; [exact Hr|]. cbn. intros r Hrl. unfold row_line.
    rewrite split_at_joined.
    + rewrite map_map. apply map_ext. intros v. by apply field_text_spec.
    + destruct r; [cbn in Hrl; lia|done].
    + apply Forall_forall. intros x (v & -> & _)%list_elem_of_fmap. by apply field_text_spec.
  - apply Forall_forall. intros l (r & -> & _)%list_elem_of_fmap. apply joined_safe.
    apply Forall_forall. intros x (v & -> & _)%list_elem_of_fmap. by apply field_text_spec.
Qed.

(** C33. The batch form can be read back: splitting the printed text at the
    newlines and tabs and undoing the escapes gives exactly the values of
    all rows, whatever bytes they contain, with the text NULL for a missing
    value; column names take one line in front. *)
Theorem print_tab_data_roundtrip (s : settings) (fs : list MYSQL_FIELD) (rows : list row) (o : out) :
  is_termout_oracle_enable s = true -> opt_raw_data s = false -> plain_multibyte (charset_info s) ->
  Forall (as_text s) fs -> fs <> [] -> Forall (fun r => length r = length fs) rows ->
  exists body,
    pager (print_tab_data s fs rows o)
    = pager o
      ++ (if (opt_silent s <? 2)%nat && column_names s then joined [c_tab] (map field_name fs) ++ [c_nl] else [])
      ++ body
    /\ read_batch body = map (map (default null_text)) rows.
Proof.
  intros Ht Hraw Hcs Hf Hne Hr. exists (tab_body s rows). split; [by apply print_tab_data_text|].
  apply (read_tab_body s (length fs)); [done|destruct fs; [done|cbn; lia]|done].
Qed.

(** ** The columns of a table are aligned *)

(** A line has the width of the separator and a bar below every plus sign. *)
Definition aligned (sep line : list Z) : Prop := Forall2 (fun x y => x = "+"%chr -> y = "|"%chr) sep line.

Definition barred (c : list Z) : list Z := " "%chr :: c ++ str " |".

Lemma aligned_lines (ws : list nat) cells : Forall2 (fun w c => length c = w) ws cells ->
  aligned ("+"%chr :: concat (map (fun w => replicate (w + 2) "-"%chr ++ [ "+"%chr ]) ws))
    ("|"%chr :: concat (map barred cells)).
Proof.
  intros H. constructor; [done|]. induction H as [|w c ws cells Hw _ IH]; [constructor|]. cbn [map concat].
  apply Forall2_app; [|done]. unfold barred. change (str " |") with ([ " "%chr ] ++ [ "|"%chr ]).
  rewrite app_assoc. change (" "%chr :: (c ++ [ " "%chr ]) ++ [ "|"%chr ]) with ((" "%chr :: c ++ [ " "%chr ]) ++ [ "|"%chr ]).
  apply Forall2_app; [|by repeat constructor]. apply Forall2_same_length_lookup_2.
  - cbn [length]. rewrite length_replicate, length_app. cbn [length]. lia.
  - by intros i x y [-> _]%lookup_replicate.
Qed.

Lemma length_spaces_to n t : length (spaces_to n t) = (t - n)%nat.
Proof. apply length_replicate. Qed.

Lemma length_hex v : length (hex v) = (2 * length v)%nat.
Proof. unfold hex. induction v as [|c v IH]; [done|]. cbn [map concat]. rewrite length_app, IH. cbn. lia. Qed.

(** What a text shows on the screen, as far as the layout of a table depends
    on it: the number of cells is the one that the character set counts, ASCII
    characters show themselves and start a new character, and no text needs
    more cells than bytes. *)
Class Screen (numcells : list Z -> nat) := {
  screen : list Z -> list Z;
  screen_cells : forall s, numcells s = length (screen s);
  screen_nil : screen [] = [];
  screen_ascii : forall c s, 0 <= c < 128 -> screen (c :: s) = c :: screen s;
  screen_app : forall s a t, 0 <= a < 128 -> screen (s ++ a :: t) = screen s ++ screen (a :: t);
  screen_length : forall s, Forall is_byte s -> (length (screen s) <= length s)%nat;
  screen_nul : forall s, length (screen (map nul_to_space s)) = length (screen s)
}.

Section aligned.
Context (s : settings) `{scr : !Screen (numcells s)}.

Lemma screen_ascii_app a t : Forall (fun c => 0 <= c < 128) a -> screen (a ++ t) = a ++ screen t.
Proof. intros H. induction H as [|c a Hc _ IH]; [done|]. cbn [app]. by rewrite screen_ascii, IH. Qed.

Lemma screen_ascii_text a : Forall (fun c => 0 <= c < 128) a -> screen a = a.
Proof. intros H. rewrite <-(app_nil_r a) at 1. rewrite screen_ascii_app by done. by rewrite screen_nil, app_nil_r. Qed.

Lemma spaces_ascii n t : Forall (fun c => 0 <= c < 128) (spaces_to n t).
Proof. apply Forall_replicate. lia. Qed.

Lemma screen_spaces data n t : length (screen (data ++ spaces_to n t)) = (length (screen data) + (t - n))%nat.
Proof.
  unfold spaces_to. destruct (t - n)%nat as [|k]; [cbn; rewrite app_nil_r; lia|].
  change (replicate (S k) ?c) with (c :: replicate k c). rewrite screen_app by lia.
  rewrite length_app, (screen_ascii_text (_ :: _)) by (constructor; [lia|apply Forall_replicate; lia]). cbn [length].
  by rewrite length_replicate.
Qed.

(** A text printed with as many more spaces as it has cells less than bytes. *)
Lemma screen_sized data t (right : bool) : Forall is_byte data -> (length data <= t)%nat ->
  let total := (t + (length data - numcells s data))%nat in
  length (screen (if right then spaces_to (length data) total ++ map nul_to_space data
                  else map nul_to_space data ++ spaces_to (length data) total)) = t.
Proof.
  intros Hb Hl total. pose proof (screen_length data Hb) as Hle. pose proof (screen_cells data) as Hc.
  destruct right.
  - rewrite screen_ascii_app by apply spaces_ascii. rewrite length_app, length_spaces_to, screen_nul. unfold total. lia.
  - rewrite screen_spaces, screen_nul. unfold total. lia.
Qed.

Lemma screen_barred cells : screen (concat (map barred cells)) = concat (map barred (map screen cells)).
Proof.
  induction cells as [|c cells IH]; [apply screen_nil|]. cbn [map concat]. unfold barred at 1 3.
  cbn [app]. rewrite screen_ascii by lia. change (str " |") with ([ " "%chr; "|"%chr ]). rewrite <-!app_assoc. cbn [app].
  rewrite screen_app, !screen_ascii by lia. by rewrite IH.
Qed.

(** A table of a client without number formatting, with columns that are not
    cut off and values that are not longer than the length announced for
    their column. *)
Record table_ok (fs : list MYSQL_FIELD) : Prop := {
  table_termout : is_termout_oracle_enable s = true;
  table_numbers : force_set_num_width_close s = true \/ oracle_mode s = false;
  table_columns : fs <> [];
  table_names : Forall (fun f => Forall is_byte (field_name f)) fs;
  table_widths : Forall (fun f =>
    (column_width s f + (length (field_name f) - numcells s (field_name f)) <= MAX_COLUMN_LENGTH)%nat) fs
}.

Definition value_ok (f : MYSQL_FIELD) (v : option (list Z)) : Prop :=
  match v with Some data => Forall is_byte data /\ (length data <= column_length s f)%nat | None => True end.

Lemma column_length_4 f : (4 <= column_length s f <= column_width s f)%nat.
Proof.
  assert (4 <= column_length s f)%nat by apply Nat.le_max_r. unfold column_width. cbv zeta.
  destruct (_ && _); [lia|]. destruct (_ && _); lia.
Qed.

Lemma hex_ascii v : Forall (fun c => 0 <= c < 128) (hex v).
Proof.
  assert (Hd : forall k, 0 <= vec_digit dig_vec_upper k < 128).
  { intros k. unfold vec_digit, at_. destruct (nth_in_or_default (Z.to_nat k) dig_vec_upper 0) as [Hin| ->]; [|lia].
    assert (Hall : Forall (fun c => 0 <= c < 128) dig_vec_upper) by (apply (bool_decide_unpack _); vm_compute; done).
    by apply (proj1 (List.Forall_forall _ _) Hall). }
  unfold hex. induction v as [|c v IH]; [constructor|]. cbn [map concat]. unfold hex_byte. by repeat constructor; try apply Hd.
Qed.

Lemma print_cell_text fs f v o : table_ok fs -> f ∈ fs -> value_ok f v ->
  exists c, length (screen c) = column_width s f /\ pager (print_cell s f v o) = pager o ++ c.
Proof.
  intros Hok Hf Hv. pose proof (column_length_4 f) as H4. unfold print_cell.
  assert (formats_numbers s v = false) as ->.
  { unfold formats_numbers. destruct (table_numbers _ Hok) as [-> | ->]; [done|]. by rewrite andb_false_r. }
  cbn [andb]. pose proof (proj1 (Forall_forall _ _) (table_widths _ Hok) f Hf) as Hw. cbn in Hw.
  assert (Hb : Forall is_byte (default null_text v) /\ (length (default null_text v) <= column_length s f)%nat).
  { destruct v; [done|]. split; [by apply (bool_decide_unpack _)|cbn; lia]. }
  destruct Hb as [Hbytes Hb]. set (data := default null_text v) in *. clearbody data.
  destruct (oracle_mode s && found v && is_binary_field_oracle f) eqn:E1.
  { exists (hex data ++ spaces_to (2 * length data) (column_width s f)).
    split; [|by cbn [print_as_hex_oracle tee fprintf pager]; rewrite <-app_assoc].
    apply andb_prop in E1 as [[Em _]%andb_prop Eb]. rewrite screen_spaces, screen_ascii_text, length_hex by apply hex_ascii.
    unfold column_width. rewrite Em, Eb. cbn [andb]. lia. }
  destruct (opt_binhex s && found v && is_binary_field f) eqn:E2.
  { exists (str "0x" ++ hex data ++ spaces_to (2 * length data + 2) (column_width s f)).
    split; [|by cbn [print_as_hex tee fprintf pager]; rewrite <-!app_assoc].
    apply andb_prop in E2 as [[Em Ev]%andb_prop Eb]. rewrite Ev, andb_true_r in E1.
    rewrite screen_ascii_app by by (apply (bool_decide_unpack _)).
    rewrite length_app, screen_spaces, screen_ascii_text, length_hex by apply hex_ascii.
    unfold column_width. rewrite E1, Em, Eb. change (length (str _)) with 2%nat. cbn [andb]. lia. }
  rewrite (proj2 (Nat.ltb_ge _ _)) by lia. unfold tee_print_sized_data. cbn [tee pager].
  eexists. split; [|reflexivity]. apply screen_sized; [done|lia].
Qed.

Lemma print_cells_text fs0 fs r first o : table_ok fs0 -> (forall f, f ∈ fs -> f ∈ fs0) ->
  Forall2 value_ok fs r ->
  exists cells, Forall2 (fun w c => length (screen c) = w) (map (column_width s) fs) cells
    /\ pager (print_cells s fs r first o)
       = pager o ++ (if first then drop 1 (concat (map barred cells)) else concat (map barred cells)).
Proof.
  intros Hok Hin Hv. revert first o. induction Hv as [|f v fs r Hv _ IH]; intros first o.
  { exists []. split; [constructor|]. destruct first; cbn; by rewrite app_nil_r. }
  cbn [print_cells]. set (o1 := if first then o else tee (str " ") o).
  destruct (print_cell_text fs0 f v o1 Hok) as (c & Hc & Hp); [apply Hin; set_solver|done|].
  destruct (IH (fun f Hf => Hin f (list_elem_of_further _ _ _ Hf)) false (tee (str " |") (print_cell s f v o1)))
    as (cells & Hcells & Ht).
  exists (c :: cells). split; [by constructor|]. rewrite Ht. cbn [tee pager map concat]. rewrite Hp. unfold o1.
  change (barred c) with (" "%chr :: c ++ str " |"). change (str " ") with [ " "%chr ].
  destruct first; cbn [app tee pager]; rewrite ?drop_1_cons, <-!app_assoc; done.
Qed.

(** A line of cells that show the widths of the columns. *)
Lemma aligned_screen fs cells :
  Forall2 (fun w c => length (screen c) = w) (map (column_width s) fs) cells ->
  aligned (separator s fs) (screen ("|"%chr :: concat (map barred cells))).
Proof.
  intros Hc. unfold separator. rewrite <-(map_map (column_width s) (fun w => replicate (w + 2) "-"%chr ++ [ "+"%chr ])).
  rewrite screen_ascii, screen_barred by lia. apply aligned_lines. by apply Forall2_fmap_r.
Qed.

Lemma print_table_row_text fs r o : table_ok fs -> Forall2 value_ok fs r ->
  exists line, aligned (separator s fs) (screen line) /\ pager (print_table_row s fs o r) = pager o ++ line ++ [c_nl].
Proof.
  intros Hok Hv. unfold print_table_row. rewrite (table_termout _ Hok).
  destruct (print_cells_text fs fs r true (tee (str "| ") o) Hok (fun _ H => H) Hv) as (cells & Hc & Hp).
  exists ("|"%chr :: concat (map barred cells)). split; [by apply aligned_screen|].
  cbn [tee pager]. rewrite Hp. cbn [tee pager]. destruct cells as [|c cells].
  - apply Forall2_nil_inv_r in Hc. pose proof (table_columns _ Hok). by destruct fs.
  - cbn [map concat]. change (barred c) with (" "%chr :: c ++ str " |"). cbn [app].
    rewrite drop_1_cons, <-!app_assoc. done.
Qed.

Lemma header_aligned fs : table_ok fs -> column_names s = true ->
  aligned (separator s fs) (screen ("|"%chr :: concat (map (header_cell s) fs))).
Proof.
  intros Hok Hn.
  set (cell f := left_justified (Nat.min (column_width s f + length (field_name f) - numcells s (field_name f))
                                          MAX_COLUMN_LENGTH) (field_name f)).
  change (map (header_cell s) fs) with (map (fun f => barred (cell f)) fs). rewrite <-(map_map cell barred).
  apply aligned_screen. rewrite Forall2_fmap. apply Forall_Forall2_diag.
  eapply Forall_impl; [exact (proj2 (Forall_and _ _) (conj (table_names _ Hok) (table_widths _ Hok)))|].
  intros f [Hb Hf]. cbn in Hb, Hf. unfold cell, left_justified. rewrite screen_spaces.
  assert (length (field_name f) <= column_length s f)%nat.
  { unfold column_length. rewrite Hn. destruct (quick s), (oracle_mode s); lia. }
  pose proof (column_length_4 f). pose proof (screen_length _ Hb). pose proof (screen_cells (field_name f)). lia.
Qed.

Lemma print_table_rows_text fs rows o : table_ok fs -> Forall (Forall2 value_ok fs) rows ->
  exists lines, length lines = length rows /\ Forall (fun l => aligned (separator s fs) (screen l)) lines
    /\ pager (fold_left (print_table_row s fs) rows o) = pager o ++ concat (map (fun l => l ++ [c_nl]) lines).
Proof.
  intros Hok Hv. revert o. induction Hv as [|r rows Hr _ IH]; intros o; cbn [fold_left].
  { exists []. split_and!; [done|constructor|by cbn; rewrite app_nil_r]. }
  destruct (print_table_row_text fs r o Hok Hr) as (l & Hl & Hp). destruct (IH (print_table_row s fs o r)) as (ls & Hn & Ha & Ht).
  exists (l :: ls). split_and!; [by cbn; rewrite Hn|by constructor|]. rewrite Ht, Hp. cbn [map concat].
  by rewrite <-!app_assoc.
Qed.

End aligned.

Lemma seen_rows_incl interrupted i rows r : In r (seen_rows interrupted i rows) -> In r rows.
Proof.
  revert i. induction rows as [|x rows IH]; intros i; cbn; [done|]. destruct (interrupted i); [done|].
  cbn. intros [->|H]; [by left|right; by eapply IH].
Qed.

Lemma print_table_data_text (s : settings) `{!Screen (numcells s)} (fs : list MYSQL_FIELD) (rows : list row) (o : out) :
  table_ok s fs -> Forall (Forall2 (value_ok s) fs) rows ->
  exists header lines,
    pager (print_table_data s fs rows o)
    = pager o ++ separator s fs ++ [c_nl]
      ++ (if column_names s then header ++ [c_nl] ++ separator s fs ++ [c_nl] else [])
      ++ concat (map (fun l => l ++ [c_nl]) lines) ++ separator s fs ++ [c_nl]
    /\ (column_names s = true -> aligned (separator s fs) (screen header))
    /\ length lines = length (seen_rows (interrupted_query s) 0 rows)
    /\ Forall (fun l => aligned (separator s fs) (screen l)) lines.
Proof.
  intros Hok Hv. exists ("|"%chr :: concat (map (header_cell s) fs)). unfold print_table_data. rewrite (table_termout _ _ Hok).
  set (o1 := if column_names s then _ else _).
  destruct (print_table_rows_text s fs (seen_rows (interrupted_query s) 0 rows) o1 Hok) as (lines & Hn & Ha & Hp).
  { apply List.Forall_forall. intros r Hr%seen_rows_incl. by apply (proj1 (List.Forall_forall _ _) Hv). }
  exists lines. split_and!; [|by apply header_aligned|done|done]. unfold tee_puts at 1. cbn [tee pager]. rewrite Hp. unfold o1.
  change ("|"%chr :: ?x) with (str "|" ++ x). destruct (column_names s); cbn [tee_puts tee pager]; by rewrite <-!app_assoc.
Qed.

(** C34. The columns of a table are aligned on the screen: the output is the
    separator, the line with the column names between separators if it is
    wanted, one line for every row that is printed and the separator again;
    what every line shows has the width of the separator and a bar wherever
    the separator has a plus sign, for text, number, binary and NULL values of
    any bytes, in every character set that counts its cells as [Screen]
    says. *)
Theorem print_table_data_aligned (s : settings) `{!Screen (numcells s)} (fs : list MYSQL_FIELD) (rows : list row) (o : out) :
  table_ok s fs -> Forall (Forall2 (value_ok s) fs) rows ->
  exists header lines,
    pager (print_table_data s fs rows o)
    = pager o ++ separator s fs ++ [c_nl]
      ++ (if column_names s then header ++ [c_nl] ++ separator s fs ++ [c_nl] else [])
      ++ concat (map (fun l => l ++ [c_nl]) lines) ++ separator s fs ++ [c_nl]
    /\ (column_names s = true -> aligned (separator s fs) (screen header))
    /\ length lines = length (seen_rows (interrupted_query s) 0 rows)
    /\ Forall (fun l => aligned (separator s fs) (screen l)) lines.
Proof. apply print_table_data_text. Qed.

(** The announced width is the width of the table. *)
Lemma result_width_separator s fs :
  Forall (fun f => not_null f = false /\ as_text s f) fs -> quick s = false -> length (separator s fs) = get_result_width s fs.
Proof.
  intros Hf Hq. unfold separator, get_result_width. cbn [length]. f_equal.
  induction Hf as [|f fs [Hn [H1 H2]] _ IH]; [done|]. cbn [map concat].
  change (list_sum (?a :: ?l)) with (a + list_sum l)%nat. rewrite length_app, IH.
  rewrite length_app, length_replicate. cbn [length]. unfold column_width, column_length, get_field_disp_length.
  rewrite H1, H2, Hq, Hn. cbn [negb]. rewrite andb_true_r.
  destruct (Nat.ltb_spec (Nat.max (if column_names s then length (field_name f) else 0) (max_length f)) 4); lia.
Qed.

(** ** The encoding of XML and HTML can be undone *)

Definition entities : list (list Z * Z) :=
  [(str "&amp;", "&"%chr); (str "&lt;", "<"%chr); (str "&gt;", ">"%chr); (str "&quot;", 34)].

(** The entity at the start of a text. *)
Fixpoint find_entity (l : list (list Z * Z)) (s : list Z) : option (Z * nat) :=
  match l with
  | [] => None
  | (e, c) :: l' => if bool_decide (take (length e) s = e) then Some (c, length e) else find_entity l' s
  end.

Fixpoint xmldecode (fuel : nat) (s : list Z) : list Z :=
  match fuel, s with
  | S fuel', c :: s' =>
      match find_entity entities s with
      | Some (d, n) => d :: xmldecode fuel' (drop n s)
      | None => c :: xmldecode fuel' s'
      end
  | _, _ => []
  end.

Lemma array_value_spec c :
  (c = "&"%chr /\ default [c] (array_value xmlmeta c) = str "&amp;")
  \/ (c = "<"%chr /\ default [c] (array_value xmlmeta c) = str "&lt;")
  \/ (c = ">"%chr /\ default [c] (array_value xmlmeta c) = str "&gt;")
  \/ (c = 34 /\ default [c] (array_value xmlmeta c) = str "&quot;")
  \/ (c <> "&"%chr /\ c <> "<"%chr /\ c <> ">"%chr /\ c <> 34 /\ default [c] (array_value xmlmeta c) = [nul_to_space c]).
Proof.
  unfold xmlmeta, nul_to_space. cbn [array_value].
  destruct (Z.eqb_spec "&"%chr c) as [<-|H1]; [by left|]. destruct (Z.eqb_spec "<"%chr c) as [<-|H2]; [by right; left|].
  destruct (Z.eqb_spec ">"%chr c) as [<-|H3]; [by right; right; left|].
  destruct (Z.eqb_spec 34 c) as [<-|H4]; [by right; right; right; left|]. do 4 right.
  rewrite (Z.eqb_sym c 0). destruct (0 =? c); split_and!; congruence || done.
Qed.

Lemma find_entity_other c s : c <> "&"%chr -> find_entity entities (c :: s) = None.
Proof.
  intros H. assert (He : Forall (fun e : list Z * Z => head (fst e) = Some "&"%chr) entities) by by repeat constructor.
  induction He as [|[e d] l He _ IH]; [done|]. cbn [find_entity]. destruct e as [|x e]; [done|].
  cbn in He. injection He as ->. rewrite bool_decide_eq_false_2 by (cbn; congruence). done.
Qed.

Lemma xmldecode_xmlencode fuel src : (length src <= fuel)%nat ->
  xmldecode fuel (xmlencode src) = map nul_to_space src.
Proof.
  revert src. induction fuel as [|fuel IH]; intros [|c src] Hl; cbn [length] in Hl; try done; [lia|].
  unfold xmlencode. cbn [map concat]. fold (xmlencode src). specialize (IH src ltac:(lia)).
  assert (Hent : forall e d, c = d -> (forall t, exists x e', e ++ t = x :: e' /\ find_entity entities (e ++ t) = Some (d, length e)) ->
    nul_to_space c = c -> xmldecode (S fuel) (e ++ xmlencode src) = nul_to_space c :: map nul_to_space src).
  { intros e d -> He Hn. destruct (He (xmlencode src)) as (x & e' & Hx & Hf). rewrite Hx at 1. cbn [xmldecode].
    rewrite <-Hx, Hf, drop_app_length, IH, Hn. done. }
  destruct (array_value_spec c) as [[Hc ->]|[[Hc ->]|[[Hc ->]|[[Hc ->]|(H1 & _ & _ & _ & ->)]]]];
    [eapply Hent; [exact Hc|intros t; do 2 eexists; split; reflexivity|by rewrite Hc]..|].
  cbn [xmldecode app]. rewrite find_entity_other, IH; [done|].
  unfold nul_to_space. destruct (c =? 0); done.
Qed.

(** The encoding of values in XML and HTML is faithful: decoding the
    entities gives the value back, a NUL byte as a space, and the encoded text
    contains no angle bracket and no quotation mark, so that no value can end
    an element or an attribute. *)
Theorem xmlencode_faithful (src : list Z) (o : out) :
  exists text, pager (xmlencode_print (Some src) o) = pager o ++ text
    /\ xmldecode (length src) text = map nul_to_space src
    /\ ("<"%chr ∉ text) /\ (">"%chr ∉ text) /\ (34 ∉ text).
Proof.
  exists (xmlencode src). split; [done|]. split; [by apply xmldecode_xmlencode|].
  induction src as [|c src IH]; [split_and!; apply not_elem_of_nil|]. unfold xmlencode. cbn [map concat].
  fold (xmlencode src). rewrite !not_elem_of_app.
  assert (Hc : ("<"%chr ∉ default [c] (array_value xmlmeta c)) /\ (">"%chr ∉ default [c] (array_value xmlmeta c))
               /\ (34 ∉ default [c] (array_value xmlmeta c))); [|tauto].
  destruct (array_value_spec c) as [[_ ->]|[[_ ->]|[[_ ->]|[[_ ->]|(H1 & H2 & H3 & H4 & ->)]]]];
    [split_and!; by apply (bool_decide_unpack _)..|].
  unfold nul_to_space. destruct (c =? 0); [split_and!; by apply (bool_decide_unpack _)|].
  split_and!; rewrite list_elem_of_singleton; congruence.
Qed.

End output.

(** ** Where values are lost *)

(** A connector without the types of its own, and the default settings of the
    client. *)
Definition plain_connector : Connector :=
  {| MYSQL_TYPE_OB_NVARCHAR2 := -1; MYSQL_TYPE_OB_NCHAR := -2;
     IS_NUM := fun t => (0 <=? t) && (t <=? 9) && negb (t =? 7) || (t =? 13) || (t =? 246);
     IS_NUM_TERMINAL := fun t => t =? 246; IS_NUM_BINARY_TERMINAL := fun _ => false |}.

Definition default_settings : settings :=
  mkSettings my_charset_latin1 my_numcells_8bit true false false false true false false 0 true (fun _ => false).

Definition no_output : out := mkOut [] true [] (num_start 10).

Definition text_column (name : string) (n : nat) : MYSQL_FIELD := mkField (str name) n n false 8 MYSQL_TYPE_VAR_STRING.

Definition sample_rows : list row := [[Some (str "a|b"); None]; [Some [0; 9; 10]; Some (str "\x")]].

Lemma print_tab_data_roundtrip_witness :
  exists body,
    pager (print_tab_data (con := plain_connector) default_settings [text_column "x" 3; text_column "yy" 2] sample_rows no_output)
    = [] ++ (joined [c_tab] [str "x"; str "yy"] ++ [c_nl]) ++ body
    /\ read_batch body = [[str "a|b"; str "NULL"]; [[0; 9; 10]; str "\x"]].
Proof.
  apply (print_tab_data_roundtrip (con := plain_connector) default_settings [text_column "x" 3; text_column "yy" 2]
           sample_rows no_output); [done|done|done| |done|by repeat constructor].
  by repeat constructor.
Defined.

(** In an 8-bit character set every byte shows itself. *)
#[global] Instance screen_8bit : Screen my_numcells_8bit.
Proof. exists (fun s => s); [done..|]. intros s. apply length_map. Defined.

Lemma print_table_data_aligned_witness :
  let fs := [text_column "x" 3; text_column "yy" 2] in
  let sep := separator (con := plain_connector) default_settings fs in
  exists header lines,
    pager (print_table_data (con := plain_connector) default_settings fs sample_rows no_output)
    = [] ++ sep ++ [c_nl] ++ (header ++ [c_nl] ++ sep ++ [c_nl]) ++ concat (map (fun l => l ++ [c_nl]) lines) ++ sep ++ [c_nl]
    /\ (true = true -> aligned sep header) /\ length lines = 2%nat /\ Forall (aligned sep) lines.
Proof.
  apply (print_table_data_aligned (con := plain_connector) default_settings (Screen0 := screen_8bit)
           [text_column "x" 3; text_column "yy" 2] sample_rows no_output).
  - split; [done|by left|done|apply (bool_decide_unpack _); exact I|]. repeat constructor; by apply Nat.leb_le.
  - repeat constructor; first [lia|by apply Nat.leb_le].
Defined.
