(* ===== verification/Multibyte.v ===== *)
(** * The multi-byte character sets of the client (strings/ctype-utf8.c,
    strings/ctype-gbk.c, strings/ctype-gb18030.c, strings/ctype-mb.ic)

    The character sets utf8mb4, gbk and gb18030 as the client sees them: the
    tables of their single bytes and the length of their characters.  They
    fulfil what the scanner of statements, the batch form of results and the
    layout of tables rely on, so that the theorems about those hold for
    clients with these character sets. *)

From S2P Require Import Prelude Charset AddLineSafe Utf8 Output.

(** ** The tables *)

Definition ctype_utf8mb4 : list Z :=
  [0;
   32; 32; 32; 32; 32; 32; 32; 32; 32; 40; 40; 40; 40; 40; 32; 32;
   32; 32; 32; 32; 32; 32; 32; 32; 32; 32; 32; 32; 32; 32; 32; 32;
   72; 16; 16; 16; 16; 16; 16; 16; 16; 16; 16; 16; 16; 16; 16; 16;
   132; 132; 132; 132; 132; 132; 132; 132; 132; 132; 16; 16; 16; 16; 16; 16;
   16; 129; 129; 129; 129; 129; 129; 1; 1; 1; 1; 1; 1; 1; 1; 1;
   1; 1; 1; 1; 1; 1; 1; 1; 1; 1; 1; 16; 16; 16; 16; 16;
   16; 130; 130; 130; 130; 130; 130; 2; 2; 2; 2; 2; 2; 2; 2; 2;
   2; 2; 2; 2; 2; 2; 2; 2; 2; 2; 2; 16; 16; 16; 16; 32;
   3; 3; 3; 3; 3; 3; 3; 3; 3; 3; 3; 3; 3; 3; 3; 3;
   3; 3; 3; 3; 3; 3; 3; 3; 3; 3; 3; 3; 3; 3; 3; 3;
   3; 3; 3; 3; 3; 3; 3; 3; 3; 3; 3; 3; 3; 3; 3; 3;
   3; 3; 3; 3; 3; 3; 3; 3; 3; 3; 3; 3; 3; 3; 3; 3;
   3; 3; 3; 3; 3; 3; 3; 3; 3; 3; 3; 3; 3; 3; 3; 3;
   3; 3; 3; 3; 3; 3; 3; 3; 3; 3; 3; 3; 3; 3; 3; 3;
   3; 3; 3; 3; 3; 3; 3; 3; 3; 3; 3; 3; 3; 3; 3; 3;
   3; 3; 3; 3; 3; 3; 3; 3; 3; 3; 3; 3; 3; 3; 3; 0].

Definition to_lower_utf8mb4 : list Z :=
  [0; 1; 2; 3; 4; 5; 6; 7; 8; 9; 10; 11; 12; 13; 14; 15;
   16; 17; 18; 19; 20; 21; 22; 23; 24; 25; 26; 27; 28; 29; 30; 31;
   32; 33; 34; 35; 36; 37; 38; 39; 40; 41; 42; 43; 44; 45; 46; 47;
   48; 49; 50; 51; 52; 53; 54; 55; 56; 57; 58; 59; 60; 61; 62; 63;
   64; 97; 98; 99; 100; 101; 102; 103; 104; 105; 106; 107; 108; 109; 110; 111;
   112; 113; 114; 115; 116; 117; 118; 119; 120; 121; 122; 91; 92; 93; 94; 95;
   96; 97; 98; 99; 100; 101; 102; 103; 104; 105; 106; 107; 108; 109; 110; 111;
   112; 113; 114; 115; 116; 117; 118; 119; 120; 121; 122; 123; 124; 125; 126; 127;
   128; 129; 130; 131; 132; 133; 134; 135; 136; 137; 138; 139; 140; 141; 142; 143;
   144; 145; 146; 147; 148; 149; 150; 151; 152; 153; 154; 155; 156; 157; 158; 159;
   160; 161; 162; 163; 164; 165; 166; 167; 168; 169; 170; 171; 172; 173; 174; 175;
   176; 177; 178; 179; 180; 181; 182; 183; 184; 185; 186; 187; 188; 189; 190; 191;
   192; 193; 194; 195; 196; 197; 198; 199; 200; 201; 202; 203; 204; 205; 206; 207;
   208; 209; 210; 211; 212; 213; 214; 215; 216; 217; 218; 219; 220; 221; 222; 223;
   224; 225; 226; 227; 228; 229; 230; 231; 232; 233; 234; 235; 236; 237; 238; 239;
   240; 241; 242; 243; 244; 245; 246; 247; 248; 249; 250; 251; 252; 253; 254; 255].

Definition to_upper_utf8mb4 : list Z :=
  [0; 1; 2; 3; 4; 5; 6; 7; 8; 9; 10; 11; 12; 13; 14; 15;
   16; 17; 18; 19; 20; 21; 22; 23; 24; 25; 26; 27; 28; 29; 30; 31;
   32; 33; 34; 35; 36; 37; 38; 39; 40; 41; 42; 43; 44; 45; 46; 47;
   48; 49; 50; 51; 52; 53; 54; 55; 56; 57; 58; 59; 60; 61; 62; 63;
   64; 65; 66; 67; 68; 69; 70; 71; 72; 73; 74; 75; 76; 77; 78; 79;
   80; 81; 82; 83; 84; 85; 86; 87; 88; 89; 90; 91; 92; 93; 94; 95;
   96; 65; 66; 67; 68; 69; 70; 71; 72; 73; 74; 75; 76; 77; 78; 79;
   80; 81; 82; 83; 84; 85; 86; 87; 88; 89; 90; 123; 124; 125; 126; 127;
   128; 129; 130; 131; 132; 133; 134; 135; 136; 137; 138; 139; 140; 141; 142; 143;
   144; 145; 146; 147; 148; 149; 150; 151; 152; 153; 154; 155; 156; 157; 158; 159;
   160; 161; 162; 163; 164; 165; 166; 167; 168; 169; 170; 171; 172; 173; 174; 175;
   176; 177; 178; 179; 180; 181; 182; 183; 184; 185; 186; 187; 188; 189; 190; 191;
   192; 193; 194; 195; 196; 197; 198; 199; 200; 201; 202; 203; 204; 205; 206; 207;
   208; 209; 210; 211; 212; 213; 214; 215; 216; 217; 218; 219; 220; 221; 222; 223;
   224; 225; 226; 227; 228; 229; 230; 231; 232; 233; 234; 235; 236; 237; 238; 239;
   240; 241; 242; 243; 244; 245; 246; 247; 248; 249; 250; 251; 252; 253; 254; 255].

Definition ctype_gbk : list Z :=
  [0;
   32; 32; 32; 32; 32; 32; 32; 32; 32; 40; 40; 40; 40; 40; 32; 32;
   32; 32; 32; 32; 32; 32; 32; 32; 32; 32; 32; 32; 32; 32; 32; 32;
   72; 16; 16; 16; 16; 16; 16; 16; 16; 16; 16; 16; 16; 16; 16; 16;
   132; 132; 132; 132; 132; 132; 132; 132; 132; 132; 16; 16; 16; 16; 16; 16;
   16; 129; 129; 129; 129; 129; 129; 1; 1; 1; 1; 1; 1; 1; 1; 1;
   1; 1; 1; 1; 1; 1; 1; 1; 1; 1; 1; 16; 16; 16; 16; 16;
   16; 130; 130; 130; 130; 130; 130; 2; 2; 2; 2; 2; 2; 2; 2; 2;
   2; 2; 2; 2; 2; 2; 2; 2; 2; 2; 2; 16; 16; 16; 16; 32;
   0; 0; 0; 0; 0; 0; 0; 0; 0; 0; 0; 0; 0; 0; 0; 0;
   0; 0; 0; 0; 0; 0; 0; 0; 0; 0; 0; 0; 0; 0; 0; 0;
   0; 3; 3; 3; 3; 3; 3; 3; 3; 3; 3; 3; 3; 3; 3; 3;
   3; 3; 3; 3; 3; 3; 3; 3; 3; 3; 3; 3; 3; 3; 3; 3;
   3; 3; 3; 3; 3; 3; 3; 3; 3; 3; 3; 3; 3; 3; 3; 3;
   3; 3; 3; 3; 3; 3; 3; 3; 3; 3; 3; 3; 3; 3; 3; 3;
   3; 3; 3; 3; 3; 3; 3; 3; 3; 3; 3; 3; 3; 3; 3; 3;
   3; 3; 3; 3; 3; 3; 3; 3; 3; 3; 3; 3; 3; 3; 3; 0].

Definition to_lower_gbk : list Z :=
  [0; 1; 2; 3; 4; 5; 6; 7; 8; 9; 10; 11; 12; 13; 14; 15;
   16; 17; 18; 19; 20; 21; 22; 23; 24; 25; 26; 27; 28; 29; 30; 31;
   32; 33; 34; 35; 36; 37; 38; 39; 40; 41; 42; 43; 44; 45; 46; 47;
   48; 49; 50; 51; 52; 53; 54; 55; 56; 57; 58; 59; 60; 61; 62; 63;
   64; 97; 98; 99; 100; 101; 102; 103; 104; 105; 106; 107; 108; 109; 110; 111;
   112; 113; 114; 115; 116; 117; 118; 119; 120; 121; 122; 91; 92; 93; 94; 95;
   96; 97; 98; 99; 100; 101; 102; 103; 104; 105; 106; 107; 108; 109; 110; 111;
   112; 113; 114; 115; 116; 117; 118; 119; 120; 121; 122; 123; 124; 125; 126; 127;
   128; 129; 130; 131; 132; 133; 134; 135; 136; 137; 138; 139; 140; 141; 142; 143;
   144; 145; 146; 147; 148; 149; 150; 151; 152; 153; 154; 155; 156; 157; 158; 159;
   160; 161; 162; 163; 164; 165; 166; 167; 168; 169; 170; 171; 172; 173; 174; 175;
   176; 177; 178; 179; 180; 181; 182; 183; 184; 185; 186; 187; 188; 189; 190; 191;
   192; 193; 194; 195; 196; 197; 198; 199; 200; 201; 202; 203; 204; 205; 206; 207;
   208; 209; 210; 211; 212; 213; 214; 215; 216; 217; 218; 219; 220; 221; 222; 223;
   224; 225; 226; 227; 228; 229; 230; 231; 232; 233; 234; 235; 236; 237; 238; 239;
   240; 241; 242; 243; 244; 245; 246; 247; 248; 249; 250; 251; 252; 253; 254; 255].

Definition to_upper_gbk : list Z :=
  [0; 1; 2; 3; 4; 5; 6; 7; 8; 9; 10; 11; 12; 13; 14; 15;
   16; 17; 18; 19; 20; 21; 22; 23; 24; 25; 26; 27; 28; 29; 30; 31;
   32; 33; 34; 35; 36; 37; 38; 39; 40; 41; 42; 43; 44; 45; 46; 47;
   48; 49; 50; 51; 52; 53; 54; 55; 56; 57; 58; 59; 60; 61; 62; 63;
   64; 65; 66; 67; 68; 69; 70; 71; 72; 73; 74; 75; 76; 77; 78; 79;
   80; 81; 82; 83; 84; 85; 86; 87; 88; 89; 90; 91; 92; 93; 94; 95;
   96; 65; 66; 67; 68; 69; 70; 71; 72; 73; 74; 75; 76; 77; 78; 79;
   80; 81; 82; 83; 84; 85; 86; 87; 88; 89; 90; 123; 124; 125; 126; 127;
   128; 129; 130; 131; 132; 133; 134; 135; 136; 137; 138; 139; 140; 141; 142; 143;
   144; 145; 146; 147; 148; 149; 150; 151; 152; 153; 154; 155; 156; 157; 158; 159;
   160; 161; 162; 163; 164; 165; 166; 167; 168; 169; 170; 171; 172; 173; 174; 175;
   176; 177; 178; 179; 180; 181; 182; 183; 184; 185; 186; 187; 188; 189; 190; 191;
   192; 193; 194; 195; 196; 197; 198; 199; 200; 201; 202; 203; 204; 205; 206; 207;
   208; 209; 210; 211; 212; 213; 214; 215; 216; 217; 218; 219; 220; 221; 222; 223;
   224; 225; 226; 227; 228; 229; 230; 231; 232; 233; 234; 235; 236; 237; 238; 239;
   240; 241; 242; 243; 244; 245; 246; 247; 248; 249; 250; 251; 252; 253; 254; 255].

Definition sort_order_gbk : list Z :=
  [0; 1; 2; 3; 4; 5; 6; 7; 8; 9; 10; 11; 12; 13; 14; 15;
   16; 17; 18; 19; 20; 21; 22; 23; 24; 25; 26; 27; 28; 29; 30; 31;
   32; 33; 34; 35; 36; 37; 38; 39; 40; 41; 42; 43; 44; 45; 46; 47;
   48; 49; 50; 51; 52; 53; 54; 55; 56; 57; 58; 59; 60; 61; 62; 63;
   64; 65; 66; 67; 68; 69; 70; 71; 72; 73; 74; 75; 76; 77; 78; 79;
   80; 81; 82; 83; 84; 85; 86; 87; 88; 89; 90; 92; 93; 91; 94; 95;
   96; 65; 66; 67; 68; 69; 70; 71; 72; 73; 74; 75; 76; 77; 78; 79;
   80; 81; 82; 83; 84; 85; 86; 87; 88; 89; 90; 123; 124; 125; 89; 127;
   128; 129; 130; 131; 132; 133; 134; 135; 136; 137; 138; 139; 140; 141; 142; 143;
   144; 145; 146; 147; 148; 149; 150; 151; 152; 153; 154; 155; 156; 157; 158; 159;
   160; 161; 162; 163; 164; 165; 166; 167; 168; 169; 170; 171; 172; 173; 174; 175;
   176; 177; 178; 179; 180; 181; 182; 183; 184; 185; 186; 187; 188; 189; 190; 191;
   192; 193; 194; 195; 196; 197; 198; 199; 200; 201; 202; 203; 204; 205; 206; 207;
   208; 209; 210; 211; 212; 213; 214; 215; 216; 217; 218; 219; 220; 221; 222; 223;
   224; 225; 226; 227; 228; 229; 230; 231; 232; 233; 234; 235; 236; 237; 238; 239;
   240; 241; 242; 243; 244; 245; 246; 247; 248; 249; 250; 251; 252; 253; 254; 255].

Definition ctype_gb18030 : list Z :=
  [0;
   32; 32; 32; 32; 32; 32; 32; 32; 32; 40; 40; 40; 40; 40; 32; 32;
   32; 32; 32; 32; 32; 32; 32; 32; 32; 32; 32; 32; 32; 32; 32; 32;
   72; 16; 16; 16; 16; 16; 16; 16; 16; 16; 16; 16; 16; 16; 16; 16;
   132; 132; 132; 132; 132; 132; 132; 132; 132; 132; 16; 16; 16; 16; 16; 16;
   16; 129; 129; 129; 129; 129; 129; 1; 1; 1; 1; 1; 1; 1; 1; 1;
   1; 1; 1; 1; 1; 1; 1; 1; 1; 1; 1; 16; 16; 16; 16; 16;
   16; 130; 130; 130; 130; 130; 130; 2; 2; 2; 2; 2; 2; 2; 2; 2;
   2; 2; 2; 2; 2; 2; 2; 2; 2; 2; 2; 16; 16; 16; 16; 32;
   3; 3; 3; 3; 3; 3; 3; 3; 3; 3; 3; 3; 3; 3; 3; 3;
   3; 3; 3; 3; 3; 3; 3; 3; 3; 3; 3; 3; 3; 3; 3; 3;
   3; 3; 3; 3; 3; 3; 3; 3; 3; 3; 3; 3; 3; 3; 3; 3;
   3; 3; 3; 3; 3; 3; 3; 3; 3; 3; 3; 3; 3; 3; 3; 3;
   3; 3; 3; 3; 3; 3; 3; 3; 3; 3; 3; 3; 3; 3; 3; 3;
   3; 3; 3; 3; 3; 3; 3; 3; 3; 3; 3; 3; 3; 3; 3; 3;
   3; 3; 3; 3; 3; 3; 3; 3; 3; 3; 3; 3; 3; 3; 3; 3;
   3; 3; 3; 3; 3; 3; 3; 3; 3; 3; 3; 3; 3; 3; 3; 0].

Definition to_lower_gb18030 : list Z :=
  [0; 1; 2; 3; 4; 5; 6; 7; 8; 9; 10; 11; 12; 13; 14; 15;
   16; 17; 18; 19; 20; 21; 22; 23; 24; 25; 26; 27; 28; 29; 30; 31;
   32; 33; 34; 35; 36; 37; 38; 39; 40; 41; 42; 43; 44; 45; 46; 47;
   48; 49; 50; 51; 52; 53; 54; 55; 56; 57; 58; 59; 60; 61; 62; 63;
   64; 97; 98; 99; 100; 101; 102; 103; 104; 105; 106; 107; 108; 109; 110; 111;
   112; 113; 114; 115; 116; 117; 118; 119; 120; 121; 122; 91; 92; 93; 94; 95;
   96; 97; 98; 99; 100; 101; 102; 103; 104; 105; 106; 107; 108; 109; 110; 111;
   112; 113; 114; 115; 116; 117; 118; 119; 120; 121; 122; 123; 124; 125; 126; 127;
   128; 129; 130; 131; 132; 133; 134; 135; 136; 137; 138; 139; 140; 141; 142; 143;
   144; 145; 146; 147; 148; 149; 150; 151; 152; 153; 154; 155; 156; 157; 158; 159;
   160; 161; 162; 163; 164; 165; 166; 167; 168; 169; 170; 171; 172; 173; 174; 175;
   176; 177; 178; 179; 180; 181; 182; 183; 184; 185; 186; 187; 188; 189; 190; 191;
   192; 193; 194; 195; 196; 197; 198; 199; 200; 201; 202; 203; 204; 205; 206; 207;
   208; 209; 210; 211; 212; 213; 214; 215; 216; 217; 218; 219; 220; 221; 222; 223;
   224; 225; 226; 227; 228; 229; 230; 231; 232; 233; 234; 235; 236; 237; 238; 239;
   240; 241; 242; 243; 244; 245; 246; 247; 248; 249; 250; 251; 252; 253; 254; 255].

Definition to_upper_gb18030 : list Z :=
  [0; 1; 2; 3; 4; 5; 6; 7; 8; 9; 10; 11; 12; 13; 14; 15;
   16; 17; 18; 19; 20; 21; 22; 23; 24; 25; 26; 27; 28; 29; 30; 31;
   32; 33; 34; 35; 36; 37; 38; 39; 40; 41; 42; 43; 44; 45; 46; 47;
   48; 49; 50; 51; 52; 53; 54; 55; 56; 57; 58; 59; 60; 61; 62; 63;
   64; 65; 66; 67; 68; 69; 70; 71; 72; 73; 74; 75; 76; 77; 78; 79;
   80; 81; 82; 83; 84; 85; 86; 87; 88; 89; 90; 91; 92; 93; 94; 95;
   96; 65; 66; 67; 68; 69; 70; 71; 72; 73; 74; 75; 76; 77; 78; 79;
   80; 81; 82; 83; 84; 85; 86; 87; 88; 89; 90; 123; 124; 125; 126; 127;
   128; 129; 130; 131; 132; 133; 134; 135; 136; 137; 138; 139; 140; 141; 142; 143;
   144; 145; 146; 147; 148; 149; 150; 151; 152; 153; 154; 155; 156; 157; 158; 159;
   160; 161; 162; 163; 164; 165; 166; 167; 168; 169; 170; 171; 172; 173; 174; 175;
   176; 177; 178; 179; 180; 181; 182; 183; 184; 185; 186; 187; 188; 189; 190; 191;
   192; 193; 194; 195; 196; 197; 198; 199; 200; 201; 202; 203; 204; 205; 206; 207;
   208; 209; 210; 211; 212; 213; 214; 215; 216; 217; 218; 219; 220; 221; 222; 223;
   224; 225; 226; 227; 228; 229; 230; 231; 232; 233; 234; 235; 236; 237; 238; 239;
   240; 241; 242; 243; 244; 245; 246; 247; 248; 249; 250; 251; 252; 253; 254; 255].

Definition sort_order_gb18030 : list Z :=
  [0; 1; 2; 3; 4; 5; 6; 7; 8; 9; 10; 11; 12; 13; 14; 15;
   16; 17; 18; 19; 20; 21; 22; 23; 24; 25; 26; 27; 28; 29; 30; 31;
   32; 33; 34; 35; 36; 37; 38; 39; 40; 41; 42; 43; 44; 45; 46; 47;
   48; 49; 50; 51; 52; 53; 54; 55; 56; 57; 58; 59; 60; 61; 62; 63;
   64; 65; 66; 67; 68; 69; 70; 71; 72; 73; 74; 75; 76; 77; 78; 79;
   80; 81; 82; 83; 84; 85; 86; 87; 88; 89; 90; 91; 92; 93; 94; 95;
   96; 65; 66; 67; 68; 69; 70; 71; 72; 73; 74; 75; 76; 77; 78; 79;
   80; 81; 82; 83; 84; 85; 86; 87; 88; 89; 90; 123; 124; 125; 126; 127;
   128; 129; 130; 131; 132; 133; 134; 135; 136; 137; 138; 139; 140; 141; 142; 143;
   144; 145; 146; 147; 148; 149; 150; 151; 152; 153; 154; 155; 156; 157; 158; 159;
   160; 161; 162; 163; 164; 165; 166; 167; 168; 169; 170; 171; 172; 173; 174; 175;
   176; 177; 178; 179; 180; 181; 182; 183; 184; 185; 186; 187; 188; 189; 190; 191;
   192; 193; 194; 195; 196; 197; 198; 199; 200; 201; 202; 203; 204; 205; 206; 207;
   208; 209; 210; 211; 212; 213; 214; 215; 216; 217; 218; 219; 220; 221; 222; 223;
   224; 225; 226; 227; 228; 229; 230; 231; 232; 233; 234; 235; 236; 237; 238; 239;
   240; 241; 242; 243; 244; 245; 246; 247; 248; 249; 250; 251; 252; 253; 254; 255].

(** ** The template of strings/ctype-mb.ic

    A character set may define the tests [IS_MB3_CHAR] and [IS_MB4_CHAR]; the
    code for one that is not defined is not compiled. *)
Section template.

Context (IS_MB2_CHAR : Z -> Z -> bool) (IS_MB3_CHAR : option (Z -> Z -> Z -> bool))
  (IS_MB4_CHAR : option (Z -> Z -> Z -> Z -> bool)).

Definition charlen_4 (b : list Z) : Z :=
  match IS_MB4_CHAR with
  | None => MY_CS_ILSEQ
  | Some is_mb4 =>
      if (length b <? 4)%nat then MY_CS_TOOSMALLN 4
      else if is_mb4 (at_ b 0) (at_ b 1) (at_ b 2) (at_ b 3) then 4
      else MY_CS_ILSEQ
  end.

Definition charlen_3 (b : list Z) : Z :=
  match IS_MB3_CHAR with
  | None => charlen_4 b
  | Some is_mb3 =>
      if (length b <? 3)%nat then MY_CS_TOOSMALLN 3
      else if is_mb3 (at_ b 0) (at_ b 1) (at_ b 2) then 3
      else charlen_4 b
  end.

Definition charlen (b : list Z) : Z :=
  if (length b =? 0)%nat then MY_CS_TOOSMALL
  else if at_ b 0 <? 128 then 1
  else if (length b <? 2)%nat then MY_CS_TOOSMALLN 2
  else if IS_MB2_CHAR (at_ b 0) (at_ b 1) then 2
  else charlen_3 b.

(** The bytes that a turn of the loop of [well_formed_char_length] advances
    by, or nothing at a wrong sequence. *)
Definition advance (b : list Z) : option nat :=
  if at_ b 0 <? 128 then Some 1%nat
  else if (2 <=? length b)%nat && IS_MB2_CHAR (at_ b 0) (at_ b 1) then Some 2%nat
  else if match IS_MB3_CHAR with
          | Some is_mb3 => (3 <=? length b)%nat && is_mb3 (at_ b 0) (at_ b 1) (at_ b 2)
          | None => false
          end then Some 3%nat
  else if match IS_MB4_CHAR with
          | Some is_mb4 => (4 <=? length b)%nat && is_mb4 (at_ b 0) (at_ b 1) (at_ b 2) (at_ b 3)
          | None => false
          end then Some 4%nat
  else None.

Fixpoint asian_loop (nchars : nat) (b : list Z) (pos read : nat) : nat * MY_STRCOPY_STATUS :=
  match nchars, b with
  | S nchars', _ :: _ =>
      match advance b with
      | Some n => asian_loop nchars' (drop n b) (pos + n) (S read)
      | None => (read, mkStatus pos (Some pos))
      end
  | _, _ => (read, mkStatus pos None)
  end.

Definition asian_well_formed_char_length (b : list Z) (nchars : nat) : nat * MY_STRCOPY_STATUS := asian_loop nchars b 0 0.

End template.

(** ** gbk *)

Definition isgbkhead (c : Z) : bool := (0x81 <=? c) && (c <=? 0xfe).

Definition isgbktail (c : Z) : bool := (0x40 <=? c) && (c <=? 0x7e) || (0x80 <=? c) && (c <=? 0xfe).

Definition IS_GBK_CHAR (x y : Z) : bool := isgbkhead x && isgbktail y.

Definition my_charlen_gbk : list Z -> Z := charlen IS_GBK_CHAR None None.

Definition my_well_formed_char_length_gbk : list Z -> nat -> nat * MY_STRCOPY_STATUS :=
  asian_well_formed_char_length IS_GBK_CHAR None None.

(** ** gb18030 *)

Definition is_mb_odd (c : Z) : bool := (0x81 <=? c) && (c <=? 0xfe).

Definition is_mb_even_2 (c : Z) : bool := (0x40 <=? c) && (c <=? 0x7e) || (0x80 <=? c) && (c <=? 0xfe).

Definition is_mb_even_4 (c : Z) : bool := (0x30 <=? c) && (c <=? 0x39).

Definition is_mb2_1 (c : Z) : bool := (0x81 <=? c) && (c <=? 0xfe).
Definition is_mb2_2 (c : Z) : bool := (0x40 <=? c) && (c <=? 0x7e) || (0x80 <=? c) && (c <=? 0xfe).
Definition is_mb4_1 (c : Z) : bool := (0x81 <=? c) && (c <=? 0xfe).
Definition is_mb4_2 (c : Z) : bool := (0x30 <=? c) && (c <=? 0x39).
Definition is_mb4_3 (c : Z) : bool := (0x81 <=? c) && (c <=? 0xfe).
Definition is_mb4_4 (c : Z) : bool := (0x30 <=? c) && (c <=? 0x39).

Definition IS_GB18030_2 (x y : Z) : bool := is_mb2_1 x && is_mb2_2 y.

Definition IS_GB18030_4 (x y a b : Z) : bool := is_mb4_1 x && is_mb4_2 y && is_mb4_3 a && is_mb4_4 b.

Definition my_charlen_gb18030 : list Z -> Z :=
  charlen IS_GB18030_2 (Some (fun _ _ _ => false)) (Some IS_GB18030_4).

Definition my_well_formed_char_length_gb18030 : list Z -> nat -> nat * MY_STRCOPY_STATUS :=
  asian_well_formed_char_length IS_GB18030_2 (Some (fun _ _ _ => false)) (Some IS_GB18030_4).

Definition my_ismbchar_gb18030 (p : list Z) : nat :=
  if (length p <=? 1)%nat || negb (is_mb_odd (at_ p 0)) then 0%nat
  else if is_mb_even_2 (at_ p 1) then 2%nat
  else if (3 <? length p)%nat && is_mb_even_4 (at_ p 1) && is_mb_odd (at_ p 2) && is_mb_even_4 (at_ p 3) then 4%nat
  else 0%nat.

(** ** The character sets *)

Definition my_charset_utf8mb4_general_ci : CHARSET_INFO :=
  mkCS ctype_utf8mb4 to_lower_utf8mb4 to_upper_utf8mb4 to_upper_utf8mb4 true (my_ismbchar my_charlen_utf8mb4).

Definition my_charset_gbk_chinese_ci : CHARSET_INFO :=
  mkCS ctype_gbk to_lower_gbk to_upper_gbk sort_order_gbk true (my_ismbchar my_charlen_gbk).

Definition my_charset_gb18030_chinese_ci : CHARSET_INFO :=
  mkCS ctype_gb18030 to_lower_gb18030 to_upper_gb18030 sort_order_gb18030 true (my_ismbchar my_charlen_gb18030).

(** ** The two forms of the template agree *)

Lemma advance_charlen mb2 mb3 mb4 b : b <> [] ->
  match advance mb2 mb3 mb4 b with
  | Some n => charlen mb2 mb3 mb4 b = Z.of_nat n /\ (1 <= n <= length b)%nat
  | None => charlen mb2 mb3 mb4 b <= 0
  end.
Proof.
  intros Hb. assert (1 <= length b)%nat by (destruct b; [done|cbn; lia]).
  unfold advance, charlen, charlen_3, charlen_4. rewrite (proj2 (Nat.eqb_neq _ _)) by lia.
  destruct (at_ b 0 <? 128); [lia|].
  destruct (Nat.ltb_spec (length b) 2), (Nat.leb_spec 2 (length b)); try lia; cbn [andb].
  - rewrite !(proj2 (Nat.leb_gt _ _)) by lia. cbn [andb]. by destruct mb3, mb4.
  - destruct (mb2 _ _); [lia|].
    destruct (Nat.ltb_spec (length b) 3), (Nat.leb_spec 3 (length b)); try lia; cbn [andb];
    destruct (Nat.ltb_spec (length b) 4), (Nat.leb_spec 4 (length b)); try lia; cbn [andb];
    destruct mb3 as [mb3|]; try (destruct (mb3 _ _ _)); destruct mb4 as [mb4|]; try (destruct (mb4 _ _ _ _)); try done; lia.
Qed.

(** The two forms in which the template for multi-byte character sets
    measures the well-formed part of a text agree: the one that tests the
    bytes itself gives, for any definition of the characters, the number of
    characters, the end and the place of the first error that the one built on
    the length function of the character set gives. *)
Theorem asian_well_formed_agrees mb2 mb3 mb4 (b : list Z) (nchars : nat) :
  asian_well_formed_char_length mb2 mb3 mb4 b nchars = well_formed_char_length (charlen mb2 mb3 mb4) b nchars.
Proof.
  unfold asian_well_formed_char_length, well_formed_char_length. generalize 0%nat at 1 3. generalize 0%nat.
  revert b. induction nchars as [|nchars IH]; intros b read pos; [by destruct b|].
  destruct b as [|c b]; [done|]. cbn [asian_loop well_formed_loop].
  pose proof (advance_charlen mb2 mb3 mb4 (c :: b) ltac:(done)) as Ha.
  destruct (advance mb2 mb3 mb4 (c :: b)) as [n|].
  - destruct Ha as [-> Hn]. rewrite (proj2 (Z.leb_gt _ _)), Nat2Z.id by lia. apply IH.
  - by rewrite (proj2 (Z.leb_le _ _)).
Qed.

(** The two tests of gb18030 for a multi-byte character agree. *)
Lemma my_ismbchar_gb18030_charlen p : my_ismbchar my_charlen_gb18030 p = my_ismbchar_gb18030 p.
Proof.
  unfold my_ismbchar, my_charlen_gb18030, my_ismbchar_gb18030, charlen, charlen_3, charlen_4, IS_GB18030_2, IS_GB18030_4.
  change is_mb2_1 with is_mb_odd. change is_mb2_2 with is_mb_even_2. change is_mb4_1 with is_mb_odd.
  change is_mb4_2 with is_mb_even_4. change is_mb4_3 with is_mb_odd. change is_mb4_4 with is_mb_even_4.
  destruct p as [|x [|y [|a [|b p]]]]; cbn [length Nat.eqb Nat.ltb Nat.leb orb andb at_ nth]; [done|by destruct (x <? 128)|..];
    (destruct (Z.ltb_spec x 128) as [Hx|Hx];
     [unfold is_mb_odd at 1; by rewrite (proj2 (Z.leb_gt _ _)) by lia|]);
    destruct (is_mb_odd x); cbn [negb andb]; try done; destruct (is_mb_even_2 y); cbn [andb]; try done;
    destruct (_ && _); done.
Qed.

(** ** What the client relies on *)

Lemma template_ismbchar mb2 mb3 mb4 p :
  (my_ismbchar (charlen mb2 mb3 mb4) p <= length p)%nat
  /\ (deref p < 128 -> my_ismbchar (charlen mb2 mb3 mb4) p = 0%nat).
Proof.
  destruct (decide (p = [])) as [->|Hp]; [done|]. unfold my_ismbchar. split.
  - pose proof (advance_charlen mb2 mb3 mb4 p Hp) as Ha. destruct (advance mb2 mb3 mb4 p) as [n|].
    + destruct Ha as [-> Hn]. destruct (_ <? _); [rewrite Nat2Z.id|]; lia.
    + rewrite (proj2 (Z.ltb_ge _ _)) by lia. lia.
  - intros Hd. unfold charlen. destruct p; [done|]. cbn [length Nat.eqb]. change (at_ (z :: p) 0) with (deref (z :: p)).
    by rewrite (proj2 (Z.ltb_lt _ _) Hd).
Qed.

Lemma utf8_ismbchar p :
  (my_ismbchar my_charlen_utf8mb4 p <= length p)%nat
  /\ (deref p < 128 -> my_ismbchar my_charlen_utf8mb4 p = 0%nat).
Proof.
  unfold my_ismbchar. rewrite charlen_decode. split.
  - destruct (decode_code p) as [(n & wc & -> & Hn)|(n & -> & Hn)]; cbn [fst].
    + destruct (_ <? _); [rewrite Nat2Z.id|]; lia.
    + rewrite (proj2 (Z.ltb_ge _ _)) by lia. lia.
  - intros Hd. destruct p as [|c p]; [done|]. by rewrite decode_ascii.
Qed.

(** The ASCII part of a [ctype] table decides about compatibility. *)
Lemma ascii_compatible_table cs : take 129 (ctype cs) = take 129 ctype_latin1 -> ascii_compatible cs.
Proof.
  intros Ht c Hc. assert (Hn : nth (Z.to_nat (c + 1)) (ctype cs) 0 = nth (Z.to_nat (c + 1)) ctype_latin1 0).
  { assert (Hk : (Z.to_nat (c + 1) <? 129)%nat = true) by (apply Nat.ltb_lt; lia).
    pose proof (nth_firstn 129 (ctype cs) (Z.to_nat (c + 1)) 0) as H1. pose proof (nth_firstn 129 ctype_latin1 (Z.to_nat (c + 1)) 0) as H2.
    rewrite Hk in H1, H2. by rewrite <-H1, <-H2, Ht. }
  unfold my_isspace, my_isgraph, my_isdigit, my_isalpha, is_class. cbn [ctype my_charset_latin1]. by rewrite Hn.
Qed.

Lemma utf8_charset_ok : charset_ok my_charset_utf8mb4_general_ci.
Proof. split; [by apply ascii_compatible_table|intros p; apply utf8_ismbchar..]. Qed.

Lemma gbk_charset_ok : charset_ok my_charset_gbk_chinese_ci.
Proof. split; [by apply ascii_compatible_table|intros p; apply template_ismbchar..]. Qed.

Lemma gb18030_charset_ok : charset_ok my_charset_gb18030_chinese_ci.
Proof. split; [by apply ascii_compatible_table|intros p; apply template_ismbchar..]. Qed.

Lemma latin1_charset_ok : charset_ok my_charset_latin1.
Proof. split; [done|intros p; cbn; lia|done]. Qed.

(** The bytes of a multi-byte character of UTF-8. *)
Lemma utf8_multibyte_bytes s n wc : my_mb_wc_utf8mb4 s = (Z.of_nat n, Some wc) -> (1 < n)%nat ->
  Forall (fun c => 0xc2 <= c \/ IS_CONTINUATION_BYTE c = true) (take n s).
Proof.
  intros Hd Hn. revert Hd. unfold my_mb_wc_utf8mb4, my_mb_wc_utf8mb4_quick.
  assert (Hk : forall k w, (k, Some w) = (Z.of_nat n, Some wc) -> n = Z.to_nat k) by (intros k w [= -> _]; lia).
  destruct s as [|c s]; [done|]. cbn [length Nat.eqb at_ nth].
  destruct (_ <? 128); [intros ->%Hk; change (Z.to_nat 1) with 1%nat in Hn; lia|]. destruct (Z.ltb_spec c 0xc2) as [|Hc]; [done|].
  destruct (_ <? 224).
  { destruct s as [|b1 s]; [done|]. cbn [length Nat.ltb Nat.leb nth]. destruct (IS_CONTINUATION_BYTE b1) eqn:E1; [|done].
    intros ->%Hk. by repeat constructor; auto. }
  destruct (_ <? 240).
  { destruct s as [|b1 [|b2 s]]; [done..|]. cbn [length Nat.ltb Nat.leb nth].
    destruct (IS_UTF8MB3_STEP2 c b1 b2) eqn:E; [|done]. apply andb_prop in E as [[E1 E2]%andb_prop _].
    intros ->%Hk. by repeat constructor; auto. }
  destruct (_ <? 245); [|done]. destruct s as [|b1 [|b2 [|b3 s]]]; [done..|]. cbn [length Nat.ltb Nat.leb nth].
  destruct (IS_UTF8MB4_STEP2 c b1 b2 b3) eqn:E; [|done].
  apply andb_prop in E as [[[[E1 E2]%andb_prop E3]%andb_prop _]%andb_prop _]. intros ->%Hk. by repeat constructor; auto.
Qed.

Lemma utf8_plain_multibyte : plain_multibyte my_charset_utf8mb4_general_ci.
Proof.
  intros _ p. split; [apply utf8_ismbchar|]. cbn [ismbchar my_charset_utf8mb4_general_ci]. unfold my_ismbchar.
  rewrite charlen_decode. destruct (decode_code p) as [(n & wc & Hd & Hn)|(n & -> & Hn)].
  - rewrite Hd. cbn [fst]. destruct (Z.ltb_spec 1 (Z.of_nat n)); [|constructor]. rewrite Nat2Z.id.
    eapply Forall_impl; [apply (utf8_multibyte_bytes _ _ _ Hd); lia|]. cbn. intros c Hc Hs. unfold special in Hs.
    destruct Hc as [Hc|Hc]; [lia|]. by destruct Hs as [->|[->| ->]].
  - cbn [fst]. by rewrite (proj2 (Z.ltb_ge _ _)) by lia.
Qed.

(** A backslash can be the second byte of a character of gbk and gb18030. *)
Lemma gb_not_plain : ~ plain_multibyte my_charset_gbk_chinese_ci /\ ~ plain_multibyte my_charset_gb18030_chinese_ci.
Proof.
  split; intros H; destruct (H eq_refl [0x81; "\"%chr]) as [_ Hf]; apply (proj1 (Forall_forall _ _) Hf "\"%chr);
    [apply (bool_decide_unpack _); exact I|by do 2 right|apply (bool_decide_unpack _); exact I|by do 2 right].
Qed.

(** The character sets of the client fulfil what the scanner of
    statements relies on: they classify the ASCII characters alike, no ASCII
    character starts a multi-byte character, and every multi-byte character
    lies within the text.  The characters of UTF-8 contain, besides, none of
    the bytes that are escaped in the batch form of results, which is not true
    of gbk and gb18030. *)
Theorem client_charsets_ok :
  Forall charset_ok
    [my_charset_latin1; my_charset_utf8mb4_general_ci; my_charset_gbk_chinese_ci; my_charset_gb18030_chinese_ci]
  /\ Forall plain_multibyte [my_charset_latin1; my_charset_utf8mb4_general_ci]
  /\ ~ plain_multibyte my_charset_gbk_chinese_ci /\ ~ plain_multibyte my_charset_gb18030_chinese_ci.
Proof.
  split; [|split; [|apply gb_not_plain]].
  - rewrite !Forall_cons. auto using latin1_charset_ok, utf8_charset_ok, gbk_charset_ok, gb18030_charset_ok, Forall_nil_2.
  - constructor; [done|]. constructor; [apply utf8_plain_multibyte|constructor].
Qed.

(** ** The table in UTF-8 *)

(** Cells are counted as [Screen] says. *)
#[global] Instance screen_utf8 : Screen (my_numcells_mb my_mb_wc_utf8mb4).
Proof.
  exists utf8_screen; [apply my_numcells_screen|done|apply utf8_screen_ascii|apply utf8_screen_app|apply utf8_screen_length|].
  intros s. symmetry. apply utf8_screen_similar. induction s as [|c s IH]; [constructor|]. cbn [map]. constructor; [|done].
  unfold nul_to_space. destruct (Z.eqb_spec c 0) as [->|]; [right; lia|by left].
Defined.

Definition utf8_settings : settings :=
  mkSettings my_charset_utf8mb4_general_ci (my_numcells_mb my_mb_wc_utf8mb4) true false false false true false false 0 true
    (fun _ => false).

(** Two Chinese characters are six bytes and four cells. *)
Lemma utf8_table_example :
  let fs := [text_column "x" 6] in
  let rows := [[Some [228; 184; 173; 230; 150; 135]]; [Some (str "abcdef")]; [Some [255; 97]]] in
  let out := pager (print_table_data (con := plain_connector) utf8_settings fs rows no_output) in
  map (fun l => length (screen (numcells := my_numcells_mb my_mb_wc_utf8mb4) l)) (text_lines [] out) = [10; 10; 10; 10; 10; 10; 10]%nat.
Proof. vm_compute. reflexivity. Qed.
