(* ===== verification/ReadExec.v ===== *)
(** * The main loop (client/mysql.cc: read_and_execute)

    [read_and_execute] reads line after line, from a script or from the
    terminal, and hands each to the Oracle mode commands, to the client
    commands or to the statement scanner; at the end of a script what is
    still in the buffer is sent too.  Where the lines come from is a
    parameter: a [source] with a read function; the batch reader of
    [Readline] is one.  The theorem says what happens to a whole script file:
    exactly its statements are sent, in order. *)

From S2P Require Import Prelude.
From S2P Require Import CString.
From S2P Require Import Charset.
From S2P Require Import CommandTable.
From S2P Require Import Comments.
From S2P Require Import CommandArgs.
From S2P Require Import Commands.
From S2P Require Import AddLine.
From S2P Require Import AddLineSafe.
From S2P Require Import AddLineTokens.
From S2P Require Import OracleSet.
From S2P Require Readline.

(** What the loop uses of the program besides what the scanner uses: global
    variables, the commands of Oracle mode, and the readline library. *)
Class Client (world : Type) `{Program world} := {
  aborted : world -> bool;
  named_cmds : world -> bool;
  opt_binary_mode : world -> bool;
  is_sqlblanklines_oracle : world -> bool;
  exit_status : world -> Z;                             (* status.exit_status *)
  set_exit_status : Z -> world -> world;
  set_query_start_line : nat -> world -> world;         (* status.query_start_line *)
  set_real_binary_mode : bool -> world -> world;
  run_oracle : world -> list Z -> list Z -> CMD_STATE * world * list Z;
  (** an interactive line: the copy in the tee file, and the history *)
  echo_line : list Z -> world -> world;
  remember_line : list Z -> world -> world
}.

(** Where the lines come from: the next line and its length (the list), [None]
    at the end; whether it was cut off; whether there was a read error. *)
Class Source (source : Type) := {
  read : source -> bool -> option (option (list Z) * source);
  line_truncated : source -> bool;
  read_error : source -> bool
}.

Section loop.
Context {world : Type} `{cl : Client world} {source : Type} `{Source source}.

#[local] Abbreviation input := (@AddLine.input world).

Definition with_world (i : input) (w : world) : input := mkInput (i_buffer i) (i_in_string i) (i_ml_comment i) (i_pl i) w.

Definition with_buffer (i : input) (b : list Z) : input := mkInput b (i_in_string i) (i_ml_comment i) (i_pl i) (i_world i).

(** The end of a turn: [continue] or [break]. *)
Inductive outcome := Continue (i : input) | Stop (i : input).

(** A blank line drops the statement, unless it is a block of code. *)
Definition drops_statement (line : list Z) (i : input) : bool :=
  let v := sess (i_world i) in
  oracle_mode v && negb (is_sqlblanklines_oracle (i_world i)) && negb (bool_decide (i_buffer i = []))
  && bool_decide (skip_while (my_isspace (charset_info (vars v))) (cstr line) = [])
  && negb (is_oracle_pl_escape_sql pl_escape_regexec (i_buffer i) (Z.of_nat (length (i_buffer i)))).

(** Whether the line may be a command of the client. *)
Definition looks_for_command (i : input) : bool :=
  (named_cmds (i_world i) || bool_decide (i_buffer i = [])) && negb (i_ml_comment i) && (i_in_string i =? 0).

Definition run_command (interactive : bool) (line : list Z) (f : com_func) (cmdstr : list Z) (i : input) : outcome :=
  let '(r, w, b) := run f (i_world i) (i_buffer i) (Some cmdstr) in
  let i := with_buffer (with_world i w) b in
  if 0 <? r then Stop i
  else
    let i := if bool_decide (b = []) then mkInput b 0 (i_ml_comment i) (i_pl i) w else i in
    Continue (if interactive then with_world i (remember_line line w) else i).

(** The commands of the client and the scanner; [None] only if the scanner
    ran out of fuel. *)
Definition run_line (interactive : bool) (line : list Z) (truncated : bool) (i : input) : option outcome :=
  let command :=
    if looks_for_command i then find_command (vars (sess (i_world i))) (cstr line) else None in
  match command with
  | Some (com, cmdstr) =>
      match func com with
      | Some f => Some (run_command interactive line f cmdstr i)
      | None => Some (Continue i)
      end
  | None =>
      match add_line line truncated i with
      | Some (true, i) => Some (Stop i)
      | Some (false, i) => Some (Continue i)
      | None => None
      end
  end.

(** A turn of the loop behind the reading of the line. *)
Definition accept_line (interactive : bool) (line : list Z) (truncated : bool) (i : input) : option outcome :=
  if drops_statement line i then Some (Continue (with_buffer i []))
  else if last_session_mode (sess (i_world i)) && negb (i_ml_comment i) && (i_in_string i =? 0) && negb (i_pl i) then
    let '(state, w, b) := run_oracle (i_world i) (i_buffer i) line in
    let i := with_buffer (with_world i w) b in
    match state with
    | CMD_STATE_RUNED => Some (Continue i)
    | CMD_STATE_ERROR => Some (Stop i)
    | CMD_STATE_UNKNOW => run_line interactive line truncated i
    end
  else run_line interactive line truncated i.

Definition UTF8_BOM : list Z := [239; 187; 191].

Definition skip_bom (line_number : nat) (line : list Z) : list Z :=
  if (line_number =? 0)%nat && (at_ line 0 =? 239) && (at_ line 1 =? 187) && (at_ line 2 =? 191)
  then drop 3 line else line.

Definition nul_message (buffer line : list Z) : list Z :=
  str "ASCII '\0' appeared in the statement, but this is not allowed unless option --binary-mode is enabled and mysql is run in non-interactive mode. Set --binary-mode to 1 if ASCII '\0' is expected. Query: '"
  ++ buffer ++ cstr line ++ str "'.".

(** The beginning of a turn for a line of a script: the line that is left, or
    [None] for a NUL byte in it. *)
Definition check_line (line : list Z) (line_number : nat) (i : input) : option (list Z) :=
  if negb (real_binary_mode (vars (sess (i_world i)))) && negb (strlen line =? length line)%nat then None
  else Some (skip_bom line_number line).

Definition count_line (line_number : nat) (i : input) : input :=
  if bool_decide (i_buffer i = []) then with_world i (set_query_start_line (S line_number) (i_world i)) else i.

(** The loop; [None] when the fuel runs out. *)
Fixpoint execute_lines (fuel : nat) (interactive : bool) (src : source) (line_number : nat) (i : input)
    : option (source * input) :=
  match fuel with
  | O => None
  | S fuel' =>
      if aborted (i_world i) then Some (src, i)
      else
        match read src (real_binary_mode (vars (sess (i_world i)))) with
        | None => None
        | Some (None, src) =>
            let i := if interactive then i else count_line line_number i in
            Some (src, with_world i (set_exit_status (if read_error src then 1 else 0) (i_world i)))
        | Some (Some line, src) =>
            let checked := if interactive then Some line else check_line line line_number i in
            match checked with
            | None =>
                let w := set_exit_status 1 (i_world i) in
                Some (src, with_world i (snd (put_error w (nul_message (i_buffer i) line))))
            | Some line =>
                let i := if interactive then with_world i (echo_line line (i_world i)) else count_line line_number i in
                match accept_line interactive line (line_truncated src) i with
                | None => None
                | Some (Stop i) => Some (src, i)
                | Some (Continue i) => execute_lines fuel' interactive src (S line_number) i
                end
            end
        end
  end.

(** The control characters at the end of the buffer are removed. *)
Fixpoint graph_length (cs : CHARSET_INFO) (l : list Z) : nat :=
  match l with
  | [] => O
  | c :: l' =>
      let n := graph_length cs l' in
      if (n =? 0)%nat then if my_isgraph cs c then 1%nat else O else S n
  end.

Definition remove_cntrl (cs : CHARSET_INFO) (b : list Z) : list Z := take (graph_length cs b) b.

(** The last statement of a script needs no delimiter. *)
Definition send_rest (i : input) : input :=
  let w := i_world i in
  let b := remove_cntrl (charset_info (vars (sess w))) (i_buffer i) in
  if bool_decide (b = []) then with_buffer i b
  else
    let '(r, w, b) := run COM_GO (set_exit_status 1 w) b None in
    with_buffer (with_world i (if r <=? 0 then set_exit_status 0 w else w)) b.

(** [buffer] and [pl] are the global variables [glob_buffer] and
    [is_pl_escape_sql]. *)
Definition read_and_execute (fuel : nat) (interactive : bool) (src : source) (buffer : list Z) (pl : bool) (w : world)
    : option (Z * source * input) :=
  let w := set_exit_status 1 w in
  let w := set_real_binary_mode (negb interactive && opt_binary_mode w) w in
  match execute_lines fuel interactive src 0 (mkInput buffer 0 false pl w) with
  | None => None
  | Some (src, i) =>
      let i := if negb interactive && (exit_status (i_world i) =? 0) then send_rest i else i in
      let i := with_world i (set_real_binary_mode false (i_world i)) in
      Some (exit_status (i_world i), src, i)
  end.

End loop.

(** ** The batch reader as a source *)

Section reader.
Context {fworld : Type} (my_read : fworld -> Z -> Readline.read_result * fworld) (fuel : nat).

#[export] Instance batch_source : Source (Readline.LINE_BUFFER * fworld) := {|
  read := fun '(b, w) binary =>
    match Readline.batch_readline my_read fuel b binary w with
    | None => None
    | Some (line, b, w) => Some (line, (b, w))
    end;
  line_truncated := fun '(b, _) => Readline.truncated b;
  read_error := fun '(b, _) => negb (Readline.error b =? 0)
|}.

End reader.

(** ** What a script does *)

(** The lines a source delivers before its end. *)
Inductive feeds {source} `{Source source} (binary : bool) : source -> list (list Z) -> source -> Prop :=
  | feeds_end src src' : read src binary = Some (None, src') -> feeds binary src [] src'
  | feeds_line src line src1 ls src' :
      read src binary = Some (Some line, src1) -> line_truncated src1 = false ->
      feeds binary src1 ls src' -> feeds binary src (line :: ls) src'.

(** A program in a MySQL session that reads scripts without binary mode, and
    in which sending a statement leaves the exit status to the loop. *)
Record batch_mode {world} `{cl : Client world} (m : mode) (plain : world -> Prop) : Prop := {
  batch_in_mode : in_mode m plain;
  batch_running : forall w, plain w -> aborted w = false;
  batch_text : forall w, plain w -> opt_binary_mode w = false /\ real_binary_mode (vars (sess w)) = false;
  batch_exit : forall w e, plain w -> plain (set_exit_status e w) /\ exit_status (set_exit_status e w) = e;
  batch_line : forall w n, plain w -> plain (set_query_start_line n w);
  batch_go : forall w b, plain w -> exit_status (snd (fst (run COM_GO w b None))) = exit_status w;
  batch_binary : forall w, plain w ->
    plain (set_real_binary_mode false w) /\ exit_status (set_real_binary_mode false w) = exit_status w
}.

Section script.
Context {world : Type} {good : world -> Prop} `{pl : ProgramLaws world good} `{cl : !Client world}.
Context {source : Type} `{src_class : Source source}.
Context (m : mode) (plain : world -> Prop) (Hmode : batch_mode m plain).
Context (Hgood : forall w, plain w -> good w).

(** The statement buffer behind a line. *)
Definition next_buffer (c : list Z) : list Z := if bool_decide (c = []) then [] else c ++ [c_nl].

Definition line_start (n : nat) (b : list Z) (w : world) : world :=
  if bool_decide (b = []) then set_query_start_line (S n) w else w.

(** The command of the client that a line is. *)
Definition line_command (w : world) (b line : list Z) : option (COMMANDS * list Z) :=
  if named_cmds w || bool_decide (b = []) then find_command (vars (sess w)) line else None.

(** The lines of a script as lists of tokens, from line [n] on: the state
    behind the last line, or the buffer and the program when a statement or a
    command ends the client. *)
Fixpoint script_runs (n : nat) (b : list Z) (w : world) (script : list (list token)) : list Z * world + nat * list Z * world :=
  match script with
  | [] => inr (n, b, w)
  | ts :: script' =>
      let w := line_start n b w in
      match line_command w b (texts m ts) with
      | Some (com, cmdstr) =>
          match func com with
          | Some f =>
              let '(r, w, b) := run f w b (Some cmdstr) in
              if 0 <? r then inl (b, w) else script_runs (S n) b w script'
          | None => script_runs (S n) b w script'
          end
      | None =>
          match meanings m (mkStmt b false w) ts with
          | inl q => inl q
          | inr st => script_runs (S n) (next_buffer (collected st)) (program st) script'
          end
      end
  end.

(** The lines are those of the script, after a byte order mark on the first
    one: each is a command that keeps the mode, or made of the tokens. *)
Fixpoint script_ok (n : nat) (b : list Z) (w : world) (lines : list (list Z)) (script : list (list token)) : Prop :=
  match lines, script with
  | [], [] => True
  | line :: lines', ts :: script' =>
      let w := line_start n b w in
      let st := mkStmt b false w in
      c_string line /\ skip_bom n line = texts m ts
      /\ match line_command w b (texts m ts) with
         | Some (com, cmdstr) =>
             match func com with
             | Some f =>
                 let '(r, w, b) := run f w b (Some cmdstr) in
                 plain w /\ (r <= 0 -> script_ok (S n) b w lines' script')
             | None => script_ok (S n) b w lines' script'
             end
         | None =>
             tokens_ok m ts /\ commands_keep m plain st ts
             /\ match meanings m st ts with
                | inl _ => True
                | inr st' =>
                    (collected st' <> [] -> no_delimiter_word (collected st')
                     /\ find_command (vars (sess (program st'))) (cstr (collected st')) = None)
                    /\ script_ok (S n) (next_buffer (collected st')) (program st') lines' script'
                end
         end
  | _, _ => False
  end.

Lemma script_ok_cons n b w line lines ts script st' (st := mkStmt b false (line_start n b w)) :
  c_string line -> skip_bom n line = texts m ts -> tokens_ok m ts -> commands_keep m plain st ts ->
  line_command (line_start n b w) b (texts m ts) = None ->
  meanings m st ts = inr st' ->
  (collected st' <> [] -> no_delimiter_word (collected st')
   /\ find_command (vars (sess (program st'))) (cstr (collected st')) = None) ->
  script_ok (S n) (next_buffer (collected st')) (program st') lines script ->
  script_ok n b w (line :: lines) (ts :: script).
Proof. intros Hc Hb Ht Hs Hf Hm He Hok. cbn [script_ok]. subst st. cbv zeta. rewrite Hf, Hm. split_and!; auto. Qed.

(** What is left in the buffer is sent, with the exit status. *)
Definition send_last (b : list Z) (w : world) : Z * world :=
  let b := remove_cntrl (charset_info (vars (sess w))) b in
  if bool_decide (b = []) then (exit_status w, w)
  else
    let '(r, w, _) := run COM_GO (set_exit_status 1 w) b None in
    if r <=? 0 then (0, set_exit_status 0 w) else (1, w).

(** The end of the script, the exit status and the program: the rest of the
    buffer is sent, unless the client has been ended with an error. *)
Definition script_end (r : list Z * world + nat * list Z * world) : Z * world :=
  match r with
  | inl (b, w) => if exit_status w =? 0 then send_last b w else (exit_status w, w)
  | inr (n, b, w) => send_last b (set_exit_status 0 (line_start n b w))
  end.

Lemma line_start_plain n b w : plain w -> plain (line_start n b w).
Proof. intros Hw. unfold line_start. case_bool_decide; [by apply (batch_line _ _ Hmode)|done]. Qed.

(** The program behind tokens. *)
Definition behind (r : list Z * world + stmt (world := world)) : world := match r with inl (_, w) => w | inr st => program st end.

Lemma meanings_plain st ts : plain (program st) -> commands_keep m plain st ts -> plain (behind (meanings m st ts)).
Proof.
  revert st. induction ts as [|t ts IH]; intros st Hst Hk; cbn [meanings]; [done|]. destruct Hk as [Hk Hks].
  assert (Ht : plain (behind (meaning m st t))).
  { destruct t as [c|q items|b|sp]; cbn [meaning].
    - by destruct (_ && _).
    - done.
    - unfold add_comment. by destruct (m_preserve m).
    - pose proof (deliver_plain m plain (batch_in_mode _ _ Hmode) (program st) (ended m st sp) Hst Hk) as Hg.
      destruct (deliver _ _) as [[r w] b]. by destruct (0 <? r). }
  destruct (meaning m st t) as [[b w]|st1]; [done|]. by apply IH.
Qed.

(** A turn of the loop. *)
Lemma accept_line_run line b w : plain w -> c_string line ->
  accept_line false line false (mkInput b 0 false false w)
  = match line_command w b line with
    | Some (com, cmdstr) =>
        match func com with
        | Some f =>
            let '(r, w, b) := run f w b (Some cmdstr) in
            let i := mkInput b 0 false false w in Some (if 0 <? r then Stop i else Continue i)
        | None => Some (Continue (mkInput b 0 false false w))
        end
    | None =>
        match add_line line false (mkInput b 0 false false w) with
        | Some (true, i) => Some (Stop i)
        | Some (false, i) => Some (Continue i)
        | None => None
        end
    end.
Proof.
  intros Hw Hc. destruct (plain_session _ _ (batch_in_mode _ _ Hmode) w Hw) as (_ & Ho & Hl & _).
  unfold accept_line, drops_statement. cbn [i_world]. rewrite Ho, Hl. cbn [andb]. unfold run_line, line_command, looks_for_command.
  cbv zeta. cbn [i_world i_buffer i_ml_comment i_in_string negb]. rewrite cstr_c_string, !andb_true_r by done.
  destruct (if _ || _ then _ else _) as [[com cmdstr]|]; [|done]. destruct (func com) as [f|]; [|done].
  unfold run_command. cbn [i_world i_buffer]. destruct (run f w b (Some cmdstr)) as [[r w'] b']. destruct (0 <? r); [done|].
  by case_bool_decide.
Qed.

Lemma accept_line_tokens b w ts :
  plain w -> c_string (texts m ts) -> tokens_ok m ts -> commands_keep m plain (mkStmt b false w) ts ->
  line_command w b (texts m ts) = None ->
  match meanings m (mkStmt b false w) ts with
  | inl (b', w') => accept_line false (texts m ts) false (mkInput b 0 false false w) = Some (Stop (mkInput b' 0 false false w'))
  | inr st =>
      (collected st <> [] -> no_delimiter_word (collected st)
       /\ find_command (vars (sess (program st))) (cstr (collected st)) = None) ->
      accept_line false (texts m ts) false (mkInput b 0 false false w)
      = Some (Continue (mkInput (next_buffer (collected st)) 0 false false (program st)))
  end.
Proof.
  intros Hw Hc Hok Hso Hcmd. rewrite accept_line_run, Hcmd by done.
  pose proof (add_line_tokens m plain (batch_in_mode _ _ Hmode) Hgood ts b w Hw Hok Hso) as Ha.
  destruct (meanings m _ ts) as [[b' w']|st]; [by rewrite Ha|]. intros Hend.
  unfold next_buffer. destruct (bool_decide_reflect (collected st = [])) as [Ec|Ec].
  - by rewrite (proj1 Ha Ec).
  - by rewrite (proj2 Ha Ec (proj1 (Hend Ec)) (proj2 (Hend Ec))).
Qed.

(** The state of the loop where it ends. *)
Definition stopped (r : list Z * world + nat * list Z * world) : input (world := world) :=
  match r with
  | inl (b, w) => mkInput b 0 false false w
  | inr (n, b, w) => mkInput b 0 false false (set_exit_status 0 (line_start n b w))
  end.

Lemma execute_lines_script lines script n b w src src' fuel :
  plain w -> feeds false src lines src' -> read_error src' = false -> script_ok n b w lines script ->
  (length lines < fuel)%nat ->
  exists src1, execute_lines fuel false src n (mkInput b 0 false false w) = Some (src1, stopped (script_runs n b w script))
    /\ plain (match script_runs n b w script with inl (_, w) | inr (_, _, w) => w end).
Proof.
  revert script n b w src fuel. induction lines as [|line lines IH]; intros [|ts script] n b w src [|fuel] Hw Hf He Hok Hl;
    cbn [length] in Hl; try lia; try done; cbn [execute_lines i_world script_runs].
  - inversion Hf as [? ? Hread|]. subst. exists src'.
    rewrite (batch_running _ _ Hmode), (proj2 (batch_text _ _ Hmode w Hw)), Hread, He by done. cbn [stopped i_world].
    split; [unfold count_line, line_start; cbn [i_buffer]; by case_bool_decide|done].
  - inversion Hf as [|? ? src1 ? ? Hread Htr Hf1]. subst. cbn [script_ok] in Hok. cbv zeta in Hok |- *.
    destruct Hok as (Hc & Hb & Hok). pose proof (line_start_plain n b w Hw) as Hw1.
    rewrite (batch_running _ _ Hmode), (proj2 (batch_text _ _ Hmode w Hw)), Hread by done.
    unfold check_line. rewrite (strlen_c_string line), Nat.eqb_refl by done. rewrite andb_false_r, Hb, Htr.
    assert (count_line n (mkInput b 0 false false w) = mkInput b 0 false false (line_start n b w)) as ->
      by (unfold count_line, line_start; cbn [i_buffer]; by case_bool_decide).
    assert (Hct : c_string (texts m ts)).
    { rewrite <-Hb. unfold skip_bom. destruct (_ && _); [by apply c_string_drop|done]. }
    set (w1 := line_start n b w) in *. destruct (line_command w1 b (texts m ts)) as [[com cmdstr]|] eqn:Ecmd.
    + rewrite accept_line_run, Ecmd by done. destruct (func com) as [f|]; [|by apply IH; [done..|lia]].
      destruct (run f w1 b (Some cmdstr)) as [[r w2] b2]. destruct Hok as [Hw2 Hok]. cbv zeta.
      destruct (Z.ltb_spec 0 r); [by exists src1|]. apply IH; [done..|apply Hok; lia|lia].
    + destruct Hok as (Ht & Hs & Hrest). pose proof (accept_line_tokens b w1 ts Hw1 Hct Ht Hs Ecmd) as Ha.
      pose proof (meanings_plain (mkStmt b false w1) ts Hw1 Hs) as Hw2.
      destruct (meanings m _ ts) as [[b' w']|st]; cbn [behind] in Hw2.
      * rewrite Ha. by exists src1.
      * destruct Hrest as [Hend Hok]. rewrite (Ha Hend). apply IH; [done..|lia].
Qed.

Lemma send_last_spec b w : plain w ->
  i_world (send_rest (mkInput b 0 false false w)) = snd (send_last b w)
  /\ exit_status (snd (send_last b w)) = fst (send_last b w) /\ plain (snd (send_last b w)).
Proof.
  intros Hw. unfold send_rest, send_last. cbn [i_world i_buffer]. destruct (bool_decide _); [done|].
  destruct (batch_exit _ _ Hmode w 1 Hw) as [Hp1 He1].
  pose proof (plain_go _ _ (batch_in_mode _ _ Hmode) _ (remove_cntrl (charset_info (vars (sess w))) b) Hp1) as Hg.
  pose proof (batch_go _ _ Hmode _ (remove_cntrl (charset_info (vars (sess w))) b) Hp1) as He.
  destruct (run _ _ _ _) as [[r w2] b2]. cbn [fst snd] in Hg, He.
  destruct (r <=? 0); cbn; [|by rewrite He]. by destruct (batch_exit _ _ Hmode w2 0 Hg).
Qed.

Lemma read_and_execute_lines lines script w src src' fuel (w0 := set_real_binary_mode false (set_exit_status 1 w))
    (r := script_end (script_runs 0 [] w0 script)) :
  plain w -> feeds false src lines src' -> read_error src' = false -> script_ok 0 [] w0 lines script ->
  (length lines < fuel)%nat ->
  exists src1 i, read_and_execute fuel false src [] false w = Some (fst r, src1, i)
    /\ i_world i = set_real_binary_mode false (snd r).
Proof.
  intros Hw Hf He Hok Hl. unfold read_and_execute. destruct (batch_exit _ _ Hmode w 1 Hw) as [Hw1 _].
  rewrite (proj1 (batch_text _ _ Hmode _ Hw1)). cbn [negb andb]. fold w0.
  destruct (batch_binary _ _ Hmode _ Hw1) as [Hw0 _]. fold w0 in Hw0.
  destruct (execute_lines_script lines script 0 [] w0 src src' fuel Hw0 Hf He Hok Hl) as (src1 & -> & Hp).
  set (i := stopped (script_runs 0 [] w0 script)) in *.
  set (i' := if exit_status (i_world i) =? 0 then send_rest i else i). assert (Hi : i_world i' = snd r /\ exit_status (snd r) = fst r /\ plain (snd r)).
  { subst r i' i. destruct (script_runs 0 [] w0 script) as [[b' w']|[[n' b'] w']]; cbn [stopped script_end i_world] in *.
    - destruct (exit_status w' =? 0); [by apply send_last_spec|done].
    - destruct (batch_exit _ _ Hmode (line_start n' b' w') 0) as [Hpe ->]; [by apply line_start_plain|by apply send_last_spec]. }
  destruct Hi as (Hi & Hx & Hpl). exists src1, (with_world i' (set_real_binary_mode false (i_world i'))).
  cbn [with_world i_world]. by rewrite Hi, (proj2 (batch_binary _ _ Hmode _ Hpl)), Hx.
Qed.

End script.

(** ** Scripts in files *)

Section file.
Context {fworld : Type} (my_read : fworld -> Z -> Readline.read_result * fworld).
Context (remaining : fworld -> list Z) (Hread : Readline.read_spec my_read remaining).

Lemma grow_positive fuel bufread max bufbytes n br :
  Readline.grow fuel bufread max bufbytes = Some (Some (n, br)) -> 0 < n.
Proof.
  revert bufread. induction fuel as [|fuel IH]; intros bufread; cbn [Readline.grow]; [done|].
  destruct (Z.eqb_spec (Readline.uint (bufread - bufbytes) / Readline.IO_SIZE * Readline.IO_SIZE) 0) as [E|E]; cbn [negb].
  - destruct (max <? _); [done|]. apply IH.
  - intros [= <- _]. pose proof (Z.mod_pos_bound (bufread - bufbytes) (2 ^ 32) ltac:(lia)).
    assert (0 <= Readline.uint (bufread - bufbytes) / Readline.IO_SIZE)
      by (apply Z.div_pos; unfold Readline.uint, Readline.IO_SIZE; lia).
    unfold Readline.IO_SIZE in *. lia.
Qed.

Lemma fill_buffer_error b w n b' w' :
  Readline.fill_buffer my_read b w = Some (n, b', w') -> Readline.error b' = Readline.error b.
Proof.
  unfold Readline.fill_buffer. destruct (Readline.eof b); [by intros [= <- <- <-]|].
  destruct (Readline.grow _ _ _ _) as [[[rc br]|]|] eqn:E; [|by intros [= <- <- <-]|done].
  destruct (Hread w rc (grow_positive _ _ _ _ _ _ E)) as (bs & w1 & -> & _). by intros [= <- <- <-].
Qed.

Lemma read_loop_error fuel b w r b' w' :
  Readline.read_loop my_read fuel b w = Some (r, b', w') -> Readline.error b' = Readline.error b.
Proof.
  revert b w. induction fuel as [|fuel IH]; intros b w; cbn [Readline.read_loop]; [done|].
  destruct (_ =? _)%nat; [|by intros [= <- <- <-]].
  destruct (Readline.fill_buffer my_read b w) as [[[n b1] w1]|] eqn:Ef; [|done]. apply fill_buffer_error in Ef.
  destruct (n =? 0); [destruct (Readline.eof b1); by intros [= <- <- <-]|].
  destruct (n =? -1); [by intros [= <- <- <-]|]. intros Hr. by rewrite (IH _ _ Hr).
Qed.

Lemma batch_readline_error fuel b binary w r b' w' :
  Readline.batch_readline my_read fuel b binary w = Some (r, b', w') -> Readline.error b' = Readline.error b.
Proof.
  unfold Readline.batch_readline, Readline.intern_read_line.
  destruct (Readline.read_loop my_read fuel _ w) as [[[[n|] b1] w1]|] eqn:E; [| |done];
    apply read_loop_error in E; by intros [= <- <- <-].
Qed.

(** Lines that are read one after the other are lines that are fed. *)
Lemma read_lines_feeds calls fuel b w ls :
  Readline.error b = 0 -> Readline.read_lines my_read calls fuel b false w = Some (map (fun l => (l, false)) ls) ->
  exists src', feeds (H := batch_source my_read fuel) false (b, w) ls src'
    /\ read_error (Source := batch_source my_read fuel) src' = false.
Proof.
  revert b w ls. induction calls as [|calls IH]; intros b w ls He; cbn [Readline.read_lines]; [done|].
  destruct (Readline.batch_readline my_read fuel b false w) as [[[[l|] b1] w1]|] eqn:E; [| |done];
    pose proof (batch_readline_error _ _ _ _ _ _ _ E) as He1; rewrite He in He1.
  - destruct (Readline.read_lines _ _ _ _ _ _) as [ls1|] eqn:E1; [|done]. cbn. intros [= Hls].
    destruct ls as [|l2 ls]; [done|]. cbn [map] in Hls. injection Hls as <- Ht Hls. subst ls1.
    destruct (IH _ _ _ He1 E1) as (src' & Hf & Hs). exists src'. split; [|done].
    eapply feeds_line; [cbn; by rewrite E|done|done].
  - intros [= Hls]. destruct ls; [|done]. exists (b1, w1). split; [|by cbn; rewrite He1].
    apply feeds_end. cbn. by rewrite E.
Qed.

End file.

Lemma length_file_lines_from binary cur l :
  (length (Readline.file_lines_from binary cur l) <= length l + if bool_decide (cur = []) then 0 else 1)%nat.
Proof.
  revert cur. induction l as [|c l IH]; intros cur; cbn [Readline.file_lines_from length].
  - destruct cur; cbn; lia.
  - destruct (c =? c_nl); cbn [length].
    + specialize (IH []). rewrite bool_decide_eq_true_2 in IH by done. destruct (bool_decide (cur = [])); lia.
    + specialize (IH (cur ++ [c])). rewrite bool_decide_eq_false_2 in IH by (by destruct cur).
      destruct (bool_decide (cur = [])); lia.
Qed.

Lemma length_file_lines binary l : (length (Readline.file_lines binary l) <= length l)%nat.
Proof. pose proof (length_file_lines_from binary [] l) as H. rewrite bool_decide_eq_true_2 in H by done. unfold Readline.file_lines. lia. Qed.

Lemma batch_script_runs {world} {good : world -> Prop} `{pl : ProgramLaws world good} `{cl : !Client world}
    {fworld} (my_read : fworld -> Z -> Readline.read_result * fworld) (remaining : fworld -> list Z)
    (m : mode) (plain : world -> Prop) (script : list (list token)) (fw : fworld) (max : Z) (fuel : nat)
    (w : world) (w0 := set_real_binary_mode false (set_exit_status 1 w)) (r := script_end (script_runs m 0 [] w0 script)) :
  batch_mode m plain -> (forall w, plain w -> good w) -> plain w ->
  Readline.read_spec my_read remaining -> max <= 2 ^ 31 ->
  2 * (Z.of_nat (Readline.longest_line (remaining fw)) + Readline.IO_SIZE) <= max ->
  (length (remaining fw) + 1 < fuel)%nat ->
  script_ok m plain 0 [] w0 (Readline.file_lines false (remaining fw)) script ->
  exists b src' i,
    Readline.batch_readline_init (Some Readline.S_OTHER) max = Some b
    /\ @read_and_execute _ _ _ _ (batch_source my_read fuel) fuel false (b, fw) [] false w = Some (fst r, src', i)
    /\ i_world i = set_real_binary_mode false (snd r).
Proof.
  intros Hmode Hgood Hw Hread Hmax Hlong Hfuel Hok. pose proof (length_file_lines false (remaining fw)) as Hlen.
  pose proof (Readline.read_file_lines my_read remaining fw max false (S (length (remaining fw))) fuel
    Hread Hmax Hlong ltac:(lia) Hfuel) as Hl.
  destruct (read_lines_feeds my_read remaining Hread _ _ (Readline.init_line_buffer Readline.IO_SIZE max) fw _ eq_refl Hl)
    as (src' & Hf & He).
  destruct (read_and_execute_lines (src_class := batch_source my_read fuel) m plain Hmode Hgood
    _ script w _ src' fuel Hw Hf He Hok ltac:(lia)) as (src1 & i & Hi & Hiw).
  by exists (Readline.init_line_buffer Readline.IO_SIZE max), src1, i.
Qed.

(** C1. Running a script file in MySQL mode, with comments kept as by default or
    not: whatever blocks the system delivers the file in, the client reads it
    line by line, skips a byte order mark, runs the lines and the statements
    that are commands of the client, like USE, and sends exactly the other
    statements that its tokens say, in their order and each once, the last one
    without a delimiter too; it counts the lines for error messages.  If a
    statement or a command ends the client, nothing behind it is run or sent,
    except that QUIT, which sets the exit status to 0, lets the client send what
    is still in the buffer; otherwise the file is read to its end, and the exit
    status is 0 unless sending the last statement fails.  The lines are made of
    the tokens of [AddLineTokens], and the commands keep the mode. *)
Theorem batch_script_executes {world} {good : world -> Prop} `{pl : ProgramLaws world good} `{cl : !Client world}
    {fworld} (my_read : fworld -> Z -> Readline.read_result * fworld) (remaining : fworld -> list Z)
    (m : mode) (plain : world -> Prop) (script : list (list token)) (fw : fworld) (max : Z) (fuel : nat)
    (w : world) (w0 := set_real_binary_mode false (set_exit_status 1 w)) (r := script_end (script_runs m 0 [] w0 script)) :
  batch_mode m plain -> (forall w, plain w -> good w) -> plain w ->
  Readline.read_spec my_read remaining -> max <= 2 ^ 31 ->
  2 * (Z.of_nat (Readline.longest_line (remaining fw)) + Readline.IO_SIZE) <= max ->
  (length (remaining fw) + 1 < fuel)%nat ->
  script_ok m plain 0 [] w0 (Readline.file_lines false (remaining fw)) script ->
  exists b src' i,
    Readline.batch_readline_init (Some Readline.S_OTHER) max = Some b
    /\ @read_and_execute _ _ _ _ (batch_source my_read fuel) fuel false (b, fw) [] false w = Some (fst r, src', i)
    /\ i_world i = set_real_binary_mode false (snd r).
Proof. intros Hmode Hgood Hw Hread Hmax Hlong Hfuel Hok. by apply (batch_script_runs my_read remaining m plain script). Qed.

(** ** QUIT with a delimiter *)

(** A line that ends a statement that is the command QUIT. *)
Record quits {world} `{cl : Client world} (m : mode) (w : world) (ts : list token) (q : list Z) : Prop := {
  quit_tokens : tokens_ok m (ts ++ [Delim []]);
  quit_line : c_string (texts m (ts ++ [Delim []])) /\ skip_bom 0 (texts m (ts ++ [Delim []])) = texts m (ts ++ [Delim []]);
  quit_text : Forall (fun t => match t with Delim _ => False | _ => True end) ts
    /\ exists o, forall w, meanings m (mkStmt (world := world) [] false w) ts = inr (mkStmt q o w);
  quit_no_command : find_command (vars (sess w)) (texts m (ts ++ [Delim []])) = None;
  quit_command : exists com cmdstr, find_command (vars (sess w)) (cstr q) = Some (com, cmdstr) /\ func com = Some COM_QUIT
}.

Lemma meanings_app {world} `{Program world} (m : mode) (st : stmt (world := world)) a b :
  meanings m st (a ++ b) = match meanings m st a with inr st' => meanings m st' b | inl q => inl q end.
Proof. revert st. induction a as [|t a IH]; intros st; [done|]. cbn [app meanings]. destruct (meaning m st t); [done|apply IH]. Qed.

Lemma commands_keep_app {world} `{Program world} (m : mode) plain (st : stmt (world := world)) a b :
  Forall (fun t => match t with Delim _ => False | _ => True end) a ->
  match meanings m st a with inr st' => commands_keep m plain st' b | inl q => True end ->
  commands_keep m plain st (a ++ b).
Proof.
  intros Ha. revert st. induction Ha as [|t a Ht _ IH]; intros st Hb; [done|]. cbn [app meanings commands_keep] in *.
  split; [by destruct t|]. destruct (meaning m st t) as [q|st']; [done|by apply IH].
Qed.

(** C37. QUIT with a delimiter is sent to the server: when the first line of a
    script is the command QUIT followed by the delimiter, the client ends, but
    before that it sends the text of the command as a statement, because the
    buffer still holds it and the exit status is already 0; the exit status of
    the client then depends on what the server says about it. *)
Theorem quit_with_delimiter_is_sent {world} {good : world -> Prop} `{pl : ProgramLaws world good} `{cl : !Client world}
    {source} `{src_class : Source source} (m : mode) (plain : world -> Prop) (ts : list token) (q : list Z)
    (lines : list (list Z)) (w : world) (src src' : source) (fuel : nat)
    (w1 := set_query_start_line 1 (set_real_binary_mode false (set_exit_status 1 w))) :
  batch_mode m plain -> (forall w, plain w -> good w) -> plain w ->
  (forall w b l, run COM_QUIT w b l = (1, set_exit_status 0 w, b)) -> (forall w, named_cmds w = false) ->
  quits m w1 ts q -> remove_cntrl (m_cs m) q = q -> q <> [] ->
  feeds false src (texts m (ts ++ [Delim []]) :: lines) src' -> read_error src' = false -> (S (length lines) < fuel)%nat ->
  exists src1 i,
    read_and_execute fuel false src [] false w
    = Some (if fst (fst (run COM_GO (set_exit_status 1 (set_exit_status 0 w1)) q None)) <=? 0 then 0 else 1, src1, i)
    /\ i_world i = set_real_binary_mode false
         (let '(r, w2, _) := run COM_GO (set_exit_status 1 (set_exit_status 0 w1)) q None in
          if r <=? 0 then set_exit_status 0 w2 else w2).
Proof.
  intros Hmode Hgood Hw Hquit Hnamed [Ht [Hc Hbom] [Hnd (o & Hm)] Hno (com & cmdstr & Hf & Hfun)] Hrc Hne Hfeed He Hfuel.
  set (w0 := set_real_binary_mode false (set_exit_status 1 w)) in *.
  assert (Hp1 : plain w1).
  { apply (batch_line _ _ Hmode), (batch_binary _ _ Hmode), (batch_exit _ _ Hmode), Hw. }
  destruct (batch_exit _ _ Hmode w1 0 Hp1) as [Hpq Heq].
  assert (Hend : ended m (mkStmt (world := world) q o w1) [] = q) by (unfold ended; destruct (m_preserve m); apply app_nil_r).
  assert (Hdel : deliver w1 q = (1, set_exit_status 0 w1, q)).
  { unfold deliver. rewrite Hf, Hfun. apply Hquit. }
  assert (Hmean : meanings m (mkStmt [] false w1) (ts ++ [Delim []]) = inl (q, set_exit_status 0 w1)).
  { rewrite meanings_app, Hm. cbn [meanings meaning]. cbn [program]. by rewrite Hend, Hdel. }
  assert (Hruns : script_runs m 0 [] w0 [ts ++ [Delim []]] = inl (q, set_exit_status 0 w1)).
  { cbn [script_runs]. change (line_start 0 [] w0) with w1. unfold line_command. rewrite Hnamed. cbn [orb]. cbv zeta.
    by rewrite bool_decide_eq_true_2, Hno, Hmean. }
  assert (Hok : script_ok m plain 0 [] w0 (texts m (ts ++ [Delim []]) :: lines) [ts ++ [Delim []]]).
  { cbn [script_ok]. change (line_start 0 [] w0) with w1. unfold line_command. rewrite Hnamed. cbn [orb]. cbv zeta.
    rewrite bool_decide_eq_true_2, Hno, Hmean by done. split_and!; try done. apply commands_keep_app; [done|].
    rewrite Hm. cbn [commands_keep program]. rewrite Hend. split; [|by destruct (meaning _ _ _)].
    intros _. by rewrite Hdel. }
  destruct (read_and_execute_lines m plain Hmode Hgood _ _ w src src' fuel Hw Hfeed He Hok ltac:(cbn; lia)) as (src1 & i & Hr & Hi).
  fold w0 in Hr, Hi. rewrite Hruns in Hr, Hi. cbn [script_end] in Hr, Hi. rewrite Heq in Hr, Hi. cbn [Z.eqb] in Hr, Hi.
  unfold send_last in Hr, Hi. destruct (plain_session _ _ (batch_in_mode _ _ Hmode) _ Hpq) as (_ & _ & _ & Hcs & _).
  rewrite Hcs, Hrc, bool_decide_eq_false_2 in Hr, Hi by done. exists src1, i.
  destruct (run COM_GO _ q None) as [[r w2] b2]. cbn [fst snd] in *. by destruct (r <=? 0).
Qed.

(** ** A small program around the loop *)

Record batch := mkBatch {
  bt_rec : recorder;
  bt_exit : Z;
  bt_line : nat
}.

Definition with_rec (w : batch) (r : recorder) : batch := mkBatch r (bt_exit w) (bt_line w).

(** The server refuses one statement. *)
#[global] Instance batch_program : Program batch := {|
  sess := fun w => r_session (bt_rec w);
  run := fun f w b line =>
    let '(r, rec, b) := recorder_run f (bt_rec w) b line in
    (if bool_decide (f = COM_GO /\ r_sent rec = r_sent (bt_rec w) ++ [str "bad"]) then 1 else r, mkBatch rec (match f with COM_QUIT => 0 | _ => bt_exit w end) (bt_line w), b);
  run_last := fun f w line => let '(r, rec) := run_last f (bt_rec w) line in (r, with_rec w rec);
  put_error := fun w _ => (-1, w);
  put_message := fun w _ => w;
  pl_escape_regexec := fun _ => false
|}.

#[global] Instance batch_laws : ProgramLaws batch (fun w => recorder_good (bt_rec w)).
Proof.
  split; [by intros w [? ?]|by intros w [? ?]| | |done|done].
  - intros f w b l Hw. pose proof (recorder_run_good f (bt_rec w) b l Hw) as Hr. cbn.
    by destruct (recorder_run _ _ _ _) as [[r rec] b'].
  - intros f w l Hw. pose proof (good_run_last f (bt_rec w) l Hw) as Hr.
    change (run_last f w l) with (let '(r, rec) := run_last f (bt_rec w) l in (r, with_rec w rec)).
    by destruct (run_last f (bt_rec w) l) as [r rec].
Qed.

Definition with_binary_mode (c : client) (b : bool) : client :=
  mkClient (charset_info c) (delimiter c) (is_user_specify_delimiter c) b (disable_comands c) (disable_command_count c).

#[global] Instance batch_client : Client batch := {|
  aborted := fun _ => false;
  named_cmds := fun _ => false;
  opt_binary_mode := fun _ => false;
  is_sqlblanklines_oracle := fun _ => true;
  exit_status := bt_exit;
  set_exit_status := fun e w => mkBatch (bt_rec w) e (bt_line w);
  set_query_start_line := fun n w => mkBatch (bt_rec w) (bt_exit w) n;
  set_real_binary_mode := fun b w =>
    with_rec w (mkRecorder (with_vars (r_session (bt_rec w)) (with_binary_mode (vars (r_session (bt_rec w))) b)) (r_sent (bt_rec w)));
  run_oracle := fun w b _ => (CMD_STATE_UNKNOW, w, b);
  echo_line := fun _ w => w;
  remember_line := fun _ w => w
|}.

Definition batch_plain (keep : bool) (w : batch) : Prop := sample_plain keep (bt_rec w).

Lemma batch_sample_mode keep : batch_mode (sample_mode keep) (batch_plain keep).
Proof.
  split; try done.
  - split.
    + intros w Hw. by apply (plain_session _ _ (sample_in_mode keep)).
    + intros w b Hw. pose proof (plain_go _ _ (sample_in_mode keep) (bt_rec w) b Hw) as Hg. cbn in Hg |- *.
      by case_bool_decide.
  - intros w Hw. cbn. by rewrite Hw.
  - intros w b Hw. cbn. by case_bool_decide.
  - intros w Hw. cbn. unfold batch_plain, sample_plain in *. cbn. rewrite Hw. done.
Qed.

(** A client with comments, the default, and one with --skip-comments. *)
Definition new_batch (keep : bool) : batch := mkBatch (fresh_recorder keep) 0 0.

(** A script of two lines and a half. *)
Definition sample_script : list (list token) :=
  [map Plain (str "select ") ++ [Quoted "'"%chr [QChar ";"%chr]; Comment (str "k")]; [Plain "x"%chr; Delim []]; map Plain (str "y ")].

Definition sample_file : list Z :=
  UTF8_BOM ++ str "select ';'/*k*/" ++ [c_cr; c_nl] ++ str "x;" ++ [c_nl] ++ str "y ".

Definition sample_world (sent : list (list Z)) (last : list Z) (line : nat) : batch :=
  mkBatch (mkRecorder (mkSession new_client true false false false false last) sent) 1 line.

Definition sample_statement : list Z := str "select ';'/*k*/" ++ [c_nl] ++ str "x".

Lemma no_delimiter_word_check l :
  forallb (fun k => negb (is_delimiter_command (drop k l) (length (drop k l)))) (seq 0 (S (length l))) = true ->
  no_delimiter_word l.
Proof.
  intros H a b ->. rewrite forallb_forall in H. specialize (H (length a)). rewrite drop_app_length in H.
  apply negb_true_iff, H, in_seq. rewrite length_app. lia.
Qed.

Lemma sample_script_ok :
  script_ok (sample_mode true) (batch_plain true) 0 [] (sample_world [] [] 0)
    [UTF8_BOM ++ str "select ';'/*k*/"; str "x;"; str "y "] sample_script.
Proof.
  apply (script_ok_cons _ _ _ _ _ _ _ _ _ (mkStmt (str "select ';'/*k*/") true (sample_world [] [] 1)));
    [by repeat constructor|done| | |by vm_compute|by vm_compute| |].
  4: apply (script_ok_cons _ _ _ _ _ _ _ _ _ (mkStmt [] false (sample_world [sample_statement] sample_statement 1)));
    [by repeat constructor|done| | |by vm_compute|by vm_compute| |].
  7: apply (script_ok_cons _ _ _ _ _ _ _ _ _ (mkStmt (str "y ") false (sample_world [sample_statement] sample_statement 3)));
    [by repeat constructor|done| | |by vm_compute|by vm_compute| |done].
  all: try (repeat split; try (intros [? ?]; done); try done; by repeat constructor).
  1: repeat split; try (intros [? ?]; done); try done; try (by repeat constructor);
     (apply not_infix; [by repeat constructor|by repeat constructor|done]).
  all: try (intros _; split; [by apply no_delimiter_word_check|by vm_compute]).
Qed.

(** A script whose first statement is refused, and one that ends with QUIT. *)
Definition bad_script : list (list token) := [map Plain (str "bad") ++ [Delim []]; map Plain (str "y")].

Definition bad_file : list Z := str "bad;" ++ [c_nl] ++ str "y".

Lemma bad_script_ok : script_ok (sample_mode true) (batch_plain true) 0 [] (sample_world [] [] 0) [str "bad;"; str "y"] bad_script.
Proof.
  cbn [script_ok bad_script]. split_and!; [by repeat constructor|done|].
  replace (line_command _ _ _) with (@None (COMMANDS * list Z)) by (vm_compute; reflexivity). split_and!.
  - repeat split; try (intros [? ?]; done); try done; by repeat constructor.
  - repeat split.
  - replace (meanings _ _ _) with (inl ([], sample_world [str "bad"] (str "bad") 1) : list Z * batch + stmt (world := batch)) by (vm_compute; reflexivity). done.
Qed.

Definition quit_script : list (list token) := [map Plain (str "quit"); map Plain (str "y")].

Definition quit_file : list Z := str "quit" ++ [c_nl] ++ str "y".

Lemma quit_script_ok : script_ok (sample_mode true) (batch_plain true) 0 [] (sample_world [] [] 0) [str "quit"; str "y"] quit_script.
Proof.
  cbn [script_ok quit_script]. split_and!; [by repeat constructor|done|].
  destruct (line_command _ _ _) as [[com cmdstr]|] eqn:E; vm_compute in E; [|discriminate E]. injection E as <- <-. cbn [func].
  split; [done|]. intros Hr. by vm_compute in Hr.
Qed.

Lemma batch_script_executes_witness :
  (exists b src' i,
    Readline.batch_readline_init (Some Readline.S_OTHER) (2 ^ 30) = Some b
    /\ @read_and_execute _ _ _ _ (batch_source Readline.slow_read 40) 40 false (b, sample_file) [] false (new_batch true)
       = Some (0, src', i)
    /\ r_sent (bt_rec (i_world i)) = [sample_statement; str "y"])
  /\ (exists b src' i,
    Readline.batch_readline_init (Some Readline.S_OTHER) (2 ^ 30) = Some b
    /\ @read_and_execute _ _ _ _ (batch_source Readline.slow_read 40) 40 false (b, bad_file) [] false (new_batch true)
       = Some (1, src', i)
    /\ r_sent (bt_rec (i_world i)) = [str "bad"])
  /\ (exists b src' i,
    Readline.batch_readline_init (Some Readline.S_OTHER) (2 ^ 30) = Some b
    /\ @read_and_execute _ _ _ _ (batch_source Readline.slow_read 40) 40 false (b, quit_file) [] false (new_batch true)
       = Some (0, src', i)
    /\ r_sent (bt_rec (i_world i)) = []).
Proof.
  split; [|split].
  - destruct (batch_script_executes Readline.slow_read id (sample_mode true) (batch_plain true) sample_script sample_file (2 ^ 30) 40
      (new_batch true) (batch_sample_mode true)) as (b & src' & i & Hb & Hr & Hi).
    + intros w Hw. by apply (sample_good true).
    + done.
    + apply Readline.slow_read_spec.
    + lia.
    + by apply Z.leb_le.
    + by apply Nat.ltb_lt.
    + replace (Readline.file_lines false (id sample_file)) with [UTF8_BOM ++ str "select ';'/*k*/"; str "x;"; str "y "] by done. apply sample_script_ok.
    + exists b, src', i. split; [done|]. split; [rewrite Hr; by vm_compute|rewrite Hi; by vm_compute].
  - destruct (batch_script_executes Readline.slow_read id (sample_mode true) (batch_plain true) bad_script bad_file (2 ^ 30) 40
      (new_batch true) (batch_sample_mode true)) as (b & src' & i & Hb & Hr & Hi).
    + intros w Hw. by apply (sample_good true).
    + done.
    + apply Readline.slow_read_spec.
    + lia.
    + by apply Z.leb_le.
    + by apply Nat.ltb_lt.
    + replace (Readline.file_lines false (id bad_file)) with [str "bad;"; str "y"] by done. apply bad_script_ok.
    + exists b, src', i. split; [done|]. split; [rewrite Hr; by vm_compute|rewrite Hi; by vm_compute].
  - destruct (batch_script_executes Readline.slow_read id (sample_mode true) (batch_plain true) quit_script quit_file (2 ^ 30) 40
      (new_batch true) (batch_sample_mode true)) as (b & src' & i & Hb & Hr & Hi).
    + intros w Hw. by apply (sample_good true).
    + done.
    + apply Readline.slow_read_spec.
    + lia.
    + by apply Z.leb_le.
    + by apply Nat.ltb_lt.
    + replace (Readline.file_lines false (id quit_file)) with [str "quit"; str "y"] by done. apply quit_script_ok.
    + exists b, src', i. split; [done|]. split; [rewrite Hr; by vm_compute|rewrite Hi; by vm_compute].
Defined.

(** The lines of a script. *)
#[global] Instance typed_lines : Source (list (list Z)) := {|
  read := fun ls _ => match ls with [] => Some (None, []) | l :: ls' => Some (Some l, ls') end;
  line_truncated := fun _ => false;
  read_error := fun _ => false
|}.

Lemma typed_lines_feed ls : feeds false ls ls [].
Proof. induction ls as [|l ls IH]; [by apply feeds_end|]. by apply (feeds_line _ _ l ls). Qed.

Lemma quit_with_delimiter_is_sent_witness :
  exists src' i,
    read_and_execute 4 false [str "quit;"; str "y"] [] false (new_batch true) = Some (0, src', i)
    /\ r_sent (bt_rec (i_world i)) = [str "quit"].
Proof.
  destruct (quit_with_delimiter_is_sent (good := fun w => recorder_good (bt_rec w)) (sample_mode true) (batch_plain true) (map Plain (str "quit")) (str "quit")
    [str "y"] (new_batch true) [str "quit;"; str "y"] [] 4) as (src1 & i & Hr & Hi).
  - apply batch_sample_mode.
  - intros w Hw. by apply (sample_good true).
  - done.
  - intros w b l. by destruct w, l.
  - done.
  - split.
    + repeat split; try (intros [? ?]; done); try done; by repeat constructor.
    + split; [by repeat constructor|done].
    + split; [by repeat constructor|]. exists false. intros w. by vm_compute.
    + by vm_compute.
    + eexists _, _. split; [vm_compute; reflexivity|done].
  - by vm_compute.
  - done.
  - apply typed_lines_feed.
  - done.
  - by apply Nat.ltb_lt.
  - exists src1, i. split; [rewrite Hr; by vm_compute|rewrite Hi; by vm_compute].
Defined.

(** ** The loop ends *)

(** The rest of the program keeps the delimiter and the character set usable. *)
Class ClientLaws (world : Type) `{cl : Client world} (good : world -> Prop) := {
  good_exit_status : forall e w, good w -> good (set_exit_status e w);
  good_start_line : forall n w, good w -> good (set_query_start_line n w);
  good_binary_mode : forall b w, good w -> good (set_real_binary_mode b w);
  good_run_oracle : forall w b line, good w -> good (snd (fst (run_oracle w b line)));
  good_echo_line : forall line w, good w -> good (echo_line line w);
  good_remember_line : forall line w, good w -> good (remember_line line w)
}.

(** A source that comes to an end: every line it delivers makes it smaller. *)
Class FiniteSource (source : Type) `{Source source} (size : source -> nat) := {
  read_ends : forall src binary, exists line src', read src binary = Some (line, src')
    /\ (line <> None -> (size src' < size src)%nat)
}.

Section ends.
Context {world : Type} {good : world -> Prop} `{pl : ProgramLaws world good} `{cl : !Client world}.
Context `{laws : !ClientLaws world good}.
Context {source : Type} `{src_class : Source source} {size : source -> nat} `{fin : !FiniteSource source size}.

Definition outcome_good (o : outcome (world := world)) : Prop :=
  match o with Continue i | Stop i => good (i_world i) end.

Lemma run_line_ends interactive line truncated i : good (i_world i) ->
  exists o, run_line interactive line truncated i = Some o /\ outcome_good o.
Proof.
  intros Hg. unfold run_line. cbv zeta. destruct (if looks_for_command i then _ else _) as [[com cmdstr]|].
  - destruct (func com) as [f|]; [|by eexists]. eexists. split; [done|]. unfold run_command.
    pose proof (good_run f (i_world i) (i_buffer i) (Some cmdstr) Hg) as Hr.
    destruct (run _ _ _ _) as [[r w] b]. cbn [fst snd] in Hr. destruct (0 <? r); [done|].
    destruct (bool_decide _), interactive; cbn; try done; by apply good_remember_line.
  - destruct (add_line_total line truncated i Hg) as (quit & i' & -> & Hg'). destruct quit; by eexists.
Qed.

Lemma accept_line_ends interactive line truncated i : good (i_world i) ->
  exists o, accept_line interactive line truncated i = Some o /\ outcome_good o.
Proof.
  intros Hg. unfold accept_line. destruct (drops_statement line i); [by eexists|].
  destruct (_ && _); [|by apply run_line_ends].
  pose proof (good_run_oracle (i_world i) (i_buffer i) line Hg) as Hr.
  destruct (run_oracle _ _ _) as [[st w] b]. cbn [fst snd] in Hr. destruct st; [by apply run_line_ends|by eexists..].
Qed.

Lemma count_line_good n (i : input (world := world)) : good (i_world i) -> good (i_world (count_line n i)).
Proof. intros Hg. unfold count_line. destruct (bool_decide _); [by apply good_start_line|done]. Qed.

Lemma execute_lines_ends interactive fuel src n i : good (i_world i) -> (size src < fuel)%nat ->
  exists src' i', execute_lines fuel interactive src n i = Some (src', i') /\ good (i_world i').
Proof.
  revert src n i. induction fuel as [|fuel IH]; intros src n i Hg Hs; [lia|]. cbn [execute_lines].
  destruct (aborted _); [by eexists _, _|].
  destruct (read_ends src (real_binary_mode (vars (sess (i_world i))))) as (line & src1 & -> & Hlt).
  pose proof (count_line_good n i Hg) as Hc. destruct line as [line|].
  - destruct (if interactive then _ else _) as [line'|].
    + set (i1 := if interactive then _ else _).
      assert (Hi1 : good (i_world i1)) by (unfold i1; destruct interactive; [by apply good_echo_line|done]).
      destruct (accept_line_ends interactive line' (line_truncated src1) i1 Hi1) as ([i2|i2] & -> & Ho); [|by eexists _, _].
      apply IH; [done|]. specialize (Hlt ltac:(done)). lia.
    + eexists _, _. split; [done|]. by apply good_put_error, good_exit_status.
  - eexists _, _. split; [done|]. apply good_exit_status. by destruct interactive.
Qed.

End ends.

(** The client reaches the end of its input: for every source of finitely many
    lines, a script or a user who ends the session, and whatever the lines contain,
    the loop comes to its end and the client to an exit status, with the delimiter
    still usable, if the commands keep it usable. *)
Theorem read_and_execute_ends {world} {good : world -> Prop} `{pl : ProgramLaws world good} `{cl : !Client world}
    `{laws : !ClientLaws world good} {source} `{src_class : Source source} {size : source -> nat}
    `{fin : !FiniteSource source size}
    (interactive : bool) (src : source) (b : list Z) (pl_escape : bool) (w : world) (fuel : nat) :
  good w -> (size src < fuel)%nat ->
  exists status src' i, read_and_execute fuel interactive src b pl_escape w = Some (status, src', i) /\ good (i_world i).
Proof.
  intros Hg Hs. unfold read_and_execute.
  set (i := mkInput b 0 false pl_escape _).
  assert (Hi : good (i_world i)) by by apply good_binary_mode, good_exit_status.
  destruct (execute_lines_ends interactive fuel src 0 i Hi Hs) as (src' & i' & -> & Hi').
  eexists _, _, _. split; [done|]. cbn [with_world i_world]. apply good_binary_mode.
  destruct (negb interactive && (exit_status (i_world i') =? 0)); [|done]. unfold send_rest. destruct (bool_decide _); [done|].
  pose proof (good_run COM_GO (set_exit_status 1 (i_world i'))
    (remove_cntrl (charset_info (vars (sess (i_world i')))) (i_buffer i')) None (good_exit_status 1 _ Hi')) as Hr.
  destruct (run _ _ _ _) as [[r w1] b1]. cbn [fst snd] in Hr. cbn. destruct (r <=? 0); [by apply good_exit_status|done].
Qed.

#[global] Instance typed_lines_finite : FiniteSource (list (list Z)) length.
Proof. split. intros [|l ls] b; eexists _, _; (split; [done|]); [done|cbn; lia]. Qed.

#[global] Instance batch_client_laws : ClientLaws batch (fun w => recorder_good (bt_rec w)).
Proof. by split. Qed.

Lemma read_and_execute_ends_witness :
  exists status src' i,
    read_and_execute 4 true [str "select 1;"; str "delimiter //"; str "quit"] [] false (new_batch false) = Some (status, src', i)
    /\ recorder_good (bt_rec (i_world i)).
Proof.
  apply (read_and_execute_ends (good := fun w => recorder_good (bt_rec w)) (size := length) true
           [str "select 1;"; str "delimiter //"; str "quit"] [] false (new_batch false) 4); [apply new_recorder_good|cbn; lia].
Defined.
