(* ===== verification/Execute.v ===== *)
(** * Execution of statements (client/mysql.cc: put_info, reconnect,
    mysql_real_query_for_lazy, mysql_store_result_for_lazy, com_go, com_ego)

    A statement is sent to the server, again if the connection was lost, and
    its results are printed in the form that the options choose, each followed
    by a line about it.  The connector library and the opening of a connection
    are the class [Server]; the preparation of statements in Oracle mode, which
    other files model, and the list of warnings are parameters of [com_go]. *)

From Equations Require Import Equations.
From S2P Require Import Prelude.
From S2P Require Import CString.
From S2P Require Import Charset.
From S2P Require Import CommandArgs.
From S2P Require Import Connect.
From S2P Require Import Numbers.
From S2P Require Import NumFormat.
From S2P Require Import Output.
From S2P Require Import ReadExec.

(** ** Messages *)

Inductive INFO_TYPE := INFO_INFO | INFO_ERROR | INFO_RESULT.

#[global] Instance info_type_eq_dec : EqDecision INFO_TYPE.
Proof. solve_decision. Defined.

(** The streams of the program; [paged] is what a pager program gets. *)
Record console := mkConsole {
  stdout : list Z;
  stderr : list Z;
  paged : list Z;
  tee_on : bool;
  tee_file : list Z
}.

(** The options and variables that the functions below read. *)
Record options := mkOptions {
  batch : bool;
  ignore_errors : bool;
  verbose : nat;
  silent : nat;
  line_numbers : bool;
  opt_nobeep : bool;
  opt_nopager : bool;
  opt_reconnect : bool;
  opt_html : bool;
  opt_xml : bool;
  output_tables : bool;
  auto_vertical_output : bool;
  terminal_width : nat;
  column_types_flag : bool;
  show_warnings : bool;
  is_feedback_oracle : bool;
  feedback_int_oracle : Z
}.

Definition tee_out (s : list Z) (c : console) : console :=
  mkConsole (stdout c ++ s) (stderr c) (paged c) (tee_on c) (if tee_on c then tee_file c ++ s else tee_file c).

Definition tee_err (s : list Z) (c : console) : console :=
  mkConsole (stdout c) (stderr c ++ s) (paged c) (tee_on c) (if tee_on c then tee_file c ++ s else tee_file c).

Definition print_out (s : list Z) (c : console) : console :=
  mkConsole (stdout c ++ s) (stderr c) (paged c) (tee_on c) (tee_file c).

Definition print_err (s : list Z) (c : console) : console :=
  mkConsole (stdout c) (stderr c ++ s) (paged c) (tee_on c) (tee_file c).

(** [%d] and [%05d] *)
Definition dec (n : Z) : list Z := int10_to_str n (-10).

Definition dec5 (n : Z) : list Z := replicate (5 - length (dec n)) "0"%chr ++ dec n.

Definition is_dec (c : Z) : bool := ("0"%chr <=? c) && (c <=? "9"%chr).

(** Whether a message starts with a code like [ORA-00942: ]. *)
Definition trim_oracle_errmsg (s : list Z) : bool :=
  if (11 <? length s)%nat then
    let n := span (fun c => negb (c =? "-"%chr)) s in
    let tmp_str := drop n s in
    (n <? length s)%nat && (n <=? 5)%nat && (8 <? length tmp_str)%nat
    && is_dec (at_ tmp_str 1) && is_dec (at_ tmp_str 2) && is_dec (at_ tmp_str 3) && is_dec (at_ tmp_str 4)
    && is_dec (at_ tmp_str 5) && (at_ tmp_str 6 =? ":"%chr) && (at_ tmp_str 7 =? " "%chr)
  else false.

(** [query_start_line] and [file_name] of [status]. *)
Record place := mkPlace { query_start_line : Z; file_name : option (list Z) }.

Definition at_line (opt : options) (pl : place) : list Z :=
  if negb (query_start_line pl =? 0) && line_numbers opt then
    str " at line " ++ dec (query_start_line pl)
    ++ match file_name pl with Some f => str " in file: '" ++ f ++ str "'" | None => [] end
  else [].

Definition batch_error (opt : options) (pl : place) (s : list Z) (error : Z) (sqlstate : option (list Z)) (oracle_mode : bool) : list Z :=
  if oracle_mode && trim_oracle_errmsg s then s ++ [c_nl]
  else
    (if oracle_mode && negb (error =? 0) then str "ERROR-" ++ dec5 error ++ str ": "
     else
       str "ERROR"
       ++ (if negb (error =? 0) then
             match sqlstate with
             | Some st => str " " ++ dec error ++ str " (" ++ st ++ str ")"
             | None => str " " ++ dec error
             end
           else []))
    ++ at_line opt pl ++ str ": " ++ s ++ [c_nl].

Definition error_prefix (s : list Z) (error : Z) (sqlstate : option (list Z)) (oracle_mode : bool) : list Z :=
  if negb (error =? 0) then
    if oracle_mode && trim_oracle_errmsg s then []
    else if oracle_mode then str "ERROR-" ++ dec5 error ++ str ": "
    else
      match sqlstate with
      | Some st => str "ERROR " ++ dec error ++ str " (" ++ st ++ str "): "
      | None => str "ERROR " ++ dec error ++ str ": "
      end
  else str "ERROR: ".

Definition put_info (opt : options) (pl : place) (s : list Z) (info_type : INFO_TYPE) (error : Z) (sqlstate : option (list Z))
    (oracle_mode : bool) (c : console) : Z * console :=
  let is_error := bool_decide (info_type = INFO_ERROR) in
  if batch opt then
    if is_error then
      let c := print_err (batch_error opt pl s error sqlstate oracle_mode) c in
      (if negb (ignore_errors opt) then 1 else -1, c)
    else (0, if bool_decide (info_type = INFO_RESULT) && (1 <? verbose opt)%nat then tee_out (s ++ [c_nl]) c else c)
  else
    let c :=
      if (silent opt =? 0)%nat || is_error then
        if is_error then
          let c := if negb (opt_nobeep opt) then print_out [7] c else c in
          tee_err (s ++ [c_nl]) (tee_err (error_prefix s error sqlstate oracle_mode) c)
        else tee_out (s ++ [c_nl]) c
      else c in
    (if is_error then if ignore_errors opt then -1 else 1 else 0, c).

Definition put_message (opt : options) (pl : place) (s : list Z) (t : INFO_TYPE) (c : console) : Z * console :=
  put_info opt pl s t 0 None false c.

(** ** The server *)

(** A result of a statement: its columns and rows, if it has any, whether
    fetching it failed, and what the server says about it; [affected_rows] is
    nothing where the library returns all ones. *)
Record result := mkResult {
  table : option (list MYSQL_FIELD * list row);
  store_failed : bool;
  print_failed : bool;
  incomplete : bool;
  affected_rows : option Z;
  warning_count : Z;
  mysql_info : option (list Z)
}.

Definition CR_SERVER_GONE_ERROR : Z := 2006.

(** [send] is [mysql_real_query], true when it fails; [results] are the results
    of the last statement in the order in which [mysql_next_result] delivers
    them, and whether that ends with an error; [connect_again] is what
    [reconnect] does to connect and to fill the completion table. *)
Class Server (srv : Type) := {
  send : list Z -> srv -> bool * srv;
  mysql_errno : srv -> Z;
  mysql_error : srv -> list Z;
  mysql_sqlstate : srv -> list Z;
  in_oracle_mode : srv -> bool;
  results : srv -> list result * bool;
  is_connected : srv -> bool;
  connect_again : srv -> srv;
  db_dropped : srv -> bool;
  get_current_db : srv -> srv
}.

Section execute.
Context {srv : Type} `{Server srv} (opt : options) (pl : place).

Definition put_error (s : srv) (c : console) : Z * console :=
  put_info opt pl (mysql_error s) INFO_ERROR (mysql_errno s) (Some (mysql_sqlstate s)) (in_oracle_mode s) c.

Definition reconnect (s : srv) (c : console) : Z * srv * console :=
  let '(s, c) :=
    if opt_reconnect opt then
      (connect_again s, snd (put_message opt pl (str "No connection. Trying to reconnect...") INFO_INFO c))
    else (s, c) in
  if negb (is_connected s) then
    let '(r, c) := put_message opt pl (str "Can't connect to the server" ++ [c_nl]) INFO_ERROR c in (r, s, c)
  else (0, s, c).

(** The loop has no bound but its own test of [retry], which is what makes the
    recursion end. *)
Equations? query_loop (retry : nat) (q : list Z) (s : srv) (c : console) : Z * srv * console by wf (2 - retry)%nat lt :=
query_loop retry q s c :=
  let '(failed, s) := send q s in
  if negb failed then (0, s, c)
  else
    let '(error, c) := put_error s c in
    match sumbool_of_bool (negb (mysql_errno s =? CR_SERVER_GONE_ERROR) || (1 <? retry)%nat || negb (opt_reconnect opt)) with
    | left _ => (error, s, c)
    | right Hretry =>
        let '(r, s, c) := reconnect s c in
        if negb (r =? 0) then (error, s, c) else query_loop (S retry) q s c
    end.
Proof.
  apply orb_false_elim in Hretry as [[_ Hlt%Nat.ltb_ge]%orb_false_elim _]. lia.
Defined.

Definition mysql_real_query_for_lazy (q : list Z) (s : srv) (c : console) : Z * srv * console := query_loop 0 q s c.

Definition mysql_store_result_for_lazy (r : result) (s : srv) (c : console) : Z * console :=
  if store_failed r then match mysql_error s with [] => (0, c) | _ => put_error s c end else (0, c).

(** ** The results *)

(** [init_pager] and [end_pager] around the printing of a result. *)
Definition with_pager (f : out -> out) (n : num_state) (c : console) : num_state * console :=
  let o := f (mkOut (if opt_nopager opt then stdout c else paged c) (tee_on c) (tee_file c) n) in
  (nums o,
   if opt_nopager opt then mkConsole (pager o) (stderr c) (paged c) (tee_on c) (outfile o)
   else mkConsole (stdout c) (stderr c) (pager o) (tee_on c) (outfile o)).

End execute.

Section com_go.
Context `{Connector} {srv : Type} `{Server srv} (opt : options) (pl : place) (set : settings).

(** The form of a result; [vertical] is set by [com_ego]. *)
Definition print_form (vertical : bool) (statement : list Z) (fs : list MYSQL_FIELD) (rows : list row) : out -> out :=
  if opt_html opt then print_table_data_html set fs rows
  else if opt_xml opt then print_table_data_xml set statement fs rows
  else if vertical || (auto_vertical_output opt && (terminal_width opt <? get_result_width set fs)%nat)
  then print_table_data_vertically set fs rows
  else if negb (silent opt =? 0)%nat && (verbose opt <=? 2)%nat && negb (output_tables opt) then print_tab_data set fs rows
  else print_table_data set fs rows.

Definition counted (n : Z) (noun : string) : list Z := dec n ++ str " " ++ str noun ++ (if n =? 1 then [] else str "s").

(** Whether a result counts as an empty set. *)
Definition is_empty_set (rows : list row) : bool :=
  (length rows =? 0)%nat && negb (quick set) && negb (column_types_flag opt).

(** [buff] after a result. *)
Definition result_line (r : result) (time_text : list Z) : list Z :=
  match table r with
  | Some (_, rows) =>
      if is_empty_set rows then str "Empty set" else counted (Z.of_nat (length rows)) "row" ++ str " in set"
  | None =>
      match affected_rows r with
      | None => str "Query OK"
      | Some n => str "Query OK, " ++ counted n "row" ++ str " affected"
      end
  end
  ++ (if negb (warning_count r =? 0) then str ", " ++ counted (warning_count r) "warning" else [])
  ++ time_text.

(** Whether Oracle mode wants the line about a result. *)
Definition wants_feedback (r : result) : bool :=
  is_feedback_oracle opt && is_termout_oracle_enable set
  && ((feedback_int_oracle opt <=? 0)
      || match table r with
         | None => true
         | Some (_, rows) => (length rows =? 0)%nat || (feedback_int_oracle opt <=? Z.of_nat (length rows))
         end).

Definition put_result (s : list Z) (c : console) : console := snd (put_message opt pl s INFO_RESULT c).

(** The part of a turn of the loop that prints the table. *)
Definition print_result (vertical : bool) (statement : list Z) (r : result) (s : srv) (n : num_state) (c : console) (error : Z)
    : Z * num_state * console :=
  match table r with
  | None => (error, n, c)
  | Some (fs, rows) =>
      if is_empty_set rows then
        if opt_xml opt then
          let '(n, c) := with_pager opt (print_table_data_xml set statement fs rows) n c in (error, n, c)
        else (error, n, c)
      else
        let '(n, c) := with_pager opt (print_form vertical statement fs rows) n c in
        if print_failed r then let '(error, c) := put_error opt pl s c in (error, n, c) else (error, n, c)
  end.

(** The messages of a turn. *)
Definition put_result_lines (time_text : list Z) (r : result) (s : srv) (c : console) : console :=
  let line := result_line r time_text in
  let c := if in_oracle_mode s then if wants_feedback r then put_result line c else c else put_result line c in
  if is_termout_oracle_enable set then
    let c := match mysql_info r with Some i => put_result i c | None => c end in put_result [] c
  else c.

Definition show_result (vertical : bool) (statement time_text : list Z) (r : result) (s : srv) (n : num_state) (c : console) (error : Z)
    : Z * num_state * console :=
  let '(error, n, c) := print_result vertical statement r s n c error in
  let c := put_result_lines time_text r s c in
  if match table r with Some _ => incomplete r | None => false end
  then let '(error, c) := put_error opt pl s c in (error, n, c)
  else (error, n, c).

(** The loop over the results: the error, the last count of warnings, and
    whether the loop was left by [goto end]. *)
Fixpoint show_results (vertical : bool) (statement time_text : list Z) (rs : list result) (s : srv) (n : num_state) (c : console)
    (error warnings : Z) : Z * Z * bool * num_state * console :=
  match rs with
  | [] => (error, warnings, false, n, c)
  | r :: rs' =>
      let '(error, c) :=
        if quick set then if store_failed r then put_error opt pl s c else (error, c)
        else mysql_store_result_for_lazy opt pl r s c in
      if (if quick set then store_failed r else negb (error =? 0)) then (error, warnings, true, n, c)
      else
        let '(error, n, c) := show_result vertical statement time_text r s n c error in
        show_results vertical statement time_text rs' s n c error (warning_count r)
  end.

(** A row of [show warnings]: level, code and message. *)
Definition warning_line (r : row) : list Z :=
  let cell n := default (str "(null)") (default None (nth_error r n)) in
  cell 0%nat ++ str " (Code " ++ cell 1%nat ++ str "): " ++ cell 2%nat ++ [c_nl].

Definition print_warnings (s : srv) (n : num_state) (c : console) : srv * num_state * console :=
  let error := mysql_errno s in
  let '(failed, s, c) := mysql_real_query_for_lazy opt pl (str "show warnings") s c in
  if negb (failed =? 0) then (s, n, c)
  else
    match fst (results s) with
    | [] => (s, n, c)
    | r :: _ =>
        let '(failed, c) := mysql_store_result_for_lazy opt pl r s c in
        if negb (failed =? 0) then (s, n, c)
        else
          match table r with
          | Some (_, row1 :: rows) =>
              let code := digits_value 0 (default [] (default None (nth_error row1 1))) in
              if (length rows =? 0)%nat && (error =? code) then (s, n, c)
              else
                let '(n, c) := with_pager opt (tee (concat (map warning_line (row1 :: rows)))) n c in (s, n, c)
          | _ => (s, n, c)
          end
    end.

(** [top] lines of the statement, all of them for zero. *)
Fixpoint top_lines (top i : nat) (p : list Z) : list Z :=
  match p with
  | [] => []
  | c :: p' =>
      if c =? 0 then []
      else if (top =? 0)%nat || (i <? top)%nat then c :: top_lines top (if c =? c_nl then S i else i) p'
      else []
  end.

Definition is_space_nr (c : Z) : bool := (c =? " "%chr) || (c =? c_tab) || (c =? c_cr) || (c =? c_nl).

Definition print_error_sqlstr (buffer topN : list Z) (c : console) : console :=
  let top :=
    if strncaseeq 3 topN (str "top") && is_dec (at_ topN 3) then Z.to_nat (atoi (drop 3 topN)) else 5%nat in
  print_out (str "----------------------------" ++ [c_nl] ++ top_lines top 0 (skip_while is_space_nr buffer) ++ [c_nl; c_nl]) c.

(** ** [com_go] *)

(** The buffers of the client and what the statement acts on. *)
Record go := mkGo {
  buffer : list Z;
  old_buffer : list Z;
  last_execute_buffer : list Z;
  server : srv;
  numbers : num_state;
  con : console
}.

(** The variables that only [com_go] reads: the history, whether updates are
    skipped, and the option [--error-sql]. *)
Record go_options := mkGoOptions {
  last_session_mode : bool;
  add_to_history : bool;
  delimiter : list Z;
  is_pl_escape_sql : bool;
  skip_updates : bool;
  ob_error_top_str : option (list Z);
  dbms_serveroutput : bool
}.

Context (gopt : go_options).

(** [com_print] of the buffer. *)
Definition com_print (b : list Z) (c : console) : console :=
  let c := tee_out (str "--------------" ++ [c_nl]) c in
  let c := tee_out (cstr b) c in
  let c := if (length b =? 0)%nat || negb (at_ b (length b - 1) =? c_nl) then tee_out [c_nl] c else c in
  tee_out (str "--------------" ++ [c_nl; c_nl]) c.

(** What Oracle mode does with a statement before it is executed: nothing is
    left of a command of its own. *)
Context (oracle_prepare : list Z -> srv -> console -> option (list Z) * srv * console).

(** The output of DBMS_OUTPUT after a statement. *)
Context (call_dbms_get_line : Z -> srv -> console -> srv * console).

Definition prepare (b : list Z) (s : srv) (c : console) : option (list Z) * srv * console :=
  if last_session_mode gopt then oracle_prepare b s c
  else (Some b, s, if (0 <? verbose opt)%nat then com_print b c else c).

(** After the results: messages about errors and warnings. *)
Definition finish (g : go) (error warnings : Z) : Z * go :=
  let c := match ob_error_top_str gopt with
           | Some topN => if negb (error =? 0) then print_error_sqlstr (last_execute_buffer g) topN (con g) else con g
           | None => con g
           end in
  let '(s, n, c) :=
    if negb (in_oracle_mode (server g)) && show_warnings opt && ((1 <=? warnings) || negb (error =? 0))
    then print_warnings (server g) (numbers g) c else (server g, numbers g, c) in
  let s := if (error =? 0) && negb (batch opt) && db_dropped s then get_current_db s else s in
  let '(s, c) := if dbms_serveroutput gopt then call_dbms_get_line error s c else (s, c) in
  (error, mkGo (buffer g) (old_buffer g) (last_execute_buffer g) s n c).

(** The statement is sent and its results are shown. *)
Definition execute (vertical : bool) (elapsed : list Z) (b : list Z) (g : go) : Z * go :=
  let '(error, s, c) := mysql_real_query_for_lazy opt pl b (server g) (con g) in
  let statement :=
    if add_to_history gopt then
      b ++ (if vertical then str "\G" else if is_pl_escape_sql gopt then str "/" else delimiter gopt)
    else b in
  if negb (error =? 0) then finish (mkGo [] (old_buffer g) b s (numbers g) c) error 0
  else
    let time_text := if (3 <=? verbose opt)%nat || (silent opt =? 0)%nat then elapsed else [] in
    let '(rs, ends_in_error) := results s in
    let '(error, warnings, jumped, n, c) := show_results vertical statement time_text rs s (numbers g) c 0 0 in
    let '(error, c) := if negb jumped && ends_in_error then put_error opt pl s c else (error, c) in
    finish (mkGo [] (old_buffer g) b s n c) error warnings.

Definition set_statement : list Z := str "SET ".

Definition com_go (cs : CHARSET_INFO) (vertical : bool) (elapsed : list Z) (g : go) : Z * go :=
  let old := if negb (batch opt) then buffer g else old_buffer g in
  let b := remove_cntrl cs (buffer g) in
  if bool_decide (b = []) then
    let '(r, c) := if batch opt then (0, con g) else put_message opt pl (str "No query specified" ++ [c_nl]) INFO_ERROR (con g) in
    (r, mkGo b old (last_execute_buffer g) (server g) (numbers g) c)
  else
    match prepare b (server g) (con g) with
    | (None, s, c) => (0, mkGo [] old (last_execute_buffer g) s (numbers g) c)
    | (Some b, s, c) =>
        let '(lost, s, c) := if negb (is_connected s) then reconnect opt pl s c else (0, s, c) in
        if negb (lost =? 0) then
          (if opt_reconnect opt then -1 else 1, mkGo [] old (last_execute_buffer g) s (numbers g) c)
        else if skip_updates gopt && ((length b <? 4)%nat || negb (my_strnncoll cs b 4 set_statement 4 =? 0)) then
          (0, mkGo b old (last_execute_buffer g) s (numbers g)
                (snd (put_message opt pl (str "Ignoring query to other database") INFO_INFO c)))
        else execute vertical elapsed b (mkGo b old (last_execute_buffer g) s (numbers g) c)
    end.

Definition com_ego (cs : CHARSET_INFO) (elapsed : list Z) (g : go) : Z * go := com_go cs true elapsed g.

End com_go.

(** ** Result codes *)

(** An error is fatal exactly when errors are not ignored, in both modes. *)
Lemma put_info_code opt pl s t error st om c :
  fst (put_info opt pl s t error st om c)
  = if bool_decide (t = INFO_ERROR) then if ignore_errors opt then -1 else 1 else 0.
Proof. unfold put_info. destruct (batch opt), (bool_decide (t = INFO_ERROR)), (ignore_errors opt); done. Qed.

Lemma put_error_code {srv} `{Server srv} opt pl (s : srv) c :
  fst (put_error opt pl s c) = if ignore_errors opt then -1 else 1.
Proof. unfold put_error. by rewrite put_info_code. Qed.

(** ** A statement is sent again only after a lost connection *)

Section retry.
Context {srv : Type} `{Server srv} (opt : options) (pl : place) (q : list Z).

(** [k] sendings, of which all but the last one failed because the server was
    gone, each followed by a successful reconnect; the state in front of the
    last one. *)
Inductive sendings : nat -> srv -> srv -> Prop :=
  | sendings_one s : sendings 1 s s
  | sendings_more k s s' :
      fst (send q s) = true -> mysql_errno (snd (send q s)) = CR_SERVER_GONE_ERROR -> opt_reconnect opt = true ->
      is_connected (connect_again (snd (send q s))) = true ->
      sendings k (connect_again (snd (send q s))) s' -> sendings (S k) s s'.

Lemma reconnect_code s c : opt_reconnect opt = true ->
  let '(r, s', _) := reconnect opt pl s c in
  s' = connect_again s /\ (r = 0 <-> is_connected (connect_again s) = true).
Proof.
  intros Ho. unfold reconnect. rewrite Ho. destruct (is_connected (connect_again s)) eqn:E; cbn [negb]; [done|].
  pose proof (put_info_code opt pl (str "Can't connect to the server" ++ [c_nl]) INFO_ERROR 0 None false
    (snd (put_message opt pl (str "No connection. Trying to reconnect...") INFO_INFO c))) as Hr.
  unfold put_message. destruct (put_info opt pl _ INFO_ERROR 0 None false _) as [r c']. cbn [fst] in Hr.
  rewrite bool_decide_eq_true_2 in Hr by done. split; [done|]. by destruct (ignore_errors opt); subst r.
Qed.

(** Why a failed sending is the last one: it is the third, or the server was
    not gone, or reconnecting is off or fails. *)
Definition gives_up (retry : nat) (s : srv) : Prop :=
  (2 <= retry)%nat \/ mysql_errno (snd (send q s)) <> CR_SERVER_GONE_ERROR \/ opt_reconnect opt = false
  \/ is_connected (connect_again (snd (send q s))) = false.

Lemma query_loop_sendings retry s c : (retry <= 2)%nat ->
  let '(error, s', _) := query_loop opt pl retry q s c in
  exists k s1, (1 <= k <= 3 - retry)%nat /\ sendings k s s1
    /\ (error = 0 -> fst (send q s1) = false /\ s' = snd (send q s1))
    /\ (error <> 0 -> fst (send q s1) = true /\ gives_up (retry + k - 1) s1 /\ error = if ignore_errors opt then -1 else 1).
Proof.
  remember (2 - retry)%nat as n eqn:Hn. revert retry s c Hn. induction n as [n IH] using lt_wf_ind. intros retry s c Hn Hf.
  rewrite query_loop_equation_1. destruct (send q s) as [failed s2] eqn:Es. destruct failed; cbn [negb].
  2: { exists 1%nat, s. rewrite Es. cbn. split_and!; [lia|lia|constructor|done|done]. }
  pose proof (put_error_code opt pl s2 c) as Hc. destruct (put_error opt pl s2 c) as [error c2]. cbn in Hc.
  assert (Hstop : gives_up retry s -> forall s', exists k s1, (1 <= k <= 3 - retry)%nat /\ sendings k s s1
    /\ (error = 0 -> fst (send q s1) = false /\ s' = snd (send q s1))
    /\ (error <> 0 -> fst (send q s1) = true /\ gives_up (retry + k - 1) s1 /\ error = if ignore_errors opt then -1 else 1)).
  { intros Hg s'. exists 1%nat, s. rewrite Es. cbn. replace (retry + 1 - 1)%nat with retry by lia.
    split_and!; [lia|lia|constructor| |done]. intros ->. by destruct (ignore_errors opt). }
  unfold gives_up in Hstop at 1. rewrite Es in Hstop. cbn [snd] in Hstop.
  destruct (sumbool_of_bool _) as [E|E].
  - apply Hstop. apply orb_prop in E as [[E|E]%orb_prop|E]; [|apply Nat.ltb_lt in E|apply negb_true_iff in E; tauto].
    + apply negb_true_iff, Z.eqb_neq in E. tauto.
    + left. lia.
  - apply orb_false_elim in E as [[E1%negb_false_iff%Z.eqb_eq E2%Nat.ltb_ge]%orb_false_elim E3%negb_false_iff].
    pose proof (reconnect_code s2 c2 E3) as Hr. destruct (reconnect opt pl s2 c2) as [[r s3] c3]. destruct Hr as [-> Hr].
    destruct (Z.eqb_spec r 0) as [Er|Er]; cbn [negb].
    + specialize (IH (2 - S retry)%nat ltac:(lia) (S retry) (connect_again s2) c3 eq_refl ltac:(lia)).
      destruct (query_loop opt pl (S retry) q (connect_again s2) c3) as [[e s4] c4].
      destruct IH as (k & s1 & Hk & Hs & H1 & H2). exists (S k), s1. replace (retry + S k - 1)%nat with (S retry + k - 1)%nat by lia.
      split_and!; [lia|lia| |done|done].
      pose proof (sendings_more k s s1) as Hm. rewrite Es in Hm. apply Hm; try done. by apply Hr.
    + apply Hstop. right. right. right. destruct (is_connected _); [|done]. by apply proj2 in Hr; destruct Er; apply Hr.
Qed.
End retry.

(** C22. A statement is sent at least once and at most three times, and again
    exactly when the server was gone, automatic reconnecting is on and the
    connection has been opened again; the result is zero exactly when the last
    sending succeeded, and otherwise the code of a reported error. *)
Theorem statement_sent_again {srv} `{Server srv} (opt : options) (pl : place) (q : list Z) (s : srv) (c : console) :
  let '(error, s', _) := mysql_real_query_for_lazy opt pl q s c in
  exists k s1, (1 <= k <= 3)%nat /\ sendings opt q k s s1
    /\ (error = 0 -> fst (send q s1) = false /\ s' = snd (send q s1))
    /\ (error <> 0 -> fst (send q s1) = true /\ gives_up opt q (k - 1) s1 /\ error = if ignore_errors opt then -1 else 1).
Proof. apply (query_loop_sendings opt pl q 0 s c). lia. Qed.

(** ** The output of a statement in batch mode *)

Section batch.
Context `{Connector} {srv : Type} `{Server srv} (opt : options) (pl : place) (set : settings) (gopt : go_options).

(** The client reads a script and prints in the batch form. *)
Record batch_form : Prop := {
  bf_batch : batch opt = true;
  bf_verbose : verbose opt = 0%nat;
  bf_silent : (0 < silent opt)%nat;
  bf_pager : opt_nopager opt = true;
  bf_html : opt_html opt = false;
  bf_xml : opt_xml opt = false;
  bf_tables : output_tables opt = false;
  bf_vertical : auto_vertical_output opt = false;
  bf_types : column_types_flag opt = false;
  bf_warnings : show_warnings opt = false;
  bf_quick : quick set = false;
  bf_raw : opt_raw_data set = false;
  bf_termout : is_termout_oracle_enable set = true;
  bf_mode : last_session_mode gopt = false;
  bf_skip : skip_updates gopt = false;
  bf_dbms : dbms_serveroutput gopt = false
}.

(** A result that arrives without errors. *)
Record result_ok (r : result) : Prop := {
  ro_store : store_failed r = false;
  ro_print : print_failed r = false;
  ro_complete : incomplete r = false;
  ro_table : match table r with
             | Some (fs, rows) => Forall (as_text set) fs /\ fs <> [] /\ Forall (fun x => length x = length fs) rows
             | None => True
             end
}.

(** The text of a result and the values it stands for. *)
Definition result_text (r : result) : list Z :=
  match table r with
  | Some (fs, x :: rows) => tab_header set fs ++ tab_body set (x :: rows)
  | _ => []
  end.

Definition names_line (r : result) : list Z :=
  match table r with Some (fs, _ :: _) => tab_header set fs | _ => [] end.

Definition result_values (r : result) : list (list (list Z)) :=
  match table r with Some (_, rows) => map (map (default null_text)) rows | None => [] end.

Hypothesis Hb : batch_form.

Lemma put_result_batch s c : put_result opt pl s c = c.
Proof.
  unfold put_result, put_message, put_info. rewrite (bf_batch Hb), (bf_verbose Hb). done.
Qed.

Lemma put_result_lines_batch tt r (s : srv) c : put_result_lines opt pl set tt r s c = c.
Proof.
  unfold put_result_lines. rewrite (bf_termout Hb). destruct (mysql_info r); rewrite !put_result_batch; destruct (in_oracle_mode s); try done;
    by destruct (wants_feedback opt set r); rewrite ?put_result_batch.
Qed.

(** The streams after a text on the standard output. *)
Definition appended (text : list Z) (c c' : console) : Prop := stdout c' = stdout c ++ text /\ stderr c' = stderr c.

Lemma print_result_batch st r (s : srv) n c error : result_ok r ->
  exists n' c', print_result opt pl set false st r s n c error = (error, n', c') /\ appended (result_text r) c c'.
Proof.
  intros [_ Hp _ Ht]. unfold print_result, result_text. destruct (table r) as [[fs rows]|].
  2: { exists n, c. split; [done|]. split; [by rewrite app_nil_r|done]. }
  unfold is_empty_set. rewrite (bf_quick Hb), (bf_types Hb), (bf_xml Hb). destruct rows as [|x rows]; cbn [length Nat.eqb andb negb].
  { exists n, c. split; [done|]. split; [by rewrite app_nil_r|done]. }
  destruct Ht as (Hf & Hne & Hr). unfold with_pager, print_form.
  rewrite Hp, (bf_html Hb), (bf_xml Hb), (bf_vertical Hb), (bf_tables Hb), (bf_pager Hb), (bf_verbose Hb). cbn [orb andb negb Nat.leb].
  replace (silent opt =? 0)%nat with false by (symmetry; apply Nat.eqb_neq; pose proof (bf_silent Hb); lia). cbn [negb andb].
  eexists _, _. split; [reflexivity|]. split; [|done]. cbn [stdout].
  rewrite print_tab_data_text by (done || apply Hb). done.
Qed.

Lemma show_results_batch st tt rs (s : srv) : Forall result_ok rs -> forall n c w,
  exists w' n' c', show_results opt pl set false st tt rs s n c 0 w = (0, w', false, n', c')
    /\ appended (concat (map result_text rs)) c c'.
Proof.
  intros Hrs. induction Hrs as [|r rs Hr _ IH]; intros n c w.
  { exists w, n, c. split; [done|]. split; [by rewrite app_nil_r|done]. }
  cbn [show_results]. rewrite (bf_quick Hb). unfold mysql_store_result_for_lazy. rewrite (ro_store _ Hr). cbn [Z.eqb negb].
  unfold show_result. destruct (print_result_batch st r s n c 0 Hr) as (n1 & c1 & -> & H1 & H2). rewrite put_result_lines_batch.
  replace (match table r with Some _ => incomplete r | None => false end) with false
    by (rewrite (ro_complete _ Hr); by destruct (table r)).
  destruct (IH n1 c1 (warning_count r)) as (w' & n' & c' & -> & H3 & H4). exists w', n', c'. split; [done|].
  split; [|congruence]. rewrite H3, H1. cbn [map concat]. by rewrite <-app_assoc.
Qed.

Lemma com_go_batch_text cs prep dbms elapsed (g : go (srv := srv)) :
  remove_cntrl cs (buffer g) <> [] -> is_connected (server g) = true ->
  let b := remove_cntrl cs (buffer g) in
  let s := snd (send b (server g)) in
  fst (send b (server g)) = false -> Forall result_ok (fst (results s)) -> snd (results s) = false ->
  exists n' c', com_go opt pl set gopt prep dbms cs false elapsed g = (0, mkGo [] (old_buffer g) b s n' c')
    /\ appended (concat (map result_text (fst (results s)))) (con g) c'.
Proof.
  intros Hne Hc b s Hs Hr He. unfold com_go. fold b. rewrite bool_decide_eq_false_2 by done.
  unfold prepare. rewrite (bf_mode Hb), (bf_verbose Hb), (bf_skip Hb), (bf_batch Hb), Hc. cbn [Nat.ltb Nat.leb negb Z.eqb andb].
  unfold execute, mysql_real_query_for_lazy. cbn [server con numbers old_buffer]. rewrite query_loop_equation_1.
  assert (Hsend : send b (server g) = (false, s)) by (unfold s; rewrite <-Hs; by destruct (send b (server g))).
  rewrite Hsend. cbn [negb Z.eqb]. destruct (results s) as [rs e] eqn:Ers. cbn [fst snd] in *. subst e.
  match goal with |- context [show_results opt pl set false ?st ?tt rs s _ _ _ _] =>
    destruct (show_results_batch st tt rs s Hr (numbers g) (con g) 0) as (w' & n' & c' & -> & Ha) end.
  cbn [negb andb]. unfold finish. rewrite (bf_warnings Hb), (bf_dbms Hb), (bf_batch Hb).
  cbn [server con numbers buffer old_buffer last_execute_buffer Z.eqb negb]. rewrite andb_false_r. cbn [andb].
  exists n', c'. split; [|done]. by destruct (ob_error_top_str gopt).
Qed.

Definition result_body (r : result) : list Z :=
  match table r with Some (_, x :: rows) => tab_body set (x :: rows) | _ => [] end.

Lemma result_text_split r : result_text r = names_line r ++ result_body r.
Proof. unfold result_text, names_line, result_body. by destruct (table r) as [[fs [|x rows]]|]. Qed.

Lemma read_result_body r : plain_multibyte (charset_info set) -> result_ok r -> read_batch (result_body r) = result_values r.
Proof.
  intros Hcs [_ _ _ Ht]. unfold result_body, result_values. destruct (table r) as [[fs [|x rows]]|]; [done| |done].
  destruct Ht as (_ & Hne & Hr). apply (read_tab_body set (length fs)); [done|destruct fs; [done|cbn; lia]|done].
Qed.

End batch.

(** C3. What a script gets to see of a statement: when the statement is sent
    and its results arrive without errors, [com_go] sends exactly the
    statement without the control characters at its end, once, returns zero
    with an empty buffer, and prints nothing but, for every result in order,
    the line of its column names and a text that reads back as exactly its
    values; the error output is untouched. *)
Theorem com_go_batch_output `{Connector} {srv} `{Server srv} (opt : options) (pl : place) (set : settings) (gopt : go_options)
    prep dbms (cs : CHARSET_INFO) (elapsed : list Z) (g : go (srv := srv)) :
  batch_form opt set gopt -> plain_multibyte (charset_info set) ->
  remove_cntrl cs (buffer g) <> [] -> is_connected (server g) = true ->
  let b := remove_cntrl cs (buffer g) in
  let s := snd (send b (server g)) in
  let rs := fst (results s) in
  fst (send b (server g)) = false -> Forall (result_ok set) rs -> snd (results s) = false ->
  exists bodies g', com_go opt pl set gopt prep dbms cs false elapsed g = (0, g')
    /\ (buffer g', last_execute_buffer g', server g') = ([], b, s)
    /\ stdout (con g') = stdout (con g) ++ concat (zip_with app (map (names_line set) rs) bodies)
    /\ stderr (con g') = stderr (con g)
    /\ map read_batch bodies = map result_values rs.
Proof.
  intros Hb Hcs Hne Hc b s rs Hs Hr He.
  destruct (com_go_batch_text opt pl set gopt Hb cs prep dbms elapsed g Hne Hc Hs Hr He) as (n' & c' & -> & Ho & Hx).
  fold b in Ho. fold s in Ho. fold rs in Ho. exists (map (result_body set) rs). eexists. split; [reflexivity|]. cbn [con buffer last_execute_buffer server].
  split_and!; [done| |done|].
  - rewrite Ho. do 2 f_equal. clear. induction rs as [|r rs IH]; [done|]. cbn [map zip_with]. by rewrite IH, result_text_split.
  - rewrite map_map. apply map_ext_Forall. eapply Forall_impl; [exact Hr|]. intros r Hok. by apply read_result_body.
Qed.

(** A server that answers every statement with two results and keeps what it
    is sent. *)
Definition two_results : list result :=
  [mkResult (Some ([text_column "x" 3], [[Some (str "a")]; [None]])) false false false None 0 None;
   mkResult None false false false (Some 1) 0 None].

#[global] Instance log_server : Server (list (list Z)) := {
  send q s := (false, s ++ [q]);
  mysql_errno _ := 0;
  mysql_error _ := [];
  mysql_sqlstate _ := [];
  in_oracle_mode _ := false;
  results _ := (two_results, false);
  is_connected _ := true;
  connect_again s := s;
  db_dropped _ := false;
  get_current_db s := s
}.

Definition batch_options : options :=
  mkOptions true false 0 1 true true true true false false false false 80 false false true 0.

Definition plain_go_options : go_options := mkGoOptions false false (str ";") false false None false.

Definition one_statement : go (srv := list (list Z)) :=
  mkGo (str "select 1" ++ [c_nl]) [] [] [] (num_start 10) (mkConsole [] [] [] false []).

Lemma com_go_batch_output_witness :
  let con := plain_connector in
  exists bodies g',
    com_go batch_options (mkPlace 1 None) default_settings plain_go_options (fun b s c => (Some b, s, c)) (fun _ s c => (s, c))
      my_charset_latin1 false [] one_statement = (0, g')
    /\ (buffer g', last_execute_buffer g', server g') = ([], str "select 1", [str "select 1"])
    /\ stdout (Execute.con g') = [] ++ concat (zip_with app [str "x" ++ [c_nl]; []] bodies)
    /\ stderr (Execute.con g') = []
    /\ map read_batch bodies = [[[str "a"]; [str "NULL"]]; []].
Proof.
  intros con.
  pose proof (com_go_batch_output batch_options (mkPlace 1 None) default_settings plain_go_options
    (fun b s c => (Some b, s, c)) (fun _ s c => (s, c)) my_charset_latin1 [] one_statement) as Ho.
  apply Ho.
  - by split; try done; apply Nat.ltb_lt.
  - done.
  - discriminate.
  - reflexivity.
  - reflexivity.
  - repeat constructor; cbn; try done.
  - reflexivity.
Defined.
