(* ===== verification/Session.v ===== *)
(** * Commands of the session (client/mysql.cc: tee, pager, prompt and the like)

    The global variables of the client that are not part of a larger structure
    are kept in one map by their names, numbers and strings; the streams are
    those of [Execute].  A character array holds a C string that is shorter than
    the array; a copy that does not fit is undefined, [None]. *)

From stdpp Require Import base list numbers strings gmap.
From S2P Require Import Prelude CString Charset Readline GetOpt Connect Execute.
Open Scope Z_scope.

Definition FN_REFLEN : nat := 512.

(** [closed] are the tee files that are no longer open, with what was appended to
    them. *)
Record client := mkClient {
  globals : gmap string val;
  con : console;
  line_buff : option LINE_BUFFER;
  charset_info : CHARSET_INFO;
  closed : list (list Z * list Z)
}.

Definition with_globals (c : client) g : client := mkClient g (con c) (line_buff c) (charset_info c) (closed c).
Definition with_con (c : client) x : client := mkClient (globals c) x (line_buff c) (charset_info c) (closed c).

Definition num (v : string) (c : client) : Z := match globals c !! v with Some (VNum z) => z | _ => 0 end.
Definition ptr (v : string) (c : client) : option (list Z) := match globals c !! v with Some (VStr p) => p | _ => None end.
Definition arr (v : string) (c : client) : list Z := default [] (ptr v c).

Definition set_num (v : string) (z : Z) (c : client) : client := with_globals c (<[v := VNum z]> (globals c)).
Definition set_ptr (v : string) (p : option (list Z)) (c : client) : client := with_globals c (<[v := VStr p]> (globals c)).

(** [strmov] to an array of a size, and [strmake_buf]. *)
Definition strmov (v : string) (size : nat) (s : list Z) (c : client) : option client :=
  if (length s <? size)%nat then Some (set_ptr v (Some s) c) else None.

Definition strmake_buf (v : string) (size : nat) (s : list Z) (c : client) : client := set_ptr v (Some (strmake s (size - 1))) c.

Definition tee_fprintf (s : list Z) (c : client) : client := with_con c (tee_out s (con c)).
Definition printf (s : list Z) (c : client) : client := with_con c (print_out s (con c)).

(** The options as the functions of [Execute] read them. *)
Definition options_of (c : client) : options :=
  mkOptions (negb (num "batch" c =? 0)) (negb (num "ignore_errors" c =? 0)) (Z.to_nat (num "verbose" c)) (Z.to_nat (num "opt_silent" c))
    (negb (num "line_numbers" c =? 0)) (negb (num "opt_nobeep" c =? 0)) (negb (num "opt_nopager" c =? 0)) (negb (num "opt_reconnect" c =? 0))
    (negb (num "opt_html" c =? 0)) (negb (num "opt_xml" c =? 0)) (negb (num "output_tables" c =? 0)) (negb (num "auto_vertical_output" c =? 0))
    (Z.to_nat (num "terminal_width" c)) (negb (num "column_types_flag" c =? 0)) (negb (num "show_warnings" c =? 0))
    (negb (num "is_feedback_oracle" c =? 0)) (num "feedback_int_oracle" c).

(** Messages outside of a file. *)
Definition say (s : list Z) (t : INFO_TYPE) (c : client) : Z * client :=
  let '(r, x) := put_message (options_of c) (mkPlace 0 None) s t (con c) in (r, with_con c x).

(** ** The tee file *)

Definition end_tee (c : client) : client :=
  let x := con c in
  set_ptr "OUTFILE" None
    (mkClient (globals c) (mkConsole (stdout x) (stderr x) (paged x) false []) (line_buff c) (charset_info c)
       (closed c ++ [(arr "OUTFILE" c, tee_file x)])).

Section files.
(** Whether a file can be opened for appending. *)
Variable my_fopen : list Z -> bool.

Definition init_tee (file_name : list Z) (c : client) : client :=
  let c := if tee_on (con c) then end_tee c else c in
  if negb (my_fopen file_name) then tee_fprintf (str "Error logging to file '" ++ file_name ++ str "'" ++ [c_nl]) c
  else
    let c := strmake_buf "outfile" FN_REFLEN file_name (set_ptr "OUTFILE" (Some file_name) c) in
    let c := tee_fprintf (str "Logging to file '" ++ file_name ++ str "'" ++ [c_nl]) c in
    let x := con c in with_con c (mkConsole (stdout x) (stderr x) (paged x) true (tee_file x)).

(** The loop that removes blanks and control characters at the end. *)
Fixpoint trim_end (cs : CHARSET_INFO) (rev_s : list Z) : list Z :=
  match rev_s with c :: r => if my_isspace cs c || my_iscntrl cs c then trim_end cs r else rev_s | [] => [] end.

Definition trimmed (cs : CHARSET_INFO) (s : list Z) : list Z := rev (trim_end cs (rev s)).

(** [strchr(s, ' ')] *)
Fixpoint from_space (s : list Z) : option (list Z) :=
  match s with [] => None | c :: s' => if c =? " "%chr then Some s else from_space s' end.

Definition com_tee (line : list Z) (c : client) : Z * client :=
  let cs := charset_info c in
  let line := skip_while (my_isspace cs) line in
  let use param :=
    let file_name := trimmed cs (strmake (skip_while (my_isspace cs) param) (FN_REFLEN - 1)) in
    if bool_decide (file_name = []) then (0, printf (str "No outfile specified!" ++ [c_nl]) c) else (0, init_tee file_name c) in
  match from_space line with
  | Some param => use param
  | None =>
      if bool_decide (arr "outfile" c = []) then (0, printf (str "No previous outfile available, you must give a filename!" ++ [c_nl]) c)
      else if tee_on (con c) then (0, tee_fprintf (str "Currently logging to file '" ++ arr "outfile" c ++ str "'" ++ [c_nl]) c)
      else use (arr "outfile" c)
  end.

End files.

Definition com_notee (c : client) : Z * client :=
  let c := if tee_on (con c) then end_tee c else c in (0, tee_fprintf (str "Outfile disabled." ++ [c_nl]) c).

(** ** The pager *)

Definition com_pager (line : list Z) (c : client) : option (Z * client) :=
  let cs := charset_info c in
  if negb (num "batch" c =? 0) then Some (0, c)
  else
    let param := skip_while (my_isspace cs) <$> from_space (skip_while (my_isspace cs) line) in
    let finish c := let c := set_num "opt_nopager" 0 c in Some (0, tee_fprintf (str "PAGER set to '" ++ arr "pager" c ++ str "'" ++ [c_nl]) c) in
    match param with
    | Some (p :: ps) =>
        let pager_name := trimmed cs (strmake (p :: ps) (FN_REFLEN - 1)) in
        c ← strmov "pager" FN_REFLEN pager_name c; c ← strmov "default_pager" FN_REFLEN pager_name c; finish c
    | _ =>
        if num "default_pager_set" c =? 0 then
          let c := set_num "opt_nopager" 1 (tee_fprintf (str "Default pager wasn't set, using stdout." ++ [c_nl]) c) in
          c ← strmov "pager" FN_REFLEN (str "stdout") c; Some (0, set_ptr "PAGER" (Some (str "stdout")) c)
        else c ← strmov "pager" FN_REFLEN (arr "default_pager" c) c; finish c
    end.

Definition com_nopager (c : client) : option (Z * client) :=
  c ← strmov "pager" FN_REFLEN (str "stdout") c;
  Some (0, tee_fprintf (str "PAGER set to stdout" ++ [c_nl]) (set_ptr "PAGER" (Some (str "stdout")) (set_num "opt_nopager" 1 c))).

(** ** Switches *)

Definition com_quit (c : client) : Z * client := (1, set_num "exit_status" 0 c).

Definition com_warnings (c : client) : Z * client := (0, snd (say (str "Show warnings enabled.") INFO_INFO (set_num "show_warnings" 1 c))).

Definition com_nowarnings (c : client) : Z * client := (0, snd (say (str "Show warnings disabled.") INFO_INFO (set_num "show_warnings" 0 c))).
