(* ===== verification/Prompt.v ===== *)
(** * The prompt (client/mysql.cc: construct_prompt, com_prompt)

    Before every line that is read from the terminal the client writes its
    prompt, in which sequences of a backslash and a letter stand for parts of
    the session.  What the connection and the clock say is a record; the name of
    the user is asked from the server. *)

From stdpp Require Import base list numbers strings gmap.
From S2P Require Import Prelude CString Charset Numbers CommandArgs GetOpt Connect Execute Session.
Open Scope Z_scope.

Definition PROMPT_CHAR : Z := "\"%chr.

Definition day_names : list (list Z) := [str "Sun"; str "Mon"; str "Tue"; str "Wed"; str "Thu"; str "Fri"; str "Sat"].
Definition month_names : list (list Z) :=
  [str "Jan"; str "Feb"; str "Mar"; str "Apr"; str "May"; str "Jun"; str "Jul"; str "Aug"; str "Sep"; str "Oct"; str "Nov"; str "Dec"].

(** [struct tm] and the text of [ctime]. *)
Record tm := mkTm { tm_sec : Z; tm_min : Z; tm_hour : Z; tm_wday : Z; tm_mon : Z; tm_year : Z; ctime : list Z }.

(** The connection as the prompt sees it. *)
Record connection := mkConnection {
  connected : bool;
  mysql_get_server_info : list Z;
  mysql_get_server_name : list Z;
  mysql_get_host_info : list Z;
  mysql_host : list Z;
  mysql_port : Z;
  mysql_unix_socket : option (list Z);
  gethostname : option (list Z)
}.

Section prompt.
Context {srv : Type}.

(** The query for the name of the user: [None] if it fails or has no row, and
    otherwise the value, which may be NULL. *)
Variable ask_user : srv -> option (option (list Z)) * srv.

(** The variables that change: the text so far, the counter, the two names of
    the user and the name of the host. *)
Record prompt_state := mkPrompt {
  processed_prompt : list Z;
  prompt_counter : Z;
  full_username : option (list Z);
  part_username : option (list Z);
  hostname : list Z;
  server : srv
}.

Definition append (s : list Z) (p : prompt_state) : prompt_state :=
  mkPrompt (processed_prompt p ++ s) (prompt_counter p) (full_username p) (part_username p) (hostname p) (server p).

(** The number is converted in an array of 16 characters. *)
Definition add_int_to_prompt (toadd : Z) (p : prompt_state) : option prompt_state :=
  let buffer := int10_to_str (int32 toadd) 10 in
  if (length buffer <? 16)%nat then Some (append buffer p) else None.

(** [strtok(s, c)] for one separator. *)
Fixpoint strtok (s : list Z) (sep : Z) : option (list Z) :=
  match s with
  | [] => None
  | c :: s' => if c =? sep then strtok s' sep else Some (take (span (fun c => negb (c =? sep)) s) s)
  end.

Definition init_username (p : prompt_state) : option prompt_state :=
  let '(answer, s) := ask_user (server p) in
  let p := mkPrompt (processed_prompt p) (prompt_counter p) (full_username p) (part_username p) (hostname p) s in
  match answer with
  | None => Some p
  | Some cell =>
      full ← cell; part ← strtok full "@"%chr;
      Some (mkPrompt (processed_prompt p) (prompt_counter p) (Some full) (Some part) (hostname p) s)
  end.

Definition or_else (a b : option (list Z)) (d : list Z) : list Z := match a with Some s => s | None => default d b end.

(** Two digits. *)
Definition add_two (n : Z) (p : prompt_state) : option prompt_state := add_int_to_prompt n (if n <? 10 then append (str "0") p else p).

Context (c : client) (m : connection) (t : tm).

Definition contains (s t : list Z) : bool := match strstr s t with Some _ => true | None => false end.

Definition add_host (letter : Z) (p : prompt_state) : prompt_state :=
  let prompt := if connected m then mysql_get_host_info m else str "not_connected" in
  if contains prompt (str "Localhost") || contains prompt (str "localhost ") then
    if letter =? "h"%chr then append (str "localhost") p
    else if negb (bool_decide (hostname p = [])) then append (hostname p) p
    else match gethostname m with
    | Some h => append h (mkPrompt (processed_prompt p) (prompt_counter p) (full_username p) (part_username p) h (server p))
    | None => append (str "gethostname(2) failed") p
    end
  else append (take (strcend prompt " "%chr) prompt) p.

(** The part behind the last slash. *)
Definition base_name (s : list Z) : list Z :=
  let n := span (fun c => negb (c =? "/"%chr)) (rev s) in if (n <? length s)%nat then drop (length s - n) s else s.

Definition add_port (p : prompt_state) : option prompt_state :=
  if negb (connected m) then Some (append (str "not_connected") p)
  else
    let host_info := mysql_get_host_info m in
    if contains host_info (str "memory") then Some (append (mysql_host m) p)
    else match mysql_unix_socket m with
    | None => add_int_to_prompt (mysql_port m) p
    | Some s => if contains host_info (str "TCP/IP") then add_int_to_prompt (mysql_port m) p else Some (append (base_name s) p)
    end.

Definition with_user (p : prompt_state) : option prompt_state :=
  match full_username p with None => init_username p | Some _ => Some p end.

(** A sequence: its letter and what follows it, which only an unknown letter
    shows. *)
Definition sequence (x : Z) (rest : list Z) (p : prompt_state) : option prompt_state :=
  let say s := Some (append s p) in
  let eq ch := x =? ch in
  if eq "c"%chr then
    let n := (prompt_counter p + 1) mod 2 ^ 32 in
    add_int_to_prompt n (mkPrompt (processed_prompt p) n (full_username p) (part_username p) (hostname p) (server p))
  else if eq "v"%chr then say (if connected m then mysql_get_server_info m else str "not_connected")
  else if eq "d"%chr then say (default (str "(none)") (ptr "current_db" c))
  else if eq "N"%chr then say (if connected m then mysql_get_server_name m else str "unknown")
  else if eq "h"%chr || eq "H"%chr then Some (add_host x p)
  else if eq "p"%chr then add_port p
  else if eq "U"%chr then p ← with_user p; Some (append (or_else (full_username p) (ptr "current_user" c) (str "(unknown)")) p)
  else if eq "u"%chr then p ← with_user p; Some (append (or_else (part_username p) (ptr "current_user" c) (str "(unknown)")) p)
  else if eq PROMPT_CHAR then say [PROMPT_CHAR]
  else if eq "n"%chr then say [c_nl]
  else if eq " "%chr || eq "_"%chr then say (str " ")
  else if eq "R"%chr then add_two (tm_hour t) p
  else if eq "r"%chr then add_two (let h := tm_hour t mod 12 in if h =? 0 then 12 else h) p
  else if eq "m"%chr then add_two (tm_min t) p
  else if eq "y"%chr then add_two (Z.rem (tm_year t) 100) p
  else if eq "Y"%chr then add_int_to_prompt (tm_year t + 1900) p
  else if eq "D"%chr then d ← strtok (ctime t) c_nl; say d
  else if eq "s"%chr then add_two (tm_sec t) p
  else if eq "w"%chr then d ← day_names !! Z.to_nat (tm_wday t); say d
  else if eq "P"%chr then say (if tm_hour t <? 12 then str "am" else str "pm")
  else if eq "o"%chr then add_int_to_prompt (tm_mon t + 1) p
  else if eq "O"%chr then d ← month_names !! Z.to_nat (tm_mon t); say d
  else if eq "'"%chr then say (str "'")
  else if eq 34 then say [34]
  else if eq "S"%chr then say (str ";")
  else if eq "t"%chr then say [9]
  else if eq "l"%chr then say (arr "delimiter_str" c)
  else if eq "T"%chr then
    let tenant := fst (get_tenant_clust_name (arr "current_user" c) 256 0) in
    if (length tenant <? 256)%nat then say (if bool_decide (tenant = []) then str "(none)" else tenant) else None
  else if eq "C"%chr then
    let clust := snd (get_tenant_clust_name (arr "current_user" c) 0 256) in
    if (length clust <? 256)%nat then say (if bool_decide (clust = []) then str "(none)" else clust) else None
  else say (x :: rest).

Fixpoint prompt_loop (current_prompt : list Z) (p : prompt_state) : option prompt_state :=
  match current_prompt with
  | [] => Some p
  | ch :: rest =>
      if negb (ch =? PROMPT_CHAR) then prompt_loop rest (append [ch] p)
      else match rest with
      | [] => Some p
      | x :: rest' => p ← sequence x rest' p; prompt_loop rest' p
      end
  end.

Definition construct_prompt (p : prompt_state) : option prompt_state :=
  prompt_loop (arr "current_prompt" c) (mkPrompt [] (prompt_counter p) (full_username p) (part_username p) (hostname p) (server p)).

End prompt.

Definition com_prompt {srv} (line : list Z) (c : client) (p : @prompt_state srv) : Z * client * prompt_state :=
  let p := mkPrompt (processed_prompt p) 0 (full_username p) (part_username p) (hostname p) (server p) in
  match from_space line with
  | None =>
      let c := set_ptr "current_prompt" (ptr "default_prompt" c) c in
      (0, tee_fprintf (str "Returning to default PROMPT of " ++ arr "default_prompt" c ++ [c_nl]) c, p)
  | Some s =>
      let c := set_ptr "current_prompt" (Some (drop 1 s)) c in
      (0, tee_fprintf (str "PROMPT set to '" ++ arr "current_prompt" c ++ str "'" ++ [c_nl]) c, p)
  end.

(** ** What a prompt shows *)

(** A character, a sequence with its letter, a sequence whose letter has no
    meaning, or a backslash at the end. *)
Inductive item :=
| Lit (c : Z)
| Seq (x : Z)
| Other (x : Z) (rest : list Z)
| Last.

(** The letters of the manual page, and those that it does not mention. *)
Definition letters : list Z :=
  str "cDdhlmnOoPpRrSstUuvwYy_ '" ++ [34; PROMPT_CHAR] ++ str "HNTC".

Fixpoint parse (s : list Z) : list item :=
  match s with
  | [] => []
  | c :: rest =>
      if negb (c =? PROMPT_CHAR) then Lit c :: parse rest
      else match rest with
      | [] => [Last]
      | x :: rest' => (if bool_decide (x ∈ letters) then Seq x else Other x rest') :: parse rest'
      end
  end.

Definition two (n : Z) : list Z := ["0"%chr + n / 10; "0"%chr + n mod 10].

Record tm_ok (t : tm) : Prop := {
  ok_sec : 0 <= tm_sec t < 61;
  ok_min : 0 <= tm_min t < 60;
  ok_hour : 0 <= tm_hour t < 24;
  ok_wday : 0 <= tm_wday t < 7;
  ok_mon : 0 <= tm_mon t < 12;
  ok_year : 0 <= tm_year t < 8100
}.

Lemma short_number n : 0 <= n < 2 ^ 31 -> (length (int10_to_str n 10) < 16)%nat.
Proof.
  intros Hn. assert (Hi : int64 n) by (unfold int64; lia). destruct (sign_and_value_spec n 10 Hi) as [Heq Hrange].
  unfold int10_to_str. rewrite Heq. destruct (first_digit_wrapped (fun d => "0"%chr + d) 10 (printed_value n 10)) as (ds & Hds & ->); [lia..|].
  change (printed_sign n 10) with (@nil Z). cbn [app]. rewrite length_map. destruct Hds as (Hne & Hds & Hv & H0).
  destruct (Z.eq_dec (deref ds) 0) as [Hz|Hz]; [rewrite (H0 Hz); cbn; lia|].
  pose proof (positional_lower 10 ds ltac:(lia) Hds Hne Hz) as Hl. assert (printed_value n 10 = n) as Hp by (unfold printed_value, u64; apply Z.mod_small; lia).
  assert (Z.of_nat (length ds - 1) < 10); [|lia]. apply (Z.pow_lt_mono_r_iff 10); lia.
Qed.

Lemma two_digits : forallb (fun n => bool_decide ((if n <? 10 then str "0" else []) ++ int10_to_str n 10 = two n)) (map Z.of_nat (seq 0 100)) = true.
Proof. vm_compute. reflexivity. Qed.

Section shows.
Context {srv : Type} (ask_user : srv -> option (option (list Z)) * srv) (c : client) (m : connection) (t : tm).
Context (full part date host : list Z).
Implicit Types (p : @prompt_state srv).

Definition host_word : list Z := let s := if connected m then mysql_get_host_info m else str "not_connected" in take (strcend s " "%chr) s.

Definition is_local : bool :=
  let s := if connected m then mysql_get_host_info m else str "not_connected" in contains s (str "Localhost") || contains s (str "localhost ").

Definition port_text : list Z :=
  if negb (connected m) then str "not_connected"
  else if contains (mysql_get_host_info m) (str "memory") then mysql_host m
  else match mysql_unix_socket m with
       | Some s => if contains (mysql_get_host_info m) (str "TCP/IP") then int10_to_str (mysql_port m) 10 else base_name s
       | None => int10_to_str (mysql_port m) 10
       end.

Definition or_none (s : list Z) : list Z := if bool_decide (s = []) then str "(none)" else s.

(** The meaning of each sequence; [n] is the number of the prompt. *)
Definition meaning (n : Z) : list (Z * list Z) :=
  [("c"%chr, int10_to_str n 10); ("D"%chr, date); ("d"%chr, default (str "(none)") (ptr "current_db" c));
   ("h"%chr, if is_local then str "localhost" else host_word); ("l"%chr, arr "delimiter_str" c); ("m"%chr, two (tm_min t)); ("n"%chr, [c_nl]);
   ("O"%chr, nth (Z.to_nat (tm_mon t)) month_names []); ("o"%chr, int10_to_str (tm_mon t + 1) 10);
   ("P"%chr, if tm_hour t <? 12 then str "am" else str "pm"); ("p"%chr, port_text); ("R"%chr, two (tm_hour t));
   ("r"%chr, two ((tm_hour t + 11) mod 12 + 1)); ("S"%chr, str ";"); ("s"%chr, two (tm_sec t)); ("t"%chr, [9]);
   ("U"%chr, full); ("u"%chr, part); ("v"%chr, if connected m then mysql_get_server_info m else str "not_connected");
   ("w"%chr, nth (Z.to_nat (tm_wday t)) day_names []); ("Y"%chr, int10_to_str (1900 + tm_year t) 10); ("y"%chr, two (tm_year t mod 100));
   ("_"%chr, str " "); (" "%chr, str " "); ("'"%chr, str "'"); (34, [34]); (PROMPT_CHAR, [PROMPT_CHAR]);
   ("H"%chr, if is_local then host else host_word); ("N"%chr, if connected m then mysql_get_server_name m else str "unknown");
   ("T"%chr, or_none (fst (get_tenant_clust_name (arr "current_user" c) 256 0)));
   ("C"%chr, or_none (snd (get_tenant_clust_name (arr "current_user" c) 0 256)))].

Definition lookup_letter (x : Z) (l : list (Z * list Z)) : list Z := match find (fun e => e.1 =? x) l with Some e => e.2 | None => [] end.

(** The text of a prompt, and the number of the prompts after it. *)
Fixpoint shows (items : list item) (n : Z) : list Z * Z :=
  match items with
  | [] => ([], n)
  | Lit ch :: items' => let '(s, n) := shows items' n in (ch :: s, n)
  | Seq x :: items' =>
      let n := if x =? "c"%chr then n + 1 else n in
      let '(s, n') := shows items' n in (lookup_letter x (meaning n) ++ s, n')
  | Other x rest :: items' => let '(s, n) := shows items' n in (x :: rest ++ s, n)
  | Last :: _ => ([], n)
  end.

(** What the session knows: the clock is right, the user's name has been asked
    for, the name of this host can be found out and the names of tenant and
    cluster fit into their arrays. *)
Record known p : Prop := {
  kn_tm : tm_ok t;
  kn_date : ctime t = date ++ [c_nl] /\ date <> [] /\ c_nl ∉ date;
  kn_full : full_username p = Some full;
  kn_part : part_username p = Some part;
  kn_host : gethostname m = Some host /\ (hostname p = [] \/ hostname p = host);
  kn_port : 0 <= mysql_port m < 2 ^ 31;
  kn_tenant : (length (fst (get_tenant_clust_name (arr "current_user" c) 256 0)) < 256)%nat;
  kn_clust : (length (snd (get_tenant_clust_name (arr "current_user" c) 0 256)) < 256)%nat;
  kn_counter : 0 <= prompt_counter p
}.

Lemma add_int_ok n p : 0 <= n < 2 ^ 31 -> add_int_to_prompt n p = Some (append (int10_to_str n 10) p).
Proof.
  intros Hn. unfold add_int_to_prompt. assert (int32 n = n) as -> by (unfold int32; rewrite Z.mod_small; lia).
  by rewrite (proj2 (Nat.ltb_lt _ _) (short_number n Hn)).
Qed.

Lemma append_app a b p : append b (append a p) = append (a ++ b) p.
Proof. unfold append. cbn. by rewrite app_assoc. Qed.

Lemma add_two_ok n p : 0 <= n < 100 -> add_two n p = Some (append (two n) p).
Proof.
  intros Hn. unfold add_two. pose proof two_digits as H. rewrite forallb_forall in H. specialize (H n).
  rewrite bool_decide_eq_true in H. rewrite <-H by (apply in_map_iff; exists (Z.to_nat n); split; [lia|apply in_seq; lia]).
  rewrite add_int_ok by lia. generalize (int10_to_str n 10). intros s. destruct (n <? 10); [by rewrite append_app|done].
Qed.

Lemma strtok_date p : known p -> strtok (ctime t) c_nl = Some date.
Proof.
  intros Hk. destruct (kn_date p Hk) as (-> & Hne & Hno). pose proof (span_until c_nl date [] Hno) as Hs.
  destruct date as [|d ds]; [done|]. cbn [app strtok] in *. rewrite (proj2 (Z.eqb_neq d c_nl)) by set_solver.
  rewrite Hs. by rewrite app_comm_cons, take_app_length.
Qed.

Lemma known_append s p : known p -> known (append s p).
Proof. intros []. by constructor. Qed.

Lemma add_host_h p : add_host m "h"%chr p = append (if is_local then str "localhost" else host_word) p.
Proof. unfold add_host, is_local, host_word. by destruct (contains _ _ || contains _ _). Qed.

Lemma add_host_H p : known p -> exists p', add_host m "H"%chr p = append (if is_local then host else host_word) p'
  /\ known p' /\ prompt_counter p' = prompt_counter p /\ processed_prompt p' = processed_prompt p.
Proof.
  intros Hk. unfold add_host, is_local, host_word. destruct (kn_host p Hk) as [Hg Hh].
  destruct (contains _ _ || contains _ _); [|by exists p]. cbn [Z.eqb Pos.eqb].
  case_bool_decide as He; cbn [negb]; [|exists p; split_and!; try done; destruct Hh as [?| ->]; done].
  rewrite Hg. eexists. split; [done|]. split_and!; [|done..]. destruct Hk. constructor; try done. cbn. auto.
Qed.

Lemma add_port_ok p : known p -> add_port m p = Some (append port_text p).
Proof.
  intros Hk. pose proof (kn_port p Hk). unfold add_port, port_text. destruct (connected m); cbn [negb]; [|done].
  destruct (contains _ (str "memory")); [done|]. destruct (mysql_unix_socket m); [destruct (contains _ _); [|done]|]; by apply add_int_ok.
Qed.

Lemma twelve_hours h : 0 <= h < 24 -> (let r := h mod 12 in if r =? 0 then 12 else r) = (h + 11) mod 12 + 1.
Proof. intros. cbv zeta. destruct (Z.eqb_spec (h mod 12) 0); Z.div_mod_to_equations; lia. Qed.

Lemma nth_name (names : list (list Z)) i : 0 <= i < Z.of_nat (length names) -> names !! Z.to_nat i = Some (nth (Z.to_nat i) names []).
Proof. intros Hi. rewrite nth_lookup. destruct (lookup_lt_is_Some_2 names (Z.to_nat i)) as [y ->]; [lia|done]. Qed.

Lemma tenant_short p : known p -> (length (fst (get_tenant_clust_name (arr "current_user" c) 256 0)) <? 256)%nat = true.
Proof. intros Hk. apply Nat.ltb_lt, (kn_tenant p Hk). Qed.

Lemma clust_short p : known p -> (length (snd (get_tenant_clust_name (arr "current_user" c) 0 256)) <? 256)%nat = true.
Proof. intros Hk. apply Nat.ltb_lt, (kn_clust p Hk). Qed.

Lemma with_user_known p : known p -> with_user ask_user p = Some p.
Proof. intros Hk. unfold with_user. by rewrite (kn_full p Hk). Qed.

(** The letters other than [c] and [H] change nothing but the text. *)
Lemma sequence_fixed x rest p : known p -> x ∈ letters -> x <> "c"%chr -> x <> "H"%chr ->
  sequence ask_user c m t x rest p = Some (append (lookup_letter x (meaning (prompt_counter p))) p).
Proof.
  intros Hk Hx Hc HH. destruct (kn_tm p Hk).
  let l := eval vm_compute in letters in change letters with l in Hx.
  repeat (apply elem_of_cons in Hx as [->|Hx]); [..|by apply elem_of_nil in Hx]; try done;
    cbv [sequence lookup_letter meaning find fst snd Z.eqb Pos.eqb PROMPT_CHAR orb]; try done.
  - by rewrite (strtok_date p Hk).
  - by rewrite <-add_host_h.
  - apply add_two_ok; lia.
  - rewrite nth_name; [done|cbn; lia].
  - apply add_int_ok; lia.
  - by apply add_port_ok.
  - apply add_two_ok; lia.
  - change (add_two (let r := tm_hour t mod 12 in if r =? 0 then 12 else r) p = Some (append (two ((tm_hour t + 11) mod 12 + 1)) p)).
    rewrite twelve_hours by lia. apply add_two_ok. pose proof (Z.mod_pos_bound (tm_hour t + 11) 12). lia.
  - apply add_two_ok; lia.
  - rewrite with_user_known by done. cbn. by rewrite (kn_full p Hk).
  - rewrite with_user_known by done. cbn. by rewrite (kn_part p Hk).
  - rewrite nth_name; [done|cbn; lia].
  - rewrite Z.add_comm. apply add_int_ok; lia.
  - rewrite Z.rem_mod_nonneg by lia. apply add_two_ok. by apply Z.mod_pos_bound.
  - pose proof (tenant_short p Hk) as Hs. unfold fst in Hs. by rewrite Hs.
  - pose proof (clust_short p Hk) as Hs. unfold snd in Hs. by rewrite Hs.
Qed.

Definition next_number (x n : Z) : Z := if x =? "c"%chr then n + 1 else n.

Lemma sequence_shows x rest p : known p -> x ∈ letters -> prompt_counter p + 1 < 2 ^ 31 ->
  exists p', sequence ask_user c m t x rest p = Some (append (lookup_letter x (meaning (next_number x (prompt_counter p)))) p')
    /\ known p' /\ prompt_counter p' = next_number x (prompt_counter p) /\ processed_prompt p' = processed_prompt p.
Proof.
  intros Hk Hx Hc. pose proof (kn_counter p Hk). unfold next_number.
  destruct (Z.eqb_spec x "c"%chr) as [->|Hxc]; [|destruct (Z.eqb_spec x "H"%chr) as [->|HxH]].
  - unfold sequence. cbn [Z.eqb Pos.eqb]. rewrite Z.mod_small by lia. rewrite add_int_ok by lia. cbv [lookup_letter meaning find fst snd Z.eqb Pos.eqb]. eexists. split; [reflexivity|].
    split_and!; [|done..]. destruct Hk. constructor; try done. cbn. lia.
  - destruct (add_host_H p Hk) as (p' & Heq & Hp'). exists p'. split; [|done]. unfold sequence. cbn [Z.eqb Pos.eqb orb PROMPT_CHAR]. by rewrite Heq.
  - exists p. by rewrite sequence_fixed.
Qed.

Lemma sequence_other x rest p : x ∉ letters -> sequence ask_user c m t x rest p = Some (append (x :: rest) p).
Proof.
  intros Hx. assert (Hne : forall ch, ch ∈ letters -> (x =? ch) = false) by (intros ch Hch; apply Z.eqb_neq; intros ->; done).
  unfold sequence. rewrite !Hne by (apply (bool_decide_eq_true_1 _); vm_compute; reflexivity). done.
Qed.

Lemma prompt_loop_shows s p : known p -> prompt_counter p + Z.of_nat (length s) < 2 ^ 31 ->
  exists p', prompt_loop ask_user c m t s p = Some p'
    /\ processed_prompt p' = processed_prompt p ++ fst (shows (parse s) (prompt_counter p))
    /\ prompt_counter p' = snd (shows (parse s) (prompt_counter p)) /\ known p'.
Proof.
  revert p. induction s as [s IH] using (induction_ltof1 _ (@length Z)); unfold ltof in IH. intros p Hk Hc.
  destruct s as [|ch rest]; cbn [prompt_loop parse]; [exists p; cbn; by rewrite app_nil_r|]. cbn [length] in *.
  destruct (ch =? PROMPT_CHAR); cbn [negb].
  - destruct rest as [|x rest]; [exists p; cbn; by rewrite app_nil_r|]. cbn [length] in *. case_bool_decide as Hx; cbn [shows].
    + destruct (sequence_shows x rest p Hk Hx ltac:(lia)) as (p1 & -> & Hk1 & Hc1 & Ht1). cbn.
      destruct (IH rest ltac:(lia) (append (lookup_letter x (meaning (next_number x (prompt_counter p)))) p1)) as (p' & Hp' & Ht & Hn & Hk');
        [by apply known_append|cbn; rewrite Hc1; unfold next_number; destruct (x =? _); lia|].
      exists p'. cbn in Ht, Hn. rewrite Hc1 in Ht, Hn. fold (next_number x (prompt_counter p)).
      rewrite Hp', Ht, Hn, Ht1, <-app_assoc. destruct (shows _ _); done.
    + rewrite sequence_other by done. destruct (IH rest ltac:(lia) (append (x :: rest) p)) as (p' & Hp' & Ht & Hn & Hk');
        [by apply known_append|cbn; lia|]. exists p'. cbn in *. rewrite Hp', Ht, Hn, <-app_assoc. destruct (shows _ _); done.
  - destruct (IH rest ltac:(lia) (append [ch] p)) as (p' & Hp' & Ht & Hn & Hk'); [by apply known_append|cbn; lia|].
    exists p'. cbn in *. rewrite Hp', Ht, Hn, <-app_assoc. destruct (shows _ _); done.
Qed.

End shows.

(** C27. The prompt shows what it is made of: every character stands for itself
    and every sequence of a backslash and a letter for its meaning, the number
    of the prompt rising with each [\c]; but a sequence whose letter has no
    meaning shows the letter and all the rest of the prompt before the rest is
    shown as it should be. *)
Theorem construct_prompt_shows {srv : Type} (ask_user : srv -> option (option (list Z)) * srv) (c : client) (m : connection) (t : tm)
    (full part date host : list Z) (p : prompt_state) :
  known c m t full part date host p -> prompt_counter p + Z.of_nat (length (arr "current_prompt" c)) < 2 ^ 31 ->
  exists p', construct_prompt ask_user c m t p = Some p'
    /\ (processed_prompt p', prompt_counter p') = shows c m t full part date host (parse (arr "current_prompt" c)) (prompt_counter p).
Proof.
  intros Hk Hc. unfold construct_prompt.
  destruct (prompt_loop_shows ask_user c m t full part date host (arr "current_prompt" c)
    (mkPrompt [] (prompt_counter p) (full_username p) (part_username p) (hostname p) (server p))) as (p' & Hp' & Ht & Hn & _).
  - destruct Hk. by constructor.
  - done.
  - exists p'. split; [done|]. rewrite Ht, Hn. cbn [processed_prompt prompt_counter app]. by destruct (shows _ _ _ _ _ _ _ _ _).
Qed.

Definition clock : tm := mkTm 5 7 13 2 10 124 (str "Tue Nov 26 13:07:05 2024" ++ [c_nl]).
Definition link : connection :=
  mkConnection true (str "5.7.25") (str "OceanBase") (str "127.0.0.1 via TCP/IP") (str "127.0.0.1") 2881 None (Some (str "client1")).
Definition session : client :=
  set_ptr "current_prompt" (Some (str "\u@\h:\p [\d] \r:\m\P \c \q>"))
    (set_ptr "current_user" (Some (str "root@sys#ob")) (mkClient ∅ (mkConsole [] [] [] false []) None my_charset_latin1 [])).

(** The prompt of a session at its 42nd line. *)
Lemma construct_prompt_shows_witness :
  let p := mkPrompt [] 41 (Some (str "root@%")) (Some (str "root")) [] tt in
  exists p', construct_prompt (fun s => (None, s)) session link clock p = Some p'
    /\ processed_prompt p' = str "root@127.0.0.1:2881 [(none)] 01:07pm 42 q>>" /\ prompt_counter p' = 42.
Proof.
  intros p.
  destruct (construct_prompt_shows (fun s => (None, s)) session link clock (str "root@%") (str "root") (str "Tue Nov 26 13:07:05 2024") (str "client1") p)
    as (p' & Hp' & Hs).
  - constructor; try done; try (constructor; cbn; lia); try (cbn; lia); try (split; [done|by left]).
    + split_and!; [done..|]. apply (bool_decide_eq_true_1 _). vm_compute. reflexivity.
    + apply Nat.ltb_lt. vm_compute. reflexivity.
    + apply Nat.ltb_lt. vm_compute. reflexivity.
  - vm_compute. reflexivity.
  - exists p'. split; [done|]. assert (H : shows session link clock (str "root@%") (str "root") (str "Tue Nov 26 13:07:05 2024") (str "client1")
      (parse (arr "current_prompt" session)) (prompt_counter p) = (str "root@127.0.0.1:2881 [(none)] 01:07pm 42 q>>", 42)) by (vm_compute; reflexivity).
    rewrite H in Hs. by injection Hs.
Defined.
