(* ===== verification/Options.v ===== *)
(** * The options of the client (client/mysql.cc: my_long_options, get_one_option, get_options)

    The table of options, the function that the option parser calls for every
    option that it has found, and the beginning of the program up to the first
    connection.  The variables are the map of [Session]. *)

From stdpp Require Import base list numbers strings gmap.
From S2P Require Import Prelude CString Charset Numbers Typelib GetOpt GetOptHelp Readline Connect Execute Session.
Open Scope Z_scope.

#[global] Instance client_variables : Variables client := {
  get_var v c := default (VNum 0) (globals c !! v);
  set_var v x c := with_globals c (<[v := x]> (globals c));
  put_err m c := with_con c (print_err m (con c))
}.

(** ** The table *)

Definition options_client : list string :=
  ["OPT_CHARSETS_DIR"; "OPT_DEFAULT_CHARSET"; "OPT_PAGER"; "OPT_TEE"; "OPT_LOW_PRIORITY"; "OPT_AUTO_REPAIR"; "OPT_COMPRESS"; "OPT_DROP";
   "OPT_LOCKS"; "OPT_KEYWORDS"; "OPT_DELAYED"; "OPT_OPTIMIZE"; "OPT_FTB"; "OPT_LTB"; "OPT_ENC"; "OPT_O_ENC"; "OPT_ESC"; "OPT_TABLES";
   "OPT_MASTER_DATA"; "OPT_AUTOCOMMIT"; "OPT_AUTO_REHASH"; "OPT_LINE_NUMBERS"; "OPT_COLUMN_NAMES"; "OPT_CONNECT_TIMEOUT";
   "OPT_MAX_ALLOWED_PACKET"; "OPT_NET_BUFFER_LENGTH"; "OPT_SELECT_LIMIT"; "OPT_MAX_JOIN_SIZE"; "OPT_SSL_SSL"; "OPT_SSL_KEY"; "OPT_SSL_CERT";
   "OPT_SSL_CA"; "OPT_SSL_CAPATH"; "OPT_SSL_CIPHER"; "OPT_TLS_VERSION"; "OPT_SHUTDOWN_TIMEOUT"; "OPT_LOCAL_INFILE"; "OPT_DELETE_MASTER_LOGS";
   "OPT_COMPACT"; "OPT_PROMPT"; "OPT_IGN_LINES"; "OPT_TRANSACTION"; "OPT_MYSQL_PROTOCOL"; "OPT_FRM"; "OPT_SKIP_OPTIMIZATION"; "OPT_COMPATIBLE";
   "OPT_RECONNECT"; "OPT_DELIMITER"; "OPT_SECURE_AUTH"; "OPT_OPEN_FILES_LIMIT"; "OPT_SET_CHARSET"; "OPT_SERVER_ARG"; "OPT_STOP_POSITION";
   "OPT_START_DATETIME"; "OPT_STOP_DATETIME"; "OPT_SIGINT_IGNORE"; "OPT_HEXBLOB"; "OPT_ORDER_BY_PRIMARY"; "OPT_COUNT"; "OPT_FLUSH_TABLES";
   "OPT_TRIGGERS"; "OPT_MYSQL_ONLY_PRINT"; "OPT_MYSQL_LOCK_DIRECTORY"; "OPT_USE_THREADS"; "OPT_IMPORT_USE_THREADS"; "OPT_MYSQL_NUMBER_OF_QUERY";
   "OPT_IGNORE_DATABASE"; "OPT_IGNORE_TABLE"; "OPT_INSERT_IGNORE"; "OPT_SHOW_WARNINGS"; "OPT_DROP_DATABASE"; "OPT_TZ_UTC";
   "OPT_CREATE_SLAP_SCHEMA"; "OPT_MYSQLDUMP_SLAVE_APPLY"; "OPT_MYSQLDUMP_SLAVE_DATA"; "OPT_MYSQLDUMP_INCLUDE_MASTER_HOST_PORT"; "OPT_SLAP_CSV";
   "OPT_SLAP_CREATE_STRING"; "OPT_SLAP_AUTO_GENERATE_SQL_LOAD_TYPE"; "OPT_SLAP_AUTO_GENERATE_WRITE_NUM"; "OPT_SLAP_AUTO_GENERATE_ADD_AUTO";
   "OPT_SLAP_AUTO_GENERATE_GUID_PRIMARY"; "OPT_SLAP_AUTO_GENERATE_EXECUTE_QUERIES"; "OPT_SLAP_AUTO_GENERATE_SECONDARY_INDEXES";
   "OPT_SLAP_AUTO_GENERATE_UNIQUE_WRITE_NUM"; "OPT_SLAP_AUTO_GENERATE_UNIQUE_QUERY_NUM"; "OPT_SLAP_PRE_QUERY"; "OPT_SLAP_POST_QUERY";
   "OPT_SLAP_PRE_SYSTEM"; "OPT_SLAP_POST_SYSTEM"; "OPT_SLAP_COMMIT"; "OPT_SLAP_DETACH"; "OPT_SLAP_NO_DROP"; "OPT_MYSQL_REPLACE_INTO";
   "OPT_BASE64_OUTPUT_MODE"; "OPT_SERVER_ID"; "OPT_FIX_TABLE_NAMES"; "OPT_FIX_DB_NAMES"; "OPT_SSL_VERIFY_SERVER_CERT";
   "OPT_AUTO_VERTICAL_OUTPUT"; "OPT_DEBUG_INFO"; "OPT_DEBUG_CHECK"; "OPT_COLUMN_TYPES"; "OPT_ERROR_LOG_FILE"; "OPT_WRITE_BINLOG";
   "OPT_DUMP_DATE"; "OPT_INIT_COMMAND"; "OPT_PLUGIN_DIR"; "OPT_DEFAULT_AUTH"; "OPT_ABORT_SOURCE_ON_ERROR"; "OPT_CONFIG_ALL"; "OPT_REWRITE_DB";
   "OPT_REPORT_PROGRESS"; "OPT_SKIP_ANNOTATE_ROWS_EVENTS"; "OPT_SSL_CRL"; "OPT_SSL_CRLPATH"; "OPT_IGNORE_DATA"; "OPT_PRINT_ROW_COUNT";
   "OPT_PRINT_ROW_EVENT_POSITIONS"; "OPT_SHUTDOWN_WAIT_FOR_SLAVES"; "OPT_PROXY_MODE"; "OPT_INIT_SQL"; "OPT_OB_DISABLE_COMMANDS";
   "OPT_OB_SERVICE_NAME"; "OPT_OB_PROXY_USER"; "OPT_OB_SOCKET5_PROXY"; "OPT_OB_ERROR_SQL"; "OPT_MAX_CLIENT_OPTION"].

(** The number of an option in the enumeration. *)
Definition OPT (name : string) : Z := 256 + match list_find (eq name) options_client with Some (i, _) => Z.of_nat i | None => -256 end.

(** No option of the client has a typelib, a flag of the type or a variable of
    its own for the maximum. *)
Definition opt (name : list Z) (id : Z) (comment : list Z) (value : option var) (var_type : get_type) (arg_type : get_opt_arg_type)
    (def_value min_value max_value block_size : Z) : my_option :=
  mkOption name id (Some comment) value value [] var_type false false arg_type def_value min_value max_value block_size.

(** The file sslopt-longopts.h, which the table includes. *)
Definition sslopt_longopts : list my_option :=
  [opt (str "ssl") (OPT "OPT_SSL_SSL") (str "Enable SSL for connection (automatically enabled with other flags).") (Some "opt_use_ssl") GET_BOOL OPT_ARG 1 0 0 0;
   opt (str "ssl-ca") (OPT "OPT_SSL_CA") (str "CA file in PEM format (check OpenSSL docs, implies --ssl).") (Some "opt_ssl_ca") GET_STR REQUIRED_ARG 0 0 0 0;
   opt (str "ssl-capath") (OPT "OPT_SSL_CAPATH") (str "CA directory (check OpenSSL docs, implies --ssl).") (Some "opt_ssl_capath") GET_STR REQUIRED_ARG 0 0 0 0;
   opt (str "ssl-cert") (OPT "OPT_SSL_CERT") (str "X509 cert in PEM format (implies --ssl).") (Some "opt_ssl_cert") GET_STR REQUIRED_ARG 0 0 0 0;
   opt (str "ssl-cipher") (OPT "OPT_SSL_CIPHER") (str "SSL cipher to use (implies --ssl).") (Some "opt_ssl_cipher") GET_STR REQUIRED_ARG 0 0 0 0;
   opt (str "ssl-key") (OPT "OPT_SSL_KEY") (str "X509 key in PEM format (implies --ssl).") (Some "opt_ssl_key") GET_STR REQUIRED_ARG 0 0 0 0;
   opt (str "ssl-crl") (OPT "OPT_SSL_KEY") (str "Certificate revocation list (implies --ssl).") (Some "opt_ssl_crl") GET_STR REQUIRED_ARG 0 0 0 0;
   opt (str "ssl-crlpath") (OPT "OPT_SSL_KEY") (str "Certificate revocation list path (implies --ssl).") (Some "opt_ssl_crlpath") GET_STR REQUIRED_ARG 0 0 0 0;
   opt (str "tls-version") (OPT "OPT_TLS_VERSION") (str "TLS protocol version for secure connection.") (Some "opt_tls_version") GET_STR REQUIRED_ARG 0 0 0 0;
   opt (str "ssl-verify-server-cert") (OPT "OPT_SSL_VERIFY_SERVER_CERT") ((str "Verify server's " ++ [34] ++ str "Common Name" ++ [34] ++ str " in its cert against hostname used when connecting. This option is disabled by default.")) (Some "opt_ssl_verify_server_cert") GET_BOOL OPT_ARG 0 0 0 0].

(** The release build for Linux with SSL. *)
Definition my_long_options : list my_option :=
  [opt (str "help") "?"%chr (str "Display this help and exit.") None GET_NO_ARG NO_ARG 0 0 0 0;
   opt (str "help") "I"%chr (str "Synonym for -?") None GET_NO_ARG NO_ARG 0 0 0 0;
   opt (str "abort-source-on-error") (OPT "OPT_ABORT_SOURCE_ON_ERROR") (str "Abort 'source filename' operations in case of errors") (Some "batch_abort_on_error") GET_BOOL NO_ARG 0 0 0 0;
   opt (str "auto-rehash") (OPT "OPT_AUTO_REHASH") (str "Enable automatic rehashing. One doesn't need to use 'rehash' to get table and field completion, but startup and reconnecting may take a longer time. Disable with --disable-auto-rehash.") (Some "opt_rehash") GET_BOOL NO_ARG 1 0 0 0;
   opt (str "no-auto-rehash") "A"%chr (str "No automatic rehashing. One has to use 'rehash' to get table and field completion. This gives a quicker start of mysql and disables rehashing on reconnect.") None GET_NO_ARG NO_ARG 0 0 0 0;
   opt (str "auto-vertical-output") (OPT "OPT_AUTO_VERTICAL_OUTPUT") (str "Automatically switch to vertical output mode if the result is wider than the terminal width.") (Some "auto_vertical_output") GET_BOOL NO_ARG 0 0 0 0;
   opt (str "batch") "B"%chr (str "Don't use history file. Disable interactive behavior. (Enables --silent.)") None GET_NO_ARG NO_ARG 0 0 0 0;
   opt (str "binary-as-hex") 0 (str "Print binary data as hex") (Some "opt_binhex") GET_BOOL NO_ARG 0 0 0 0;
   opt (str "character-sets-dir") (OPT "OPT_CHARSETS_DIR") (str "Directory for character set files.") (Some "charsets_dir") GET_STR REQUIRED_ARG 0 0 0 0;
   opt (str "column-type-info") (OPT "OPT_COLUMN_TYPES") (str "Display column type information.") (Some "column_types_flag") GET_BOOL NO_ARG 0 0 0 0;
   opt (str "comments") "c"%chr (str "Comment stripping is deprecated. ") (Some "preserve_comments_invalid") GET_BOOL NO_ARG 0 0 0 0;
   opt (str "skip-comments") 0 (str "Preserve comments. Send comments to the server. The default is comments, disable with --skip-comments") (Some "skip_comments") GET_BOOL NO_ARG 0 0 0 0;
   opt (str "compress") "C"%chr (str "Use compression in server/client protocol.") (Some "opt_compress") GET_BOOL NO_ARG 0 0 0 0;
   opt (str "debug") "#"%chr (str "This is a non-debug version. Catch this and exit.") None GET_DISABLED OPT_ARG 0 0 0 0;
   opt (str "debug-check") (OPT "OPT_DEBUG_CHECK") (str "Check memory and open file usage at exit.") (Some "debug_check_flag") GET_BOOL NO_ARG 0 0 0 0;
   opt (str "debug-info") "T"%chr (str "Print some debug info at exit.") (Some "debug_info_flag") GET_BOOL NO_ARG 0 0 0 0;
   opt (str "database") "D"%chr (str "Database to use.") (Some "current_db") GET_STR_ALLOC REQUIRED_ARG 0 0 0 0;
   opt (str "default-character-set") (OPT "OPT_DEFAULT_CHARSET") (str "Set the default character set.") (Some "default_charset") GET_STR REQUIRED_ARG 0 0 0 0;
   opt (str "delimiter") (OPT "OPT_DELIMITER") (str "Delimiter to be used.") (Some "delimiter_str") GET_STR REQUIRED_ARG 0 0 0 0;
   opt (str "execute") "e"%chr (str "Execute command and quit. (Disables --force and history file.)") None GET_STR REQUIRED_ARG 0 0 0 0;
   opt (str "vertical") "E"%chr (str "Print the output of a query (rows) vertically.") (Some "vertical") GET_BOOL NO_ARG 0 0 0 0;
   opt (str "force") "f"%chr (str "Continue even if we get an SQL error. Sets abort-source-on-error to 0") (Some "ignore_errors") GET_BOOL NO_ARG 0 0 0 0;
   opt (str "named-commands") "G"%chr (str "Enable named commands. Named commands mean this program's internal commands; see mysql> help . When enabled, the named commands can be used from any line of the query, otherwise only from the first line, before an enter. Disable with --disable-named-commands. This option is disabled by default.") (Some "named_cmds") GET_BOOL NO_ARG 0 0 0 0;
   opt (str "ignore-spaces") "i"%chr (str "Ignore space after function names.") (Some "ignore_spaces") GET_BOOL NO_ARG 0 0 0 0;
   opt (str "init-command") (OPT "OPT_INIT_COMMAND") (str "SQL Command to execute when connecting to OceanBase server. Will automatically be re-executed when reconnecting.") (Some "opt_init_command") GET_STR REQUIRED_ARG 0 0 0 0;
   opt (str "local-infile") (OPT "OPT_LOCAL_INFILE") (str "Enable/disable LOAD DATA LOCAL INFILE.") (Some "opt_local_infile") GET_BOOL OPT_ARG 1 0 0 0;
   opt (str "no-beep") "b"%chr (str "Turn off beep on error.") (Some "opt_nobeep") GET_BOOL NO_ARG 0 0 0 0;
   opt (str "host") "h"%chr (str "Connect to host.") (Some "current_host") GET_STR_ALLOC REQUIRED_ARG 0 0 0 0;
   opt (str "html") "H"%chr (str "Produce HTML output.") (Some "opt_html") GET_BOOL NO_ARG 0 0 0 0;
   opt (str "xml") "X"%chr (str "Produce XML output.") (Some "opt_xml") GET_BOOL NO_ARG 0 0 0 0;
   opt (str "line-numbers") (OPT "OPT_LINE_NUMBERS") (str "Write line numbers for errors.") (Some "line_numbers") GET_BOOL NO_ARG 1 0 0 0;
   opt (str "skip-line-numbers") "L"%chr (str "Don't write line number for errors.") None GET_NO_ARG NO_ARG 0 0 0 0;
   opt (str "unbuffered") "n"%chr (str "Flush buffer after each query.") (Some "unbuffered") GET_BOOL NO_ARG 0 0 0 0;
   opt (str "column-names") (OPT "OPT_COLUMN_NAMES") (str "Write column names in results.") (Some "column_names") GET_BOOL NO_ARG 1 0 0 0;
   opt (str "skip-column-names") "N"%chr (str "Don't write column names in results.") None GET_NO_ARG NO_ARG 0 0 0 0;
   opt (str "sigint-ignore") (OPT "OPT_SIGINT_IGNORE") (str "Ignore SIGINT (CTRL-C).") (Some "opt_sigint_ignore") GET_BOOL NO_ARG 0 0 0 0;
   opt (str "one-database") "o"%chr (str "Ignore statements except those that occur while the default database is the one named at the command line.") None GET_NO_ARG NO_ARG 0 0 0 0;
   opt (str "pager") (OPT "OPT_PAGER") (str "Pager to use to display results. If you don't supply an option, the default pager is taken from your ENV variable PAGER. Valid pagers are less, more, cat [> filename], etc. See interactive help (\h) also. This option does not work in batch mode. Disable with --disable-pager. This option is disabled by default.") None GET_STR OPT_ARG 0 0 0 0;
   opt (str "password") "p"%chr (str "Password to use when connecting to server. If password is not given it's asked from the tty.") None GET_STR OPT_ARG 0 0 0 0;
   opt (str "port") "P"%chr (str "Port number to use for connection or 0 for default to, in order of preference, my.cnf, $MYSQL_TCP_PORT, /etc/services, built-in default (3306).") (Some "opt_mysql_port") GET_UINT REQUIRED_ARG 0 0 0 0;
   opt (str "progress-reports") (OPT "OPT_REPORT_PROGRESS") (str "Get progress reports for long running commands (like ALTER TABLE)") (Some "opt_progress_reports") GET_BOOL NO_ARG 1 0 0 0;
   opt (str "prompt") (OPT "OPT_PROMPT") (str "Set the command line prompt to this value.") (Some "current_prompt") GET_STR_ALLOC REQUIRED_ARG 0 0 0 0;
   opt (str "protocol") (OPT "OPT_MYSQL_PROTOCOL") (str "The protocol to use for connection (tcp, socket, pipe).") (Some "opt_protocol_type") GET_STR REQUIRED_ARG 0 0 0 0;
   opt (str "quick") "q"%chr (str "Don't cache result, print it row by row. This may slow down the server if the output is suspended. Doesn't use history file.") (Some "quick") GET_BOOL NO_ARG 0 0 0 0;
   opt (str "raw") "r"%chr (str "Write fields without conversion. Used with --batch.") (Some "opt_raw_data") GET_BOOL NO_ARG 0 0 0 0;
   opt (str "reconnect") (OPT "OPT_RECONNECT") (str "Reconnect if the connection is lost. Disable with --disable-reconnect. This option is enabled by default.") (Some "opt_reconnect") GET_BOOL NO_ARG 1 0 0 0;
   opt (str "silent") "s"%chr (str "Be more silent. Print results with a tab as separator, each row on new line.") None GET_NO_ARG NO_ARG 0 0 0 0;
   opt (str "socket") "S"%chr (str "The socket file to use for connection.") (Some "opt_mysql_unix_port") GET_STR_ALLOC REQUIRED_ARG 0 0 0 0]
  ++ sslopt_longopts
  ++ [opt (str "table") "t"%chr (str "Output in table format.") (Some "output_tables") GET_BOOL NO_ARG 0 0 0 0;
   opt (str "tee") (OPT "OPT_TEE") (str "Append everything into outfile. See interactive help (\h) also. Does not work in batch mode. Disable with --disable-tee. This option is disabled by default.") None GET_STR REQUIRED_ARG 0 0 0 0;
   opt (str "user") "u"%chr (str "User for login if not current user.") (Some "current_user") GET_STR_ALLOC REQUIRED_ARG 0 0 0 0;
   opt (str "safe-updates") "U"%chr (str "Only allow UPDATE and DELETE that uses keys.") (Some "safe_updates") GET_BOOL NO_ARG 0 0 0 0;
   opt (str "i-am-a-dummy") "U"%chr (str "Synonym for option --safe-updates, -U.") (Some "safe_updates") GET_BOOL NO_ARG 0 0 0 0;
   opt (str "verbose") "v"%chr (str "Write more. (-v -v -v gives the table output format).") None GET_NO_ARG NO_ARG 0 0 0 0;
   opt (str "version") "V"%chr (str "Output version information and exit.") None GET_NO_ARG NO_ARG 0 0 0 0;
   opt (str "wait") "w"%chr (str "Wait and retry if connection is down.") None GET_NO_ARG NO_ARG 0 0 0 0;
   opt (str "connect_timeout") (OPT "OPT_CONNECT_TIMEOUT") (str "Number of seconds before connection timeout.") (Some "opt_connect_timeout") GET_ULONG REQUIRED_ARG 0 0 (3600 * 12) 0;
   opt (str "max_allowed_packet") (OPT "OPT_MAX_ALLOWED_PACKET") (str "The maximum packet length to send to or receive from server.") (Some "opt_max_allowed_packet") GET_ULONG REQUIRED_ARG (16 * 1024 * 1024) 4096 (2 * 1024 * 1024 * 1024) 1024;
   opt (str "net_buffer_length") (OPT "OPT_NET_BUFFER_LENGTH") (str "The buffer size for TCP/IP and socket communication.") (Some "opt_net_buffer_length") GET_ULONG REQUIRED_ARG 16384 1024 (512 * 1024 * 1024) 1024;
   opt (str "select_limit") (OPT "OPT_SELECT_LIMIT") (str "Automatic limit for SELECT when using --safe-updates.") (Some "select_limit") GET_ULONG REQUIRED_ARG 1000 1 (2 ^ 64 - 1) 1;
   opt (str "max_join_size") (OPT "OPT_MAX_JOIN_SIZE") (str "Automatic limit for rows in a join when using --safe-updates.") (Some "max_join_size") GET_ULONG REQUIRED_ARG 1000000 1 (2 ^ 64 - 1) 1;
   opt (str "secure-auth") (OPT "OPT_SECURE_AUTH") (str "Refuse client connecting to server if it uses old (pre-4.1.1) protocol.") (Some "opt_secure_auth") GET_BOOL NO_ARG 0 0 0 0;
   opt (str "server-arg") (OPT "OPT_SERVER_ARG") (str "Send embedded server this as a parameter.") None GET_STR REQUIRED_ARG 0 0 0 0;
   opt (str "show-warnings") (OPT "OPT_SHOW_WARNINGS") (str "Show warnings after every statement.") (Some "show_warnings") GET_BOOL NO_ARG 0 0 0 0;
   opt (str "plugin_dir") (OPT "OPT_PLUGIN_DIR") (str "Directory for client-side plugins.") (Some "opt_plugin_dir") GET_STR REQUIRED_ARG 0 0 0 0;
   opt (str "default_auth") (OPT "OPT_DEFAULT_AUTH") (str "Default authentication client-side plugin to use.") (Some "opt_default_auth") GET_STR REQUIRED_ARG 0 0 0 0;
   opt (str "binary-mode") 0 (str "By default, ASCII '\0' is disallowed and '\r\n' is translated to '\n'. This switch turns off both features, and also turns off parsing of all clientcommands except \C and DELIMITER, in non-interactive mode (for input piped to mysql or loaded using the 'source' command). This is necessary when processing output from mysqlbinlog that may contain blobs.") (Some "opt_binary_mode") GET_BOOL NO_ARG 0 0 0 0;
   opt (str "connect-expired-password") 0 (str "Notify the server that this client is prepared to handle expired password sandbox mode even if --batch was specified.") (Some "opt_connect_expired_password") GET_BOOL NO_ARG 0 0 0 0;
   opt (str "proxy-mode") (OPT "OPT_PROXY_MODE") (str "Proxy mode is not support getObServerVersion.") (Some "is_proxymode") GET_BOOL NO_ARG 0 0 0 0;
   opt (str "ob-disable-commands") (OPT "OPT_OB_DISABLE_COMMANDS") (str "disable commands. example: --ob-disable-commands connect,conn") (Some "ob_disable_commands_str") GET_STR REQUIRED_ARG 0 0 0 0;
   opt (str "ob-service-name") (OPT "OPT_OB_SERVICE_NAME") (str "service name. example: --ob-service-name TEST") (Some "ob_service_name_str") GET_STR REQUIRED_ARG 0 0 0 0;
   opt (str "proxy_user") (OPT "OPT_OB_PROXY_USER") (str "proxy user. example --proxy_user test") (Some "ob_proxy_user_str") GET_STR REQUIRED_ARG 0 0 0 0;
   opt (str "socket5_proxy") (OPT "OPT_OB_SOCKET5_PROXY") (str "socket5 proxy. example --socket5_proxy [host],[port],[user],[pwd]") (Some "ob_socket5_proxy_str") GET_STR REQUIRED_ARG 0 0 0 0;
   opt (str "error-sql") (OPT "OPT_OB_ERROR_SQL") (str "--error-sql topN") (Some "ob_error_top_str") GET_STR REQUIRED_ARG 0 0 0 0].

Definition sql_protocol_typelib : TYPELIB := [str "TCP"; str "SOCKET"; str "PIPE"].

(** ** Single options *)

Section client.
(** The first line of the help, which the build makes, the notice of copyright
    and the list of the option files. *)
Variables (version_line copyright defaults_help : list Z).
(** Whether a file can be opened for appending. *)
Variable my_fopen : list Z -> bool.

Definition usage (version : bool) (c : client) : client :=
  let c := printf version_line c in
  if version then c
  else printf (copyright ++ [c_nl] ++ str "Usage: obclient [OPTIONS] [database]" ++ [c_nl] ++ defaults_help ++ [c_nl]
               ++ default [] (my_print_help my_long_options)
               ++ my_print_variables (fun _ _ => (0, None)) (fun _ => []) c my_long_options) c.

(** [exit] keeps the exit code in a variable of its own, as does a signal. *)
Definition exit (code : Z) (c : client) : reply client := Exit (set_num "exit" code c).
Definition killed (signal : Z) (c : client) : reply client := Exit (set_num "signal" signal c).
Definition SIGSEGV : Z := 11.

Definition mysql_end (c : client) : reply client := exit (num "exit_status" c) c.

Definition is_disabled (a : argument) : bool := match a with disabled_my_option => true | _ => false end.

Definition DEFAULT_DELIMITER : list Z := str ";".
Definition DELIMITER_SIZE : nat := 16.

Definition delimiter_option (a : argument) (c : client) : reply client :=
  let finish c :=
    let d := arr "delimiter" c in
    let c := set_ptr "delimiter_str" (Some d) (set_num "delimiter_length" (Z.of_nat (length d)) c) in
    Reply false (set_num "is_user_specify_delimiter" (if bool_decide (d = str ";") then 0 else 1) c) in
  if is_disabled a then finish (set_ptr "delimiter" (Some DEFAULT_DELIMITER) c)
  else if negb (found (strstr (GetOpt.arg_text a) (str "\"))) then finish (strmake_buf "delimiter" DELIMITER_SIZE (GetOpt.arg_text a) c)
  else Reply false (snd (say (str "DELIMITER cannot contain a backslash character") INFO_ERROR c)).

Definition pager_option (a : argument) (c : client) : client :=
  if is_disabled a then set_num "opt_nopager" 1 c
  else
    let c := set_num "opt_nopager" 0 c in
    if negb (bool_decide (GetOpt.arg_text a = [])) then
      let c := strmake_buf "pager" FN_REFLEN (GetOpt.arg_text a) (set_num "default_pager_set" 1 c) in
      set_ptr "default_pager" (ptr "pager" c) c
    else if negb (num "default_pager_set" c =? 0) then set_ptr "pager" (ptr "default_pager" c) c
    else set_num "opt_nopager" 1 c.

Definition protocol_option (opt : my_option) (a : argument) (c : client) : reply client :=
  if bool_decide (GetOpt.arg_text a = []) then Reply false (set_num "opt_protocol" 0 c)
  else
    let '(res, m) := find_type_with_warning (GetOpt.arg_text a) sql_protocol_typelib (o_name opt) in
    let c := put_messages m (set_num "opt_protocol" (res mod 2 ^ 32) c) in
    if num "opt_protocol" c <=? 0 then exit 1 c else Reply false c.

Definition execute_option (a : argument) (c : client) : client :=
  let c := set_num "add_to_history" 0 (set_num "batch" 1 c) in
  let c := match line_buff c with None => set_num "ignore_errors" 0 c | Some _ => c end in
  mkClient (globals c) (con c) (Some (batch_readline_command (line_buff c) (GetOpt.arg_text a))) (charset_info c) (closed c).

(** What is left of a password on the command line. *)
Definition destroyed (s : list Z) : list Z := take 1 (map (fun _ => "x"%chr) s).

(** The password is copied and the characters of the argument are overwritten;
    the constants that stand for the switched-on option cannot be. *)
Definition password_option (a : argument) (c : client) : reply client :=
  let store s c := set_num "tty_password" 0 (set_ptr "opt_password" (Some s) c) in
  match a with
  | null => Reply false (set_num "tty_password" 1 c)
  | disabled_my_option => Reply false (store [] c)
  | enabled_my_option | autoset_my_option => killed SIGSEGV (set_ptr "opt_password" (Some (GetOpt.arg_text a)) c)
  | text s => Reply false (set_ptr "argument" (Some (destroyed s)) (store s c))
  end.

Definition ssl_options : list Z :=
  map OPT ["OPT_SSL_KEY"; "OPT_SSL_CERT"; "OPT_SSL_CA"; "OPT_SSL_CAPATH"; "OPT_SSL_CIPHER"; "OPT_SSL_CRL"; "OPT_SSL_CRLPATH"].

Definition get_one_option (optid : Z) (opt : my_option) (argument : argument) (c : client) : reply client :=
  let eq x := optid =? x in
  let off := is_disabled argument in
  if eq (OPT "OPT_CHARSETS_DIR") then
    let c := strmake_buf "mysql_charsets_dir" (FN_REFLEN + 1) (GetOpt.arg_text argument) c in
    Reply false (set_ptr "charsets_dir" (ptr "mysql_charsets_dir" c) c)
  else if eq (OPT "OPT_DELIMITER") then delimiter_option argument c
  else if eq (OPT "OPT_LOCAL_INFILE") then Reply false (set_num "using_opt_local_infile" 1 c)
  else if eq (OPT "OPT_TEE") then Reply false (if off then (if tee_on (con c) then end_tee c else c) else init_tee my_fopen (GetOpt.arg_text argument) c)
  else if eq (OPT "OPT_PAGER") then Reply false (pager_option argument c)
  else if eq (OPT "OPT_MYSQL_PROTOCOL") then protocol_option opt argument c
  else if eq (OPT "OPT_SERVER_ARG") then
    Reply false (printf (str "WARNING: --server-arg option not supported in this configuration." ++ [c_nl]) c)
  else if eq "A"%chr then Reply false (set_num "opt_rehash" 0 c)
  else if eq "N"%chr then Reply false (set_num "column_names" 0 c)
  else if eq "e"%chr then Reply false (execute_option argument c)
  else if eq "o"%chr then Reply false (if off then set_num "one_database" 0 c else set_num "one_database" 1 (set_num "skip_updates" 1 c))
  else if eq "p"%chr then password_option argument c
  else if eq "#"%chr then Reply false (set_num "debug_info_flag" 1 c)
  else if eq "s"%chr then Reply false (set_num "opt_silent" (if off then 0 else (num "opt_silent" c + 1) mod 2 ^ 32) c)
  else if eq "v"%chr then Reply false (set_num "verbose" (if off then 0 else (num "verbose" c + 1) mod 2 ^ 32) c)
  else if eq "B"%chr then
    let c := set_num "add_to_history" 0 (set_num "batch" 1 c) in
    Reply false (if num "opt_silent" c <? 1 then set_num "opt_silent" 1 c else c)
  else if bool_decide (optid ∈ ssl_options) then Reply false (set_num "opt_use_ssl" 1 c)
  else if eq "f"%chr then Reply false (set_num "batch_abort_on_error" 0 c)
  else if eq "V"%chr then mysql_end (set_num "exit_status" 0 (usage true c))
  else if eq "I"%chr || eq "?"%chr then mysql_end (set_num "exit_status" 0 (usage false c))
  else Reply false c.

(** ** All options *)

Definition CLIENT_IGNORE_SPACE : Z := 256.
Definition CLIENT_INTERACTIVE : Z := 1024.
Definition CLIENT_PROGRESS_OBSOLETE : Z := Z.shiftl 1 29.
Definition MY_CHECK_ERROR : Z := 1.
Definition MY_GIVE_INFO : Z := 2.

(** The end of the options: the client, the code with which they are refused, or
    the end of the program. *)
Inductive started :=
| Started (c : client)
| Refused (code : Z) (c : client)
| Over (c : client).

(** The environment and the password that is read from the terminal. *)
Variables (getenv : string -> option (list Z)) (get_tty_password : list Z).

Definition from_environment (c : client) : option client :=
  let c := match getenv "MYSQL_HOST" with Some tmp => set_ptr "current_host" (Some tmp) c | None => c end in
  c ← match getenv "PAGER" with
      | None => strmov "pager" FN_REFLEN (str "stdout") (set_num "opt_nopager" 1 c)
      | Some pagpoint => strmov "pager" FN_REFLEN pagpoint c
      end;
  c ← strmov "default_pager" FN_REFLEN (arr "pager" c) c;
  Some (set_num "opt_net_buffer_length" (num "net_buffer_length" c) (set_num "opt_max_allowed_packet" (num "max_allowed_packet" c) c)).

(** The pager and the tee file are not used in batch mode. *)
Definition batch_settings (c : client) : client :=
  if num "batch" c =? 0 then c
  else
    let c := set_num "opt_nopager" 1 (set_ptr "pager" (Some (str "stdout")) (set_ptr "default_pager" (Some (str "stdout")) c)) in
    let x := con c in
    let c := with_con (set_num "default_pager_set" 0 c) (mkConsole (stdout x) (stderr x) (paged x) false (tee_file x)) in
    set_num "opt_progress_reports" 0 (set_num "connect_flag" 0 (set_num "opt_reconnect" 0 c)).

(** The name of the database, the password and the flags. *)
Definition last_settings (database : option (list Z)) (c : client) : client :=
  let c := match database with Some d => set_ptr "current_db" (Some d) (set_num "skip_updates" 0 c) | None => c end in
  let c := if num "tty_password" c =? 0 then c else set_ptr "opt_password" (Some get_tty_password) c in
  let c := if num "debug_info_flag" c =? 0 then c else set_num "my_end_arg" (Z.lor MY_CHECK_ERROR MY_GIVE_INFO) c in
  let c := if num "debug_check_flag" c =? 0 then c else set_num "my_end_arg" MY_CHECK_ERROR c in
  let c := if num "ignore_spaces" c =? 0 then c else set_num "connect_flag" (Z.lor (num "connect_flag" c) CLIENT_IGNORE_SPACE) c in
  if num "opt_progress_reports" c =? 0 then c else set_num "connect_flag" (Z.lor (num "connect_flag" c) CLIENT_PROGRESS_OBSOLETE) c.

Definition parse_options (argv : list argv_elem) (c : client) : option (turn client) :=
  handle_options (str "obclient") (fun _ _ => (0, false, [])) (fun _ => []) (fun _ _ => (0, None)) getopt_defaults my_long_options
    (Some get_one_option) argv c.

(** [argv] are the arguments behind the name of the program. *)
Definition get_options (argv : list argv_elem) (c : client) : option started :=
  c ← from_environment c;
  t ← parse_options argv c;
  match t with
  | Next _ _ => None
  | Died c => Some (Over c)
  | Return code r =>
      if negb (code =? 0) then Some (Refused code (r_state r))
      else
        let c := r_state r in
        let c := set_num "net_buffer_length" (num "opt_net_buffer_length" c) (set_num "max_allowed_packet" (num "opt_max_allowed_packet" c) c) in
        let c := batch_settings c in
        if 1 <? r_argc r then Some (Over (set_num "exit" 1 (usage false c)))
        else if r_argc r =? 1 then a ← head (r_kept r); Some (Started (last_settings (Some (elem_text a)) c))
        else Some (Started (last_settings None c))
  end.

(** ** The beginning of the program *)

(** The initial values of the variables that are neither zero nor null. *)
Definition initial_globals : gmap string val :=
  list_to_map
    ([("opt_rehash", VNum 1); ("line_numbers", VNum 1); ("column_names", VNum 1); ("opt_nopager", VNum 1); ("opt_reconnect", VNum 1);
      ("connect_flag", VNum CLIENT_INTERACTIVE); ("wait_time", VNum 5); ("delimiter_length", VNum 1); ("terminal_width", VNum 80)]
     ++ [("default_charset", VStr (Some (str "auto"))); ("delimiter", VStr (Some DEFAULT_DELIMITER)); ("opt_protocol_type", VStr (Some []))]).

Definition initial : client := mkClient initial_globals (mkConsole [] [] [] false []) None my_charset_latin1 [].

(** Up to the options; [tty] is whether input and output are terminals. *)
Definition before_options (tty : bool) (c : client) : option client :=
  let c := set_ptr "delimiter_str" (ptr "delimiter" c) c in
  let prompt := default (str "obclient(\u@\T)[\d]> ") (getenv "MYSQL_PS1") in
  let c := set_ptr "current_prompt" (Some prompt) (set_ptr "default_prompt" (Some prompt) c) in
  let c := set_num "aborted" 0 (set_num "prompt_counter" 0 c) in
  let c := match getenv "DISABLE_SET_NUM_WIDTH" with
           | Some env => set_num "force_set_num_width_close" (if int32 (fst (fst (strtoll env))) =? 0 then 0 else 1) c
           | None => c
           end in
  let c := set_ptr "pager" (Some (str "stdout")) (set_ptr "outfile" (Some []) c) in
  c ← match getenv "PAGER" with
      | Some (t :: tmp) => strmov "default_pager" FN_REFLEN (t :: tmp) (set_num "default_pager_set" 1 c)
      | _ => Some c
      end;
  let c := if tty then set_num "add_to_history" 1 c else set_num "ignore_errors" 0 (set_num "opt_silent" 1 (set_num "batch" 1 c)) in
  Some (set_num "exit_status" 1 c).

(** The host, the user and the port that are used when none is given. *)
Definition default_target (c : client) : client :=
  match ptr "opt_mysql_unix_port" c with
  | Some _ => c
  | None =>
      let c := match ptr "current_host" c with None => set_ptr "current_host" (Some (str "127.0.0.1")) c | Some _ => c end in
      let c := match ptr "current_user" c with None => set_ptr "current_user" (Some (str "root@sys")) c | Some _ => c end in
      if num "opt_mysql_port" c =? 0 then set_num "opt_mysql_port" 2881 c else c
  end.

Definition MAX_BATCH_BUFFER_SIZE : Z := 1024 * 1024 * 1024.

(** From the options to the connection; [stdin] is what the standard input is. *)
Definition main_start (tty : bool) (stdin : option file_mode) (argv : list argv_elem) : option started :=
  c ← before_options tty initial;
  r ← get_options argv c;
  match r with
  | Refused code c => Some (Over (set_num "exit" code (set_num "exit_status" code c)))
  | Over c => Some (Over c)
  | Started c =>
      let c := set_num "exit_status" 0 c in
      let ready c := Some (Started (let c := default_target c in set_num "preserve_comments" (if num "skip_comments" c =? 0 then 1 else 0) c)) in
      if negb (num "batch" c =? 0) && negb (found (line_buff c)) then
        match batch_readline_init stdin MAX_BATCH_BUFFER_SIZE with
        | None => Some (Over (set_num "exit" 1 (snd (say (str "Can't initialize batch_readline - may be the input source is a directory or a block device.") INFO_ERROR c))))
        | Some b => ready (mkClient (globals c) (con c) (Some b) (charset_info c) (closed c))
        end
      else ready c
  end.

End client.
