(* ===== verification/OptionsSpec.v ===== *)
(** * What the options of the client do

    Which variables an option can change, what holds of the client after any
    command line, and what the statements of the [-e] options become. *)

From stdpp Require Import base list numbers strings gmap.
From S2P Require Import Prelude CString Charset Numbers Typelib GetOpt GetOptHelp GetOptParse GetOptSafe Readline Connect Execute Session Options.
Open Scope Z_scope.

(** ** The variables that an option changes *)

(** The variables that [get_one_option] sets. *)
Definition touches : list (Z * list string) :=
  [(OPT "OPT_CHARSETS_DIR", ["mysql_charsets_dir"; "charsets_dir"]);
   (OPT "OPT_DELIMITER", ["delimiter"; "delimiter_length"; "delimiter_str"; "is_user_specify_delimiter"]);
   (OPT "OPT_LOCAL_INFILE", ["using_opt_local_infile"]); (OPT "OPT_TEE", ["OUTFILE"; "outfile"]);
   (OPT "OPT_PAGER", ["opt_nopager"; "default_pager_set"; "pager"; "default_pager"]); (OPT "OPT_MYSQL_PROTOCOL", ["opt_protocol"]);
   ("A"%chr, ["opt_rehash"]); ("N"%chr, ["column_names"]); ("e"%chr, ["batch"; "add_to_history"; "ignore_errors"]);
   ("o"%chr, ["one_database"; "skip_updates"]); ("p"%chr, ["opt_password"; "tty_password"; "argument"]); ("#"%chr, ["debug_info_flag"]);
   ("s"%chr, ["opt_silent"]); ("v"%chr, ["verbose"]); ("B"%chr, ["batch"; "add_to_history"; "opt_silent"]); ("f"%chr, ["batch_abort_on_error"])]
  ++ map (fun i => (i, ["opt_use_ssl"])) ssl_options.

Definition touched (id : Z) : list string := match find (fun e => e.1 =? id) touches with Some e => e.2 | None => [] end.

(** The variables of the end of the program. *)
Definition end_variables : list string := ["exit"; "exit_status"; "signal"].

Definition writes (o : my_option) : list string := match o_value o with Some v => [v] | None => [] end ++ touched (o_id o).

Definition reply_state {S} (r : reply S) : S := match r with Reply _ s | Exit s => s end.

Lemma touched_at i l : find (fun e => e.1 =? i) touches = Some (i, l) -> touched i = l.
Proof. intros H. unfold touched. by rewrite H. Qed.

(** Output leaves the variables alone. *)
Lemma put_messages_globals m (c : client) : globals (put_messages m c) = globals c.
Proof. by destruct m. Qed.

Lemma say_globals m t c : globals (snd (say m t c)) = globals c.
Proof. unfold say. by destruct (put_message _ _ _ _ _). Qed.

Lemma end_tee_globals v c : v <> "OUTFILE" -> globals (end_tee c) !! v = globals c !! v.
Proof. intros Hv. cbn. by rewrite lookup_insert_ne. Qed.

Lemma init_tee_globals my_fopen f v c : v <> "OUTFILE" -> v <> "outfile" -> globals (init_tee my_fopen f c) !! v = globals c !! v.
Proof.
  intros H1 H2. unfold init_tee. set (c' := if tee_on (con c) then _ else _).
  assert (Hc : globals c' !! v = globals c !! v) by (unfold c'; destruct (tee_on (con c)); [by apply end_tee_globals|done]).
  destruct (negb (my_fopen f)); [done|]. cbn. by rewrite !lookup_insert_ne.
Qed.

Ltac not_touched := repeat match goal with H : _ ∉ _ :: _ |- _ => apply not_elem_of_cons in H as [? H] end.

Section client.
Context (version_line copyright defaults_help : list Z) (my_fopen : list Z -> bool).
Abbreviation one_option := (get_one_option version_line copyright defaults_help my_fopen).

Lemma usage_globals b c : globals (usage version_line copyright defaults_help b c) = globals c.
Proof. by destruct b. Qed.

Lemma delimiter_frame a c v : v ∉ ["delimiter"; "delimiter_length"; "delimiter_str"; "is_user_specify_delimiter"] ->
  globals (reply_state (delimiter_option a c)) !! v = globals c !! v.
Proof.
  intros Hv. not_touched. unfold delimiter_option. destruct (is_disabled a); [cbn; by rewrite !lookup_insert_ne|].
  destruct (negb _); cbn [reply_state]; [cbn; by rewrite !lookup_insert_ne|]. by rewrite say_globals.
Qed.

Lemma pager_frame a c v : v ∉ ["opt_nopager"; "default_pager_set"; "pager"; "default_pager"] -> globals (pager_option a c) !! v = globals c !! v.
Proof.
  intros Hv. not_touched. unfold pager_option. destruct (is_disabled a); [cbn; by rewrite lookup_insert_ne|].
  destruct (negb _); [cbn; by rewrite !lookup_insert_ne|]. destruct (negb _); cbn; by rewrite !lookup_insert_ne.
Qed.

Lemma protocol_frame o a c v : v ∉ "opt_protocol" :: end_variables -> globals (reply_state (protocol_option o a c)) !! v = globals c !! v.
Proof.
  unfold end_variables. intros Hv. not_touched. unfold protocol_option. case_bool_decide; [cbn; by rewrite lookup_insert_ne|].
  destruct (find_type_with_warning _ _ _) as [res m]. destruct (_ <=? 0); cbn; rewrite put_messages_globals; cbn; by rewrite !lookup_insert_ne.
Qed.

Lemma ssl_touched id : id ∈ ssl_options -> touched id = ["opt_use_ssl"].
Proof.
  intros Hid. assert (H : forallb (fun id => bool_decide (touched id = ["opt_use_ssl"])) ssl_options = true) by (vm_compute; reflexivity).
  rewrite forallb_forall in H. apply (bool_decide_eq_true_1 _), H. by apply list_elem_of_In.
Qed.

Lemma not_ssl id : existsb (Z.eqb id) ssl_options = false -> bool_decide (id ∈ ssl_options) = false.
Proof.
  intros H. apply bool_decide_eq_false. intros Hin%list_elem_of_In. assert (existsb (Z.eqb id) ssl_options = true); [|congruence].
  apply existsb_exists. exists id. split; [done|apply Z.eqb_refl].
Qed.

Lemma finished_frame b c v : v <> "exit" -> v <> "exit_status" ->
  globals (reply_state (mysql_end (set_num "exit_status" 0 (usage version_line copyright defaults_help b c)))) !! v = globals c !! v.
Proof.
  intros H1 H2. unfold mysql_end, exit, reply_state. generalize (usage_globals b c). generalize (usage version_line copyright defaults_help b c). intros u Hu.
  cbn. by rewrite !lookup_insert_ne, Hu.
Qed.

(** An option changes only its own variables. *)
Lemma get_one_option_frame id o a c v : v ∉ touched id -> v ∉ end_variables -> globals (reply_state (one_option id o a c)) !! v = globals c !! v.
Proof.
  intros Hv He. pose proof He as He'. unfold end_variables in He'. not_touched. unfold get_one_option.
  repeat match goal with |- context [id =? ?x] => destruct (Z.eqb_spec id x) as [->|?]; [try (erewrite touched_at in Hv; [|vm_compute; reflexivity])|] end.
  all: try (not_touched; unfold reply_state, set_num, set_ptr, strmake_buf, with_globals; cbn [globals]; rewrite ?lookup_insert_ne by done; reflexivity).
  - not_touched. cbn. by rewrite !lookup_insert_ne.
  - by apply delimiter_frame.
  - not_touched. cbn [reply_state]. destruct (is_disabled a); [|by apply init_tee_globals]. destruct (tee_on (con c)); [by apply end_tee_globals|done].
  - by apply pager_frame.
  - apply protocol_frame. by apply not_elem_of_cons; not_touched.
  - not_touched. cbn. unfold execute_option. destruct (line_buff _); cbn; by rewrite !lookup_insert_ne.
  - not_touched. destruct (is_disabled a); cbn; by rewrite !lookup_insert_ne.
  - not_touched. destruct a; cbn; by rewrite !lookup_insert_ne.
  - not_touched. cbn [reply_state]. destruct (_ <? 1); cbn; by rewrite !lookup_insert_ne.
  - rewrite not_ssl by (vm_compute; reflexivity). not_touched. cbn. by rewrite lookup_insert_ne.
  - rewrite not_ssl by (vm_compute; reflexivity). by apply finished_frame.
  - rewrite not_ssl by (vm_compute; reflexivity). by apply finished_frame.
  - rewrite not_ssl by (vm_compute; reflexivity). by apply finished_frame.
  - case_bool_decide as Hs; [|done]. rewrite (ssl_touched id Hs) in Hv. not_touched. cbn. by rewrite lookup_insert_ne.
Qed.

(** Only [-e] changes the reader of statements. *)
Lemma say_line_buff m t c : line_buff (snd (say m t c)) = line_buff c.
Proof. unfold say. by destruct (put_message _ _ _ _ _). Qed.

Lemma put_messages_line_buff m (c : client) : line_buff (put_messages m c) = line_buff c.
Proof. by destruct m. Qed.

Lemma init_tee_line_buff name c : line_buff (init_tee my_fopen name c) = line_buff c.
Proof. unfold init_tee. destruct (tee_on (con c)), (negb (my_fopen name)); done. Qed.

Lemma usage_line_buff b c : line_buff (usage version_line copyright defaults_help b c) = line_buff c.
Proof. by destruct b. Qed.

Lemma get_one_option_line_buff id o a c : id <> "e"%chr -> line_buff (reply_state (one_option id o a c)) = line_buff c.
Proof.
  intros He. unfold get_one_option. rewrite (proj2 (Z.eqb_neq id "e"%chr)) by done.
  destruct (id =? OPT "OPT_CHARSETS_DIR"); [done|]. destruct (id =? OPT "OPT_DELIMITER").
  { unfold delimiter_option. destruct (is_disabled a); [done|]. destruct (negb _); [done|]. apply say_line_buff. }
  destruct (id =? OPT "OPT_LOCAL_INFILE"); [done|]. destruct (id =? OPT "OPT_TEE").
  { cbn [reply_state]. destruct (is_disabled a); [by destruct (tee_on (con c))|]. apply init_tee_line_buff. }
  destruct (id =? OPT "OPT_PAGER"); [unfold pager_option; cbn [reply_state]; destruct (is_disabled a); [done|]; destruct (negb _); [done|]; by destruct (negb _)|].
  destruct (id =? OPT "OPT_MYSQL_PROTOCOL").
  { unfold protocol_option. case_bool_decide; [done|]. destruct (find_type_with_warning _ _ _) as [res m]. destruct (_ <=? 0); cbn; by rewrite put_messages_line_buff. }
  destruct (id =? OPT "OPT_SERVER_ARG"); [done|]. do 2 (destruct (id =? _); [done|]).
  destruct (id =? _); [by destruct (is_disabled a)|]. destruct (id =? _); [by destruct a|]. do 3 (destruct (id =? _); [done|]).
  destruct (id =? _); [cbn [reply_state]; by destruct (_ <? 1)|]. destruct (bool_decide _); [done|]. destruct (id =? _); [done|].
  destruct (id =? _); [|destruct (_ || _); [|done]]; unfold mysql_end, exit, reply_state, set_num, with_globals; cbn [line_buff]; apply usage_line_buff.
Qed.

End client.

(** ** What always holds *)

(** Two clients with the same values of some variables. *)
Definition agree (vs : list string) (c c' : client) : Prop := Forall (fun v => globals c' !! v = globals c !! v) vs.

Lemma num_agree v vs c c' : agree vs c c' -> v ∈ vs -> num v c' = num v c.
Proof. unfold agree, num. rewrite Forall_forall. intros H Hv. by rewrite H. Qed.

Lemma arr_agree v vs c c' : agree vs c c' -> v ∈ vs -> arr v c' = arr v c.
Proof. unfold agree, arr, ptr. rewrite Forall_forall. intros H Hv. by rewrite H. Qed.

Lemma toucher v id : v ∈ touched id -> id ∈ map fst (filter (fun e => v ∈ e.2) touches).
Proof.
  unfold touched. destruct (find _ touches) as [[i l]|] eqn:E; [|by intros ?%not_elem_of_nil]. apply find_some in E as [Hin Hi%Z.eqb_eq]. cbn [fst] in Hi. subst i.
  cbn [snd]. intros Hv. apply list_elem_of_fmap. exists (id, l). split; [reflexivity|]. apply list_elem_of_filter. split; [exact Hv|]. by apply list_elem_of_In.
Qed.

(** The delimiter, the arrays and the reader of statements. *)
Definition delimiter_variables : list string := ["delimiter"; "delimiter_length"; "is_user_specify_delimiter"].
Definition pager_variables : list string := ["pager"; "default_pager"].
Definition batch_variables : list string := ["batch"; "add_to_history"].

Definition delimiter_ok (c : client) : Prop :=
  let d := arr "delimiter" c in
  (length d < DELIMITER_SIZE)%nat /\ num "delimiter_length" c = Z.of_nat (length d)
  /\ num "is_user_specify_delimiter" c = if bool_decide (d = str ";") then 0 else 1.

Definition pager_ok (c : client) : Prop := (length (arr "pager" c) < FN_REFLEN)%nat /\ (length (arr "default_pager" c) < FN_REFLEN)%nat.

Definition outfile_ok (c : client) : Prop := (length (arr "outfile" c) < FN_REFLEN)%nat.

Definition charsets_ok (c : client) : Prop := (length (arr "mysql_charsets_dir" c) <= FN_REFLEN)%nat.

(** The reader has the statements of [-e] options, and then the client is in
    batch mode. *)
Definition statements_reader (s : list Z) (ss : list (list Z)) : LINE_BUFFER :=
  fold_left (fun b s => batch_readline_command (Some b) s) ss (batch_readline_command None s).

Definition execute_ok (c : client) : Prop :=
  forall b, line_buff c = Some b -> num "batch" c = 1 /\ num "add_to_history" c = 0 /\ exists s ss, b = statements_reader s ss.

Record client_ok (c : client) : Prop := {
  ok_delimiter : delimiter_ok c;
  ok_pager : pager_ok c;
  ok_outfile : outfile_ok c;
  ok_charsets : charsets_ok c;
  ok_execute : execute_ok c
}.

Definition other_variables : list string := delimiter_variables ++ ["outfile"; "mysql_charsets_dir"] ++ batch_variables.
Definition ok_variables : list string := pager_variables ++ other_variables.

Lemma client_ok_pager c c' : client_ok c -> agree other_variables c c' -> pager_ok c' -> line_buff c' = line_buff c -> client_ok c'.
Proof.
  intros [H1 H2 H3 H4 H5] Ha Hp Hl.
  assert (Hn : forall v, v ∈ other_variables -> num v c' = num v c) by (intros v; by apply num_agree).
  assert (Hr : forall v, v ∈ other_variables -> arr v c' = arr v c) by (intros v; by apply arr_agree).
  constructor; try exact Hp; unfold delimiter_ok, outfile_ok, charsets_ok, execute_ok in *; cbn zeta;
    rewrite ?Hn, ?Hr by (apply (bool_decide_eq_true_1 _); vm_compute; reflexivity); rewrite ?Hl; done.
Qed.

Lemma client_ok_agree c c' : client_ok c -> agree ok_variables c c' -> line_buff c' = line_buff c -> client_ok c'.
Proof.
  intros Hc [Hp Ho]%Forall_app Hl. apply (client_ok_pager c); try done. destruct (ok_pager c Hc) as [H1 H2]. unfold pager_ok.
  rewrite !(arr_agree _ pager_variables c c') by (done || unfold pager_variables; set_solver). done.
Qed.

Lemma strmake_length n s : (length (strmake s n) <= n)%nat.
Proof. revert s. induction n as [|n IH]; intros [|c s]; cbn; try lia. destruct (c =? 0); cbn; [lia|]. pose proof (IH s). lia. Qed.

(** Reading a variable that was set, or another one. *)
Lemma num_set v z c : num v (set_num v z c) = z.
Proof. unfold num, set_num. cbn. by rewrite lookup_insert_eq. Qed.

Lemma arr_set v s c : arr v (set_ptr v (Some s) c) = s.
Proof. unfold arr, ptr, set_ptr. cbn. by rewrite lookup_insert_eq. Qed.

Lemma num_set_ne v w z c : v <> w -> num v (set_num w z c) = num v c.
Proof. intros. unfold num, set_num. cbn. by rewrite lookup_insert_ne. Qed.

Lemma num_set_ptr_ne v w s c : v <> w -> num v (set_ptr w s c) = num v c.
Proof. intros. unfold num, set_ptr. cbn. by rewrite lookup_insert_ne. Qed.

Lemma arr_set_ne v w s c : v <> w -> arr v (set_ptr w s c) = arr v c.
Proof. intros. unfold arr, ptr, set_ptr. cbn. by rewrite lookup_insert_ne. Qed.

Lemma arr_set_num v w z c : v <> w -> arr v (set_num w z c) = arr v c.
Proof. intros. unfold arr, ptr, set_num. cbn. by rewrite lookup_insert_ne. Qed.

Lemma arr_copy v w c : arr v (set_ptr v (ptr w c) c) = arr w c.
Proof. unfold arr, ptr, set_ptr. cbn. rewrite lookup_insert_eq. done. Qed.

Section keep.
Context (version_line copyright defaults_help : list Z) (my_fopen : list Z -> bool).
Abbreviation one_option := (get_one_option version_line copyright defaults_help my_fopen).

(** The variables that only some options change. *)
Definition only_by (ids : list Z) (vs : list string) : bool :=
  forallb (fun v => forallb (fun i => bool_decide (i ∈ ids)) (map fst (filter (fun e => v ∈ e.2) touches)) && negb (bool_decide (v ∈ end_variables))) vs.

Lemma others_agree ids vs id o a c : only_by ids vs = true -> id ∉ ids -> agree vs c (reply_state (one_option id o a c)).
Proof.
  intros Hv Hid. apply Forall_forall. intros v Hin. unfold only_by in Hv. rewrite forallb_forall in Hv. apply list_elem_of_In in Hin.
  specialize (Hv v Hin). apply andb_prop in Hv as [H1 H2]. apply get_one_option_frame; [|by apply negb_true_iff, bool_decide_eq_false in H2].
  intros Ht%toucher%list_elem_of_In. rewrite forallb_forall in H1. apply Hid, (bool_decide_eq_true_1 _), H1, Ht.
Qed.

Lemma delimiter_kept id o a c : delimiter_ok c -> delimiter_ok (reply_state (one_option id o a c)).
Proof.
  intros Hc. destruct (decide (id = OPT "OPT_DELIMITER")) as [->|Hid].
  - replace (one_option (OPT "OPT_DELIMITER") o a c) with (delimiter_option a c) by reflexivity. unfold delimiter_option.
    assert (Hfin : forall d, (length d < DELIMITER_SIZE)%nat -> delimiter_ok (set_num "is_user_specify_delimiter" (if bool_decide (arr "delimiter" (set_ptr "delimiter" (Some d) c) = str ";") then 0 else 1)
      (set_ptr "delimiter_str" (Some (arr "delimiter" (set_ptr "delimiter" (Some d) c))) (set_num "delimiter_length" (Z.of_nat (length (arr "delimiter" (set_ptr "delimiter" (Some d) c)))) (set_ptr "delimiter" (Some d) c))))).
    { intros d Hd. unfold delimiter_ok, arr, ptr, num, set_num, set_ptr, with_globals. cbn [globals].
      rewrite !lookup_insert_eq, !lookup_insert_ne, ?lookup_insert_eq, !lookup_insert_ne, ?lookup_insert_eq by done. cbn. done. }
    destruct (is_disabled a); [apply (Hfin DEFAULT_DELIMITER); cbn; unfold DELIMITER_SIZE; lia|].
    destruct (negb _); [apply (Hfin (strmake (GetOpt.arg_text a) (DELIMITER_SIZE - 1))); pose proof (strmake_length (DELIMITER_SIZE - 1) (GetOpt.arg_text a)); unfold DELIMITER_SIZE in *; lia|].
    cbn [reply_state]. unfold delimiter_ok, arr, ptr, num in *. by rewrite say_globals.
  - pose proof (others_agree [OPT "OPT_DELIMITER"] delimiter_variables id o a c ltac:(vm_compute; reflexivity) ltac:(set_solver)) as Ha.
    unfold delimiter_ok in *. rewrite !(num_agree _ _ _ _ Ha), !(arr_agree _ _ _ _ Ha) by (unfold delimiter_variables; set_solver). done.
Qed.

Lemma pager_kept id o a c : pager_ok c -> pager_ok (reply_state (one_option id o a c)).
Proof.
  intros [H1 H2]. destruct (decide (id = OPT "OPT_PAGER")) as [->|Hid].
  - replace (one_option (OPT "OPT_PAGER") o a c) with (Reply false (pager_option a c)) by reflexivity. cbn [reply_state]. unfold pager_option, pager_ok.
    destruct (is_disabled a); [by rewrite !arr_set_num|]. destruct (negb (bool_decide (GetOpt.arg_text a = []))).
    + unfold strmake_buf. set (t := strmake _ _). assert (length t < FN_REFLEN)%nat by (unfold t; pose proof (strmake_length (FN_REFLEN - 1) (GetOpt.arg_text a)); unfold FN_REFLEN in *; lia).
      rewrite arr_copy, arr_set_ne, !arr_set by done. done.
    + destruct (negb _); [rewrite arr_copy, arr_set_ne by done|]; by rewrite !arr_set_num by done.
  - pose proof (others_agree [OPT "OPT_PAGER"] pager_variables id o a c ltac:(vm_compute; reflexivity) ltac:(set_solver)) as Ha.
    unfold pager_ok. by rewrite !(arr_agree _ _ _ _ Ha) by (unfold pager_variables; set_solver).
Qed.

Lemma init_tee_outfile name c : outfile_ok c -> outfile_ok (init_tee my_fopen name c).
Proof.
  intros Hc. unfold init_tee. set (c' := if tee_on (con c) then _ else _).
  assert (Hc' : outfile_ok c') by (unfold c', outfile_ok in *; destruct (tee_on (con c)); [|done]; unfold end_tee; by rewrite arr_set_ne by done).
  destruct (negb (my_fopen name)); [done|]. unfold outfile_ok.
  change (length (arr "outfile" (strmake_buf "outfile" FN_REFLEN name (set_ptr "OUTFILE" (Some name) c'))) < FN_REFLEN)%nat.
  unfold strmake_buf. rewrite arr_set. pose proof (strmake_length (FN_REFLEN - 1) name). unfold FN_REFLEN in *. lia.
Qed.

Lemma outfile_kept id o a c : outfile_ok c -> outfile_ok (reply_state (one_option id o a c)).
Proof.
  intros Hc. destruct (decide (id = OPT "OPT_TEE")) as [->|Hid].
  - replace (one_option (OPT "OPT_TEE") o a c) with (Reply false (if is_disabled a then (if tee_on (con c) then end_tee c else c) else init_tee my_fopen (GetOpt.arg_text a) c)) by reflexivity.
    cbn [reply_state]. destruct (is_disabled a); [|by apply init_tee_outfile]. destruct (tee_on (con c)); [|done].
    unfold outfile_ok, end_tee in *. by rewrite arr_set_ne by done.
  - pose proof (others_agree [OPT "OPT_TEE"] ["outfile"] id o a c ltac:(vm_compute; reflexivity) ltac:(set_solver)) as Ha.
    unfold outfile_ok. by rewrite !(arr_agree _ _ _ _ Ha) by set_solver.
Qed.

Lemma charsets_kept id o a c : charsets_ok c -> charsets_ok (reply_state (one_option id o a c)).
Proof.
  intros Hc. destruct (decide (id = OPT "OPT_CHARSETS_DIR")) as [->|Hid].
  - replace (one_option (OPT "OPT_CHARSETS_DIR") o a c) with (Reply false (set_ptr "charsets_dir" (ptr "mysql_charsets_dir" (strmake_buf "mysql_charsets_dir" (FN_REFLEN + 1) (GetOpt.arg_text a) c))
      (strmake_buf "mysql_charsets_dir" (FN_REFLEN + 1) (GetOpt.arg_text a) c))) by reflexivity.
    cbn [reply_state]. unfold charsets_ok, strmake_buf. rewrite arr_set_ne, arr_set by done. pose proof (strmake_length (FN_REFLEN + 1 - 1) (GetOpt.arg_text a)). lia.
  - pose proof (others_agree [OPT "OPT_CHARSETS_DIR"] ["mysql_charsets_dir"] id o a c ltac:(vm_compute; reflexivity) ltac:(set_solver)) as Ha.
    unfold charsets_ok. by rewrite !(arr_agree _ _ _ _ Ha) by set_solver.
Qed.

Lemma statements_reader_snoc s ss t : batch_readline_command (Some (statements_reader s ss)) t = statements_reader s (ss ++ [t]).
Proof. unfold statements_reader. by rewrite fold_left_app. Qed.

Lemma execute_option_spec a c :
  num "batch" (execute_option a c) = 1 /\ num "add_to_history" (execute_option a c) = 0
  /\ line_buff (execute_option a c) = Some (batch_readline_command (line_buff c) (GetOpt.arg_text a)).
Proof.
  unfold execute_option, num. cbn [line_buff set_num with_globals globals].
  destruct (line_buff c) eqn:El; cbn [line_buff set_num with_globals globals]; rewrite ?El; split_and!; simplify_map_eq; done.
Qed.

Lemma execute_kept id o a c : execute_ok c -> execute_ok (reply_state (one_option id o a c)).
Proof.
  intros Hc. destruct (decide (id = "e"%chr)) as [->|Hid].
  - replace (one_option "e"%chr o a c) with (Reply false (execute_option a c)) by reflexivity. cbn [reply_state].
    destruct (execute_option_spec a c) as (Hb & Hh & Hl). intros b Hb'. rewrite Hl in Hb'. injection Hb' as <-. split_and!; [done..|].
    destruct (line_buff c) as [b|] eqn:El; [|by exists (GetOpt.arg_text a), []].
    destruct (Hc b El) as (_ & _ & s & ss & ->). exists s, (ss ++ [GetOpt.arg_text a]). apply statements_reader_snoc.
  - intros b. rewrite get_one_option_line_buff by done. intros Hb. destruct (Hc b Hb) as (H1 & H2 & H3). destruct (decide (id = "B"%chr)) as [->|HB].
    + replace (one_option "B"%chr o a c) with (Reply false (let c := set_num "add_to_history" 0 (set_num "batch" 1 c) in if num "opt_silent" c <? 1 then set_num "opt_silent" 1 c else c)) by reflexivity.
      cbn [reply_state]. cbn zeta. destruct (_ <? 1); unfold num, set_num, with_globals; cbn [globals]; split_and!; simplify_map_eq; done.
    + pose proof (others_agree ["e"%chr; "B"%chr] batch_variables id o a c ltac:(vm_compute; reflexivity) ltac:(set_solver)) as Ha.
      rewrite !(num_agree _ _ _ _ Ha) by (unfold batch_variables; set_solver). done.
Qed.

Lemma get_one_option_ok id o a c : client_ok c -> client_ok (reply_state (one_option id o a c)).
Proof. intros []. constructor; auto using delimiter_kept, pager_kept, outfile_kept, charsets_kept, execute_kept. Qed.

(** ** Every command line *)

(** The variables of all options. *)
Definition all_writes : list string := concat (map writes my_long_options).

(** The client after some options. *)
Definition from (c0 c : client) : Prop :=
  client_ok c /\ forall v, v ∉ all_writes -> v ∉ end_variables -> globals c !! v = globals c0 !! v.

Lemma table_values : forallb (fun o => match o_value o, o_u_max_value o with
    | Some v, Some w => bool_decide (v = w) && negb (bool_decide (v ∈ ok_variables)) | None, None => true | _, _ => false end && plain_option o) my_long_options = true.
Proof. vm_compute. reflexivity. Qed.

Lemma owned o v : o ∈ my_long_options -> owns o v -> o_value o = Some v /\ v ∉ ok_variables.
Proof.
  intros Ho Hv. pose proof table_values as H. rewrite forallb_forall in H. apply list_elem_of_In in Ho. apply H, andb_prop in Ho as [Ho _].
  unfold owns in Hv. clear H. destruct (o_value o) as [x|], (o_u_max_value o) as [y|]; try discriminate Ho; [|by destruct Hv].
  apply andb_prop in Ho as [->%bool_decide_eq_true Hx%negb_true_iff%bool_decide_eq_false]. destruct Hv as [[= ->]|[= ->]]; split; try exact Hx; reflexivity.
Qed.

Lemma in_all_writes o v : o ∈ my_long_options -> v ∈ writes o -> v ∈ all_writes.
Proof. intros Ho Hv. unfold all_writes. apply list_elem_of_In, in_concat. exists (writes o). split; [by apply in_map, list_elem_of_In|by apply list_elem_of_In]. Qed.

Lemma parse_options_from argv c : client_ok c ->
  exists t, parse_options version_line copyright defaults_help my_fopen argv c = Some t
    /\ match t with Next _ _ => False | Return _ r => from c (r_state r) | Died s => from c s end.
Proof.
  intros Hc. unfold parse_options. apply (handle_options_ends _ _ _ _ _ _ _ (from c)).
  - pose proof table_values as H. rewrite forallb_forall in H. apply Forall_forall. intros o Ho%list_elem_of_In. apply H, andb_prop in Ho as [_ Ho]. by apply Is_true_true.
  - intros o v x s Ho Hv [Hs Hf]. destruct (owned o v Ho Hv) as [Hval Hnot]. split.
    + apply (client_ok_agree s); [done| |done]. apply Forall_forall. intros w Hw. cbn. rewrite lookup_insert_ne; [done|]. by intros ->.
    + intros w Hw He. cbn. rewrite lookup_insert_ne; [exact (Hf w Hw He)|]. intros <-. apply Hw, (in_all_writes o); [exact Ho|]. unfold writes. rewrite Hval. left.
  - intros m s [Hs Hf]. split; [|exact Hf]. apply (client_ok_agree s); [exact Hs| |reflexivity]. apply Forall_forall. reflexivity.
  - intros o a s Ho [Hs Hf]. assert (Hfrom : from c (reply_state (one_option (o_id o) o a s))).
    { split; [by apply get_one_option_ok|]. intros v Hv He. rewrite get_one_option_frame; [exact (Hf v Hv He)| |exact He].
      intros Ht. apply Hv, (in_all_writes o); [exact Ho|]. unfold writes. apply elem_of_app. by right. }
    destruct (one_option (o_id o) o a s); exact Hfrom.
  - split; [exact Hc|]. reflexivity.
Qed.

(** ** The beginning of the program *)

(** The variables that [get_options] sets itself. *)
Definition start_variables : list string :=
  ["current_host"; "pager"; "default_pager"; "opt_nopager"; "opt_max_allowed_packet"; "opt_net_buffer_length"; "net_buffer_length"; "max_allowed_packet";
   "default_pager_set"; "opt_reconnect"; "connect_flag"; "opt_progress_reports"; "current_db"; "skip_updates"; "opt_password"; "my_end_arg"].

(** The settings of batch mode. *)
Definition in_batch_mode (c : client) : Prop :=
  num "opt_nopager" c = 1 /\ arr "pager" c = str "stdout" /\ num "opt_reconnect" c = 0 /\ num "opt_progress_reports" c = 0
  /\ tee_on (con c) = false /\ (num "connect_flag" c = 0 \/ num "connect_flag" c = CLIENT_IGNORE_SPACE).

End keep.

Lemma agree_set_num vs c v z : v ∉ vs -> agree vs c (set_num v z c).
Proof. intros Hv. apply Forall_forall. intros w Hw. cbn. rewrite lookup_insert_ne; [done|]. by intros ->. Qed.

Lemma agree_set_ptr vs c v p : v ∉ vs -> agree vs c (set_ptr v p c).
Proof. intros Hv. apply Forall_forall. intros w Hw. cbn. rewrite lookup_insert_ne; [done|]. by intros ->. Qed.

Lemma agree_refl vs c : agree vs c c.
Proof. by apply Forall_forall. Qed.

Lemma agree_trans vs a b c : agree vs a b -> agree vs b c -> agree vs a c.
Proof. unfold agree. rewrite !Forall_forall. intros H1 H2 v Hv. by rewrite (H2 v Hv), (H1 v Hv). Qed.

Lemma Forall_cons_forall {A} (P : A -> Prop) l : Forall P l -> foldr (fun a Q => P a /\ Q) True l.
Proof. induction 1; cbn; auto. Qed.

(** The reader and the output are left alone. *)
Definition quiet (c c' : client) : Prop := line_buff c' = line_buff c /\ con c' = con c.

(** A chain of assignments to other variables. *)
Ltac unchanged :=
  repeat match goal with
  | |- agree ?vs ?c ?c => apply agree_refl
  | |- agree _ _ (if ?b then _ else _) => destruct b
  | |- agree _ _ (match ?x with Some _ => _ | None => _ end) => destruct x
  | |- agree _ _ (set_num _ _ ?c) => apply (agree_trans _ _ c); [|apply agree_set_num; (assumption || (apply (bool_decide_eq_true_1 _); vm_compute; reflexivity))]
  | |- agree _ _ (set_ptr _ _ ?c) => apply (agree_trans _ _ c); [|apply agree_set_ptr; (assumption || (apply (bool_decide_eq_true_1 _); vm_compute; reflexivity))]
  | |- agree ?vs ?a (with_con ?c ?x) => change (agree vs a c)
  end.

(** The variables are none of those that are assigned. *)
Definition apart (vs ws : list string) : Prop := Forall (fun w => w ∉ vs) ws.

Lemma apart_one v ws : v ∉ ws -> apart [v] ws.
Proof. intros Hv. apply Forall_forall. intros w Hw ->%list_elem_of_singleton. done. Qed.

#[local] Instance apart_dec vs ws : Decision (apart vs ws).
Proof. unfold apart. apply _. Defined.

Lemma batch_settings_agree vs c :
  apart vs ["default_pager"; "pager"; "opt_nopager"; "default_pager_set"; "opt_reconnect"; "connect_flag"; "opt_progress_reports"] -> agree vs c (batch_settings c).
Proof. intros (?&?&?&?&?&?&?&_)%Forall_cons_forall. unfold batch_settings. unchanged. Qed.

Lemma batch_settings_mode c : num "batch" (batch_settings c) = num "batch" c
  /\ (num "batch" c <> 0 -> num "opt_nopager" (batch_settings c) = 1 /\ arr "pager" (batch_settings c) = str "stdout" /\ arr "default_pager" (batch_settings c) = str "stdout"
       /\ num "opt_reconnect" (batch_settings c) = 0 /\ num "opt_progress_reports" (batch_settings c) = 0 /\ num "connect_flag" (batch_settings c) = 0
       /\ tee_on (con (batch_settings c)) = false).
Proof.
  split; [apply (num_agree _ ["batch"]); [|set_solver]; apply batch_settings_agree; repeat constructor; set_solver|].
  intros Hb. assert (Hg : globals (batch_settings c) = <["opt_progress_reports" := VNum 0]> (<["connect_flag" := VNum 0]> (<["opt_reconnect" := VNum 0]>
    (<["default_pager_set" := VNum 0]> (<["opt_nopager" := VNum 1]> (<["pager" := VStr (Some (str "stdout"))]> (<["default_pager" := VStr (Some (str "stdout"))]> (globals c))))))))
    by (unfold batch_settings; by rewrite (proj2 (Z.eqb_neq _ _)) by done).
  assert (Ht : tee_on (con (batch_settings c)) = false) by (unfold batch_settings; by rewrite (proj2 (Z.eqb_neq _ _)) by done).
  clear Hb. unfold num, arr, ptr. rewrite Hg. split_and!; simplify_map_eq; done.
Qed.

Lemma batch_settings_ok c : client_ok c -> client_ok (batch_settings c).
Proof.
  intros Hc. apply (client_ok_pager c); [done|apply batch_settings_agree, (bool_decide_eq_true_1 _); vm_compute; reflexivity| |].
  - destruct (batch_settings_mode c) as [_ Hm]. destruct (Z.eq_dec (num "batch" c) 0) as [H0|H0].
    + unfold batch_settings. rewrite H0. apply Hc.
    + destruct (Hm H0) as (_ & Hp & Hd & _). unfold pager_ok. rewrite Hp, Hd. cbn. unfold FN_REFLEN. lia.
  - unfold batch_settings. by destruct (_ =? 0).
Qed.

(** What holds of the client that [get_options] has made of another one. *)
Record started_from (c c' : client) : Prop := {
  sf_ok : client_ok c';
  sf_frame : forall v, v ∉ all_writes -> v ∉ end_variables -> v ∉ start_variables -> globals c' !! v = globals c !! v;
  sf_batch : num "batch" c' <> 0 -> in_batch_mode c'
}.

Lemma started_from_trans c c1 c2 : (forall v, v ∉ start_variables -> globals c1 !! v = globals c !! v) -> started_from c1 c2 -> started_from c c2.
Proof. intros H [H1 H2 H3]. constructor; [done| |done]. intros v Hv He Hs. by rewrite H2, H. Qed.

Lemma set_two_ok x y c : client_ok c -> client_ok (set_num "net_buffer_length" x (set_num "max_allowed_packet" y c)).
Proof.
  intros Hc. apply (client_ok_agree c); [done| |done]. apply Forall_forall. intros v Hv. cbn.
  rewrite !lookup_insert_ne; [done|..]; intros <-; revert Hv; apply (bool_decide_eq_false_1 _); vm_compute; reflexivity.
Qed.

Section last.
Context (get_tty_password : list Z).

Lemma last_settings_agree vs d c : apart vs ["current_db"; "skip_updates"; "opt_password"; "my_end_arg"; "connect_flag"] ->
  agree vs c (last_settings get_tty_password d c).
Proof. intros (?&?&?&?&?&_)%Forall_cons_forall. unfold last_settings. unchanged. Qed.

Lemma last_settings_quiet d c : quiet c (last_settings get_tty_password d c).
Proof.
  unfold last_settings.
  repeat match goal with
  | |- quiet _ (if ?b then _ else _) => destruct b
  | |- quiet _ (match ?x with Some _ => _ | None => _ end) => destruct x
  | |- quiet ?c (set_num _ _ ?x) => change (quiet c x)
  | |- quiet ?c (set_ptr _ _ ?x) => change (quiet c x)
  end; done.
Qed.

(** The flags of the connection without progress reports. *)
Lemma last_settings_flag d c : num "opt_progress_reports" c = 0 -> num "connect_flag" c = 0 ->
  num "connect_flag" (last_settings get_tty_password d c) = 0 \/ num "connect_flag" (last_settings get_tty_password d c) = CLIENT_IGNORE_SPACE.
Proof.
  intros Hp Hf. unfold last_settings.
  set (c1 := match d with Some d => _ | None => _ end). set (c2 := if num "tty_password" c1 =? 0 then _ else _).
  set (c3 := if num "debug_info_flag" c2 =? 0 then _ else _). set (c4 := if num "debug_check_flag" c3 =? 0 then _ else _).
  assert (Ha : agree ["opt_progress_reports"; "connect_flag"] c c4) by (unfold c4, c3, c2, c1; unchanged).
  pose proof (num_agree "opt_progress_reports" _ _ _ Ha ltac:(set_solver)) as H1. pose proof (num_agree "connect_flag" _ _ _ Ha ltac:(set_solver)) as H2.
  rewrite Hp in H1. rewrite Hf in H2. clearbody c4. destruct (num "ignore_spaces" c4 =? 0).
  - rewrite H1. by left.
  - set (c5 := set_num "connect_flag" _ c4). assert (num "opt_progress_reports" c5 = 0) as -> by (unfold c5; by rewrite num_set_ne).
    right. unfold c5. cbn [Z.eqb]. by rewrite num_set, H2.
Qed.

Lemma finish_started d c c2 x y : from c c2 ->
  started_from c (last_settings get_tty_password d (batch_settings (set_num "net_buffer_length" x (set_num "max_allowed_packet" y c2)))).
Proof.
  intros [Hok Hframe]. set (c3 := set_num "net_buffer_length" _ _).
  assert (H3 : forall vs, apart vs start_variables -> agree vs c2 c3) by (intros vs (_&_&_&_&_&_&?&?&_)%Forall_cons_forall; unfold c3; unchanged).
  assert (Hok3 : client_ok c3) by (apply (client_ok_agree c2); [done| |done]; apply Forall_forall; intros v Hv; unfold c3; cbn; rewrite !lookup_insert_ne; [done|..]; intros <-; revert Hv; apply (bool_decide_eq_false_1 _); vm_compute; reflexivity).
  clearbody c3. destruct (batch_settings_mode c3) as [Hb Hm]. pose proof (batch_settings_ok c3 Hok3) as Hok4.
  assert (H4 : forall vs, apart vs start_variables -> agree vs c3 (batch_settings c3)).
  { intros vs (_&?&?&?&_&_&_&_&?&?&?&?&_)%Forall_cons_forall. apply batch_settings_agree. repeat constructor; done. }
  set (c4 := batch_settings c3) in *. clearbody c4. set (c5 := last_settings _ d c4).
  assert (H5 : forall vs, apart vs start_variables -> agree vs c4 c5).
  { intros vs (_&_&_&_&_&_&_&_&_&_&?&_&?&?&?&?&_)%Forall_cons_forall. apply last_settings_agree. repeat constructor; done. }
  assert (H5' : agree ("opt_nopager" :: "opt_reconnect" :: "opt_progress_reports" :: ok_variables) c4 c5) by (apply last_settings_agree, (bool_decide_eq_true_1 _); vm_compute; reflexivity).
  destruct (last_settings_quiet d c4) as [Hl Hcon]. fold c5 in Hl, Hcon. constructor.
  - apply (client_ok_agree c4); [done| |done]. exact (Forall_inv_tail (Forall_inv_tail (Forall_inv_tail H5'))).
  - intros v Hv He Hs. rewrite <-(Hframe v Hv He). pose proof (apart_one _ _ Hs) as Ha.
    pose proof (agree_trans _ _ _ _ (agree_trans _ _ _ _ (H3 [v] Ha) (H4 [v] Ha)) (H5 [v] Ha)) as H. by inversion H.
  - rewrite (num_agree "batch" _ _ _ H5') by (apply (bool_decide_eq_true_1 _); vm_compute; reflexivity). rewrite Hb. intros H0. destruct (Hm H0) as (Hn & Hp & _ & Hr & Hpr & Hcf & Ht).
    unfold in_batch_mode. rewrite !(num_agree _ _ _ _ H5'), (arr_agree _ _ _ _ H5') by (apply (bool_decide_eq_true_1 _); vm_compute; reflexivity). rewrite Hcon. split_and!; try done. by apply last_settings_flag.
Qed.

End last.

Lemma from_environment_ok getenv c : client_ok c -> (forall p, getenv "PAGER" = Some p -> (length p < FN_REFLEN)%nat) ->
  exists c', from_environment getenv c = Some c' /\ client_ok c' /\ forall v, v ∉ start_variables -> globals c' !! v = globals c !! v.
Proof.
  intros Hc Hp. unfold from_environment. set (c1 := match getenv "MYSQL_HOST" with Some tmp => _ | None => c end).
  assert (Hpager : exists p c2, (length p < FN_REFLEN)%nat /\ match getenv "PAGER" with
      | None => strmov "pager" FN_REFLEN (str "stdout") (set_num "opt_nopager" 1 c1) | Some pagpoint => strmov "pager" FN_REFLEN pagpoint c1 end
      = Some (set_ptr "pager" (Some p) c2) /\ (c2 = c1 \/ c2 = set_num "opt_nopager" 1 c1)).
  { destruct (getenv "PAGER") as [p|]; [exists p, c1|exists (str "stdout"), (set_num "opt_nopager" 1 c1)]; (split; [|split; [|auto]]).
    - by apply Hp.
    - unfold strmov. by rewrite (proj2 (Nat.ltb_lt _ _) (Hp p eq_refl)).
    - cbn. unfold FN_REFLEN. lia.
    - done. }
  destruct Hpager as (p & c2 & Hlen & -> & Hc2). cbn [mbind option_bind]. rewrite arr_set. unfold strmov at 1. rewrite (proj2 (Nat.ltb_lt _ _) Hlen). cbn [mbind option_bind].
  eexists. split; [reflexivity|]. set (c3 := set_ptr "default_pager" _ _).
  assert (Ha : forall vs, apart vs start_variables -> agree vs c (set_num "opt_net_buffer_length" (num "net_buffer_length" c3) (set_num "opt_max_allowed_packet" (num "max_allowed_packet" c3) c3))).
  { intros vs (?&?&?&?&?&?&_)%Forall_cons_forall. unfold c3. unchanged. destruct Hc2 as [->| ->]; unfold c1; unchanged. }
  split.
  - assert (Hl : line_buff c3 = line_buff c) by (destruct Hc2 as [->| ->]; unfold c3, c1; by destruct (getenv "MYSQL_HOST")).
    apply (client_ok_pager c); [exact Hc| | |exact Hl].
    + apply Ha, (bool_decide_eq_true_1 _). vm_compute. reflexivity.
    + unfold pager_ok, c3. rewrite !arr_set_num, arr_set, arr_set_ne, arr_set by done. done.
  - intros v Hv. specialize (Ha [v] (apart_one _ _ Hv)). by inversion Ha.
Qed.

Lemma usage_ok version_line copyright defaults_help c : client_ok c -> client_ok (set_num "exit" 1 (usage version_line copyright defaults_help false c)).
Proof.
  intros Hc. pose proof (usage_globals version_line copyright defaults_help false c) as Hg. pose proof (usage_line_buff version_line copyright defaults_help false c) as Hl.
  revert Hg Hl. generalize (usage version_line copyright defaults_help false c). intros u Hg Hl. apply (client_ok_agree c); [done| |done].
  apply Forall_forall. intros v Hv. cbn. rewrite lookup_insert_ne, Hg; [done|]. intros <-. revert Hv. apply (bool_decide_eq_false_1 _). vm_compute. reflexivity.
Qed.

Lemma get_options_ends version_line copyright defaults_help my_fopen getenv get_tty_password (argv : list argv_elem) (c : client) :
  client_ok c -> (forall p, getenv "PAGER" = Some p -> (length p < FN_REFLEN)%nat) ->
  match get_options version_line copyright defaults_help my_fopen getenv get_tty_password argv c with
  | Some (Started c') => started_from c c'
  | Some (Refused code c') => code <> 0 /\ client_ok c'
  | Some (Over c') => client_ok c'
  | None => exists c1 r, from_environment getenv c = Some c1 /\ parse_options version_line copyright defaults_help my_fopen argv c1 = Some (Return 0 r) /\ r_argc r = 1 /\ r_kept r = []
  end.
Proof.
  intros Hc Hp. unfold get_options. destruct (from_environment_ok getenv c Hc Hp) as (c1 & Henv & Hc1 & Hf1). rewrite Henv. cbn [mbind option_bind].
  destruct (parse_options_from version_line copyright defaults_help my_fopen argv c1 Hc1) as (t & Ht & Hfrom). rewrite Ht. cbn [mbind option_bind].
  destruct t as [|code r|c2]; [done| |apply Hfrom]. destruct (Z.eqb_spec code 0) as [->|Hcode]; cbn [negb]; [|split; [done|apply Hfrom]].
  destruct (1 <? r_argc r); [apply usage_ok, batch_settings_ok, set_two_ok, Hfrom|].
  destruct (Z.eqb_spec (r_argc r) 1) as [H1|H1]; [|by apply (started_from_trans c c1), finish_started].
  destruct (r_kept r) as [|a kept] eqn:Hk; cbn [head mbind option_bind]; [exists c1, r; by rewrite Ht|]. by apply (started_from_trans c c1), finish_started.
Qed.

(** C9. Whatever the command line is, the options come to an end: the client
    goes on, or the options are refused with a code other than zero, or the
    program is over, except where the parser counts an argument that is not
    there.  The delimiter and the names of the pager, of the tee file and of the
    directory of character sets fit into their arrays, the length of the
    delimiter is its length and a delimiter other than the semicolon is marked
    as the user's; statements of [-e] make the client a batch client that reads
    them.  A client that goes on has changed no variables but those that the
    options write or [get_options] sets, so that for one [wait_flag] never
    changes, and in batch mode it has neither a pager nor a tee file nor
    reconnections nor progress reports. *)
Theorem get_options_safe version_line copyright defaults_help my_fopen getenv get_tty_password (argv : list argv_elem) (c : client) :
  client_ok c -> (forall p, getenv "PAGER" = Some p -> (length p < FN_REFLEN)%nat) ->
  match get_options version_line copyright defaults_help my_fopen getenv get_tty_password argv c with
  | Some (Started c') => started_from c c'
  | Some (Refused code c') => code <> 0 /\ client_ok c'
  | Some (Over c') => client_ok c'
  | None => exists c1 r, from_environment getenv c = Some c1 /\ parse_options version_line copyright defaults_help my_fopen argv c1 = Some (Return 0 r) /\ r_argc r = 1 /\ r_kept r = []
  end.
Proof. apply get_options_ends. Qed.

Lemma initial_ok : client_ok initial.
Proof.
  constructor.
  - split_and!; [apply Nat.ltb_lt|..]; vm_compute; reflexivity.
  - split; apply Nat.ltb_lt; vm_compute; reflexivity.
  - apply Nat.ltb_lt. vm_compute. reflexivity.
  - apply Nat.leb_le. vm_compute. reflexivity.
  - intros b Hb. discriminate Hb.
Qed.

(** [-w --delimiter=// -e x -e y --tee=f db]: the client is a batch client, and
    [wait_flag] is still unset. *)
Lemma get_options_safe_witness :
  exists c', get_options [] [] [] (fun _ => true) (fun _ => None) []
      (map Arg [str "-w"; str "--delimiter=//"; str "-e"; str "x"; str "-e"; str "y"; str "--tee=f"; str "db"]) initial = Some (Started c')
    /\ globals c' !! "wait_flag" = None /\ in_batch_mode c' /\ num "delimiter_length" c' = 2.
Proof.
  set (args := map Arg _).
  pose proof (get_options_safe [] [] [] (fun _ => true) (fun _ => None) [] args initial initial_ok ltac:(done)) as H.
  assert (Hv : match get_options [] [] [] (fun _ => true) (fun _ => None) [] args initial with
    | Some (Started c) => Some (num "batch" c, num "delimiter_length" c) | _ => None end = Some (1, 2)) by (vm_compute; reflexivity).
  destruct (get_options _ _ _ _ _ _ args initial) as [[c'|code c'|c']|]; try discriminate Hv.
  injection Hv as Hb Hd. exists c'. split; [reflexivity|]. destruct H as [Hok Hframe Hbatch]. split_and!.
  - rewrite Hframe; [reflexivity|..]; apply (bool_decide_eq_true_1 _); vm_compute; reflexivity.
  - apply Hbatch. rewrite Hb. discriminate.
  - exact Hd.
Defined.
