(* ===== verification/ExecuteOption.v ===== *)
(** * Statements on the command line (client/mysql.cc, client/readline.cc)

    From the [-e] options of the command line through the option parser, the
    reader of lines and the main loop to the statements that are sent. *)

From stdpp Require Import base list numbers strings gmap.
From S2P Require Import Prelude CString Charset AddLine AddLineSafe AddLineTokens ReadExec Typelib GetOpt GetOptParse GetOptSafe Readline Execute Session Options OptionsSpec.
Open Scope Z_scope.

(** The statements that a setting of a command line gives. *)
Definition executed (i : item) : list (list Z) :=
  let at_e o v := if o_id o =? "e"%chr then [v] else [] in
  match i with
  | LongEq o v | LongNext o v | ShortArg o v | ShortNext o v => at_e o v
  | Special i _ o => at_e o (GetOpt.arg_text (special_value i))
  | Long _ | Short _ | Plain _ => []
  end.

(** The reader behind some more statements. *)
Definition add_statements (b : option LINE_BUFFER) (ss : list (list Z)) : option LINE_BUFFER :=
  fold_left (fun b s => Some (batch_readline_command b s)) ss b.

Lemma add_statements_reader s ss : add_statements None (s :: ss) = Some (statements_reader s ss).
Proof.
  unfold add_statements, statements_reader. cbn [fold_left]. generalize (batch_readline_command None s). induction ss as [|t ss IH]; intros b; cbn [fold_left]; auto.
Qed.

Lemma named_in o : named my_long_options o = true -> o ∈ my_long_options.
Proof.
  unfold named. rewrite !andb_true_iff. intros [[[_ H] _] _]. destruct (list_find _ my_long_options) as [[i p]|] eqn:E; [|done].
  apply bool_decide_eq_true in H as ->. apply list_find_Some in E as [E _]. exact (list_elem_of_lookup_2 _ _ _ E).
Qed.

Lemma lettered_in o : lettered my_long_options o = true -> o ∈ my_long_options.
Proof.
  unfold lettered. rewrite !andb_true_iff. intros [[_ H] _]. apply bool_decide_eq_true in H.
  assert (Ho : o ∈ filter (fun p => o_id p = o_id o) my_long_options) by (rewrite H; left). exact (proj2 (proj1 (list_elem_of_filter _ _ _) Ho)).
Qed.

(** The option [-e] has no variable and needs a value. *)
Lemma e_option o : o ∈ my_long_options -> o_id o = "e"%chr -> is_switch o = false /\ o_value o = None /\ o_arg_type o = REQUIRED_ARG.
Proof.
  assert (H : forallb (fun o => negb (o_id o =? "e"%chr) || (negb (is_switch o) && bool_decide (o_value o = None) && bool_decide (o_arg_type o = REQUIRED_ARG))) my_long_options = true)
    by (vm_compute; reflexivity).
  rewrite forallb_forall in H. intros Ho%list_elem_of_In He. apply H in Ho. rewrite He in Ho. cbn [Z.eqb negb orb] in Ho.
  change ("e"%chr =? "e"%chr) with true in Ho. cbn [negb orb] in Ho. apply andb_prop in Ho as [[H1%negb_true_iff H2%bool_decide_eq_true]%andb_prop H3%bool_decide_eq_true]. done.
Qed.

Lemma set_var_line_buff v x (c : client) : line_buff (set_var v x c) = line_buff c.
Proof. done. Qed.

Lemma put_err_line_buff m (c : client) : line_buff (put_err m c) = line_buff c.
Proof. done. Qed.

Section client.
Context (version_line copyright defaults_help : list Z) (my_fopen : list Z -> bool) (my_progname : list Z)
  (getopt_double : list Z -> my_option -> Z * bool * list Z).
Abbreviation one_option := (get_one_option version_line copyright defaults_help my_fopen).

Lemma plain_options : Forall plain_option my_long_options.
Proof using. apply Forall_forall. intros o Ho%list_elem_of_In. pose proof table_values as H. rewrite forallb_forall in H. apply H, andb_prop in Ho as [_ Ho]. by apply Is_true_true. Qed.

(** What a setting leaves in the reader. *)
Definition reads (l : option LINE_BUFFER) (r : option (outcome client)) : Prop :=
  match r with Some (Goes s) => line_buff s = l | Some (Fails code _) => code <> 0 | _ => True end.

Lemma tell_reads o a code s : code <> 0 ->
  reads (add_statements (line_buff s) (if o_id o =? "e"%chr then [GetOpt.arg_text a] else [])) (Some (tell one_option o a code s)).
Proof using.
  intros Hcode. unfold tell. destruct (Z.eqb_spec (o_id o) "e"%chr) as [He|He].
  - rewrite He. replace (one_option "e"%chr o a s) with (Reply false (execute_option a s)) by reflexivity. cbn [reads]. apply execute_option_spec.
  - pose proof (get_one_option_line_buff version_line copyright defaults_help my_fopen (o_id o) o a s He) as H.
    destruct (one_option (o_id o) o a s) as [failed s'|s']; [|done]. by destruct failed.
Qed.

Lemma set_value_reads o a s : o ∈ my_long_options ->
  reads (add_statements (line_buff s) (if o_id o =? "e"%chr then [GetOpt.arg_text a] else [])) (set_value my_progname getopt_double one_option o a s).
Proof using.
  intros Ho. unfold set_value.
  destruct (setval_keeps (H := client_variables) my_progname getopt_double my_long_options (fun c => line_buff c = line_buff s) plain_options
    (fun o v x c _ _ H => H) (fun m c H => H) o a false s Ho eq_refl) as (code & s' & -> & Hs').
  cbn [mbind option_bind]. destruct (Z.eqb_spec code 0) as [_|Hcode]; [|exact Hcode]. rewrite <-Hs'. by apply tell_reads.
Qed.

Lemma tell_other o a code s : code <> 0 -> o_id o <> "e"%chr -> reads (line_buff s) (Some (tell one_option o a code s)).
Proof using. intros Hcode He. pose proof (tell_reads o a code s Hcode) as H. by rewrite (proj2 (Z.eqb_neq _ _) He) in H. Qed.

Lemma not_e o : o ∈ my_long_options -> is_switch o = true \/ o_arg_type o <> REQUIRED_ARG -> o_id o <> "e"%chr.
Proof using. intros Ho Hs He. destruct (e_option o Ho He) as (H1 & _ & H3). destruct Hs; congruence. Qed.

Lemma set_switch_reads o a s : o ∈ my_long_options -> is_switch o = true -> reads (line_buff s) (set_switch my_progname one_option o a s).
Proof using.
  intros Ho Hsw. unfold set_switch. destruct (bool_value a) as [b|]; [|done]. destruct (o_value o) as [v|]; [|done]. cbn [mbind option_bind].
  rewrite <-(set_var_line_buff v (VNum (Z.b2z b)) s). apply tell_other; [done|]. apply not_e; auto.
Qed.

Lemma letter_reads o s : o ∈ my_long_options -> o_arg_type o <> REQUIRED_ARG -> reads (line_buff s) (letter my_progname getopt_double one_option o s).
Proof using.
  intros Ho Ha. pose proof (not_e o Ho (or_intror Ha)) as He. unfold letter.
  assert (Hv : reads (line_buff s) (v ← o_value o; Some (tell one_option o null EXIT_UNSPECIFIED_ERROR (set_var v (VNum 1) s)))).
  { destruct (o_value o) as [v|]; [|done]. cbn [mbind option_bind]. rewrite <-(set_var_line_buff v (VNum 1) s). by apply tell_other. }
  destruct (is_switch o); [exact Hv|]. destruct (o_arg_type o); [|destruct (_ && _); [exact Hv|by apply tell_other]|done].
  pose proof (set_value_reads o null s Ho) as H. by rewrite (proj2 (Z.eqb_neq _ _) He) in H.
Qed.

Lemma cluster_in os : cluster my_long_options os = true -> Forall (fun o => o ∈ my_long_options /\ o_arg_type o <> REQUIRED_ARG) os.
Proof using.
  induction os as [|o os IH]; [constructor|]. cbn [cluster]. intros Hc. destruct os as [|o' os].
  - apply andb_prop in Hc as [Hl%lettered_in Ht%negb_true_iff%bool_decide_eq_false]. constructor; [split; assumption|constructor].
  - apply andb_prop in Hc as [[Hl%lettered_in Ht%bool_decide_eq_true]%andb_prop Hc]. constructor; [split; [exact Hl|by rewrite Ht]|by apply IH].
Qed.

Lemma letters_reads os : forall s, Forall (fun o => o ∈ my_long_options /\ o_arg_type o <> REQUIRED_ARG) os ->
  reads (line_buff s) (letters my_progname getopt_double one_option os s).
Proof using.
  induction os as [|o os IH]; intros s Hos; [done|]. inversion Hos as [|? ? [Ho Ha] Hos']; subst. cbn [letters].
  pose proof (letter_reads o s Ho Ha) as H. destruct (letter _ _ _ o s) as [[s'|code s'|s']|]; cbn [mbind option_bind reads] in *; [|done..].
  rewrite <-H. by apply IH.
Qed.

Lemma meaning_reads i s : well_formed my_long_options i = true ->
  reads (add_statements (line_buff s) (executed i)) (meaning my_progname getopt_double one_option i s).
Proof using.
  intros Hi. destruct i as [o v|o v|o|i p o|o v|o v|os|a]; cbn [well_formed meaning executed] in *.
  - apply andb_prop in Hi as [Hn%named_in _]. destruct (is_switch o) eqn:Hs; [|by apply (set_value_reads o (text v))].
    rewrite (proj2 (Z.eqb_neq _ _)) by auto using not_e. by apply set_switch_reads.
  - apply andb_prop in Hi as [Hn%named_in _]. by apply (set_value_reads o (text v)).
  - apply andb_prop in Hi as [Hn%named_in Ha%negb_true_iff%bool_decide_eq_false]. destruct (is_switch o) eqn:Hs; [by apply set_switch_reads|].
    pose proof (set_value_reads o null s Hn) as H. by rewrite (proj2 (Z.eqb_neq _ _)) in H by auto using not_e.
  - apply andb_prop in Hi as [[Hn%named_in _]%andb_prop _]. destruct (is_switch o) eqn:Hs; [|by apply set_value_reads].
    rewrite (proj2 (Z.eqb_neq _ _)) by auto using not_e. by apply set_switch_reads.
  - apply andb_prop in Hi as [[Hn%lettered_in _]%andb_prop _]. by apply (set_value_reads o (text v)).
  - apply andb_prop in Hi as [Hn%lettered_in _]. by apply (set_value_reads o (text v)).
  - apply andb_prop in Hi as [_ Hc%cluster_in]. by apply letters_reads.
  - done.
Qed.

Lemma meanings_reads items : forall s, forallb (well_formed my_long_options) items = true ->
  reads (add_statements (line_buff s) (concat (map executed items))) (meanings my_progname getopt_double one_option items s).
Proof using.
  induction items as [|i items IH]; intros s Hw; [done|]. cbn [forallb] in Hw. apply andb_prop in Hw as [Hi Hw]. cbn [meanings map concat].
  pose proof (meaning_reads i s Hi) as H. destruct (meaning _ _ _ i s) as [[s'|code s'|s']|]; cbn [mbind option_bind reads] in *; [|done..].
  unfold add_statements in *. rewrite fold_left_app, <-H. by apply IH.
Qed.

End client.

Section start.
Context (version_line copyright defaults_help : list Z) (my_fopen : list Z -> bool) (getenv : string -> option (list Z)) (get_tty_password : list Z).
Abbreviation options := (get_options version_line copyright defaults_help my_fopen getenv get_tty_password).

Lemma from_environment_line_buff c c' : from_environment getenv c = Some c' -> line_buff c' = line_buff c.
Proof using.
  unfold from_environment. set (c1 := match getenv "MYSQL_HOST" with Some tmp => _ | None => c end).
  assert (H1 : line_buff c1 = line_buff c) by (unfold c1; by destruct (getenv "MYSQL_HOST")). rewrite <-H1. clearbody c1. clear H1.
  unfold strmov. destruct (getenv "PAGER") as [p|]; cbn [mbind option_bind].
  - destruct (_ <? _)%nat; [|done]. cbn [mbind option_bind]. destruct (_ <? _)%nat; [|done]. by intros [= <-].
  - destruct (_ <? _)%nat; [|done]. cbn [mbind option_bind]. destruct (_ <? _)%nat; [|done]. by intros [= <-].
Qed.

Lemma batch_settings_line_buff c : line_buff (batch_settings c) = line_buff c.
Proof using. unfold batch_settings. by destruct (_ =? 0). Qed.

Lemma get_options_reads items tail c c' : forallb (well_formed my_long_options) items = true ->
  options (command_line items tail) c = Some (Started c') -> line_buff c' = add_statements (line_buff c) (concat (map executed items)).
Proof using.
  intros Hw. unfold get_options. destruct (from_environment getenv c) as [c1|] eqn:Henv; [|done]. cbn [mbind option_bind].
  rewrite <-(from_environment_line_buff c c1 Henv). clear Henv.
  pose proof (handle_options_meanings (str "obclient") (fun _ _ => (0, false, [])) (fun _ => []) (fun _ _ => (0, None)) getopt_defaults my_long_options
    (get_one_option version_line copyright defaults_help my_fopen) items tail c1 ltac:(vm_compute; reflexivity) Hw) as H.
  cbv zeta in H. unfold parse_options. set (s0 := if my_handle_options_init_variables getopt_defaults then _ else _) in H.
  assert (Hs0 : line_buff s0 = line_buff c1).
  { unfold s0. cbn [getopt_defaults my_handle_options_init_variables].
    apply (init_variables_keeps (H := client_variables) (fun _ => []) (fun _ _ => (0, None)) my_long_options (fun c => line_buff c = line_buff c1) plain_options
      (fun o v x c _ _ H => H) (fun m c H => H)); [by apply Forall_forall|done]. }
  rewrite <-Hs0. clearbody s0. clear Hs0.
  pose proof (meanings_reads version_line copyright defaults_help my_fopen (str "obclient") (fun _ _ => (0, false, [])) items s0 Hw) as Hr.
  destruct (meanings _ _ _ items s0) as [[s'|code s'|s']|]; cbn [reads] in Hr.
  - destruct H as (r & -> & Hs & _). cbn [mbind option_bind negb Z.eqb]. rewrite <-Hr, <-Hs. clear Hr Hs.
    destruct (1 <? r_argc r); [done|].
    assert (Hl : forall d x y, line_buff (last_settings get_tty_password d (batch_settings (set_num "net_buffer_length" x (set_num "max_allowed_packet" y (r_state r))))) = line_buff (r_state r))
      by (intros d x y; rewrite (proj1 (last_settings_quiet _ _ _)), batch_settings_line_buff; done).
    destruct (r_argc r =? 1); [destruct (r_kept r) as [|a kept]; [done|]; cbn [head mbind option_bind]|]; intros [= <-]; apply Hl.
  - destruct H as (r & -> & _). cbn [mbind option_bind]. by rewrite (proj2 (Z.eqb_neq _ _) Hr).
  - by rewrite H.
  - by rewrite H.
Qed.

End start.

(** The client before the options are read. *)
Definition early (c : client) : Prop :=
  line_buff c = None /\ agree (delimiter_variables ++ ["mysql_charsets_dir"]) initial c /\ pager_ok c /\ outfile_ok c.

Lemma early_ok c : early c -> client_ok c.
Proof.
  intros (Hl & Ha & Hp & Ho). destruct initial_ok as [H1 _ _ H4 _]. constructor; try assumption.
  - unfold delimiter_ok in *. rewrite !(num_agree _ _ _ _ Ha), !(arr_agree _ _ _ _ Ha) by (apply (bool_decide_eq_true_1 _); vm_compute; reflexivity). exact H1.
  - unfold charsets_ok in *. rewrite (arr_agree _ _ _ _ Ha) by (apply (bool_decide_eq_true_1 _); vm_compute; reflexivity). exact H4.
  - intros b. by rewrite Hl.
Qed.

Lemma early_set v z c : v ∉ delimiter_variables ++ ["mysql_charsets_dir"; "pager"; "default_pager"; "outfile"] -> early c -> early (set_num v z c).
Proof.
  intros Hv (Hl & Ha & [Hp Hd] & Ho). unfold early, pager_ok, outfile_ok in *. rewrite !arr_set_num; [|intros <-; apply Hv, (bool_decide_eq_true_1 _); vm_compute; reflexivity..].
  split_and!; try assumption. apply (agree_trans _ _ c _ Ha), agree_set_num. intros Hin. apply Hv. rewrite elem_of_app in *. destruct Hin as [Hin|Hin]; [by left|right].
  by apply list_elem_of_singleton in Hin as ->; left.
Qed.

Lemma before_options_early getenv tty c : (forall p, getenv "PAGER" = Some p -> (length p < FN_REFLEN)%nat) -> before_options getenv tty initial = Some c -> early c.
Proof.
  intros Hp. unfold before_options. set (c1 := match getenv "DISABLE_SET_NUM_WIDTH" with Some env => _ | None => _ end).
  set (kept := delimiter_variables ++ ["mysql_charsets_dir"; "default_pager"]).
  assert (H1 : agree kept initial c1 /\ line_buff c1 = None) by (split; [unfold c1; unchanged|unfold c1; by destruct (getenv "DISABLE_SET_NUM_WIDTH")]).
  clearbody c1. destruct H1 as [Ha Hl]. set (c2 := set_ptr "pager" _ _).
  assert (Ha2 : agree kept initial c2) by (apply (agree_trans _ _ c1 _ Ha); unfold c2; unchanged).
  assert (H2 : early c2).
  { split; [exact Hl|]. split; [apply Forall_forall; intros v Hv; unfold agree in Ha2; rewrite Forall_forall in Ha2; apply Ha2; unfold kept; set_solver|].
    unfold pager_ok, outfile_ok. rewrite (arr_agree "default_pager" kept initial c2 Ha2) by (apply (bool_decide_eq_true_1 _); vm_compute; reflexivity).
    unfold c2. rewrite arr_set, arr_set_ne, arr_set by done. split_and!; apply Nat.ltb_lt; vm_compute; reflexivity. }
  clearbody c2. assert (Hfin : forall c3, early c3 -> early (set_num "exit_status" 1 (if tty then set_num "add_to_history" 1 c3 else set_num "ignore_errors" 0 (set_num "opt_silent" 1 (set_num "batch" 1 c3))))).
  { intros c3 H3. destruct tty; repeat (apply early_set; [apply (bool_decide_eq_true_1 _); vm_compute; reflexivity|]); exact H3. }
  destruct (getenv "PAGER") as [[|t tmp]|]; cbn [mbind option_bind]; try (intros [= <-]; by apply Hfin).
  unfold strmov. destruct (Nat.ltb_spec (length (t :: tmp)) FN_REFLEN) as [Hlen|]; [|done]. cbn [mbind option_bind]. intros [= <-]. apply Hfin.
  assert (H3 : early (set_num "default_pager_set" 1 c2)) by (apply early_set; [apply (bool_decide_eq_true_1 _); vm_compute; reflexivity|done]).
  destruct H3 as (Hl3 & Ha3 & [Hp3 _] & Ho3). split; [exact Hl3|]. split; [apply (agree_trans _ _ _ _ Ha3), agree_set_ptr, (bool_decide_eq_true_1 _); vm_compute; reflexivity|].
  unfold pager_ok, outfile_ok in *. rewrite arr_set, !arr_set_ne by done. done.
Qed.

Lemma default_target_keeps c : line_buff (default_target c) = line_buff c /\ num "batch" (default_target c) = num "batch" c.
Proof.
  split.
  - unfold default_target. destruct (ptr "opt_mysql_unix_port" c); [done|]. set (c1 := match ptr "current_host" c with None => _ | Some _ => _ end).
    assert (H1 : line_buff c1 = line_buff c) by (unfold c1; by destruct (ptr "current_host" c)). rewrite <-H1. clearbody c1.
    destruct (ptr "current_user" c1); by destruct (_ =? 0).
  - apply (num_agree _ ["batch"]); [|set_solver]. unfold default_target. unchanged.
Qed.

Section started.
Context (version_line copyright defaults_help : list Z) (my_fopen : list Z -> bool) (getenv : string -> option (list Z)) (get_tty_password : list Z).

(** Statements on the command line make the client a batch client that reads
    them and not its input. *)
Lemma main_start_reads tty stdin items tail c s ss :
  (forall p, getenv "PAGER" = Some p -> (length p < FN_REFLEN)%nat) ->
  forallb (well_formed my_long_options) items = true -> concat (map executed items) = s :: ss ->
  main_start version_line copyright defaults_help my_fopen getenv get_tty_password tty stdin (command_line items tail) = Some (Started c) ->
  num "batch" c = 1 /\ line_buff c = Some (statements_reader s ss).
Proof using.
  intros Hp Hw He. unfold main_start. destruct (before_options getenv tty initial) as [c0|] eqn:H0; [|done]. cbn [mbind option_bind].
  pose proof (before_options_early getenv tty c0 Hp H0) as Hc0. pose proof (get_options_ends version_line copyright defaults_help my_fopen getenv get_tty_password
    (command_line items tail) c0 (early_ok c0 Hc0) Hp) as Hs. destruct (get_options _ _ _ _ _ _ (command_line items tail) c0) as [[c1|code c1|c1]|] eqn:H1; cbn [mbind option_bind]; try discriminate.
  pose proof (get_options_reads _ _ _ _ _ _ items tail c0 c1 Hw H1) as Hl. rewrite He, (proj1 Hc0), add_statements_reader in Hl.
  destruct (ok_execute _ (sf_ok _ _ Hs) _ Hl) as (Hb & _ & _).
  set (c2 := set_num "exit_status" 0 c1). assert (H2 : line_buff c2 = Some (statements_reader s ss) /\ num "batch" c2 = 1) by (split; [exact Hl|unfold c2; by rewrite num_set_ne]).
  clearbody c2. destruct H2 as [Hl2 Hb2]. rewrite Hl2, Hb2. cbn [Z.eqb negb found andb]. intros [= <-].
  destruct (default_target_keeps c2) as [Hl3 Hb3]. split; [rewrite num_set_ne by done; congruence|]. cbn [line_buff set_num with_globals]. congruence.
Qed.

End started.

Lemma statements_reader_error s ss : Readline.error (statements_reader s ss) = 0.
Proof. induction ss as [|t ss IH] using rev_ind; [done|]. by rewrite <-statements_reader_snoc. Qed.

Lemma file_lines_joined s ss : (length (file_lines true (join_strings s ss ++ [c_nl])) <= length (join_strings s ss) + 1)%nat.
Proof. pose proof (ReadExec.length_file_lines true (join_strings s ss ++ [c_nl])) as H. rewrite length_app in H. exact H. Qed.

(** The main loop runs in the client that has been started: these variables
    are read by the loop and by the scanner, and between the options and the
    loop only the script of a login could change the delimiter. *)
Record runs_client {world} `{cl : ReadExec.Client world} (c : client) (w : world) : Prop := {
  rc_comments : AddLine.preserve_comments (AddLine.sess w) = negb (num "preserve_comments" c =? 0);
  rc_delimiter : Commands.delimiter (AddLine.vars (AddLine.sess w)) = arr "delimiter" c;
  rc_named : ReadExec.named_cmds w = negb (num "named_cmds" c =? 0);
  rc_binary : ReadExec.opt_binary_mode w = negb (num "opt_binary_mode" c =? 0)
}.

Lemma runs_client_mode {world} `{cl : ReadExec.Client world} (m : AddLineTokens.mode) (plain : world -> Prop) c (w : world) :
  runs_client c w -> ReadExec.batch_mode m plain -> plain w ->
  AddLineTokens.m_preserve m = negb (num "preserve_comments" c =? 0) /\ AddLineTokens.m_delimiter m = arr "delimiter" c.
Proof.
  intros Hc Hm Hw. destruct (AddLineTokens.plain_session _ _ (ReadExec.batch_in_mode _ _ Hm) w Hw) as (Hp & _ & _ & _ & Hd & _).
  by rewrite <-Hp, <-Hd, (rc_comments _ _ Hc), (rc_delimiter _ _ Hc).
Qed.

(** C6. Statements on the command line.  If a command line gives statements with
    the option -e or --execute, in whatever form and between whatever other
    settings and arguments, and the client starts, then it is a batch client
    and does not read its standard input; when it runs a session in MySQL mode
    without binary mode, its main loop runs the commands and sends exactly the
    other statements that the tokens of the strings say, joined by spaces in
    their order, up to one that ends the client.  The delimiter and whether
    comments are sent are those that the command line has set.  A string may
    have several lines and several statements, and the last one needs no
    delimiter; the exit status is that of a script. *)
Theorem execute_option_sends {world} {good : world -> Prop} `{pl : AddLineSafe.ProgramLaws world good} `{cl : !ReadExec.Client world}
    version_line copyright defaults_help my_fopen getenv get_tty_password tty stdin items tail (c : client) (s : list Z) (ss : list (list Z))
    {fworld} (my_read : fworld -> Z -> read_result * fworld) (remaining : fworld -> list Z) (fw : fworld)
    (m : AddLineTokens.mode) (plain : world -> Prop) (script : list (list AddLineTokens.token)) (fuel : nat)
    (w : world) (w0 := ReadExec.set_real_binary_mode false (ReadExec.set_exit_status 1 w))
    (r := ReadExec.script_end (ReadExec.script_runs m 0 [] w0 script)) :
  (forall p, getenv "PAGER" = Some p -> (length p < FN_REFLEN)%nat) ->
  forallb (well_formed my_long_options) items = true -> concat (map executed items) = s :: ss ->
  main_start version_line copyright defaults_help my_fopen getenv get_tty_password tty stdin (command_line items tail) = Some (Started c) ->
  runs_client c w -> ReadExec.batch_mode m plain -> (forall w, plain w -> good w) -> plain w -> read_spec my_read remaining ->
  (length (join_strings s ss) + 1 < fuel)%nat ->
  ReadExec.script_ok m plain 0 [] w0 (file_lines true (join_strings s ss ++ [c_nl])) script ->
  AddLineTokens.m_preserve m = negb (num "preserve_comments" c =? 0) /\ AddLineTokens.m_delimiter m = arr "delimiter" c
  /\ exists b src' i,
    num "batch" c = 1 /\ line_buff c = Some b
    /\ @ReadExec.read_and_execute _ _ _ _ (ReadExec.batch_source my_read fuel) fuel false (b, fw) [] false w = Some (fst r, src', i)
    /\ i_world i = ReadExec.set_real_binary_mode false (snd r).
Proof.
  intros Hp Hw He Hs Hrun Hmode Hgood Hplain Hread Hfuel Hok.
  destruct (runs_client_mode m plain c w Hrun Hmode Hplain) as [Hkeep Hdelim]. split; [exact Hkeep|]. split; [exact Hdelim|].
  destruct (main_start_reads _ _ _ _ _ _ tty stdin items tail c s ss Hp Hw He Hs) as [Hb Hl].
  assert (Hlines : read_lines my_read fuel fuel (statements_reader s ss) false fw = Some (map (fun l => (l, false)) (file_lines true (join_strings s ss ++ [c_nl])))).
  { destruct (batch_readline_command_joins s ss) as (Hbuf & Hend & Heof). apply read_lines_string; unfold statements_reader; rewrite ?Hbuf, ?Hend, ?drop_0; try done.
    - by rewrite List.last_last.
    - lia.
    - rewrite length_app. cbn. lia.
    - lia. }
  destruct (ReadExec.read_lines_feeds my_read remaining Hread _ _ (statements_reader s ss) fw _ (statements_reader_error s ss) Hlines) as (src' & Hf & Herr).
  pose proof (file_lines_joined s ss) as Hlen.
  destruct (ReadExec.read_and_execute_lines (src_class := ReadExec.batch_source my_read fuel) m plain Hmode Hgood
    _ script w _ src' fuel Hplain Hf Herr Hok ltac:(lia)) as (src1 & i & Hi & Hiw).
  by exists (statements_reader s ss), src1, i.
Qed.

(** The option, a command line with it, [-e "select ';' ... y" --execute= db],
    and the lines of its statements. *)
Definition execute_opt : my_option :=
  opt (str "execute") "e"%chr (str "Execute command and quit. (Disables --force and history file.)") None GET_STR REQUIRED_ARG 0 0 0 0.

Definition sample_statements : list Z := UTF8_BOM ++ str "select ';'/*k*/" ++ [c_nl] ++ str "x;" ++ [c_nl] ++ str "y".

Definition sample_items : list item := [ShortNext execute_opt sample_statements; LongEq execute_opt []; GetOptParse.Plain (str "db")].

Lemma execute_option_sends_witness :
  exists c b src' i,
    main_start [] [] [] (fun _ => true) (fun _ => None) [] true None
      (map Arg [str "-e"; sample_statements; str "--execute="; str "db"]) = Some (Started c)
    /\ line_buff c = Some b
    /\ @read_and_execute _ _ _ _ (batch_source slow_read 50) 50 false (b, []) [] false (new_batch true) = Some (0, src', i)
    /\ r_sent (bt_rec (i_world i)) = [sample_statement; str "y"].
Proof.
  assert (Hs : match main_start [] [] [] (fun _ => true) (fun _ => None) [] true None (command_line sample_items None) with
    | Some (Started c) => bool_decide ((num "preserve_comments" c, num "named_cmds" c, num "opt_binary_mode" c, arr "delimiter" c) = (1, 0, 0, str ";"))
    | _ => false end = true) by (vm_compute; reflexivity).
  destruct (main_start [] [] [] (fun _ => true) (fun _ => None) [] true None (command_line sample_items None)) as [[c| |]|] eqn:E; try discriminate Hs.
  apply bool_decide_eq_true in Hs. injection Hs as Hpc Hnc Hbm Hd.
  destruct (execute_option_sends [] [] [] (fun _ => true) (fun _ => None) [] true None sample_items None c sample_statements [[]] slow_read id []
    (sample_mode true) (batch_plain true) sample_script 50 (new_batch true)) as (_ & _ & b & src' & i & _ & Hb & Hr & Hi).
  - discriminate.
  - vm_compute. reflexivity.
  - vm_compute. reflexivity.
  - exact E.
  - split; [by rewrite Hpc|by rewrite Hd|by rewrite Hnc|by rewrite Hbm].
  - apply batch_sample_mode.
  - intros w Hw. by apply (sample_good true).
  - done.
  - apply slow_read_spec.
  - apply Nat.ltb_lt. vm_compute. reflexivity.
  - replace (file_lines true (join_strings sample_statements [[]] ++ [c_nl])) with [UTF8_BOM ++ str "select ';'/*k*/"; str "x;"; str "y "] by (vm_compute; reflexivity).
    apply sample_script_ok.
  - exists c, b, src', i. split; [exact E|]. split; [exact Hb|]. split; [rewrite Hr; by vm_compute|rewrite Hi; by vm_compute].
Defined.
