(* ===== verification/Startup.v ===== *)
(** * The start of the client with its option files (client/mysql.cc: main, mysys/my_default.c)

    The arguments of the option files and those of the command line together. *)

From stdpp Require Import base list numbers strings gmap.
From S2P Require Import Prelude CString Charset Typelib FileNames OptionFiles OptionFilesSpec GetOpt GetOptParse GetOptSafe Readline Execute Session Options OptionsSpec.
Open Scope Z_scope.

Section start.
Context (home_dir : option (list Z)) (getcwd : nat -> option (list Z)) (getpwnam : list Z -> option (list Z)) (my_realpath my_readlink : list Z -> list Z)
  (my_stat : list Z -> option bool) (read_file : list Z -> option (list Z)) (my_dir : list Z -> option (list (list Z)))
  (dir_message : list Z -> list Z) (my_aes_decrypt : list Z -> list Z -> option (list Z)) (getenv : string -> option (list Z))
  (DEFAULT_SYSCONFDIR : option (list Z)).
(** The help texts, whether a tee file can be opened, and the password. *)
Context (version_line copyright defaults_help : list Z) (my_fopen : list Z -> bool) (get_tty_password : list Z).

Abbreviation load := (my_load_defaults home_dir getcwd getpwnam my_realpath my_readlink my_stat read_file my_dir dir_message my_aes_decrypt getenv DEFAULT_SYSCONFDIR (str "my") load_default_groups).
Abbreviation start := (main_start version_line copyright defaults_help my_fopen getenv get_tty_password).

(** [main] up to the connection; [progname] is the name of the program. *)
Definition client_start (progname : list Z) (tty : bool) (stdin : option file_mode) (argv : list (list Z)) : option started :=
  c ← before_options getenv tty initial;
  '(r, err) ← load argv;
  let c := put_messages err c in
  match r with
  | Loaded argv => start tty stdin (map Arg argv)
  | PrintDefaults argv =>
      Some (Over (set_num "exit" 0 (printf (progname ++ str " would have been started with the following arguments:" ++ [c_nl]
        ++ flat_map (fun a => a ++ str " ") argv ++ [c_nl]) c)))
  | Failed _ => Some (Over (set_num "exit" 1 c))
  end.

End start.

Lemma option_meanings_app {S} `{Variables S} my_progname getopt_double (get_one_option : Z -> my_option -> argument -> S -> reply S) a b s :
  meanings my_progname getopt_double get_one_option (a ++ b) s
  = (x ← meanings my_progname getopt_double get_one_option a s; match x with Goes s => meanings my_progname getopt_double get_one_option b s | _ => Some x end).
Proof.
  revert s. induction a as [|i a IH]; intros s; cbn [app meanings]; [done|]. destruct (meaning _ _ _ i s) as [[s'|code s'|s']|]; cbn [mbind option_bind]; auto.
Qed.

Lemma command_line_app a b tail : command_line (a ++ b) tail = concat (map render a) ++ command_line b tail.
Proof. unfold command_line. by rewrite map_app, concat_app, app_assoc. Qed.

Lemma handle_options_sequence {S} `{Variables S} my_progname getopt_double constant getopt_get_addr longopts (one : Z -> my_option -> argument -> S -> reply S) file_items items tail (s s1 s2 : S) :
  forallb (fun o => forallb is_char (o_name o)) longopts = true -> forallb (well_formed longopts) (file_items ++ items) = true ->
  forallb (fun i => bool_decide (plain i = [])) file_items = true ->
  meanings my_progname getopt_double one file_items (init_variables getopt_get_addr longopts (init_one_value constant) s) = Some (Goes s1) ->
  meanings my_progname getopt_double one items s1 = Some (Goes s2) ->
  exists r, handle_options my_progname getopt_double constant getopt_get_addr getopt_defaults longopts (Some one) (command_line (file_items ++ items) tail) s = Some (Return 0 r)
    /\ r_state r = s2 /\ r_kept r = concat (map plain items) ++ tail_plain tail.
Proof.
  intros Ht Hw Hplain H1 H2. pose proof (handle_options_meanings my_progname getopt_double constant getopt_get_addr getopt_defaults longopts one (file_items ++ items) tail s Ht Hw) as Hm.
  cbv zeta in Hm. cbn [getopt_defaults my_handle_options_init_variables] in Hm. rewrite option_meanings_app, H1 in Hm. cbn [mbind option_bind] in Hm. rewrite H2 in Hm.
  destruct Hm as (r & Hr & Hs & Hk & _). exists r. split; [exact Hr|]. split; [exact Hs|]. rewrite Hk, map_app, concat_app.
  assert (Hf : concat (map plain file_items) = []).
  { clear -Hplain. induction file_items as [|i l IH]; [done|]. cbn [forallb map concat] in *. apply andb_prop in Hplain as [->%bool_decide_eq_true Hl]. by apply IH. }
  by rewrite Hf.
Qed.

Lemma my_long_options_names : forallb (fun o => forallb is_char (o_name o)) my_long_options = true.
Proof. vm_compute. reflexivity. Qed.

(** C26. The command line has the last word.  When neither the build, the
    environment nor the command line names other option files, the client starts
    as with one command line on which the settings of /etc/my.cnf,
    /etc/mysql/my.cnf and .my.cnf in the home directory, those of the client's
    groups, stand in this order in front of the arguments.  If they are settings
    and so are the arguments, its options do what the settings of the files say
    and then, on the variables that result, what those of the command line say;
    the plain arguments of the command line are left. *)
Theorem files_then_command_line (home_dir : option (list Z)) getcwd getpwnam my_realpath my_readlink my_stat read_file my_dir dir_message my_aes_decrypt getenv
    version_line copyright defaults_help my_fopen get_tty_password progname tty stdin (comps : list (list Z)) (h : list Z)
    (argv a1 a2 a3 : list (list Z)) (file_items items : list item) tail (c c1 c2 : client)
    (g := suffix_groups (getenv "MYSQL_GROUP_SUFFIX") load_default_groups) :
  home_ok comps h -> home_dir = Some (home_path comps h) -> getenv "HOME" = Some (home_path comps h) -> getenv "MYSQL_HOME" = None ->
  getenv "MYSQL_TEST_LOGIN_FILE" = None -> Forall c_string g -> plain_argv argv -> my_stat (home_path comps h ++ str "/.mylogin.cnf") = None ->
  gives my_stat read_file g (str "/etc/my.cnf") a1 -> gives my_stat read_file g (str "/etc/mysql/my.cnf") a2 ->
  gives my_stat read_file g (home_path comps h ++ str "/.my.cnf") a3 ->
  map Arg (a1 ++ a2 ++ a3) = concat (map render file_items) -> map Arg argv = command_line items tail ->
  forallb (well_formed my_long_options) (file_items ++ items) = true -> forallb (fun i => bool_decide (plain i = [])) file_items = true ->
  let options := meanings (str "obclient") (fun _ _ => (0, false, [])) (get_one_option version_line copyright defaults_help my_fopen) in
  let c0 := init_variables (fun _ _ => (0, None)) my_long_options (init_one_value (fun _ => [])) c in
  options file_items c0 = Some (Goes c1) -> options items c1 = Some (Goes c2) ->
  client_start home_dir getcwd getpwnam my_realpath my_readlink my_stat read_file my_dir dir_message my_aes_decrypt getenv None
    version_line copyright defaults_help my_fopen get_tty_password progname tty stdin argv
  = main_start version_line copyright defaults_help my_fopen getenv get_tty_password tty stdin (command_line (file_items ++ items) tail)
  /\ exists r, parse_options version_line copyright defaults_help my_fopen (command_line (file_items ++ items) tail) c = Some (Return 0 r)
       /\ r_state r = c2 /\ r_kept r = concat (map plain items) ++ tail_plain tail.
Proof.
  intros Hhome Hdir Henv Hmh Htest Hg Hpa Hlogin G1 G2 G3 Hargs Hargv Hw Hplain options c0 H1 H2. split.
  - unfold client_start, main_start. destruct (before_options getenv tty initial) as [b|] eqn:Hb; [|done]. cbn [mbind option_bind].
    rewrite (load_defaults_standard home_dir getcwd getpwnam my_realpath my_readlink my_stat read_file my_dir dir_message my_aes_decrypt getenv
      comps h load_default_groups argv a1 a2 a3 Hhome Hdir Henv Hmh Htest Hg Hpa Hlogin G1 G2 G3). cbn [mbind option_bind].
    by rewrite !app_assoc, map_app, <-app_assoc, Hargs, Hargv, <-command_line_app.
  - unfold parse_options. apply (handle_options_sequence (H := client_variables) (str "obclient") (fun _ _ => (0, false, [])) (fun _ => []) (fun _ _ => (0, None)) my_long_options
      (get_one_option version_line copyright defaults_help my_fopen) file_items items tail c c1 c2 my_long_options_names Hw Hplain H1 H2).
Qed.

(** [port = "3"] in the first file, [port = "1"] in the file of the user and
    [-P 2 db] on the command line. *)
Definition port_opt : my_option := nth 0 (filter (fun o => o_name o = str "port") my_long_options) (nth 0 my_long_options (opt [] 0 [] None GET_NO_ARG NO_ARG 0 0 0 0)).

Definition port_lines (v : string) : list cnf_line := [Group [] (str "client") [] []; Setting [] (str "port") [] [] (str v) [] None].

Definition port_files (name : list Z) : option (list Z) :=
  if bool_decide (name = str "/etc/my.cnf") then Some (file_text (port_lines "3"))
  else if bool_decide (name = str "/home/me/.my.cnf") then Some (file_text (port_lines "1")) else None.

Lemma files_then_command_line_witness :
  exists r, client_start (Some (str "/home/me")) (fun _ => None) (fun _ => None) id id (fun f => if found (port_files f) then Some false else None) port_files
      (fun _ => None) id (fun _ _ => None) sample_env None [] [] [] (fun _ => true) [] (str "obclient") true None [str "-P"; str "2"; str "db"]
    = main_start [] [] [] (fun _ => true) sample_env [] true None (map Arg [str "--port=3"; str "--port=1"; str "-P"; str "2"; str "db"])
    /\ parse_options [] [] [] (fun _ => true) (map Arg [str "--port=3"; str "--port=1"; str "-P"; str "2"; str "db"]) initial = Some (Return 0 r)
    /\ num "opt_mysql_port" (r_state r) = 2 /\ r_kept r = [Arg (str "db")].
Proof.
  set (options := meanings (str "obclient") (fun _ _ => (0, false, [])) (get_one_option [] [] [] (fun _ => true))).
  set (c0 := init_variables (fun _ _ => (0, None)) my_long_options (init_one_value (fun _ => [])) initial).
  set (file_items := [LongEq port_opt (str "3"); LongEq port_opt (str "1")]). set (items := [ShortNext port_opt (str "2"); Plain (str "db")]).
  assert (H : match options file_items c0 with
    | Some (Goes c1) => match options items c1 with Some (Goes c2) => num "opt_mysql_port" c2 =? 2 | _ => false end
    | _ => false end = true) by (vm_compute; reflexivity).
  destruct (options file_items c0) as [[c1| |]|] eqn:E1; try discriminate H.
  destruct (options items c1) as [[c2| |]|] eqn:E2; try discriminate H. apply Z.eqb_eq in H.
  destruct (files_then_command_line (Some (str "/home/me")) (fun _ => None) (fun _ => None) id id (fun f => if found (port_files f) then Some false else None) port_files
    (fun _ => None) id (fun _ _ => None) sample_env [] [] [] (fun _ => true) [] (str "obclient") true None [str "home"] (str "me")
    [str "-P"; str "2"; str "db"] [str "--port=3"] [] [str "--port=1"] file_items items None initial c1 c2) as [Hs (r & Hr & Hst & Hk)].
  - split_and!; [apply (bool_decide_eq_true_1 _); vm_compute; reflexivity..|apply Nat.ltb_lt; vm_compute; reflexivity].
  - reflexivity.
  - reflexivity.
  - reflexivity.
  - reflexivity.
  - by repeat constructor.
  - intros a [= <-]. split; [by repeat constructor|by vm_compute].
  - reflexivity.
  - apply (present _ _ _ _ (port_lines "3")); [reflexivity|reflexivity| |vm_compute; reflexivity]. apply (bool_decide_eq_true_1 _). vm_compute. reflexivity.
  - by apply absent.
  - apply (present _ _ _ _ (port_lines "1")); [reflexivity|reflexivity| |vm_compute; reflexivity]. apply (bool_decide_eq_true_1 _). vm_compute. reflexivity.
  - vm_compute. reflexivity.
  - vm_compute. reflexivity.
  - vm_compute. reflexivity.
  - vm_compute. reflexivity.
  - exact E1.
  - exact E2.
  - exists r. split; [exact Hs|]. split; [exact Hr|]. split; [by rewrite Hst|exact Hk].
Defined.
