(* ===== verification/Databases.v ===== *)
(** * The current database (client/mysql.cc: get_current_db, com_use,
    server_version_string)

    [com_use] asks the server for the current database, which another statement
    may have changed, and selects the new one; with the option --one-database
    nothing is selected, and the statements that follow are ignored unless the
    database is the one of the command line.  The class [Databases] adds to
    [Server] the variables of the client that these functions read and write and
    the connector's [mysql_select_db].  [db_client] puts these commands, the
    execution of statements and the main loop together; the theorems describe
    what a script does with --one-database. *)

From S2P Require Import Prelude.
From S2P Require Import CString.
From S2P Require Import Charset.
From S2P Require Import CommandTable.
From S2P Require Import Comments.
From S2P Require Import CommandArgs.
From S2P Require Import Commands.
From S2P Require Import AddLine.
From S2P Require Import AddLineSafe.
From S2P Require Import AddLineTokens.
From S2P Require Import Numbers.
From S2P Require Import NumFormat.
From S2P Require Import Output.
From S2P Require Import ReadExec.
From S2P Require Import Execute.

Definition FN_REFLEN : nat := 512.

(** Like [send], [mysql_select_db] is true when it fails;
    [build_completion_hash] is the call with the option --rehash. *)
Class Databases (srv : Type) `{Server srv} := {
  one_database : srv -> bool;
  current_db : srv -> option (list Z);
  set_current_db : option (list Z) -> srv -> srv;
  updates_skipped : srv -> bool;                         (* skip_updates *)
  set_updates_skipped : bool -> srv -> srv;
  server_version : srv -> option (list Z);
  set_server_version : option (list Z) -> srv -> srv;
  mysql_select_db : list Z -> srv -> bool * srv;
  mysql_get_server_info : srv -> list Z;
  build_completion_hash : srv -> srv
}.

Section databases.
Context {srv : Type} `{Databases srv}.

(** The first value of the first row of a statement's first result: what
    [mysql_query], [mysql_use_result] and [mysql_fetch_row] give. *)
Definition first_value (sql : list Z) (s : srv) : option (list Z) * srv :=
  let '(failed, s) := send sql s in
  if failed then (None, s)
  else
    match fst (results s) with
    | r :: _ =>
        if store_failed r then (None, s)
        else match table r with Some (_, (v :: _) :: _) => (v, s) | _ => (None, s) end
    | [] => (None, s)
    end.

Definition current_db_query (oracle : bool) : list Z :=
  if oracle then str "SELECT (SYS_CONTEXT('USERENV', 'CURRENT_SCHEMA')) FROM SYS.DUAL" else str "SELECT DATABASE()".

Definition get_current_db (s : srv) : srv :=
  if one_database s then s
  else
    let sql := current_db_query (in_oracle_mode s) in
    let s := set_current_db None s in
    match first_value sql s with (Some v, s) => set_current_db (Some v) s | (None, s) => s end.

Definition version_query (oracle : bool) : list Z :=
  if oracle then str "select @@version_comment from dual where rownum <= 1" else str "select @@version_comment limit 1".

(** The version is asked for once. *)
Definition server_version_string (s : srv) : list Z * srv :=
  match server_version s with
  | Some v => (v, s)
  | None =>
      let '(v, s) := first_value (version_query (in_oracle_mode s)) s in
      let v := default (mysql_get_server_info s) v in (v, set_server_version (Some v) s)
  end.

(** ** [com_use] *)

(** [select_db]: no selection, a selection, and one that fills the completion
    table. *)
Inductive selection := SELECT_NO | SELECT_ONLY | SELECT_REHASH.

#[global] Instance selection_eq_dec : EqDecision selection.
Proof. solve_decision. Defined.

Definition choose_selection (tmp : list Z) (s : srv) : selection * srv :=
  if bool_decide (current_db s = Some tmp) then (SELECT_ONLY, set_updates_skipped false s)
  else if one_database s then (SELECT_NO, set_updates_skipped true s)
  else (SELECT_REHASH, s).

Context (opt : options) (pl : place).

(** What is left of the command when the database has been selected. *)
Definition database_changed (how : selection) (tmp : list Z) (s : srv) (c : console) : Z * srv * console :=
  let s := match how with
           | SELECT_NO => s
           | SELECT_ONLY => set_current_db (Some tmp) s
           | SELECT_REHASH => build_completion_hash (set_current_db (Some tmp) s)
           end in
  (0, s, snd (put_message opt pl (str "Database changed") INFO_INFO c)).

Definition lost_connection : Z := if opt_reconnect opt then -1 else 1.

(** The connection is opened again at most twice: when it is known to be lost,
    and when the selection finds it lost. *)
Definition select_database (how : selection) (tmp : list Z) (s : srv) (c : console) : Z * srv * console :=
  let '(lost, s, c) := if negb (is_connected s) then reconnect opt pl s c else (0, s, c) in
  if negb (lost =? 0) then (lost_connection, s, c)
  else
    let '(failed, s) := mysql_select_db tmp s in
    if negb failed then database_changed how tmp s c
    else if negb (mysql_errno s =? CR_SERVER_GONE_ERROR) then let '(r, c) := put_error opt pl s c in (r, s, c)
    else
      let '(lost, s, c) := reconnect opt pl s c in
      if negb (lost =? 0) then (lost_connection, s, c)
      else
        let '(failed, s) := mysql_select_db tmp s in
        if failed then let '(r, c) := put_error opt pl s c in (r, s, c) else database_changed how tmp s c.

Definition unknown_command (line : list Z) : list Z :=
  strmake (str "unknown command " ++ [34] ++ line ++ [34] ++ str " - rest of line ignored.") FN_REFLEN.

Definition com_use (cs : CHARSET_INFO) (line : list Z) (s : srv) (c : console) : Z * srv * console :=
  if in_oracle_mode s then
    let '(r, c) := put_info opt pl (unknown_command line) INFO_ERROR 42 None true c in (r, s, c)
  else
    match arg_at (get_arg cs (strmake line FN_REFLEN) GET) with
    | None | Some [] => (0, s, snd (put_message opt pl (str "USE must be followed by a database name") INFO_ERROR c))
    | Some tmp =>
        let '(how, s) := choose_selection tmp (get_current_db s) in
        match how with SELECT_NO => database_changed how tmp s c | _ => select_database how tmp s c end
    end.

End databases.

(** ** A script with --one-database *)

(** What the server gets to see. *)
Inductive event := Sent (q : list Z) | Selected (d : list Z).

(** The variables that a statement or a selection leaves alone. *)
Definition same_client {srv} `{Databases srv} (s s' : srv) : Prop :=
  one_database s' = one_database s /\ current_db s' = current_db s /\ updates_skipped s' = updates_skipped s
  /\ in_oracle_mode s' = in_oracle_mode s /\ is_connected s' = is_connected s.

(** A server that answers every statement, and keeps a log. *)
Class Answers `{Connector} (srv : Type) `{Databases srv} (set : settings) (log : srv -> list event) := {
  answers_send (q : list Z) (s : srv) : fst (send q s) = false /\ log (snd (send q s)) = log s ++ [Sent q] /\ same_client s (snd (send q s));
  answers_results (q : list Z) (s : srv) : Forall (result_ok set) (fst (results (snd (send q s)))) /\ snd (results (snd (send q s))) = false;
  answers_select (d : list Z) (s : srv) : fst (mysql_select_db d s) = false /\ log (snd (mysql_select_db d s)) = log s ++ [Selected d]
    /\ same_client s (snd (mysql_select_db d s));
  answers_db (d : option (list Z)) (s : srv) : log (set_current_db d s) = log s /\ current_db (set_current_db d s) = d
    /\ one_database (set_current_db d s) = one_database s /\ updates_skipped (set_current_db d s) = updates_skipped s
    /\ in_oracle_mode (set_current_db d s) = in_oracle_mode s /\ is_connected (set_current_db d s) = is_connected s;
  answers_skip (b : bool) (s : srv) : log (set_updates_skipped b s) = log s /\ updates_skipped (set_updates_skipped b s) = b
    /\ one_database (set_updates_skipped b s) = one_database s /\ current_db (set_updates_skipped b s) = current_db s
    /\ in_oracle_mode (set_updates_skipped b s) = in_oracle_mode s /\ is_connected (set_updates_skipped b s) = is_connected s
}.

(** ** The client as a program of the main loop *)

Definition with_skip (gopt : go_options) (b : bool) : go_options :=
  mkGoOptions (Execute.last_session_mode gopt) (add_to_history gopt) (Execute.delimiter gopt) (Execute.is_pl_escape_sql gopt) b
    (ob_error_top_str gopt) (dbms_serveroutput gopt).

Definition with_use {srv} (g : go (srv := srv)) (s : srv) (c : console) : go :=
  mkGo (Execute.buffer g) (old_buffer g) (Execute.last_execute_buffer g) s (numbers g) c.

Definition with_statement {srv} (g : go (srv := srv)) (b : list Z) : go :=
  mkGo b (old_buffer g) (Execute.last_execute_buffer g) (server g) (numbers g) (con g).

(** What does not change while a script runs: the options, the name of the
    script, the preparation of statements and the output of the server in Oracle
    mode, the text about the time, and the other commands. *)
Record setup {srv : Type} := mkSetup {
  su_options : options;
  su_file : option (list Z);
  su_settings : settings;
  su_go : go_options;
  su_prepare : list Z -> srv -> console -> option (list Z) * srv * console;
  su_dbms : Z -> srv -> console -> srv * console;
  su_elapsed : list Z;
  su_other : com_func -> list Z -> option (list Z) -> go (srv := srv) -> Z * go (srv := srv) * list Z
}.

Record db_client {srv : Type} := mkDbClient {
  dc_setup : setup (srv := srv);
  dc_session : session;
  dc_exit : Z;
  dc_line : nat;
  dc_go : go (srv := srv)
}.

Definition with_go {srv} (w : db_client (srv := srv)) (g : go) : db_client :=
  mkDbClient srv (dc_setup w) (dc_session w) (dc_exit w) (dc_line w) g.

Section program.
Context `{Connector} {srv : Type} `{Databases srv}.

Definition dc_place (w : db_client (srv := srv)) : place := mkPlace (Z.of_nat (dc_line w)) (su_file (dc_setup w)).

Definition db_com_go (w : db_client (srv := srv)) (b : list Z) : Z * go :=
  let e := dc_setup w in
  com_go (su_options e) (dc_place w) (su_settings e) (with_skip (su_go e) (updates_skipped (server (dc_go w))))
    (su_prepare e) (su_dbms e) (Commands.charset_info (vars (dc_session w))) false (su_elapsed e) (with_statement (dc_go w) b).

Definition db_run (f : com_func) (w : db_client (srv := srv)) (b : list Z) (line : option (list Z)) : Z * db_client * list Z :=
  match f with
  | COM_GO => let '(r, g) := db_com_go w b in (r, with_go w g, Execute.buffer g)
  | COM_USE =>
      let g := dc_go w in
      let '(r, s, c) := com_use (su_options (dc_setup w)) (dc_place w) (Commands.charset_info (vars (dc_session w))) (default [] line) (server g) (con g) in
      (r, with_go w (with_use g s c), b)
  | _ => let '(r, g, b) := su_other (dc_setup w) f b line (dc_go w) in (r, with_go w g, b)
  end.

Definition db_put (t : INFO_TYPE) (w : db_client (srv := srv)) (msg : list Z) : Z * db_client :=
  let g := dc_go w in
  let '(r, c) := Execute.put_message (su_options (dc_setup w)) (dc_place w) msg t (con g) in (r, with_go w (with_use g (server g) c)).

(** The last statement and the blocks of code are of Oracle mode only. *)
#[global] Instance db_program : Program (db_client (srv := srv)) := {|
  sess := dc_session;
  run := db_run;
  run_last := fun f w line => fst (db_run f w (AddLine.last_execute_buffer (dc_session w)) line);
  AddLine.put_error := db_put INFO_ERROR;
  AddLine.put_message := fun w msg => snd (db_put INFO_INFO w msg);
  pl_escape_regexec := fun _ => false
|}.

(** A client for scripts without binary mode and named commands. *)
#[global] Instance db_main : Client (db_client (srv := srv)) := {|
  aborted := fun _ => false;
  named_cmds := fun _ => false;
  opt_binary_mode := fun _ => false;
  is_sqlblanklines_oracle := fun _ => true;
  exit_status := dc_exit;
  set_exit_status := fun e w => mkDbClient srv (dc_setup w) (dc_session w) e (dc_line w) (dc_go w);
  set_query_start_line := fun n w => mkDbClient srv (dc_setup w) (dc_session w) (dc_exit w) n (dc_go w);
  set_real_binary_mode := fun b w =>
    mkDbClient srv (dc_setup w) (with_vars (dc_session w) (with_binary_mode (vars (dc_session w)) b)) (dc_exit w) (dc_line w) (dc_go w);
  run_oracle := fun w b _ => (OracleSet.CMD_STATE_UNKNOW, w, b);
  echo_line := fun _ w => w;
  remember_line := fun _ w => w
|}.

Definition db_good (w : db_client (srv := srv)) : Prop :=
  delimiter_ok (Commands.delimiter (vars (dc_session w))) /\ charset_ok (Commands.charset_info (vars (dc_session w))).

Lemma db_run_session f w b l : dc_session (snd (fst (db_run f w b l))) = dc_session w /\ dc_setup (snd (fst (db_run f w b l))) = dc_setup w
  /\ dc_exit (snd (fst (db_run f w b l))) = dc_exit w.
Proof.
  unfold db_run. destruct f; try (destruct (su_other _ _ _ _ _) as [[? ?] ?]; done).
  - by destruct (db_com_go w b).
  - by destruct (com_use _ _ _ _ _ _) as [[? ?] ?].
Qed.

#[global] Instance db_laws : ProgramLaws (db_client (srv := srv)) db_good.
Proof.
  assert (Hr : forall f w b l, db_good w -> db_good (snd (fst (db_run f w b l)))).
  { intros f w b l Hw. unfold db_good. by rewrite (proj1 (db_run_session f w b l)). }
  assert (Hp : forall t w msg, db_good w -> db_good (snd (db_put t w msg))).
  { intros t w msg Hw. unfold db_put. by destruct (Execute.put_message _ _ _ _ _). }
  split; [by intros w []|by intros w []|exact Hr| |exact (Hp INFO_ERROR)|exact (Hp INFO_INFO)].
  intros f w l Hw. apply (Hr f w (AddLine.last_execute_buffer (dc_session w)) l Hw).
Qed.

End program.

Definition is_set (cs : CHARSET_INFO) (q : list Z) : bool := (4 <=? length q)%nat && (my_strnncoll cs q 4 set_statement 4 =? 0).

(** What a line of a script does: it selects a database, or it sends a
    statement. *)
Inductive action := Use (d : list Z) | Go (q : list Z).

(** What is let through: everything while the database is [db], and SET. *)
Fixpoint filtered (cs : CHARSET_INFO) (db : list Z) (skip : bool) (acts : list action) : list event :=
  match acts with
  | [] => []
  | Use d :: acts' => if bool_decide (d = db) then Selected d :: filtered cs db false acts' else filtered cs db true acts'
  | Go b :: acts' =>
      let q := remove_cntrl cs b in
      (if bool_decide (q = []) || skip && negb (is_set cs q) then [] else [Sent q]) ++ filtered cs db skip acts'
  end.

(** The text is the command USE with this database. *)
Definition uses (v : client) (text d : list Z) : Prop :=
  exists com cmdstr, find_command v text = Some (com, cmdstr) /\ func com = Some COM_USE
    /\ arg_at (get_arg (Commands.charset_info v) (strmake cmdstr FN_REFLEN) GET) = Some d /\ d <> [].

(** The tokens of a text without a delimiter. *)
Definition spells {world} `{Program world} (m : mode) (ts : list token) (q : list Z) : Prop :=
  Forall (fun t => match t with Delim _ => False | _ => True end) ts
  /\ exists o, forall w, meanings m (mkStmt (world := world) [] false w) ts = inr (mkStmt q o w).

(** The lines of a script: the command USE, and texts that end with the
    delimiter, which are the command USE or statements. *)
Inductive line_does {world} `{Program world} (m : mode) (v : client) : list token -> action -> Prop :=
  | does_use_line ts d : uses v (texts m ts) d -> line_does m v ts (Use d)
  | does_use ts q d : find_command v (texts m (ts ++ [Delim []])) = None -> tokens_ok m (ts ++ [Delim []]) -> spells (world := world) m ts q ->
      uses v (cstr q) d -> line_does m v (ts ++ [Delim []]) (Use d)
  | does_go ts q : find_command v (texts m (ts ++ [Delim []])) = None -> tokens_ok m (ts ++ [Delim []]) -> spells (world := world) m ts q ->
      find_command v (cstr q) = None -> line_does m v (ts ++ [Delim []]) (Go q).

Section runs.
Context `{Connector} {srv : Type} `{Databases srv}.

#[local] Abbreviation db_client := (@db_client srv).

(** The state between two lines. *)
Record ready (db : list Z) (skip : bool) (s : srv) : Prop := {
  ready_one : one_database s = true;
  ready_db : current_db s = Some db;
  ready_skip : updates_skipped s = skip;
  ready_mode : in_oracle_mode s = false;
  ready_connected : is_connected s = true
}.

(** A client with this setup in a MySQL session, with --one-database. *)
Record filters (e : setup (srv := srv)) (v : session) (db : list Z) (skip : bool) (w : db_client) : Prop := {
  fi_setup : dc_setup w = e;
  fi_session : dc_session w = v;
  fi_ready : ready db skip (server (dc_go w))
}.

Context (e : setup (srv := srv)) (v : session) (db : list Z).
Context {log : srv -> list event} `{!Answers srv (su_settings e) log}.
Hypothesis Hb : batch_form (su_options e) (su_settings e) (su_go e).

Let cs : CHARSET_INFO := Commands.charset_info (vars v).

Lemma ready_same skip s s' : same_client s s' -> ready db skip s -> ready db skip s'.
Proof. intros (E1 & E2 & E3 & E4 & E5) []. split; congruence. Qed.

Lemma com_use_ready opt pl skip line d s c :
  arg_at (get_arg cs (strmake line FN_REFLEN) GET) = Some d -> d <> [] -> ready db skip s ->
  exists s' c', com_use opt pl cs line s c = (0, s', c') /\ ready db (negb (bool_decide (d = db))) s'
    /\ log s' = log s ++ (if bool_decide (d = db) then [Selected d] else []).
Proof using All.
  intros Harg Hd Hr. unfold com_use. rewrite (ready_mode _ _ _ Hr), Harg. destruct d as [|x d]; [done|].
  unfold get_current_db. rewrite (ready_one _ _ _ Hr). unfold choose_selection. rewrite (ready_one _ _ _ Hr), (ready_db _ _ _ Hr).
  destruct (answers_skip (log := log) (negb (bool_decide (x :: d = db))) s) as (L1 & L2 & L3 & L4 & L5 & L6).
  destruct Hr as [E1 E2 E3 E4 E5]. rewrite (bool_decide_ext (Some db = Some (x :: d)) (x :: d = db)) by (split; congruence).
  case_bool_decide as Heq.
  - rewrite <-Heq in *. cbn [negb] in *. set (s1 := set_updates_skipped false s) in *.
    unfold select_database. rewrite L6, E5. cbn [negb Z.eqb].
    destruct (answers_select (log := log) (x :: d) s1) as (M1 & M2 & M3).
    destruct (mysql_select_db (x :: d) s1) as [failed s2]. cbn [fst snd] in *. subst failed. cbn [negb]. unfold database_changed.
    destruct (answers_db (log := log) (Some (x :: d)) s2) as (N1 & N2 & N3 & N4 & N5 & N6).
    eexists _, _. split; [reflexivity|]. destruct M3 as (? & ? & ? & ? & ?). split; [split; congruence|congruence].
  - cbn [negb] in *. unfold database_changed.
    eexists _, _. split; [reflexivity|]. rewrite app_nil_r. split; [split; congruence|done].
Qed.

Lemma with_skip_form : with_skip (su_go e) false = su_go e.
Proof using Hb. pose proof (bf_skip _ _ _ Hb) as E. destruct (su_go e). cbn in *. by rewrite E. Qed.

(** A statement that is not ignored, and one that is. *)
Lemma com_go_passes pl skip g : skip && negb (is_set cs (remove_cntrl cs (Execute.buffer g))) = false ->
  com_go (su_options e) pl (su_settings e) (with_skip (su_go e) skip) (su_prepare e) (su_dbms e) cs false (su_elapsed e) g
  = com_go (su_options e) pl (su_settings e) (su_go e) (su_prepare e) (su_dbms e) cs false (su_elapsed e) g.
Proof using Hb.
  intros Hs. rewrite <-with_skip_form at 2. destruct skip; [|done]. cbn [andb] in Hs. apply negb_false_iff in Hs.
  unfold is_set in Hs. apply andb_prop in Hs as [Hl Hc]. apply Nat.leb_le in Hl. unfold com_go. case_bool_decide; [done|].
  unfold prepare. cbn [Execute.last_session_mode with_skip]. rewrite (bf_mode _ _ _ Hb), (bf_verbose _ _ _ Hb). change (0 <? 0)%nat with false.
  destruct (if negb (is_connected (server g)) then _ else _) as [[lost s] c]. destruct (negb (lost =? 0)); [done|].
  cbn [skip_updates with_skip andb]. rewrite Hc, (proj2 (Nat.ltb_ge _ _) Hl). done.
Qed.

Lemma com_go_ignores pl g : is_connected (server g) = true -> remove_cntrl cs (Execute.buffer g) <> [] ->
  is_set cs (remove_cntrl cs (Execute.buffer g)) = false ->
  com_go (su_options e) pl (su_settings e) (with_skip (su_go e) true) (su_prepare e) (su_dbms e) cs false (su_elapsed e) g
  = (0, mkGo (remove_cntrl cs (Execute.buffer g)) (old_buffer g) (Execute.last_execute_buffer g) (server g) (numbers g) (con g)).
Proof using Hb.
  intros Hc Hne Hs. unfold com_go. rewrite bool_decide_eq_false_2 by done. unfold prepare. cbn [Execute.last_session_mode with_skip].
  rewrite (bf_mode _ _ _ Hb), (bf_verbose _ _ _ Hb), (bf_batch _ _ _ Hb), Hc. change (0 <? 0)%nat with false.
  cbn [negb Z.eqb skip_updates with_skip andb].
  unfold is_set in Hs. set (q := remove_cntrl cs (Execute.buffer g)) in *.
  replace ((length q <? 4)%nat || negb (my_strnncoll cs q 4 set_statement 4 =? 0)) with true.
  - unfold Execute.put_message, put_info. rewrite (bf_batch _ _ _ Hb). done.
  - symmetry. destruct (Nat.leb_spec 4 (length q)); cbn [andb] in Hs; [by rewrite Hs, orb_true_r|].
    by rewrite (proj2 (Nat.ltb_lt _ _)) by lia.
Qed.

(** The command GO on any text; what is ignored stays in the buffer. *)
Lemma db_go_filters skip w b l (q := remove_cntrl cs b) : filters e v db skip w ->
  exists w', db_run COM_GO w b l = (0, w', if bool_decide (q = []) || skip && negb (is_set cs q) then q else [])
    /\ filters e v db skip w' /\ log (server (dc_go w')) = log (server (dc_go w)) ++ filtered cs db skip [Go b].
Proof using All.
  intros [He Hv Hr]. cbn [db_run]. unfold db_com_go. rewrite He, Hv, (ready_skip _ _ _ Hr). fold cs.
  cbn [filtered]. rewrite app_nil_r. fold q. destruct (bool_decide_reflect (q = [])) as [Hq|Hq]; cbn [orb].
  { unfold com_go. cbn [Execute.buffer with_statement]. fold q. rewrite bool_decide_eq_true_2, (bf_batch _ _ _ Hb) by done. cbn [Execute.buffer].
    eexists. split; [by rewrite Hq|]. rewrite app_nil_r. done. }
  destruct (skip && negb (is_set cs q)) eqn:Ei.
  { apply andb_prop in Ei as [-> Ei%negb_true_iff]. rewrite com_go_ignores; [|by apply Hr|done..].
    eexists. split; [reflexivity|]. by rewrite app_nil_r. }
  rewrite com_go_passes by done. destruct (answers_send (log := log) q (server (dc_go w))) as (A1 & A2 & A3).
  destruct (answers_results (log := log) q (server (dc_go w))) as (B1 & B2).
  destruct (com_go_batch_text (su_options e) (dc_place w) (su_settings e) (su_go e) Hb cs (su_prepare e) (su_dbms e) (su_elapsed e)
    (with_statement (dc_go w) b) Hq (ready_connected _ _ _ Hr) A1 B1 B2) as (n' & c' & -> & _).
  eexists. split; [reflexivity|]. split; [|done]. split; [done|done|by eapply ready_same].
Qed.

Lemma db_use_filters skip w b cmdstr d : arg_at (get_arg cs (strmake cmdstr FN_REFLEN) GET) = Some d -> d <> [] -> filters e v db skip w ->
  exists w', db_run COM_USE w b (Some cmdstr) = (0, w', b) /\ filters e v db (negb (bool_decide (d = db))) w'
    /\ log (server (dc_go w')) = log (server (dc_go w)) ++ filtered cs db skip [Use d].
Proof using All.
  intros Ha Hd [He Hv Hr]. cbn [db_run]. rewrite Hv. fold cs. change (default [] (Some cmdstr)) with cmdstr.
  destruct (com_use_ready (su_options (dc_setup w)) (dc_place w) skip cmdstr d (server (dc_go w)) (con (dc_go w)) Ha Hd Hr) as (s' & c' & -> & Hr' & Hl).
  eexists. split; [reflexivity|]. split; [done|]. cbn [with_go with_use dc_go server filtered]. rewrite Hl. by case_bool_decide.
Qed.

(** The session is one in MySQL mode. *)
Definition mysql_session (m : mode) : Prop :=
  AddLine.preserve_comments v = m_preserve m /\ AddLine.oracle_mode v = false /\ AddLine.last_session_mode v = false
  /\ Commands.charset_info (vars v) = m_cs m /\ Commands.delimiter (vars v) = m_delimiter m /\ AddLine.ansi_quotes v = m_ansi m
  /\ AddLine.no_backslash_escapes v = m_no_backslash m /\ real_binary_mode (vars v) = false
  /\ delimiter_ok (Commands.delimiter (vars v)) /\ charset_ok (Commands.charset_info (vars v)).

Definition plain_db (w : db_client) : Prop := exists skip, filters e v db skip w.

Context (m : mode) (Hv : mysql_session m).

Lemma filters_text skip w : filters e v db skip w -> filters e v db skip (set_real_binary_mode false w).
Proof using Hv.
  intros [F1 F2 F3]. destruct Hv as (_ & _ & _ & _ & _ & _ & _ & V8 & _). split; [done| |done]. cbn [set_real_binary_mode db_main dc_session].
  rewrite F2. clear -V8. destruct v as [[]]. cbn in *. unfold with_vars, with_binary_mode. cbn. by rewrite V8.
Qed.

Lemma db_batch_mode : batch_mode m plain_db.
Proof using All.
  destruct Hv as (V1 & V2 & V3 & V4 & V5 & V6 & V7 & V8 & _). split.
  - split.
    + intros w [skip [_ Hs _]]. cbn [sess db_program]. by rewrite Hs.
    + intros w b [skip Hf]. destruct (db_go_filters skip w b None Hf) as (w' & Hr & Hf' & _). cbn [run db_program]. rewrite Hr. by exists skip.
  - done.
  - intros w [skip [_ Hs _]]. cbn [sess db_program opt_binary_mode db_main]. by rewrite Hs.
  - intros w x [skip []]. split; [|done]. exists skip. by split.
  - intros w n [skip []]. exists skip. by split.
  - intros w b [skip Hf]. apply (db_run_session COM_GO w b None).
  - intros w [skip Hf]. split; [|done]. exists skip. by apply filters_text.
Qed.

Lemma plain_db_good w : plain_db w -> db_good w.
Proof using Hv.
  destruct Hv as (_ & _ & _ & _ & _ & _ & _ & _ & V9 & V10). intros [skip [_ Hs _]]. unfold db_good. by rewrite Hs.
Qed.

Lemma filters_start skip n w : filters e v db skip w -> filters e v db skip (line_start n [] w).
Proof using. intros []. unfold line_start. by split. Qed.

(** A line of the script and what follows it. *)
Lemma script_line n w skip ts act script : filters e v db skip w -> line_does (world := db_client) m (vars v) ts act ->
  exists w' skip', filters e v db skip' w'
    /\ log (server (dc_go w')) = log (server (dc_go w)) ++ filtered cs db skip [act]
    /\ (forall acts, filtered cs db skip (act :: acts) = filtered cs db skip [act] ++ filtered cs db skip' acts)
    /\ script_runs m n [] w (ts :: script) = script_runs m (S n) [] w' script
    /\ forall line lines, c_string line -> skip_bom n line = texts m ts -> script_ok m plain_db (S n) [] w' lines script ->
       script_ok m plain_db n [] w (line :: lines) (ts :: script).
Proof using All.
  intros Hf Hd. pose proof (filters_start skip n w Hf) as Hf1. set (w1 := line_start n [] w) in *.
  assert (Hlog : log (server (dc_go w1)) = log (server (dc_go w))) by done.
  assert (Hsess : sess w1 = v) by apply Hf1. cbn [script_runs script_ok]. fold w1. cbv zeta.
  unfold line_command. cbn [named_cmds db_main orb]. rewrite bool_decide_eq_true_2 by done. rewrite Hsess.
  assert (Hend : forall q o, ended m (mkStmt (world := db_client) q o w1) [] = q) by (intros q o; unfold ended; destruct (m_preserve m); apply app_nil_r).
  destruct Hd as [ts d (com & cmdstr & Hc & Hfun & Harg & Hne)|ts q d Hno Hok [Hnd (o & Hm)] (com & cmdstr & Hc & Hfun & Harg & Hne)|ts q Hno Hok [Hnd (o & Hm)] Hc].
  - rewrite Hc, Hfun. destruct (db_use_filters skip w1 [] cmdstr d Harg Hne Hf1) as (w2 & Hr & Hf2 & Hl2). exists w2, (negb (bool_decide (d = db))).
    rewrite Hlog in Hl2. cbn [run db_program]. rewrite Hr. split_and!; try done.
    + intros acts. cbn [filtered]. by case_bool_decide.
    + intros line lines Hl Hb' Hs. split_and!; try done. by exists (negb (bool_decide (d = db))).
  - destruct (db_use_filters skip w1 q cmdstr d Harg Hne Hf1) as (w2 & Hr & Hf2 & Hl2). rewrite Hlog in Hl2.
    assert (Hdel : deliver w1 q = (0, w2, q)) by (unfold deliver; rewrite Hsess, Hc, Hfun; exact Hr).
    assert (Hmean : meanings m (mkStmt [] false w1) (ts ++ [Delim []]) = inr (mkStmt [] o w2)).
    { rewrite meanings_app, Hm. cbn [meanings meaning program]. by rewrite Hend, Hdel. }
    exists w2, (negb (bool_decide (d = db))). rewrite Hno, Hmean. split_and!; try done.
    + intros acts. cbn [filtered]. by case_bool_decide.
    + intros line lines Hl Hb' Hs. split_and!; try done. apply commands_keep_app; [done|]. rewrite Hm. cbn [commands_keep program]. rewrite Hend.
      split; [|by destruct (meaning _ _ _)]. intros _. rewrite Hdel. by exists (negb (bool_decide (d = db))).
  - destruct (db_go_filters skip w1 q None Hf1) as (w2 & Hr & Hf2 & Hl2). rewrite Hlog in Hl2.
    assert (Hdel : exists b', deliver w1 q = (0, w2, b')) by (eexists; unfold deliver; rewrite Hsess, Hc; exact Hr). destruct Hdel as [b' Hdel].
    assert (Hmean : meanings m (mkStmt [] false w1) (ts ++ [Delim []]) = inr (mkStmt [] o w2)).
    { rewrite meanings_app, Hm. cbn [meanings meaning program]. by rewrite Hend, Hdel. }
    exists w2, skip. rewrite Hno, Hmean. split_and!; try done.
    + intros acts. cbn [filtered]. by rewrite app_nil_r.
    + intros line lines Hl Hb' Hs. split_and!; try done. apply commands_keep_app; [done|]. rewrite Hm. cbn [commands_keep program].
      split; [|by destruct (meaning _ _ _)]. intros Hx. rewrite Hend, Hsess in Hx. by destruct Hx.
Qed.

Lemma script_filtered script acts : Forall2 (line_does (world := db_client) m (vars v)) script acts -> forall n w skip, filters e v db skip w ->
  exists n' w', script_runs m n [] w script = inr (n', [], w') /\ (exists skip', filters e v db skip' w')
    /\ log (server (dc_go w')) = log (server (dc_go w)) ++ filtered cs db skip acts
    /\ forall lines, Forall2 (fun line ts => c_string line /\ line = texts m ts) lines script ->
       (n <> 0%nat \/ (forall line, head lines = Some line -> skip_bom 0 line = line)) -> script_ok m plain_db n [] w lines script.
Proof using All.
  induction 1 as [|ts act script acts Hd _ IH]; intros n w skip Hf.
  - exists n, w. split_and!; [done|by exists skip|by rewrite app_nil_r|]. intros lines Hl _. by inversion Hl.
  - destruct (script_line n w skip ts act script Hf Hd) as (w1 & skip1 & Hf1 & Hl1 & Hfil & Hr & Hok).
    destruct (IH (S n) w1 skip1 Hf1) as (n' & w' & Hr' & Hf' & Hl' & Hok'). exists n', w'. split; [by rewrite Hr|]. split; [done|].
    split; [by rewrite Hl', Hl1, (Hfil acts), <-app_assoc|]. intros lines Hls Hbom. inversion Hls as [|line ? lines' ? [Hc ->] Hls']; subst.
    apply Hok; [done| |apply Hok'; [done|by left]]. destruct n as [|n]; [|done]. destruct Hbom as [|Hbom]; [done|]. by apply Hbom.
Qed.

End runs.

(** C23. The filter of --one-database: when a script of lines, each a USE
    command or a statement with its delimiter, runs in batch mode in a MySQL
    session on a server that answers, the client reaches the end of the script
    with exit status 0, and the server sees exactly the selections of the
    database of the command line and those statements, in order and without the
    control characters at their ends, that follow such a USE or are SET
    statements; for any other USE nothing is sent.  In front of the first USE
    statements are ignored exactly when [skip_updates] is set. *)
Theorem one_database_filter `{Connector} {srv} `{Databases srv} {source} `{src_class : Source source}
    (e : setup (srv := srv)) (v : session) (log : srv -> list event) (db : list Z) (skip : bool) (m : mode)
    (script : list (list token)) (acts : list action) (w : db_client (srv := srv)) (src src' : source) (fuel : nat) :
  Answers srv (su_settings e) log -> batch_form (su_options e) (su_settings e) (su_go e) -> mysql_session v m ->
  filters e v db skip w -> Forall2 (line_does (world := db_client (srv := srv)) m (vars v)) script acts ->
  Forall (fun ts => c_string (texts m ts)) script -> skip_bom 0 (texts m (default [] (head script))) = texts m (default [] (head script)) ->
  feeds false src (map (texts m) script) src' -> read_error src' = false -> (length script < fuel)%nat ->
  exists src1 i, read_and_execute fuel false src [] false w = Some (0, src1, i)
    /\ log (server (dc_go (i_world i))) = log (server (dc_go w)) ++ filtered (m_cs m) db skip acts.
Proof.
  intros Ha Hb Hv Hf Hs Hcs Hbom Hfeed Herr Hfuel. pose proof (db_batch_mode e v db (log := log) Hb m Hv) as Hmode.
  set (w0 := set_real_binary_mode false (set_exit_status 1 w)).
  assert (Hf0 : filters e v db skip w0) by (apply (filters_text e v db m Hv); destruct Hf; by split).
  destruct (script_filtered e v db (log := log) Hb m Hv script acts Hs 0 w0 skip Hf0) as (n' & w' & Hr & [skip' Hf'] & Hl & Hok).
  destruct (read_and_execute_lines (good := db_good) m (plain_db e v db) Hmode (plain_db_good e v db m Hv)
    (map (texts m) script) script w src src' fuel) as (src1 & i & He & Hi); try done.
  - by exists skip.
  - apply Hok.
    + clear -Hcs. induction Hcs as [|ts script Hc _ IH]; constructor; done.
    + right. intros line Hline. destruct script as [|ts script]; [done|]. injection Hline as <-. exact Hbom.
  - by rewrite length_map.
  - fold w0 in He, Hi. rewrite Hr in He, Hi. exists src1, i. rewrite He, Hi. destruct Hv as (_ & _ & _ & <- & _). by split.
Qed.

(** ** A statement that ends with [\g] *)

(** C38. What --one-database ignores stays in the buffer when it ends with
    [\g]: while updates are skipped, a statement that is ignored is gone when
    it ends with the delimiter, but with [\g] its text is still the beginning of
    the next statement, so that a USE command on the next line is not seen as a
    command.  Nothing is sent in either case. *)
Theorem ignored_statement_stays `{Connector} {srv} `{Databases srv}
    (e : setup (srv := srv)) (v : session) (log : srv -> list event) (db : list Z) (m : mode)
    (ts : list token) (b : list Z) (com : COMMANDS) (w : db_client (srv := srv)) (q := remove_cntrl (m_cs m) b) :
  Answers srv (su_settings e) log -> batch_form (su_options e) (su_settings e) (su_go e) -> mysql_session v m ->
  filters e v db true w -> spells (world := db_client (srv := srv)) m ts b ->
  tokens_ok m (ts ++ [Delim []]) -> tokens_before m ts (str "\g") -> find_command (vars v) (cstr b) = None ->
  find_command_char (vars v) "g"%chr = Some com -> func com = Some COM_GO -> takes_params com = false ->
  q <> [] -> is_set (m_cs m) q = false -> is_null (get_trim_comment_sql q (Z.of_nat (length q))) = false ->
  no_delimiter_word q -> find_command (vars v) (cstr q) = None ->
  let i := mkInput [] 0 false false w in
  (exists w', add_line (texts m (ts ++ [Delim []])) false i = Some (false, mkInput [] 0 false false w')
     /\ log (server (dc_go w')) = log (server (dc_go w)))
  /\ (exists w', add_line (texts m ts ++ str "\g") false i = Some (false, mkInput (q ++ [c_nl]) 0 false false w')
     /\ log (server (dc_go w')) = log (server (dc_go w))
     /\ looks_for_command (mkInput (q ++ [c_nl]) 0 false false w') = false).
Proof.
  intros Ha Hb Hv Hf [Hnd (o & Hm)] Hok Hbefore Hno Hcom Hfun Htp Hq Hset Htrim Hword Hnoq i.
  pose proof (db_batch_mode e v db (log := log) Hb m Hv) as Hmode. assert (Hcs : Commands.charset_info (vars v) = m_cs m) by apply Hv.
  assert (Hgo : exists w', (forall l, db_run COM_GO w b l = (0, w', q)) /\ filters e v db true w' /\ log (server (dc_go w')) = log (server (dc_go w))).
  { destruct (db_go_filters e v db (log := log) Hb true w b None Hf) as (w' & Hr & Hf' & Hl). cbn [filtered] in Hl. rewrite Hcs in Hr, Hl. fold q in Hr, Hl.
    rewrite (bool_decide_eq_false_2 _ Hq), Hset in Hr, Hl. cbn [orb andb negb app] in Hr, Hl. rewrite app_nil_r in Hl. exists w'. split; [|done]. intros l. exact Hr. }
  destruct Hgo as (w' & Hrun & Hf' & Hl). assert (Hs : sess w = v) by apply Hf. assert (Hs' : sess w' = v) by apply Hf'.
  assert (Hend : ended m (mkStmt (world := db_client (srv := srv)) b o w) [] = b) by (unfold ended; destruct (m_preserve m); apply app_nil_r).
  assert (Hdel : deliver w b = (0, w', q)) by (unfold deliver; rewrite Hs, Hno; apply Hrun).
  split; exists w'; [split; [|done]|split; [|split; [done|]]].
  - pose proof (add_line_tokens (good := db_good) m (plain_db e v db) (batch_in_mode _ _ Hmode) (plain_db_good e v db m Hv) (ts ++ [Delim []]) [] w) as Hadd.
    cbv zeta in Hadd. rewrite meanings_app, Hm in Hadd. cbn [meanings meaning program] in Hadd. rewrite Hend, Hdel in Hadd. cbn [Z.ltb Z.compare] in Hadd.
    apply Hadd; [by exists true|done| |done]. apply commands_keep_app; [done|]. rewrite Hm. cbn [commands_keep program].
    split; [|by destruct (meaning _ _ _)]. intros Hx. rewrite Hend, Hs in Hx. by destruct Hx.
  - apply (add_line_go (good := db_good) m (plain_db e v db) (batch_in_mode _ _ Hmode) (plain_db_good e v db m Hv) ts w b o com w' q).
    + by exists true.
    + exact Hbefore.
    + rewrite <-(app_nil_r ts). apply commands_keep_app; [exact Hnd|]. rewrite Hm. exact I.
    + exact (Hm w).
    + rewrite Hs. exact Hcom.
    + exact Hfun.
    + exact Htp.
    + intros l. exists 0. split; [apply Hrun|lia].
    + by exists true.
    + exact Hq.
    + exact Htrim.
    + exact Hword.
    + rewrite Hs'. exact Hnoq.
  - unfold looks_for_command. cbn [named_cmds db_main i_buffer orb]. by rewrite bool_decide_eq_false_2 by (by destruct q).
Qed.

(** ** A server with the database of the command line *)

Record db_server := mkDbServer { ds_db : option (list Z); ds_skip : bool; ds_version : option (list Z); ds_log : list event }.

#[global] Instance db_server_server : Server db_server := {
  send q s := (false, mkDbServer (ds_db s) (ds_skip s) (ds_version s) (ds_log s ++ [Sent q]));
  mysql_errno _ := 0;
  mysql_error _ := [];
  mysql_sqlstate _ := [];
  in_oracle_mode _ := false;
  results _ := (two_results, false);
  is_connected _ := true;
  connect_again s := s;
  db_dropped _ := false;
  Execute.get_current_db s := s
}.

#[global] Instance db_server_databases : Databases db_server := {
  one_database _ := true;
  current_db := ds_db;
  set_current_db d s := mkDbServer d (ds_skip s) (ds_version s) (ds_log s);
  updates_skipped := ds_skip;
  set_updates_skipped b s := mkDbServer (ds_db s) b (ds_version s) (ds_log s);
  server_version := ds_version;
  set_server_version v s := mkDbServer (ds_db s) (ds_skip s) v (ds_log s);
  mysql_select_db d s := (false, mkDbServer (ds_db s) (ds_skip s) (ds_version s) (ds_log s ++ [Selected d]));
  mysql_get_server_info _ := str "5.7";
  build_completion_hash s := s
}.

Lemma db_server_answers : let con := plain_connector in Answers db_server default_settings ds_log.
Proof.
  intros con. split; try done. intros q s. split; [|done]. repeat constructor; cbn; try done.
Qed.

Definition db_setup : setup (srv := db_server) :=
  mkSetup _ batch_options None default_settings plain_go_options (fun b s c => (Some b, s, c)) (fun _ s c => (s, c)) [] (fun _ b _ g => (0, g, b)).

Definition db_session : session := r_session (fresh_recorder true).

Definition db_start (skip : bool) : db_client (srv := db_server) :=
  mkDbClient _ db_setup db_session 0 0
    (mkGo [] [] [] (mkDbServer (Some (str "shop")) skip None []) (num_start 10) (mkConsole [] [] [] false [])).

Definition statement_line (s : string) : list token := map Plain (str s) ++ [Delim []].

(** [a; use other, b; set x=1; use shop; c;] *)
Definition db_script : list (list token) :=
  [statement_line "a"; map Plain (str "use other"); statement_line "b"; statement_line "set x=1"; statement_line "use shop"; statement_line "c"].

Definition db_actions : list action := [Go (str "a"); Use (str "other"); Go (str "b"); Go (str "set x=1"); Use (str "shop"); Go (str "c")].

Lemma db_mysql_session : mysql_session db_session (sample_mode true).
Proof. unfold mysql_session. split_and!; try done; apply new_recorder_good. Qed.

Lemma db_batch_form : batch_form (su_options db_setup) (su_settings db_setup) (su_go db_setup).
Proof. by split; try done; apply Nat.ltb_lt. Qed.

Lemma db_start_filters skip : filters db_setup db_session (str "shop") skip (db_start skip).
Proof. by split. Qed.

Lemma db_script_does : let con := plain_connector in
  Forall2 (line_does (world := db_client (srv := db_server)) (sample_mode true) (vars db_session)) db_script db_actions.
Proof.
  intros con.
  unfold db_script, db_actions.
  constructor; [|constructor; [|constructor; [|constructor; [|constructor; [|constructor; [|constructor]]]]]].
  2: { apply does_use_line. eexists _, _. split; [vm_compute; reflexivity|]. split; [done|]. split; [by vm_compute|done]. }
  4: { apply (does_use _ _ _ (str "use shop")); [by vm_compute| | |].
       - repeat split; try (intros [? ?]; done); try done; by repeat constructor.
       - split; [by repeat constructor|]. exists false. intros w. by vm_compute.
       - eexists _, _. split; [vm_compute; reflexivity|]. split; [done|]. split; [by vm_compute|done]. }
  all: apply does_go; [by vm_compute| | |by vm_compute].
  all: try (repeat split; try (intros [? ?]; done); try done; by repeat constructor).
  all: split; [by repeat constructor|]; exists false; intros w; by vm_compute.
Qed.

Lemma one_database_filter_witness :
  let con := plain_connector in
  exists src1 i,
    read_and_execute 7 false [str "a;"; str "use other"; str "b;"; str "set x=1;"; str "use shop;"; str "c;"] [] false (db_start false) = Some (0, src1, i)
    /\ ds_log (server (dc_go (i_world i))) = [Sent (str "a"); Sent (str "set x=1"); Selected (str "shop"); Sent (str "c")].
Proof.
  intros con.
  destruct (one_database_filter db_setup db_session ds_log (str "shop") false (sample_mode true) db_script db_actions (db_start false)
    [str "a;"; str "use other"; str "b;"; str "set x=1;"; str "use shop;"; str "c;"] [] 7) as (src1 & i & Hr & Hl).
  - apply db_server_answers.
  - apply db_batch_form.
  - apply db_mysql_session.
  - apply db_start_filters.
  - apply db_script_does.
  - by repeat constructor.
  - done.
  - apply (typed_lines_feed (map (texts (sample_mode true)) db_script)).
  - done.
  - by apply Nat.ltb_lt.
  - exists src1, i. split; [exact Hr|]. rewrite Hl. by vm_compute.
Defined.

Lemma ignored_statement_stays_witness :
  let con := plain_connector in
  exists w', add_line (str "drop t\g") false (mkInput [] 0 false false (db_start true)) = Some (false, mkInput (str "drop t" ++ [c_nl]) 0 false false w')
    /\ ds_log (server (dc_go w')) = [].
Proof.
  intros con.
  assert (Hgo : exists com, find_command_char (vars db_session) "g"%chr = Some com /\ func com = Some COM_GO /\ takes_params com = false)
    by (eexists; split; [vm_compute; reflexivity|]; by split).
  destruct Hgo as (com & Hc & Hf & Ht).
  destruct (ignored_statement_stays db_setup db_session ds_log (str "shop") (sample_mode true) (map Plain (str "drop t")) (str "drop t")
    com (db_start true) db_server_answers db_batch_form db_mysql_session (db_start_filters true)) as (_ & w' & Hw & Hl & _).
  - split; [by repeat constructor|]. exists false. intros w. by vm_compute.
  - repeat split; try (intros [? ?]; done); try done; by repeat constructor.
  - repeat split; try (intros [? ?]; done); try done; by repeat constructor.
  - by vm_compute.
  - exact Hc.
  - exact Hf.
  - exact Ht.
  - by vm_compute.
  - by vm_compute.
  - by vm_compute.
  - by apply no_delimiter_word_check.
  - by vm_compute.
  - exists w'. split; [exact Hw|exact Hl].
Defined.
