(* ===== verification/Help.v ===== *)
(** * The command help (client/mysql.cc: com_help, com_server_help,
    print_help_item; strings/strxnmov.c)

    Without an argument [com_help] lists the commands of the client; with one it
    asks the server for help and prints the answer, an article, a list of articles
    or a message.  Writing to an array is undefined, [None], behind its end. *)

From S2P Require Import Prelude.
From S2P Require Import CString.
From S2P Require Import Charset.
From S2P Require Import CommandTable.
From S2P Require Import CommandArgs.
From S2P Require Import Commands.
From S2P Require Import Numbers.
From S2P Require Import NumFormat.
From S2P Require Import Output.
From S2P Require Import Execute.
From S2P Require Import Session.

(** ** [strxnmov] *)

(** The memory [dst] points to; its values at first are not read. *)
Definition put (mem : list Z) (i : nat) (c : Z) : option (list Z) := if (i <? length mem)%nat then Some (<[i := c]> mem) else None.

(** One source: the inner loop, up to its NUL or to the end [len].  The result is
    the memory, the place of [dst], and whether the end was reached. *)
Fixpoint copy_source (mem : list Z) (i len : nat) (src : list Z) : option (list Z * nat * bool) :=
  if (i =? len)%nat then Some (mem, i, true)
  else
    match src with
    | [] => mem ← put mem i 0; Some (mem, i, false)
    | c :: src' => mem ← put mem i c; copy_source mem (S i) len src'
    end.

Fixpoint copy_sources (mem : list Z) (i len : nat) (srcs : list (list Z)) : option (list Z * nat) :=
  match srcs with
  | [] => Some (mem, i)
  | src :: srcs' =>
      '(mem, i, full) ← copy_source mem i len src;
      if full : bool then Some (mem, i) else copy_sources mem i len srcs'
  end.

(** The sources are C strings. *)
Definition strxnmov (mem : list Z) (len : nat) (srcs : list (list Z)) : option (list Z) :=
  '(mem, i) ← copy_sources mem 0 len srcs; put mem i 0.

(** ** Help of the server *)

(** [trim_spaces] is the loop that moves [end_arg] back; the argument starts with
    another character. *)
Fixpoint trim_spaces (cs : CHARSET_INFO) (rev_s : list Z) : list Z :=
  match rev_s with c :: r => if my_isspace cs c then trim_spaces cs r else rev_s | [] => [] end.

Definition help_sources (cs : CHARSET_INFO) (help_arg : list Z) : list (list Z) :=
  if negb (deref help_arg =? "'"%chr) then [str "help '"; rev (trim_spaces cs (rev help_arg)); str "'"] else [str "help "; help_arg].

Definition CMD_BUF_SIZE : nat := 101.

Definition server_cmd (cs : CHARSET_INFO) (help_arg : list Z) : option (list Z) :=
  mem ← strxnmov (replicate CMD_BUF_SIZE 0) CMD_BUF_SIZE (help_sources cs help_arg); Some (cstr mem).

Section help.
Context {srv : Type} `{Server srv} (opt : options) (pl : place).

Definition put_line (s : list Z) (c : console) : console := snd (put_message opt pl s INFO_INFO c).

(** [tee_fprintf(PAGER, ...)] *)
Definition tee_pager (s : list Z) (c : console) : console :=
  if opt_nopager opt then tee_out s c
  else mkConsole (stdout c) (stderr c) (paged c ++ s) (tee_on c) (if tee_on c then tee_file c ++ s else tee_file c).

(** A value of a row; [shown] is a value as [%s] prints it. *)
Definition cell (r : row) (n : nat) : option (list Z) := default None (nth_error r n).
Definition shown (r : row) (n : nat) : list Z := default (str "(null)") (cell r n).

Definition print_help_item (cur : row) (num_name num_cat : nat) (last_char : Z) (c : console) : option (Z * console) :=
  ccat ← deref <$> cell cur num_cat;
  let c := if negb (last_char =? ccat) then put_line (if ccat =? "Y"%chr then str "categories:" else str "topics:") c else c in
  Some (ccat, tee_pager (str "   " ++ shown cur num_name ++ [c_nl]) c).

Fixpoint print_help_items (rows : list row) (num_name num_cat : nat) (last_char : Z) (c : console) : option console :=
  match rows with
  | [] => Some c
  | cur :: rows' => '(last_char, c) ← print_help_item cur num_name num_cat last_char c; print_help_items rows' num_name num_cat last_char c
  end.

Definition print_article (cur : row) (c : console) : console :=
  let c := tee_pager (str "Name: '" ++ shown cur 0 ++ str "'" ++ [c_nl]) c in
  let c := tee_pager (str "Description:" ++ [c_nl] ++ shown cur 1) c in
  let c := match cell cur 2 with Some (x :: xs) => tee_pager (str "Examples:" ++ [c_nl] ++ x :: xs) c | _ => c end in
  tee_pager [c_nl] c.

Definition many_items (c : console) : console :=
  let c := put_line (str "Many help items for your request exist.") c in
  put_line (str "To make a more specific request, please type 'help <item>'," ++ [c_nl] ++ str "where <item> is one of the following") c.

Definition help_category (cur : row) (c : console) : console :=
  let c := tee_pager (str "You asked for help about help category: " ++ [34] ++ shown cur 0 ++ [34; c_nl]) c in
  put_line (str "For more information, type 'help <item>', where <item> is one of the following") c.

Definition nothing_found (cmd : list Z) (c : console) : console :=
  let c := put_line ([c_nl] ++ str "Nothing found") c in
  if strncaseeq 15 cmd (str "help 'contents'") then put_line ([c_nl] ++ str "Please check if 'help tables' are loaded." ++ [c_nl]) c
  else put_line (str "Please try to run 'help contents' for a list of all accessible topics" ++ [c_nl]) c.

(** The answer of the server; a NULL for the category of an item is undefined. *)
Definition print_help (cmd : list Z) (fs : list MYSQL_FIELD) (rows : list row) (c : console) : option console :=
  match rows with
  | [] => Some (nothing_found cmd c)
  | cur :: rows' =>
      if (length fs =? 3)%nat && (length rows =? 1)%nat then Some (print_article cur c)
      else if (length fs =? 2)%nat then c ← print_help_items rows 0 1 0 (many_items c); Some (tee_pager [c_nl] c)
      else if (3 <=? length fs)%nat then c ← print_help_items rows 1 2 0 (help_category cur c); Some (tee_pager [c_nl] c)
      else Some (nothing_found cmd c)
  end.

(** The code, the server, the streams and [old_buffer]. *)
Definition com_server_help (cs : CHARSET_INFO) (buffer old_buffer help_arg : list Z) (s : srv) (c : console)
    : option (Z * srv * console * list Z) :=
  cmd ← server_cmd cs help_arg;
  let old_buffer := if negb (batch opt) then buffer else old_buffer in
  let '(lost, s, c) := if negb (is_connected s) then reconnect opt pl s c else (0, s, c) in
  if negb (lost =? 0) then Some (1, s, c, old_buffer)
  else
    let '(error, s, c) := mysql_real_query_for_lazy opt pl cmd s c in
    if negb (error =? 0) then Some (error, s, c, old_buffer)
    else
      match fst (results s) with
      | [] => Some (0, s, c, old_buffer)
      | r :: _ =>
          let '(error, c) := mysql_store_result_for_lazy opt pl r s c in
          if negb (error =? 0) then Some (error, s, c, old_buffer)
          else
            match table r with
            | Some (fs, rows) => if store_failed r then Some (0, s, c, old_buffer) else c ← print_help cmd fs rows c; Some (0, s, c, old_buffer)
            | None => Some (0, s, c, old_buffer)
            end
      end.

(** ** The list of commands *)

Definition HELP_BUFF_SIZE : nat := 32.

(** The name in a field of ten characters, in the array [buff]. *)
Definition padded (name : list Z) : option (list Z) :=
  let text := name ++ replicate (10 - length name) " "%chr in
  if (length text <? HELP_BUFF_SIZE)%nat then Some text else None.

(** The loop; [valid] is [is_command_valid]. *)
Fixpoint help_lines (valid : list Z -> bool) (cmds : list COMMANDS) (c : console) : option console :=
  match cmds with
  | [] => Some c
  | com :: cmds' =>
      if negb (valid (name com)) then help_lines valid cmds' c
      else
        buff ← padded (name com);
        let c := match func com with
                 | Some _ => tee_out (buff ++ str "(\" ++ [cmd_char com] ++ str ") " ++ doc com ++ [c_nl]) c
                 | None => c
                 end in
        help_lines valid cmds' c
  end.

(** [server_version] is [mysql_get_server_version]. *)
Definition com_help (cs : CHARSET_INFO) (valid : list Z -> bool) (named_cmds : bool) (server_version : srv -> Z)
    (line buffer old_buffer : list Z) (s : srv) (c : console) : option (Z * srv * console * list Z) :=
  match skip_while (my_isspace cs) <$> from_space line with
  | Some (x :: help_arg) => com_server_help cs buffer old_buffer (x :: help_arg) s c
  | _ =>
      let c := put_line ([c_nl] ++ str "General information about OceanBase can be found at" ++ [c_nl] ++ str "https://www.oceanbase.com" ++ [c_nl]) c in
      let c := put_line (str "List of all client commands:") c in
      let c := if negb named_cmds then put_line (str "Note that all text commands must be first on line and end with ';'") c else c in
      c ← help_lines valid commands c;
      let c := if is_connected s && (40100 <=? server_version s) then put_line ([c_nl] ++ str "For server side help, type 'help contents'" ++ [c_nl]) c else c in
      Some (0, s, c, old_buffer)
  end.

End help.

(** ** The arrays *)

Lemma put_app pre x rest c : put (pre ++ x :: rest) (length pre) c = Some (pre ++ c :: rest).
Proof.
  unfold put. rewrite (proj2 (Nat.ltb_lt _ _)) by (rewrite length_app; cbn [length]; lia).
  by rewrite insert_app_r_alt, Nat.sub_diag by lia.
Qed.

Lemma copy_source_spec src : forall pre rest len, (length pre <= len <= length (pre ++ rest))%nat ->
  exists rest', length (take len (pre ++ src) ++ rest') = length (pre ++ rest)
    /\ copy_source (pre ++ rest) (length pre) len src
       = Some (take len (pre ++ src) ++ rest', Nat.min len (length (pre ++ src)), (len <=? length (pre ++ src))%nat).
Proof.
  induction src as [|c src IH]; intros pre rest len Hl; cbn [copy_source]; destruct (Nat.eqb_spec (length pre) len) as [<-|Hne].
  - exists rest. by rewrite app_nil_r, firstn_all, Nat.min_id, Nat.leb_refl.
  - destruct rest as [|x rest]; [rewrite app_nil_r in Hl; lia|]. rewrite put_app. cbn [mbind option_bind]. exists (0 :: rest).
    rewrite app_nil_r, take_ge, Nat.min_r, (proj2 (Nat.leb_gt _ _)) by lia. by rewrite !length_app.
  - exists rest. rewrite take_app_le, firstn_all, Nat.min_l, (proj2 (Nat.leb_le _ _)) by (rewrite ?length_app; lia). done.
  - destruct rest as [|x rest]; [rewrite app_nil_r in Hl; lia|]. rewrite put_app. cbn [mbind option_bind].
    destruct (IH (pre ++ [c]) rest len) as (rest' & Hr & Hc); [rewrite !length_app in *; cbn [length] in *; lia|].
    rewrite <-!app_assoc in Hr, Hc. cbn [app] in Hr, Hc. rewrite length_app in Hc. cbn [length] in Hc. rewrite Nat.add_1_r in Hc.
    exists rest'. rewrite Hc. split; [|done]. rewrite Hr, !length_app. done.
Qed.

Lemma copy_sources_spec srcs : forall pre rest len, (length pre <= len <= length (pre ++ rest))%nat ->
  exists rest', length (take len (pre ++ concat srcs) ++ rest') = length (pre ++ rest)
    /\ copy_sources (pre ++ rest) (length pre) len srcs = Some (take len (pre ++ concat srcs) ++ rest', Nat.min len (length (pre ++ concat srcs))).
Proof.
  induction srcs as [|src srcs IH]; intros pre rest len Hl; cbn [copy_sources concat].
  { exists rest. rewrite app_nil_r, take_ge, Nat.min_r by lia. done. }
  destruct (copy_source_spec src pre rest len Hl) as (r1 & Hr1 & ->). cbn [mbind option_bind]. rewrite app_assoc.
  destruct (Nat.leb_spec len (length (pre ++ src))) as [Hle|Hlt].
  - exists r1. rewrite (take_app_le _ (concat srcs)), !Nat.min_l by (rewrite ?(length_app _ (concat srcs)); lia). done.
  - rewrite (take_ge (pre ++ src)), Nat.min_r in * by lia. destruct (IH (pre ++ src) r1 len) as (r2 & Hr2 & ->); [lia|].
    exists r2. split; [congruence|done].
Qed.

(** [strxnmov] copies at most [len] characters, and the NUL behind them may be
    behind the array. *)
Lemma strxnmov_spec mem len srcs : (len <= length mem)%nat ->
  let n := Nat.min len (length (concat srcs)) in
  if (n <? length mem)%nat then exists rest, strxnmov mem len srcs = Some (take len (concat srcs) ++ 0 :: rest)
  else strxnmov mem len srcs = None.
Proof.
  intros Hl n. unfold strxnmov. destruct (copy_sources_spec srcs [] mem len) as (rest & Hr & Hc); [cbn; lia|]. cbn [app length] in Hr, Hc.
  rewrite Hc. cbn [mbind option_bind]. fold n. assert (Hn : n = length (take len (concat srcs))) by (rewrite length_take; done).
  destruct (Nat.ltb_spec n (length mem)) as [Hlt|Hge].
  - rewrite Hn in *. destruct rest as [|x rest]; [rewrite app_nil_r in Hr; lia|]. exists rest. by rewrite put_app.
  - unfold put. rewrite Hr, (proj2 (Nat.ltb_ge _ _)) by lia. done.
Qed.

Lemma trim_spaces_c_string cs r : c_string r -> c_string (trim_spaces cs r).
Proof. induction 1 as [|c r Hc Hr IH]; cbn [trim_spaces]; [constructor|]. destruct (my_isspace cs c); [done|]. by constructor. Qed.

Lemma help_sources_c_string cs help_arg : c_string help_arg -> c_string (concat (help_sources cs help_arg)).
Proof.
  intros Ha. assert (Hr : c_string (rev (trim_spaces cs (rev help_arg)))) by (apply Forall_rev, trim_spaces_c_string, Forall_rev, Ha).
  unfold help_sources, c_string. destruct (negb _); cbn [concat]; rewrite !Forall_app; split_and!; try done; by repeat constructor.
Qed.

Lemma server_cmd_spec cs help_arg : c_string help_arg ->
  server_cmd cs help_arg
  = if (length (concat (help_sources cs help_arg)) <? CMD_BUF_SIZE)%nat then Some (concat (help_sources cs help_arg)) else None.
Proof.
  intros Ha. unfold server_cmd. set (t := concat _).
  pose proof (strxnmov_spec (replicate CMD_BUF_SIZE 0) CMD_BUF_SIZE (help_sources cs help_arg)) as H. rewrite length_replicate in H.
  specialize (H (Nat.le_refl _)). cbv zeta in H. fold t in H.
  destruct (Nat.ltb_spec (length t) CMD_BUF_SIZE) as [Hl|Hl].
  - rewrite Nat.min_r, (proj2 (Nat.ltb_lt _ _)), take_ge in H by lia. destruct H as [rest ->]. cbn [mbind option_bind]. f_equal.
    rewrite cstr_app by (by apply help_sources_c_string). apply app_nil_r.
  - rewrite Nat.min_l, Nat.ltb_irrefl in H by lia. by rewrite H.
Qed.

(** The line of a command. *)
Definition help_line (com : COMMANDS) : list Z :=
  name com ++ replicate (10 - length (name com)) " "%chr ++ str "(\" ++ [cmd_char com] ++ str ") " ++ doc com ++ [c_nl].

Lemma tee_out_app a b c : tee_out b (tee_out a c) = tee_out (a ++ b) c.
Proof. unfold tee_out. cbn. f_equal; [by rewrite app_assoc|]. destruct (tee_on c); [by rewrite app_assoc|done]. Qed.

Lemma tee_out_nil c : tee_out [] c = c.
Proof. unfold tee_out. destruct c as [o e p t f]. cbn. rewrite !app_nil_r. by destruct t. Qed.

Definition lists (valid : list Z -> bool) (com : COMMANDS) : bool := valid (name com) && found (func com).

Lemma help_lines_spec valid cmds : Forall (fun com => (length (name com) < HELP_BUFF_SIZE)%nat) cmds -> forall c,
  help_lines valid cmds c = Some (tee_out (concat (map help_line (List.filter (lists valid) cmds))) c).
Proof.
  induction 1 as [|com cmds Hc _ IH]; intros c; cbn [help_lines List.filter map concat]; [by rewrite tee_out_nil|].
  unfold lists at 1. destruct (valid (name com)); cbn [negb andb]; [|apply IH]. unfold padded.
  rewrite (proj2 (Nat.ltb_lt _ _)) by (rewrite length_app, length_replicate; unfold HELP_BUFF_SIZE in *; lia). cbn [mbind option_bind].
  destruct (func com) as [f|]; cbn [found map concat]; [|apply IH]. rewrite IH, tee_out_app. unfold help_line. by rewrite <-!app_assoc.
Qed.

Lemma commands_fit : Forall (fun com => (length (name com) < HELP_BUFF_SIZE)%nat) commands.
Proof.
  apply Forall_forall. intros com Hc. apply Nat.ltb_lt.
  assert (H : forallb (fun com => (length (name com) <? HELP_BUFF_SIZE)%nat) commands = true) by (vm_compute; reflexivity).
  rewrite forallb_forall in H. apply H, list_elem_of_In, Hc.
Qed.

Lemma commands_listed valid : List.filter (lists valid) commands = List.filter (fun com => valid (name com)) client_commands.
Proof.
  assert (Hc : forallb (fun com => found (func com)) client_commands = true) by (vm_compute; reflexivity).
  assert (Hw : forallb (fun com => negb (found (func com))) (words_1 ++ words_2 ++ words_3 ++ words_4 ++ words_5) = true) by (vm_compute; reflexivity).
  unfold commands. generalize dependent (words_1 ++ words_2 ++ words_3 ++ words_4 ++ words_5). intros ws Hw.
  generalize dependent client_commands. intros cmds Hc. rewrite List.filter_app.
  replace (List.filter (lists valid) ws) with (@nil COMMANDS).
  - rewrite app_nil_r. induction cmds as [|com cmds IH]; [done|]. cbn in Hc. apply andb_prop in Hc as [H1 H2]. cbn [List.filter].
    unfold lists at 1. rewrite H1, andb_true_r, IH by done. done.
  - induction ws as [|com ws IH]; [done|]. cbn in Hw. apply andb_prop in Hw as [H1%negb_true_iff H2]. cbn [List.filter].
    unfold lists at 1. rewrite H1, andb_false_r. by apply IH.
Qed.

Lemma trim_spaces_app cs blanks arg x : Forall (fun c => my_isspace cs c = true) blanks -> my_isspace cs x = false ->
  rev (trim_spaces cs (rev ((arg ++ [x]) ++ blanks))) = arg ++ [x].
Proof.
  intros Hb Hx. rewrite rev_app_distr.
  assert (Ht : trim_spaces cs (rev blanks ++ rev (arg ++ [x])) = rev (arg ++ [x])).
  { apply Forall_rev in Hb. induction Hb as [|c r Hc _ IH]; cbn [app trim_spaces]; [|by rewrite Hc]. rewrite rev_app_distr. cbn [rev app trim_spaces]. by rewrite Hx. }
  rewrite Ht. apply rev_involutive.
Qed.

(** C36. The arrays of the help command: the list of commands fits its array for
    every name in the table, and is exactly one line for each command of the client
    that is not disabled, in the order of the table and without the words for
    completion.  The query for the server's help is the argument without the
    blanks at its end, in quotes unless it starts with one, when that is at most 100
    bytes long, and otherwise, since the size of the array is taken for the length
    of its text, a byte is written behind the array. *)
Theorem help_arrays (valid : list Z -> bool) (cs : CHARSET_INFO) (arg : list Z) (x : Z) (blanks : list Z) (c : console) :
  c_string ((arg ++ [x]) ++ blanks) -> my_isspace cs x = false -> Forall (fun c => my_isspace cs c = true) blanks ->
  help_lines valid commands c = Some (tee_out (concat (map help_line (List.filter (fun com => valid (name com)) client_commands))) c)
  /\ server_cmd cs ((arg ++ [x]) ++ blanks)
     = let query := if negb (deref (arg ++ [x]) =? "'"%chr) then str "help '" ++ (arg ++ [x]) ++ str "'" else str "help " ++ (arg ++ [x]) ++ blanks in
       if (length query <=? 100)%nat then Some query else None.
Proof.
  intros Ha Hx Hb. split; [by rewrite (help_lines_spec valid commands commands_fit), commands_listed|].
  rewrite server_cmd_spec by done. unfold help_sources. rewrite trim_spaces_app by done.
  replace (deref ((arg ++ [x]) ++ blanks)) with (deref (arg ++ [x])) by (by destruct arg).
  destruct (negb _); cbn [concat]; rewrite app_nil_r; done.
Qed.

Lemma help_arrays_witness :
  server_cmd my_charset_latin1 (str "select  ") = Some (str "help 'select'")
  /\ server_cmd my_charset_latin1 (replicate 94 "x"%chr) = None.
Proof.
  destruct (help_arrays (fun _ => true) my_charset_latin1 (str "selec") "t"%chr (str "  ") (mkConsole [] [] [] false [])) as [_ H1];
    [by repeat constructor|done|by repeat constructor|]. split; [exact H1|by vm_compute].
Defined.
