(* ===== verification/Str2Int.v ===== *)
(** * Reading an integer within bounds (strings/str2int.c)

    [str2int] converts the digits from the last to the first and compares each
    with what is left of the bounds, so that nothing overflows.  Numbers are of the
    64-bit type [long]; a computation that leaves it is undefined, [None]. *)

From S2P Require Import Prelude.
From S2P Require Import CString.
From S2P Require Import Charset.
From S2P Require Import CommandArgs.
From S2P Require Import Numbers.

Definition LONG_MAX : Z := 2 ^ 63 - 1.
Definition LONG_MIN : Z := - 2 ^ 63.

Inductive int_error := EDOM | ERANGE.

#[global] Instance int_error_eq_dec : EqDecision int_error.
Proof. solve_decision. Defined.

Definition long (z : Z) : option Z := if (LONG_MIN <=? z) && (z <=? LONG_MAX) then Some z else None.

Definition char_val (x : Z) : Z :=
  if ("0"%chr <=? x) && (x <=? "9"%chr) then x - "0"%chr
  else if ("A"%chr <=? x) && (x <=? "Z"%chr) then x - "A"%chr + 10
  else if ("a"%chr <=? x) && (x <=? "z"%chr) then x - "a"%chr + 10
  else 127.

(** The loop that moves over the digits, at most [n] of them. *)
Fixpoint read_digits (radix : Z) (n : nat) (src : list Z) : list Z * list Z :=
  match n, src with
  | S n', c :: src' => if char_val c <? radix then let '(ds, rest) := read_digits radix n' src' in (char_val c :: ds, rest) else ([], src)
  | _, _ => ([], src)
  end.

(** The loop over the digits, here in the order of the conversion, and the test
    of the first digit behind it: the number, or nothing out of range. *)
Fixpoint convert (radix : Z) (ds : list Z) (limit sofar scale : Z) : option (option Z) :=
  match ds with
  | [] => Some (Some sofar)
  | d :: ds' =>
      if - d <? limit then Some None
      else
        p ← long (d * scale); sofar ← long (sofar + p);
        match ds' with
        | [] => Some (Some sofar)
        | _ => scale ← long (scale * radix); convert radix ds' (Z.quot (limit + d) radix) sofar scale
        end
  end.

(** [limit]: the greater one of the bounds, as a negative number. *)
Definition negative_limit (lower upper : Z) : Z :=
  let limit := if 0 <? lower then - lower else lower in
  let scale := if 0 <? upper then - upper else upper in
  if scale <? limit then scale else limit.

Definition in_bounds (negative : bool) (sofar lower upper : Z) : option Z :=
  if negb negative then if (sofar <? - LONG_MAX) || (upper <? - sofar) then None else Some (- sofar)
  else if sofar <? lower then None else Some sofar.

(** The error, or the value and the text behind the number. *)
Definition str2int (src : list Z) (radix lower upper : Z) : option (int_error + Z * list Z) :=
  let limit := negative_limit lower upper in
  let src := skip_while (my_isspace my_charset_latin1) src in
  let negative := deref src =? "-"%chr in
  let src := if (deref src =? "+"%chr) || negative then drop 1 src else src in
  let start := src in
  let src := drop (span (fun c => c =? "0"%chr) src) src in
  let '(ds, rest) := read_digits radix 20 src in
  if (length rest =? length start)%nat then Some (inl EDOM)
  else
    r ← convert radix (rev ds) limit 0 (-1);
    match r with
    | None => Some (inl ERANGE)
    | Some sofar => Some match in_bounds negative sofar lower upper with Some val => inr (val, rest) | None => inl ERANGE end
    end.

(** ** The conversion is exact *)

Lemma long_in z : LONG_MIN <= z <= LONG_MAX -> long z = Some z.
Proof. intros H. unfold long. rewrite (proj2 (Z.leb_le _ _)), (proj2 (Z.leb_le _ _)) by lia. done. Qed.

Lemma long_out z : z < LONG_MIN -> long z = None.
Proof. intros H. unfold long. by rewrite (proj2 (Z.leb_gt _ _)) by lia. Qed.

(** The limit behind a digit: [(L - low) / 10 ^ k] is the greatest number that
    the digits in front of [k] digits with the value [low] may have. *)
Lemma next_limit L low k d : 0 <= low -> 0 <= k -> 0 <= d <= (L - low) / 10 ^ k ->
  Z.quot (- ((L - low) / 10 ^ k) + d) 10 = - ((L - (low + d * 10 ^ k)) / 10 ^ (k + 1)).
Proof.
  intros Hlow Hk Hd. replace (- ((L - low) / 10 ^ k) + d) with (- ((L - low) / 10 ^ k - d)) by lia.
  rewrite Z.quot_opp_l by lia. f_equal. rewrite Z.quot_div_nonneg by lia. rewrite Z.pow_add_r, <-Z.div_div by lia. f_equal.
  replace (L - (low + d * 10 ^ k)) with (L - low + - d * 10 ^ k) by lia. rewrite Z.div_add by lia. lia.
Qed.

Lemma limit_test L low k d : 0 <= k -> (- d <? - ((L - low) / 10 ^ k)) = (L <? low + d * 10 ^ k).
Proof.
  intros Hk. assert (Hp : 0 < 10 ^ k) by lia. pose proof (Z.div_mod (L - low) (10 ^ k) ltac:(lia)). pose proof (Z.mod_pos_bound (L - low) (10 ^ k) Hp).
  set (q := (L - low) / 10 ^ k) in *. apply Bool.eq_iff_eq_true. rewrite !Z.ltb_lt. split; intros Hd.
  - assert (10 ^ k * (q + 1) <= 10 ^ k * d) by (apply Z.mul_le_mono_nonneg_l; lia). lia.
  - destruct (Z.le_gt_cases d q) as [Hle|]; [|lia]. assert (10 ^ k * d <= 10 ^ k * q) by (apply Z.mul_le_mono_nonneg_l; lia). lia.
Qed.

Definition digit_values (ds : list Z) : Prop := Forall (fun d => 0 <= d < 10) ds.

(** The steps of the loop for one digit. *)
Lemma convert_step L low k d ds : 0 <= low <= L -> L <= 2 ^ 63 -> 0 <= k <= 18 -> 0 <= d < 10 ->
  convert 10 (d :: ds) (- ((L - low) / 10 ^ k)) (- low) (- 10 ^ k)
  = if L <? low + d * 10 ^ k then Some None
    else match ds with
         | [] => Some (Some (- (low + d * 10 ^ k)))
         | _ => scale ← long (- 10 ^ (k + 1)); convert 10 ds (- ((L - (low + d * 10 ^ k)) / 10 ^ (k + 1))) (- (low + d * 10 ^ k)) scale
         end.
Proof.
  intros Hlow HL Hk Hd. cbn [convert]. rewrite limit_test by lia. destruct (Z.ltb_spec L (low + d * 10 ^ k)) as [|Hle]; [done|].
  assert (Hdk : 0 <= d * 10 ^ k) by (apply Z.mul_nonneg_nonneg; lia). replace (d * - 10 ^ k) with (- (d * 10 ^ k)) by lia.
  rewrite (long_in (- (d * 10 ^ k))) by (unfold LONG_MIN, LONG_MAX; lia). cbn [mbind option_bind].
  replace (- low + - (d * 10 ^ k)) with (- (low + d * 10 ^ k)) by lia.
  rewrite (long_in (- (low + d * 10 ^ k))) by (unfold LONG_MIN, LONG_MAX; lia). cbn [mbind option_bind].
  destruct ds as [|d' ds]; [done|]. replace (- 10 ^ k * 10) with (- 10 ^ (k + 1)) by (rewrite Z.pow_add_r by lia; lia).
  rewrite next_limit; [by destruct (long _)|lia|lia|]. split; [lia|]. apply Z.div_le_lower_bound; lia.
Qed.

(** Up to 19 digits. *)
Lemma convert_short L hi : L <= 2 ^ 63 -> digit_values hi -> hi <> [] -> forall k low, 0 <= low <= L -> 0 <= k ->
  k + Z.of_nat (length hi) <= 19 ->
  convert 10 (rev hi) (- ((L - low) / 10 ^ k)) (- low) (- 10 ^ k)
  = Some (if L <? positional 10 hi * 10 ^ k + low then None else Some (- (positional 10 hi * 10 ^ k + low))).
Proof.
  intros HL Hhi. induction hi as [|d hi IH] using rev_ind; intros Hne k low Hlow Hk Hlen; [done|].
  apply Forall_app in Hhi as [Hhi [Hd _]%Forall_cons]. rewrite length_app in Hlen. cbn [length] in Hlen.
  rewrite rev_app_distr. cbn [rev app]. rewrite convert_step by lia. rewrite positional_snoc.
  pose proof (positional_range 10 hi ltac:(lia) Hhi) as [Hp _].
  replace ((positional 10 hi * 10 + d) * 10 ^ k + low) with (positional 10 hi * 10 ^ (k + 1) + (low + d * 10 ^ k)) by (rewrite Z.pow_add_r by lia; lia).
  assert (Hh : 0 <= positional 10 hi * 10 ^ (k + 1)) by (apply Z.mul_nonneg_nonneg; lia).
  assert (Hdk : 0 <= d * 10 ^ k) by (apply Z.mul_nonneg_nonneg; lia).
  destruct (Z.ltb_spec L (low + d * 10 ^ k)) as [Hgt|Hle]; [by rewrite (proj2 (Z.ltb_lt _ _)) by lia|].
  destruct (rev hi) as [|x r] eqn:Er.
  { apply (f_equal (@rev Z)) in Er. rewrite rev_involutive in Er. subst hi. change (positional 10 []) with 0. rewrite Z.mul_0_l, Z.add_0_l, (proj2 (Z.ltb_ge _ _)) by lia. done. }
  assert (Hn : hi <> []) by (intros ->; done). assert (Hl : (1 <= length hi)%nat) by (destruct hi; [done|cbn; lia]).
  assert (H18 : 10 ^ (k + 1) <= 10 ^ 18) by (apply Z.pow_le_mono_r; lia).
  rewrite long_in by (unfold LONG_MIN, LONG_MAX; lia). cbn [mbind option_bind]. apply IH; [done|done|lia|lia|lia].
Qed.

(** With twenty digits the scale of the first one is too great. *)
Lemma convert_long L h mid : L <= 2 ^ 63 -> digit_values mid -> mid <> [] -> forall k low, 0 <= low <= L -> 0 <= k ->
  k + Z.of_nat (length mid) = 19 ->
  convert 10 (rev (h :: mid)) (- ((L - low) / 10 ^ k)) (- low) (- 10 ^ k)
  = if L <? positional 10 mid * 10 ^ k + low then Some None else None.
Proof.
  intros HL Hmid. induction mid as [|d mid IH] using rev_ind; intros Hne k low Hlow Hk Hlen; [done|].
  apply Forall_app in Hmid as [Hmid [Hd _]%Forall_cons]. rewrite length_app in Hlen. cbn [length] in Hlen.
  rewrite app_comm_cons, rev_app_distr. cbn [rev app]. rewrite convert_step by lia. rewrite positional_snoc.
  pose proof (positional_range 10 mid ltac:(lia) Hmid) as [Hp _].
  replace ((positional 10 mid * 10 + d) * 10 ^ k + low) with (positional 10 mid * 10 ^ (k + 1) + (low + d * 10 ^ k)) by (rewrite Z.pow_add_r by lia; lia).
  assert (Hh : 0 <= positional 10 mid * 10 ^ (k + 1)) by (apply Z.mul_nonneg_nonneg; lia).
  assert (Hdk : 0 <= d * 10 ^ k) by (apply Z.mul_nonneg_nonneg; lia).
  destruct (Z.ltb_spec L (low + d * 10 ^ k)) as [Hgt|Hle]; [by rewrite (proj2 (Z.ltb_lt _ _)) by lia|].
  destruct (rev mid ++ [h]) as [|x r] eqn:Er; [by destruct (rev mid)|]. destruct mid as [|m mid].
  { cbn [length] in Hlen. replace k with 18 by lia. rewrite long_out by (unfold LONG_MIN; lia). change (positional 10 []) with 0.
    replace k with 18 in Hle by lia. by rewrite Z.mul_0_l, Z.add_0_l, (proj2 (Z.ltb_ge _ _)) by lia. }
  assert (H18 : 10 ^ (k + 1) <= 10 ^ 18) by (apply Z.pow_le_mono_r; cbn [length] in Hlen; lia).
  rewrite long_in by (unfold LONG_MIN, LONG_MAX; lia). cbn [mbind option_bind]. rewrite <-Er. apply IH; [done|done|lia|lia|lia].
Qed.

(** ** The text of a number *)

(** Blanks, a sign, zeros and digits, of which the first is not a zero. *)
Record number_text (src : list Z) (negative : bool) (ds rest : list Z) : Prop := {
  nt_text : exists sp sg zs, src = sp ++ sg ++ zs ++ ds ++ rest
    /\ Forall (fun c => c <> 0 /\ my_isspace my_charset_latin1 c = true) sp
    /\ (if negative then sg = ["-"%chr] else sg = [] \/ sg = ["+"%chr])
    /\ Forall (fun c => c = "0"%chr) zs /\ zs ++ ds <> [];
  nt_digits : digits ds;
  nt_first : deref ds <> "0"%chr;
  nt_rest : 10 <= char_val (deref rest)
}.

Lemma char_val_digit c : "0"%chr <= c <= "9"%chr -> char_val c = c - "0"%chr.
Proof. intros H. unfold char_val. by rewrite (proj2 (Z.leb_le _ _)), (proj2 (Z.leb_le _ _)) by lia. Qed.

Lemma read_digits_spec n ds rest : digits ds -> 10 <= char_val (deref rest) ->
  read_digits 10 n (ds ++ rest) = (map (fun c => c - "0"%chr) (take n ds), drop n ds ++ rest).
Proof.
  intros Hds Hr. revert n. induction Hds as [|c ds Hc _ IH]; intros n.
  - rewrite take_nil, drop_nil. destruct n, rest as [|x r]; try done. cbn [read_digits app map]. by rewrite (proj2 (Z.ltb_ge _ _)) by done.
  - destruct n; [done|]. cbn [app read_digits take drop map]. rewrite char_val_digit, (proj2 (Z.ltb_lt _ _)), IH by lia. done.
Qed.

Lemma digits_values ds : digits ds -> digit_values (map (fun c => c - "0"%chr) ds).
Proof. intros H. apply Forall_map. eapply Forall_impl; [exact H|]. cbn. lia. Qed.

(** What is left to convert behind the blanks, the sign and the zeros. *)
Lemma str2int_number src negative ds rest lower upper : number_text src negative ds rest ->
  str2int src 10 lower upper
  = (r ← convert 10 (rev (map (fun c => c - "0"%chr) (take 20 ds))) (negative_limit lower upper) 0 (-1);
     match r with
     | None => Some (inl ERANGE)
     | Some sofar => Some match in_bounds negative sofar lower upper with Some val => inr (val, drop 20 ds ++ rest) | None => inl ERANGE end
     end).
Proof.
  intros [(sp & sg & zs & -> & Hsp & Hsg & Hzs & Hne) Hds Hf Hr]. unfold str2int.
  set (body := zs ++ ds ++ rest). assert (Hb : "0"%chr <= deref body <= "9"%chr).
  { unfold body. destruct Hzs as [|z zs -> _]; [|done]. destruct Hds as [|d ds Hd _]; [done|exact Hd]. }
  assert (Hstart : skip_while (my_isspace my_charset_latin1) (sp ++ sg ++ body) = sg ++ body).
  { apply skip_while_app; [done|]. right. assert (Hsb : my_isspace my_charset_latin1 (deref body) = false).
    { by apply digit_not_space. }
    destruct negative; [by subst sg|]. by destruct Hsg as [-> | ->]. }
  rewrite Hstart. assert (Hsign : (deref (sg ++ body) =? "-"%chr) = negative
    /\ (if (deref (sg ++ body) =? "+"%chr) || (deref (sg ++ body) =? "-"%chr) then drop 1 (sg ++ body) else sg ++ body) = body).
  { destruct negative; [by subst sg|]. destruct Hsg as [-> | ->]; [|done]. cbn [app].
    by rewrite (proj2 (Z.eqb_neq (deref body) "-"%chr)), (proj2 (Z.eqb_neq (deref body) "+"%chr)) by lia. }
  destruct Hsign as [-> ->]. unfold body. rewrite span_app by (eapply Forall_impl; [exact Hzs|]; cbn; intros ? ->; done).
  assert (Hstop : span (fun c => c =? "0"%chr) (ds ++ rest) = 0%nat).
  { destruct ds as [|d ds]; cbn [app]; [|cbn [span]; by rewrite (proj2 (Z.eqb_neq d _) Hf)]. destruct rest as [|x r]; [done|]. cbn [span].
    destruct (Z.eqb_spec x "0"%chr) as [->|]; [by vm_compute in Hr|done]. }
  rewrite Hstop, Nat.add_0_r, drop_app_length, read_digits_spec by done.
  rewrite (proj2 (Nat.eqb_neq _ _)); [done|]. rewrite !length_app, length_drop. destruct zs, ds; try done; cbn [length]; lia.
Qed.

Definition bound (lower upper : Z) : Z := Z.max (- lower) upper.

Lemma negative_limit_bound lower upper : lower <= 0 -> 0 <= upper -> negative_limit lower upper = - bound lower upper.
Proof.
  intros Hl Hu. unfold negative_limit, bound. rewrite (proj2 (Z.ltb_ge 0 lower)) by lia.
  destruct (Z.ltb_spec 0 upper); [destruct (Z.ltb_spec (- upper) lower)|destruct (Z.ltb_spec upper lower)]; lia.
Qed.

(** C16. Reading a decimal number within bounds: for bounds of the type long on
    both sides of zero and any text of a number, whatever blanks and zeros are in
    front of it (not only spaces and tabs, as the comment of the function has it,
    but newlines and form feeds, too), the function returns exactly the number and the text behind it
    when the number lies within the bounds, and the error ERANGE otherwise, without
    any overflow, for numbers of at most 19 digits.  Numbers of 20 and more digits
    are never accepted, but unless the error is found within the 19 digits behind
    the first, computing the scale of the first one overflows. *)
Theorem str2int_decimal (src : list Z) (negative : bool) (ds rest : list Z) (lower upper : Z) :
  number_text src negative ds rest -> LONG_MIN <= lower <= 0 -> 0 <= upper <= LONG_MAX ->
  let v := if negative then - decimal ds else decimal ds in
  str2int src 10 lower upper
  = if (length ds <=? 19)%nat then Some (if (lower <=? v) && (v <=? upper) then inr (v, rest) else inl ERANGE)
    else if decimal (take 19 (drop 1 ds)) <=? bound lower upper then None else Some (inl ERANGE).
Proof.
  intros Hn Hl Hu v. rewrite (str2int_number _ _ _ _ _ _ Hn), negative_limit_bound by lia. set (L := bound lower upper).
  assert (HL : 0 <= L <= 2 ^ 63) by (unfold L, bound, LONG_MIN, LONG_MAX in *; lia). destruct Hn as [_ Hds _ _].
  assert (Hinit : forall l, convert 10 l (- L) 0 (-1) = convert 10 l (- ((L - 0) / 10 ^ 0)) (- 0) (- 10 ^ 0)) by (intros l; by rewrite Z.sub_0_r, Z.div_1_r).
  rewrite Hinit.
  destruct (Nat.leb_spec (length ds) 19) as [Hlen|Hlen].
  - rewrite take_ge, drop_ge by lia. cbn [app].
    assert (Hc : convert 10 (rev (map (fun c => c - "0"%chr) ds)) (- ((L - 0) / 10 ^ 0)) (- 0) (- 10 ^ 0) = Some (if L <? decimal ds then None else Some (- decimal ds))).
    { destruct ds as [|d ds].
      - cbn [map rev convert]. change (decimal []) with 0. by rewrite (proj2 (Z.ltb_ge _ _)) by lia.
      - rewrite convert_short by (done || lia || apply digits_values, Hds || (rewrite length_map; lia)). fold (decimal (d :: ds)).
        by rewrite Z.pow_0_r, Z.mul_1_r, Z.add_0_r. }
    rewrite Hc. cbn [mbind option_bind]. pose proof (decimal_range ds Hds) as [H0 _]. clear Hc. unfold v, L, bound, in_bounds, LONG_MAX, LONG_MIN in *.
    destruct (Z.ltb_spec (Z.max (- lower) upper) (decimal ds)), negative; cbn [negb];
      repeat (match goal with |- context [Z.leb ?a ?b] => destruct (Z.leb_spec a b) | |- context [Z.ltb ?a ?b] => destruct (Z.ltb_spec a b) end; cbn [orb andb]);
      try lia; try done; do 3 f_equal; lia.
  - destruct ds as [|h ds]; [cbn in Hlen; lia|]. cbn [length] in Hlen. change (take 20 (h :: ds)) with (h :: take 19 ds). cbn [map drop].
    apply Forall_cons in Hds as [_ Hds]. assert (H19 : length (take 19 ds) = 19%nat) by (rewrite length_take; lia).
    rewrite convert_long; [|lia| | |lia|lia|rewrite length_map, H19; lia].
    + fold (decimal (take 19 ds)). rewrite Z.pow_0_r, Z.mul_1_r, Z.add_0_r, drop_0.
      destruct (Z.ltb_spec L (decimal (take 19 ds))), (Z.leb_spec (decimal (take 19 ds)) L); try lia; done.
    + apply digits_values, Forall_take, Hds.
    + by destruct ds.
Qed.

Lemma str2int_decimal_witness :
  str2int (c_nl :: str " -007 days") 10 (-10) LONG_MAX = Some (inr (-7, str " days"))
  /\ str2int (str "10000000000000000000") 10 0 LONG_MAX = None.
Proof.
  split.
  - apply (str2int_decimal _ true (str "7") (str " days")); [|unfold LONG_MIN; lia|unfold LONG_MAX; lia].
    split; [exists (c_nl :: str " "), (str "-"), (str "00"); split_and!; try done; by repeat constructor|by repeat constructor|done|done].
  - apply (str2int_decimal _ false (str "10000000000000000000") []); [|unfold LONG_MIN; lia|unfold LONG_MAX; lia].
    split; [exists [], [], []; split_and!; try done; by left|by repeat constructor|done|done].
Defined.
