(* ===== verification/Status.v ===== *)
(** * The command status (client/mysql.cc: nice_time, com_status)

    [com_status] prints what the client and the server know about the connection,
    the time since the start of the server among it.  The class [StatusInfo] adds
    to [Databases] what the connector tells about a connection. *)

From S2P Require Import Prelude.
From S2P Require Import CString.
From S2P Require Import Charset.
From S2P Require Import CommandTable.
From S2P Require Import FileNames.
From S2P Require Import Numbers.
From S2P Require Import NumFormat.
From S2P Require Import Output.
From S2P Require Import Execute.
From S2P Require Import Databases.
From S2P Require Import Str2Int.
From S2P Require Import Help.

(** ** Durations *)

(** A unit of [n] seconds: its text, and the seconds left. *)
Definition time_unit (n : Z) (one many : string) (sec : Z) : list Z * Z :=
  if n <=? sec then
    let tmp := sec / n in (int10_to_str tmp 10 ++ (if 1 <? tmp then str many else str one), sec - n * tmp)
  else ([], sec).

(** [nice_time] of whole seconds.  The quotients of the code are of type double; up
    to 10 ^ 11 days they do not round to the next integer. *)
Definition nice_time (sec : Z) : list Z :=
  let '(days, sec) := time_unit 86400 " day " " days " sec in
  let '(hours, sec) := time_unit 3600 " hour " " hours " sec in
  let '(minutes, sec) := time_unit 60 " min " " min " sec in
  days ++ hours ++ minutes ++ dec sec ++ str " sec".

(** ** The connection *)

Class StatusInfo (srv : Type) `{Databases srv} := {
  mysql_thread_id : srv -> Z;
  mysql_get_ssl_cipher : srv -> option (list Z);
  mysql_get_proto_info : srv -> Z;
  mysql_get_host_info : srv -> list Z;
  mysql_insert_id : srv -> Z;
  connection_csname : srv -> list Z;                     (* mysql.charset->csname *)
  unix_socket : srv -> option (list Z);
  port : srv -> Z;
  compress : srv -> bool;
  mysql_stat : srv -> option (list Z) * srv
}.

(** The variables of the client that are shown. *)
Record shown_vars := mkShownVars {
  version_line : list Z;                                 (* what usage(1) prints *)
  is_proxymode : bool;
  shown_pager : list Z;
  shown_outfile : list Z;
  shown_delimiter : list Z;
  client_csname : list Z;
  safe_updates : bool;
  select_limit : Z;
  max_join_size : Z
}.

Definition STATUS_BUFF_SIZE : nat := 40.

Section status.
Context {srv : Type} `{StatusInfo srv} (opt : options) (pl : place) (v : shown_vars).

Definition tee_puts (s : list Z) (c : console) : console := tee_out (s ++ [c_nl]) c.

Definition labelled (label text : list Z) : list Z := label ++ [c_tab] ++ text ++ [c_nl].

Definition who_query (oracle : bool) : list Z :=
  if oracle then
    str "select sys_context('USERENV','CURRENT_SCHEMA'), sys_context('USERENV','CURRENT_USER') from dual where rownum <= 1"
  else str "select DATABASE(), USER() limit 1".

Definition charset_query (oracle : bool) : list Z :=
  str "select @@character_set_client, @@character_set_connection, @@character_set_server, @@character_set_database "
  ++ (if oracle then str "from dual where rownum <= 1" else str "limit 1").

(** [mysql_store_result_for_lazy] of the last statement and the first row of the
    result: [None] for an error. *)
Definition store_row (failed : bool) (s : srv) (c : console) : option (option row) * console :=
  let unstored := match mysql_error s with [] => (Some None, c) | _ => (None, snd (put_error opt pl s c)) end in
  if failed then unstored
  else
    match fst (results s) with
    | [] => unstored
    | r :: _ =>
        if store_failed r then unstored
        else (Some match table r with Some (_, cur :: _) => Some cur | _ => None end, c)
    end.

Definition or_empty (r : row) (n : nat) : list Z := default [] (cell r n).

Definition print_user (r : option row) (c : console) : console :=
  match r with
  | Some cur => tee_out (labelled (str "Current user:" ++ [c_tab]) (shown cur 1)) (tee_out (labelled (str "Current database:") (or_empty cur 0)) c)
  | None => c
  end.

Definition print_charsets (stored : option (option row)) (s : srv) (c : console) : console :=
  match stored with
  | Some (Some cur) =>
      let c := tee_out (labelled (str "Server characterset:") (or_empty cur 2)) c in
      let c := tee_out (labelled (str "Db     characterset:") (or_empty cur 3)) c in
      let c := tee_out (labelled (str "Client characterset:") (or_empty cur 0)) c in
      tee_out (labelled (str "Conn.  characterset:") (or_empty cur 1)) c
  | Some None => c
  | None =>
      let c := tee_out (labelled (str "Client characterset:") (client_csname v)) c in
      tee_out (labelled (str "Server characterset:") (connection_csname s)) c
  end.

(** The first part: user, encryption and the settings of the client. *)
Definition print_client_part (r : option row) (s : srv) (c : console) : console :=
  let c := print_user r c in
  let c := match mysql_get_ssl_cipher s with
           | Some cipher => tee_out (str "SSL:" ++ [c_tab; c_tab; c_tab] ++ str "Cipher in use is " ++ cipher ++ [c_nl]) c
           | None => tee_puts (str "SSL:" ++ [c_tab; c_tab; c_tab] ++ str "Not in use") c
           end in
  let c := if updates_skipped s then tee_out ([c_nl] ++ str "All updates ignored to this database" ++ [c_nl]) c else c in
  let c := tee_out (labelled (str "Current pager:" ++ [c_tab]) (shown_pager v)) c in
  let c := tee_out (labelled (str "Using outfile:" ++ [c_tab]) (str "'" ++ (if tee_on c then shown_outfile v else []) ++ str "'")) c in
  tee_out (labelled (str "Using delimiter:") (shown_delimiter v)) c.

(** What the connector tells about the connection. *)
Definition print_server_part (s : srv) (c : console) : srv * console :=
  let '(version, s) := if is_proxymode v then ([], s) else server_version_string s in
  let c := tee_out (labelled (str "Server version:" ++ [c_tab]) version) c in
  let c := tee_out (labelled (str "Protocol version:") (dec (mysql_get_proto_info s))) c in
  let c := tee_out (labelled (str "Connection:" ++ [c_tab]) (mysql_get_host_info s)) c in
  (s, if negb (mysql_insert_id s =? 0) then tee_out (labelled (str "Insert id:" ++ [c_tab]) (longlong10_to_str (s64 (mysql_insert_id s)) (-10))) c else c).

Definition print_transport (s : srv) (c : console) : console :=
  let c := match unix_socket s with
           | Some socket =>
               if found (strstr (mysql_get_host_info s) (str "TCP/IP")) then tee_out (labelled (str "TCP port:" ++ [c_tab]) (dec (port s))) c
               else tee_out (labelled (str "UNIX socket:" ++ [c_tab]) socket) c
           | None => tee_out (labelled (str "TCP port:" ++ [c_tab]) (dec (port s))) c
           end in
  if compress s then tee_out (labelled (str "Protocol:" ++ [c_tab]) (str "Compressed")) c else c.

(** The text of [mysql_stat], which starts with a label and the seconds since the
    start of the server; [None] where the duration does not fit its array. *)
Definition print_uptime (status_str : list Z) (c : console) : option console :=
  match strchr status_str " "%chr with
  | None => Some c
  | Some n =>
      let c := tee_out (take n status_str ++ [c_tab; c_tab; c_tab]) c in
      r ← str2int (drop n status_str) 10 0 LONG_MAX;
      match r with
      | inl _ => Some c
      | inr (sec, rest) =>
          let buff := nice_time sec in
          if (length buff <? STATUS_BUFF_SIZE)%nat then
            let c := tee_puts buff c in
            let c := tee_out [c_nl] c in
            Some (tee_puts (skip_while (fun x => x =? " "%chr) rest) c)
          else None
      end
  end.

Definition print_safe_updates (c : console) : console :=
  if safe_updates v then
    let c := tee_out ([c_nl] ++ str "Note that you are running in safe_update_mode:" ++ [c_nl]) c in
    tee_out ([c_nl] ++ str "UPDATEs and DELETEs that don't use a key in the WHERE clause are not allowed." ++ [c_nl]
      ++ str "(One can force an UPDATE/DELETE by adding LIMIT # at the end of the command.)" ++ [c_nl]
      ++ str "SELECT has an automatic 'LIMIT " ++ dec (select_limit v) ++ str "' if LIMIT is not used." ++ [c_nl]
      ++ str "Max number of examined row combination in a join is set to: " ++ dec (max_join_size v) ++ [c_nl; c_nl]) c
  else c.

Definition com_status (s : srv) (c : console) : option (Z * srv * console) :=
  let '(failed, s, c) := mysql_real_query_for_lazy opt pl (who_query (in_oracle_mode s)) s c in
  if negb (failed =? 0) then Some (0, s, c)
  else
    let c := tee_puts (str "--------------") c in
    let c := print_out (version_line v) c in
    let c := tee_out ([c_nl] ++ str "Connection id:" ++ [c_tab; c_tab] ++ dec (mysql_thread_id s) ++ [c_nl]) c in
    let '(stored, c) := store_row false s c in
    let c := print_client_part (default None stored) s c in
    let '(s, c) := print_server_part s c in
    let '(failed, s, c) := mysql_real_query_for_lazy opt pl (charset_query (in_oracle_mode s)) s c in
    if negb (failed =? 0) && (mysql_errno s =? CR_SERVER_GONE_ERROR) then Some (0, s, c)
    else
      let '(stored, c) := store_row (negb (failed =? 0)) s c in
      let c := print_charsets stored s c in
      let c := print_transport s c in
      let '(status_str, s) := mysql_stat s in
      c ← match status_str with
          | Some t => if bool_decide (mysql_error s = []) then print_uptime t c else Some c
          | None => Some c
          end;
      let c := print_safe_updates c in
      Some (0, s, tee_puts (str "--------------" ++ [c_nl]) c).

End status.

(** ** The length of a duration *)

Lemma number_length n radix k : 0 <= n < 10 ^ Z.of_nat k -> n < 2 ^ 63 -> (1 <= k)%nat -> (length (int10_to_str n radix) <= k)%nat.
Proof.
  intros Hn H63 Hk. assert (Hi : int64 n) by (unfold int64; lia). destruct (sign_and_value_spec n radix Hi) as [Heq Hrange].
  unfold int10_to_str. rewrite Heq. destruct (first_digit_wrapped (fun d => "0"%chr + d) 10 (printed_value n radix)) as (ds & Hds & ->); [lia..|].
  assert (Hs : printed_sign n radix = []) by (unfold printed_sign; rewrite (proj2 (Z.ltb_ge n 0)), andb_false_r by lia; done).
  assert (Hv : printed_value n radix = n) by (unfold printed_value, u64; destruct (radix <? 0); [lia|apply Z.mod_small; lia]).
  rewrite Hs. cbn [app]. rewrite length_map. destruct Hds as (Hne & Hds & Hp & H0).
  destruct (Z.eq_dec (deref ds) 0) as [Hz|Hz]; [rewrite (H0 Hz); done|].
  pose proof (positional_lower 10 ds ltac:(lia) Hds Hne Hz) as Hl.
  assert (Z.of_nat (length ds - 1) < Z.of_nat k); [|lia]. apply (Z.pow_lt_mono_r_iff 10); lia.
Qed.

(** A part of a duration: nothing for zero. *)
Definition unit_text (n : Z) (one many : string) : list Z :=
  if n =? 0 then [] else int10_to_str n 10 ++ (if 1 <? n then str many else str one).

Lemma time_unit_spec n one many sec : 0 < n -> 0 <= sec -> time_unit n one many sec = (unit_text (sec / n) one many, sec mod n).
Proof.
  intros Hn Hs. unfold time_unit, unit_text. destruct (Z.leb_spec n sec) as [Hle|Hlt].
  - assert (1 <= sec / n) by (apply Z.div_le_lower_bound; lia). rewrite (proj2 (Z.eqb_neq _ _)) by lia. f_equal. rewrite Z.mod_eq by lia. done.
  - rewrite Z.div_small, Z.mod_small by lia. done.
Qed.

Lemma unit_text_length n one many k l : 0 <= n < 10 ^ Z.of_nat k -> n < 2 ^ 63 -> (1 <= k)%nat ->
  (length (str one) <= l)%nat -> (length (str many) <= l)%nat -> (length (unit_text n one many) <= k + l)%nat.
Proof.
  intros Hn H63 Hk H1 H2. unfold unit_text. destruct (n =? 0); [cbn; lia|]. rewrite length_app. pose proof (number_length n 10 k Hn H63 Hk).
  destruct (1 <? n); lia.
Qed.

(** Up to 10 ^ 11 days a duration is written as days, hours, minutes and seconds
    that add up to it, and the text fits the array of [com_status]. *)
Lemma nice_time_spec sec : 0 <= sec < 86400 * 10 ^ 11 ->
  exists d h m s, sec = ((d * 24 + h) * 60 + m) * 60 + s /\ 0 <= d /\ 0 <= h < 24 /\ 0 <= m < 60 /\ 0 <= s < 60
    /\ nice_time sec = unit_text d " day " " days " ++ unit_text h " hour " " hours " ++ unit_text m " min " " min " ++ dec s ++ str " sec"
    /\ (length (nice_time sec) < STATUS_BUFF_SIZE)%nat.
Proof.
  intros Hs. set (d := sec / 86400). set (r := sec mod 86400). set (h := r / 3600). set (r2 := r mod 3600). set (m := r2 / 60). set (s := r2 mod 60).
  assert (Hr : 0 <= r < 86400) by (apply Z.mod_pos_bound; lia). assert (Hr2 : 0 <= r2 < 3600) by (apply Z.mod_pos_bound; lia).
  assert (Hsec : 0 <= s < 60) by (apply Z.mod_pos_bound; lia).
  assert (E1 : sec = 86400 * d + r) by (apply Z.div_mod; lia). assert (E2 : r = 3600 * h + r2) by (apply Z.div_mod; lia).
  assert (E3 : r2 = 60 * m + s) by (apply Z.div_mod; lia).
  assert (Ht : nice_time sec = unit_text d " day " " days " ++ unit_text h " hour " " hours " ++ unit_text m " min " " min " ++ dec s ++ str " sec").
  { unfold nice_time. rewrite time_unit_spec by lia. fold d r. rewrite time_unit_spec by lia. fold h r2. rewrite time_unit_spec by lia. done. }
  clearbody d h m s r r2.
  assert (Hd : 0 <= d < 10 ^ Z.of_nat 11) by (change (10 ^ Z.of_nat 11) with (10 ^ 11); lia).
  assert (Hh : 0 <= h < 24) by lia. assert (Hm : 0 <= m < 60) by lia.
  exists d, h, m, s. split_and!; [lia..|exact Ht|]. rewrite Ht, !length_app.
  pose proof (unit_text_length d " day " " days " 11 6 Hd ltac:(lia) ltac:(lia) ltac:(cbn; lia) ltac:(cbn; lia)).
  pose proof (unit_text_length h " hour " " hours " 2 7 ltac:(lia) ltac:(lia) ltac:(lia) ltac:(cbn; lia) ltac:(cbn; lia)).
  pose proof (unit_text_length m " min " " min " 2 5 ltac:(lia) ltac:(lia) ltac:(lia) ltac:(cbn; lia) ltac:(cbn; lia)).
  pose proof (number_length s (-10) 2 ltac:(lia) ltac:(lia) ltac:(lia)) as Hs2. fold (dec s) in Hs2.
  change (length (str " sec")) with 4%nat. unfold STATUS_BUFF_SIZE. lia.
Qed.

(** A server that has been running for longer than that writes behind the array. *)
Lemma uptime_overflow c : print_uptime (str "Uptime: 8640000000086399  Threads: 1") c = None.
Proof. vm_compute. reflexivity. Qed.
