(* ===== verification/SourceCommand.v ===== *)
(** * Scripts from within a session (client/mysql.cc: com_source,
    get_login_sql_path, start_login_sql)

    [com_source] opens a file and runs the main loop on it, with the status of
    the session set aside.  The class [Scripts] adds to [Client] the variables
    that it sets aside; the file system is a parameter.  The theorem follows a
    command from its text to the statements of the file: the name is the one of
    the command without the blanks around it, exactly the statements of the file
    are sent, and the session goes on as before. *)

From stdpp Require Import base list numbers strings gmap.
From S2P Require Import Prelude CString Charset CommandTable CommandArgs Commands AddLine OracleSet AddLineSafe AddLineTokens ReadExec FileNames Execute Session Options.
From S2P Require Readline.
Open Scope Z_scope.

(** [STATUS] without the reader of lines, which the main loop passes on. *)
Record STATUS := mkStatus {
  st_exit_status : Z;
  st_query_start_line : nat;
  st_file_name : option (list Z);
  st_batch : bool;
  st_add_to_history : bool
}.

Class Scripts (world : Type) `{Client world} := {
  status : world -> STATUS;
  set_status : STATUS -> world -> world;
  ignores_errors : world -> bool;                        (* ignore_errors *)
  set_ignores_errors : bool -> world -> world;
  batch_abort_on_error : world -> bool;
  set_in_com_source : bool -> world -> world;
  set_aborted : bool -> world -> world;
  set_feedback : bool -> world -> world                  (* is_feedback_oracle *)
}.

(** The variables can be set one by one. *)
Class ScriptsLaws (world : Type) `{Scripts world} := {
  status_status x w : status (set_status x w) = x;
  status_in_source b w : status (set_in_com_source b w) = status w;
  status_aborted b w : status (set_aborted b w) = status w;
  status_feedback b w : status (set_feedback b w) = status w;
  ignores_ignores b w : ignores_errors (set_ignores_errors b w) = b;
  ignores_status x w : ignores_errors (set_status x w) = ignores_errors w;
  ignores_in_source b w : ignores_errors (set_in_com_source b w) = ignores_errors w;
  ignores_aborted b w : ignores_errors (set_aborted b w) = ignores_errors w;
  ignores_feedback b w : ignores_errors (set_feedback b w) = ignores_errors w
}.

(** The name in the command, as [source_name] holds it. *)
Definition source_name (cs : CHARSET_INFO) (line : list Z) : option (list Z) :=
  param ← from_space (skip_while (my_isspace cs) line);
  Some (trimmed cs (strmake (skip_while (my_isspace cs) param) (FileNames.FN_REFLEN - 1))).

Section source.
Context {world : Type} `{Scripts world}.

(** The functions of the system: [my_fopen] gives the file and its type, or
    the number of the error. *)
Context {file : Type} (my_read : file -> Z -> Readline.read_result * file).
Context (my_fopen : list Z -> world -> file * option Readline.file_mode + Z) (is_readable : list Z -> bool).
Context (home_dir : option (list Z)) (getcwd : nat -> option (list Z)) (getpwnam : list Z -> option (list Z)).

(** The state in front of the first line of the file. *)
Definition source_start (name : list Z) (w : world) : world :=
  let w := set_status (mkStatus 0 0 (Some name) (st_batch (status w)) false) w in
  set_in_com_source true (set_ignores_errors (negb (batch_abort_on_error w)) w).

(** The state behind its last line, with the variables of the state [old]. *)
Definition source_end (old w : world) : world :=
  set_aborted false (set_in_com_source false (set_status (status old) (set_ignores_errors (ignores_errors old) w))).

Definition open_message (name : list Z) (errno : Z) : list Z :=
  strmake (str "Failed to open file '" ++ name ++ str "', error: " ++ dec errno) (FileNames.FN_REFLEN + 60 - 1).

(** The code, the state and the statement buffer; [None] where a name does not
    fit an array or the fuel runs out. *)
Definition com_source (fuel : nat) (cs : CHARSET_INFO) (line buffer : list Z) (pl : bool) (w : world) : option (Z * world * list Z * bool) :=
  match source_name cs line with
  | None => let '(r, w) := AddLine.put_error w (str "Usage: \. <filename> | source <filename>") in Some (r, w, buffer, pl)
  | Some name =>
      name ← unpack_filename home_dir getcwd getpwnam name;
      match my_fopen name w with
      | inr errno => let '(r, w) := AddLine.put_error w (open_message name errno) in Some (r, w, buffer, pl)
      | inl (f, mode) =>
          match Readline.batch_readline_init mode MAX_BATCH_BUFFER_SIZE with
          | None => let '(r, w) := AddLine.put_error w (str "Can't initialize batch_readline") in Some (r, w, buffer, pl)
          | Some b =>
              '(error, _, i) ← @read_and_execute _ _ _ _ (batch_source my_read fuel) fuel false (b, f) [] pl (source_start name w);
              let w' := source_end w (i_world i) in
              Some (if negb (error =? 0) && ignores_errors w' then -1 else error, w', i_buffer i, i_pl i)
          end
      end
  end.

(** ** The script of a login *)

Definition MAX_BUFFER_SIZE : nat := 1024.

Definition get_login_sql_path (getenv : list Z -> option (list Z)) : option (list Z) :=
  match getenv (str "OBCLIENT_LOGIN_FILE") with
  | Some path => Some (strmake path (MAX_BUFFER_SIZE - 1))
  | None =>
      match getenv (str "OBCLIENT_PATH") with
      | Some path => Some (strmake (path ++ str "/" ++ str "obclient_login.sql") (MAX_BUFFER_SIZE - 1))
      | None => None
      end
  end.

Definition start_login_sql (fuel : nat) (cs : CHARSET_INFO) (buffer : list Z) (pl : bool) (path : option (list Z)) (w : world)
    : option (world * list Z * bool) :=
  match path with
  | None => Some (w, buffer, pl)
  | Some path =>
      if is_readable path then
        '(_, w, buffer, pl) ← com_source fuel cs (strmake (str "source " ++ path) (MAX_BUFFER_SIZE - 1)) buffer pl (set_feedback false w);
        Some (set_feedback true w, buffer, pl)
      else Some (w, buffer, pl)
  end.

End source.

(** ** The name of the file *)

Definition blank (cs : CHARSET_INFO) (c : Z) : Prop := my_isspace cs c || my_iscntrl cs c = true.

Lemma trimmed_name cs a c t : Forall (blank cs) t -> ~ blank cs c -> trimmed cs ((a ++ [c]) ++ t) = a ++ [c].
Proof.
  intros Ht Hc. unfold trimmed. rewrite !rev_app_distr. cbn [rev app].
  assert (Hr : trim_end cs (rev t ++ c :: rev a) = c :: rev a).
  { apply Forall_rev in Ht. induction Ht as [|x r Hx _ IH]; cbn [app trim_end]; unfold blank in *; [|by rewrite Hx].
    by destruct (my_isspace cs c || my_iscntrl cs c). }
  rewrite Hr. cbn [rev]. by rewrite rev_involutive.
Qed.

Lemma from_space_app w r : Forall (fun c => c <> " "%chr) w -> from_space (w ++ " "%chr :: r) = Some (" "%chr :: r).
Proof. induction 1 as [|c w Hc _ IH]; cbn [app from_space]; [done|]. by rewrite (proj2 (Z.eqb_neq _ _) Hc). Qed.

(** A command with a name: blanks, the word of the command, a space, more
    blanks, the name, and blanks and control characters. *)
Record names_file (cs : CHARSET_INFO) (line f : list Z) : Prop := {
  nf_text : exists b w sp t, line = b ++ w ++ (" "%chr :: sp) ++ f ++ t
    /\ spaces cs b /\ w <> [] /\ Forall (fun c => my_isspace cs c = false /\ c <> " "%chr) w
    /\ spaces cs sp /\ Forall (blank cs) t /\ (length (f ++ t) <= FileNames.FN_REFLEN - 1)%nat;
  nf_line : c_string line;
  nf_first : my_isspace cs (deref f) = false;
  nf_space : my_isspace cs " "%chr = true;
  nf_last : exists a c, f = a ++ [c] /\ ~ blank cs c
}.

Lemma spaces_nz cs s r : c_string (s ++ r) -> spaces cs s -> Forall (fun c => c <> 0 /\ my_isspace cs c = true) s.
Proof.
  intros [Hc _]%Forall_app Hs. apply Forall_and. split; [|done]. eapply Forall_impl; [exact Hc|]. cbn. intros c Hx ->. done.
Qed.

Lemma source_name_of cs line f : names_file cs line f -> source_name cs line = Some f.
Proof.
  intros [(b & w & sp & t & -> & Hb & Hne & Hw & Hsp & Ht & Hl) Hc Hf Hs (a & c & -> & Ha)]. unfold source_name.
  rewrite skip_while_app by (exact (spaces_nz _ _ _ Hc Hb) || (destruct w; [done|]; right; by apply Forall_cons in Hw as [[? _] _])).
  apply Forall_app in Hc as [_ Hc%Forall_app]. destruct Hc as [_ Hc].
  rewrite <-app_comm_cons, from_space_app by (eapply Forall_impl; [exact Hw|]; by intros ? []). cbn [mbind option_bind].
  rewrite app_comm_cons.
  rewrite skip_while_app.
  - apply Forall_app in Hc as [_ Hc]. rewrite strmake_take, take_ge by done. by rewrite trimmed_name.
  - apply (spaces_nz cs _ ((a ++ [c]) ++ t)); [done|]. by constructor.
  - right. by destruct a.
Qed.

Lemma unpack_filename_clean home_dir getcwd getpwnam comps name :
  Forall clean_component comps -> c_string (dir_text comps ++ name) -> FN_LIBCHAR ∉ name -> (length (dir_text comps ++ name) < FileNames.FN_REFLEN - 1)%nat ->
  unpack_filename home_dir getcwd getpwnam (dir_text comps ++ name) = Some (dir_text comps ++ name).
Proof.
  intros Hc Hs Hn Hl. pose proof Hs as [Hd _]%Forall_app. unfold unpack_filename. rewrite length_app in Hl.
  rewrite dirname_part_app, unpack_clean by (done || lia). cbn [mbind option_bind]. rewrite drop_app_length.
  rewrite (proj2 (Nat.ltb_lt _ _)) by lia. unfold system_filename. rewrite strmake_take, take_ge by (done || rewrite length_app; lia). done.
Qed.

(** ** A script that is run by a command *)

Section runs.
Context {world : Type} {good : world -> Prop} `{pl : ProgramLaws world good} `{cl : !Client world} `{sc : !Scripts world}.
Context {file : Type} (my_read : file -> Z -> Readline.read_result * file) (remaining : file -> list Z).
Context (my_fopen : list Z -> world -> file * option Readline.file_mode + Z).
Context (home_dir : option (list Z)) (getcwd : nat -> option (list Z)) (getpwnam : list Z -> option (list Z)).
Context (m : mode) (plain : world -> Prop).

(** The command names a file in a clean directory, and the file holds this
    script. *)
Record sources (fuel : nat) (cs : CHARSET_INFO) (line : list Z) (comps : list (list Z)) (name : list Z) (script : list (list token))
    (w : world) : Prop := {
  so_mode : batch_mode m plain;
  so_good : forall w, plain w -> good w;
  so_names : names_file cs line (dir_text comps ++ name);
  so_comps : Forall clean_component comps;
  so_name : c_string (dir_text comps ++ name) /\ (FN_LIBCHAR ∉ name);
  so_length : (length (dir_text comps ++ name) < FileNames.FN_REFLEN - 1)%nat;
  so_read : Readline.read_spec my_read remaining;
  so_file : exists f, my_fopen (dir_text comps ++ name) w = inl (f, Some Readline.S_OTHER)
    /\ 2 * (Z.of_nat (Readline.longest_line (remaining f)) + Readline.IO_SIZE) <= MAX_BATCH_BUFFER_SIZE
    /\ (length (remaining f) + 1 < fuel)%nat
    /\ script_ok m plain 0 [] (set_real_binary_mode false (set_exit_status 1 (source_start (dir_text comps ++ name) w)))
         (Readline.file_lines false (remaining f)) script;
  so_plain : plain (source_start (dir_text comps ++ name) w)
}.

(** What the script does, from the state in which it is started. *)
Definition script_result (comps : list (list Z)) (name : list Z) (script : list (list token)) (w : world) : Z * world :=
  script_end (script_runs m 0 [] (set_real_binary_mode false (set_exit_status 1 (source_start (dir_text comps ++ name) w))) script).

Lemma com_source_executes fuel cs line comps name script buffer w (r := script_result comps name script w) :
  sources fuel cs line comps name script w ->
  exists i, let w1 := source_end w (set_real_binary_mode false (snd r)) in
    com_source my_read my_fopen home_dir getcwd getpwnam fuel cs line buffer false w
    = Some (if negb (fst r =? 0) && ignores_errors w1 then -1 else fst r, w1, i_buffer i, i_pl i) /\ i_world i = set_real_binary_mode false (snd r).
Proof using pl.
  intros [Hmode Hgood Hnames Hcomps [Hs Hn] Hl Hread (f & Hopen & Hlong & Hfuel & Hok) Hplain].
  destruct (batch_script_runs my_read remaining m plain script f MAX_BATCH_BUFFER_SIZE fuel (source_start (dir_text comps ++ name) w)
    Hmode Hgood Hplain Hread ltac:(by apply Z.leb_le) Hlong Hfuel Hok) as (b & src & i & Hb & Hr & Hi).
  exists i. split; [|done]. unfold com_source. rewrite (source_name_of cs line _ Hnames), unpack_filename_clean by done. cbn [mbind option_bind].
  rewrite Hopen, Hb, Hr. cbn [mbind option_bind]. by rewrite Hi.
Qed.

End runs.


(** A program with a status. *)
Record shell := mkShell { sh_rec : recorder; sh_status : STATUS; sh_ignore : bool; sh_feedback : bool }.

Definition shell_with_rec (w : shell) (r : recorder) : shell := mkShell r (sh_status w) (sh_ignore w) (sh_feedback w).
Definition shell_with_status (w : shell) (s : STATUS) : shell := mkShell (sh_rec w) s (sh_ignore w) (sh_feedback w).

Definition with_exit (e : Z) (s : STATUS) : STATUS := mkStatus e (st_query_start_line s) (st_file_name s) (st_batch s) (st_add_to_history s).
Definition with_line (n : nat) (s : STATUS) : STATUS := mkStatus (st_exit_status s) n (st_file_name s) (st_batch s) (st_add_to_history s).

#[global] Instance shell_program : Program shell := {|
  sess := fun w => r_session (sh_rec w);
  run := fun f w b line => let '(r, rec, b) := recorder_run f (sh_rec w) b line in (r, shell_with_rec w rec, b);
  run_last := fun f w line => let '(r, rec) := run_last f (sh_rec w) line in (r, shell_with_rec w rec);
  AddLine.put_error := fun w _ => (-1, w);
  AddLine.put_message := fun w _ => w;
  pl_escape_regexec := fun _ => false
|}.

#[global] Instance shell_laws : ProgramLaws shell (fun w => recorder_good (sh_rec w)).
Proof.
  split; [by intros w [? ?]|by intros w [? ?]| | |done|done].
  - intros f w b l Hw. pose proof (recorder_run_good f (sh_rec w) b l Hw) as Hr. cbn.
    by destruct (recorder_run _ _ _ _) as [[r rec] b'].
  - intros f w l Hw. pose proof (good_run_last f (sh_rec w) l Hw) as Hr.
    change (run_last f w l) with (let '(r, rec) := run_last f (sh_rec w) l in (r, shell_with_rec w rec)).
    by destruct (run_last f (sh_rec w) l) as [r rec].
Qed.

#[global] Instance shell_client : Client shell := {|
  aborted := fun _ => false;
  named_cmds := fun _ => false;
  opt_binary_mode := fun _ => false;
  is_sqlblanklines_oracle := fun _ => true;
  exit_status := fun w => st_exit_status (sh_status w);
  set_exit_status := fun e w => shell_with_status w (with_exit e (sh_status w));
  set_query_start_line := fun n w => shell_with_status w (with_line n (sh_status w));
  set_real_binary_mode := fun b w =>
    shell_with_rec w (mkRecorder (with_vars (r_session (sh_rec w)) (with_binary_mode (vars (r_session (sh_rec w))) b)) (r_sent (sh_rec w)));
  run_oracle := fun w b _ => (CMD_STATE_UNKNOW, w, b);
  echo_line := fun _ w => w;
  remember_line := fun _ w => w
|}.

#[global] Instance shell_scripts : Scripts shell := {
  status := sh_status;
  set_status s w := shell_with_status w s;
  ignores_errors := sh_ignore;
  set_ignores_errors b w := mkShell (sh_rec w) (sh_status w) b (sh_feedback w);
  batch_abort_on_error _ := true;
  set_in_com_source _ w := w;
  set_aborted _ w := w;
  set_feedback b w := mkShell (sh_rec w) (sh_status w) (sh_ignore w) b
}.

#[global] Instance shell_scripts_laws : ScriptsLaws shell.
Proof. by split. Qed.

Definition shell_plain (w : shell) : Prop := sample_plain true (sh_rec w).

Lemma shell_sample_mode : batch_mode (sample_mode true) shell_plain.
Proof.
  split; try done.
  - split.
    + intros w Hw. by apply (plain_session _ _ (sample_in_mode true)).
    + intros w b Hw. pose proof (plain_go _ _ (sample_in_mode true) (sh_rec w) b Hw) as Hg. cbn in Hg |- *.
      by case_bool_decide.
  - intros w Hw. cbn. by rewrite Hw.
  - intros w b Hw. cbn. by case_bool_decide.
  - intros w Hw. cbn. unfold shell_plain, sample_plain in *. cbn. rewrite Hw. done.
Qed.

(** A file of two statements, the second one without a delimiter. *)
Definition two_lines : list (list token) := [map Plain (str "a x") ++ [Delim []]; map Plain (str "b ")].

Definition two_lines_file : list Z := str "a x;" ++ [c_nl] ++ str "b ".

Definition file_status (name : list Z) (e : Z) (line : nat) : STATUS := mkStatus e line (Some name) false false.

Definition sql_path : list Z := dir_text [str "srv"; str "sql"] ++ str "x.sql".

Definition shell_world (sent : list (list Z)) (last : list Z) (e : Z) (line : nat) : shell :=
  mkShell (mkRecorder (AddLine.mkSession new_client true false false false false last) sent) (file_status sql_path e line) false true.

(** The session in front of the command. *)
Definition new_shell : shell := mkShell (fresh_recorder true) (mkStatus 1 7 None false true) true true.

Lemma two_lines_ok : script_ok (sample_mode true) shell_plain 0 [] (shell_world [] [] 1 0) [str "a x;"; str "b "] two_lines.
Proof.
  apply (script_ok_cons _ _ _ _ _ _ _ _ _ (mkStmt [] false (shell_world [str "a x"] (str "a x") 1 1)));
    [by repeat constructor|done| | |by vm_compute|by vm_compute| |].
  4: apply (script_ok_cons _ _ _ _ _ _ _ _ _ (mkStmt (str "b ") false (shell_world [str "a x"] (str "a x") 1 2)));
    [by repeat constructor|done| | |by vm_compute|by vm_compute| |done].
  all: try (repeat split; try (intros [? ?]; done); try done; by repeat constructor).
  all: intros _; split; [by apply no_delimiter_word_check|by vm_compute].
Qed.

Definition sql_open (name : list Z) (w : shell) : list Z * option Readline.file_mode + Z :=
  if bool_decide (name = sql_path) then inl (two_lines_file, Some Readline.S_OTHER) else inr 2.

Lemma source_line_names : names_file my_charset_latin1 (str "  source  /srv/sql/x.sql " ++ [c_cr]) sql_path.
Proof.
  split.
  - exists (str "  "), (str "source"), (str " "), (str " " ++ [c_cr]). split_and!; [done|by repeat constructor|done| |by repeat constructor|by repeat constructor|by apply Nat.leb_le].
    by repeat constructor.
  - by repeat constructor.
  - done.
  - done.
  - exists (dir_text [str "srv"; str "sql"] ++ str "x.sq"), "l"%chr. split; [done|]. unfold blank. by vm_compute.
Qed.

