(* ===== verification/Patterns.v ===== *)
(** * Regular expressions (client/mysql.cc: the patterns of init_pl_sql)

    The expressions are compiled and matched by PCRE, a library with the interface
    of POSIX (pcreposix.h), with REG_EXTENDED and REG_ICASE.  Here is the part of
    their syntax that the patterns use, the search that the documentation of the
    library describes (pcrematching: a depth-first search that tries alternatives
    from the left and repetitions from the longest, and that stops at the first
    match), and the interface [Regexec] that promises this match to the client.
    The lemmas find the first match of a text that is given in pieces. *)

From S2P Require Import Prelude.
From S2P Require Import CString.

Definition upcase (c : Z) : Z := if ("a"%chr <=? c) && (c <=? "z"%chr) then c - 32 else c.

(** Expressions; a literal is written with capital letters, and the case of the
    text does not matter. *)
Inductive re :=
| Start
| End
| Lit (w : list Z)
| Class (f : Z -> bool)
| Star (f : Z -> bool)
| Seq (a b : re)
| Alt (a b : re)
| Opt (a : re)
| Group (a : re).

Declare Scope re_scope.
Delimit Scope re_scope with re.
Bind Scope re_scope with re.
Infix "·" := Seq (at level 41, right associativity) : re_scope.
Infix "+" := Alt : re_scope.

Definition Plus (f : Z -> bool) : re := Seq (Class f) (Star f).

(** The brackets are numbered by their opening ones. *)
Fixpoint brackets (r : re) : nat :=
  match r with
  | Seq a b | Alt a b => brackets a + brackets b
  | Opt a => brackets a
  | Group a => S (brackets a)
  | _ => 0
  end.

(** A match: the places of the groups that took part, where it ends, and the text
    behind it. *)
Definition groups : Type := list (nat * (nat * nat)).
Definition way : Type := groups * nat * list Z.

(** The longest repetition first. *)
Fixpoint star (f : Z -> bool) (p : nat) (s : list Z) : list way :=
  match s with
  | c :: s' => if f c then star f (S p) s' ++ [([], p, s)] else [([], p, s)]
  | [] => [([], p, [])]
  end.

(** All matches at the place [p], in the order in which they are tried; [s] is the
    text from there, and [n] the number of the first bracket. *)
Fixpoint ways (r : re) (n p : nat) (s : list Z) : list way :=
  match r with
  | Start => if (p =? 0)%nat then [([], p, s)] else []
  | End => if bool_decide (s = []) || bool_decide (s = [c_nl]) then [([], p, s)] else []
  | Lit w => if bool_decide (map upcase (take (length w) s) = w) then [([], (p + length w)%nat, drop (length w) s)] else []
  | Class f => match s with c :: s' => if f c then [([], S p, s')] else [] | [] => [] end
  | Star f => star f p s
  | Seq a b => flat_map (fun '(g, p1, s1) => map (fun '(g', p2, s2) => (g ++ g', p2, s2)) (ways b (n + brackets a) p1 s1)) (ways a n p s)
  | Alt a b => ways a n p s ++ ways b (n + brackets a) p s
  | Opt a => ways a n p s ++ [([], p, s)]
  | Group a => map (fun '(g, p1, s1) => ((n, (p, p1)) :: g, p1, s1)) (ways a (S n) p s)
  end.

(** The text is searched from its beginning. *)
Definition search (r : re) (s : list Z) : list way := flat_map (fun i => ways r 1 i (drop i s)) (seq 0 (S (length s))).

Definition group (g : groups) (n : nat) : option (nat * nat) := snd <$> find (fun x => fst x =? n)%nat g.

(** The groups of a match by their numbers: the first place and the one behind
    the last, nothing for a group that took no part. *)
Definition submatches : Type := nat -> option (nat * nat).

(** The size of the array that the client passes. *)
Definition NS : nat := 13.

Class Regexec := {
  regexec : re -> list Z -> option submatches;
  regexec_none r s : head (search r s) = None -> regexec r s = None;
  regexec_some r s g p rest : head (search r s) = Some (g, p, rest) ->
    exists subs, regexec r s = Some subs /\ forall n, (0 < n < NS)%nat -> subs n = group g n
}.

(** The search itself keeps the promise. *)
#[export, refine] Instance depth_first : Regexec := {
  regexec r s := match head (search r s) with Some (g, _, _) => Some (group g) | None => None end
}.
Proof.
  - by intros r s ->.
  - intros r s g p rest ->. by exists (group g).
Defined.

(** ** Sequences *)

Definition begins (f : Z -> bool) (s : list Z) : bool := match s with c :: _ => f c | [] => false end.

(** An expression that no character of [f] can begin. *)
Definition stops (f : Z -> bool) (b : re) : Prop := forall n p s, begins f s = true -> ways b n p s = [].

Lemma ways_opt a n p s : ways (Opt a) n p s = ways a n p s ++ [([], p, s)].
Proof. done. Qed.

Lemma ways_alt a b n p s : ways (a + b) n p s = ways a n p s ++ ways b (n + brackets a) p s.
Proof. done. Qed.

Lemma ways_group a n p s : ways (Group a) n p s = map (fun '(g, p1, s1) => ((n, (p, p1)) :: g, p1, s1)) (ways a (S n) p s).
Proof. done. Qed.

Lemma ways_seq_nil a b n p s : ways a n p s = [] -> ways (a · b) n p s = [].
Proof. intros H. cbn [ways]. by rewrite H. Qed.

Lemma ways_seq_one a b n p s p1 s1 : ways a n p s = [([], p1, s1)] -> ways (a · b) n p s = ways b (n + brackets a) p1 s1.
Proof.
  intros H. cbn [ways]. rewrite H. cbn [flat_map]. rewrite app_nil_r. rewrite (map_ext _ id); [apply map_id|]. by intros [[g p2] s2].
Qed.


Lemma flat_map_nil {A B} (F : A -> list B) l : Forall (fun x => F x = []) l -> flat_map F l = [].
Proof. induction 1 as [|x l Hx _ IH]; [done|]. cbn [flat_map]. by rewrite Hx, IH. Qed.

(** The first way of a sequence whose earlier ways lead nowhere. *)
Lemma ways_seq_first a b n p s l1 g1 p1 s1 l2 g2 p2 s2 l :
  ways a n p s = l1 ++ (g1, p1, s1) :: l2 ->
  Forall (fun x : way => ways b (n + brackets a) (snd (fst x)) (snd x) = []) l1 ->
  ways b (n + brackets a) p1 s1 = (g2, p2, s2) :: l ->
  exists l', ways (a · b) n p s = (g1 ++ g2, p2, s2) :: l'.
Proof.
  intros Ha Hl1 Hb. cbn [ways]. rewrite Ha, flat_map_app. cbn [flat_map]. rewrite Hb. cbn [map].
  rewrite (flat_map_nil _ l1); [by eexists|]. eapply Forall_impl; [exact Hl1|]. intros [[g p'] s'] Hx. cbn [fst snd] in Hx. by rewrite Hx.
Qed.

(** ** Repetitions *)

Lemma star_begins f p s : begins f s = false -> star f p s = [([], p, s)].
Proof. destruct s as [|c s]; [done|]. cbn [begins star]. by intros ->. Qed.

Lemma star_first f r s p : forallb f r = true -> begins f s = false -> exists l, star f p (r ++ s) = ([], (p + length r)%nat, s) :: l.
Proof.
  revert p. induction r as [|c r IH]; intros p Hr Hs.
  - rewrite Nat.add_0_r. cbn [app]. rewrite star_begins by done. by eexists.
  - cbn [forallb] in Hr. apply andb_prop in Hr as [Hc Hr]. cbn [app star]. rewrite Hc. destruct (IH (S p) Hr Hs) as [l Hl]. rewrite Hl.
    cbn [length]. rewrite <-Nat.add_succ_comm. by eexists.
Qed.

Lemma star_some f p s : exists p' s' l, star f p s = ([], p', s') :: l.
Proof.
  revert p. induction s as [|c s IH]; intros p; cbn [star]; [by eexists _, _, _|]. destruct (f c); [|by eexists _, _, _].
  destruct (IH (S p)) as (p' & s' & l & ->). by eexists _, _, _.
Qed.

Lemma star_only {B} (F : way -> list B) f r s p : (forall p s, begins f s = true -> F ([], p, s) = []) -> forallb f r = true -> begins f s = false ->
  flat_map F (star f p (r ++ s)) = F ([], (p + length r)%nat, s).
Proof.
  intros HF. revert p. induction r as [|c r IH]; intros p Hr Hs.
  - rewrite Nat.add_0_r. cbn [app]. rewrite star_begins by done. apply app_nil_r.
  - cbn [forallb] in Hr. apply andb_prop in Hr as [Hc Hr]. cbn [app star]. rewrite Hc, flat_map_app, IH by done. cbn [flat_map].
    rewrite (HF p (c :: r ++ s)) by done. cbn [length]. by rewrite !app_nil_r, <-Nat.add_succ_comm.
Qed.

Lemma plus_star f n p c s : f c = true -> ways (Plus f) n p (c :: s) = star f (S p) s.
Proof. intros Hc. unfold Plus. rewrite (ways_seq_one _ _ n p (c :: s) (S p) s); [done|]. cbn [ways]. by rewrite Hc. Qed.

Lemma plus_nil f n p s : begins f s = false -> ways (Plus f) n p s = [].
Proof. intros Hs. apply ways_seq_nil. destruct s as [|c s]; [done|]. cbn [begins ways] in *. by rewrite Hs. Qed.

(** A run of [f] in front of what does not begin with [f] is taken as a whole. *)
Lemma ways_star f b n p r s : stops f b -> forallb f r = true -> begins f s = false -> ways (Star f · b) n p (r ++ s) = ways b n (p + length r) s.
Proof.
  intros Hb Hr Hs. cbn [ways brackets]. rewrite Nat.add_0_r, star_only; [|intros p' s' H; by rewrite Hb|done|done].
  rewrite (map_ext _ id); [apply map_id|]. by intros [[g p2] s2].
Qed.

Lemma ways_plus f b n p r s : stops f b -> r <> [] -> forallb f r = true -> begins f s = false -> ways (Plus f · b) n p (r ++ s) = ways b n (p + length r) s.
Proof.
  intros Hb Hne Hr Hs. destruct r as [|c r]; [done|]. cbn [forallb] in Hr. apply andb_prop in Hr as [Hc Hr].
  change (ways (Plus f · b) n p ((c :: r) ++ s))
    with (flat_map (fun '(g, p1, s1) => map (fun '(g', p2, s2) => (g ++ g', p2, s2)) (ways b (n + brackets (Plus f)) p1 s1)) (ways (Plus f) n p (c :: r ++ s))).
  change (brackets (Plus f)) with 0%nat. rewrite Nat.add_0_r, plus_star, star_only; [|intros p' s' H; by rewrite Hb|done|done|done].
  cbn [length]. rewrite <-Nat.add_succ_comm. rewrite (map_ext _ id); [apply map_id|]. by intros [[g p2] s2].
Qed.

Lemma ways_plus_nil f b n p s : begins f s = false -> ways (Plus f · b) n p s = [].
Proof. intros Hs. by apply ways_seq_nil, plus_nil. Qed.

(** Not every repetition is deterministic: the longest one is tried first. *)
Lemma ways_star_first f b n p r s g p1 s1 l : forallb f r = true -> begins f s = false -> ways b n (p + length r) s = (g, p1, s1) :: l ->
  exists l', ways (Star f · b) n p (r ++ s) = (g, p1, s1) :: l'.
Proof.
  intros Hr Hs Hb. destruct (star_first f r s p Hr Hs) as [l0 Hl0].
  eapply (ways_seq_first (Star f) b n p (r ++ s) [] [] _ s l0 g p1 s1 l); [exact Hl0|constructor|]. cbn [brackets]. by rewrite Nat.add_0_r.
Qed.

Lemma plus_first f n p r s : r <> [] -> forallb f r = true -> begins f s = false -> exists l, ways (Plus f) n p (r ++ s) = ([], (p + length r)%nat, s) :: l.
Proof.
  intros Hne Hr Hs. destruct r as [|c r]; [done|]. cbn [forallb] in Hr. apply andb_prop in Hr as [Hc Hr]. cbn [app]. rewrite plus_star by done.
  cbn [length]. rewrite <-Nat.add_succ_comm. by apply star_first.
Qed.

Lemma ways_plus_first f b n p r s g p1 s1 l : r <> [] -> forallb f r = true -> begins f s = false -> ways b n (p + length r) s = (g, p1, s1) :: l ->
  exists l', ways (Plus f · b) n p (r ++ s) = (g, p1, s1) :: l'.
Proof.
  intros Hne Hr Hs Hb. destruct (plus_first f n p r s Hne Hr Hs) as [l0 Hl0].
  eapply (ways_seq_first (Plus f) b n p (r ++ s) [] [] _ s l0 g p1 s1 l); [exact Hl0|constructor|]. cbn [brackets Plus]. by rewrite !Nat.add_0_r.
Qed.

(** The same with the run in brackets. *)
Definition with_group (n a b : nat) (l : list way) : list way := map (fun '(g, p, s) => ((n, (a, b)) :: g, p, s)) l.

Lemma ways_group_star f b n p r s : stops f b -> forallb f r = true -> begins f s = false ->
  ways (Group (Star f) · b) n p (r ++ s) = with_group n p (p + length r) (ways b (S n) (p + length r) s).
Proof.
  intros Hb Hr Hs. cbn [ways brackets]. rewrite Nat.add_1_r, flat_map_concat_map, map_map, <-flat_map_concat_map.
  rewrite star_only; [done|intros p' s' H; by rewrite Hb|done|done].
Qed.

Lemma ways_group_plus f b n p r s : stops f b -> r <> [] -> forallb f r = true -> begins f s = false ->
  ways (Group (Plus f) · b) n p (r ++ s) = with_group n p (p + length r) (ways b (S n) (p + length r) s).
Proof.
  intros Hb Hne Hr Hs. destruct r as [|c r]; [done|]. cbn [forallb] in Hr. apply andb_prop in Hr as [Hc Hr].
  change (ways (Group (Plus f) · b) n p ((c :: r) ++ s))
    with (flat_map (fun '(g, p1, s1) => map (fun '(g', p2, s2) => (g ++ g', p2, s2)) (ways b (n + 1) p1 s1))
            (map (fun '(g, p1, s1) => ((n, (p, p1)) :: g, p1, s1)) (ways (Plus f) (S n) p (c :: r ++ s)))).
  rewrite plus_star, Nat.add_1_r, flat_map_concat_map, map_map, <-flat_map_concat_map by done.
  rewrite star_only; [|intros p' s' H; by rewrite Hb|done|done]. cbn [length]. by rewrite <-Nat.add_succ_comm.
Qed.

Lemma ways_group_plus_nil f b n p s : begins f s = false -> ways (Group (Plus f) · b) n p s = [].
Proof. intros Hs. apply ways_seq_nil. change (map (fun '(g, p1, s1) => ((n, (p, p1)) :: g, p1, s1)) (ways (Plus f) (S n) p s) = []). by rewrite plus_nil. Qed.

Lemma ways_group_plus_first f n p r s : r <> [] -> forallb f r = true -> begins f s = false ->
  exists l, ways (Group (Plus f)) n p (r ++ s) = ([(n, (p, (p + length r)%nat))], (p + length r)%nat, s) :: l.
Proof.
  intros Hne Hr Hs. destruct r as [|c r]; [done|]. cbn [forallb] in Hr. apply andb_prop in Hr as [Hc Hr].
  change (ways (Group (Plus f)) n p ((c :: r) ++ s)) with (map (fun '(g, p1, s1) => ((n, (p, p1)) :: g, p1, s1)) (ways (Plus f) (S n) p (c :: r ++ s))).
  rewrite plus_star by done. destruct (star_first f r s (S p) Hr Hs) as [l Hl]. rewrite Hl. cbn [map length].
  rewrite <-Nat.add_succ_comm. by eexists.
Qed.

(** ** Literals *)

(** One of the two words begins the other. *)
Definition agree (w k : list Z) : bool := bool_decide (take (length k) w = take (length w) k).

Lemma ways_lit w n p t s : map upcase t = w -> ways (Lit w) n p (t ++ s) = [([], (p + length t)%nat, s)].
Proof.
  intros <-. cbn [ways]. rewrite length_map, take_app_length, drop_app_length. by rewrite bool_decide_eq_true_2.
Qed.

Lemma ways_lit_seq w b n p t s : map upcase t = w -> ways (Lit w · b) n p (t ++ s) = ways b n (p + length t) s.
Proof. intros H. rewrite (ways_seq_one _ _ _ _ _ _ _ (ways_lit w n p t s H)). cbn [brackets]. by rewrite Nat.add_0_r. Qed.

Lemma ways_lit_miss w k n p t s : map upcase t = k -> agree w k = false -> ways (Lit w) n p (t ++ s) = [].
Proof.
  intros Hk Hd. cbn [ways]. rewrite bool_decide_eq_false_2; [done|]. intros Hw. apply (bool_decide_eq_false_1 _) in Hd. apply Hd.
  assert (Ht : take (length w) (map upcase (t ++ s)) = w) by (by rewrite <-firstn_map in Hw).
  rewrite map_app, Hk in Ht. rewrite <-Ht at 1. rewrite take_take, Nat.min_comm, <-take_take, take_app_length. done.
Qed.

Lemma ways_lit_seq_miss w k b n p t s : map upcase t = k -> agree w k = false -> ways (Lit w · b) n p (t ++ s) = [].
Proof. intros Hk Hd. by eapply ways_seq_nil, ways_lit_miss. Qed.

Lemma ways_lit_other w n p s : map upcase (take (length w) s) <> w -> ways (Lit w) n p s = [].
Proof. intros H. cbn [ways]. by rewrite bool_decide_eq_false_2. Qed.

Lemma stops_lit f c w : (forall d, f d = true -> upcase d <> c) -> stops f (Lit (c :: w)).
Proof. intros Hf n p [|d s] Hd; [done|]. apply ways_lit_other. cbn. intros [= H _]. by apply (Hf d). Qed.

Lemma stops_seq f a b : stops f a -> stops f (a · b).
Proof. intros Ha n p s Hs. by apply ways_seq_nil, Ha. Qed.

Lemma stops_opt_seq f a b : stops f a -> stops f b -> stops f (Opt a · b).
Proof. intros Ha Hb n p s Hs. rewrite (ways_seq_one _ _ n p s p s); [by apply Hb|]. cbn [ways]. by rewrite Ha. Qed.

Lemma stops_alt f a b : stops f a -> stops f b -> stops f (a + b).
Proof. intros Ha Hb n p s Hs. cbn [ways]. by rewrite Ha, Hb. Qed.

Lemma stops_group f a : stops f a -> stops f (Group a).
Proof. intros Ha n p s Hs. cbn [ways]. by rewrite Ha. Qed.

(** ** Searching *)

Lemma search_at_start r s x l : ways r 1 0 s = x :: l -> head (search r s) = Some x.
Proof. intros H. unfold search. cbn [seq flat_map]. rewrite drop_0, H. done. Qed.

(** An anchored expression is matched at the beginning only. *)
Lemma search_anchored r s : ways r 1 0 s = [] -> head (search (Start · r) s) = None.
Proof.
  intros H. unfold search. rewrite flat_map_nil; [done|]. apply Forall_forall. intros i _. destruct i as [|i].
  - rewrite drop_0. rewrite (ways_seq_one _ _ 1 0 s 0 s) by done. exact H.
  - by apply ways_seq_nil.
Qed.

Lemma ways_start r n s : ways (Start · r) n 0 s = ways r n 0 s.
Proof. rewrite (ways_seq_one _ _ n 0 s 0 s) by done. cbn [brackets]. by rewrite Nat.add_0_r. Qed.

(** ** Groups *)

Lemma group_app g1 g2 n : group (g1 ++ g2) n = match group g1 n with Some x => Some x | None => group g2 n end.
Proof. induction g1 as [|x g1 IH]; [done|]. unfold group in *. cbn [app find]. by destruct (fst x =? n)%nat. Qed.

Lemma group_outside g n : Forall (fun x => fst x <> n) g -> group g n = None.
Proof. induction 1 as [|x g Hx _ IH]; [done|]. unfold group in *. cbn [find]. by rewrite (proj2 (Nat.eqb_neq _ _) Hx). Qed.
