(* ===== verification/OracleErrors.v ===== *)
(** * Errors of stored programs (client/mysql.cc: init_pl_sql, mytoupper, fmt_str,
    handle_oracle_sql)

    In Oracle mode the client remembers the object of the last CREATE or ALTER
    statement, and turns SHOW ERRORS into a query for the errors of that object or
    of the one it names.  The statements are recognised by regular expressions,
    which a library matches as [Regexec] says. *)

From S2P Require Import Prelude.
From S2P Require Import CString.
From S2P Require Import Patterns.

(** ** The expressions *)

Definition space (c : Z) : bool := ((9 <=? c) && (c <=? 13)) || (c =? " "%chr).
Definition alnum_ (c : Z) : bool :=
  (("0"%chr <=? c) && (c <=? "9"%chr)) || (("A"%chr <=? c) && (c <=? "Z"%chr)) || (("a"%chr <=? c) && (c <=? "z"%chr)) || (c =? "_"%chr).
Definition word (c : Z) : bool := alnum_ c || (c =? "$"%chr).
Definition double_quote : Z := 34.
Definition not_quote (c : Z) : bool := negb (c =? double_quote).

Definition type_re : re :=
  (Lit (str "VIEW") + (Lit (str "PROCEDURE") + (Lit (str "FUNCTION") + (Lit (str "PACKAGE") · Opt (Group (Plus space · Lit (str "BODY"))) + (Lit (str "TRIGGER")
   + (Lit (str "TYPE") · Opt (Group (Plus space · Lit (str "BODY"))) + (Lit (str "LIBRARY") + (Lit (str "QUEUE")
   + (Lit (str "JAVA") · Plus space · Group (Lit (str "SOURCE") + Lit (str "CLASS")) + (Lit (str "DIMENSION") + (Lit (str "ASSEMBLY") + (Lit (str "HIERARCHY")
   + (Lit (str "ATTRIBUTE") · Plus space · Lit (str "DIMENSION") + Lit (str "ANALYTIC VIEW"))))))))))))))%re.

(** The schema, its dot, the object and the blanks behind it. *)
Definition schema_re : re :=
  Opt (Group (Group (Plus word) · Lit (str ".") + Lit [double_quote] · Group (Star not_quote) · Lit [double_quote] · Lit (str "."))).
Definition object_re : re := Opt (Group (Group (Plus word) + Lit [double_quote] · Group (Star not_quote) · Lit [double_quote])).
Definition names_re : re := (schema_re · Star space · object_re · Star space)%re.

Definition or_replace_re : re := Group (Lit (str "OR") · Plus space · Lit (str "REPLACE") · Plus space).

Definition pl_create_sql_re : re :=
  (Start · Group (Star space · Lit (str "CREATE") · Plus space · Opt or_replace_re
                  · Group type_re · Plus space · names_re))%re.

Definition alter_type_re : re := (Lit (str "VIEW") + (Lit (str "PROCEDURE") + (Lit (str "FUNCTION") + Lit (str "PACKAGE"))))%re.

Definition pl_alter_sql_re : re :=
  (Start · Group (Star space · Lit (str "ALTER") · Plus space · Group alter_type_re · Plus space · names_re))%re.

Definition show_suffix_re : re :=
  Group (Plus space · Group type_re · Plus space
         · Opt (Group (Opt (Group (Lit [double_quote])) · Group (Plus alnum_) · Opt (Lit [double_quote]) · Lit (str ".")))
         · Opt (Group (Lit [double_quote])) · Group (Plus alnum_) · Opt (Lit [double_quote])).

Definition pl_show_errors_sql_re : re :=
  (Start · Group (Star space · Lit (str "SHOW") · Plus space · Lit (str "ERR") · Opt (Group (Lit (str "OR") + Lit (str "ORS")))
                  · Opt show_suffix_re · Star space · End))%re.

(** The remembered object. *)
Record pl_last := mkPlLast {
  pl_last_type : option (list Z);
  pl_last_object : option (list Z);
  pl_last_schema : option (list Z)
}.

Definition mytoupper (s : list Z) : list Z := map (fun c => if ("a"%chr <=? c) && (c <=? "z"%chr) then c - 32 else c) s.

Definition quote : Z := "'"%chr.

(** [fmt_str] doubles the quotes; [j] is what has been written, and [n] what may
    still be read. *)
Fixpoint fmt_loop (p_in : list Z) (n j p_out_len : nat) : list Z :=
  match p_in, n with
  | c :: p_in', S n' =>
      if (c =? 0) || negb (j + 2 <? p_out_len)%nat then []
      else if c =? quote then c :: c :: fmt_loop p_in' n' (j + 2) p_out_len
      else c :: fmt_loop p_in' n' (j + 1) p_out_len
  | _, _ => []
  end.

Definition fmt_str (p_in : list Z) (p_in_len p_out_len : nat) : list Z := fmt_loop p_in p_in_len 0 p_out_len.

Definition FMT_BUF_SIZE : nat := 1024.

Definition group_text (buffer : list Z) (g : nat * nat) : list Z := take (snd g - fst g) (drop (fst g) buffer).

(** A name: in quotes it is kept with its quotes doubled, otherwise in upper case. *)
Definition name_of (buffer : list Z) (plain quoted : option (nat * nat)) : option (list Z) :=
  match quoted with
  | Some g => Some (fmt_str (drop (fst g) buffer) (snd g - fst g) FMT_BUF_SIZE)
  | None => mytoupper ∘ group_text buffer <$> plain
  end.

(** The numbers of the groups: type, schema, schema in quotes, object, object in
    quotes. *)
Record offsets := mkOffsets { type_offset : nat; schema_offset : nat; schema_quote_offset : nat; object_offset : nat; object_quote_offset : nat }.

Definition create_offsets : offsets := mkOffsets 3 8 9 11 12.
Definition alter_offsets : offsets := mkOffsets 2 4 5 7 8.

(** CREATE and ALTER; the expressions always match the group of the type. *)
Definition remember (o : offsets) (subs : submatches) (buffer : list Z) : option pl_last :=
  t ← subs (type_offset o);
  Some (mkPlLast (Some (mytoupper (group_text buffer t))) (name_of buffer (subs (object_offset o)) (subs (object_quote_offset o)))
          (name_of buffer (subs (schema_offset o)) (subs (schema_quote_offset o)))).

(** ** SHOW ERRORS *)

Definition show_suffix_offset : nat := 3.
Definition show_offsets : offsets := mkOffsets 4 10 9 12 11.

Definition GET_ERRORS_MAX_SQL_LENGTH : nat := 512.

(** [pl_get_errors_sql] with its arguments. *)
Definition get_errors_sql (object type schema : list Z) : list Z :=
  str "SELECT TO_CHAR(LINE)||'/'||TO_CHAR(POSITION) " ++ [34] ++ str "LINE/COL" ++ [34] ++ str ", TEXT " ++ [34] ++ str "ERROR" ++ [34]
  ++ str " FROM ALL_ERRORS A WHERE A.NAME = '" ++ object ++ str "'  AND A.TYPE = '" ++ type ++ str "' AND A.OWNER = '" ++ schema
  ++ str "' ORDER BY LINE, POSITION, ATTRIBUTE, MESSAGE_NUMBER".

(** A name of the command itself: the group of the quote tells about the case. *)
Definition shown_name (buffer : list Z) (quote_group : option (nat * nat)) (g : nat * nat) : list Z :=
  match quote_group with None => mytoupper (group_text buffer g) | Some _ => group_text buffer g end.

(** The object, its type and its schema; a current database that is not known is
    undefined. *)
Definition errors_of (subs : submatches) (buffer : list Z) (current_db : option (list Z)) (p : pl_last) : option (list Z * list Z * list Z) :=
  match subs show_suffix_offset with
  | Some _ =>
      t ← subs (type_offset show_offsets); o ← subs (object_offset show_offsets);
      schema ← match subs (schema_offset show_offsets) with
               | Some g => Some (shown_name buffer (subs (schema_quote_offset show_offsets)) g)
               | None => current_db
               end;
      Some (shown_name buffer (subs (object_quote_offset show_offsets)) o, mytoupper (group_text buffer t), schema)
  | None =>
      schema ← match pl_last_schema p with Some s => Some s | None => current_db end;
      Some (default [] (pl_last_object p), default [] (pl_last_type p), schema)
  end.

(** The statement and the remembered object after it. *)
Definition handle_oracle_sql `{Regexec} (current_db : option (list Z)) (p : pl_last) (buffer : list Z) : option (list Z * pl_last) :=
  match regexec pl_show_errors_sql_re (cstr buffer) with
  | Some subs =>
      '(object, type, schema) ← errors_of subs buffer current_db p;
      Some (strmake (get_errors_sql object type schema) (GET_ERRORS_MAX_SQL_LENGTH - 1), p)
  | None =>
      match regexec pl_create_sql_re (cstr buffer) with
      | Some subs => p ← remember create_offsets subs buffer; Some (buffer, p)
      | None =>
          match regexec pl_alter_sql_re (cstr buffer) with
          | Some subs => p ← remember alter_offsets subs buffer; Some (buffer, p)
          | None => Some (buffer, p)
          end
      end
  end.

(** ** Reading the query back *)

(** A string literal behind its opening quote: its value and the rest. *)
Fixpoint read_literal (s : list Z) : option (list Z * list Z) :=
  match s with
  | [] => None
  | c :: s' =>
      if c =? quote then
        match s' with
        | c' :: s'' => if c' =? quote then '(v, rest) ← read_literal s''; Some (quote :: v, rest) else Some ([], s')
        | [] => Some ([], [])
        end
      else '(v, rest) ← read_literal s'; Some (c :: v, rest)
  end.

(** The text behind a prefix. *)
Definition behind (prefix s : list Z) : option (list Z) :=
  if bool_decide (take (length prefix) s = prefix) then Some (drop (length prefix) s) else None.

Definition errors_prefix : list Z :=
  str "SELECT TO_CHAR(LINE)||'/'||TO_CHAR(POSITION) " ++ [34] ++ str "LINE/COL" ++ [34] ++ str ", TEXT " ++ [34] ++ str "ERROR" ++ [34]
  ++ str " FROM ALL_ERRORS A WHERE A.NAME = '".

(** The object, type and schema that a query asks for. *)
Definition read_errors_sql (q : list Z) : option (list Z * list Z * list Z) :=
  q ← behind errors_prefix q; '(object, q) ← read_literal q;
  q ← behind (str "  AND A.TYPE = '") q; '(type, q) ← read_literal q;
  q ← behind (str " AND A.OWNER = '") q; '(schema, q) ← read_literal q;
  _ ← behind (str " ORDER BY LINE, POSITION, ATTRIBUTE, MESSAGE_NUMBER") q; Some (object, type, schema).

Definition doubled (s : list Z) : list Z := flat_map (fun c => if c =? quote then [c; c] else [c]) s.

Lemma read_literal_doubled s rest : deref rest <> quote -> read_literal (doubled s ++ quote :: rest) = Some (s, rest).
Proof.
  intros Hr. induction s as [|c s IH].
  - cbn. destruct rest as [|c rest]; [done|]. by rewrite (proj2 (Z.eqb_neq c quote) Hr).
  - cbn [doubled flat_map]. destruct (Z.eqb_spec c quote) as [->|Hc]; cbn [app read_literal].
    + change (quote =? quote) with true. cbn [negb]. fold (doubled s). by rewrite IH.
    + rewrite (proj2 (Z.eqb_neq _ _) Hc). fold (doubled s). by rewrite IH.
Qed.

Lemma behind_app p s : behind p (p ++ s) = Some s.
Proof. unfold behind. rewrite take_app_length, drop_app_length. by rewrite bool_decide_eq_true_2. Qed.

Lemma read_errors_sql_ok object type schema :
  read_errors_sql (get_errors_sql (doubled object) (doubled type) (doubled schema)) = Some (object, type, schema).
Proof.
  unfold read_errors_sql.
  replace (get_errors_sql (doubled object) (doubled type) (doubled schema))
    with (errors_prefix ++ doubled object ++ quote :: str "  AND A.TYPE = '" ++ doubled type ++ quote :: str " AND A.OWNER = '"
          ++ doubled schema ++ quote :: str " ORDER BY LINE, POSITION, ATTRIBUTE, MESSAGE_NUMBER" ++ [])
    by (unfold get_errors_sql, errors_prefix; rewrite <-!app_assoc; reflexivity).
  rewrite behind_app. cbn [mbind option_bind]. rewrite read_literal_doubled by done. cbn [mbind option_bind].
  rewrite behind_app. cbn [mbind option_bind]. rewrite read_literal_doubled by done. cbn [mbind option_bind].
  rewrite behind_app. cbn [mbind option_bind]. rewrite read_literal_doubled by done. cbn [mbind option_bind].
  by rewrite behind_app.
Qed.

Lemma doubled_no_quote s : quote ∉ s -> doubled s = s.
Proof.
  induction s as [|c s IH]; intros Hs; [done|]. apply not_elem_of_cons in Hs as [Hc Hs]. cbn [doubled flat_map].
  rewrite (proj2 (Z.eqb_neq c quote)) by congruence. fold (doubled s). by rewrite IH.
Qed.

Lemma fmt_loop_doubled s : forall rest j len, c_string s -> (j + length (doubled s) + 1 < len)%nat -> fmt_loop (s ++ rest) (length s) j len = doubled s.
Proof.
  induction s as [|c s IH]; intros rest j len Hs Hl; [by destruct rest|]. apply Forall_cons in Hs as [Hc Hs]. cbn [app length fmt_loop doubled flat_map] in *.
  rewrite (is_char_nz c Hc). cbn [orb]. fold (doubled s) in *. rewrite length_app in Hl.
  destruct (c =? quote); cbn [length app] in *; (rewrite (proj2 (Nat.ltb_lt _ _)) by lia); cbn [negb]; rewrite IH by (done || lia); done.
Qed.

(** ** Statements *)

(** A name, plain or in quotes, and what it means. *)
Inductive name :=
| Bare (s : list Z)
| Quoted (s : list Z).

Definition name_text (x : name) : list Z := match x with Bare s => s | Quoted s => double_quote :: s ++ [double_quote] end.
Definition name_value (x : name) : list Z := match x with Bare s => mytoupper s | Quoted s => s end.
Definition name_ok (x : name) : Prop := match x with Bare s => s <> [] /\ forallb word s = true | Quoted s => forallb not_quote s = true end.

(** The text behind a name does not continue it. *)
Definition name_ends (x : name) (s : list Z) : Prop :=
  begins (Z.eqb "."%chr) s = false /\ match x with Bare _ => begins word s = false | Quoted _ => True end.

(** The brackets [n] around a name, which end at [e], and those in it. *)
Definition name_groups (n p e : nat) (x : name) : groups :=
  match x with
  | Bare s => [(n, (p, e)); (S n, (p, (p + length s)%nat))]
  | Quoted s => [(n, (p, e)); (S (S n), (S p, (S p + length s)%nat))]
  end.

Lemma word_upcase c d : word c = true -> upcase c = d -> d <> "."%chr /\ d <> double_quote /\ c <> double_quote.
Proof. unfold word, alnum_, upcase, double_quote. intros Hc <-. destruct (_ && (c <=? "z"%chr)) eqn:E; lia. Qed.

Lemma stops_word_dot : stops word (Lit (str ".")).
Proof. apply stops_lit. intros d Hd. by apply (word_upcase d _ Hd). Qed.

Lemma stops_not_quote : stops not_quote (Lit [double_quote]).
Proof. apply stops_lit. unfold not_quote, upcase, double_quote. intros d Hd. destruct (_ && (d <=? "z"%chr)) eqn:E; lia. Qed.

Lemma quote_seq b n p s : ways (Lit [double_quote] · b) n p (double_quote :: s) = ways b n (S p) s.
Proof. rewrite (ways_lit_seq _ b n p [double_quote] s) by done. by rewrite Nat.add_1_r. Qed.

Lemma quote_seq_nil b n p s : begins (Z.eqb double_quote) s = false -> ways (Lit [double_quote] · b) n p s = [].
Proof.
  intros Hs. apply ways_seq_nil, ways_lit_other. destruct s as [|c s]; [done|]. cbn [begins length take map] in *. unfold upcase, double_quote in *. intros [= H].
  destruct (_ && (c <=? "z"%chr)) eqn:E; lia.
Qed.

Lemma quote_lit n p s : ways (Lit [double_quote]) n p (double_quote :: s) = [([], S p, s)].
Proof. rewrite (ways_lit _ n p [double_quote] s) by done. by rewrite Nat.add_1_r. Qed.

Lemma dot_lit n p s : ways (Lit (str ".")) n p ("."%chr :: s) = [([], S p, s)].
Proof. rewrite (ways_lit _ n p (str ".") s) by done. cbn [length str]. by rewrite Nat.add_1_r. Qed.

Lemma dot_lit_nil n p s : begins (Z.eqb "."%chr) s = false -> ways (Lit (str ".")) n p s = [].
Proof.
  intros Hs. apply ways_lit_other. destruct s as [|c s]; [done|]. cbn [begins length take map] in *. unfold upcase in *. intros [= H].
  destruct (_ && (c <=? "z"%chr)) eqn:E; lia.
Qed.

Lemma bare_begins s rest : s <> [] -> forallb word s = true -> begins (Z.eqb double_quote) (s ++ rest) = false.
Proof.
  destruct s as [|c s]; [done|]. intros _ H. cbn [forallb app begins] in *. apply andb_prop in H as [H _]. destruct (word_upcase c _ H eq_refl) as (_ & _ & Hc).
  apply Z.eqb_neq. congruence.
Qed.

(** The schema with its dot; without a schema nothing is taken for one. *)
Lemma schema_ways n p x s (e := S (p + length (name_text x))) : name_ok x ->
  exists l, ways schema_re n p (name_text x ++ "."%chr :: s) = (name_groups n p e x, e, s) :: l.
Proof.
  intros Hx. unfold schema_re. rewrite ways_opt, ways_group, ways_alt. subst e. destruct x as [r|r]; cbn [name_text name_ok] in *.
  - destruct Hx as [Hne Hr]. rewrite (ways_group_plus word _ _ p r _ stops_word_dot) by done. rewrite dot_lit. by eexists.
  - rewrite ways_group_plus_nil by done. cbn [app]. rewrite quote_seq, <-app_assoc.
    rewrite (ways_group_star not_quote _ _ (S p) r _ (stops_seq _ _ _ stops_not_quote)) by (exact Hx || done).
    cbn [app]. rewrite quote_seq, dot_lit. cbn [with_group map app length brackets Plus name_groups].
    rewrite length_app. cbn [length]. 
    replace (S (S (S p + length r))) with (S (p + S (length r + 1))) by lia. replace (S n + (S (0 + 0) + 0))%nat with (S (S n)) by lia. by eexists.
Qed.

Lemma no_schema_ways n p x s : name_ok x -> name_ends x s -> ways schema_re n p (name_text x ++ s) = [([], p, name_text x ++ s)].
Proof.
  intros Hx [Hdot Hs]. unfold schema_re. rewrite ways_opt, ways_group, ways_alt. destruct x as [r|r]; cbn [name_text name_ok] in *.
  - destruct Hx as [Hne Hr]. rewrite (ways_group_plus word _ _ p r _ stops_word_dot) by done. rewrite dot_lit_nil, quote_seq_nil by (done || by apply bare_begins). done.
  - rewrite ways_group_plus_nil by done. cbn [app]. rewrite quote_seq, <-app_assoc.
    rewrite (ways_group_star not_quote _ _ (S p) r _ (stops_seq _ _ _ stops_not_quote)) by (exact Hx || done).
    cbn [app]. rewrite quote_seq, dot_lit_nil by done. done.
Qed.

Lemma object_ways n p x s (e := (p + length (name_text x))%nat) : name_ok x -> name_ends x s ->
  exists l, ways object_re n p (name_text x ++ s) = (name_groups n p e x, e, s) :: l.
Proof.
  intros Hx [Hdot Hs]. unfold object_re. rewrite ways_opt, ways_group, ways_alt. subst e. destruct x as [r|r]; cbn [name_text name_ok] in *.
  - destruct Hx as [Hne Hr]. destruct (ways_group_plus_first word (S n) p r s Hne Hr Hs) as [l Hl]. rewrite Hl. by eexists.
  - rewrite ways_group, plus_nil by done. cbn [map app]. rewrite quote_seq, <-app_assoc.
    rewrite (ways_group_star not_quote _ _ (S p) r _ stops_not_quote) by (exact Hx || done).
    cbn [app]. rewrite quote_lit. cbn [with_group map app length brackets Plus name_groups].
    rewrite length_app. cbn [length]. replace (S (S p + length r)) with (p + S (length r + 1))%nat by lia. replace (S n + S (0 + 0))%nat with (S (S n)) by lia. by eexists.
Qed.

(** The schema and the blanks behind its dot. *)
Definition schema_text (x : option (name * list Z)) : list Z := match x with Some (x, w) => name_text x ++ "."%chr :: w | None => [] end.
Definition schema_ok (x : option (name * list Z)) : Prop := match x with Some (x, w) => name_ok x /\ forallb space w = true | None => True end.
Definition schema_groups (n p : nat) (x : option (name * list Z)) : groups :=
  match x with Some (x, _) => name_groups n p (S (p + length (name_text x))) x | None => [] end.

Lemma name_begins x s : name_ok x -> begins space (name_text x ++ s) = false.
Proof.
  destruct x as [r|r]; [|done]. intros [Hne Hr]. destruct r as [|c r]; [done|]. cbn [forallb name_text app begins] in *. apply andb_prop in Hr as [Hc _].
  unfold word, alnum_, space in *. lia.
Qed.

Lemma names_ways n p schema x s (q := (p + length (schema_text schema))%nat) : schema_ok schema -> name_ok x -> name_ends x s ->
  exists l p' s', ways names_re n p (schema_text schema ++ name_text x ++ s)
    = (schema_groups n p schema ++ name_groups (3 + n) q (q + length (name_text x)) x, p', s') :: l.
Proof.
  intros Hsch Hx Hs. unfold names_re.
  assert (Ho : exists l p' s', ways (object_re · Star space) (3 + n) q (name_text x ++ s) = (name_groups (3 + n) q (q + length (name_text x)) x, p', s') :: l).
  { destruct (object_ways (3 + n) q x s Hx Hs) as [l Hl]. destruct (star_some space (q + length (name_text x)) s) as (p' & s' & l' & Hl').
    edestruct (ways_seq_first object_re (Star space) (3 + n) q (name_text x ++ s) []) as [l2 Hl2]; [exact Hl|constructor|exact Hl'|].
    rewrite Hl2, app_nil_r. by eexists _, _, _. }
  destruct Ho as (l & p' & s' & Ho). assert (Hn : (n + brackets schema_re)%nat = (3 + n)%nat) by (cbn; lia).
  destruct schema as [[y w]|]; cbn [schema_ok schema_text schema_groups] in *.
  - destruct Hsch as [Hy Hw]. rewrite <-app_assoc. cbn [app]. destruct (schema_ways n p y (w ++ name_text x ++ s) Hy) as [l1 Hl1].
    replace q with (S (p + length (name_text y)) + length w)%nat in * by (subst q; rewrite length_app; cbn; lia).
    edestruct (ways_star_first space (object_re · Star space) (3 + n) (S (p + length (name_text y))) w) as [l2 Hl2]; [exact Hw|by apply name_begins|exact Ho|].
    edestruct (ways_seq_first schema_re (Star space · object_re · Star space) n p (name_text y ++ "."%chr :: w ++ name_text x ++ s) []) as [l3 Hl3];
      [exact Hl1|constructor|rewrite Hn; exact Hl2|]. rewrite Hl3. by eexists _, _, _.
  - cbn [app]. rewrite (ways_seq_one _ _ _ _ _ _ _ (no_schema_ways n p x s Hx Hs)), Hn. subst q. cbn [length] in Ho. rewrite Nat.add_0_r in *.
    edestruct (ways_star_first space (object_re · Star space) (3 + n) p []) as [l2 Hl2]; [done|by apply name_begins|rewrite Nat.add_0_r; exact Ho|].
    cbn [app] in Hl2. rewrite Hl2. by eexists _, _, _.
Qed.

(** A type as it is written: its first word, and the blanks and the second one. *)
Definition written_type : Type := list Z * option (list Z * list Z).
Definition type_text (t : written_type) : list Z := fst t ++ match snd t with Some (w, t2) => w ++ t2 | None => [] end.
Definition type_kind (t : written_type) : list Z * option (list Z) := (mytoupper (fst t), mytoupper ∘ snd <$> snd t).
Definition type_ok (kinds : list (list Z * option (list Z))) (t : written_type) : Prop :=
  type_kind t ∈ kinds /\ match snd t with Some (w, _) => w <> [] /\ forallb space w = true | None => True end.

Definition create_kinds : list (list Z * option (list Z)) :=
  [(str "VIEW", None); (str "PROCEDURE", None); (str "FUNCTION", None); (str "PACKAGE", None); (str "PACKAGE", Some (str "BODY")); (str "TRIGGER", None);
   (str "TYPE", None); (str "TYPE", Some (str "BODY")); (str "LIBRARY", None); (str "QUEUE", None); (str "JAVA", Some (str "SOURCE"));
   (str "JAVA", Some (str "CLASS")); (str "DIMENSION", None); (str "ASSEMBLY", None); (str "HIERARCHY", None);
   (str "ATTRIBUTE", Some (str "DIMENSION")); (str "ANALYTIC VIEW", None)].

Definition alter_kinds : list (list Z * option (list Z)) := [(str "VIEW", None); (str "PROCEDURE", None); (str "FUNCTION", None); (str "PACKAGE", None)].

Definition body_kinds : list (list Z * option (list Z)) := [(str "PACKAGE", None); (str "TYPE", None)].

(** Behind PACKAGE or TYPE the word BODY would belong to the type. *)
Definition body_free (s : list Z) : Prop := map upcase (take 4 s) = str "BODY" -> begins space (drop 4 s) = false.

Lemma stops_space w : begins (fun c => ("A"%chr <=? c) && (c <=? "Z"%chr)) w = true -> stops space (Lit w).
Proof.
  destruct w as [|c w]; [done|]. cbn [begins]. intros Hc. apply stops_lit. unfold space, upcase. intros d Hd. destruct (_ && (d <=? "z"%chr)) eqn:E; lia.
Qed.

(** What the lists of matches of a type look like: the ones in front of the right
    one are not followed by a blank. *)
Definition type_found (r : re) (n p : nat) (t s : list Z) : Prop :=
  exists l1 g l2, ways r n p (t ++ s) = l1 ++ (g, (p + length t)%nat, s) :: l2 /\ Forall (fun x => begins space (snd x) = false) l1
    /\ Forall (fun x : nat * (nat * nat) => n <= fst x < n + brackets r)%nat g.

Lemma type_found_alt_l a b n p t s : type_found a n p t s -> type_found (a + b) n p t s.
Proof.
  intros (l1 & g & l2 & H & H1 & Hg). exists l1, g, (l2 ++ ways b (n + brackets a) p (t ++ s)). rewrite ways_alt, H, <-app_assoc. split; [done|].
  split; [done|]. eapply Forall_impl; [exact Hg|]. cbn [brackets]. intros x Hx. cbn in Hx. lia.
Qed.

Lemma type_found_alt_r a b n p t s : ways a n p (t ++ s) = [] -> type_found b (n + brackets a) p t s -> type_found (a + b) n p t s.
Proof.
  intros Ha (l1 & g & l2 & H & H1 & Hg). exists l1, g, l2. rewrite ways_alt, Ha, H. split; [done|].
  split; [done|]. eapply Forall_impl; [exact Hg|]. cbn [brackets]. intros x Hx. cbn in Hx. lia.
Qed.

Lemma type_found_lit w n p t s : map upcase t = w -> type_found (Lit w) n p t s.
Proof. intros H. exists [], [], []. rewrite ways_lit by done. by repeat constructor. Qed.

Lemma type_found_body w n p t b t2 s : map upcase t = w -> b <> [] -> forallb space b = true -> map upcase t2 = str "BODY" ->
  type_found (Lit w · Opt (Group (Plus space · Lit (str "BODY")))) n p (t ++ b ++ t2) s.
Proof.
  intros Ht Hne Hb Ht2. eexists [], _, _. rewrite <-!app_assoc, ways_lit_seq by done. rewrite ways_opt, ways_group, ways_plus; [|by apply stops_space|done|done|].
  - rewrite ways_lit by done. rewrite !length_app, !Nat.add_assoc. split; [reflexivity|]. split; [constructor|]. repeat constructor; cbn; lia.
  - destruct t2 as [|c t2]; [done|]. injection Ht2 as Hc _. cbn [app begins]. unfold space, upcase in *. destruct (_ && (c <=? "z"%chr)) eqn:E; lia.
Qed.

Lemma type_found_no_body w n p t b s : map upcase t = w -> b <> [] -> forallb space b = true -> begins space s = false -> body_free s ->
  type_found (Lit w · Opt (Group (Plus space · Lit (str "BODY")))) n p t (b ++ s).
Proof.
  intros Ht Hne Hb Hs Hbody. unfold type_found. rewrite ways_lit_seq by done. rewrite ways_opt, ways_group, ways_plus; [|by apply stops_space|done|done|done].
  cbn [ways]. change (length (str "BODY")) with 4%nat. case_bool_decide as E; cbn [map].
  - eexists [_], [], []. split; [reflexivity|]. repeat constructor. cbn [snd]. by apply Hbody.
  - exists [], [], []. by repeat constructor.
Qed.

Lemma type_found_words w r n p t b t2 s : map upcase t = w -> b <> [] -> forallb space b = true -> stops space r -> begins space (t2 ++ s) = false ->
  type_found r n (p + length (t ++ b)) t2 s -> type_found (Lit w · Plus space · r) n p (t ++ b ++ t2) s.
Proof.
  intros Ht Hne Hb Hr Hs. unfold type_found. rewrite <-!app_assoc, ways_lit_seq by done. rewrite ways_plus by done.
  by rewrite !length_app, !Nat.add_assoc.
Qed.

Lemma type_found_group r n p t s : type_found r (S n) p t s -> type_found (Group r) n p t s.
Proof.
  intros (l1 & g & l2 & H & H1 & Hg). exists (map (fun '(g, p1, s1) => ((n, (p, p1)) :: g, p1, s1)) l1), ((n, (p, (p + length t)%nat)) :: g).
  eexists. rewrite ways_group, H, map_app. split; [reflexivity|]. split.
  - apply Forall_map. eapply Forall_impl; [exact H1|]. by intros [[g' p'] s'].
  - constructor; [cbn; lia|]. eapply Forall_impl; [exact Hg|]. cbn [brackets]. intros x Hx. cbn in Hx. lia.
Qed.

Lemma letters_begin k c w t s : map upcase t = k -> k = c :: w -> ("A"%chr <=? c) && (c <=? "Z"%chr) = true -> begins space (t ++ s) = false.
Proof.
  intros Hk -> Hc. destruct t as [|d t]; [done|]. injection Hk as Hd _. cbn [app begins]. unfold space, upcase in *. destruct (_ && (d <=? "z"%chr)) eqn:E; lia.
Qed.

(** The way to the alternative of the word [HK] is about. *)
Ltac alternatives HK :=
  repeat (apply type_found_alt_r;
    [first [eapply ways_lit_miss; [exact HK|vm_compute; reflexivity]
           |rewrite <-?app_assoc; eapply ways_lit_seq_miss; [exact HK|vm_compute; reflexivity]
           |rewrite <-?app_assoc; eapply ways_lit_miss; [exact HK|vm_compute; reflexivity]]|]);
  first [apply type_found_alt_l|idtac].

(** Every type is found, and whole. *)
Lemma type_ways n p t b s : type_ok create_kinds t -> b <> [] -> forallb space b = true -> begins space s = false ->
  (type_kind t ∈ body_kinds -> body_free s) -> type_found type_re n p (type_text t) (b ++ s).
Proof.
  destruct t as [t sec]. unfold type_ok, type_kind, type_text. cbn [fst snd]. intros [Hk Hsec] Hne Hb Hs Hbody. unfold create_kinds in Hk.
  unfold type_re. rewrite !elem_of_cons, elem_of_nil in Hk.
  destruct sec as [[w t2]|]; [destruct Hsec as [Hw1 Hw2]|rewrite app_nil_r];
    cbn [fmap option_fmap option_map] in Hk, Hbody; destruct_or! Hk; try done; rewrite Hk in Hbody; injection Hk as HK; alternatives HK;
    first [by apply type_found_lit | by apply type_found_body | apply type_found_no_body; [done..|apply Hbody; apply (bool_decide_unpack _); by vm_compute]
          |apply type_found_words; [done|done|done| |eapply letters_begin; [eassumption|reflexivity|reflexivity]|]].
  - apply stops_group, stops_alt; by apply stops_space.
  - apply type_found_group. alternatives H. by apply type_found_lit.
  - apply stops_group, stops_alt; by apply stops_space.
  - apply type_found_group. alternatives H. by apply type_found_lit.
  - by apply stops_space.
  - by apply type_found_lit.
Qed.

Lemma alter_type_ways n p t s : type_ok alter_kinds t -> type_found alter_type_re n p (type_text t) s.
Proof.
  destruct t as [t sec]. unfold type_ok, type_kind, type_text. cbn [fst snd]. intros [Hk _]. unfold alter_kinds in Hk. rewrite !elem_of_cons, elem_of_nil in Hk.
  unfold alter_type_re. destruct sec as [[w t2]|]; [by destruct_or! Hk|rewrite app_nil_r].
  destruct_or! Hk; try done; injection Hk as HK; alternatives HK; by apply type_found_lit.
Qed.

(** The part behind the blanks of the verb. *)
Lemma typed_ways r n p t b schema x s (q := (p + length t + length b)%nat) (q' := (q + length (schema_text schema))%nat) (k := (n + S (brackets r))%nat) :
  type_found r (S n) p t (b ++ schema_text schema ++ name_text x ++ s) ->
  b <> [] -> forallb space b = true -> schema_ok schema -> name_ok x -> name_ends x s ->
  exists l g p' s', ways (Group r · Plus space · names_re) n p (t ++ b ++ schema_text schema ++ name_text x ++ s)
    = (((n, (p, (p + length t)%nat)) :: g) ++ schema_groups k q schema ++ name_groups (3 + k) q' (q' + length (name_text x)) x, p', s') :: l
    /\ Forall (fun x : nat * (nat * nat) => n < fst x < k)%nat g.
Proof.
  intros (l1 & g & l2 & Ht & Hl1 & Hg) Hne Hb Hsch Hx Hs.
  destruct (names_ways k q schema x s Hsch Hx Hs) as (l3 & p' & s' & Hn).
  edestruct (ways_plus_first space names_re k (p + length t) b) as [l4 Hl4]; [exact Hne|exact Hb| |exact Hn|].
  { destruct schema as [[y w]|]; [|by apply name_begins]. cbn [schema_text schema_ok] in *. rewrite <-app_assoc. apply name_begins, Hsch. }
  edestruct (ways_seq_first (Group r) (Plus space · names_re) n p (t ++ b ++ schema_text schema ++ name_text x ++ s)
    (map (fun '(g, p1, s1) => ((n, (p, p1)) :: g, p1, s1)) l1) ((n, (p, (p + length t)%nat)) :: g)) as [l5 Hl5].
  - rewrite ways_group, Ht, map_app. reflexivity.
  - apply Forall_map. eapply Forall_impl; [exact Hl1|]. intros [[g' p''] s''] H. cbn [snd fst] in *. by apply ways_plus_nil.
  - exact Hl4.
  - exists l5, g, p', s'. split; [exact Hl5|]. eapply Forall_impl; [exact Hg|]. intros y Hy. cbn in Hy. subst k. lia.
Qed.

(** A statement: blanks, the verb and blanks, OR REPLACE with its blanks, the type
    and blanks, the schema, the object, and the rest. *)
Record statement := mkStatement {
  lead : list Z;
  alters : bool;
  verb : list Z;
  gap : list Z;
  or_replace : option (list Z * list Z * list Z * list Z);
  written : written_type;
  gap2 : list Z;
  schema : option (name * list Z);
  object : name;
  rest : list Z
}.

Definition replace_text (r : option (list Z * list Z * list Z * list Z)) : list Z := match r with Some (o, w, r, w') => o ++ w ++ r ++ w' | None => [] end.

(** The text in front of the type, and that of the statement. *)
Definition front (st : statement) : list Z := lead st ++ verb st ++ gap st ++ replace_text (or_replace st).
Definition statement_text (st : statement) : list Z :=
  front st ++ type_text (written st) ++ gap2 st ++ schema_text (schema st) ++ name_text (object st) ++ rest st.

Definition blanks (w : list Z) : Prop := w <> [] /\ forallb space w = true.

Record statement_ok (st : statement) : Prop := {
  ok_lead : forallb space (lead st) = true;
  ok_verb : mytoupper (verb st) = if alters st then str "ALTER" else str "CREATE";
  ok_gap : blanks (gap st);
  ok_replace : match or_replace st with
               | Some (o, w, r, w') => alters st = false /\ mytoupper o = str "OR" /\ blanks w /\ mytoupper r = str "REPLACE" /\ blanks w'
               | None => True end;
  ok_type : type_ok (if alters st then alter_kinds else create_kinds) (written st);
  ok_gap2 : blanks (gap2 st);
  ok_schema : schema_ok (schema st);
  ok_object : name_ok (object st);
  ok_ends : name_ends (object st) (rest st);
  ok_text : c_string (statement_text st);
  (** BODY behind PACKAGE or TYPE is not an object *)
  ok_body : alters st = false -> type_kind (written st) ∈ body_kinds -> schema st = None -> forall b, object st = Bare b -> mytoupper b <> str "BODY"
}.

Lemma word_letter c d : upcase c = d -> ("A"%chr <=? d) && (d <=? "Z"%chr) = true -> word c = true.
Proof. unfold upcase, word, alnum_. intros <- H. destruct (_ && (c <=? "z"%chr)) eqn:E; lia. Qed.

Lemma word_not_space c : word c = true -> space c = false.
Proof. unfold word, alnum_, space. lia. Qed.

Lemma bare_body b s : forallb word b = true -> begins word s = false -> map upcase (take 4 (b ++ s)) = str "BODY" ->
  mytoupper b = str "BODY" /\ drop 4 (b ++ s) = s \/ begins space (drop 4 (b ++ s)) = false.
Proof.
  intros Hb Hs H. 
  assert (Hshort : (length b < 4)%nat -> False).
  { intros Hl. destruct b as [|c1 [|c2 [|c3 [|c4 b]]]]; cbn [length] in Hl; try lia; destruct s as [|d s]; try done; cbn in H; simplify_eq;
      cbn [begins] in Hs; erewrite word_letter in Hs; try done; try eassumption. }
  destruct b as [|c1 [|c2 [|c3 [|c4 b]]]]; try (exfalso; apply Hshort; cbn; lia). cbn [forallb] in Hb. cbn [app drop take map] in *.
  destruct b as [|c5 b]; [left; done|right]. cbn [forallb] in Hb. cbn [app begins]. apply word_not_space. by repeat (apply andb_prop in Hb as [? Hb]).
Qed.

Lemma ok_body_free st : statement_ok st -> alters st = false -> type_kind (written st) ∈ body_kinds ->
  body_free (schema_text (schema st) ++ name_text (object st) ++ rest st).
Proof.
  intros Hok Ha Hk Hb. pose proof (ok_schema st Hok) as Hsch. pose proof (ok_object st Hok) as Hobj. destruct (ok_ends st Hok) as [_ Hend].
  pose proof (ok_body st Hok Ha Hk) as Hbody. destruct (schema st) as [[[b|b] w]|]; cbn [schema_text schema_ok name_ok name_text] in *.
  - rewrite <-app_assoc in *. apply bare_body in Hb as [[_ ->]|H]; [done|exact H|apply Hsch|done].
  - done.
  - cbn [app] in *. destruct (object st) as [b|b]; cbn [name_text name_ok] in *; [|done].
    destruct (bare_body b _ (proj2 Hobj) Hend Hb) as [[H _]|H]; [by destruct (Hbody eq_refl b eq_refl)|exact H].
Qed.

(** ** Recognising the statements *)

(** What all types have in common. *)
Lemma kinds_all (f : list Z * option (list Z) -> bool) alter t : forallb f (create_kinds ++ alter_kinds) = true ->
  type_ok (if alter : bool then alter_kinds else create_kinds) t -> f (type_kind t) = true.
Proof. rewrite forallb_forall. intros Hm [Hk _]. apply Hm, in_app_iff. destruct alter; [right|left]; by apply list_elem_of_In. Qed.

Lemma type_not_or alter t s n p b : type_ok (if alter : bool then alter_kinds else create_kinds) t -> ways (Lit (str "OR") · b) n p (type_text t ++ s) = [].
Proof.
  intros Hk. unfold type_text. rewrite <-app_assoc. eapply ways_lit_seq_miss; [reflexivity|]. apply negb_true_iff.
  apply (kinds_all (fun k => negb (agree (str "OR") (fst k))) alter t); [vm_compute; reflexivity|done].
Qed.

Lemma type_begins alter t s : type_ok (if alter : bool then alter_kinds else create_kinds) t -> begins space (type_text t ++ s) = false.
Proof.
  intros Hk. unfold type_text. rewrite <-app_assoc.
  pose proof (kinds_all (fun k => begins (fun c => ("A"%chr <=? c) && (c <=? "Z"%chr)) (fst k)) alter t ltac:(vm_compute; reflexivity) Hk) as Hm.
  cbn [type_kind fst] in Hm.
  destruct (mytoupper (fst t)) as [|c w] eqn:E; [done|]. by eapply letters_begin; [exact E|reflexivity|].
Qed.

Lemma stops_type_re : stops space (Group type_re).
Proof. apply stops_group. unfold type_re. repeat (apply stops_alt; [first [by apply stops_space|by apply stops_seq, stops_space]|]). by apply stops_space. Qed.

Lemma stops_alter_type_re : stops space (Group alter_type_re).
Proof. apply stops_group. unfold alter_type_re. repeat (apply stops_alt; [by apply stops_space|]). by apply stops_space. Qed.

(** The groups of a statement: those of OR REPLACE, of the type, the schema and the
    object; [n] is the number of the type, and [k] that of the schema. *)
Definition found_groups (n k : nat) (st : statement) (G : groups) : Prop :=
  let a := length (front st) in let e := (a + length (type_text (written st)))%nat in
  let q := (e + length (gap2 st))%nat in let q' := (q + length (schema_text (schema st)))%nat in
  exists g0 g, G = g0 ++ ((n, (a, e)) :: g) ++ schema_groups k q (schema st) ++ name_groups (3 + k) q' (q' + length (name_text (object st))) (object st)
    /\ Forall (fun x => fst x < n)%nat g0 /\ Forall (fun x => n < fst x < k)%nat g.

Lemma names_begin st : statement_ok st -> begins space (schema_text (schema st) ++ name_text (object st) ++ rest st) = false.
Proof.
  intros Hok. pose proof (ok_schema st Hok) as Hs. destruct (schema st) as [[y w]|]; [|by apply name_begins, (ok_object st Hok)].
  cbn [schema_text schema_ok] in *. rewrite <-app_assoc. apply name_begins, Hs.
Qed.

(** OR REPLACE, or nothing. *)
Lemma replace_ways st b p s g p1 s1 l : statement_ok st -> alters st = false ->
  ways b 3 (p + length (replace_text (or_replace st))) (type_text (written st) ++ s) = (g, p1, s1) :: l ->
  exists g0 l', ways (Opt or_replace_re · b) 2 p
      (replace_text (or_replace st) ++ type_text (written st) ++ s) = (g0 ++ g, p1, s1) :: l'
    /\ Forall (fun x => fst x < 3)%nat g0.
Proof.
  intros Hok Ha Hb. pose proof (ok_type st Hok) as Hty. pose proof (ok_replace st Hok) as Hr.
  destruct (or_replace st) as [[[[o w] r] w']|]; cbn [replace_text] in *.
  - destruct Hr as (_ & Ho & [Hw1 Hw2] & Hr & [Hw3 Hw4]).
    destruct (plus_first space 3 (p + length o + length w + length r) w' (type_text (written st) ++ s) Hw3 Hw4 (type_begins _ _ _ Hty)) as [l0 Hl0].
    edestruct (ways_seq_first (Opt or_replace_re) b 2 p
      ((o ++ w ++ r ++ w') ++ type_text (written st) ++ s) []) as [l' Hl'].
    + rewrite ways_opt. unfold or_replace_re. rewrite ways_group, <-!app_assoc, ways_lit_seq by done.
      rewrite ways_plus; [|by apply stops_seq, stops_space|done|done|by eapply letters_begin; [exact Hr|reflexivity|]].
      rewrite ways_lit_seq by done. rewrite Hl0. reflexivity.
    + constructor.
    + replace (p + length o + length w + length r + length w')%nat with (p + length (o ++ w ++ r ++ w'))%nat by (rewrite !length_app; lia). exact Hb.
    + eexists _, _. split; [exact Hl'|]. repeat constructor.
  - cbn [app length] in *. rewrite Nat.add_0_r in Hb. exists [], l. split; [|constructor]. etransitivity; [|exact Hb].
    refine (ways_seq_one (Opt or_replace_re) b 2 p _ p _ _). rewrite ways_opt. unfold or_replace_re. rewrite ways_group. by rewrite (type_not_or (alters st)).
Qed.

Lemma create_ways st : statement_ok st -> alters st = false ->
  exists G p s l, ways pl_create_sql_re 1 0 (statement_text st) = (G, p, s) :: l /\ found_groups 3 7 st G.
Proof.
  intros Hok Ha. destruct (ok_gap st Hok) as [Hg1 Hg2]. destruct (ok_gap2 st Hok) as [Hg3 Hg4].
  pose proof (ok_type st Hok) as Hty. pose proof (ok_verb st Hok) as Hv. rewrite Ha in Hty, Hv.
  edestruct (typed_ways type_re 3 (length (front st)) (type_text (written st)) (gap2 st) (schema st) (object st) (rest st)) as (l & g & p' & s' & Hw & Hg);
    [apply type_ways; [exact Hty|exact Hg3|exact Hg4|by apply names_begin|by apply ok_body_free]|exact Hg3|exact Hg4|apply Hok..|].
  edestruct (replace_ways st (Group type_re · Plus space · names_re)%re (length (lead st) + length (verb st) + length (gap st))) as (g0 & l' & Hr & Hg0);
    [exact Hok|exact Ha|rewrite <-!length_app, <-!app_assoc; exact Hw|].
  unfold pl_create_sql_re, statement_text. rewrite ways_start, ways_group. unfold front at 1. rewrite <-!app_assoc.
  rewrite ways_star; [|by apply stops_seq, stops_space|apply Hok|eapply letters_begin; [exact Hv|reflexivity|reflexivity]].
  rewrite ways_lit_seq by exact Hv.
  rewrite ways_plus; [|apply stops_opt_seq; [by apply stops_group, stops_seq, stops_space|apply stops_seq, stops_type_re]|exact Hg1|exact Hg2|].
  - cbn [Nat.add]. rewrite Hr. cbn [map]. eexists _, _, _, _. split; [reflexivity|]. eexists (_ :: g0), g. split; [reflexivity|]. split; [|exact Hg].
    constructor; [cbn; lia|exact Hg0].
  - pose proof (ok_replace st Hok) as Hrep. destruct (or_replace st) as [[[[o w] r] w']|]; cbn [replace_text]; [|by apply (type_begins (alters st)), Hok].
    rewrite <-!app_assoc. eapply letters_begin; [apply Hrep|reflexivity|reflexivity].
Qed.

Lemma alter_ways st : statement_ok st -> alters st = true ->
  exists G p s l, ways pl_alter_sql_re 1 0 (statement_text st) = (G, p, s) :: l /\ found_groups 2 3 st G.
Proof.
  intros Hok Ha. destruct (ok_gap st Hok) as [Hg1 Hg2]. destruct (ok_gap2 st Hok) as [Hg3 Hg4].
  pose proof (ok_type st Hok) as Hty. pose proof (ok_verb st Hok) as Hv. pose proof (ok_replace st Hok) as Hrep. rewrite Ha in Hty, Hv.
  destruct (or_replace st) as [[[[o w] r] w']|] eqn:Er; [exfalso; destruct Hrep as [Hrep _]; congruence|].
  edestruct (typed_ways alter_type_re 2 (length (front st)) (type_text (written st)) (gap2 st) (schema st) (object st) (rest st)) as (l & g & p' & s' & Hw & Hg);
    [by apply alter_type_ways|exact Hg3|exact Hg4|apply Hok..|].
  unfold pl_alter_sql_re, statement_text. rewrite ways_start, ways_group. unfold front at 1. rewrite Er. cbn [replace_text]. rewrite app_nil_r, <-!app_assoc.
  rewrite ways_star; [|by apply stops_seq, stops_space|apply Hok|eapply letters_begin; [exact Hv|reflexivity|reflexivity]].
  rewrite ways_lit_seq by exact Hv.
  rewrite ways_plus; [|apply stops_seq, stops_alter_type_re|exact Hg1|exact Hg2|by apply (type_begins true)].
  replace (0 + length (lead st) + length (verb st) + length (gap st))%nat with (length (front st))
    by (unfold front; rewrite Er; cbn [replace_text]; rewrite app_nil_r, !length_app; lia).
  rewrite Hw. cbn [map]. eexists _, _, _, _. split; [reflexivity|]. eexists [_], g. split; [reflexivity|]. split; [|exact Hg]. by repeat constructor.
Qed.

(** Other verbs do not match. *)
Lemma verb_miss st w b : statement_ok st -> agree w (mytoupper (verb st)) = false -> begins (fun c => ("A"%chr <=? c) && (c <=? "Z"%chr)) w = true ->
  head (search (Start · Group (Star space · Lit w · b)) (statement_text st)) = None.
Proof.
  intros Hok Hw Hl. apply search_anchored. unfold statement_text, front. rewrite ways_group, <-!app_assoc.
  rewrite ways_star; [|by apply stops_seq, stops_space|apply Hok|].
  - by erewrite ways_lit_seq_miss.
  - pose proof (ok_verb st Hok) as Hv. destruct (alters st); (eapply letters_begin; [exact Hv|reflexivity|reflexivity]).
Qed.

(** SHOW ERRORS without an object, in any of its spellings. *)
Record show_command := mkShow { show_lead : list Z; show_word : list Z; show_gap : list Z; errors_word : list Z; show_trail : list Z }.

Definition show_text (c : show_command) : list Z := show_lead c ++ show_word c ++ show_gap c ++ errors_word c ++ show_trail c.

Definition show_ok (c : show_command) : Prop :=
  forallb space (show_lead c) = true /\ mytoupper (show_word c) = str "SHOW" /\ blanks (show_gap c)
  /\ mytoupper (errors_word c) ∈ [str "ERR"; str "ERROR"; str "ERRORS"] /\ forallb space (show_trail c) = true
  /\ c_string (show_text c).

Lemma show_suffix_none n p s : (exists w, s = w /\ forallb space w = true) \/ begins space s = false -> ways (Opt show_suffix_re) n p s = [([], p, s)].
Proof.
  intros Hs. rewrite ways_opt. unfold show_suffix_re. rewrite ways_group. destruct Hs as [(w & -> & Hw)|Hs]; [|by rewrite ways_plus_nil].
  destruct w as [|c w]; [done|]. rewrite <-(app_nil_r (c :: w)) at 1. rewrite ways_plus; [reflexivity|apply stops_seq, stops_type_re|done..].
Qed.

Lemma show_end n p w : forallb space w = true -> exists l, ways (Opt show_suffix_re · Star space · End) n p w = ([], (p + length w)%nat, []) :: l.
Proof.
  intros Hw. rewrite (ways_seq_one _ _ n p w p w) by (apply show_suffix_none; eauto).
  pose proof (ways_star_first space End (n + brackets (Opt show_suffix_re)) p w [] [] (p + length w) [] [] Hw eq_refl eq_refl) as H.
  by rewrite app_nil_r in H.
Qed.

Lemma show_no_end n p c s : space c = false -> ways (Opt show_suffix_re · Star space · End) n p (c :: s) = [].
Proof.
  intros Hc. rewrite (ways_seq_one _ _ n p (c :: s) p (c :: s)) by (apply show_suffix_none; by right).
  rewrite (ways_seq_one _ _ _ p (c :: s) p (c :: s)) by (by apply star_begins). cbn [ways].
  rewrite !bool_decide_eq_false_2; [done| |done]. intros [= -> _]. done.
Qed.

Lemma errors_ways p e w : mytoupper e ∈ [str "ERR"; str "ERROR"; str "ERRORS"] -> forallb space w = true ->
  exists g p' l, ways (Lit (str "ERR") · Opt (Group (Lit (str "OR") + Lit (str "ORS"))) · Opt show_suffix_re · Star space · End) 2 p (e ++ w) = (g, p', []) :: l
    /\ Forall (fun x => fst x = 2%nat) g.
Proof.
  intros He Hw. rewrite <-(take_drop 3 e), <-app_assoc.
  rewrite ways_lit_seq by (rewrite <-firstn_map; change (map upcase e) with (mytoupper e); rewrite !elem_of_cons, elem_of_nil in He; by destruct_or! He; rewrite He || done).
  set (p1 := (p + length (take 3 e))%nat). set (o := drop 3 e).
  assert (Ho : mytoupper o = [] \/ mytoupper o = str "OR" \/ mytoupper o = str "ORS").
  { subst o. unfold mytoupper. rewrite <-skipn_map. change (map _ e) with (mytoupper e). rewrite !elem_of_cons, elem_of_nil in He. destruct_or! He; rewrite ?He; auto; done. }
  destruct Ho as [Ho|[Ho|Ho]].
  - destruct o; [|done]. cbn [app]. destruct (show_end 3 p1 w Hw) as [l Hl]. exists [], (p1 + length w)%nat, l. split; [|constructor].
    etransitivity; [|exact Hl]. refine (ways_seq_one (Opt (Group (Lit (str "OR") + Lit (str "ORS")))) _ 2 p1 w p1 w _).
    rewrite ways_opt, ways_group, ways_alt. destruct w as [|c w]; [done|]. apply andb_prop in Hw as [Hc _].
    by rewrite (stops_space (str "OR") eq_refl), (stops_space (str "ORS") eq_refl).
  - destruct (show_end 3 (p1 + length o) w Hw) as [l Hl].
    edestruct (ways_seq_first (Opt (Group (Lit (str "OR") + Lit (str "ORS")))) (Opt show_suffix_re · Star space · End) 2 p1 (o ++ w) []) as [l' Hl'];
      [rewrite ways_opt, ways_group, ways_alt, ways_lit by done; reflexivity|constructor|exact Hl|].
    eexists _, _, _. split; [exact Hl'|]. by repeat constructor.
  - destruct (show_end 3 (p1 + length o) w Hw) as [l Hl]. destruct o as [|c1 [|c2 [|c3 [|]]]]; try done.
    change ([upcase c1; upcase c2; upcase c3] = str "ORS") in Ho. injection Ho as H1 H2 H3.
    edestruct (ways_seq_first (Opt (Group (Lit (str "OR") + Lit (str "ORS")))) (Opt show_suffix_re · Star space · End) 2 p1 ([c1; c2; c3] ++ w)
      [([(2, (p1, p1 + 2))], p1 + 2, c3 :: w)]%nat) as [l' Hl'];
      [rewrite ways_opt, ways_group, ways_alt| |exact Hl|].
    + rewrite (ways_lit (str "ORS") _ p1 [c1; c2; c3] w) by (cbn [map]; by rewrite H1, H2, H3).
      change ([c1; c2; c3] ++ w) with ([c1; c2] ++ c3 :: w) at 1. rewrite (ways_lit (str "OR") _ p1 [c1; c2] (c3 :: w)) by (cbn [map]; by rewrite H1, H2). reflexivity.
    + repeat constructor. cbn [fst snd]. apply show_no_end. unfold space, upcase in *. destruct (_ && (c3 <=? "z"%chr)) eqn:E; lia.
    + eexists _, _, _. split; [exact Hl'|]. by repeat constructor.
Qed.

Lemma show_ways c : show_ok c -> exists G p s l, ways pl_show_errors_sql_re 1 0 (show_text c) = (G, p, s) :: l /\ Forall (fun x => fst x < 3)%nat G.
Proof.
  intros (Hl & Hv & [Hg1 Hg2] & He & Ht & _). unfold pl_show_errors_sql_re, show_text. rewrite ways_start, ways_group.
  rewrite ways_star; [|by apply stops_seq, stops_space|done|by eapply letters_begin; [exact Hv|reflexivity|reflexivity]]. rewrite ways_lit_seq by exact Hv.
  rewrite ways_plus; [|by apply stops_seq, stops_space|done|done|].
  - edestruct (errors_ways) as (g & p' & l & H & Hg); [exact He|exact Ht|]. rewrite H. cbn [map]. eexists _, _, _, _. split; [reflexivity|].
    constructor; [cbn; lia|]. eapply Forall_impl; [exact Hg|]. intros x Hx. cbn in Hx. lia.
  - rewrite !elem_of_cons, elem_of_nil in He. destruct_or! He; try done; (eapply letters_begin; [exact He|reflexivity|reflexivity]).
Qed.

(** ** The remembered object *)

Lemma mytoupper_no_quote s : quote ∉ s -> quote ∉ mytoupper s.
Proof.
  intros Hs Hin. unfold mytoupper in Hin. apply list_elem_of_fmap in Hin as (c & Hc & Hin). unfold quote in *.
  destruct (Z.leb_spec "a"%chr c), (Z.leb_spec c "z"%chr); cbn [andb] in Hc; try (subst; done). lia.
Qed.

Lemma get_errors_sql_length o t s : (length o + length s <= length (get_errors_sql o t s))%nat.
Proof. unfold get_errors_sql. rewrite !length_app. lia. Qed.

Lemma get_errors_sql_c_string o t s : c_string o -> c_string t -> c_string s -> c_string (get_errors_sql o t s).
Proof. intros Ho Ht Hs. unfold get_errors_sql, c_string. rewrite !Forall_app. split_and!; try done; by repeat constructor. Qed.

Lemma doubled_c_string s : c_string s -> c_string (doubled s).
Proof. induction 1 as [|c s Hc _ IH]; [constructor|]. cbn [doubled flat_map]. apply Forall_app. split; [|done]. destruct (c =? quote); by repeat constructor. Qed.

Lemma mytoupper_c_string s : c_string s -> c_string (mytoupper s).
Proof.
  induction 1 as [|c s Hc _ IH]; [constructor|]. cbn [mytoupper map]. constructor; [|done]. destruct (_ && _) eqn:E; [|done].
  apply andb_prop in E as [H1%Z.leb_le H2%Z.leb_le]. unfold is_char. by rewrite (proj2 (Z.leb_le _ _)), (proj2 (Z.leb_le _ _)) by lia.
Qed.

Definition plain_group (q : nat) (x : name) : option (nat * nat) := match x with Bare s => Some (q, (q + length s)%nat) | Quoted _ => None end.
Definition quoted_group (q : nat) (x : name) : option (nat * nat) := match x with Bare _ => None | Quoted s => Some (S q, (S q + length s)%nat) end.

Lemma name_groups_outside n p e x j : (j < n \/ n + 2 < j)%nat -> group (name_groups n p e x) j = None.
Proof. intros Hj. apply group_outside. destruct x; repeat constructor; cbn; lia. Qed.

Lemma name_groups_inside n p e x : group (name_groups n p e x) (1 + n) = plain_group p x /\ group (name_groups n p e x) (2 + n) = quoted_group p x.
Proof.
  destruct x; unfold group, name_groups, plain_group, quoted_group; cbn [find fst snd fmap option_fmap option_map].
  - rewrite (proj2 (Nat.eqb_neq n (1 + n))), (proj2 (Nat.eqb_neq n (2 + n))), (proj2 (Nat.eqb_neq (S n) (2 + n))) by lia. by rewrite Nat.eqb_refl.
  - rewrite (proj2 (Nat.eqb_neq n (1 + n))), (proj2 (Nat.eqb_neq n (2 + n))), (proj2 (Nat.eqb_neq (S (S n)) (1 + n))) by lia. by rewrite Nat.eqb_refl.
Qed.

(** What the client finds under the numbers of the groups. *)
Lemma found_lookup n k st G (a := length (front st)) (e := (a + length (type_text (written st)))%nat)
    (q := (e + length (gap2 st))%nat) (q' := (q + length (schema_text (schema st)))%nat) :
  found_groups n k st G -> (n < k)%nat ->
  group G n = Some (a, e) /\ group G (1 + k) = schema st ≫= plain_group q ∘ fst /\ group G (2 + k) = schema st ≫= quoted_group q ∘ fst
  /\ group G (4 + k) = plain_group q' (object st) /\ group G (5 + k) = quoted_group q' (object st).
Proof.
  intros (g0 & g & -> & H0 & Hg) Hnk.
  assert (Hbig : forall j rest, (k <= j)%nat -> group (g0 ++ ((n, (a, e)) :: g) ++ rest) j = group rest j).
  { intros j r Hj. rewrite app_assoc, group_app. rewrite group_outside; [done|]. apply Forall_app. split; [|constructor; [cbn; lia|]].
    - eapply Forall_impl; [exact H0|]. cbn. intros x Hx. lia.
    - eapply Forall_impl; [exact Hg|]. cbn. intros x Hx. lia. }
  split.
  { rewrite group_app, group_outside by (eapply Forall_impl; [exact H0|]; cbn; intros x Hx; lia). unfold group. cbn [app find fst]. by rewrite Nat.eqb_refl. }
  fold a e q q'. rewrite !Hbig, !group_app by lia. clear Hbig. destruct (name_groups_inside (3 + k) q' (q' + length (name_text (object st))) (object st)) as [N1 N2].
  rewrite !(name_groups_outside (3 + k) _ _ _ (1 + k)), !(name_groups_outside (3 + k) _ _ _ (2 + k)) by lia.
  change (4 + k)%nat with (1 + (3 + k))%nat. change (5 + k)%nat with (2 + (3 + k))%nat. rewrite N1, N2.
  destruct (schema st) as [[y w]|]; cbn [schema_groups mbind option_bind compose fst]; [|done].
  destruct (name_groups_inside k q (S (q + length (name_text y))) y) as [M1 M2]. rewrite M1, M2, !name_groups_outside by lia.
  split_and!; try done; by destruct y.
Qed.

Lemma group_text_app pre t post : group_text (pre ++ t ++ post) (length pre, (length pre + length t)%nat) = t.
Proof. unfold group_text. cbn [fst snd]. rewrite drop_app_length. replace (length pre + length t - length pre)%nat with (length t) by lia. apply take_app_length. Qed.

Lemma name_of_found pre x post : name_ok x -> c_string (name_text x) -> (length (doubled (name_value x)) + 1 < FMT_BUF_SIZE)%nat ->
  name_of (pre ++ name_text x ++ post) (plain_group (length pre) x) (quoted_group (length pre) x) = Some (doubled (name_value x)).
Proof.
  intros Hx Hc Hl. destruct x as [r|r]; cbn [name_text name_value name_ok plain_group quoted_group name_of] in *.
  - cbn [fmap option_fmap option_map compose]. rewrite group_text_app, doubled_no_quote; [done|]. apply mytoupper_no_quote. intros Hin.
    destruct Hx as [_ Hr]. rewrite forallb_forall in Hr. apply list_elem_of_In in Hin. by apply Hr in Hin.
  - f_equal. cbn [fst snd]. unfold fmt_str. replace (S (length pre) + length r - S (length pre))%nat with (length r) by lia.
    cbn [app]. change (double_quote :: (r ++ [double_quote]) ++ post) with ([double_quote] ++ (r ++ [double_quote]) ++ post).
    rewrite (app_assoc pre), <-(Nat.add_1_r (length pre)). change 1%nat with (length [double_quote]). rewrite <-length_app, drop_app_length, <-app_assoc.
    apply fmt_loop_doubled; [|cbn [Nat.add]; lia]. apply Forall_cons in Hc as [_ Hc]. by apply Forall_app in Hc as [Hc _].
Qed.

Lemma type_no_quote alter t : type_ok (if alter : bool then alter_kinds else create_kinds) t -> quote ∉ mytoupper (type_text t).
Proof.
  intros Hok. pose proof (kinds_all (fun k => negb (existsb (Z.eqb quote) (fst k ++ default [] (snd k)))) alter t ltac:(vm_compute; reflexivity) Hok) as Hm.
  apply negb_true_iff in Hm. intros Hin. assert (He : quote ∈ mytoupper (fst t) ++ default [] (snd (type_kind t))).
  { destruct t as [t [[w t2]|]]; unfold type_text, mytoupper in *; cbn [fst snd type_kind fmap option_fmap option_map compose default from_option] in *.
    - rewrite !map_app in Hin. apply elem_of_app in Hin as [Hin|Hin]; [by apply elem_of_app; left|]. apply elem_of_app in Hin as [Hin|Hin]; [|by apply elem_of_app; right].
      exfalso. apply list_elem_of_fmap in Hin as (c & Hc & Hin). destruct Hok as [_ [_ Hw]]. cbn [snd] in Hw. rewrite forallb_forall in Hw. apply list_elem_of_In, Hw in Hin.
      unfold space, quote in *. destruct (_ && (c <=? "z"%chr)) eqn:E; lia.
    - by rewrite app_nil_r in *. }
  assert (existsb (Z.eqb quote) (fst (type_kind t) ++ default [] (snd (type_kind t))) = true); [|congruence].
  apply existsb_exists. exists quote. split; [by apply list_elem_of_In|apply Z.eqb_refl].
Qed.

(** A statement leaves its type and its names, as literals of a query have them. *)
Definition remembered (st : statement) : pl_last :=
  mkPlLast (Some (mytoupper (type_text (written st)))) (Some (doubled (name_value (object st)))) (doubled ∘ name_value ∘ fst <$> schema st).

Lemma remember_found n k st G subs : found_groups n k st G -> statement_ok st -> (0 < n < k)%nat -> (5 + k < NS)%nat ->
  (forall j, (0 < j < NS)%nat -> subs j = group G j) -> (length (doubled (name_value (object st))) + 1 < FMT_BUF_SIZE)%nat ->
  (length (default [] (doubled ∘ name_value ∘ fst <$> schema st)) + 1 < FMT_BUF_SIZE)%nat ->
  remember (mkOffsets n (1 + k) (2 + k) (4 + k) (5 + k)) subs (statement_text st) = Some (remembered st).
Proof.
  intros HG Hok Hnk Hk Hsubs Hl1 Hl2. destruct (found_lookup n k st G HG ltac:(lia)) as (Gt & Gs & Gs' & Go & Go').
  unfold remember. cbn [type_offset schema_offset schema_quote_offset object_offset object_quote_offset].
  rewrite !Hsubs, Gt, Gs, Gs', Go, Go' by lia. cbn [mbind option_bind]. unfold remembered. f_equal. f_equal.
  - unfold statement_text. by rewrite group_text_app.
  - pose proof (ok_text st Hok) as Ht. unfold statement_text in *. rewrite !app_assoc in *. rewrite <-!length_app, <-app_assoc.
    apply name_of_found; [apply Hok| |exact Hl1]. rewrite <-app_assoc in Ht. by apply Forall_app in Ht as [_ [Ht _]%Forall_app].
  - pose proof (ok_text st Hok) as Ht. pose proof (ok_schema st Hok) as Hsch. unfold statement_text in *. rewrite <-!length_app.
    destruct (schema st) as [[y w]|]; [|done]. cbn [schema_text schema_ok mbind option_bind compose fst fmap option_fmap option_map default from_option id] in *.
    rewrite (app_assoc (front st)), (app_assoc _ (gap2 st)), <-(app_assoc (name_text y)) in *.
    apply name_of_found; [apply Hsch| |exact Hl2]. by apply Forall_app in Ht as [_ [Ht _]%Forall_app].
Qed.

Lemma handle_statement `{Regexec} db p st : statement_ok st -> (length (doubled (name_value (object st))) + 1 < FMT_BUF_SIZE)%nat ->
  (length (default [] (doubled ∘ name_value ∘ fst <$> schema st)) + 1 < FMT_BUF_SIZE)%nat ->
  handle_oracle_sql db p (statement_text st) = Some (statement_text st, remembered st).
Proof.
  intros Hok Hl1 Hl2. unfold handle_oracle_sql. rewrite (cstr_c_string _ (ok_text st Hok)). pose proof (ok_verb st Hok) as Hv.
  rewrite (regexec_none pl_show_errors_sql_re) by (apply verb_miss; [done|rewrite Hv; by destruct (alters st)|done]).
  destruct (alters st) eqn:Ha.
  - rewrite (regexec_none pl_create_sql_re) by (apply verb_miss; [done|by rewrite Hv|done]).
    destruct (alter_ways st Hok Ha) as (G & p' & s' & l & Hw & HG). destruct (regexec_some _ _ _ _ _ (search_at_start _ _ _ _ Hw)) as (subs & Hs & Hsubs).
    pose proof (remember_found 2 3 st G subs HG Hok ltac:(lia) ltac:(unfold NS; lia) Hsubs Hl1 Hl2) as Hr.
    change (remember alter_offsets subs (statement_text st) = Some (remembered st)) in Hr. by rewrite Hs, Hr.
  - destruct (create_ways st Hok Ha) as (G & p' & s' & l & Hw & HG). destruct (regexec_some _ _ _ _ _ (search_at_start _ _ _ _ Hw)) as (subs & Hs & Hsubs).
    pose proof (remember_found 3 7 st G subs HG Hok ltac:(lia) ltac:(unfold NS; lia) Hsubs Hl1 Hl2) as Hr.
    change (remember create_offsets subs (statement_text st) = Some (remembered st)) in Hr. by rewrite Hs, Hr.
Qed.

(** SHOW ERRORS alone asks for the remembered object. *)
Lemma handle_show `{Regexec} db p c o t s : show_ok c -> pl_last_object p = Some o -> pl_last_type p = Some t ->
  match pl_last_schema p with Some s => Some s | None => db end = Some s ->
  handle_oracle_sql db p (show_text c) = Some (strmake (get_errors_sql o t s) (GET_ERRORS_MAX_SQL_LENGTH - 1), p).
Proof.
  intros Hok Ho Ht Hs. unfold handle_oracle_sql. rewrite cstr_c_string by apply Hok.
  destruct (show_ways c Hok) as (G & p' & s' & l & Hw & HG). destruct (regexec_some _ _ _ _ _ (search_at_start _ _ _ _ Hw)) as (subs & -> & Hsubs).
  unfold errors_of. rewrite Hsubs by (unfold show_suffix_offset, NS; lia).
  rewrite group_outside by (eapply Forall_impl; [exact HG|]; unfold show_suffix_offset; cbn; intros x Hx; lia).
  rewrite Hs, Ho, Ht. reflexivity.
Qed.

Lemma name_value_c_string x : c_string (name_text x) -> c_string (name_value x).
Proof. destruct x; cbn [name_text name_value]; [apply mytoupper_c_string|]. intros [_ Hc]%Forall_cons. by apply Forall_app in Hc as [Hc _]. Qed.

Lemma statement_c_string st : statement_ok st ->
  c_string (mytoupper (type_text (written st))) /\ c_string (name_value (object st)) /\ match schema st with Some (y, _) => c_string (name_value y) | None => True end.
Proof.
  intros Hok. pose proof (ok_text st Hok) as Ht. unfold statement_text, c_string in Ht. rewrite !Forall_app in Ht. destruct Ht as (_ & Ht & _ & Hs & Ho & _).
  split; [by apply mytoupper_c_string|]. split; [by apply name_value_c_string|]. destruct (schema st) as [[y w]|]; [|done].
  cbn [schema_text] in Hs. apply Forall_app in Hs as [Hs _]. by apply name_value_c_string.
Qed.

(** C31. SHOW ERRORS asks for the last created or altered object: after CREATE, with
    or without OR REPLACE, or ALTER of any type that the client knows, in any case
    and with any blanks, whatever the schema and the object are called, with and
    without quotes, the query that SHOW ERRORS becomes reads back as exactly the
    object of the statement, its type as it is written, and its schema, or the
    current database when the statement names no schema; names without quotes are
    in capital letters.  The query has to fit its array; the statement itself is
    not changed.  The library gives the first match of the depth-first search for
    the expressions of the client. *)
Theorem show_errors_of_last `{Regexec} (current_db : list Z) (p : pl_last) (st : statement) (c : show_command)
    (owner := default current_db (name_value ∘ fst <$> schema st)) :
  statement_ok st -> show_ok c -> c_string current_db -> quote ∉ current_db ->
  (length (get_errors_sql (doubled (name_value (object st))) (mytoupper (type_text (written st))) (doubled owner)) < GET_ERRORS_MAX_SQL_LENGTH)%nat ->
  exists p' q, handle_oracle_sql (Some current_db) p (statement_text st) = Some (statement_text st, p')
    /\ handle_oracle_sql (Some current_db) p' (show_text c) = Some (q, p')
    /\ read_errors_sql q = Some (name_value (object st), mytoupper (type_text (written st)), owner).
Proof.
  intros Hok Hshow Hdb Hdbq Hlen. set (o := name_value (object st)) in *. set (t := mytoupper (type_text (written st))) in *.
  pose proof (get_errors_sql_length (doubled o) t (doubled owner)) as Hsum. unfold GET_ERRORS_MAX_SQL_LENGTH in *.
  assert (Hq : quote ∉ t) by exact (type_no_quote _ _ (ok_type st Hok)).
  eexists (remembered st), _. split; [|split].
  - apply handle_statement; [done|subst o; unfold FMT_BUF_SIZE; lia|]. unfold FMT_BUF_SIZE. subst owner. destruct (schema st) as [[y w]|]; [|cbn; lia].
    cbn [fmap option_fmap option_map compose fst default from_option id] in *. lia.
  - apply (handle_show _ _ _ (doubled o) t (doubled owner)); [done|done|done|]. unfold remembered. subst owner. cbn [pl_last_schema].
    destruct (schema st) as [[y w]|]; [done|]. cbn. by rewrite doubled_no_quote.
  - rewrite strmake_take, take_ge.
    + rewrite <-(doubled_no_quote t Hq) at 1. apply read_errors_sql_ok.
    + unfold GET_ERRORS_MAX_SQL_LENGTH. lia.
    + destruct (statement_c_string st Hok) as (Ht & Ho & Hs). apply get_errors_sql_c_string; [by apply doubled_c_string|done|].
      apply doubled_c_string. subst owner. by destruct (schema st) as [[y w]|].
Qed.

(** [create or  replace procedure "it's" as] and [alter package S.p compile]. *)
Definition sample_create : statement :=
  mkStatement [] false (str "create") (str " ") (Some (str "or", str "  ", str "Replace", str " ")) (str "Procedure", None) (str " ") None (Quoted (str "it's")) (str " as").
Definition sample_alter : statement :=
  mkStatement (str " ") true (str "alter") (str " ") None (str "package", None) (str " ") (Some (Bare (str "s1"), [])) (Bare (str "p")) (str " compile").
Definition sample_show : show_command := mkShow [] (str "show") (str " ") (str "Errors") (str " ").

Lemma show_errors_of_last_witness :
  (exists p' q, handle_oracle_sql (Some (str "TEST")) (mkPlLast None None None) (statement_text sample_create) = Some (statement_text sample_create, p')
    /\ handle_oracle_sql (Some (str "TEST")) p' (show_text sample_show) = Some (q, p')
    /\ read_errors_sql q = Some (str "it's", str "PROCEDURE", str "TEST"))
  /\ exists p' q, handle_oracle_sql (Some (str "TEST")) (mkPlLast None None None) (statement_text sample_alter) = Some (statement_text sample_alter, p')
    /\ handle_oracle_sql (Some (str "TEST")) p' (show_text sample_show) = Some (q, p')
    /\ read_errors_sql q = Some (str "P", str "PACKAGE", str "S1").
Proof.
  assert (Hshow : show_ok sample_show) by (repeat split; try done; [apply (bool_decide_unpack _); by vm_compute|by repeat constructor]).
  split.
  - apply (show_errors_of_last (str "TEST") (mkPlLast None None None) sample_create sample_show); [|done|by repeat constructor| |by apply Nat.ltb_lt].
    + split; [done|done|done|done|split; [apply (bool_decide_unpack _); by vm_compute|done]|done|done|done|done|by repeat constructor|].
      intros _ Hk. apply (bool_decide_pack _) in Hk. by vm_compute in Hk.
    + apply (bool_decide_unpack _). by vm_compute.
  - apply (show_errors_of_last (str "TEST") (mkPlLast None None None) sample_alter sample_show); [|done|by repeat constructor| |by apply Nat.ltb_lt].
    + split; [done|done|done|done|split; [apply (bool_decide_unpack _); by vm_compute|done]|done|done|done|done|by repeat constructor|done].
    + apply (bool_decide_unpack _). by vm_compute.
Defined.
