(* ===== verification/History.v ===== *)
(** * The history of an interactive session (client/mysql.cc: fix_history,
    not_in_history, com_clear)

    A statement of several lines is added to the history as one line.  The history
    is kept by the readline library: here the list of its entries, the last one
    first. *)

From S2P Require Import Prelude.
From S2P Require Import CString.

Definition is_string_char (c : Z) : bool := (c =? 34) || (c =? "'"%chr) || (c =? "`"%chr).

(** The characters that a backslash protects in a string. *)
Definition is_escapable (c : Z) : bool := (c =? "'"%chr) || (c =? 34) || (c =? "\"%chr).

(** The loop: the converted text and the number of line ends; [str_char] is the
    open quote or zero. *)
Fixpoint fix_loop (str_char : Z) (ptr : list Z) : list Z * nat :=
  match ptr with
  | [] => ([], 0%nat)
  | c :: ptr' =>
      if is_string_char c then
        let '(s, n) := fix_loop (if str_char =? 0 then c else if str_char =? c then 0 else str_char) ptr' in (c :: s, n)
      else if c =? c_nl then
        let '(s, n) := fix_loop str_char ptr' in ((if str_char =? 0 then " "%chr else c_nl) :: s, S n)
      else if (c =? "\"%chr) && negb (str_char =? 0) then
        match ptr' with
        | c' :: ptr'' =>
            if is_escapable c' then let '(s, n) := fix_loop str_char ptr'' in (c :: c' :: s, n)
            else let '(s, n) := fix_loop str_char ptr' in (c :: s, n)
        | [] => ([c], 0%nat)
        end
      else let '(s, n) := fix_loop str_char ptr' in (c :: s, n)
  end.

Definition fix_history (final_command : list Z) (history : list (list Z)) : list (list Z) :=
  let '(fixed_buffer, ends) := fix_loop 0 (cstr final_command) in
  if (1 <? 1 + ends)%nat then fixed_buffer :: history else history.

Definition not_in_history (line : list Z) (history : list (list Z)) : bool :=
  match history with [] => true | old :: _ => negb (streq old line) end.

(** The code, the buffer and the history. *)
Definition com_clear (add_to_history : bool) (buffer : list Z) (history : list (list Z)) : Z * list Z * list (list Z) :=
  (0, [], if add_to_history then fix_history buffer history else history).

(** ** The line of a statement *)

(** A byte of the statement and the byte of the history at its place. *)
Definition joined (a b : Z) : Prop := b = a \/ (a = c_nl /\ b = " "%chr).

(** Nothing but line ends is changed, and the line ends are counted. *)
Lemma fix_loop_joined ptr str_char : Forall2 joined ptr (fst (fix_loop str_char ptr)) /\ snd (fix_loop str_char ptr) = length (List.filter (fun c => c =? c_nl) ptr).
Proof.
  remember (length ptr) as n eqn:Hn. revert ptr str_char Hn. induction n as [n IH] using (well_founded_induction lt_wf). intros ptr str_char ->.
  assert (IH' : forall p q, (length p < length ptr)%nat -> Forall2 joined p (fst (fix_loop q p)) /\ snd (fix_loop q p) = length (List.filter (fun c => c =? c_nl) p))
    by (intros p q Hp; by apply (IH (length p) Hp)).
  clear IH. destruct ptr as [|c ptr]; [by split; [constructor|]|]. cbn [fix_loop List.filter].
  pose proof (fun q => IH' ptr q ltac:(cbn; lia)) as I1. destruct (is_string_char c) eqn:Ec.
  { assert (Hc : (c =? c_nl) = false) by (unfold is_string_char in Ec; destruct (Z.eqb_spec c c_nl) as [->|]; [done|done]). rewrite Hc.
    destruct (I1 (if str_char =? 0 then c else if str_char =? c then 0 else str_char)) as [F N].
    destruct (fix_loop _ ptr) as [s k]. cbn [fst snd] in *. split; [constructor; [by left|done]|done]. }
  destruct (Z.eqb_spec c c_nl) as [->|Hc].
  { destruct (I1 str_char) as [F N]. destruct (fix_loop str_char ptr) as [s k]. cbn [fst snd length] in *. split; [|by rewrite N].
    constructor; [|done]. destruct (str_char =? 0); [by right|by left]. }
  assert (Hone : let r := let '(s, n) := fix_loop str_char ptr in (c :: s, n) in
    Forall2 joined (c :: ptr) (fst r) /\ snd r = length (List.filter (fun c => c =? c_nl) ptr)).
  { destruct (I1 str_char) as [F N]. destruct (fix_loop str_char ptr) as [s k]. cbn [fst snd] in *. split; [constructor; [by left|done]|done]. }
  destruct ((c =? "\"%chr) && _); [|exact Hone]. destruct ptr as [|c' ptr]; [split; [by repeat constructor; left|done]|].
  destruct (is_escapable c') eqn:Ee; [|exact Hone]. cbn [List.filter].
  assert (Hc' : (c' =? c_nl) = false) by (unfold is_escapable in Ee; destruct (Z.eqb_spec c' c_nl) as [->|]; done). rewrite Hc'.
  destruct (IH' ptr str_char ltac:(cbn; lia)) as [F N]. destruct (fix_loop str_char ptr) as [s k]. cbn [fst snd] in *.
  split; [constructor; [by left|]; constructor; [by left|done]|done].
Qed.

(** A statement of one line is not added again; a longer one is added as one line
    that differs from it only in line ends that have become spaces. *)
Lemma fix_history_adds b history : c_string b ->
  fix_history b history = history /\ c_nl ∉ b
  \/ exists line, fix_history b history = line :: history /\ c_nl ∈ b /\ Forall2 joined b line.
Proof.
  intros Hb. unfold fix_history. rewrite cstr_c_string by done. destruct (fix_loop_joined b 0) as [F N].
  destruct (fix_loop 0 b) as [s k]. cbn [fst snd] in *. destruct (Nat.ltb_spec 1 (1 + k)) as [Hk|Hk].
  - right. exists s. split_and!; [done| |done]. destruct (List.filter (fun c => c =? c_nl) b) as [|x l] eqn:E; [cbn in N; lia|].
    assert (Hx : In x (List.filter (fun c => c =? c_nl) b)) by (rewrite E; by left). apply filter_In in Hx as [Hin Hx%Z.eqb_eq]. subst x. by apply list_elem_of_In.
  - left. split; [done|]. intros Hin%list_elem_of_In.
    assert (Hf : In c_nl (List.filter (fun c => c =? c_nl) b)) by (apply filter_In; by split). destruct (List.filter _ b); [done|cbn in N; lia].
Qed.
